(* ===== verification/_CoqProject ===== *)
-Q . S2P
Prelude.v
JsObject.v
JsNumber.v
JsNumberFacts.v
JsValue.v
JsJson.v
Lodash.v
QueryTypes.v
Query.v
QueryFacts.v
QueryNormalFacts.v
ExtraFormData.v
ExtraFormDataFacts.v
PostProcessing.v
PostProcessingFacts.v
ReduxUtils.v
DataMask.v
DataMaskFacts.v
NativeFilters.v
Layout.v
LayoutFacts.v
LayoutReducer.v
LayoutReducerFacts.v
LayoutMoveFacts.v
LayoutTabsFacts.v
LayoutParentsFacts.v
LayoutReach.v
LayoutDrop.v
LayoutHydrate.v
LayoutHydrateFacts.v
LayoutExamples.v
DashboardState.v
DashboardStateFacts.v
DashboardReducers.v
ScopeTree.v
ScopeTreeFacts.v
ScopeRoundtrip.v
ChartQueries.v
ChartQueriesFacts.v
Scope.v
ScopeFacts.v
Registry.v
Lru.v
Folders.v
FoldersFacts.v
ChartReducer.v
FormData.v
AdhocFilter.v
AdhocFilterFacts.v
TimeRange.v
TimeRangeFacts.v
AdhocMetric.v
DashboardContext.v
DashboardContextFacts.v
Explore.v
ExploreFacts.v
ExploreReducer.v
ExploreReducerFacts.v
SqlLab.v
SqlLabFacts.v
SqlLabEditors.v
SqlLabViews.v
SqlLabQueries.v
SqlLabExamples.v
SqlLabStorage.v
SqlLabStorageFacts.v
Colors.v
ColorsFacts.v
NaturalSort.v
ChartData.v
ChartDataFacts.v
Pivot.v
PivotFacts.v
Switchboard.v
SwitchboardFacts.v
Embedded.v
AsyncEvent.v
AsyncEventFacts.v
Connection.v
ConnectionFacts.v
