(* ===== verification/Prelude.v ===== *)
(** * Liteset front end: a verification library

    Liteset is a business-intelligence application derived from Apache
    Superset.  This library models the part of its TypeScript front end that
    decides what a chart asks the server for: the form data of a chart, the
    filters of the dashboard around it, the scopes of these filters, and the
    query context built from all of them; the state machines of the editors of
    the application, the layout of a dashboard, SQL Lab and the chart editor with
    the filters and metrics a user composes in it; the events of queries that run
    in the background; the colours of the labels in the charts and the data of
    pivot tables; the client that sends the requests and the messages between an
    embedded dashboard and its page; and the registries, caches and reducers this
    rests on.

    Comments name the sources by short prefixes:
    - [core/] is [src/superset-frontend/packages/superset-ui-core/src/],
    - [controls/] is [src/superset-frontend/packages/superset-ui-chart-controls/src/],
    - [app/] is [src/superset-frontend/src/],
    - [plugins/] is [src/superset-frontend/plugins/].
    A comment [@source path first-last symbol] before a definition names the
    lines it translates.

    ** How the parts interact

    The user configures native filters in a dialog, which computes the scope of
    each filter from the checked components of the layout
    ([FilterScope/utils.ts]) and saves the changes ([FiltersConfigModal/utils.ts],
    [reducers/nativeFilters.ts], [dataMask/reducer.ts]).  Choosing a value in a
    filter updates its data mask.  [activeAllDashboardFilters.ts] combines the
    masks with the scopes into the active filters of the dashboard;
    [getFormDataWithExtraFilters.ts] gives each chart the merged extra form data
    of the filters in whose scope it is ([nativeFilters/utils.ts]).  From the
    resulting form data [core/query] builds the query objects, to which the
    operators of [controls/operators] add post-processing rules, and the query
    context that is sent.  Each chart plugin has a [buildQuery.ts] that
    calls it with a builder of its own, which adds columns, orders and pages; the
    time ranges among the filters are texts that the dialog of the date filter
    writes and reads ([core/time-comparison]).  [SupersetClientClass.ts] sends the
    requests once it has a token.  [chartReducer.ts] keeps the state of the charts
    meanwhile; when the server answers that a query runs in the background,
    [middleware/asyncEvent.ts] waits for its event and fetches the result.  The
    plugins turn the records of the result into what their library draws, those
    of ECharts with the functions of [utils/series.ts], [utils/forecast.ts] and
    [utils/treeBuilder.ts].

    In the chart editor the form data come from controls.  [explore/store.js]
    and [controlUtils/getControlState.ts] compute the state of the controls
    from a control panel and form data, and [standardizedFormData.ts] carries
    metrics, columns and remembered form data over when the user changes the
    visualisation; [reducers/exploreReducer.js] applies every change to controls
    and form data together.  The filters and metrics among the values are
    instances of [AdhocFilter] and [AdhocMetric], which turn into SQL and back;
    [simpleFilterToAdhoc.ts] makes them from the clauses of a dashboard.  A chart
    that is opened from a dashboard brings along the filters of the dashboard:
    [getFormDataWithDashboardContext.ts] adds them to the form data.

    The components of a dashboard form a tree that the user edits by drag and
    drop.  [actions/hydrate.js] builds the first layout from the stored one and
    the charts.  [actions/dashboardLayout.js] turns a drop into actions, and
    [reducers/dashboardLayout.js] computes the next layout for each drop,
    deletion and change; the filter dialog, the scopes and the charts read it.
    [reducers/dashboardState.js] keeps which of its tabs are active, and
    [actions/dashboardState.js] brings back the inner tabs of the chosen one.
    Filter boxes, the older kind of filter, have a selector of their own for the
    charts they apply to, a tree of nodes made from the layout
    ([getFilterScopeNodesTree.js]) whose checked nodes become a scope again
    ([getFilterScopeFromNodesTree.js]).
    The charts of a dashboard take the colours of their labels from scales
    ([core/color]) that share the colours a user enforced and a map of the
    labels, so that a label looks the same everywhere.  SQL Lab is a separate
    editor: its reducer ([SqlLab/reducers/sqlLab.js]) keeps the tabs, the edits
    that are not saved, the tables and the queries with the state the server
    reports for them; [persistSqlLabStateEnhancer.js] writes them to the local
    storage and [getInitialState.ts] reads them back.

    A dashboard can be embedded in another page.  The page passes its settings
    in the address of the frame, and afterwards both talk over a channel with a
    [Switchboard] at each end, whose methods the other end may call.

    ** The files

    The language.
    - [Prelude]: results with exceptions, loops that may throw, tactics.
    - [JsObject]: [Map] and plain objects as ordered association lists, with
      their laws and equality up to key order; [JsNumber]: doubles and their
      text, [JsNumberFacts]: integers below 2^53 are exact, and their text is
      read back; [JsValue]: JSON-like values with truthiness, [===] on primitives,
      [String] and [Number]; [JsJson]: [JSON.parse].
    - [Lodash]: the third-party functions the code calls, as a class with
      their documented laws and a reference instance.

    The query pipeline.
    - [QueryTypes]: columns, metrics, filters, their guards and labels
      ([core/query/types], [getColumnLabel], [getMetricLabel], [getXAxis]).
    - [Query]: [extractQueryFields], [extractExtras], [processFilters],
      [processExtraFormData], [buildQueryObject], [normalizeOrderBy],
      [normalizeTimeColumn], [buildQueryContext], [DatasourceKey].
    - [QueryFacts], [QueryNormalFacts]: no filter is lost, labels are distinct,
      limits are numbers, overrides have a fixed precedence, normalised queries
      have a usable order and one time axis.
    - [PostProcessing], [PostProcessingFacts]: the operators and the agreement
      of the column names they exchange.
    - [ChartQueries]: the queries of the charts of the plugins, among them the
      mixed chart, whose form data are those of two charts, and the table with the
      closure that keeps its last filters.  [ChartQueriesFacts]: the mixed chart
      sends the queries of two charts; a table asks for the page the user is on,
      and for the first one after its filters have changed.
    - [ChartData]: the records of a result as series, forecasts and trees.
      [ChartDataFacts]: a tree has one leaf per record and adds up; the series
      have one point per record, with its own total, also when sorted.
    - [TimeRange], [TimeRangeFacts]: custom time ranges; what the dialog writes
      is read back.  Also the filters of a time comparison and its offsets.

    Dashboard filters.
    - [ExtraFormData], [ExtraFormDataFacts]: merging and aggregating extra form
      data, scope keys, grouping by target; merging is a monoid and grouping is
      the aggregate over the filters in scope.
    - [ReduxUtils]: keyed objects and arrays in a state object.
    - [DataMask], [DataMaskFacts]: the reducer of the filter values, its
      invariant over all action sequences, and what each action changes.  The
      immutable-update library is an interface with a reference instance.
    - [NativeFilters]: the reducer of the filter configuration and the dialog's
      check for circular dependencies, proved to terminate and to decide
      reachability of a cycle.
    - [Layout], [LayoutFacts]: nesting rules, parents, charts below a component.
    - [LayoutReducer]: the components, drops and the reducer of the layout with
      all its actions.  [LayoutReducerFacts], [LayoutMoveFacts],
      [LayoutTabsFacts], [LayoutParentsFacts]: what deleting, moving, top-level
      tabs and the update of the parents do.  [LayoutReach]: the layouts that
      valid actions reach are forests, and where this fails.
    - [LayoutDrop]: the thunk that handles a drop, which drops it refuses and
      what the layout is after one; titles, resizing, unsaved changes.
    - [LayoutHydrate], [LayoutHydrateFacts]: the layout at the start has a
      component for every chart, no row is wider than the grid, and the paths
      of parents are right.  [LayoutExamples]: a dashboard on which the
      theorems about layouts are evaluated.
    - [DashboardState], [DashboardStateFacts]: the state of a dashboard with all
      its actions.  The search for the tabs to restore takes one step for each
      inactive tab it finds and ends; switching to another tab and back
      restores the active and inactive tabs at every depth.
    - [DashboardReducers]: the smaller reducers of a dashboard, for its slices,
      its information and its datasources, and the position of a drop.
    - [ScopeTree]: the selector of the filter boxes, the scopes that come out of
      it, and the module and reducer that keep them.  [ScopeTreeFacts]: the tree
      mirrors a well-formed layout.  [ScopeRoundtrip]: the charts in the scope
      that is saved are those that were checked, where no charts lie
      beside tabs with tabs of their own, and there may be one too many elsewhere.
    - [Scope], [ScopeFacts]: charts in scope, active filters, related charts,
      the round trip of the scope dialog.
    - [FormData]: the form data of a chart, with the caches of the module.

    SQL Lab.
    - [SqlLab]: the state, the reducer with all its actions, the actions that
      read the state, names of tabs, timestamps and the effect on local storage.
    - [SqlLabFacts], [SqlLabEditors]: keyed objects, timestamps and each action
      on the editors.  [SqlLabViews]: the invariant of the reachable states, and
      the refinement of stored editors and unsaved edits by the editors as the
      user sees them.  [SqlLabQueries]: refreshing, stopping, closing and
      switching.  [SqlLabExamples]: a session on which they are evaluated.
    - [SqlLabStorage], [SqlLabStorageFacts]: what is written to the local storage
      and the state at the start; a reload keeps what the user sees.

    Colours.
    - [Colors]: the map of labels, scales, namespaces and analogous colours, on
      a heap of shared objects.  [ColorsFacts]: labels keep their colours and
      do not collide while there are enough colours; a reference instance of the
      third-party scale.

    Asynchronous queries.
    - [AsyncEvent]: listeners, events that come early, polling, web socket.
      [AsyncEventFacts]: a chart that waits is answered once its event is
      among those that the server sends, and what is lost otherwise.

    The chart editor.
    - [Explore]: the state of a control and of a panel, and the memory of form
      data.  [ExploreFacts]: select controls keep the choices among their values, the memory gives
      back the form data of a visualisation, and how it grows.
    - [ExploreReducer], [ExploreReducerFacts]: the reducer with all its actions;
      stashed fields come back, a change of the visualisation continues the
      session of the memory, and a new datasource keeps the values it has.
    - [AdhocFilter], [AdhocFilterFacts]: filters, their SQL, from which values
      cannot break out when the first one is quoted, and the round trip of a
      clause through a filter.  [AdhocMetric]: metrics and the round trip through
      SQL.
    - [DashboardContext], [DashboardContextFacts]: the form data of a chart that
      is opened from a dashboard; no filter of either is lost.

    Pivot tables.
    - [NaturalSort]: the order of labels, and sorting.  [Pivot]: aggregators and
      the data of the table.  [PivotFacts]: each cell aggregates exactly the
      records of its group, keys are the groups, counts add up, sorting keeps the
      keys, no value throws, and the natural order has a circle.

    The connection.
    - [Connection]: the client with its token, waiting requests, open calls, cache
      and timeouts, as a step function on events.  [ConnectionFacts]: a request
      leaves only with a token, and with the newest one; every request is settled
      exactly once.

    Embedding.
    - [Switchboard]: both ends of the channel with their queues.
      [SwitchboardFacts]: every call is settled with the answer of its method
      when the ends have different names, and the collision when they have not.
    - [Embedded]: the settings in the address, read back by the frame as they
      were, and when the token is renewed.

    Infrastructure.
    - [Registry]: values, loaders, promises, listeners and overwrite policy; a
      reachable registry never holds a stale promise.
    - [Lru]: the bounded cache.  [Folders], [FoldersFacts]: the folder tree of a
      dataset shows every item once.  [ChartReducer]: the state of the charts,
      with in-place changes of the state object made visible.

    ** Conventions

    Data are kept as the source has them: form data, masks and query objects
    are values of [jsval], records are used where the source has an interface
    whose fields are all read.  Code that throws returns a [result]; code with
    state takes and returns it.  Class and reducer invariants are stated on
    sequences of operations.  Typed views of well-formed inputs (an encoded
    adhoc filter, a layout that is a tree) appear in the hypotheses of theorems
    only, never in the definitions.

    Recursion that is not structural has fuel.  The text routines ([split],
    digits of a number, [JSON.parse]) take the length of the text, or one more,
    and consume a character or halve the number at each step.
    [hasCircularDependency] needs two levels more than there are filters with
    dependencies, and is proved to answer with them.  [getChartIdsFromComponent]
    needs more fuel than the height of the component, and is proved to answer
    on every layout without cycles; on a cyclic layout the source does not
    return either.  [recursivelyDeleteChildren] deletes a component at each
    level, so that the number of components is enough.  The widths and the
    paths of parents of a layout take one level more than there are components
    and throw the stack overflow of the source beyond; on a well-formed layout
    [update_parents_list] is proved to succeed.  The retries of an early event
    in [AsyncEvent] are steps of a relation, and the number of retries left is
    the measure by which a waiting chart is answered.  [interleave] takes as many
    rounds as the longest column has colours.  The trees of the scope
    selector take two levels more than there are components and throw the stack
    overflow of the source beyond; on a well-formed layout they are proved to be
    built.  The search for the tabs to
    restore has one step for the tab and one for each inactive tab, and is
    proved to end with them.  The delivery of messages in
    [Switchboard] is a sequence of steps, and the work left in the queues bounds
    how many can follow each other.

    Chart ids are integers below 2^53 and elements of [Z]; other numbers are
    doubles.  Strings are byte strings; trimming knows the ASCII blanks only.

    The events that can follow each other in [Connection] without the application
    are bounded by the tasks that wait and the open calls.

    Parameters stand for code outside of the repository or for the environment:
    [URL] and the cache of the browser, the parser that keeps big integers, the
    formats of dayjs, lodash with its functions on collections (class
    [Collections]), the collator of the language, immer, the id generator nanoid, the clock, [Date.parse], the
    translation function, [shallowEqual] of react-redux (class [ShallowEqual]),
    the ordinal scale of d3 (class [OrdinalScale]), tinycolor (class
    [TinyColor]), feature flags, loaders, control panels and overrides of form
    data registered by plugins, random names of filters and metrics, the methods
    the two ends of a channel define, and the parameters of the page's URL.

    ** What is not modelled

    React components and hooks, the thunks around HTTP requests and their retries,
    the options that chart libraries read, which the plugins build from series,
    trees and pivot tables, arithmetic on dates, number, time and currency formats
    apart from timestamps, translations, the undo library, sequential colour
    schemes, the creation of the frame of an embedded dashboard, and the Python
    server.  Members inherited from [Object.prototype] are not represented.  A next
    extension would take the legends and annotations of the charts, and the
    columns of the table chart with their comparison: they are plain functions,
    but most of what they build is read by third-party chart libraries only. *)

From stdpp Require Import base strings option numbers list list_numbers.

(** ** Results

    JavaScript code that may throw is modelled in an error monad.  The
    payload of [Throw] keeps the class of the error and its message. *)

Inductive jserror : Type :=
| TypeError (message : string)
| GenericError (message : string).

Inductive result (A : Type) : Type :=
| Ok (value : A)
| Throw (error : jserror).
Arguments Ok {A} value.
Arguments Throw {A} error.

#[export] Instance result_ret : MRet result := λ A x, Ok x.
#[export] Instance result_bind : MBind result := λ A B f m,
  match m with
  | Ok x => f x
  | Throw e => Throw e
  end.
#[export] Instance result_fmap : FMap result := λ A B f m,
  match m with
  | Ok x => Ok (f x)
  | Throw e => Throw e
  end.

#[export] Instance jserror_eq_dec : EqDecision jserror.
Proof. solve_decision. Defined.
#[export] Instance result_eq_dec {A} `{EqDecision A} : EqDecision (result A).
Proof. solve_decision. Defined.

Declare Scope js_scope.
Delimit Scope js_scope with js.

(** [xs.map(f)] where the callback may throw: the first error wins. *)
Fixpoint map_result {A B} (f : A → result B) (xs : list A) : result (list B) :=
  match xs with
  | [] => Ok []
  | x :: xs => y ← f x; ys ← map_result f xs; Ok (y :: ys)
  end.

(** [xs.forEach(...)] updating a state, where the callback may throw. *)
Fixpoint fold_result {A S} (f : S → A → result S) (s : S) (xs : list A)
    : result S :=
  match xs with
  | [] => Ok s
  | x :: xs => s' ← f s x; fold_result f s' xs
  end.

(** [xs.filter(f)] where the callback may throw: the first error wins. *)
Fixpoint filter_result {A} (f : A → result bool) (xs : list A) : result (list A) :=
  match xs with
  | [] => Ok []
  | x :: xs =>
      keep ← f x;
      rest ← filter_result f xs;
      Ok (if (keep : bool) then x :: rest else rest)
  end.

(** ** Tactics *)

Create HintDb liteset.

(** Splits every [match] and [if] of the goal that does not depend on a bound
    variable, keeping the equations. *)
Ltac break_match :=
  match goal with
  | |- context [match ?x with _ => _ end] => destruct x eqn:?
  end.

Ltac break_match_in H :=
  match type of H with
  | context [match ?x with _ => _ end] => destruct x eqn:?
  end.

(** Inverts a computation of the [result] monad that is known to succeed. *)
Ltac invert_ok :=
  repeat match goal with
  | H : Ok _ = Ok _ |- _ => injection H as H; try subst
  | H : Throw _ = Ok _ |- _ => discriminate H
  | H : Ok _ = Throw _ |- _ => discriminate H
  | H : mret _ = Ok _ |- _ => unfold mret, result_ret in H
  | H : (?m ≫= ?f) = Ok _ |- _ =>
      unfold mbind, result_bind in H
  | H : (match ?m with Ok _ => _ | Throw _ => _ end) = Ok _ |- _ =>
      let E := fresh "E" in destruct m eqn:E; [| discriminate H]
  end.

(** Closes a decidable statement without variables by evaluating it. *)
Ltac solve_decided := apply (bool_decide_unpack _); vm_compute; exact I.

(** Closes [∀ x, x ∈ xs → x ∈ ys → False] for two literal lists. *)
Ltac solve_disjoint :=
  intros ?x Hx Hy;
  repeat (apply elem_of_cons in Hx as [->|Hx];
    [revert Hy; apply (bool_decide_unpack _); vm_compute; exact I|]);
  by apply elem_of_nil in Hx.

(** ** Generic lemmas *)

Lemma bind_Ok {A B} (f : A → result B) x : (Ok x ≫= f) = f x.
Proof. done. Qed.

Lemma Ok_inj {A} (x y : A) : Ok x = Ok y → x = y.
Proof. by intros [= ->]. Qed.

Lemma bind_Throw {A B} (f : A → result B) e : (Throw e ≫= f) = Throw e.
Proof. done. Qed.

Lemma bind_Ok_inv {A B} (f : A → result B) m y :
  (m ≫= f) = Ok y → ∃ x, m = Ok x ∧ f x = Ok y.
Proof. destruct m as [x|e]; intros H; [by exists x|done]. Qed.

Lemma map_result_ok {A B} (f : A → B) (g : A → result B) xs :
  (∀ x, x ∈ xs → g x = Ok (f x)) → map_result g xs = Ok (f <$> xs).
Proof.
  induction xs as [|x xs IH]; intros H; [done|]. simpl.
  rewrite H by left. simpl. rewrite IH; [done|]. intros y Hy. apply H. by right.
Qed.

Lemma filter_result_ok {A} (f : A → bool) (g : A → result bool) xs :
  (∀ x, x ∈ xs → g x = Ok (f x)) →
  filter_result g xs = Ok (filter (λ x, f x = true) xs).
Proof.
  induction xs as [|x xs IH]; intros H; [done|]. simpl. rewrite H by left. rewrite bind_Ok.
  rewrite IH by (intros; apply H; by right). rewrite bind_Ok, filter_cons.
  by destruct (f x).
Qed.

Lemma filter_result_decide {A} (f : A → result bool) (P : A → Prop) `{∀ x, Decision (P x)} xs :
  (∀ x, f x = Ok (bool_decide (P x))) → filter_result f xs = Ok (filter P xs).
Proof.
  intros Hf. rewrite (filter_result_ok (λ x, bool_decide (P x))) by done. f_equal.
  apply list_filter_iff. intros x. apply bool_decide_eq_true.
Qed.

Lemma fold_result_app_inv {A S} (f : S → A → result S) s xs ys s' :
  fold_result f s (xs ++ ys) = Ok s' →
  ∃ s1, fold_result f s xs = Ok s1 ∧ fold_result f s1 ys = Ok s'.
Proof.
  revert s. induction xs as [|x xs IH]; intros s H; [by exists s|].
  apply bind_Ok_inv in H as (s1 & H1 & H). apply IH in H as (s2 & H2 & H).
  exists s2. split; [|done]. simpl. by rewrite H1.
Qed.

Lemma fold_result_app {A S} (f : S → A → result S) s xs ys :
  fold_result f s (xs ++ ys) = s1 ← fold_result f s xs; fold_result f s1 ys.
Proof.
  revert s. induction xs as [|x xs IH]; intros s; [done|]. simpl.
  destruct (f s x) as [s'|e]; [|done]. exact (IH s').
Qed.

Lemma map_result_length {A B} (g : A → result B) xs ys :
  map_result g xs = Ok ys → length ys = length xs.
Proof.
  revert ys. induction xs as [|x xs IH]; intros ys H; simpl in H; invert_ok; [done|].
  simpl. f_equal. by apply IH.
Qed.

Lemma no_elements {A} (l : list A) : (∀ x, x ∉ l) → l = [].
Proof. destruct l as [|x l]; [done|]. intros Hx. destruct (Hx x). left. Qed.

Lemma foldl_cons_rev {A} (acc xs : list A) :
  foldl (λ acc x, acc ++ [x]) acc xs = acc ++ xs.
Proof.
  revert acc. induction xs as [|x xs IH]; intros acc; simpl.
  - by rewrite app_nil_r.
  - rewrite IH. by rewrite <- app_assoc.
Qed.

Lemma append_cons c (s r : string) : String c s +:+ r = String c (s +:+ r).
Proof. done. Qed.

Lemma append_empty_l (r : string) : EmptyString +:+ r = r.
Proof. done. Qed.

Lemma string_app_nil_r s : s +:+ EmptyString = s.
Proof. induction s as [|c s IH]; [done|]. by apply (f_equal (String c)). Qed.

Lemma string_app_assoc a b d : a +:+ (b +:+ d) = (a +:+ b) +:+ d.
Proof. induction a as [|x a IH]; [done|]. exact (f_equal (String x) IH). Qed.

Lemma string_length_app a b : String.length (a +:+ b) = String.length a + String.length b.
Proof.
  induction a as [|c a IH]; [done|].
  change (S (String.length (a +:+ b)) = S (String.length a) + String.length b). lia.
Qed.

Lemma string_app_length_inj a b x y :
  String.length a = String.length b → a +:+ x = b +:+ y → a = b ∧ x = y.
Proof.
  revert b. induction a as [|c a IH]; intros [|d b] Hl H; try done.
  injection Hl as Hl. injection H as <- H. by destruct (IH b Hl H) as [-> ->].
Qed.

Lemma string_app_inj_r a b x : a +:+ x = b +:+ x → a = b.
Proof.
  intros H. apply (string_app_length_inj a b x x); [|done].
  apply (f_equal String.length) in H. rewrite !string_length_app in H. lia.
Qed.

Lemma string_suffix_or a b x y :
  a +:+ x = b +:+ y → (∃ d, x = d +:+ y) ∨ (∃ d, y = d +:+ x).
Proof.
  revert b. induction a as [|c a IH]; intros b H; [left; by exists b|].
  destruct b as [|d b]; [right; by exists (String c a)|].
  injection H as <- H. by eapply IH.
Qed.
