(* ===== verification/JsObject.v ===== *)
(** * Ordered string-keyed collections of JavaScript

    Two collections of the language are modelled as association lists:

    - [Map] keeps its entries in insertion order ([aget], [aset], [adel]);
    - a plain object lists its own keys with the array indices first, in
      ascending numeric order, and the other strings after them in insertion
      order ([oset]; reading and deleting are the same as for [Map]).

    [Object.keys], [Object.values] and [Object.entries] are [akeys], [avalues]
    and the list itself.  Inherited members of [Object.prototype] are not
    represented: an object has exactly the keys of its list. *)

From stdpp Require Import base strings option numbers list.
From S2P Require Import Prelude.

Section collections.
Context {V : Type}.
Implicit Types (k : string) (v : V) (o : list (string * V)).

Definition akeys o : list string := o.*1.

Definition avalues o : list V := o.*2.

Fixpoint aget k o : option V :=
  match o with
  | [] => None
  | (k', v) :: o => if decide (k = k') then Some v else aget k o
  end.

Definition ahas k o : bool := bool_decide (is_Some (aget k o)).

(** [map.set(k, v)]: overwrites in place, otherwise appends. *)
Fixpoint aset k v o : list (string * V) :=
  match o with
  | [] => [(k, v)]
  | (k', v') :: o =>
      if decide (k = k') then (k, v) :: o else (k', v') :: aset k v o
  end.

(** [map.delete(k)] and [delete obj[k]]. *)
Fixpoint adel k o : list (string * V) :=
  match o with
  | [] => []
  | (k', v') :: o => if decide (k = k') then adel k o else (k', v') :: adel k o
  end.
End collections.

(** ** Array indices

    A key is an array index when it is the canonical decimal form of an
    integer below 2^32 - 1. *)

Definition digit_value (c : Ascii.ascii) : option N :=
  let n := Ascii.N_of_ascii c in
  if (48 <=? n)%N && (n <=? 57)%N then Some (n - 48)%N else None.

Fixpoint digits_value (acc : N) (s : string) : option N :=
  match s with
  | EmptyString => Some acc
  | String c s =>
      match digit_value c with
      | Some d => digits_value (10 * acc + d)%N s
      | None => None
      end
  end.

Definition array_index (s : string) : option N :=
  match s with
  | EmptyString => None
  | String c rest =>
      match digit_value c with
      | None => None
      | Some d =>
          if (d =? 0)%N then
            match rest with EmptyString => Some 0%N | _ => None end
          else
            n ← digits_value d rest;
            if (n <? 4294967295)%N then Some n else None
      end
  end.

Section objects.
Context {V : Type}.
Implicit Types (k : string) (v : V) (o : list (string * V)).

(** A new array index goes before the first key that is a larger index or no
    index at all. *)
Fixpoint insert_index (n : N) k v o : list (string * V) :=
  match o with
  | [] => [(k, v)]
  | (k', v') :: o' =>
      match array_index k' with
      | Some m =>
          if (m <? n)%N then (k', v') :: insert_index n k v o' else (k, v) :: o
      | None => (k, v) :: o
      end
  end.

(** [obj[k] = v] *)
Definition oset k v o : list (string * V) :=
  match aget k o with
  | Some _ => aset k v o
  | None =>
      match array_index k with
      | Some n => insert_index n k v o
      | None => o ++ [(k, v)]
      end
  end.

(** [{...a, ...b}] *)
Definition ospread (a b : list (string * V)) : list (string * V) :=
  foldl (λ acc kv, oset kv.1 kv.2 acc) a b.

(** [Object.fromEntries(entries)] *)
Definition from_entries (entries : list (string * V)) : list (string * V) :=
  ospread [] entries.

(** [new Map(entries)] *)
Definition map_of (entries : list (string * V)) : list (string * V) :=
  foldl (λ acc kv, aset kv.1 kv.2 acc) [] entries.
End objects.

(** ** Laws *)

Section laws.
Context {V : Type}.
Implicit Types (k : string) (v : V) (o : list (string * V)).

Lemma aget_aset k k' v o :
  aget k (aset k' v o) = if decide (k = k') then Some v else aget k o.
Proof.
  induction o as [|[k0 v0] o IH]; simpl; [by repeat case_decide|].
  destruct (decide (k' = k0)) as [->|Hne]; simpl.
  - by destruct (decide (k = k0)).
  - destruct (decide (k = k0)) as [->|]; [by rewrite decide_False by congruence|].
    apply IH.
Qed.

Lemma aget_aset_eq k v o : aget k (aset k v o) = Some v.
Proof. rewrite aget_aset. by rewrite decide_True. Qed.

Lemma aget_aset_ne k k' v o : k ≠ k' → aget k (aset k' v o) = aget k o.
Proof. intros. rewrite aget_aset. by rewrite decide_False. Qed.

Lemma aget_adel k k' o :
  aget k (adel k' o) = if decide (k = k') then None else aget k o.
Proof.
  induction o as [|[k0 v0] o IH]; simpl; [by case_decide|].
  destruct (decide (k' = k0)) as [->|Hne]; simpl.
  - rewrite IH. by repeat case_decide.
  - rewrite IH. destruct (decide (k = k0)) as [->|]; [|done].
    by rewrite decide_False by congruence.
Qed.

Lemma aget_adel_eq k o : aget k (adel k o) = None.
Proof. rewrite aget_adel. by rewrite decide_True. Qed.

Lemma aget_adel_ne k k' o : k ≠ k' → aget k (adel k' o) = aget k o.
Proof. intros. rewrite aget_adel. by rewrite decide_False. Qed.

Lemma aget_app k o1 o2 :
  aget k (o1 ++ o2) = match aget k o1 with Some v => Some v | None => aget k o2 end.
Proof.
  induction o1 as [|[k0 v0] o1 IH]; simpl; [done|]. by case_decide.
Qed.

Lemma aget_None k o : aget k o = None ↔ k ∉ akeys o.
Proof.
  unfold akeys. induction o as [|[k0 v0] o IH]; simpl.
  - split; [intros _; by apply not_elem_of_nil|done].
  - rewrite not_elem_of_cons, <- IH. case_decide; naive_solver.
Qed.

Lemma aget_is_Some k o : is_Some (aget k o) ↔ k ∈ akeys o.
Proof.
  rewrite <- not_eq_None_Some, aget_None.
  split; [apply dec_stable|tauto].
Qed.

Lemma aget_Some_elem k v o : aget k o = Some v → (k, v) ∈ o.
Proof.
  induction o as [|[k0 v0] o IH]; simpl; [done|].
  case_decide; intros ?; simplify_eq; [left|right; by apply IH].
Qed.

Lemma elem_aget k v o : NoDup (akeys o) → (k, v) ∈ o → aget k o = Some v.
Proof.
  unfold akeys. induction o as [|[k0 v0] o IH]; simpl; intros Hnd Hin.
  { by apply elem_of_nil in Hin. }
  apply NoDup_cons in Hnd as [Hk Hnd]. apply elem_of_cons in Hin as [Heq|Hin].
  - simplify_eq. by rewrite decide_True.
  - rewrite decide_False; [by apply IH|]. intros ->. apply Hk.
    apply list_elem_of_fmap. by exists (k0, v).
Qed.

Lemma akeys_aset_in k v o : k ∈ akeys o → akeys (aset k v o) = akeys o.
Proof.
  unfold akeys. induction o as [|[k0 v0] o IH]; simpl; intros H.
  { by apply elem_of_nil in H. }
  case_decide; simpl; [by subst|]. f_equal. apply IH.
  apply elem_of_cons in H as [?|?]; [congruence|done].
Qed.

Lemma aset_app_r k v o o' : k ∉ akeys o → aset k v (o ++ o') = o ++ aset k v o'.
Proof.
  induction o as [|[k' w] o IH]; intros Hk; [done|]. apply not_elem_of_cons in Hk as [Hne Hk].
  cbn. rewrite decide_False by done. by rewrite IH.
Qed.

Lemma aset_fresh k v o : k ∉ akeys o → aset k v o = o ++ [(k, v)].
Proof.
  unfold akeys. induction o as [|[k0 v0] o IH]; simpl; intros H; [done|].
  apply not_elem_of_cons in H as [??]. rewrite decide_False by done. by rewrite IH.
Qed.

Lemma adel_fresh k o : k ∉ akeys o → adel k o = o.
Proof.
  unfold akeys. induction o as [|[k0 v0] o IH]; simpl; intros H; [done|].
  apply not_elem_of_cons in H as [??]. rewrite decide_False by done. by rewrite IH.
Qed.

Lemma elem_of_akeys_aset k k' v o : k ∈ akeys (aset k' v o) ↔ k = k' ∨ k ∈ akeys o.
Proof.
  rewrite <- !aget_is_Some, aget_aset. case_decide; [naive_solver eauto|naive_solver].
Qed.

Lemma elem_of_akeys_adel k k' o : k ∈ akeys (adel k' o) ↔ k ≠ k' ∧ k ∈ akeys o.
Proof.
  rewrite <- !aget_is_Some, aget_adel.
  case_decide; [|naive_solver]. split; [by intros [? ?]|naive_solver].
Qed.

Lemma NoDup_akeys_aset k v o : NoDup (akeys o) → NoDup (akeys (aset k v o)).
Proof.
  intros H. destruct (decide (k ∈ akeys o)) as [Hin|Hin].
  - by rewrite akeys_aset_in.
  - rewrite aset_fresh by done. unfold akeys in *. rewrite fmap_app. simpl.
    apply NoDup_app. split; [done|]. split; [|apply NoDup_singleton].
    intros x Hx ->%list_elem_of_singleton. done.
Qed.

Lemma akeys_adel_sublist k o : akeys (adel k o) `sublist_of` akeys o.
Proof.
  unfold akeys. induction o as [|[k0 v0] o IH]; simpl; [done|].
  case_decide; simpl; [by apply sublist_cons|by apply sublist_skip].
Qed.

Lemma NoDup_akeys_adel k o : NoDup (akeys o) → NoDup (akeys (adel k o)).
Proof. intros. by eapply sublist_NoDup, akeys_adel_sublist. Qed.

Lemma length_adel_in k o :
  NoDup (akeys o) → k ∈ akeys o → S (length (adel k o)) = length o.
Proof.
  unfold akeys. induction o as [|[k0 v0] o IH]; simpl; intros Hnd Hk; [by apply elem_of_nil in Hk|].
  apply NoDup_cons in Hnd as [Hk0 Hnd]. case_decide; subst.
  - by rewrite adel_fresh.
  - simpl. f_equal. apply IH; [done|]. by apply elem_of_cons in Hk as [?|?].
Qed.

Lemma length_adel k o : length (adel k o) ≤ length o.
Proof. induction o as [|[k0 v0] o IH]; simpl; [lia|]. case_decide; simpl; lia. Qed.

Lemma aget_insert_index k k' n v o :
  aget k' o = None →
  aget k (insert_index n k' v o) = if decide (k = k') then Some v else aget k o.
Proof.
  induction o as [|[k0 v0] o IH]; simpl; intros H; [done|].
  destruct (decide (k' = k0)); [done|].
  destruct (array_index k0) as [m|]; [destruct (m <? n)%N|]; simpl; try done.
  rewrite IH by done. destruct (decide (k = k0)) as [->|]; [|done].
  by rewrite decide_False by congruence.
Qed.

Lemma aget_oset k k' v o :
  aget k (oset k' v o) = if decide (k = k') then Some v else aget k o.
Proof.
  unfold oset. destruct (aget k' o) as [v0|] eqn:E; [apply aget_aset|].
  destruct (array_index k') as [n|]; [by apply aget_insert_index|].
  rewrite aget_app. simpl. destruct (decide (k = k')) as [->|].
  - by rewrite E.
  - by destruct (aget k o).
Qed.

Lemma aget_oset_eq k v o : aget k (oset k v o) = Some v.
Proof. rewrite aget_oset. by rewrite decide_True. Qed.

Lemma aget_oset_ne k k' v o : k ≠ k' → aget k (oset k' v o) = aget k o.
Proof. intros. rewrite aget_oset. by rewrite decide_False. Qed.

Lemma elem_of_akeys_oset k k' v o : k ∈ akeys (oset k' v o) ↔ k = k' ∨ k ∈ akeys o.
Proof.
  rewrite <- !aget_is_Some, aget_oset. case_decide; [naive_solver eauto|naive_solver].
Qed.

Lemma insert_index_Permutation n k v o : insert_index n k v o ≡ₚ (k, v) :: o.
Proof.
  induction o as [|[k0 v0] o IH]; simpl; [done|].
  destruct (array_index k0) as [m|]; [destruct (m <? n)%N|]; try done.
  rewrite IH. apply Permutation_swap.
Qed.

Lemma oset_app_r k v o o' : k ∉ akeys o → k ∈ akeys o' → oset k v (o ++ o') = o ++ oset k v o'.
Proof.
  intros Hk Hk'. unfold oset. rewrite aget_app, (proj2 (aget_None k o)) by done.
  destruct (aget k o') eqn:E; [by apply aset_app_r|]. by apply aget_None in E.
Qed.

Lemma oset_fresh_Permutation k v o : k ∉ akeys o → oset k v o ≡ₚ (k, v) :: o.
Proof.
  intros H. unfold oset. rewrite (proj2 (aget_None k o)) by done.
  destruct (array_index k); [apply insert_index_Permutation|].
  by rewrite Permutation_app_comm.
Qed.

Lemma NoDup_akeys_oset k v o : NoDup (akeys o) → NoDup (akeys (oset k v o)).
Proof.
  intros H. destruct (decide (k ∈ akeys o)) as [Hin|Hin].
  - unfold oset. apply aget_is_Some in Hin as [w Hw]. rewrite Hw. by apply NoDup_akeys_aset.
  - unfold akeys. rewrite oset_fresh_Permutation by done. by apply NoDup_cons.
Qed.

Lemma NoDup_akeys_ospread (a b : list (string * V)) : NoDup (akeys a) → NoDup (akeys (ospread a b)).
Proof.
  unfold ospread. revert a. induction b as [|[k v] b IH]; intros a H; simpl; [done|].
  by apply IH, NoDup_akeys_oset.
Qed.

Lemma NoDup_akeys_from_entries (l : list (string * V)) : NoDup (akeys (from_entries l)).
Proof. apply NoDup_akeys_ospread. apply NoDup_nil_2. Qed.

(** The last binding of a key wins. *)
Lemma aget_ospread_rev k (a b : list (string * V)) :
  aget k (ospread a b) =
  match aget k (reverse b) with Some v => Some v | None => aget k a end.
Proof.
  unfold ospread. revert a. induction b as [|[k0 v0] b IH]; intros a; simpl; [done|].
  rewrite IH, reverse_cons, aget_app. simpl.
  destruct (aget k (reverse b)) as [w|]; [done|].
  rewrite aget_oset. by case_decide.
Qed.

Lemma akeys_reverse (o : list (string * V)) : akeys (reverse o) = reverse (akeys o).
Proof. unfold akeys. by rewrite fmap_reverse. Qed.

Lemma aget_reverse k o : NoDup (akeys o) → aget k (reverse o) = aget k o.
Proof.
  intros Hnd. destruct (aget k o) as [v|] eqn:E.
  - apply elem_aget.
    + rewrite akeys_reverse. by rewrite reverse_Permutation.
    + apply elem_of_reverse. by apply aget_Some_elem.
  - apply aget_None. rewrite akeys_reverse, elem_of_reverse. by apply aget_None.
Qed.

Lemma aget_ospread k (a b : list (string * V)) :
  NoDup (akeys b) →
  aget k (ospread a b) = match aget k b with Some v => Some v | None => aget k a end.
Proof. intros. rewrite aget_ospread_rev. by rewrite aget_reverse. Qed.

Lemma aget_from_entries k (l : list (string * V)) :
  NoDup (akeys l) → aget k (from_entries l) = aget k l.
Proof.
  intros. unfold from_entries. rewrite aget_ospread by done. by destruct (aget k l).
Qed.

Lemma elem_of_akeys_ospread k (a b : list (string * V)) :
  k ∈ akeys (ospread a b) ↔ k ∈ akeys a ∨ k ∈ akeys b.
Proof.
  rewrite <- !aget_is_Some, aget_ospread_rev.
  assert (is_Some (aget k (reverse b)) ↔ is_Some (aget k b)) as <-.
  { rewrite !aget_is_Some, akeys_reverse. by rewrite elem_of_reverse. }
  destruct (aget k (reverse b)); [naive_solver eauto|].
  split; [by left|]. intros [?|[? ?]]; done.
Qed.

Lemma elem_of_avalues v o : v ∈ avalues o ↔ ∃ k, (k, v) ∈ o.
Proof.
  unfold avalues. rewrite list_elem_of_fmap. split.
  - intros ([k w] & -> & ?). by exists k.
  - intros [k ?]. by exists (k, v).
Qed.

Lemma ahas_spec k o : ahas k o = true ↔ k ∈ akeys o.
Proof. unfold ahas. rewrite bool_decide_eq_true. apply aget_is_Some. Qed.
End laws.

#[export] Hint Rewrite @aget_aset_eq @aget_oset_eq @aget_adel_eq : liteset.
#[export] Hint Resolve NoDup_akeys_aset NoDup_akeys_adel NoDup_akeys_oset
  NoDup_akeys_ospread NoDup_akeys_from_entries : liteset.

Lemma akeys_Permutation {V} (l k : list (string * V)) : l ≡ₚ k → akeys l ≡ₚ akeys k.
Proof. apply fmap_Permutation. Qed.

Lemma from_entries_Permutation {V} (l : list (string * V)) : NoDup (akeys l) → from_entries l ≡ₚ l.
Proof.
  intros Hnd. induction l as [|[k v] l IH] using rev_ind; [done|].
  unfold akeys in Hnd. rewrite fmap_app in Hnd. apply NoDup_app in Hnd as (Hnd & Hdis & _).
  unfold from_entries, ospread in *. rewrite foldl_app. simpl. rewrite oset_fresh_Permutation.
  - rewrite IH by done. apply Permutation_cons_append.
  - rewrite (akeys_Permutation _ _ (IH Hnd)). intros Hin. apply (Hdis _ Hin). left.
Qed.

(** The same entries, in any order. *)
Definition entries_eq {V} (a b : list (string * V)) : Prop :=
  ∀ k, aget k a = aget k b.

#[export] Instance entries_eq_equivalence {V} : Equivalence (@entries_eq V).
Proof.
  split; [by intros o k|by intros a b H k|]. intros a b c H1 H2 k. by rewrite H1.
Qed.

#[export] Instance aget_proper {V} k : Proper (entries_eq ==> (=)) (@aget V k).
Proof. by intros a b H. Qed.

#[export] Instance oset_proper {V} k v :
  Proper (entries_eq ==> entries_eq) (@oset V k v).
Proof. intros a b H k'. rewrite !aget_oset. by case_decide. Qed.

#[export] Instance ospread_proper {V} :
  Proper (entries_eq ==> (=) ==> entries_eq) (@ospread V).
Proof. intros a b H c d -> k. rewrite !aget_ospread_rev. by rewrite (H k). Qed.
