(* ===== verification/JsNumber.v ===== *)
(** * Numbers and their text

    A JavaScript number is an IEEE 754 double, represented by the [spec_float]
    of the Standard Library at precision 53 and maximal exponent 1024.  The
    conversions the source uses ([Number], [parseInt], [parseFloat] and
    [String] on a number) are given as executable functions; decimal text is
    rounded to the nearest double, ties to even, exactly. *)

From Stdlib Require Import SpecFloat ZArith Ascii String.
From stdpp Require Import base strings option numbers list.
From S2P Require Import Prelude JsObject.

Definition jsnum : Type := spec_float.

Definition prec : Z := 53.

Definition emax : Z := 1024.

Definition NaN : jsnum := S754_nan.

Definition num_of_Z (z : Z) : jsnum := binary_normalize prec emax z 0 false.

Definition isNaN (x : jsnum) : bool :=
  match x with S754_nan => true | _ => false end.

#[export] Instance jsnum_eq_dec : EqDecision jsnum.
Proof. solve_decision. Defined.

(** [x === y], [x < y], [x <= y] *)
Definition num_eqb (x y : jsnum) : bool := SFeqb x y.
Definition num_ltb (x y : jsnum) : bool := SFltb x y.
Definition num_leb (x y : jsnum) : bool := SFleb x y.

(** [x + y], [x - y] on numbers *)
Definition num_add (x y : jsnum) : jsnum := SFadd prec emax x y.
Definition num_sub (x y : jsnum) : jsnum := SFsub prec emax x y.

(** [x * y], [x / y] and [Math.sqrt(x)] on numbers *)
Definition num_mul (x y : jsnum) : jsnum := SFmul prec emax x y.
Definition num_div (x y : jsnum) : jsnum := SFdiv prec emax x y.
Definition num_sqrt (x : jsnum) : jsnum := SFsqrt prec emax x.
Definition num_opp (x : jsnum) : jsnum := SFopp x.

Definition is_neg_zero (x : jsnum) : bool := match x with S754_zero true => true | _ => false end.

(** [Math.max(x, y)], [Math.min(x, y)]: the zero with a sign is the smaller one. *)
Definition num_max (x y : jsnum) : jsnum :=
  if isNaN x || isNaN y then NaN
  else if num_ltb x y || (is_neg_zero x && num_eqb x y) then y else x.
Definition num_min (x y : jsnum) : jsnum :=
  if isNaN x || isNaN y then NaN
  else if num_ltb y x || (is_neg_zero y && num_eqb x y) then y else x.

(** [Math.floor(x)] and [Math.ceil(x)] as integers, for a finite number *)
Definition floor_Z (x : jsnum) : Z :=
  match x with
  | S754_finite neg m e =>
      let v := if neg then Z.neg m else Z.pos m in
      if (0 <=? e)%Z then (v * 2 ^ e)%Z else (v / 2 ^ (- e))%Z
  | _ => 0%Z
  end.
Definition ceil_Z (x : jsnum) : Z := (- floor_Z (num_opp x))%Z.

(** The double nearest to [±m * 10 ^ e]. *)
Definition decimal_to_num (neg : bool) (m : N) (e : Z) : jsnum :=
  match m with
  | N0 => S754_zero neg
  | Npos p =>
      if (0 <=? e)%Z then
        binary_normalize prec emax
          ((if neg then -1 else 1) * (Z.pos p * 10 ^ e)) 0 neg
      else
        let '(q, e', l) :=
          SFdiv_core_binary prec emax (Z.pos p) 0 (10 ^ (- e)) 0 in
        binary_round_aux prec emax neg q e' l
  end.

(** ** Reading text *)

Definition is_space (c : Ascii.ascii) : bool :=
  let n := Ascii.N_of_ascii c in
  ((9 <=? n)%N && (n <=? 13)%N) || (n =? 32)%N.

Fixpoint trim_start (s : string) : string :=
  match s with
  | String c s' => if is_space c then trim_start s' else s
  | EmptyString => EmptyString
  end.

Fixpoint string_rev_app (s acc : string) : string :=
  match s with
  | EmptyString => acc
  | String c s => string_rev_app s (String c acc)
  end.

Definition trim_end (s : string) : string :=
  string_rev_app (trim_start (string_rev_app s EmptyString)) EmptyString.

(** [s.trim()] *)
Definition trim (s : string) : string := trim_end (trim_start s).

(** The longest prefix of digits: their value, their number and the rest. *)
Fixpoint read_digits (acc : N) (n : nat) (s : string) : N * nat * string :=
  match s with
  | String c s' =>
      match digit_value c with
      | Some d => read_digits (10 * acc + d)%N (S n) s'
      | None => (acc, n, s)
      end
  | EmptyString => (acc, n, EmptyString)
  end.

Definition read_sign (s : string) : bool * string :=
  match s with
  | String "+"%char s' => (false, s')
  | String "-"%char s' => (true, s')
  | _ => (false, s)
  end.

Fixpoint strip_prefix (p s : string) : option string :=
  match p, s with
  | EmptyString, _ => Some s
  | String a p, String b s => if decide (a = b) then strip_prefix p s else None
  | String _ _, EmptyString => None
  end.

(** The longest prefix that is a decimal literal, with the rest. *)
Definition read_decimal (s : string) : option (jsnum * string) :=
  let '(neg, s1) := read_sign s in
  match strip_prefix "Infinity" s1 with
  | Some rest => Some (S754_infinity neg, rest)
  | None =>
      let '(m1, n1, s2) := read_digits 0 0 s1 in
      let '(m, n, s3) :=
        match s2 with
        | String "."%char s2' =>
            let '(m2, n2, s3) := read_digits m1 0 s2' in
            if decide (n1 + n2 = 0) then (m1, None, s2) else (m2, Some n2, s3)
        | _ => (m1, if decide (n1 = 0) then None else Some 0, s2)
        end in
      match n with
      | None => None
      | Some frac =>
          let '(e, s4) :=
            match s3 with
            | String ("e"%char | "E"%char) s3' =>
                let '(eneg, s3'') := read_sign s3' in
                match read_digits 0 0 s3'' with
                | (_, 0, _) => (0%Z, s3)
                | (ev, _, rest) => ((if eneg then - Z.of_N ev else Z.of_N ev)%Z, rest)
                end
            | _ => (0%Z, s3)
            end in
          Some (decimal_to_num neg m (e - Z.of_nat frac), s4)
      end
  end.

Definition hex_value (c : Ascii.ascii) : option N :=
  let n := Ascii.N_of_ascii c in
  if (48 <=? n)%N && (n <=? 57)%N then Some (n - 48)%N
  else if (65 <=? n)%N && (n <=? 70)%N then Some (n - 55)%N
  else if (97 <=? n)%N && (n <=? 102)%N then Some (n - 87)%N
  else None.

Fixpoint radix_value (radix acc : N) (s : string) : option N :=
  match s with
  | EmptyString => Some acc
  | String c s =>
      match hex_value c with
      | Some d => if (d <? radix)%N then radix_value radix (radix * acc + d)%N s else None
      | None => None
      end
  end.

Definition radix_literal (radix : N) (s : string) : jsnum :=
  match s with
  | EmptyString => NaN
  | _ => match radix_value radix 0 s with
         | Some n => num_of_Z (Z.of_N n)
         | None => NaN
         end
  end.

(** [Number(s)] *)
Definition Number_of_string (s : string) : jsnum :=
  match trim s with
  | EmptyString => num_of_Z 0
  | String "0"%char (String ("x"%char | "X"%char) r) => radix_literal 16 r
  | String "0"%char (String ("o"%char | "O"%char) r) => radix_literal 8 r
  | String "0"%char (String ("b"%char | "B"%char) r) => radix_literal 2 r
  | t => match read_decimal t with
         | Some (x, EmptyString) => x
         | _ => NaN
         end
  end.

(** [parseInt(s, 10)] *)
Definition parseInt (s : string) : jsnum :=
  let '(neg, s1) := read_sign (trim_start s) in
  match read_digits 0 0 s1 with
  | (_, 0, _) => NaN
  | (m, _, _) => decimal_to_num neg m 0
  end.

(** [parseFloat(s)] *)
Definition parseFloat (s : string) : jsnum :=
  match read_decimal (trim_start s) with
  | Some (x, _) => x
  | None => NaN
  end.

(** ** Writing text *)

Definition digit_char (d : N) : Ascii.ascii := Ascii.ascii_of_N (48 + d).

Fixpoint N_digits (fuel : nat) (n : N) (acc : string) : string :=
  match fuel with
  | 0 => acc
  | S fuel =>
      let acc := String (digit_char (n mod 10)) acc in
      if (n <? 10)%N then acc else N_digits fuel (n / 10)%N acc
  end.

(** The decimal form of a natural number; [N.size_nat n] bounds its number of
    digits. *)
Definition string_of_N (n : N) : string := N_digits (S (N.size_nat n)) n EmptyString.

Definition string_of_Z (z : Z) : string :=
  if (z <? 0)%Z then String "-"%char (string_of_N (Z.abs_N z))
  else string_of_N (Z.abs_N z).

Fixpoint zeros (n : nat) : string :=
  match n with 0 => EmptyString | S n => String "0"%char (zeros n) end.

(** The number of decimal digits of the integer part of [num / den] when it is
    at least one, otherwise minus the number of leading zeros of the fraction. *)
Fixpoint magnitude (fuel : nat) (num den : Z) (n : Z) : Z :=
  match fuel with
  | 0 => n
  | S fuel =>
      if (den <=? num)%Z then magnitude fuel num (10 * den) (n + 1)
      else if (10 * num <? den)%Z then magnitude fuel (10 * num) den (n - 1)
      else n
  end.

(** The shortest digits that read back as the given number: [s], [k] and [n]
    with [10^(k-1) <= s < 10^k] and the number nearest to [s * 10^(n-k)]. *)
Fixpoint shortest (fuel : nat) (k : Z) (x : jsnum) (num den n : Z) : N * Z * Z :=
  let e := (n - k)%Z in
  let q := (if 0 <=? e then num / (den * 10 ^ e) else num * 10 ^ (- e) / den)%Z in
  match fuel with
  | 0 => (Z.to_N q, k, n)
  | S fuel =>
      let back s := bool_decide (decimal_to_num false (Z.to_N s) e = x) in
      let norm s := if (s =? 10 ^ k)%Z then (Z.to_N (10 ^ (k - 1)), k, (n + 1)%Z)
                    else (Z.to_N s, k, n) in
      let below :=
        (* twice the distance to q is at most one unit *)
        (if 0 <=? e then 2 * (num - q * (den * 10 ^ e)) <=? den * 10 ^ e
         else 2 * (num * 10 ^ (- e) - q * den) <=? den)%Z in
      if back q && (below || negb (back (q + 1)%Z)) then norm q
      else if back (q + 1)%Z then norm (q + 1)%Z
      else shortest fuel (k + 1) x num den n
  end.

Fixpoint string_take (n : nat) (s : string) : string :=
  match n, s with
  | S n, String c s => String c (string_take n s)
  | _, _ => EmptyString
  end.

Fixpoint string_drop (n : nat) (s : string) : string :=
  match n, s with
  | S n, String _ s => string_drop n s
  | _, _ => s
  end.

(** [String(x)] *)
Definition num_to_string (x : jsnum) : string :=
  match x with
  | S754_nan => "NaN"
  | S754_zero _ => "0"
  | S754_infinity false => "Infinity"
  | S754_infinity true => "-Infinity"
  | S754_finite neg m e =>
      let num := if (0 <=? e)%Z then (Z.pos m * 2 ^ e)%Z else Z.pos m in
      let den := if (0 <=? e)%Z then 1%Z else (2 ^ (- e))%Z in
      let '(s, k, n) :=
        shortest 20 1 (S754_finite false m e) num den (magnitude 400 num den 0) in
      let ds := string_of_N s in
      let body :=
        if ((k <=? n) && (n <=? 21))%Z then ds +:+ zeros (Z.to_nat (n - k))
        else if ((0 <? n) && (n <=? 21))%Z then
          string_take (Z.to_nat n) ds +:+ "." +:+ string_drop (Z.to_nat n) ds
        else if ((-6 <? n) && (n <=? 0))%Z then
          "0." +:+ zeros (Z.to_nat (- n)) +:+ ds
        else
          let ex := (n - 1)%Z in
          string_take 1 ds
          +:+ (if (k =? 1)%Z then EmptyString else "." +:+ string_drop 1 ds)
          +:+ "e" +:+ (if (ex <? 0)%Z then "-" else "+") +:+ string_of_Z (Z.abs ex) in
      if neg then "-" +:+ body else body
  end.

(** ** Checks against the language *)

Example Number_of_string_examples :
  Number_of_string " 100 " = num_of_Z 100 ∧
  Number_of_string EmptyString = num_of_Z 0 ∧
  Number_of_string "0x1F" = num_of_Z 31 ∧
  Number_of_string "1e3" = num_of_Z 1000 ∧
  Number_of_string "12px" = NaN ∧
  num_to_string (Number_of_string "0.1") = "0.1" ∧
  num_to_string (Number_of_string "-1.50") = "-1.5" ∧
  num_to_string (Number_of_string "123456789012345680000") = "123456789012345680000" ∧
  num_to_string (Number_of_string "1e21") = "1e+21" ∧
  num_to_string (Number_of_string "5e-324") = "5e-324" ∧
  num_to_string (Number_of_string "0.000001") = "0.000001" ∧
  num_to_string (Number_of_string "1.7976931348623157e308") = "1.7976931348623157e+308" ∧
  parseInt "12px" = num_of_Z 12 ∧
  parseInt "px" = NaN ∧
  num_to_string (parseFloat "0.8abc") = "0.8".
Proof. vm_compute. repeat split. Qed.

(** ** Round trip of decimal text *)

Lemma strip_prefix_app p s : strip_prefix p (p +:+ s) = Some s.
Proof.
  induction p as [|c p IH]; [done|].
  change (strip_prefix (String c p) (String c p +:+ s)) with
    (if decide (c = c) then strip_prefix p (p +:+ s) else None).
  by rewrite decide_True.
Qed.

(** A string that does not start with a decimal digit. *)
Definition no_digit_first (s : string) : Prop :=
  match s with
  | EmptyString => True
  | String c _ => digit_value c = None
  end.

Lemma digit_value_char d : (d < 10)%N → digit_value (digit_char d) = Some d.
Proof.
  intros Hd. unfold digit_value, digit_char. rewrite Ascii.N_ascii_embedding by lia.
  replace ((48 <=? 48 + d)%N && (48 + d <=? 57)%N) with true.
  - f_equal. lia.
  - symmetry. apply andb_true_iff. rewrite !N.leb_le. lia.
Qed.

Lemma N_size_bound n : (n < 2 ^ N.of_nat (N.size_nat n))%N.
Proof.
  destruct n as [|p]; simpl; [lia|]. induction p as [p IH|p IH|]; cbn [Pos.size_nat].
  - rewrite Nat2N.inj_succ, N.pow_succ_r'. lia.
  - rewrite Nat2N.inj_succ, N.pow_succ_r'. lia.
  - done.
Qed.

(** Reading the digits that were written gives the number back, whatever
    follows them. *)
Lemma read_digits_N_digits f n acc m k :
  (n < 2 ^ N.of_nat f)%N → f ≠ 0 →
  ∃ j, 0 < j ∧ read_digits m k (N_digits f n acc) =
    read_digits (m * 10 ^ N.of_nat j + n)%N (j + k) acc.
Proof.
  revert n acc m k. induction f as [|f IH]; intros n acc m k Hn Hf; [done|].
  simpl. destruct (N.ltb_spec n 10) as [Hs|Hs].
  - exists 1. split; [lia|]. simpl. rewrite N.mod_small by done.
    rewrite digit_value_char by done. f_equal. lia.
  - rewrite Nat2N.inj_succ, N.pow_succ_r' in Hn.
    assert (Hd : (n / 10 < 2 ^ N.of_nat f)%N) by (apply N.Div0.div_lt_upper_bound; lia).
    assert (f ≠ 0) as Hf'.
    { intros ->. simpl in Hn. lia. }
    destruct (IH (n / 10)%N (String (digit_char (n mod 10)) acc) m k Hd Hf') as (j & Hj & ->).
    exists (S j). split; [lia|]. cbn [read_digits].
    rewrite digit_value_char by (apply N.mod_lt; lia).
    rewrite Nat2N.inj_succ, N.pow_succ_r'. f_equal.
    pose proof (N.div_mod' n 10). lia.
Qed.

Lemma N_digits_app f n acc rest :
  N_digits f n (acc +:+ rest) = N_digits f n acc +:+ rest.
Proof.
  revert n acc. induction f as [|f IH]; intros n acc; [done|]. cbn [N_digits].
  destruct (n <? 10)%N; [done|]. apply (IH _ (String _ acc)).
Qed.

Lemma read_digits_string_of_N n rest :
  no_digit_first rest →
  ∃ j, 0 < j ∧ read_digits 0 0 (string_of_N n +:+ rest) = (n, j, rest).
Proof.
  intros Hrest. unfold string_of_N. rewrite <- N_digits_app. cbn [String.append].
  destruct (read_digits_N_digits (S (N.size_nat n)) n (EmptyString +:+ rest) 0 0)
    as (j & Hj & ->).
  - rewrite Nat2N.inj_succ, N.pow_succ_r'. pose proof (N_size_bound n). lia.
  - done.
  - exists j. split; [done|]. replace (0 * 10 ^ N.of_nat j + n)%N with n by lia.
    rewrite Nat.add_0_r. destruct rest as [|c rest]; [done|]. simpl in *. by rewrite Hrest.
Qed.

(** The characters of a written number are digits. *)
Fixpoint all_chars (p : Ascii.ascii → bool) (s : string) : bool :=
  match s with
  | EmptyString => true
  | String c s => p c && all_chars p s
  end.

Definition is_digit (c : Ascii.ascii) : bool := bool_decide (is_Some (digit_value c)).

Lemma N_digits_all_digits f n acc :
  all_chars is_digit acc = true → all_chars is_digit (N_digits f n acc) = true.
Proof.
  revert n acc. induction f as [|f IH]; intros n acc Ha; [done|]. cbn [N_digits].
  assert (all_chars is_digit (String (digit_char (n mod 10)) acc) = true) as Hc.
  { simpl. rewrite Ha, andb_true_r. unfold is_digit.
    rewrite digit_value_char by (apply N.mod_lt; lia). by apply bool_decide_eq_true. }
  destruct (n <? 10)%N; [done|]. by apply IH.
Qed.

Lemma string_of_N_digits n : all_chars is_digit (string_of_N n) = true.
Proof. by apply N_digits_all_digits. Qed.

Lemma string_of_N_first n : ∃ c s, string_of_N n = String c s ∧ is_digit c = true.
Proof.
  pose proof (string_of_N_digits n) as Hd.
  destruct (read_digits_string_of_N n EmptyString I) as (j & Hj & Hr).
  destruct (string_of_N n) as [|c s].
  - simpl in Hr. injection Hr as _ ?. lia.
  - exists c, s. split; [done|]. simpl in Hd. by apply andb_true_iff in Hd as [? _].
Qed.

Lemma is_digit_bounds c :
  is_digit c = true → (48 ≤ Ascii.N_of_ascii c ≤ 57)%N.
Proof.
  unfold is_digit, digit_value. rewrite bool_decide_eq_true.
  destruct ((48 <=? _)%N && _)%bool eqn:E; [|by intros [??]]. intros _.
  apply andb_true_iff in E. rewrite !N.leb_le in E. done.
Qed.

(** [parseInt(String(n) + rest) = n] *)
Lemma parseInt_string_of_N n rest :
  no_digit_first rest → parseInt (string_of_N n +:+ rest) = decimal_to_num false n 0.
Proof.
  intros Hrest. destruct (read_digits_string_of_N n rest Hrest) as (j & Hj & Hr).
  destruct (string_of_N_first n) as (c & s & Hs & Hc). rewrite Hs in *.
  pose proof (is_digit_bounds c Hc) as Hb. unfold parseInt.
  assert (trim_start (String c s +:+ rest) = String c s +:+ rest) as ->.
  { simpl. unfold is_space.
    replace ((9 <=? Ascii.N_of_ascii c)%N && (Ascii.N_of_ascii c <=? 13)%N
             || (Ascii.N_of_ascii c =? 32)%N) with false; [done|]. symmetry.
    apply orb_false_iff. split; [apply andb_false_iff; right; apply N.leb_gt; lia|].
    apply N.eqb_neq. lia. }
  assert (read_sign (String c s +:+ rest) = (false, String c s +:+ rest)) as ->.
  { simpl. assert (c ≠ "+"%char ∧ c ≠ "-"%char) as [H1 H2].
    { split; intros ->; vm_compute in Hb; naive_solver. }
    by repeat (case_match; try done). }
  rewrite Hr. by destruct j; [lia|].
Qed.

Lemma decimal_to_num_integer n : decimal_to_num false n 0 = num_of_Z (Z.of_N n).
Proof.
  destruct n as [|p]; [done|]. unfold decimal_to_num, num_of_Z. cbn [Z.leb Z.compare].
  f_equal. cbn [Z.of_N]. change (10 ^ 0)%Z with 1%Z. lia.
Qed.
