(* ===== verification/JsNumberFacts.v ===== *)
(** * Integers as numbers

    An integer below 2^53 is a number exactly, its text is its decimal form,
    and reading the text gives the number back. *)

From Stdlib Require Import SpecFloat ZArith Ascii String Lia.
From stdpp Require Import base strings option numbers list.
From S2P Require Import Prelude JsObject JsNumber.

(** ** Characters *)

Lemma all_chars_impl p p' s :
  (∀ c, p c = true → p' c = true) → all_chars p s = true → all_chars p' s = true.
Proof.
  intros Hp. induction s as [|c s IH]; [done|]. simpl. rewrite !andb_true_iff. naive_solver.
Qed.

Lemma string_rev_app_involutive s a b :
  string_rev_app (string_rev_app s a) b = string_rev_app a (s +:+ b).
Proof. revert a. induction s as [|c s IH]; intros a; [done|]. simpl. by rewrite IH. Qed.

Lemma string_rev_app_twice s : string_rev_app (string_rev_app s EmptyString) EmptyString = s.
Proof. rewrite string_rev_app_involutive. apply string_app_nil_r. Qed.

Local Open Scope Z_scope.

(** ** The representation *)

Lemma digits2_pos_bounds p : 2 ^ (Z.pos (digits2_pos p) - 1) ≤ Z.pos p < 2 ^ Z.pos (digits2_pos p).
Proof.
  induction p as [p IH|p IH|]; cbn [digits2_pos]; [| |done].
  all: rewrite Pos2Z.inj_succ; replace (Z.succ (Z.pos (digits2_pos p)) - 1) with (Z.pos (digits2_pos p)) by lia.
  all: rewrite Z.pow_succ_r by lia.
  all: replace (2 ^ Z.pos (digits2_pos p)) with (2 * 2 ^ (Z.pos (digits2_pos p) - 1)) in *
         by (rewrite <- Z.pow_succ_r by lia; f_equal; lia).
  all: lia.
Qed.

Lemma digits2_pos_le p n : 0 ≤ n → Z.pos p < 2 ^ n → Z.pos (digits2_pos p) ≤ n.
Proof.
  intros Hn Hp. destruct (Z.le_gt_cases (Z.pos (digits2_pos p)) n) as [|Hlt]; [done|].
  pose proof (digits2_pos_bounds p) as [Hb _].
  assert (2 ^ n ≤ 2 ^ (Z.pos (digits2_pos p) - 1)) by (apply Z.pow_le_mono_r; lia). lia.
Qed.

Lemma iter_xO p n : Z.pos (Pos.iter xO p n) = Z.pos p * 2 ^ Z.pos n.
Proof.
  revert p. induction n as [|n IH] using Pos.peano_ind; intros p; [simpl; lia|].
  rewrite Pos.iter_succ, Pos2Z.inj_succ, Z.pow_succ_r by lia.
  change (Z.pos (Pos.iter xO p n)~0) with (2 * Z.pos (Pos.iter xO p n)). rewrite IH. lia.
Qed.

Lemma digits2_pos_iter p n : Z.pos (digits2_pos (Pos.iter xO p n)) = Z.pos (digits2_pos p) + Z.pos n.
Proof.
  induction n as [|n IH] using Pos.peano_ind; [simpl; lia|].
  rewrite Pos.iter_succ. cbn [digits2_pos]. lia.
Qed.

(** The exponent of the number nearest to a positive integer. *)
Definition int_exp (p : positive) : Z := Z.pos (digits2_pos p) - 53.

Lemma binary_round_exact sx m e :
  -1074 ≤ e → Z.pos (digits2_pos m) = 53 → e ≤ 971 →
  binary_round_aux prec emax sx (Z.pos m) e loc_Exact = S754_finite sx m e.
Proof.
  intros He Hd Hmax. unfold binary_round_aux, shr_fexp, fexp, emin. cbn [Zdigits2]. rewrite Hd.
  unfold prec, emax. replace (Z.max (53 + e - 53) (3 - 1024 - 53) - e) with 0 by lia.
  cbn [shr shr_record_of_loc shr_m loc_of_shr_record round_nearest_even Zdigits2]. rewrite Hd.
  replace (Z.max (53 + e - 53) (3 - 1024 - 53) - e) with 0 by lia.
  cbn [shr shr_record_of_loc shr_m]. destruct (Z.leb_spec e (1024 - 53)); [done|lia].
Qed.

(** An integer below 2^53 is represented exactly. *)
Lemma num_of_Z_exact p :
  Z.pos p < 2 ^ 53 →
  ∃ m, num_of_Z (Z.pos p) = S754_finite false m (int_exp p) ∧
       Z.pos m = Z.pos p * 2 ^ (- int_exp p) ∧ int_exp p ≤ 0.
Proof.
  intros Hp. pose proof (digits2_pos_le p 53 ltac:(lia) Hp) as Hd.
  unfold num_of_Z, binary_normalize, binary_round, shl_align, int_exp.
  assert (fexp prec emax (Z.pos (digits2_pos p) + 0) = Z.pos (digits2_pos p) - 53) as ->
    by (unfold fexp, emin, prec, emax; lia).
  rewrite Z.sub_0_r. destruct (Z.pos (digits2_pos p) - 53) as [|q|q] eqn:E; [| lia |].
  - exists p. rewrite (binary_round_exact false p 0) by lia. split; [done|]. simpl. lia.
  - exists (Pos.iter xO p q).
    rewrite binary_round_exact; [|lia|rewrite digits2_pos_iter; lia|lia].
    split; [done|]. rewrite iter_xO. split; [done|lia].
Qed.

Lemma shr_fexp_exp m e l : e ≤ (shr_fexp prec emax m e l).2.
Proof. unfold shr_fexp, shr. case_match; simpl; lia. Qed.

(** A larger one has a positive exponent. *)
Lemma num_of_Z_large p m e :
  2 ^ 53 ≤ Z.pos p → num_of_Z (Z.pos p) = S754_finite false m e → 0 < e.
Proof.
  intros Hp. pose proof (digits2_pos_bounds p) as [_ Hb].
  assert (53 < Z.pos (digits2_pos p)) as Hd.
  { apply Z.nle_gt. intros Hle.
    assert (2 ^ Z.pos (digits2_pos p) ≤ 2 ^ 53) by (apply Z.pow_le_mono_r; lia). lia. }
  unfold num_of_Z, binary_normalize, binary_round, shl_align.
  assert (fexp prec emax (Z.pos (digits2_pos p) + 0) = Z.pos (digits2_pos p) - 53) as ->
    by (unfold fexp, emin, prec, emax; lia).
  replace (Z.pos (digits2_pos p) - 53 - 0) with (Z.pos (digits2_pos p) - 53) by lia.
  destruct (Z.pos (digits2_pos p) - 53) as [|q|q] eqn:E; [lia| |lia].
  unfold binary_round_aux. destruct (shr_fexp prec emax (Z.pos p) 0 loc_Exact) as [mrs e1] eqn:E1.
  assert (0 < e1) as He1.
  { unfold shr_fexp in E1. cbn [Zdigits2] in E1.
    replace (fexp prec emax (Z.pos (digits2_pos p) + 0) - 0) with (Z.pos q) in E1
      by (unfold fexp, emin, prec, emax; lia).
    simpl in E1. injection E1 as _ <-. lia. }
  destruct (shr_fexp prec emax (round_nearest_even (shr_m mrs) (loc_of_shr_record mrs)) e1 loc_Exact)
    as [mrs2 e2] eqn:E2.
  pose proof (shr_fexp_exp (round_nearest_even (shr_m mrs) (loc_of_shr_record mrs)) e1 loc_Exact) as He2.
  rewrite E2 in He2. simpl in He2. destruct (shr_m mrs2); [done| |done].
  destruct (e2 <=? emax - prec); [|done]. intros [= _ <-]. lia.
Qed.

(** Different integers are different numbers when one of them is below 2^53. *)
Lemma num_of_Z_inj_small p q : Z.pos p < 2 ^ 53 → num_of_Z (Z.pos q) = num_of_Z (Z.pos p) → q = p.
Proof.
  intros Hp Heq. destruct (num_of_Z_exact p Hp) as (m & Hm & Hmp & He).
  destruct (Z.lt_ge_cases (Z.pos q) (2 ^ 53)) as [Hq|Hq].
  - destruct (num_of_Z_exact q Hq) as (m' & Hm' & Hmq & _).
    rewrite Hm, Hm' in Heq. injection Heq as -> Hexp. rewrite Hexp, Hmp in Hmq.
    apply Z.mul_reg_r in Hmq; [by injection Hmq|]. apply Z.pow_nonzero; lia.
  - rewrite Hm in Heq. pose proof (num_of_Z_large q _ _ Hq Heq). lia.
Qed.

Lemma decimal_to_num_nonneg p e : 0 ≤ e → decimal_to_num false (N.pos p) e = num_of_Z (Z.pos p * 10 ^ e).
Proof.
  intros He. unfold decimal_to_num, num_of_Z. destruct (Z.leb_spec 0 e); [|lia]. f_equal. lia.
Qed.

(** ** The text *)

Lemma magnitude_spec fuel p den D i :
  0 < den → 1 ≤ D → 0 ≤ i ≤ D → 10 ^ (D - 1) ≤ p < 10 ^ D → D - i < Z.of_nat fuel →
  magnitude fuel (p * den) (den * 10 ^ i) i = D.
Proof.
  intros Hden HD. revert i. induction fuel as [|fuel IH]; intros i Hi Hp Hf; [lia|]. cbn [magnitude].
  destruct (Z.eq_dec i D) as [-> |Hne].
  - destruct (Z.leb_spec (den * 10 ^ D) (p * den)) as [Hle|_]; [nia|].
    destruct (Z.ltb_spec (10 * (p * den)) (den * 10 ^ D)) as [Hlt|_]; [|done].
    replace (10 ^ D) with (10 * 10 ^ (D - 1)) in Hlt by (rewrite <- Z.pow_succ_r by lia; f_equal; lia). nia.
  - assert (10 ^ i ≤ 10 ^ (D - 1)) by (apply Z.pow_le_mono_r; lia).
    destruct (Z.leb_spec (den * 10 ^ i) (p * den)) as [_|Hlt]; [|nia].
    replace (10 * (den * 10 ^ i)) with (den * 10 ^ (i + 1)) by (rewrite Z.pow_add_r by lia; lia).
    apply IH; lia.
Qed.

(** The shortest digits of an integer are its own without the zeros at the end. *)
Lemma shortest_integer fuel p den D k :
  Z.pos p < 2 ^ 53 → 0 < den → 1 ≤ k ≤ D → 10 ^ (D - 1) ≤ Z.pos p < 10 ^ D → D - k < Z.of_nat fuel →
  ∃ s k', shortest fuel k (num_of_Z (Z.pos p)) (Z.pos p * den) den D = (N.pos s, k', D) ∧
          k' ≤ D ∧ Z.pos s * 10 ^ (D - k') = Z.pos p.
Proof.
  intros Hp Hden. revert k. induction fuel as [|fuel IH]; intros k Hk HD Hf; [lia|].
  set (E := 10 ^ (D - k)). assert (0 < E) as HE by (apply Z.pow_pos_nonneg; lia).
  assert (Hq : Z.pos p * den / (den * E) = Z.pos p / E).
  { rewrite (Z.mul_comm den E). apply Z.div_mul_cancel_r; lia. }
  assert (E ≤ 10 ^ (D - 1)) by (apply Z.pow_le_mono_r; lia).
  assert (0 < Z.pos p / E) as Hq0 by (apply Z.div_str_pos; lia).
  pose proof (Z.div_mod (Z.pos p) E ltac:(lia)) as Hdm. pose proof (Z.mod_pos_bound (Z.pos p) E HE) as Hm.
  assert (Hback : ∀ s, 0 < s →
    bool_decide (decimal_to_num false (Z.to_N s) (D - k) = num_of_Z (Z.pos p)) = (s * E =? Z.pos p)).
  { intros s Hs. destruct s as [|s|]; try lia. cbn [Z.to_N]. rewrite decimal_to_num_nonneg by lia. fold E.
    destruct (Z.eqb_spec (Z.pos s * E) (Z.pos p)) as [-> |Hne]; [by apply bool_decide_eq_true|].
    apply bool_decide_eq_false. intros Heq. apply Hne. destruct (Z.pos s * E) as [|r|] eqn:Er; try lia.
    f_equal. by apply num_of_Z_inj_small. }
  cbn [shortest]. replace (0 <=? D - k) with true by (symmetry; apply Z.leb_le; lia). fold E.
  rewrite Hq, !Hback by lia.
  destruct (Z.eqb_spec (Z.pos p / E * E) (Z.pos p)) as [Hexact|Hnot].
  - replace (2 * (Z.pos p * den - Z.pos p / E * (den * E)) <=? den * E) with true
      by (symmetry; apply Z.leb_le; nia).
    assert (Z.pos p / E < 10 ^ k) as Hlt.
    { apply Z.div_lt_upper_bound; [lia|]. unfold E. rewrite <- Z.pow_add_r by lia.
      replace (D - k + k) with D by lia. lia. }
    destruct (Z.eqb_spec (Z.pos p / E) (10 ^ k)); [lia|]. simpl.
    destruct (Z.pos p / E) as [|s|] eqn:Es; try lia. exists s, k. split; [done|]. split; [lia|]. done.
  - simpl. destruct (Z.eqb_spec ((Z.pos p / E + 1) * E) (Z.pos p)); [lia|].
    assert (k ≠ D). { intros ->. apply Hnot. unfold E. rewrite Z.sub_diag, Z.pow_0_r, Z.div_1_r. lia. }
    apply IH; lia.
Qed.

Lemma N_digits_fuel f f' n acc :
  (n < 2 ^ N.of_nat f)%N → (n < 2 ^ N.of_nat f')%N → f ≠ O → f' ≠ O → N_digits f n acc = N_digits f' n acc.
Proof.
  revert f' n acc. induction f as [|f IH]; intros [|f'] n acc Hn Hn' ??; try done. cbn [N_digits].
  destruct (N.ltb_spec n 10) as [|Hs]; [done|]. rewrite Nat2N.inj_succ, N.pow_succ_r' in Hn, Hn'.
  assert (f ≠ O) by (intros ->; simpl in Hn; lia). assert (f' ≠ O) by (intros ->; simpl in Hn'; lia).
  apply IH; try done; apply N.Div0.div_lt_upper_bound; lia.
Qed.

Lemma string_of_N_tens n : (0 < n)%N → string_of_N (n * 10) = string_of_N n +:+ "0".
Proof.
  intros Hn. unfold string_of_N. rewrite <- N_digits_app. cbn [N_digits].
  destruct (N.ltb_spec (n * 10) 10) as [|_]; [lia|]. rewrite N.Div0.mod_mul, N.div_mul by done.
  pose proof (N_size_bound (n * 10)). pose proof (N_size_bound n).
  change (EmptyString +:+ "0") with (String (digit_char 0) EmptyString).
  destruct (N.size_nat (n * 10)) as [|f] eqn:E; [simpl in *; lia|].
  apply (N_digits_fuel (S f) (S (N.size_nat n))); try done; [lia|].
  rewrite Nat2N.inj_succ, N.pow_succ_r'. lia.
Qed.

Lemma zeros_snoc n : zeros n +:+ "0" = zeros (S n).
Proof.
  induction n as [|n IH]; [done|]. change (zeros (S n) +:+ "0") with (String "0" (zeros n +:+ "0")).
  by rewrite IH.
Qed.

Lemma string_of_N_zeros n j : (0 < n)%N → string_of_N (n * 10 ^ N.of_nat j) = string_of_N n +:+ zeros j.
Proof.
  intros Hn. induction j as [|j IH]; [by rewrite N.mul_1_r, string_app_nil_r|].
  rewrite Nat2N.inj_succ, N.pow_succ_r'.
  replace (n * (10 * 10 ^ N.of_nat j))%N with (n * 10 ^ N.of_nat j * 10)%N by lia.
  rewrite string_of_N_tens, IH, <- string_app_assoc, zeros_snoc; [done|].
  pose proof (N.pow_nonzero 10 (N.of_nat j)). lia.
Qed.

Lemma decimal_length p : Z.pos p < 2 ^ 53 → ∃ D, 1 ≤ D ≤ 16 ∧ 10 ^ (D - 1) ≤ Z.pos p < 10 ^ D.
Proof.
  intros Hp.
  assert (∀ n : nat, Z.pos p < 10 ^ Z.of_nat n → ∃ D, 1 ≤ D ≤ Z.of_nat n ∧ 10 ^ (D - 1) ≤ Z.pos p < 10 ^ D) as Hex.
  { induction n as [|n IH]; intros Hlt; [simpl in Hlt; lia|].
    destruct (Z.lt_ge_cases (Z.pos p) (10 ^ Z.of_nat n)) as [Hs|Hs].
    - destruct (IH Hs) as (D & ? & ?). exists D. split; [lia|done].
    - exists (Z.of_nat (S n)). split; [lia|]. split; [|done].
      by replace (Z.of_nat (S n) - 1) with (Z.of_nat n) by lia. }
  apply (Hex 16%nat). assert (2 ^ 53 < 10 ^ 16) by done.
  change (Z.of_nat 16) with 16. lia.
Qed.

Lemma num_to_string_pos p : Z.pos p < 2 ^ 53 → num_to_string (num_of_Z (Z.pos p)) = string_of_N (N.pos p).
Proof.
  intros Hp. destruct (num_of_Z_exact p Hp) as (m & Hm & Hmp & He).
  destruct (decimal_length p Hp) as (D & HD & HpD).
  rewrite Hm. unfold num_to_string. rewrite <- Hm.
  set (den := 2 ^ (- int_exp p)) in *. assert (0 < den) as Hden by (apply Z.pow_pos_nonneg; lia).
  assert ((if 0 <=? int_exp p then Z.pos m * 2 ^ int_exp p else Z.pos m) = Z.pos p * den) as ->.
  { destruct (Z.leb_spec 0 (int_exp p)); [|done]. replace (int_exp p) with 0 by lia. lia. }
  assert ((if 0 <=? int_exp p then 1 else den) = den) as ->.
  { destruct (Z.leb_spec 0 (int_exp p)); [|done]. unfold den. by replace (int_exp p) with 0 by lia. }
  assert (magnitude 400 (Z.pos p * den) den 0 = D) as ->.
  { pose proof (magnitude_spec 400 (Z.pos p) den D 0) as Hmag.
    rewrite Z.pow_0_r, Z.mul_1_r in Hmag. apply Hmag; lia. }
  destruct (shortest_integer 20 p den D 1) as (s & k & -> & Hk & Hs); try lia.
  destruct (Z.leb_spec k D); [|lia]. destruct (Z.leb_spec D 21); [|lia]. simpl.
  rewrite <- string_of_N_zeros by lia. f_equal. apply N2Z.inj.
  rewrite N2Z.inj_mul, N2Z.inj_pow, nat_N_Z, Z2Nat.id by lia. done.
Qed.

Lemma num_of_Z_opp z : z ≠ 0 → num_of_Z (- z) = num_opp (num_of_Z z).
Proof.
  assert (∀ p, num_of_Z (Z.neg p) = num_opp (num_of_Z (Z.pos p))) as Hneg.
  { intros p. unfold num_of_Z, num_opp, binary_normalize, binary_round.
    destruct (shl_align _ _ _) as [m e]. unfold binary_round_aux.
    destruct (shr_fexp prec emax (Z.pos m) e loc_Exact) as [mrs e1].
    destruct (shr_fexp prec emax _ e1 loc_Exact) as [mrs2 e2].
    destruct (shr_m mrs2); [done| |done]. by destruct (e2 <=? emax - prec). }
  intros Hz. destruct z as [|p|p]; [done|apply Hneg|].
  change (- Z.neg p) with (Z.pos p). rewrite Hneg. unfold num_opp.
  destruct (num_of_Z (Z.pos p)) as [[]|[]| |[]]; done.
Qed.

(** The text of an integer is its decimal form. *)
Lemma num_to_string_integer z : Z.abs z < 2 ^ 53 → num_to_string (num_of_Z z) = string_of_Z z.
Proof.
  intros Hz. destruct z as [|p|p]; [done|by apply num_to_string_pos|].
  change (Z.neg p) with (- Z.pos p). rewrite num_of_Z_opp by done.
  pose proof (num_to_string_pos p Hz) as Hp. destruct (num_of_Z_exact p Hz) as (m & Hm & _).
  rewrite Hm in *. unfold num_opp, SFopp. change (negb false) with true.
  change (string_of_Z (- Z.pos p)) with ("-" +:+ string_of_N (N.pos p)). rewrite <- Hp.
  unfold num_to_string. by destruct (shortest _ _ _ _ _ _) as [[? ?] ?].
Qed.

Lemma parseInt_string_of_Z z rest :
  no_digit_first rest → parseInt (string_of_Z z +:+ rest) = num_of_Z z.
Proof.
  intros Hrest. destruct z as [|p|p].
  - change (string_of_Z 0) with (string_of_N 0). rewrite parseInt_string_of_N by done. done.
  - change (string_of_Z (Z.pos p)) with (string_of_N (N.pos p)).
    rewrite parseInt_string_of_N by done. apply decimal_to_num_integer.
  - change (string_of_Z (Z.neg p)) with (String "-" (string_of_N (N.pos p))).
    destruct (read_digits_string_of_N (N.pos p) rest Hrest) as (j & Hj & Hr).
    unfold parseInt. change (trim_start (String "-" (string_of_N (N.pos p)) +:+ rest))
      with (String "-" (string_of_N (N.pos p) +:+ rest)). cbn [read_sign]. rewrite Hr.
    destruct j; [lia|]. unfold decimal_to_num, num_of_Z. simpl. by rewrite Pos.mul_1_r.
Qed.
