(* ===== verification/JsValue.v ===== *)
(** * JavaScript values

    Form data, extra form data and the other JSON-like structures of the
    source are values of [jsval].  Objects are own-key lists in the order of
    [JsObject]; a key may be present with the value [undefined].

    Object identity is not part of a value: [===] between two objects or two
    arrays is not given here ([strict_eq] answers for the primitive values the
    source compares). *)

From Stdlib Require Import SpecFloat Ascii String.
From stdpp Require Import base strings option numbers list.
From S2P Require Import Prelude JsObject JsNumber.

Inductive jsval : Type :=
| JUndef
| JNull
| JBool (b : bool)
| JNum (x : jsnum)
| JStr (s : string)
| JArr (xs : list jsval)
| JObj (o : list (string * jsval)).

Abbreviation jsobj := (list (string * jsval)).

(** ** Induction and decidable equality *)

Section jsval_ind.
Variable P : jsval → Prop.
Hypothesis HUndef : P JUndef.
Hypothesis HNull : P JNull.
Hypothesis HBool : ∀ b, P (JBool b).
Hypothesis HNum : ∀ x, P (JNum x).
Hypothesis HStr : ∀ s, P (JStr s).
Hypothesis HArr : ∀ xs, Forall P xs → P (JArr xs).
Hypothesis HObj : ∀ o, Forall (λ kv, P kv.2) o → P (JObj o).

Fixpoint jsval_nested_ind (v : jsval) : P v :=
  match v with
  | JUndef => HUndef
  | JNull => HNull
  | JBool b => HBool b
  | JNum x => HNum x
  | JStr s => HStr s
  | JArr xs =>
      HArr xs
        ((fix go xs : Forall P xs :=
            match xs with
            | [] => Forall_nil_2 P
            | x :: xs => Forall_cons_2 P x xs (jsval_nested_ind x) (go xs)
            end) xs)
  | JObj o =>
      HObj o
        ((fix go o : Forall (λ kv : string * jsval, P kv.2) o :=
            match o with
            | [] => Forall_nil_2 _
            | kv :: o => Forall_cons_2 _ kv o (jsval_nested_ind kv.2) (go o)
            end) o)
  end.
End jsval_ind.

#[export] Instance jsval_eq_dec : EqDecision jsval.
Proof.
  refine (fix go (v w : jsval) : Decision (v = w) :=
    match v, w with
    | JUndef, JUndef => left eq_refl
    | JNull, JNull => left eq_refl
    | JBool a, JBool b => cast_if (decide (a = b))
    | JNum a, JNum b => cast_if (decide (a = b))
    | JStr a, JStr b => cast_if (decide (a = b))
    | JArr a, JArr b => cast_if (@decide (a = b) (@list_eq_dec _ go a b))
    | JObj a, JObj b =>
        cast_if (@decide (a = b)
          (@list_eq_dec _ (λ p q, @prod_eq_dec _ _ _ go p q) a b))
    | _, _ => right _
    end); congruence.
Defined.

(** ** Operators *)

(** [!!v] *)
Definition truthy (v : jsval) : bool :=
  match v with
  | JUndef | JNull => false
  | JBool b => b
  | JNum x => negb (isNaN x || num_eqb x (num_of_Z 0))
  | JStr s => bool_decide (s ≠ EmptyString)
  | JArr _ | JObj _ => true
  end.

(** [v == null] *)
Definition is_nullish (v : jsval) : bool :=
  match v with JUndef | JNull => true | _ => false end.

Definition is_undefined (v : jsval) : bool :=
  match v with JUndef => true | _ => false end.

(** [a || b], [a ?? b] *)
Definition js_or (a b : jsval) : jsval := if truthy a then a else b.
Definition js_nullish (a b : jsval) : jsval := if is_nullish a then b else a.

(** [=== ] on primitive values *)
Definition strict_eq (v w : jsval) : bool :=
  match v, w with
  | JUndef, JUndef => true
  | JNull, JNull => true
  | JBool a, JBool b => Bool.eqb a b
  | JNum x, JNum y => num_eqb x y
  | JStr a, JStr b => bool_decide (a = b)
  | _, _ => false
  end.

(** [array.includes(v)] *)
Definition js_includes (l : list jsval) (v : jsval) : bool :=
  existsb (λ w, strict_eq w v ||
    match w, v with JNum x, JNum y => isNaN x && isNaN y | _, _ => false end) l.

Definition is_str (v : jsval) (s : string) : bool := strict_eq v (JStr s).

(** [Array.isArray(v)] *)
Definition is_array (v : jsval) : bool :=
  match v with JArr _ => true | _ => false end.

Definition is_string (v : jsval) : bool :=
  match v with JStr _ => true | _ => false end.

(** [typeof v === 'object'] *)
Definition typeof_object (v : jsval) : bool :=
  match v with JNull | JArr _ | JObj _ => true | _ => false end.

(** The own property [k] of an object, [undefined] when it is missing. *)
Definition ofield (k : string) (o : jsobj) : jsval := default JUndef (aget k o).

(** [v?.k], for a key that no primitive value or array has. *)
Definition opt_field (k : string) (v : jsval) : jsval :=
  match v with JObj o => ofield k o | _ => JUndef end.

(** [v.k]: reading a property of [undefined] or [null] throws. *)
Definition field (k : string) (v : jsval) : result jsval :=
  match v with
  | JUndef => Throw (TypeError ("Cannot read properties of undefined (reading '" +:+ k +:+ "')"))
  | JNull => Throw (TypeError ("Cannot read properties of null (reading '" +:+ k +:+ "')"))
  | v => Ok (opt_field k v)
  end.

#[global] Arguments opt_field _ !_ / : assert.
#[global] Arguments field _ !_ / : assert.

(** The value of a parameter or of a destructured property with a default,
    which replaces [undefined] only. *)
Definition with_default (v d : jsval) : jsval :=
  match v with JUndef => d | _ => v end.

Definition array_items (v : jsval) : list jsval :=
  match v with JArr xs => xs | _ => [] end.

Definition object_entries (v : jsval) : jsobj :=
  match v with JObj o => o | _ => [] end.

(** [String(v)] *)
Fixpoint to_string (v : jsval) : string :=
  match v with
  | JUndef => "undefined"
  | JNull => "null"
  | JBool true => "true"
  | JBool false => "false"
  | JNum x => num_to_string x
  | JStr s => s
  | JArr xs =>
      (fix join xs :=
         match xs with
         | [] => EmptyString
         | [x] => if is_nullish x then EmptyString else to_string x
         | x :: xs =>
             (if is_nullish x then EmptyString else to_string x) +:+ "," +:+ join xs
         end) xs
  | JObj _ => "[object Object]"
  end.

(** [Number(v)] *)
Definition to_number (v : jsval) : jsnum :=
  match v with
  | JUndef => NaN
  | JNull => num_of_Z 0
  | JBool b => num_of_Z (if b then 1 else 0)
  | JNum x => x
  | JStr s => Number_of_string s
  | JArr _ | JObj _ => Number_of_string (to_string v)
  end.

(** [strs.join(sep)] *)
Fixpoint join (sep : string) (l : list string) : string :=
  match l with
  | [] => EmptyString
  | [s] => s
  | s :: l => s +:+ sep +:+ join sep l
  end.

(** [s.startsWith(p)], [s.includes(p)] *)
Fixpoint starts_with (p s : string) : bool :=
  match p, s with
  | EmptyString, _ => true
  | String a p, String b s => bool_decide (a = b) && starts_with p s
  | String _ _, EmptyString => false
  end.

Fixpoint includes (p s : string) : bool :=
  starts_with p s ||
  match s with
  | EmptyString => false
  | String _ s => includes p s
  end.

(** ** Operators *)

(** [a < b] on texts *)
Fixpoint str_ltb (a b : string) : bool :=
  match a, b with
  | EmptyString, String _ _ => true
  | _, EmptyString => false
  | String c a, String d b =>
      if (N_of_ascii c <? N_of_ascii d)%N then true
      else if (N_of_ascii d <? N_of_ascii c)%N then false else str_ltb a b
  end.

(** [a + b]: numbers are added, and a text or an object makes a text. *)
Definition js_add (a b : jsval) : jsval :=
  match a, b with
  | (JStr _ | JArr _ | JObj _), _ | _, (JStr _ | JArr _ | JObj _) => JStr (to_string a +:+ to_string b)
  | _, _ => JNum (num_add (to_number a) (to_number b))
  end.

(** [a < b] *)
Definition to_primitive (v : jsval) : jsval :=
  match v with JArr _ | JObj _ => JStr (to_string v) | v => v end.

Definition js_lt (a b : jsval) : bool :=
  match to_primitive a, to_primitive b with
  | JStr a, JStr b => str_ltb a b
  | a, b => num_ltb (to_number a) (to_number b)
  end.

(** ** Laws *)

Lemma field_Ok k v w : field k v = Ok w → w = opt_field k v.
Proof. by destruct v; intros [= <-]. Qed.

Lemma starts_with_app p s : starts_with p (p +:+ s) = true.
Proof.
  induction p as [|c p IH]; [by destruct s|]. change (String c p +:+ s) with (String c (p +:+ s)).
  cbn [starts_with]. by rewrite bool_decide_eq_true_2, IH.
Qed.

Lemma ofield_oset k k' v o :
  ofield k (oset k' v o) = if decide (k = k') then v else ofield k o.
Proof. unfold ofield. rewrite aget_oset. by case_decide. Qed.

Lemma ofield_adel k k' o :
  ofield k (adel k' o) = if decide (k = k') then JUndef else ofield k o.
Proof. unfold ofield. rewrite aget_adel. by case_decide. Qed.

Lemma ofield_ospread k (a b : jsobj) :
  NoDup (akeys b) →
  ofield k (ospread a b) = if decide (k ∈ akeys b) then ofield k b else ofield k a.
Proof.
  intros. unfold ofield. rewrite aget_ospread by done.
  destruct (aget k b) as [v|] eqn:E.
  - rewrite decide_True; [done|]. apply aget_is_Some. by eexists.
  - rewrite decide_False; [done|]. by apply aget_None.
Qed.

Lemma truthy_js_or a b : truthy a = true → js_or a b = a.
Proof. intros H. unfold js_or. by rewrite H. Qed.

Lemma falsy_js_or a b : truthy a = false → js_or a b = b.
Proof. intros H. unfold js_or. by rewrite H. Qed.

Lemma truthy_js_or_default a b : truthy b = true → truthy (js_or a b) = true.
Proof. unfold js_or. by destruct (truthy a) eqn:E. Qed.

Lemma strict_eq_str v s : strict_eq v (JStr s) = true ↔ v = JStr s.
Proof.
  destruct v; simpl; try (split; congruence). rewrite bool_decide_eq_true.
  split; congruence.
Qed.

Lemma is_str_true v s : is_str v s = true ↔ v = JStr s.
Proof. apply strict_eq_str. Qed.

Lemma is_str_false v s : is_str v s = false ↔ v ≠ JStr s.
Proof. rewrite <- not_true_iff_false. by rewrite is_str_true. Qed.

#[export] Hint Rewrite ofield_oset ofield_adel : liteset.
