(* ===== verification/JsJson.v ===== *)
(** * [JSON.parse]

    A recursive-descent reader of JSON text into [jsval].  The fuel of the
    value reader bounds the nesting depth plus the number of elements; the
    length of the text is enough since every step consumes a character. *)

From Stdlib Require Import Ascii String.
From Stdlib Require Import SpecFloat.
From stdpp Require Import base strings option numbers list.
From S2P Require Import Prelude JsObject JsNumber JsValue.

Definition quote : ascii := "034".

Definition backslash : ascii := "092".

Definition json_space (c : ascii) : bool :=
  let n := N_of_ascii c in
  (n =? 9)%N || (n =? 10)%N || (n =? 13)%N || (n =? 32)%N.

Fixpoint json_skip (s : string) : string :=
  match s with
  | String c s' => if json_space c then json_skip s' else s
  | EmptyString => EmptyString
  end.

(** The UTF-8 bytes of a code unit. *)
Definition utf8 (n : N) : string :=
  let b x := ascii_of_N x in
  (if n <? 128 then String (b n) EmptyString
   else if n <? 2048 then
     String (b (192 + n / 64)) (String (b (128 + n mod 64)) EmptyString)
   else
     String (b (224 + n / 4096))
       (String (b (128 + (n / 64) mod 64)) (String (b (128 + n mod 64)) EmptyString)))%N.

Definition hex4 (a b c d : ascii) : option N :=
  a ← hex_value a; b ← hex_value b; c ← hex_value c; d ← hex_value d;
  Some (((a * 16 + b) * 16 + c) * 16 + d)%N.

Definition simple_escape (c : ascii) : option ascii :=
  if decide (c = quote) then Some quote
  else if decide (c = backslash) then Some backslash
  else if decide (c = "/"%char) then Some "/"%char
  else if decide (c = "b"%char) then Some "008"%char
  else if decide (c = "f"%char) then Some "012"%char
  else if decide (c = "n"%char) then Some "010"%char
  else if decide (c = "r"%char) then Some "013"%char
  else if decide (c = "t"%char) then Some "009"%char
  else None.

(** The rest of a string literal after its opening quote. *)
Fixpoint json_string (s : string) : option (string * string) :=
  match s with
  | EmptyString => None
  | String c s' =>
      if decide (c = quote) then Some (EmptyString, s')
      else if decide (c = backslash) then
        match s' with
        | String "u"%char (String a (String b (String c (String d r)))) =>
            n ← hex4 a b c d; '(t, rest) ← json_string r; Some (utf8 n +:+ t, rest)
        | String e r =>
            x ← simple_escape e; '(t, rest) ← json_string r; Some (String x t, rest)
        | EmptyString => None
        end
      else if (N_of_ascii c <? 32)%N then None
      else '(t, rest) ← json_string s'; Some (String c t, rest)
  end.

(** A number: no leading zero, no bare point, no plus sign. *)
Definition json_number (s : string) : option (jsnum * string) :=
  let body := match s with String "-"%char r => r | _ => s end in
  let after_int :=
    match body with
    | String "0"%char r => Some r
    | _ => match read_digits 0 0 body with (_, 0, _) => None | (_, _, r) => Some r end
    end in
  match after_int with
  | None => None
  | Some (String "."%char r) =>
      match read_digits 0 0 r with (_, 0, _) => None | _ => read_decimal s end
  | Some (String d r as rest) =>
      match digit_value d with
      | Some _ =>
          (* a leading zero ends the number *)
          Some (decimal_to_num (match s with String "-"%char _ => true | _ => false end) 0 0, rest)
      | None => read_decimal s
      end
  | Some EmptyString => read_decimal s
  end.

Fixpoint json_value (fuel : nat) (s : string) : option (jsval * string) :=
  match fuel with
  | 0 => None
  | S fuel =>
      match strip_prefix "null" s, strip_prefix "true" s, strip_prefix "false" s with
      | Some r, _, _ => Some (JNull, r)
      | _, Some r, _ => Some (JBool true, r)
      | _, _, Some r => Some (JBool false, r)
      | None, None, None =>
          match s with
          | String "["%char r =>
              match json_skip r with
              | String "]"%char r => Some (JArr [], r)
              | r => '(xs, rest) ← json_items fuel r; Some (JArr xs, rest)
              end
          | String "{"%char r =>
              match json_skip r with
              | String "}"%char r => Some (JObj [], r)
              | r => '(o, rest) ← json_members fuel [] r; Some (JObj o, rest)
              end
          | String c r =>
              if decide (c = quote) then
                '(t, rest) ← json_string r; Some (JStr t, rest)
              else '(x, rest) ← json_number s; Some (JNum x, rest)
          | EmptyString => None
          end
      end
  end
with json_items (fuel : nat) (s : string) : option (list jsval * string) :=
  match fuel with
  | 0 => None
  | S fuel =>
      '(v, r) ← json_value fuel s;
      match json_skip r with
      | String ","%char r =>
          '(vs, rest) ← json_items fuel (json_skip r); Some (v :: vs, rest)
      | String "]"%char rest => Some ([v], rest)
      | _ => None
      end
  end
with json_members (fuel : nat) (o : jsobj) (s : string) : option (jsobj * string) :=
  match fuel with
  | 0 => None
  | S fuel =>
      match s with
      | String c r =>
          if decide (c = quote) then
            '(k, r) ← json_string r;
            match json_skip r with
            | String ":"%char r =>
                '(v, r) ← json_value fuel (json_skip r);
                let o := oset k v o in
                match json_skip r with
                | String ","%char r => json_members fuel o (json_skip r)
                | String "}"%char rest => Some (o, rest)
                | _ => None
                end
            | _ => None
            end
          else None
      | EmptyString => None
      end
  end.

(** [JSON.parse(text)]; a syntax error is thrown. *)
Definition JSON_parse (text : string) : result jsval :=
  match json_value (2 * S (String.length text)) (json_skip text) with
  | Some (v, rest) =>
      if decide (json_skip rest = EmptyString) then Ok v
      else Throw (GenericError "SyntaxError: Unexpected token in JSON")
  | None => Throw (GenericError "SyntaxError: Unexpected token in JSON")
  end.

(** ** [JSON.stringify] *)

Definition hex_digit (n : N) : ascii := ascii_of_N (if (n <? 10)%N then 48 + n else 87 + n).

Definition escape_char (c : ascii) : string :=
  let n := N_of_ascii c in
  let esc e := String backslash (String e EmptyString) in
  if decide (c = quote) then esc quote
  else if decide (c = backslash) then esc backslash
  else if (n =? 8)%N then esc "b"%char
  else if (n =? 9)%N then esc "t"%char
  else if (n =? 10)%N then esc "n"%char
  else if (n =? 12)%N then esc "f"%char
  else if (n =? 13)%N then esc "r"%char
  else if (n <? 32)%N then
    String backslash ("u00" +:+ String (hex_digit (n / 16)) (String (hex_digit (n mod 16)) EmptyString))
  else String c EmptyString.

Fixpoint escape (s : string) : string :=
  match s with
  | EmptyString => EmptyString
  | String c s => escape_char c +:+ escape s
  end.

Definition json_quote (s : string) : string :=
  String quote (escape s +:+ String quote EmptyString).

(** The text of a value; [undefined] has none. *)
Fixpoint JSON_stringify (v : jsval) : option string :=
  match v with
  | JUndef => None
  | JNull => Some "null"
  | JBool b => Some (if b then "true" else "false")
  | JNum (S754_zero _ as x) | JNum (S754_finite _ _ _ as x) => Some (num_to_string x)
  | JNum _ => Some "null"
  | JStr s => Some (json_quote s)
  | JArr l => Some ("[" +:+ join "," ((λ x, default "null" (JSON_stringify x)) <$> l) +:+ "]")
  | JObj o =>
      Some ("{" +:+ join "," (omap (λ kv,
        (λ t, json_quote kv.1 +:+ ":" +:+ t) <$> JSON_stringify kv.2) o) +:+ "}")
  end.

(** [JSON.stringify] of a string with no character that needs an escape. *)
Definition plain_char (c : ascii) : bool :=
  bool_decide (c ≠ quote) && bool_decide (c ≠ backslash) && (32 <=? N_of_ascii c)%N.

Fixpoint plain (s : string) : bool :=
  match s with
  | EmptyString => true
  | String c s => plain_char c && plain s
  end.

Definition quoted (s : string) : string :=
  String quote s +:+ String quote EmptyString.

Lemma json_string_plain s rest :
  plain s = true →
  json_string (s +:+ String quote rest) = Some (s, rest).
Proof.
  induction s as [|c s IH]; simpl; intros H; [done|].
  apply andb_true_iff in H as [Hc Hs]. unfold plain_char in Hc.
  apply andb_true_iff in Hc as [Hc1 Hc3]. apply andb_true_iff in Hc1 as [Hc1 Hc2].
  apply bool_decide_eq_true in Hc1, Hc2. apply N.leb_le in Hc3.
  rewrite !decide_False by done.
  destruct (N.ltb_spec (N_of_ascii c) 32); [lia|].
  change ((fix append (s1 s2 : string) := _) s ?x) with (s +:+ x).
  by rewrite IH.
Qed.

Example JSON_parse_examples :
  JSON_parse (String "["%char (quoted "col" +:+ ", true]")) = Ok (JArr [JStr "col"; JBool true]) ∧
  JSON_parse "{}" = Ok (JObj []) ∧
  JSON_parse " [1, [null], -2.5e1] " =
    Ok (JArr [JNum (num_of_Z 1); JArr [JNull]; JNum (num_of_Z (-25))]) ∧
  JSON_parse ("{" +:+ quoted "b" +:+ ": 1 ," +:+ quoted "2" +:+ ":[]}") =
    Ok (JObj [("2", JArr []); ("b", JNum (num_of_Z 1))]) ∧
  (∃ e, JSON_parse "[01]" = Throw e) ∧
  (∃ e, JSON_parse "col" = Throw e).
Proof. vm_compute. repeat split; by eexists. Qed.
