(* ===== verification/Lodash.v ===== *)
(** * Lodash

    The source calls a few functions of the third-party package lodash.  They
    are parameters of the model: the class [Lodash] lists the ones that are
    used and the documented behaviour the code relies on.  [lodash_reference]
    is an implementation of that interface; it serves to evaluate the model on
    concrete inputs. *)

From Stdlib Require Import String.
From stdpp Require Import base strings option numbers list.
From S2P Require Import Prelude JsObject JsNumber JsValue.

(** Deep equality of JSON-like values: numbers by SameValueZero, objects by
    their own keys regardless of order. *)
Definition num_same (x y : jsnum) : bool :=
  (isNaN x && isNaN y) || num_eqb x y.

Fixpoint deep_equal (v w : jsval) {struct v} : bool :=
  match v, w with
  | JUndef, JUndef => true
  | JNull, JNull => true
  | JBool a, JBool b => Bool.eqb a b
  | JNum x, JNum y => num_same x y
  | JStr a, JStr b => bool_decide (a = b)
  | JArr xs, JArr ys =>
      (fix go xs ys :=
         match xs, ys with
         | [], [] => true
         | x :: xs, y :: ys => deep_equal x y && go xs ys
         | _, _ => false
         end) xs ys
  | JObj a, JObj b =>
      bool_decide (length a = length b) &&
      (fix go (a : list (string * jsval)) :=
         match a with
         | [] => true
         | (k, x) :: a =>
             match aget k b with
             | Some y => deep_equal x y && go a
             | None => false
             end
         end) a
  | _, _ => false
  end.

Class Lodash := {
  (** [_.isEmpty(value)]: a collection with no element; a number, a boolean,
      [null] and [undefined] are empty. *)
  isEmpty : jsval → bool;
  isEmpty_str : ∀ s, isEmpty (JStr s) = bool_decide (s = EmptyString);
  isEmpty_arr : ∀ xs, isEmpty (JArr xs) = bool_decide (xs = []);
  isEmpty_obj : ∀ o, isEmpty (JObj o) = bool_decide (o = []);
  isEmpty_undef : isEmpty JUndef = true;
  isEmpty_null : isEmpty JNull = true;
  (** [_.isEqual(value, other)]: deep comparison. *)
  isEqual : jsval → jsval → bool;
  isEqual_deep : ∀ v w, isEqual v w = deep_equal v w;
  (** [_.omit(object, paths)], for top-level keys. *)
  omit : jsobj → list string → jsobj;
  omit_aget : ∀ o ks k,
    aget k (omit o ks) = if decide (k ∈ ks) then None else aget k o;
  omit_NoDup : ∀ o ks, NoDup (akeys o) → NoDup (akeys (omit o ks));
  (** [_.omitBy(object, predicate)]: the entries whose value fails the
      predicate; a value that is no object gives the empty object. *)
  omitBy : jsval → (jsval → bool) → jsobj;
  omitBy_obj : ∀ o p, omitBy (JObj o) p = filter (λ kv, p kv.2 = false) o;
  omitBy_undef : ∀ p, omitBy JUndef p = [];
  (** A string is treated as the list of its characters. *)
  omitBy_str : ∀ s p, s ≠ EmptyString → p (JStr (String.substring 0 1 s)) = false →
    omitBy (JStr s) p ≠ [];
  (** [_.omit(value, paths)] on any value. *)
  omit_value : jsval → list string → jsval;
  omit_value_obj : ∀ o ks, omit_value (JObj o) ks = JObj (omit o ks);
  (** [_.isEqualWith(value, other, customizer)], where the customizer decides
      unless it returns [undefined]. *)
  isEqualWith : jsval → jsval → (jsval → jsval → option bool) → bool;
  isEqualWith_decided : ∀ v w c b, c v w = Some b → isEqualWith v w c = b;
  (** [_.pick(object, paths)], for top-level keys. *)
  pick : jsobj → list string → jsobj;
  pick_aget : ∀ o ks k, aget k (pick o ks) = if decide (k ∈ ks) then aget k o else None;
  pick_NoDup : ∀ o ks, NoDup (akeys (pick o ks));
}.

Section reference.
Definition isEmpty_ref (v : jsval) : bool :=
  match v with
  | JStr s => bool_decide (s = EmptyString)
  | JArr xs => bool_decide (xs = [])
  | JObj o => bool_decide (o = [])
  | _ => true
  end.

Definition omit_ref (o : jsobj) (ks : list string) : jsobj :=
  filter (λ kv, kv.1 ∉ ks) o.

Definition omitBy_ref (v : jsval) (p : jsval → bool) : jsobj :=
  match v with
  | JObj o => filter (λ kv, p kv.2 = false) o
  | JStr s =>
      filter (λ kv, p kv.2 = false)
        (imap (λ i c, (string_of_N (N.of_nat i), JStr (String c EmptyString)))
           (String.list_ascii_of_string s))
  | _ => []
  end.

Definition omit_value_ref (v : jsval) (ks : list string) : jsval :=
  match v with JObj o => JObj (omit_ref o ks) | _ => JObj [] end.

Definition pick_ref (o : jsobj) (ks : list string) : jsobj :=
  foldl (λ acc k, match aget k o with Some v => oset k v acc | None => acc end) [] ks.

Definition isEqualWith_ref (v w : jsval) (c : jsval → jsval → option bool) : bool :=
  default (deep_equal v w) (c v w).

Lemma omitBy_ref_str s p :
  s ≠ EmptyString → p (JStr (String.substring 0 1 s)) = false → omitBy_ref (JStr s) p ≠ [].
Proof.
  destruct s as [|c s]; intros Hs Hp; [done|]. unfold omitBy_ref.
  change (String.list_ascii_of_string (String c s)) with (c :: String.list_ascii_of_string s).
  rewrite imap_cons, filter_cons. rewrite decide_True; [done|].
  rewrite <- Hp. by destruct s.
Qed.

Lemma omit_ref_aget o ks k :
  aget k (omit_ref o ks) = if decide (k ∈ ks) then None else aget k o.
Proof.
  unfold omit_ref. induction o as [|[k0 v0] o IH]; simpl; [by case_decide|].
  rewrite filter_cons. simpl. destruct (decide (k0 ∉ ks)) as [H|H]; simpl; rewrite IH.
  - by repeat case_decide; subst.
  - apply dec_stable in H. by repeat case_decide; subst.
Qed.

Lemma pick_ref_aget o ks k :
  aget k (pick_ref o ks) = if decide (k ∈ ks) then aget k o else None.
Proof.
  unfold pick_ref. induction ks as [|k' ks IH] using rev_ind.
  { by rewrite decide_False by apply not_elem_of_nil. }
  rewrite foldl_app. cbn [foldl]. destruct (decide (k = k')) as [->|Hne].
  - rewrite decide_True by (apply elem_of_app; right; by left).
    destruct (aget k' o) as [v|] eqn:E; [by rewrite aget_oset_eq|]. rewrite IH. by case_decide.
  - destruct (aget k' o); rewrite ?aget_oset_ne, IH by done; apply decide_ext;
      rewrite elem_of_app, list_elem_of_singleton; tauto.
Qed.

Lemma pick_ref_NoDup o ks : NoDup (akeys (pick_ref o ks)).
Proof.
  unfold pick_ref. induction ks as [|k ks IH] using rev_ind; [apply NoDup_nil_2|].
  rewrite foldl_app. cbn [foldl]. destruct (aget k o); [by apply NoDup_akeys_oset|done].
Qed.

Lemma filter_akeys_sublist {V} (P : string * V → Prop) `{∀ x, Decision (P x)}
    (o : list (string * V)) :
  akeys (filter P o) `sublist_of` akeys o.
Proof.
  unfold akeys. induction o as [|kv o IH]; simpl; [done|].
  rewrite filter_cons. case_decide; simpl; [by apply sublist_skip|by apply sublist_cons].
Qed.

Lemma filter_akeys_NoDup {V} (P : string * V → Prop) `{∀ x, Decision (P x)}
    (o : list (string * V)) :
  NoDup (akeys o) → NoDup (akeys (filter P o)).
Proof. intros. by eapply sublist_NoDup, filter_akeys_sublist. Qed.

#[export, refine] Instance lodash_reference : Lodash := {
  isEmpty := isEmpty_ref;
  isEqual := deep_equal;
  omit := omit_ref;
  omitBy := omitBy_ref;
  omit_value := omit_value_ref;
  isEqualWith := isEqualWith_ref;
  pick := pick_ref;
}.
Proof.
  - done.
  - done.
  - done.
  - done.
  - done.
  - done.
  - apply omit_ref_aget.
  - intros. by apply filter_akeys_NoDup.
  - done.
  - done.
  - apply omitBy_ref_str.
  - done.
  - intros v w c b Hc. unfold isEqualWith_ref. by rewrite Hc.
  - apply pick_ref_aget.
  - apply pick_ref_NoDup.
Defined.
End reference.
