(* ===== verification/QueryTypes.v ===== *)
(** * Columns, metrics, filters and their labels

    The type guards and label functions of [superset-ui-core/src/query] that
    the query pipeline and the post-processing operators share, with the small
    helpers of [superset-ui-core/src/utils] they call.  Columns, metrics and
    filters are JavaScript values, as in the source. *)

From Stdlib Require Import Ascii String.
From stdpp Require Import base strings option numbers list sets.
From S2P Require Import Prelude JsObject JsNumber JsValue.

(** ** Operators *)

(** @source core/query/types/Operator.ts 20-21 UNARY_OPERATORS *)
Definition UNARY_OPERATORS : list string := ["IS NOT NULL"; "IS NULL"].

(** @source core/query/types/Operator.ts 23-36 BINARY_OPERATORS *)
Definition BINARY_OPERATORS : list string :=
  ["=="; "!="; ">"; "<"; ">="; "<="; "ILIKE"; "LIKE"; "NOT LIKE"; "REGEX";
   "TEMPORAL_RANGE"].

(** @source core/query/types/Operator.ts 38-39 SET_OPERATORS *)
Definition SET_OPERATORS : list string := ["IN"; "NOT IN"].

(** [set.has(v)] for a set of strings *)
Definition string_set_has (s : list string) (v : jsval) : bool :=
  existsb (is_str v) s.

(** @source core/query/types/Operator.ts 58-62 isUnaryOperator *)
Definition isUnaryOperator (operator : jsval) : bool :=
  string_set_has UNARY_OPERATORS operator.

(** @source core/query/types/Operator.ts 64-68 isBinaryOperator *)
Definition isBinaryOperator (operator : jsval) : bool :=
  string_set_has BINARY_OPERATORS operator.

(** @source core/query/types/Operator.ts 70-74 isSetOperator *)
Definition isSetOperator (operator : jsval) : bool :=
  string_set_has SET_OPERATORS operator.

(** ** Filters *)

(** @source core/query/types/Filter.ts 75-79 isSimpleAdhocFilter *)
Definition isSimpleAdhocFilter (filter : jsval) : result bool :=
  expressionType ← field "expressionType" filter;
  Ok (is_str expressionType "SIMPLE").

(** @source core/query/types/Filter.ts 81-85 isFreeFormAdhocFilter *)
Definition isFreeFormAdhocFilter (filter : jsval) : result bool :=
  expressionType ← field "expressionType" filter;
  Ok (is_str expressionType "SQL").

(** @source core/query/types/Filter.ts 87-91 isUnaryAdhocFilter *)
Definition isUnaryAdhocFilter (filter : jsval) : result bool :=
  operator ← field "operator" filter;
  Ok (isUnaryOperator operator).

(** @source core/query/types/Filter.ts 93-97 isBinaryAdhocFilter *)
Definition isBinaryAdhocFilter (filter : jsval) : result bool :=
  operator ← field "operator" filter;
  Ok (isBinaryOperator operator).

(** @source core/query/types/Filter.ts 99-103 isSetAdhocFilter *)
Definition isSetAdhocFilter (filter : jsval) : result bool :=
  operator ← field "operator" filter;
  Ok (isSetOperator operator).

(** @source core/query/convertFilter.ts 27-56 convertFilter *)
Definition convertFilter (filter : jsval) : result jsval :=
  subject ← field "subject" filter;
  unary ← isUnaryAdhocFilter filter;
  if (unary : bool) then
    operator ← field "operator" filter;
    Ok (JObj [("col", subject); ("op", operator)])
  else
    binary ← isBinaryAdhocFilter filter;
    if (binary : bool) then
      operator ← field "operator" filter;
      comparator ← field "comparator" filter;
      Ok (JObj [("col", subject); ("op", operator); ("val", comparator)])
    else
      operator ← field "operator" filter;
      comparator ← field "comparator" filter;
      Ok (JObj [("col", subject); ("op", operator); ("val", comparator)]).

(** ** Columns *)

(** @source core/query/types/Column.ts 65-67 isPhysicalColumn *)
Definition isPhysicalColumn (column : jsval) : bool := is_string column.

(** @source core/query/types/Column.ts 69-76 isAdhocColumn *)
Definition isAdhocColumn (column : jsval) : bool :=
  negb (is_string column) &&
  negb (is_undefined (opt_field "sqlExpression" column)) &&
  negb (is_undefined (opt_field "label" column)) &&
  (is_undefined (opt_field "expressionType" column) ||
   is_str (opt_field "expressionType" column) "SQL").

(** @source core/query/types/Column.ts 78-80 isAdhocColumnReference *)
Definition isAdhocColumnReference (column : jsval) : bool :=
  isAdhocColumn column && strict_eq (opt_field "isColumnReference" column) (JBool true).

(** @source core/query/types/Column.ts 82-84 isQueryFormColumn *)
Definition isQueryFormColumn (column : jsval) : bool :=
  isPhysicalColumn column || isAdhocColumn column.

(** @source core/query/getColumnLabel.ts 22-30 getColumnLabel *)
Definition getColumnLabel (column : jsval) : jsval :=
  if isPhysicalColumn column then column
  else if truthy (opt_field "label" column) then opt_field "label" column
  else opt_field "sqlExpression" column.

(** ** Metrics *)

(** @source core/query/types/Metric.ts 78-80 isSavedMetric *)
Definition isSavedMetric (metric : jsval) : bool := is_string metric.

(** @source core/query/types/Metric.ts 82-84 isAdhocMetricSimple *)
Definition isAdhocMetricSimple (metric : jsval) : bool :=
  negb (is_string metric) && is_str (opt_field "expressionType" metric) "SIMPLE".

(** @source core/query/types/Metric.ts 86-88 isAdhocMetricSQL *)
Definition isAdhocMetricSQL (metric : jsval) : bool :=
  negb (is_string metric) && is_str (opt_field "expressionType" metric) "SQL".

(** @source core/query/types/Metric.ts 90-96 isQueryFormMetric *)
Definition isQueryFormMetric (metric : jsval) : bool :=
  isSavedMetric metric || isAdhocMetricSimple metric || isAdhocMetricSQL metric.

(** @source core/query/getMetricLabel.ts 22-35 getMetricLabel *)
Definition getMetricLabel (metric : jsval) : result jsval :=
  if isSavedMetric metric then Ok metric
  else
    label ← field "label" metric;
    if truthy label then Ok label
    else if isAdhocMetricSimple metric then
      aggregate ← field "aggregate" metric;
      column ← field "column" metric;
      columnName ← field "columnName" column;
      column_name ← field "column_name" column;
      Ok (JStr (to_string aggregate +:+ "("
                +:+ to_string (js_or columnName column_name) +:+ ")"))
    else field "sqlExpression" metric.

(** ** Helpers *)

(** @source core/utils/ensureIsArray.ts 24-29 ensureIsArray *)
Definition ensureIsArray (value : jsval) : list jsval :=
  match value with
  | JUndef | JNull => []
  | JArr xs => xs
  | v => [v]
  end.

(** @source core/utils/isDefined.ts 20-22 isDefined *)
Definition isDefined (x : jsval) : bool := negb (is_nullish x).

(** SameValueZero, the comparison of [Set], on primitive values. *)
Definition same_value_zero (v w : jsval) : bool :=
  match v, w with
  | JNum x, JNum y => (isNaN x && isNaN y) || num_eqb x y
  | _, _ => strict_eq v w
  end.

Definition set_has (seen : list jsval) (v : jsval) : bool :=
  existsb (same_value_zero v) seen.

(** The loop of the filter callback with its [seen] set; the hash may throw.

    @source core/utils/removeDuplicates.ts 27-33 removeDuplicates (filter) *)
Fixpoint removeDuplicates_loop (hash : jsval → result jsval) (seen : list jsval)
    (items : list jsval) : result (list jsval) :=
  match items with
  | [] => Ok []
  | x :: items =>
      itemHash ← hash x;
      if set_has seen itemHash then removeDuplicates_loop hash seen items
      else
        rest ← removeDuplicates_loop hash (seen ++ [itemHash]) items;
        Ok (x :: rest)
  end.

(** Without a hash the items themselves are collected in a set.

    @source core/utils/removeDuplicates.ts 22-36 removeDuplicates *)
Definition removeDuplicates (items : list jsval) (hash : option (jsval → result jsval))
    : result (list jsval) :=
  match hash with
  | Some hash => removeDuplicates_loop hash [] items
  | None => removeDuplicates_loop Ok [] items
  end.

(** ** The x axis *)

(** @source core/query/constants.ts 27-28 DTTM_ALIAS *)
Definition DTTM_ALIAS : string := "__timestamp".

(** @source core/query/getXAxis.ts 28-29 isXAxisSet *)
Definition isXAxisSet (formData : jsobj) : bool :=
  isQueryFormColumn (ofield "x_axis" formData).

(** @source core/query/getXAxis.ts 31-43 getXAxisColumn *)
Definition getXAxisColumn (formData : jsobj) : jsval :=
  if negb (truthy (js_or (ofield "granularity_sqla" formData) (ofield "x_axis" formData)))
  then JUndef
  else if isXAxisSet formData then ofield "x_axis" formData
  else JStr DTTM_ALIAS.

(** @source core/query/getXAxis.ts 45-51 getXAxisLabel *)
Definition getXAxisLabel (formData : jsobj) : jsval :=
  let col := getXAxisColumn formData in
  if truthy col then getColumnLabel col else JUndef.

(** ** Properties *)

(** A label is usable as a key when it is a string. *)
Definition has_label (label : jsval → jsval) (x : jsval) : Prop :=
  ∃ s, label x = JStr s.

Lemma same_value_zero_str a b : same_value_zero (JStr a) (JStr b) = bool_decide (a = b).
Proof. done. Qed.

Lemma set_has_str seen s : set_has seen (JStr s) = true ↔ JStr s ∈ seen.
Proof.
  unfold set_has. rewrite existsb_exists. split.
  - intros (v & Hin & Hv). apply list_elem_of_In in Hin. destruct v; try done.
    rewrite same_value_zero_str in Hv. apply bool_decide_eq_true in Hv. by subst.
  - intros Hin. exists (JStr s). split; [by apply list_elem_of_In|].
    rewrite same_value_zero_str. by apply bool_decide_eq_true.
Qed.

(** Every item has a string label under the hash. *)
Definition labelled (hash : jsval → result jsval) (items : list jsval) : Prop :=
  ∀ x, x ∈ items → ∃ s, hash x = Ok (JStr s).

Section removeDuplicates.
Context (hash : jsval → result jsval).

Lemma labelled_cons x items :
  labelled hash (x :: items) → (∃ s, hash x = Ok (JStr s)) ∧ labelled hash items.
Proof. intros H. split; [apply H; left|]. intros y Hy. apply H. by right. Qed.

Lemma removeDuplicates_loop_spec seen items :
  labelled hash items →
  ∃ out,
    removeDuplicates_loop hash seen items = Ok out ∧
    out `sublist_of` items ∧
    (∀ v, v ∈ hash <$> out ↔ v ∈ hash <$> items ∧ v ∉ Ok <$> seen) ∧
    NoDup (hash <$> out).
Proof.
  revert seen. induction items as [|x items IH]; intros seen Hl; simpl.
  { exists []. repeat split; try set_solver. apply NoDup_nil_2. }
  apply labelled_cons in Hl as [[s Hs] Hl]. rewrite Hs. simpl.
  destruct (set_has seen (JStr s)) eqn:E.
  - apply set_has_str in E.
    destruct (IH seen Hl) as (out & Hout & Hsub & Hmem & Hnd).
    exists out. split; [done|]. split; [by apply sublist_cons|]. split; [|done].
    intros v. rewrite Hmem, elem_of_cons.
    split; [naive_solver|]. intros [[->|?] Hv]; [|done]. exfalso. apply Hv.
    apply list_elem_of_fmap. by eexists.
  - apply not_true_iff_false in E. rewrite set_has_str in E.
    destruct (IH (seen ++ [JStr s]) Hl) as (out & Hout & Hsub & Hmem & Hnd).
    exists (x :: out). rewrite Hout. split; [done|]. split; [by apply sublist_skip|].
    rewrite fmap_app in Hmem. simpl in *. split.
    + intros v. rewrite Hs, !elem_of_cons, Hmem, elem_of_app, list_elem_of_singleton.
      destruct (decide (v = Ok (JStr s))) as [->|]; [|naive_solver].
      split; [|naive_solver]. intros _. split; [by left|].
      intros (w & ? & ?)%list_elem_of_fmap. naive_solver.
    + apply NoDup_cons. split; [|done]. rewrite Hmem, Hs. set_solver.
Qed.

(** Deduplication keeps one item of each label, the first, in order. *)
Lemma removeDuplicates_spec items :
  labelled hash items →
  ∃ out,
    removeDuplicates items (Some hash) = Ok out ∧
    out `sublist_of` items ∧
    (∀ v, v ∈ hash <$> out ↔ v ∈ hash <$> items) ∧
    NoDup (hash <$> out).
Proof.
  intros H. destruct (removeDuplicates_loop_spec [] items H) as (out & ? & ? & Hm & ?).
  exists out. repeat split; try done.
  - by intros [? ?]%Hm.
  - intros. apply Hm. split; [done|]. apply not_elem_of_nil.
Qed.
End removeDuplicates.
