(* ===== verification/Query.v ===== *)
(** * From form data to the query context

    [superset-ui-core/src/query]: the functions that turn a chart's form data
    into the query objects sent to the server.  Form data and query objects
    are objects of [jsval]; a TypeError of the source is a [Throw]. *)

From Stdlib Require Import Ascii String.
From stdpp Require Import base strings option numbers list sets.
From S2P Require Import Prelude JsObject JsNumber JsValue JsJson Lodash QueryTypes.

(** [value.forEach(...)]: the elements of an array, an error otherwise. *)
Definition for_each_items (v : jsval) : result (list jsval) :=
  match v with
  | JArr xs => Ok xs
  | _ => Throw (TypeError "forEach is not a function")
  end.

(** [...value] inside an array literal, for an array. *)
Definition spread_items (v : jsval) : result (list jsval) :=
  match v with
  | JArr xs => Ok xs
  | JStr s => Ok ((λ c, JStr (String c EmptyString)) <$> String.list_ascii_of_string s)
  | _ => Throw (TypeError "value is not iterable")
  end.

(** A value whose type in the source is an object; any other value is
    reported as a TypeError at once. *)
Definition as_object (v : jsval) : result jsobj :=
  match v with
  | JObj o => Ok o
  | _ => Throw (TypeError "value is not an object")
  end.

(** ** Extra filters *)

(** @source core/query/extractExtras.ts 53-62 reservedColumnsToQueryField *)
Definition reservedColumnsToQueryField : list (string * string) :=
  [("__time_range", "time_range");
   ("__time_col", "granularity_sqla");
   ("__time_grain", "time_grain_sqla");
   ("__granularity", "granularity");
   ("__time_compare", "time_compare")].

(** The variables the loop of [extractExtras] updates. *)
Record extras_state := {
  es_extract : jsobj;
  es_applied : jsobj;
  es_filters : list jsval;
}.

(** @source core/query/extractExtras.ts 64-73 extractExtras (loop body) *)
Definition extractExtras_step (st : extras_state) (filter : jsval)
    : result extras_state :=
  col ← field "col" filter;
  let key := to_string col in
  match aget key reservedColumnsToQueryField with
  | Some queryField =>
      val ← field "val" filter;
      Ok {| es_extract := oset queryField val (es_extract st);
            es_applied := oset key val (es_applied st);
            es_filters := es_filters st |}
  | None =>
      Ok {| es_extract := es_extract st;
            es_applied := es_applied st;
            es_filters := es_filters st ++ [filter] |}
  end.

(** The three members [filters], [extras] and [applied_time_extras] of the
    result are filled in when the loop has ended.

    @source core/query/extractExtras.ts 43-85 extractExtras *)
Definition extractExtras (formData : jsobj) : result jsobj :=
  items ← for_each_items (js_or (ofield "extra_filters" formData) (JArr []));
  st ← fold_result extractExtras_step
         {| es_extract := [("filters", JArr []); ("extras", JObj []);
                           ("applied_time_extras", JObj [])];
            es_applied := []; es_filters := [] |} items;
  let extract := es_extract st in
  let extras :=
    oset "time_grain_sqla"
      (js_or (ofield "time_grain_sqla" extract) (ofield "time_grain_sqla" formData)) [] in
  let granularity :=
    js_or (js_or (ofield "granularity_sqla" extract) (ofield "granularity" formData))
      (ofield "granularity_sqla" formData) in
  let extract := oset "granularity" granularity extract in
  let extract := adel "granularity_sqla" extract in
  let extract := adel "time_grain_sqla" extract in
  let extract := oset "filters" (JArr (es_filters st)) extract in
  let extract := oset "extras" (JObj extras) extract in
  Ok (oset "applied_time_extras" (JObj (es_applied st)) extract).

(** ** Adhoc filters *)

Definition newline : string := String "010" EmptyString.

(** @source core/query/processFilters.ts 26-32 sanitizeClause *)
Definition sanitizeClause (clause : jsval) : result string :=
  match clause with
  | JStr s =>
      let sanitizedClause := if includes "--" s then s +:+ newline else s in
      Ok ("(" +:+ sanitizedClause +:+ ")")
  | JArr xs =>
      let sanitizedClause :=
        if existsb (λ x, is_str x "--") xs then to_string clause +:+ newline
        else to_string clause in
      Ok ("(" +:+ sanitizedClause +:+ ")")
  | _ => Throw (TypeError "clause.includes is not a function")
  end.

Record filters_state := {
  fs_simpleWhere : list jsval;
  fs_freeformWhere : list jsval;
  fs_freeformHaving : list jsval;
}.

(** @source core/query/processFilters.ts 50-65 processFilters (loop body) *)
Definition processFilters_step (st : filters_state) (filter : jsval)
    : result filters_state :=
  clause ← field "clause" filter;
  simple ← isSimpleAdhocFilter filter;
  if (simple : bool) then
    filterClause ← convertFilter filter;
    if is_str clause "WHERE" then
      Ok {| fs_simpleWhere := fs_simpleWhere st ++ [filterClause];
            fs_freeformWhere := fs_freeformWhere st;
            fs_freeformHaving := fs_freeformHaving st |}
    else Ok st
  else
    sqlExpression ← field "sqlExpression" filter;
    if is_str clause "WHERE" then
      Ok {| fs_simpleWhere := fs_simpleWhere st;
            fs_freeformWhere := fs_freeformWhere st ++ [sqlExpression];
            fs_freeformHaving := fs_freeformHaving st |}
    else
      Ok {| fs_simpleWhere := fs_simpleWhere st;
            fs_freeformWhere := fs_freeformWhere st;
            fs_freeformHaving := fs_freeformHaving st ++ [sqlExpression] |}.

(** The source pushes to the array it is given and writes to the [extras] object
    it is given, and returns both; the result is what they hold at the end.

    @source core/query/processFilters.ts 35-75 processFilters *)
Definition processFilters (formData : jsobj) : result jsobj :=
  let extras := with_default (ofield "extras" formData) (JObj []) in
  let filters := with_default (ofield "filters" formData) (JArr []) in
  let where_ := ofield "where" formData in
  extras ← as_object extras;
  filters ← for_each_items filters;
  adhoc_filters ← for_each_items (js_or (ofield "adhoc_filters" formData) (JArr []));
  st ← fold_result processFilters_step
         {| fs_simpleWhere := filters;
            fs_freeformWhere := if truthy where_ then [where_] else [];
            fs_freeformHaving := [] |} adhoc_filters;
  having ← map_result sanitizeClause (fs_freeformHaving st);
  where' ← map_result sanitizeClause (fs_freeformWhere st);
  let extras :=
    oset "where" (JStr (join " AND " where'))
      (oset "having" (JStr (join " AND " having)) extras) in
  Ok [("filters", JArr (fs_simpleWhere st)); ("extras", JObj extras)].

(** ** Columns, metrics and order *)

(** @source core/query/extractQueryFields.ts 45-57 queryFieldAliases *)
Definition queryFieldAliases (aliases : jsobj) : jsobj :=
  ospread
    [("metric", JStr "metrics"); ("metric_2", JStr "metrics");
     ("secondary_metric", JStr "metrics"); ("x", JStr "metrics");
     ("y", JStr "metrics"); ("size", JStr "metrics");
     ("all_columns", JStr "columns"); ("series", JStr "groupby");
     ("order_by_cols", JStr "orderby")] aliases.

(** [xs.concat(value)] *)
Definition concat_value (xs : list jsval) (value : jsval) : list jsval :=
  match value with
  | JArr ys => xs ++ ys
  | v => xs ++ [v]
  end.

Record fields_state := {
  qf_columns : list jsval;
  qf_metrics : list jsval;
  qf_orderby : list jsval;
}.

(** @source core/query/extractQueryFields.ts 64-101 extractQueryFields (loop body) *)
Definition extractQueryFields_step (aliases : jsobj) (queryMode : jsval)
    (st : fields_state) (entry : string * jsval) : fields_state :=
  let '(key, value) := entry in
  if is_nullish value then st
  else
    let normalizedKey := js_or (ofield key aliases) (JStr key) in
    if is_str queryMode "aggregate" && is_str normalizedKey "columns" then st
    else if is_str queryMode "raw" &&
            (is_str normalizedKey "groupby" || is_str normalizedKey "metrics") then st
    else
      let normalizedKey :=
        if is_str normalizedKey "groupby" then JStr "columns" else normalizedKey in
      if is_str normalizedKey "metrics" then
        {| qf_columns := qf_columns st;
           qf_metrics := concat_value (qf_metrics st) value;
           qf_orderby := qf_orderby st |}
      else if is_str normalizedKey "columns" then
        {| qf_columns := concat_value (qf_columns st) value;
           qf_metrics := qf_metrics st;
           qf_orderby := qf_orderby st |}
      else if is_str normalizedKey "orderby" then
        {| qf_columns := qf_columns st;
           qf_metrics := qf_metrics st;
           qf_orderby := concat_value (qf_orderby st) value |}
      else st.

(** @source core/query/extractQueryFields.ts 114-125 extractQueryFields (orderby) *)
Definition parse_orderby_item (item : jsval) : result jsval :=
  match item with
  | JStr s =>
      match JSON_parse s with
      | Ok v => Ok v
      | Throw _ => Throw (GenericError "Found invalid orderby options")
      end
  | v => Ok v
  end.

(** @source core/query/extractQueryFields.ts 41-128 extractQueryFields *)
Definition extractQueryFields (formData aliases : jsobj) : result jsobj :=
  let aliases := queryFieldAliases aliases in
  let queryMode := ofield "query_mode" formData in
  let restFormData := adel "query_mode" formData in
  let st :=
    foldl (extractQueryFields_step aliases queryMode)
      {| qf_columns := []; qf_metrics := []; qf_orderby := [] |} restFormData in
  columns ← removeDuplicates
              (filter (λ col, is_str col EmptyString = false) (qf_columns st))
              (Some (λ c, Ok (getColumnLabel c)));
  metrics ← if is_str queryMode "raw" then Ok JUndef
            else JArr <$> removeDuplicates (qf_metrics st) (Some getMetricLabel);
  orderby ← match qf_orderby st with
            | [] => Ok JUndef
            | items => JArr <$> map_result parse_orderby_item items
            end;
  Ok [("columns", JArr columns); ("metrics", metrics); ("orderby", orderby)].

(** ** Overrides *)

(** @source core/query/constants.ts 30-31 EXTRA_FORM_DATA_OVERRIDE_EXTRA_KEYS *)
Definition EXTRA_FORM_DATA_OVERRIDE_EXTRA_KEYS : list string :=
  ["relative_start"; "relative_end"; "time_grain_sqla"].

(** @source core/query/constants.ts 33-40 EXTRA_FORM_DATA_APPEND_KEYS *)
Definition EXTRA_FORM_DATA_APPEND_KEYS : list string :=
  ["adhoc_filters"; "filters"; "interactive_groupby"; "interactive_highlight";
   "interactive_drilldown"; "custom_form_data"].

(** @source core/query/constants.ts 42-52 EXTRA_FORM_DATA_OVERRIDE_REGULAR_MAPPINGS *)
Definition EXTRA_FORM_DATA_OVERRIDE_REGULAR_MAPPINGS : list (string * string) :=
  [("granularity", "granularity"); ("granularity_sqla", "granularity");
   ("time_column", "time_column"); ("time_grain", "time_grain");
   ("time_range", "time_range"); ("time_compare", "time_compare")].

(** @source core/query/constants.ts 54-56 EXTRA_FORM_DATA_OVERRIDE_REGULAR_KEYS *)
Definition EXTRA_FORM_DATA_OVERRIDE_REGULAR_KEYS : list string :=
  akeys EXTRA_FORM_DATA_OVERRIDE_REGULAR_MAPPINGS.

(** @source core/query/constants.ts 58-61 EXTRA_FORM_DATA_OVERRIDE_KEYS *)
Definition EXTRA_FORM_DATA_OVERRIDE_KEYS : list string :=
  EXTRA_FORM_DATA_OVERRIDE_REGULAR_KEYS ++ EXTRA_FORM_DATA_OVERRIDE_EXTRA_KEYS.

(** @source core/query/processExtraFormData.ts 31-38 overrideExtraFormData (regular keys) *)
Definition override_regular (overrideFormData queryObject : jsobj) : jsobj :=
  foldl (λ acc kt,
    let value := ofield kt.1 overrideFormData in
    if is_undefined value then acc else oset kt.2 value acc)
    queryObject EXTRA_FORM_DATA_OVERRIDE_REGULAR_MAPPINGS.

(** @source core/query/processExtraFormData.ts 39-44 overrideExtraFormData (extra keys) *)
Definition override_extras (overrideFormData extras : jsobj) : jsobj :=
  foldl (λ acc key,
    if ahas key overrideFormData then oset key (ofield key overrideFormData) acc else acc)
    extras EXTRA_FORM_DATA_OVERRIDE_EXTRA_KEYS.

(** @source core/query/processExtraFormData.ts 25-49 overrideExtraFormData *)
Definition overrideExtraFormData (queryObject overrideFormData : jsobj) : result jsobj :=
  extras ← as_object (with_default (ofield "extras" queryObject) (JObj []));
  let overriddenFormData := override_regular overrideFormData queryObject in
  let overriddenExtras := override_extras overrideFormData extras in
  if bool_decide (overriddenExtras = []) then Ok overriddenFormData
  else Ok (oset "extras" (JObj overriddenExtras) overriddenFormData).

(** ** The query object *)

(** The properties of the form data that [buildQueryObject] takes out before
    it looks for query fields.

    @source core/query/buildQueryObject.ts 49-68 buildQueryObject (destructuring) *)
Definition destructured_keys : list string :=
  ["annotation_layers"; "extra_form_data"; "time_range"; "since"; "until";
   "row_limit"; "row_offset"; "order_desc"; "limit"; "timeseries_limit_metric";
   "granularity"; "url_params"; "custom_params"; "series_columns";
   "series_limit"; "series_limit_metric"; "group_others_when_limit_reached"].

(** [const {k1, ..., kn, ...rest} = o] *)
Definition rest_of (ks : list string) (o : jsobj) : jsobj := foldr adel o ks.

(** @source core/query/buildQueryObject.ts 118-125 buildQueryObject (row_limit, row_offset) *)
Definition numeric_or_undefined (v : jsval) : jsval :=
  if is_nullish v || isNaN (to_number v) then JUndef else JNum (to_number v).

(** @source core/query/buildQueryObject.ts 98-103 normalizeSeriesLimitMetric *)
Definition normalizeSeriesLimitMetric (metric : jsval) : jsval :=
  if isQueryFormMetric metric then metric else JUndef.

(** @source core/query/buildQueryObject.ts 105-111 buildQueryObject (time fields) *)
Definition query_head (formData : jsobj) : jsobj :=
  let get k := ofield k formData in
  [("time_range", js_or (get "time_range") JUndef);
   ("since", js_or (get "since") JUndef);
   ("until", js_or (get "until") JUndef);
   ("granularity", js_or (get "granularity") JUndef)].

(** @source core/query/buildQueryObject.ts 114-136 buildQueryObject (other fields) *)
Definition query_tail (formData fields : jsobj) : jsobj :=
  let get k := ofield k formData in
  [("columns", ofield "columns" fields);
   ("metrics", ofield "metrics" fields);
   ("orderby", ofield "orderby" fields);
   ("annotation_layers", with_default (get "annotation_layers") (JArr []));
   ("row_limit", numeric_or_undefined (get "row_limit"));
   ("row_offset", numeric_or_undefined (get "row_offset"));
   ("series_columns", get "series_columns");
   ("series_limit",
     js_nullish (get "series_limit")
       (JNum (if isDefined (get "limit") then to_number (get "limit") else num_of_Z 0)));
   ("series_limit_metric",
     js_nullish (normalizeSeriesLimitMetric (get "series_limit_metric"))
       (js_nullish (get "timeseries_limit_metric") JUndef));
   ("group_others_when_limit_reached",
     js_nullish (get "group_others_when_limit_reached") (JBool false));
   ("order_desc",
     if is_undefined (get "order_desc") then JBool true else get "order_desc");
   ("url_params", js_or (with_default (get "url_params") (JObj [])) JUndef);
   ("custom_params", with_default (get "custom_params") (JObj []))].

(** @source core/query/buildQueryObject.ts 105-136 buildQueryObject (object literal) *)
Definition base_query (formData fields extras extrasAndfilters : jsobj) : jsobj :=
  ospread (ospread (ospread (query_head formData) extras) extrasAndfilters)
    (query_tail formData fields).

(** The filters that reach [processFilters]: those of the extra filters and
    of the form data, each followed by what the extra form data appends.

    @source core/query/buildQueryObject.ts 83-97 buildQueryObject (filters) *)
Definition collect_filters (formData extra_form_data extras : jsobj) : result jsobj :=
  extraFilters ← spread_items (ofield "filters" extras);
  appendFilters ←
    spread_items (with_default (ofield "filters" extra_form_data) (JArr []));
  adhocFilters ← spread_items (js_or (ofield "adhoc_filters" formData) (JArr []));
  appendAdhocFilters ←
    spread_items (with_default (ofield "adhoc_filters" extra_form_data) (JArr []));
  let filterFormData :=
    [("filters", JArr (extraFilters ++ appendFilters));
     ("adhoc_filters", JArr (adhocFilters ++ appendAdhocFilters))] in
  processFilters (ospread (ospread formData extras) filterFormData).

(** @source core/query/buildQueryObject.ts 45-142 buildQueryObject *)
Definition buildQueryObject (formData queryFields : jsobj) : result jsobj :=
  let residualFormData := rest_of destructured_keys formData in
  extra_form_data ← as_object (js_or (ofield "extra_form_data" formData) (JObj []));
  let custom_form_data :=
    with_default (ofield "custom_form_data" extra_form_data) (JObj []) in
  let overrides :=
    rest_of ["adhoc_filters"; "filters"; "custom_form_data"] extra_form_data in
  fields ← extractQueryFields residualFormData queryFields;
  extras ← extractExtras formData;
  extrasAndfilters ← collect_filters formData extra_form_data extras;
  queryObject ←
    overrideExtraFormData (base_query formData fields extras extrasAndfilters) overrides;
  Ok (oset "custom_form_data" custom_form_data queryObject).

(** ** Normalisation of the query object *)

(** A usable clause: a pair of a non-empty column or metric and a boolean.

    @source core/query/normalizeOrderBy.ts 26-37 normalizeOrderBy (guard) *)
Definition valid_orderby `{Lodash} (orderby : jsval) : bool :=
  match orderby with
  | JArr (JArr [by_; JBool _] :: _) => negb (isEmpty by_)
  | _ => false
  end.

(** @source core/query/normalizeOrderBy.ts 23-79 normalizeOrderBy *)
Definition normalizeOrderBy `{Lodash} (queryObject : jsobj) : jsobj :=
  if valid_orderby (ofield "orderby" queryObject) then queryObject
  else
    let cloneQueryObject :=
      adel "orderby" (adel "order_desc"
        (adel "legacy_order_by" (adel "series_limit_metric" queryObject))) in
    let isAsc := JBool (negb (truthy (ofield "order_desc" queryObject))) in
    let usable v := negb (is_undefined v) && negb (strict_eq v JNull) && negb (isEmpty v) in
    let series_limit_metric := ofield "series_limit_metric" queryObject in
    let legacy_order_by := ofield "legacy_order_by" queryObject in
    if usable series_limit_metric then
      oset "orderby" (JArr [JArr [series_limit_metric; isAsc]]) cloneQueryObject
    else if usable legacy_order_by then
      oset "orderby" (JArr [JArr [legacy_order_by; isAsc]]) cloneQueryObject
    else
      match ofield "metrics" queryObject with
      | JArr (metric :: _) => oset "orderby" (JArr [JArr [metric; isAsc]]) cloneQueryObject
      | _ => cloneQueryObject
      end.

(** @source core/query/normalizeTimeColumn.ts 42-50 normalizeTimeColumn (axisIdx) *)
Definition is_axis_column (x_axis col : jsval) : bool :=
  (isPhysicalColumn col && isPhysicalColumn x_axis && strict_eq col x_axis) ||
  (isAdhocColumn col && isAdhocColumn x_axis &&
   strict_eq (opt_field "sqlExpression" col) (opt_field "sqlExpression" x_axis)).

Fixpoint find_index {A} (p : A → bool) (xs : list A) : option nat :=
  match xs with
  | [] => None
  | x :: xs => if p x then Some 0 else S <$> find_index p xs
  end.

(** @source core/query/normalizeTimeColumn.ts 57-72 normalizeTimeColumn (the new column) *)
Definition base_axis_column (extras x_axis col : jsval) : jsval :=
  let timeGrain := opt_field "time_grain_sqla" extras in
  if isAdhocColumn col then
    JObj (ospread [("timeGrain", timeGrain); ("columnType", JStr "BASE_AXIS")]
            (object_entries col))
  else
    JObj [("timeGrain", timeGrain); ("columnType", JStr "BASE_AXIS");
          ("sqlExpression", x_axis); ("label", x_axis);
          ("expressionType", JStr "SQL"); ("isColumnReference", JBool true)].

(** @source core/query/normalizeTimeColumn.ts 31-82 normalizeTimeColumn *)
Definition normalizeTimeColumn `{Lodash} (formData queryObject : jsobj) : jsobj :=
  if negb (isXAxisSet formData) then queryObject
  else
    let x_axis := ofield "x_axis" formData in
    match ofield "columns" queryObject with
    | JArr columns =>
        match find_index (is_axis_column x_axis) columns with
        | Some axisIdx =>
            if truthy x_axis then
              let mutatedColumns :=
                alter (base_axis_column (ofield "extras" queryObject) x_axis)
                  axisIdx columns in
              oset "columns" (JArr mutatedColumns) (omit queryObject ["is_timeseries"])
            else queryObject
        | None => queryObject
        end
    | _ => queryObject
    end.

(** ** The query context *)

(** [s.split(sep)] for a separator that is not empty; the fuel bounds the
    number of characters. *)
Fixpoint split_go (fuel : nat) (sep s cur : string) : list string :=
  match fuel with
  | 0 => [string_rev_app cur EmptyString]
  | S fuel =>
      match strip_prefix sep s with
      | Some rest => string_rev_app cur EmptyString :: split_go fuel sep rest EmptyString
      | None =>
          match s with
          | EmptyString => [string_rev_app cur EmptyString]
          | String c s => split_go fuel sep s (String c cur)
          end
      end
  end.

Definition split (sep s : string) : list string :=
  split_go (S (String.length s)) sep s EmptyString.

(** @source core/query/types/Datasource.ts 22-28 DatasourceType *)
Inductive DatasourceType := Table | QueryType | Dataset | SlTable | SavedQuery.

Definition DatasourceType_value (t : DatasourceType) : string :=
  match t with
  | Table => "table"
  | QueryType => "query"
  | Dataset => "dataset"
  | SlTable => "sl_table"
  | SavedQuery => "saved_query"
  end.

Record DatasourceKey := {
  dk_id : jsnum;
  dk_type : DatasourceType;
}.

(** @source core/query/DatasourceKey.ts 27-32 DatasourceKey.constructor *)
Definition new_DatasourceKey (key : string) : DatasourceKey :=
  let parts := split "__" key in
  let idStr := default "undefined" (parts !! 0) in
  {| dk_id := parseInt idStr;
     dk_type :=
       match parts !! 1 with
       | Some "query" => QueryType
       | _ => Table
       end |}.

(** @source core/query/DatasourceKey.ts 34-36 DatasourceKey.toString *)
Definition DatasourceKey_toString (k : DatasourceKey) : string :=
  num_to_string (dk_id k) +:+ "__" +:+ DatasourceType_value (dk_type k).

(** @source core/query/DatasourceKey.ts 38-43 DatasourceKey.toObject *)
Definition DatasourceKey_toObject (k : DatasourceKey) : jsval :=
  JObj [("id", JNum (dk_id k)); ("type", JStr (DatasourceType_value (dk_type k)))].

(** The second argument of [buildQueryContext]: a function from the base query
    object to the final ones, or an object with that function and the field
    aliases, both optional.

    @source core/query/buildQueryContext.ts 35-45 buildQueryContext (options) *)
Inductive query_options :=
| NoOptions
| BuildFunction (buildQuery : jsobj → result (list jsobj))
| Options (buildQuery : option (jsobj → result (list jsobj))) (queryFields : option jsobj).

(** @source core/query/buildQueryContext.ts 29-29 WRAP_IN_ARRAY *)
Definition WRAP_IN_ARRAY (baseQueryObject : jsobj) : result (list jsobj) := Ok [baseQueryObject].

Definition options_buildQuery (o : query_options) : jsobj → result (list jsobj) :=
  match o with
  | NoOptions => WRAP_IN_ARRAY
  | BuildFunction f => f
  | Options f _ => default WRAP_IN_ARRAY f
  end.

Definition options_queryFields (o : query_options) : jsobj :=
  match o with
  | Options _ (Some fields) => fields
  | _ => []
  end.

(** @source core/query/buildQueryContext.ts 53-58 buildQueryContext (query mutator) *)
Definition clean_post_processing (query : jsobj) : jsobj :=
  match ofield "post_processing" query with
  | JArr rules =>
      oset "post_processing" (JArr (filter (λ r, truthy r = true) rules)) query
  | _ => query
  end.

(** @source core/query/buildQueryContext.ts 35-71 buildQueryContext *)
Definition buildQueryContext `{Lodash} (formData : jsobj) (options : query_options)
    : result jsobj :=
  base ← buildQueryObject formData (options_queryFields options);
  built ← options_buildQuery options base;
  let queries := clean_post_processing <$> (built : list jsobj) in
  let queries :=
    if isXAxisSet formData then normalizeTimeColumn formData <$> queries else queries in
  key ← match ofield "datasource" formData with
        | JStr s => Ok s
        | _ => Throw (TypeError "key.split is not a function")
        end;
  Ok [("datasource", DatasourceKey_toObject (new_DatasourceKey key));
      ("force", js_or (ofield "force" formData) (JBool false));
      ("queries", JArr (JObj <$> queries));
      ("form_data", JObj formData);
      ("result_format", js_or (ofield "result_format" formData) (JStr "json"));
      ("result_type", js_or (ofield "result_type" formData) (JStr "full"))].
