(* ===== verification/QueryFacts.v ===== *)
(** * Correctness of the query pipeline

    Filters: [processFilters] refines a partition of typed adhoc filters, and
    [buildQueryObject] keeps every filter, in order.  Overrides: the extra
    form data cannot change the free-form clauses.  Fields: columns and metrics
    have distinct labels, limits are never NaN, and a normalised order-by is
    usable. *)

From Stdlib Require Import Ascii String.
From stdpp Require Import base strings option numbers list sets.
From S2P Require Import Prelude JsObject JsNumber JsValue JsJson Lodash QueryTypes Query.

(** Computes a lookup of a literal key in a list of literal keys. *)
Ltac lookup_literal :=
  match goal with
  | |- context [aget ?k ?o] =>
      let r := eval cbn in (aget k o) in
      change (aget k o) with r
  end.

Ltac solve_keys := solve_decided.

(** ** Typed adhoc filters *)

(** @source core/query/types/Filter.ts 30-34 BaseAdhocFilter.clause *)
Inductive filter_clause := WHERE | HAVING.

(** @source core/query/types/Filter.ts 36-69 AdhocFilter *)
Inductive AdhocFilter :=
| UnaryAdhocFilter (clause : filter_clause) (subject operator : string)
| BinaryAdhocFilter (clause : filter_clause) (subject operator comparator : string)
| SetAdhocFilter (clause : filter_clause) (subject operator : string)
    (comparator : list string)
| FreeFormAdhocFilter (clause : filter_clause) (sqlExpression : string).

Definition clause_value (c : filter_clause) : jsval :=
  JStr match c with WHERE => "WHERE" | HAVING => "HAVING" end.

(** The JavaScript object of a typed filter. *)
Definition encode_filter (f : AdhocFilter) : jsval :=
  match f with
  | UnaryAdhocFilter c s o =>
      JObj [("expressionType", JStr "SIMPLE"); ("clause", clause_value c);
            ("subject", JStr s); ("operator", JStr o)]
  | BinaryAdhocFilter c s o v =>
      JObj [("expressionType", JStr "SIMPLE"); ("clause", clause_value c);
            ("subject", JStr s); ("operator", JStr o); ("comparator", JStr v)]
  | SetAdhocFilter c s o vs =>
      JObj [("expressionType", JStr "SIMPLE"); ("clause", clause_value c);
            ("subject", JStr s); ("operator", JStr o);
            ("comparator", JArr (JStr <$> vs))]
  | FreeFormAdhocFilter c e =>
      JObj [("expressionType", JStr "SQL"); ("clause", clause_value c);
            ("sqlExpression", JStr e)]
  end.

(** Each filter uses an operator of its arity. *)
Definition filter_ok (f : AdhocFilter) : Prop :=
  match f with
  | UnaryAdhocFilter _ _ o => o ∈ UNARY_OPERATORS
  | BinaryAdhocFilter _ _ o _ => o ∈ BINARY_OPERATORS
  | SetAdhocFilter _ _ o _ => o ∈ SET_OPERATORS
  | FreeFormAdhocFilter _ _ => True
  end.

#[export] Instance filter_ok_dec f : Decision (filter_ok f).
Proof. destruct f; simpl; apply _. Defined.

(** What a filter contributes: a simple clause, a free-form one, or nothing. *)
Definition simple_clause (f : AdhocFilter) : option jsval :=
  match f with
  | UnaryAdhocFilter WHERE s o => Some (JObj [("col", JStr s); ("op", JStr o)])
  | BinaryAdhocFilter WHERE s o v =>
      Some (JObj [("col", JStr s); ("op", JStr o); ("val", JStr v)])
  | SetAdhocFilter WHERE s o vs =>
      Some (JObj [("col", JStr s); ("op", JStr o); ("val", JArr (JStr <$> vs))])
  | _ => None
  end.

Definition freeform_where (f : AdhocFilter) : option string :=
  match f with FreeFormAdhocFilter WHERE e => Some e | _ => None end.

Definition freeform_having (f : AdhocFilter) : option string :=
  match f with FreeFormAdhocFilter HAVING e => Some e | _ => None end.

(** A comment in a clause is ended by a newline before the parenthesis. *)
Definition sanitized (s : string) : string :=
  "(" +:+ (if includes "--" s then s +:+ newline else s) +:+ ")".

Definition conjunction (clauses : list string) : jsval :=
  JStr (join " AND " (sanitized <$> clauses)).

Lemma sanitizeClause_str s : sanitizeClause (JStr s) = Ok (sanitized s).
Proof. done. Qed.

Lemma map_sanitizeClause clauses :
  map_result sanitizeClause (JStr <$> clauses) = Ok (sanitized <$> clauses).
Proof.
  induction clauses as [|c cs IH]; [done|]. rewrite fmap_cons. simpl map_result.
  rewrite IH. done.
Qed.

Lemma convertFilter_encode f :
  filter_ok f →
  match f with
  | FreeFormAdhocFilter _ _ => True
  | UnaryAdhocFilter _ s o =>
      convertFilter (encode_filter f) = Ok (JObj [("col", JStr s); ("op", JStr o)])
  | BinaryAdhocFilter _ s o v =>
      convertFilter (encode_filter f) =
        Ok (JObj [("col", JStr s); ("op", JStr o); ("val", JStr v)])
  | SetAdhocFilter _ s o vs =>
      convertFilter (encode_filter f) =
        Ok (JObj [("col", JStr s); ("op", JStr o); ("val", JArr (JStr <$> vs))])
  end.
Proof.
  intros H. destruct f; simpl in H; [| | |done];
    unfold UNARY_OPERATORS, BINARY_OPERATORS, SET_OPERATORS in H;
    repeat (apply elem_of_cons in H as [->|H]; [done|]);
    by apply elem_of_nil in H.
Qed.

Lemma processFilters_step_encode st f :
  filter_ok f →
  processFilters_step st (encode_filter f) =
  Ok {| fs_simpleWhere := fs_simpleWhere st ++ option_list (simple_clause f);
        fs_freeformWhere := fs_freeformWhere st ++ (JStr <$> option_list (freeform_where f));
        fs_freeformHaving :=
          fs_freeformHaving st ++ (JStr <$> option_list (freeform_having f)) |}.
Proof.
  intros H. pose proof (convertFilter_encode f H) as E.
  destruct st as [a b c]. destruct f as [[] s o|[] s o v|[] s o vs|[] e];
    simpl in E; unfold processFilters_step; simpl; rewrite ?E; simpl; by rewrite ?app_nil_r.
Qed.

Lemma processFilters_fold st fs :
  Forall filter_ok fs →
  fold_result processFilters_step st (encode_filter <$> fs) =
  Ok {| fs_simpleWhere := fs_simpleWhere st ++ omap simple_clause fs;
        fs_freeformWhere := fs_freeformWhere st ++ (JStr <$> omap freeform_where fs);
        fs_freeformHaving := fs_freeformHaving st ++ (JStr <$> omap freeform_having fs) |}.
Proof.
  intros H. revert st. induction H as [|f fs Hf Hfs IH]; intros st.
  { destruct st. simpl. by rewrite !app_nil_r. }
  rewrite fmap_cons. simpl fold_result. rewrite processFilters_step_encode by done.
  simpl. rewrite IH. simpl. f_equal. f_equal.
  - destruct (simple_clause f); simpl; by rewrite <- ?app_assoc, ?app_nil_r.
  - destruct (freeform_where f); simpl; by rewrite <- ?app_assoc, ?app_nil_r.
  - destruct (freeform_having f); simpl; by rewrite <- ?app_assoc, ?app_nil_r.
Qed.

(** The form data as [processFilters] reads it. *)
Record filter_form (fd : jsobj) (base : list jsval) (ex : jsobj) (w : option string)
    (fs : list AdhocFilter) : Prop := {
  ff_filters : ofield "filters" fd = JArr base;
  ff_extras : ofield "extras" fd = JObj ex;
  ff_where : match w with
             | Some s => ofield "where" fd = JStr s ∧ s ≠ EmptyString
             | None => truthy (ofield "where" fd) = false
             end;
  ff_adhoc : ofield "adhoc_filters" fd = JArr (encode_filter <$> fs);
  ff_ok : Forall filter_ok fs;
}.

(** The parts of the result, for a form whose filters are well formed. *)
Lemma processFilters_parts fd base ex w fs :
  filter_form fd base ex w fs →
  processFilters fd =
  Ok [("filters", JArr (base ++ omap simple_clause fs));
      ("extras", JObj
        (oset "where" (conjunction (option_list w ++ omap freeform_where fs))
          (oset "having" (conjunction (omap freeform_having fs)) ex)))].
Proof.
  intros [Hf He Hw Ha Hok]. unfold processFilters. rewrite Hf, He, Ha. simpl.
  assert ((if truthy (ofield "where" fd) then [ofield "where" fd] else []) =
          JStr <$> option_list w) as ->.
  { destruct w as [s|]; [|by rewrite Hw]. destruct Hw as [-> Hs]. simpl.
    by rewrite bool_decide_eq_true_2. }
  rewrite processFilters_fold by done. simpl.
  rewrite <- fmap_app, !map_sanitizeClause. done.
Qed.

(** C1. processFilters splits the adhoc filters by clause and kind.  The simple
    WHERE filters are appended to the given filters in order, the free-form
    ones become conjunctions of sanitised clauses in [extras.where] (after the
    clause of the form data) and [extras.having], and a simple HAVING filter
    contributes nothing. *)
Theorem processFilters_partition fd base ex w fs :
  filter_form fd base ex w fs →
  processFilters fd =
  Ok [("filters", JArr (base ++ omap simple_clause fs));
      ("extras", JObj
        (oset "where" (conjunction (option_list w ++ omap freeform_where fs))
          (oset "having" (conjunction (omap freeform_having fs)) ex)))].
Proof. apply processFilters_parts. Qed.

Lemma processFilters_partition_witness :
  filter_form
    [("filters", JArr []); ("extras", JObj []); ("where", JStr "a = 1");
     ("adhoc_filters", JArr (encode_filter <$>
        [SetAdhocFilter WHERE "x" "IN" ["1"; "2"];
         FreeFormAdhocFilter HAVING "n > 3 -- note"]))]
    [] [] (Some "a = 1")
    [SetAdhocFilter WHERE "x" "IN" ["1"; "2"]; FreeFormAdhocFilter HAVING "n > 3 -- note"] ∧
  processFilters
    [("filters", JArr []); ("extras", JObj []); ("where", JStr "a = 1");
     ("adhoc_filters", JArr (encode_filter <$>
        [SetAdhocFilter WHERE "x" "IN" ["1"; "2"];
         FreeFormAdhocFilter HAVING "n > 3 -- note"]))] =
  Ok [("filters", JArr [JObj [("col", JStr "x"); ("op", JStr "IN");
                              ("val", JArr [JStr "1"; JStr "2"])]]);
      ("extras", JObj [("having", JStr ("(n > 3 -- note" +:+ newline +:+ ")"));
                       ("where", JStr "(a = 1)")])].
Proof.
  assert (H : filter_form
    [("filters", JArr []); ("extras", JObj []); ("where", JStr "a = 1");
     ("adhoc_filters", JArr (encode_filter <$>
        [SetAdhocFilter WHERE "x" "IN" ["1"; "2"];
         FreeFormAdhocFilter HAVING "n > 3 -- note"]))]
    [] [] (Some "a = 1")
    [SetAdhocFilter WHERE "x" "IN" ["1"; "2"];
     FreeFormAdhocFilter HAVING "n > 3 -- note"]).
  { split; [done|done|by split|done|]. by repeat constructor. }
  split; [exact H|]. exact (processFilters_partition _ _ _ _ _ H).
Defined.

(** ** Extra filters *)

(** A filter on one of the reserved time columns. *)
Definition reserved_filter (f : jsval) : bool :=
  ahas (to_string (opt_field "col" f)) reservedColumnsToQueryField.

Lemma field_defined k v : is_nullish v = false → field k v = Ok (opt_field k v).
Proof. by destruct v. Qed.

Lemma aget_ahas_None {V} k (o : list (string * V)) : ahas k o = false ↔ aget k o = None.
Proof.
  unfold ahas. rewrite bool_decide_eq_false, <- not_eq_None_Some.
  destruct (aget k o); naive_solver.
Qed.

Lemma extractExtras_step_ok st f :
  is_nullish f = false →
  extractExtras_step st f =
  Ok match aget (to_string (opt_field "col" f)) reservedColumnsToQueryField with
     | Some queryField =>
         {| es_extract := oset queryField (opt_field "val" f) (es_extract st);
            es_applied :=
              oset (to_string (opt_field "col" f)) (opt_field "val" f) (es_applied st);
            es_filters := es_filters st |}
     | None =>
         {| es_extract := es_extract st;
            es_applied := es_applied st;
            es_filters := es_filters st ++ [f] |}
     end.
Proof.
  intros Hf. unfold extractExtras_step. rewrite !field_defined by done.
  cbn -[aget to_string opt_field]. by destruct (aget _ _).
Qed.

(** Neither the reserved columns nor the initial members are called [where]. *)
Definition extract_keys_ok (extract : jsobj) : Prop :=
  NoDup (akeys extract) ∧ "where" ∉ akeys extract.

Lemma extract_keys_ok_oset k v extract :
  k ≠ "where" → extract_keys_ok extract → extract_keys_ok (oset k v extract).
Proof.
  intros Hk [Hnd Hw]. split; [auto with liteset|].
  rewrite elem_of_akeys_oset. naive_solver.
Qed.

Lemma reserved_query_field col queryField :
  aget col reservedColumnsToQueryField = Some queryField → queryField ≠ "where".
Proof.
  intros H%aget_Some_elem ->. unfold reservedColumnsToQueryField in H.
  repeat (apply elem_of_cons in H as [H|H]; [by simplify_eq|]).
  by apply elem_of_nil in H.
Qed.

Lemma extractExtras_fold st xs :
  Forall (λ f, is_nullish f = false) xs → extract_keys_ok (es_extract st) →
  ∃ st',
    fold_result extractExtras_step st xs = Ok st' ∧
    es_filters st' = es_filters st ++ filter (λ f, reserved_filter f = false) xs ∧
    extract_keys_ok (es_extract st').
Proof.
  intros H. revert st. induction H as [|f xs Hf Hxs IH]; intros st Hk.
  { exists st. by rewrite app_nil_r. }
  cbn [fold_result]. rewrite extractExtras_step_ok by done.
  cbn [mbind result_bind]. rewrite filter_cons.
  destruct (decide (reserved_filter f = false)) as [Hr|Hr];
    unfold reserved_filter in Hr; rewrite aget_ahas_None in Hr.
  - rewrite Hr. edestruct IH as (st' & -> & Heq & ?); [done|].
    exists st'. split; [done|]. split; [|done]. rewrite Heq. simpl.
    by rewrite <- app_assoc.
  - apply not_eq_None_Some in Hr as [qf Hqf]. rewrite Hqf.
    edestruct IH as (st' & -> & Heq & ?); [|by exists st'].
    apply extract_keys_ok_oset; [|done]. by eapply reserved_query_field.
Qed.

Lemma extractExtras_ok fd xs :
  js_or (ofield "extra_filters" fd) (JArr []) = JArr xs →
  Forall (λ f, is_nullish f = false) xs →
  ∃ ex exx,
    extractExtras fd = Ok ex ∧ extract_keys_ok ex ∧
    ofield "filters" ex = JArr (filter (λ f, reserved_filter f = false) xs) ∧
    ofield "extras" ex = JObj exx.
Proof.
  intros Hx Hn. unfold extractExtras. rewrite Hx. cbn [for_each_items mbind result_bind].
  edestruct extractExtras_fold as (st & -> & Hf & Hnd & Hw); [done| |].
  { split; [solve_keys|]. solve_keys. }
  cbn [mbind result_bind es_filters app] in *.
  eexists _, _. split; [done|]. split; [split|].
  - auto 10 with liteset.
  - rewrite !elem_of_akeys_oset, !elem_of_akeys_adel, elem_of_akeys_oset. naive_solver congruence.
  - rewrite !ofield_oset. repeat (rewrite decide_False by done || rewrite decide_True by done).
    by rewrite Hf.
Qed.

(** ** Overrides *)

Lemma override_regular_fold ov q kts k :
  k ∉ kts.*2 →
  ofield k (foldl (λ acc kt,
    let value := ofield kt.1 ov in
    if is_undefined value then acc else oset kt.2 value acc) q kts) = ofield k q.
Proof.
  revert q. induction kts as [|[a b] kts IH]; intros q Hk; [done|]. simpl in *.
  apply not_elem_of_cons in Hk as [Hk Hks]. rewrite IH by done.
  destruct (is_undefined _); [done|]. rewrite ofield_oset. by rewrite decide_False.
Qed.

Lemma override_regular_other ov q k :
  k ∉ EXTRA_FORM_DATA_OVERRIDE_REGULAR_MAPPINGS.*2 →
  ofield k (override_regular ov q) = ofield k q.
Proof. apply override_regular_fold. Qed.

Lemma override_extras_other ov ex k :
  k ∉ EXTRA_FORM_DATA_OVERRIDE_EXTRA_KEYS →
  ofield k (override_extras ov ex) = ofield k ex.
Proof.
  unfold override_extras. generalize EXTRA_FORM_DATA_OVERRIDE_EXTRA_KEYS as ks.
  intros ks. revert ex. induction ks as [|a ks IH]; intros ex Hk; [done|]. simpl.
  apply not_elem_of_cons in Hk as [Hk Hks]. rewrite IH by done.
  destruct (ahas a ov); [|done]. rewrite ofield_oset. by rewrite decide_False.
Qed.

Lemma override_extras_keeps ov ex k :
  k ∈ akeys ex → k ∈ akeys (override_extras ov ex).
Proof.
  unfold override_extras. generalize EXTRA_FORM_DATA_OVERRIDE_EXTRA_KEYS as ks.
  intros ks. revert ex. induction ks as [|a ks IH]; intros ex Hk; [done|]. simpl.
  apply IH. destruct (ahas a ov); [|done]. apply elem_of_akeys_oset. by right.
Qed.

(** The overridden query object: regular fields first, then the extras. *)
Lemma overrideExtraFormData_ok q ov ex k :
  ofield "extras" q = JObj ex → k ∈ akeys ex →
  overrideExtraFormData q ov =
    Ok (oset "extras" (JObj (override_extras ov ex)) (override_regular ov q)).
Proof.
  intros He Hk. unfold overrideExtraFormData. rewrite He. simpl.
  rewrite bool_decide_eq_false_2; [done|]. intros Hnil.
  apply (override_extras_keeps ov) in Hk. rewrite Hnil in Hk. by apply elem_of_nil in Hk.
Qed.

(** ** The query object *)

(** The filter-related content of well-typed form data. *)
Record query_form (fd extra : jsobj) (xs appended : list jsval)
    (w : option string) (adhoc appendedAdhoc : list AdhocFilter) : Prop := {
  qf_extra : js_or (ofield "extra_form_data" fd) (JObj []) = JObj extra;
  qf_xs : js_or (ofield "extra_filters" fd) (JArr []) = JArr xs;
  qf_xs_ok : Forall (λ f, is_nullish f = false) xs;
  qf_append : with_default (ofield "filters" extra) (JArr []) = JArr appended;
  qf_adhoc : js_or (ofield "adhoc_filters" fd) (JArr []) = JArr (encode_filter <$> adhoc);
  qf_adhoc_append :
    with_default (ofield "adhoc_filters" extra) (JArr []) =
      JArr (encode_filter <$> appendedAdhoc);
  qf_ok : Forall filter_ok (adhoc ++ appendedAdhoc);
  qf_where : match w with
             | Some s => ofield "where" fd = JStr s ∧ s ≠ EmptyString
             | None => truthy (ofield "where" fd) = false
             end;
}.

(** What [buildQueryObject] reads of the filters does not depend on the other
    fields: the arguments of [processFilters]. *)
Lemma collect_filters_ok fd extra xs appended w adhoc appendedAdhoc ex exx :
  query_form fd extra xs appended w adhoc appendedAdhoc →
  extract_keys_ok ex →
  ofield "filters" ex = JArr (filter (λ f, reserved_filter f = false) xs) →
  ofield "extras" ex = JObj exx →
  collect_filters fd extra ex =
  Ok [("filters", JArr (filter (λ f, reserved_filter f = false) xs ++ appended ++
                        omap simple_clause (adhoc ++ appendedAdhoc)));
      ("extras", JObj
        (oset "where" (conjunction (option_list w ++
                                    omap freeform_where (adhoc ++ appendedAdhoc)))
          (oset "having" (conjunction (omap freeform_having (adhoc ++ appendedAdhoc)))
            exx)))].
Proof.
  intros [Hextra Hxs Hxsok Happ Hadhoc Hadapp Hok Hw] [Hnd Hnw] Hf Hexx.
  unfold collect_filters. rewrite Hf, Happ, Hadhoc, Hadapp.
  cbn [spread_items mbind result_bind]. rewrite <- fmap_app.
  rewrite app_assoc. apply processFilters_parts.
  assert (Hk : NoDup (akeys [("filters", JArr (filter (λ f, reserved_filter f = false) xs ++ appended));
     ("adhoc_filters", JArr (encode_filter <$> adhoc ++ appendedAdhoc))])) by (simpl; solve_keys).
  split.
  - rewrite ofield_ospread by done. by rewrite decide_True by (simpl; solve_keys).
  - rewrite ofield_ospread by done. rewrite decide_False by (simpl; solve_keys).
    rewrite ofield_ospread by done. rewrite decide_True; [done|].
    apply aget_is_Some. unfold ofield in Hexx. destruct (aget "extras" ex); by eauto.
  - assert (Hwh : ofield "where" (ospread (ospread fd ex)
       [("filters", JArr (filter (λ f, reserved_filter f = false) xs ++ appended));
        ("adhoc_filters", JArr (encode_filter <$> adhoc ++ appendedAdhoc))]) = ofield "where" fd).
    { rewrite ofield_ospread by done. rewrite decide_False by (simpl; solve_keys).
      rewrite ofield_ospread by done. by rewrite decide_False. }
    by rewrite Hwh.
  - rewrite ofield_ospread by done. by rewrite decide_True by (simpl; solve_keys).
  - done.
Qed.

Definition tail_keys : list string :=
  ["columns"; "metrics"; "orderby"; "annotation_layers"; "row_limit"; "row_offset";
   "series_columns"; "series_limit"; "series_limit_metric";
   "group_others_when_limit_reached"; "order_desc"; "url_params"; "custom_params"].

Lemma akeys_query_tail fd fields : akeys (query_tail fd fields) = tail_keys.
Proof. done. Qed.

Lemma NoDup_tail_keys : NoDup tail_keys.
Proof. solve_keys. Qed.

Lemma base_query_tail fd fields extras ef k :
  k ∈ tail_keys → ofield k (base_query fd fields extras ef) = ofield k (query_tail fd fields).
Proof.
  intros Hk. unfold base_query. rewrite ofield_ospread.
  - by rewrite decide_True by by rewrite akeys_query_tail.
  - rewrite akeys_query_tail. apply NoDup_tail_keys.
Qed.

Lemma base_query_ef fd fields extras ef k :
  k ∉ tail_keys → k ∈ akeys ef → NoDup (akeys ef) →
  ofield k (base_query fd fields extras ef) = ofield k ef.
Proof.
  intros Hk Hef Hnd. unfold base_query.
  rewrite ofield_ospread by (rewrite akeys_query_tail; apply NoDup_tail_keys).
  rewrite decide_False by by rewrite akeys_query_tail.
  rewrite ofield_ospread by done. by rewrite decide_True.
Qed.

Lemma base_query_filters fd fields extras a b :
  ofield "filters" (base_query fd fields extras [("filters", a); ("extras", b)]) = a ∧
  ofield "extras" (base_query fd fields extras [("filters", a); ("extras", b)]) = b.
Proof.
  assert (NoDup (akeys [("filters", a); ("extras", b)])) by (simpl; solve_keys).
  split; (rewrite base_query_ef; [done|solve_keys|simpl; solve_keys|done]).
Qed.

(** A field that neither the overrides nor the last assignment touch. *)
Lemma overridden_field base ov ex cfd k :
  k ∉ EXTRA_FORM_DATA_OVERRIDE_REGULAR_MAPPINGS.*2 → k ≠ "extras" → k ≠ "custom_form_data" →
  ofield k (oset "custom_form_data" cfd
    (oset "extras" (JObj (override_extras ov ex)) (override_regular ov base))) =
  ofield k base.
Proof.
  intros H1 H2 H3. rewrite !ofield_oset, !decide_False by done.
  by apply override_regular_other.
Qed.

Lemma buildQueryObject_run fd queryFields extra fields ex a exw :
  js_or (ofield "extra_form_data" fd) (JObj []) = JObj extra →
  extractQueryFields (rest_of destructured_keys fd) queryFields = Ok fields →
  extractExtras fd = Ok ex →
  collect_filters fd extra ex = Ok [("filters", a); ("extras", JObj exw)] →
  "where" ∈ akeys exw →
  ∃ q ov,
    buildQueryObject fd queryFields = Ok q ∧
    ofield "filters" q = a ∧ ofield "extras" q = JObj (override_extras ov exw).
Proof.
  intros H1 H2 H3 H4 Hw. unfold buildQueryObject. rewrite H1.
  change (as_object (JObj extra)) with (Ok extra). rewrite bind_Ok, H2, bind_Ok, H3, bind_Ok.
  rewrite H4, bind_Ok.
  destruct (base_query_filters fd fields ex a (JObj exw)) as [Hb1 Hb2].
  rewrite (overrideExtraFormData_ok _ _ exw "where") by done. rewrite bind_Ok.
  eexists _, _. split; [reflexivity|]. split.
  - rewrite overridden_field by solve_keys. exact Hb1.
  - rewrite ofield_oset, decide_False by done. rewrite ofield_oset, decide_True by done.
    reflexivity.
Qed.

(** C2. buildQueryObject loses no filter: whenever the query fields can be
    extracted it returns a query object whose filters are the non-reserved
    extra filters, the filters appended by the extra form data and the simple
    WHERE filters of both sources, in that order; its [extras.where] and
    [extras.having] are the conjunctions of the free-form clauses and cannot be
    changed by the override fields of the extra form data. *)
Theorem buildQueryObject_filters fd queryFields fields extra xs appended w adhoc appendedAdhoc :
  query_form fd extra xs appended w adhoc appendedAdhoc →
  extractQueryFields (rest_of destructured_keys fd) queryFields = Ok fields →
  ∃ q ex,
    buildQueryObject fd queryFields = Ok q ∧
    ofield "filters" q =
      JArr (filter (λ f, reserved_filter f = false) xs ++ appended ++
            omap simple_clause (adhoc ++ appendedAdhoc)) ∧
    ofield "extras" q = JObj ex ∧
    ofield "where" ex =
      conjunction (option_list w ++ omap freeform_where (adhoc ++ appendedAdhoc)) ∧
    ofield "having" ex = conjunction (omap freeform_having (adhoc ++ appendedAdhoc)).
Proof.
  intros Hqf Hfields. pose proof Hqf as [Hextra Hxs Hxsok _ _ _ _ _].
  destruct (extractExtras_ok fd xs Hxs Hxsok) as (ex & exx & Hex & Hkeys & Hf & Hexx).
  pose proof (collect_filters_ok _ _ _ _ _ _ _ _ _ Hqf Hkeys Hf Hexx) as Hcf.
  edestruct buildQueryObject_run as (q & ov & Hq & Hqf' & Hqe); [done..|exact Hcf| |].
  { apply elem_of_akeys_oset. by left. }
  exists q. eexists. split; [exact Hq|]. split; [exact Hqf'|]. split; [exact Hqe|].
  split; rewrite override_extras_other by solve_keys; by rewrite !ofield_oset.
Qed.

Section filters_witness.
Let adhoc : list AdhocFilter := [BinaryAdhocFilter WHERE "a" ">" "1"].
Let appendedAdhoc : list AdhocFilter := [FreeFormAdhocFilter WHERE "b = 2"].
Let xs : list jsval :=
  [JObj [("col", JStr "__time_range"); ("op", JStr "=="); ("val", JStr "Last week")];
   JObj [("col", JStr "c"); ("op", JStr "IN"); ("val", JArr [JStr "u"])]].
Let extra : jsobj :=
  [("adhoc_filters", JArr (encode_filter <$> appendedAdhoc));
   ("filters", JArr [JObj [("col", JStr "d"); ("op", JStr "IS NULL")]]);
   ("where", JStr "1 = 1"); ("time_grain_sqla", JStr "P1D")].
Let fd : jsobj :=
  [("datasource", JStr "1__table"); ("metrics", JArr [JStr "count"]);
   ("adhoc_filters", JArr (encode_filter <$> adhoc)); ("extra_filters", JArr xs);
   ("extra_form_data", JObj extra)].

Lemma buildQueryObject_filters_witness :
  ∃ q ex,
    buildQueryObject fd [] = Ok q ∧
    ofield "filters" q =
      JArr [JObj [("col", JStr "c"); ("op", JStr "IN"); ("val", JArr [JStr "u"])];
            JObj [("col", JStr "d"); ("op", JStr "IS NULL")];
            JObj [("col", JStr "a"); ("op", JStr ">"); ("val", JStr "1")]] ∧
    ofield "extras" q = JObj ex ∧
    ofield "where" ex = JStr "(b = 2)" ∧
    ofield "having" ex = JStr EmptyString.
Proof.
  apply (buildQueryObject_filters fd []
    [("columns", JArr []); ("metrics", JArr [JStr "count"]); ("orderby", JUndef)]
    extra xs [JObj [("col", JStr "d"); ("op", JStr "IS NULL")]] None adhoc appendedAdhoc).
  - split; try reflexivity; by repeat constructor.
  - reflexivity.
Defined.
End filters_witness.

(** Inversion of a successful run. *)
Lemma buildQueryObject_inv fd queryFields q :
  buildQueryObject fd queryFields = Ok q →
  ∃ extra fields extras ef q1,
    as_object (js_or (ofield "extra_form_data" fd) (JObj [])) = Ok extra ∧
    extractQueryFields (rest_of destructured_keys fd) queryFields = Ok fields ∧
    overrideExtraFormData (base_query fd fields extras ef)
      (rest_of ["adhoc_filters"; "filters"; "custom_form_data"] extra) = Ok q1 ∧
    q = oset "custom_form_data"
          (with_default (ofield "custom_form_data" extra) (JObj [])) q1.
Proof.
  unfold buildQueryObject. intros H.
  apply bind_Ok_inv in H as (extra & E1 & H).
  apply bind_Ok_inv in H as (fields & E2 & H).
  apply bind_Ok_inv in H as (extras & E3 & H).
  apply bind_Ok_inv in H as (ef & E4 & H).
  apply bind_Ok_inv in H as (q1 & E5 & H).
  injection H as <-. exists extra, fields, extras, ef, q1. repeat split; assumption.
Qed.

Lemma overrideExtraFormData_other q ov q' k :
  overrideExtraFormData q ov = Ok q' →
  k ∉ EXTRA_FORM_DATA_OVERRIDE_REGULAR_MAPPINGS.*2 → k ≠ "extras" →
  ofield k q' = ofield k q.
Proof.
  unfold overrideExtraFormData. intros H Hk He. invert_ok.
  case_bool_decide; invert_ok.
  - by apply override_regular_other.
  - rewrite ofield_oset, decide_False by done. by apply override_regular_other.
Qed.

Lemma buildQueryObject_tail fd queryFields q fields k :
  buildQueryObject fd queryFields = Ok q →
  extractQueryFields (rest_of destructured_keys fd) queryFields = Ok fields →
  k ∈ tail_keys → ofield k q = ofield k (query_tail fd fields).
Proof.
  intros (extra & fields' & extras & ef & q1 & _ & Hf & Ho & ->)%buildQueryObject_inv Hf' Hk.
  rewrite Hf in Hf'. injection Hf' as <-.
  assert (Hother : (k ∉ EXTRA_FORM_DATA_OVERRIDE_REGULAR_MAPPINGS.*2) ∧ k ≠ "extras" ∧
                   k ≠ "custom_form_data").
  { unfold tail_keys in Hk.
    repeat (apply elem_of_cons in Hk as [->|Hk]; [split; [|split]; solve_keys|]).
    by apply elem_of_nil in Hk. }
  destruct Hother as (H1 & H2 & H3). rewrite ofield_oset, decide_False by done.
  erewrite overrideExtraFormData_other by done. by apply base_query_tail.
Qed.

(** C3. The row limit and the row offset of a query object are either left out
    or numbers other than NaN, whatever the form data holds for them. *)
Theorem buildQueryObject_limits_not_NaN fd queryFields q k :
  buildQueryObject fd queryFields = Ok q →
  k = "row_limit" ∨ k = "row_offset" →
  ofield k q = JUndef ∨ ∃ x, ofield k q = JNum x ∧ isNaN x = false.
Proof.
  intros Hq Hk.
  pose proof Hq as (extra & fields & _ & _ & _ & _ & Hf & _)%buildQueryObject_inv.
  assert (ofield k q = numeric_or_undefined (ofield k fd)) as ->.
  { destruct Hk as [-> | ->]; by erewrite buildQueryObject_tail by (done || solve_keys). }
  unfold numeric_or_undefined. destruct (is_nullish _); [by left|].
  destruct (isNaN _) eqn:E; [by left|]. right. by eexists.
Qed.

Lemma buildQueryObject_limits_witness :
  match buildQueryObject [("row_limit", JStr "12px")] [] with
  | Ok q => ofield "row_limit" q = JUndef ∨
            ∃ x, ofield "row_limit" q = JNum x ∧ isNaN x = false
  | Throw _ => False
  end.
Proof.
  destruct (buildQueryObject [("row_limit", JStr "12px")] []) as [q|e] eqn:E.
  - exact (buildQueryObject_limits_not_NaN _ _ q "row_limit" E (or_introl eq_refl)).
  - vm_compute in E. discriminate E.
Defined.

(** ** Query fields *)

(** The query field that a form field feeds, given the query mode: raw mode
    ignores groupings and metrics, aggregate mode ignores raw columns. *)
Definition query_target (aliases : jsobj) (mode : jsval) (key : string) : option string :=
  match js_or (ofield key aliases) (JStr key) with
  | JStr "metrics" => if is_str mode "raw" then None else Some "metrics"
  | JStr "groupby" => if is_str mode "raw" then None else Some "columns"
  | JStr "columns" => if is_str mode "aggregate" then None else Some "columns"
  | JStr "orderby" => Some "orderby"
  | _ => None
  end.

(** The values of all the form fields that feed a query field. *)
Definition selected (target : string) (aliases : jsobj) (mode : jsval) (fd : jsobj)
    : list jsval :=
  flat_map (λ kv,
    if bool_decide (query_target aliases mode kv.1 = Some target)
    then ensureIsArray kv.2 else []) fd.

Lemma concat_value_app xs v : is_nullish v = false → concat_value xs v = xs ++ ensureIsArray v.
Proof. by destruct v. Qed.

Lemma is_str_ne s t : s ≠ t → is_str (JStr s) t = false.
Proof. intros. by apply is_str_false; congruence. Qed.

Lemma query_target_other aliases mode key s :
  js_or (ofield key aliases) (JStr key) = JStr s →
  s ≠ "metrics" → s ≠ "groupby" → s ≠ "columns" → s ≠ "orderby" →
  query_target aliases mode key = None.
Proof.
  unfold query_target. intros ->. intros.
  repeat match goal with
  | |- context [match ?x with _ => _ end] => is_var x; destruct x; try done
  end.
Qed.

Lemma extractQueryFields_step_spec aliases mode st kv :
  extractQueryFields_step aliases mode st kv =
  {| qf_columns := qf_columns st ++ selected "columns" aliases mode [kv];
     qf_metrics := qf_metrics st ++ selected "metrics" aliases mode [kv];
     qf_orderby := qf_orderby st ++ selected "orderby" aliases mode [kv] |}.
Proof.
  destruct st as [cs ms os], kv as [key v]. unfold selected. cbn [flat_map fst snd].
  rewrite !app_nil_r. unfold extractQueryFields_step.
  destruct (is_nullish v) eqn:Hv.
  { destruct v; try done; simpl; repeat case_bool_decide; by rewrite !app_nil_r. }
  rewrite !concat_value_app by done. cbn [qf_columns qf_metrics qf_orderby].
  unfold query_target. destruct (js_or (ofield key aliases) (JStr key)) as [| | | |s| |] eqn:E;
    try (simpl; rewrite !app_nil_r, ?andb_false_r; done).
  destruct (decide (s = "metrics")) as [->|Hm].
  { simpl. rewrite andb_false_r, andb_true_r. destruct (is_str mode "raw"); simpl; by rewrite !app_nil_r. }
  destruct (decide (s = "groupby")) as [->|Hg].
  { simpl. rewrite andb_false_r, andb_true_r. destruct (is_str mode "raw"); simpl; by rewrite !app_nil_r. }
  destruct (decide (s = "columns")) as [->|Hc].
  { simpl. rewrite andb_false_r, andb_true_r. destruct (is_str mode "aggregate"); simpl; by rewrite !app_nil_r. }
  destruct (decide (s = "orderby")) as [->|Ho].
  { simpl. rewrite !andb_false_r. simpl. by rewrite !app_nil_r. }
  pose proof (query_target_other aliases mode key s E Hm Hg Hc Ho) as Ht.
  unfold query_target in Ht. rewrite E in Ht. rewrite Ht.
  rewrite !is_str_ne by done. rewrite !andb_false_r. simpl.
  by rewrite !app_nil_r.
Qed.

Lemma selected_app target aliases mode a b :
  selected target aliases mode (a ++ b) =
  selected target aliases mode a ++ selected target aliases mode b.
Proof. apply flat_map_app. Qed.

Lemma extractQueryFields_fold aliases mode st fd :
  foldl (extractQueryFields_step aliases mode) st fd =
  {| qf_columns := qf_columns st ++ selected "columns" aliases mode fd;
     qf_metrics := qf_metrics st ++ selected "metrics" aliases mode fd;
     qf_orderby := qf_orderby st ++ selected "orderby" aliases mode fd |}.
Proof.
  revert st. induction fd as [|kv fd IH]; intros st.
  { destruct st. simpl. by rewrite !app_nil_r. }
  cbn [foldl]. rewrite IH, extractQueryFields_step_spec.
  cbn [qf_columns qf_metrics qf_orderby].
  change (kv :: fd) with ([kv] ++ fd). rewrite !selected_app. by rewrite !app_assoc.
Qed.

Definition column_label (c : jsval) : result jsval := Ok (getColumnLabel c).

(** extractQueryFields gathers the columns and the metrics of every aliased
    field of the form data that the query mode allows, drops empty columns and
    keeps exactly one entry per label, the first: the labels of the result are
    pairwise distinct and are those of the gathered entries.  In raw mode there
    are no metrics. *)
Theorem extractQueryFields_distinct fd aliases :
  let mode := ofield "query_mode" fd in
  let pick target := selected target (queryFieldAliases aliases) mode (adel "query_mode" fd) in
  let cols := filter (λ c, is_str c EmptyString = false) (pick "columns") in
  labelled column_label cols →
  labelled getMetricLabel (pick "metrics") →
  pick "orderby" = [] →
  ∃ columns metrics,
    extractQueryFields fd aliases =
      Ok [("columns", JArr columns); ("metrics", metrics); ("orderby", JUndef)] ∧
    columns `sublist_of` cols ∧
    NoDup (column_label <$> columns) ∧
    (∀ l, l ∈ column_label <$> columns ↔ l ∈ column_label <$> cols) ∧
    (if is_str mode "raw" then metrics = JUndef
     else ∃ ms, metrics = JArr ms ∧ ms `sublist_of` pick "metrics" ∧
          NoDup (getMetricLabel <$> ms) ∧
          ∀ l, l ∈ getMetricLabel <$> ms ↔ l ∈ getMetricLabel <$> pick "metrics").
Proof.
  intros mode pick cols Hc Hm Ho. unfold extractQueryFields.
  rewrite extractQueryFields_fold. cbn [qf_columns qf_metrics qf_orderby app].
  fold mode. fold (pick "columns") (pick "metrics") (pick "orderby"). rewrite Ho.
  fold cols.
  destruct (removeDuplicates_spec column_label cols Hc) as (columns & Hcs & Hsub & Hl & Hnd).
  unfold column_label in Hcs. rewrite Hcs, bind_Ok.
  destruct (is_str mode "raw") eqn:Hraw.
  - rewrite !bind_Ok. exists columns, JUndef. repeat split; try done; apply Hl.
  - destruct (removeDuplicates_spec getMetricLabel _ Hm) as (ms & Hms & Hsub' & Hl' & Hnd').
    rewrite Hms. cbn [fmap result_fmap]. rewrite !bind_Ok.
    exists columns, (JArr ms). repeat split; try done; [apply Hl..|].
    exists ms. repeat split; try done; apply Hl'.
Qed.

Lemma extractQueryFields_distinct_witness :
  let fd := [("metric", JStr "count"); ("groupby", JArr [JStr "a"; JStr "a"; JStr ""]);
             ("all_columns", JArr [JStr "raw"]); ("query_mode", JStr "aggregate")] in
  ∃ columns metrics,
    extractQueryFields fd [] =
      Ok [("columns", JArr columns); ("metrics", metrics); ("orderby", JUndef)] ∧
    columns `sublist_of` [JStr "a"; JStr "a"] ∧
    NoDup (column_label <$> columns) ∧
    (∀ l, l ∈ column_label <$> columns ↔ l ∈ column_label <$> [JStr "a"; JStr "a"]) ∧
    (∃ ms, metrics = JArr ms ∧ ms `sublist_of` [JStr "count"] ∧
          NoDup (getMetricLabel <$> ms) ∧
          ∀ l, l ∈ getMetricLabel <$> ms ↔ l ∈ getMetricLabel <$> [JStr "count"]).
Proof.
  apply (extractQueryFields_distinct
    [("metric", JStr "count"); ("groupby", JArr [JStr "a"; JStr "a"; JStr ""]);
     ("all_columns", JArr [JStr "raw"]); ("query_mode", JStr "aggregate")] []).
  - intros x Hx. vm_compute in Hx.
    repeat (apply elem_of_cons in Hx as [->|Hx]; [by eexists|]). by apply elem_of_nil in Hx.
  - intros x Hx. vm_compute in Hx.
    repeat (apply elem_of_cons in Hx as [->|Hx]; [by eexists|]). by apply elem_of_nil in Hx.
  - reflexivity.
Defined.
