(* ===== verification/QueryNormalFacts.v ===== *)
(** * Overrides and normalisation of query objects

    What the extra form data of a dashboard can change in a query object, and
    what the two normalisation passes and the assembly of the query context
    leave behind: a usable order-by clause, one temporal axis column, no empty
    post-processing rule. *)

From Stdlib Require Import Ascii String.
From stdpp Require Import base strings option numbers list sets.
From S2P Require Import Prelude JsObject JsNumber JsNumberFacts JsValue Lodash QueryTypes Query.

(** ** Overrides *)

(** The value an override takes: the overriding one unless it is undefined. *)
Definition overridden (v old : jsval) : jsval := if is_undefined v then old else v.

Lemma ofield_override_one k k' v q :
  ofield k (if is_undefined v then q else oset k' v q) =
  if decide (k = k') then overridden v (ofield k q) else ofield k q.
Proof.
  unfold overridden. destruct (is_undefined v); [by case_decide|].
  rewrite ofield_oset. by case_decide.
Qed.

Lemma override_regular_field k o q :
  ofield k (override_regular o q) =
  if decide (k = "granularity") then
    overridden (ofield "granularity_sqla" o)
      (overridden (ofield "granularity" o) (ofield k q))
  else if decide (k ∈ ["time_column"; "time_grain"; "time_range"; "time_compare"]) then
    overridden (ofield k o) (ofield k q)
  else ofield k q.
Proof.
  unfold override_regular, EXTRA_FORM_DATA_OVERRIDE_REGULAR_MAPPINGS.
  cbn [foldl fst snd]. rewrite !ofield_override_one.
  destruct (decide (k = "granularity")) as [->|Hg].
  { by rewrite !(decide_False (P := _ = _)) by done. }
  destruct (decide (k ∈ _)) as [Hk|Hk].
  - repeat (apply elem_of_cons in Hk as [->|Hk]; [by repeat case_decide|]).
    by apply elem_of_nil in Hk.
  - by rewrite !(decide_False (P := _ = _)) by (intros ->; apply Hk; set_solver).
Qed.

Lemma override_extras_field k o extras :
  aget k (override_extras o extras) =
  if decide (k ∈ EXTRA_FORM_DATA_OVERRIDE_EXTRA_KEYS ∧ k ∈ akeys o)
  then aget k o else aget k extras.
Proof.
  unfold override_extras. generalize EXTRA_FORM_DATA_OVERRIDE_EXTRA_KEYS as ks.
  intros ks. revert extras. induction ks as [|k' ks IH]; intros extras; cbn [foldl].
  { rewrite decide_False; [done|]. set_solver. }
  rewrite IH. destruct (ahas k' o) eqn:Hk'.
  - apply ahas_spec in Hk'. rewrite aget_oset. destruct (decide (k = k')) as [->|].
    + rewrite (decide_True (P := k' ∈ k' :: ks ∧ _)) by set_solver.
      apply aget_is_Some in Hk' as [v Hv]. unfold ofield. rewrite Hv. by case_decide.
    + apply decide_ext. set_solver.
  - apply not_true_iff_false in Hk'. rewrite ahas_spec in Hk'.
    apply decide_ext. set_solver.
Qed.

(** The overrides of the extra form data reach the query object with a
    fixed precedence: [granularity_sqla] wins over [granularity], every other
    regular key replaces the field of its name when it is defined, the three
    extra keys go to the [extras] of the query, and no other field changes. *)
Theorem overrideExtraFormData_precedence q o q' extras :
  with_default (ofield "extras" q) (JObj []) = JObj extras →
  overrideExtraFormData q o = Ok q' →
  ofield "granularity" q' =
    overridden (ofield "granularity_sqla" o)
      (overridden (ofield "granularity" o) (ofield "granularity" q)) ∧
  (∀ k, k ∈ ["time_column"; "time_grain"; "time_range"; "time_compare"] →
     ofield k q' = overridden (ofield k o) (ofield k q)) ∧
  (∀ k, k ∈ EXTRA_FORM_DATA_OVERRIDE_EXTRA_KEYS → k ∈ akeys o →
     opt_field k (ofield "extras" q') = ofield k o) ∧
  (∀ k, k ∉ EXTRA_FORM_DATA_OVERRIDE_EXTRA_KEYS ∨ k ∉ akeys o →
     opt_field k (ofield "extras" q') = ofield k extras) ∧
  (∀ k, k ∉ ["granularity"; "time_column"; "time_grain"; "time_range"; "time_compare";
             "extras"] → ofield k q' = ofield k q).
Proof.
  intros Hextras Hq. unfold overrideExtraFormData in Hq. rewrite Hextras in Hq.
  cbn [as_object] in Hq. rewrite bind_Ok in Hq.
  set (ex := override_extras o extras) in *.
  assert (Hq' : (∀ k, k ≠ "extras" → ofield k q' = ofield k (override_regular o q)) ∧
                (∀ k, opt_field k (ofield "extras" q') = ofield k ex)).
  { case_bool_decide as Hempty; injection Hq as <-; split; try done.
    - intros k. rewrite Hempty. rewrite override_regular_field, !decide_False by set_solver.
      assert (Hnone : ∀ k, aget k extras = None).
      { intros k0. pose proof (override_extras_field k0 o extras) as H0.
        fold ex in H0. rewrite Hempty in H0. case_decide as Hc; [|done].
        destruct Hc as [_ Hc%aget_is_Some]. destruct Hc as [v Hv]. by rewrite Hv in H0. }
      destruct (ofield "extras" q) as [| | | | | |ex']; try done.
      injection Hextras as ->. simpl. unfold ofield. by rewrite Hnone.
    - intros k Hk. by rewrite ofield_oset, decide_False.
    - intros k. by rewrite ofield_oset, decide_True. }
  destruct Hq' as [Hreg Hex].
  split; [|split; [|split; [|split]]].
  - rewrite Hreg by done. rewrite override_regular_field. by rewrite decide_True.
  - intros k Hk. rewrite Hreg by set_solver. rewrite override_regular_field.
    rewrite decide_False by (intros ->; revert Hk; set_solver). by rewrite decide_True.
  - intros k Hk Ho. rewrite Hex. unfold ofield, ex. rewrite override_extras_field.
    by rewrite decide_True.
  - intros k Hk. rewrite Hex. unfold ofield, ex. rewrite override_extras_field.
    rewrite decide_False; [done|tauto].
  - intros k Hk. rewrite Hreg by set_solver. rewrite override_regular_field.
    by rewrite !decide_False by set_solver.
Qed.

Lemma overrideExtraFormData_precedence_witness :
  let q := [("granularity", JStr "ds"); ("extras", JObj [("having", JStr "")])] in
  let o := [("granularity_sqla", JStr "dttm"); ("time_grain_sqla", JStr "P1D")] in
  match overrideExtraFormData q o with
  | Ok q' => ofield "granularity" q' = JStr "dttm" ∧
             opt_field "time_grain_sqla" (ofield "extras" q') = JStr "P1D"
  | Throw _ => False
  end.
Proof.
  intros q o. destruct (overrideExtraFormData q o) as [q'|e] eqn:E.
  - destruct (overrideExtraFormData_precedence q o q' [("having", JStr "")] eq_refl E)
      as (Hg & _ & Hex & _). split; [exact Hg|].
    apply Hex; [vm_compute; right; right; left|vm_compute; right; left].
  - vm_compute in E. discriminate E.
Defined.

(** ** Extra filters *)

Section extras.
Implicit Types (st : extras_state).

(** The member of the extraction a filter sets, and its value. *)
Definition set_by_filter (f : jsval) : option (string * jsval) :=
  match aget (to_string (opt_field "col" f)) reservedColumnsToQueryField with
  | Some queryField => Some (queryField, opt_field "val" f)
  | None => None
  end.

Lemma extractExtras_step_extract st f st' k :
  extractExtras_step st f = Ok st' →
  ofield k (es_extract st') =
  match set_by_filter f with
  | Some (queryField, v) => if decide (k = queryField) then v else ofield k (es_extract st)
  | None => ofield k (es_extract st)
  end.
Proof.
  unfold extractExtras_step, set_by_filter. intros H.
  apply bind_Ok_inv in H as (col & Hcol & H).
  assert (opt_field "col" f = col) as -> by (destruct f; simpl in *; congruence).
  destruct (aget _ _) as [queryField|]; [|by injection H as <-].
  apply bind_Ok_inv in H as (v & Hv & H). injection H as <-. simpl.
  assert (opt_field "val" f = v) as -> by (destruct f; simpl in *; congruence).
  apply ofield_oset.
Qed.

(** The last filter that sets a member wins. *)
Lemma extractExtras_fold_extract k fs st st' :
  fold_result extractExtras_step st fs = Ok st' →
  ofield k (es_extract st') =
  foldl (λ acc f, match set_by_filter f with
                  | Some (queryField, v) => if decide (k = queryField) then v else acc
                  | None => acc
                  end) (ofield k (es_extract st)) fs.
Proof.
  revert st. induction fs as [|f fs IH]; intros st H; cbn [fold_result foldl] in *.
  { by injection H as ->. }
  apply bind_Ok_inv in H as (st1 & H1 & H). rewrite (IH _ H).
  by rewrite (extractExtras_step_extract _ _ _ _ H1).
Qed.
End extras.

(** The value a list of extra filters gives to a member. *)
Definition last_set (k : string) (fs : list jsval) : jsval :=
  foldl (λ acc f, match set_by_filter f with
                  | Some (queryField, v) => if decide (k = queryField) then v else acc
                  | None => acc
                  end) JUndef fs.

Lemma extractExtras_granularity fd fs ex :
  js_or (ofield "extra_filters" fd) (JArr []) = JArr fs →
  extractExtras fd = Ok ex →
  ofield "granularity" ex =
  js_or (js_or (last_set "granularity_sqla" fs) (ofield "granularity" fd))
    (ofield "granularity_sqla" fd).
Proof.
  intros Hfs H. unfold extractExtras in H. rewrite Hfs in H. cbn [for_each_items] in H.
  rewrite bind_Ok in H. apply bind_Ok_inv in H as (st & Hst & H). injection H as <-.
  rewrite !ofield_oset, !ofield_adel, !ofield_oset. simpl.
  by rewrite (extractExtras_fold_extract "granularity_sqla" _ _ _ Hst).
Qed.

(** The granularity of a query follows the extra filters on the time
    column only: an extra filter on [__granularity] is recorded as applied but
    has no effect on the granularity that is extracted, whatever its value. *)
Theorem extractExtras_granularity_filter_ignored fd fs v ex ex' :
  extractExtras (oset "extra_filters" (JArr fs) fd) = Ok ex →
  extractExtras (oset "extra_filters"
    (JArr (fs ++ [JObj [("col", JStr "__granularity"); ("op", JStr "=="); ("val", v)]])) fd)
    = Ok ex' →
  ofield "granularity" ex' = ofield "granularity" ex ∧
  opt_field "__granularity" (ofield "applied_time_extras" ex') = v.
Proof.
  intros H H'.
  assert (Hx : ∀ xs, js_or (ofield "extra_filters" (oset "extra_filters" (JArr xs) fd))
                       (JArr []) = JArr xs) by (intros; by rewrite ofield_oset).
  split.
  - rewrite (extractExtras_granularity _ _ _ (Hx _) H).
    rewrite (extractExtras_granularity _ _ _ (Hx _) H').
    rewrite !ofield_oset. simpl. unfold last_set. by rewrite foldl_app.
  - unfold extractExtras in H'. rewrite Hx in H'. cbn [for_each_items] in H'. rewrite bind_Ok in H'.
    apply bind_Ok_inv in H' as (st & Hst & H'). injection H' as <-.
    rewrite !ofield_oset. cbn [decide]. simpl.
    apply fold_result_app_inv in Hst as (st1 & _ & Hst). injection Hst as <-.
    simpl. by rewrite ofield_oset, decide_True.
Qed.

Lemma extractExtras_granularity_filter_witness :
  let extra v := JObj [("col", JStr "__granularity"); ("op", JStr "=="); ("val", v)] in
  match extractExtras (oset "extra_filters" (JArr []) [("granularity_sqla", JStr "ds")]),
        extractExtras (oset "extra_filters" (JArr ([] ++ [extra (JStr "hour")]))
                         [("granularity_sqla", JStr "ds")]) with
  | Ok ex, Ok ex' =>
      ofield "granularity" ex' = ofield "granularity" ex ∧
      opt_field "__granularity" (ofield "applied_time_extras" ex') = JStr "hour"
  | _, _ => False
  end.
Proof.
  intros extra.
  destruct (extractExtras (oset "extra_filters" (JArr []) _)) as [ex|e] eqn:E;
    [|vm_compute in E; discriminate E].
  destruct (extractExtras (oset "extra_filters" (JArr ([] ++ _)) _)) as [ex'|e] eqn:E';
    [|vm_compute in E'; discriminate E'].
  exact (extractExtras_granularity_filter_ignored _ _ _ ex ex' E E').
Defined.

(** ** Order by *)

Section orderby.
Context `{Lodash}.

Definition orderby_keys : list string :=
  ["series_limit_metric"; "legacy_order_by"; "order_desc"; "orderby"].

Definition stripped (q : jsobj) : jsobj :=
  adel "orderby" (adel "order_desc" (adel "legacy_order_by" (adel "series_limit_metric" q))).

(** The column or metric that orders a query without a usable clause. *)
Definition orderby_candidate (q : jsobj) : option jsval :=
  let usable v := negb (is_undefined v) && negb (strict_eq v JNull) && negb (isEmpty v) in
  if usable (ofield "series_limit_metric" q) then Some (ofield "series_limit_metric" q)
  else if usable (ofield "legacy_order_by" q) then Some (ofield "legacy_order_by" q)
  else match ofield "metrics" q with JArr (metric :: _) => Some metric | _ => None end.

Lemma normalizeOrderBy_cases q :
  normalizeOrderBy q =
  if valid_orderby (ofield "orderby" q) then q
  else match orderby_candidate q with
       | Some c =>
           oset "orderby" (JArr [JArr [c; JBool (negb (truthy (ofield "order_desc" q)))]])
             (stripped q)
       | None => stripped q
       end.
Proof.
  unfold normalizeOrderBy, orderby_candidate, stripped.
  destruct (valid_orderby _); [done|]. case_match; [done|]. case_match; [done|].
  destruct (ofield "metrics" q) as [| | | | |[|]|]; done.
Qed.

Lemma aget_stripped k q :
  aget k (stripped q) = if decide (k ∈ orderby_keys) then None else aget k q.
Proof.
  unfold stripped, orderby_keys. rewrite !aget_adel.
  destruct (decide (k ∈ _)) as [Hk|Hk].
  - repeat (apply elem_of_cons in Hk as [->|Hk]; [by repeat case_decide|]).
    by apply elem_of_nil in Hk.
  - by rewrite !decide_False by (intros ->; apply Hk; set_solver).
Qed.

Lemma stripped_stripped q : stripped (stripped q) = stripped q.
Proof.
  assert (Hn : ∀ k, k ∈ orderby_keys → adel k (stripped q) = stripped q).
  { intros k Hk. apply adel_fresh, aget_None. rewrite aget_stripped. by rewrite decide_True. }
  unfold stripped at 1. by rewrite !Hn by (unfold orderby_keys; set_solver).
Qed.

Lemma orderby_candidate_stripped q :
  orderby_candidate (stripped q) =
  match ofield "metrics" q with JArr (metric :: _) => Some metric | _ => None end.
Proof.
  unfold orderby_candidate, ofield. rewrite !aget_stripped. simpl. done.
Qed.

(** When the first metric is not empty, the order-by of a normalised query
    starts with a non-empty column or metric and a direction, or is left out
    altogether; no other part of the query changes but the legacy fields it
    replaces, and normalising again changes nothing. *)
Theorem normalizeOrderBy_sound q :
  (∀ m ms, ofield "metrics" q = JArr (m :: ms) → isEmpty m = false) →
  let q' := normalizeOrderBy q in
  (valid_orderby (ofield "orderby" q') = true ∨
   (ahas "orderby" q' = false ∧ orderby_candidate q = None)) ∧
  normalizeOrderBy q' = q' ∧
  (∀ k, k ∉ orderby_keys → aget k q' = aget k q).
Proof.
  intros Hm q'. subst q'.
  destruct (valid_orderby (ofield "orderby" q)) eqn:Hv.
  { assert (normalizeOrderBy q = q) as Hq by (rewrite normalizeOrderBy_cases; by rewrite Hv).
    rewrite !Hq. split; [by left|done]. }
  assert (Hq : normalizeOrderBy q = match orderby_candidate q with
       | Some c =>
           oset "orderby" (JArr [JArr [c; JBool (negb (truthy (ofield "order_desc" q)))]])
             (stripped q)
       | None => stripped q
       end) by (rewrite normalizeOrderBy_cases; by rewrite Hv).
  rewrite !Hq. destruct (orderby_candidate q) as [c|] eqn:Hc.
  - assert (Hce : isEmpty c = false).
    { unfold orderby_candidate in Hc.
      repeat (case_match; simplify_eq/=;
        [by match goal with X : _ && negb _ = true |- _ =>
              apply andb_true_iff in X as [_ ?%negb_true_iff] end|]).
      destruct (ofield "metrics" q) as [| | | | |[|m ms]|]; simplify_eq/=. by eapply Hm. }
    assert (Hvalid : valid_orderby (ofield "orderby"
      (oset "orderby" (JArr [JArr [c; JBool (negb (truthy (ofield "order_desc" q)))]])
         (stripped q))) = true).
    { rewrite ofield_oset, decide_True by done. simpl. by rewrite Hce. }
    split; [by left|]. split; [rewrite normalizeOrderBy_cases; by rewrite Hvalid|].
    intros k Hk. rewrite aget_oset, decide_False by (intros ->; apply Hk; unfold orderby_keys; set_solver).
    rewrite aget_stripped. by rewrite decide_False.
  - assert (Hnone : aget "orderby" (stripped q) = None).
    { rewrite aget_stripped. by rewrite decide_True by (unfold orderby_keys; set_solver). }
    split; [right; split; [|done]; unfold ahas; by rewrite Hnone|]. split.
    + rewrite normalizeOrderBy_cases. unfold ofield at 1. rewrite Hnone. simpl.
      rewrite orderby_candidate_stripped, stripped_stripped.
      unfold orderby_candidate in Hc. repeat (case_match; simplify_eq/=); done.
    + intros k Hk. rewrite aget_stripped. by rewrite decide_False.
Qed.
End orderby.

Lemma normalizeOrderBy_sound_witness :
  let q := [("metrics", JArr [JStr "count"]); ("orderby", JArr []); ("order_desc", JBool true)] in
  ofield "orderby" (normalizeOrderBy q) = JArr [JArr [JStr "count"; JBool false]] ∧
  normalizeOrderBy (normalizeOrderBy q) = normalizeOrderBy q.
Proof.
  intros q. split; [reflexivity|].
  apply (normalizeOrderBy_sound q). intros m ms [= <- <-]. reflexivity.
Defined.

(** ** The temporal axis *)

Section time_column.
Context `{Lodash}.

Lemma find_index_Some {A} (p : A → bool) xs i :
  find_index p xs = Some i → ∃ x, xs !! i = Some x ∧ p x = true.
Proof.
  revert i. induction xs as [|x xs IH]; intros i Hi; simpl in Hi; [done|].
  destruct (p x) eqn:E; [injection Hi as <-; by exists x|].
  apply fmap_Some in Hi as (j & Hj & ->). by apply IH.
Qed.

(** The column that replaces the x axis keeps its label. *)
Lemma base_axis_column_label extras x_axis col :
  (∀ o, col = JObj o → NoDup (akeys o)) →
  truthy x_axis = true → is_axis_column x_axis col = true →
  getColumnLabel (base_axis_column extras x_axis col) = getColumnLabel col.
Proof.
  intros Hwf Ht Hax. unfold is_axis_column in Hax. apply orb_true_iff in Hax as [Hax|Hax].
  - destruct col; try done. destruct x_axis; try done.
    unfold base_axis_column, getColumnLabel. simpl in *.
    apply bool_decide_eq_true in Hax. subst. unfold ofield. simpl. by rewrite Ht.
  - apply andb_true_iff in Hax as [[Hc _]%andb_true_iff _].
    unfold base_axis_column. rewrite Hc. destruct col as [| | | | | |o]; try done.
    unfold getColumnLabel. simpl.
    pose proof (Hwf o eq_refl) as Hnd.
    rewrite !ofield_ospread by done. unfold isAdhocColumn in Hc. simpl in Hc.
    assert (∀ k, negb (is_undefined (ofield k o)) = true → k ∈ akeys o) as Hin.
    { intros k Hk. apply aget_is_Some. unfold ofield in Hk.
      destruct (aget k o); [by eexists|done]. }
    apply andb_true_iff in Hc as [[Hs Hl]%andb_true_iff _].
    by rewrite !decide_True by (by apply Hin).
Qed.

Lemma base_axis_column_marks extras x_axis col :
  isAdhocColumn col = false → is_axis_column x_axis col = true →
  opt_field "columnType" (base_axis_column extras x_axis col) = JStr "BASE_AXIS" ∧
  opt_field "isColumnReference" (base_axis_column extras x_axis col) = JBool true ∧
  opt_field "sqlExpression" (base_axis_column extras x_axis col) = col ∧
  opt_field "timeGrain" (base_axis_column extras x_axis col) =
    opt_field "time_grain_sqla" extras.
Proof.
  intros Ha Hax. unfold base_axis_column. rewrite Ha. simpl. unfold ofield. simpl.
  repeat split; try done. unfold is_axis_column in Hax. rewrite Ha in Hax. simpl in Hax.
  rewrite orb_false_r in Hax. destruct col; try done. destruct x_axis; try done.
  simpl in Hax. by apply bool_decide_eq_true in Hax as ->.
Qed.

(** Normalising the time column rewrites exactly one column, the first one
    that is the x axis: a physical column becomes a reference marked
    [BASE_AXIS] that carries the time grain; every column keeps its label and
    its place, the [is_timeseries] flag is dropped and nothing else changes. *)
Theorem normalizeTimeColumn_axis fd q columns i col :
  isXAxisSet fd = true →
  truthy (ofield "x_axis" fd) = true →
  ofield "columns" q = JArr columns →
  (∀ o, JObj o ∈ columns → NoDup (akeys o)) →
  find_index (is_axis_column (ofield "x_axis" fd)) columns = Some i →
  columns !! i = Some col →
  let q' := normalizeTimeColumn fd q in
  ∃ columns' col',
    ofield "columns" q' = JArr columns' ∧
    (∀ j, columns' !! j = if decide (j = i) then Some col' else columns !! j) ∧
    getColumnLabel <$> columns' = getColumnLabel <$> columns ∧
    (isAdhocColumn col = false →
       opt_field "columnType" col' = JStr "BASE_AXIS" ∧
       opt_field "isColumnReference" col' = JBool true ∧
       opt_field "sqlExpression" col' = col ∧
       opt_field "timeGrain" col' = opt_field "time_grain_sqla" (ofield "extras" q)) ∧
    (∀ k, k ≠ "columns" → aget k q' = if decide (k = "is_timeseries") then None else aget k q).
Proof.
  intros Hset Ht Hc Hwf Hi Hcol q'.
  destruct (find_index_Some _ _ _ Hi) as (c & Hc' & Hax). rewrite Hcol in Hc'.
  injection Hc' as <-. set (x := ofield "x_axis" fd) in *.
  set (col' := base_axis_column (ofield "extras" q) x col).
  assert (Hq : q' = oset "columns"
    (JArr (alter (base_axis_column (ofield "extras" q) x) i columns)) (omit q ["is_timeseries"])).
  { unfold q', normalizeTimeColumn. fold x. rewrite Hset. cbn [negb]. rewrite Hc, Hi, Ht. done. }
  assert (Hj : ∀ j, alter (base_axis_column (ofield "extras" q) x) i columns !! j =
                    if decide (j = i) then Some col' else columns !! j).
  { intros j. destruct (decide (j = i)) as [->|Hne].
    - rewrite list_lookup_alter_eq, Hcol. done.
    - by rewrite list_lookup_alter_ne by done. }
  eexists _, col'. rewrite Hq. split; [rewrite ofield_oset; by rewrite decide_True|].
  split; [done|]. split; [|split].
  - apply list_eq. intros j. rewrite !list_lookup_fmap, Hj.
    case_decide; [subst j; rewrite Hcol; simpl; f_equal|done].
    apply base_axis_column_label; [|done|done].
    intros o ->. apply Hwf. by eapply list_elem_of_lookup_2.
  - intros Ha. by apply base_axis_column_marks.
  - intros k Hk. rewrite aget_oset, decide_False by done. rewrite omit_aget.
    apply decide_ext. set_solver.
Qed.
End time_column.

Lemma normalizeTimeColumn_axis_witness :
  let fd := [("x_axis", JStr "ds")] in
  let q := [("columns", JArr [JStr "a"; JStr "ds"]); ("is_timeseries", JBool true)] in
  getColumnLabel <$> array_items (ofield "columns" (normalizeTimeColumn fd q)) =
    [JStr "a"; JStr "ds"].
Proof.
  intros fd q.
  destruct (normalizeTimeColumn_axis fd q [JStr "a"; JStr "ds"] 1 (JStr "ds") eq_refl eq_refl
    eq_refl) as (columns' & col' & Hc & _ & Hl & _).
  - intros o Ho. repeat (apply elem_of_cons in Ho as [Ho|Ho]; [discriminate Ho|]).
    by apply elem_of_nil in Ho.
  - reflexivity.
  - reflexivity.
  - rewrite Hc. exact Hl.
Defined.

(** ** The query context *)

Section context.
Context `{Lodash}.

Definition rules_truthy (q : jsobj) : Prop :=
  ∀ rules, ofield "post_processing" q = JArr rules → ∀ r, r ∈ rules → truthy r = true.

Lemma clean_post_processing_truthy q : rules_truthy (clean_post_processing q).
Proof.
  intros rules Hr r Hin. unfold clean_post_processing in Hr.
  destruct (ofield "post_processing" q) as [| | | | |rs|] eqn:E; try congruence.
  rewrite ofield_oset in Hr. simpl in Hr. injection Hr as <-.
  by apply list_elem_of_filter in Hin as [? _].
Qed.

Lemma normalizeTimeColumn_other fd q k :
  k ≠ "columns" → k ≠ "is_timeseries" → ofield k (normalizeTimeColumn fd q) = ofield k q.
Proof.
  intros Hk Hk'. unfold normalizeTimeColumn.
  destruct (negb _); [done|]. destruct (ofield "columns" q) as [| | | | |columns|]; try done.
  destruct (find_index _ _); [|done]. destruct (truthy _); [|done].
  rewrite ofield_oset, decide_False by done. unfold ofield. rewrite omit_aget.
  rewrite decide_False by set_solver. done.
Qed.

(** The mark of a time series is kept or taken away. *)
Lemma normalizeTimeColumn_series fd q :
  ofield "is_timeseries" (normalizeTimeColumn fd q) ∈ [ofield "is_timeseries" q; JUndef].
Proof.
  unfold normalizeTimeColumn. destruct (negb _); [left|]. destruct (ofield "columns" q); try left.
  destruct (find_index _ _); [|left]. destruct (truthy _); [|left].
  rewrite ofield_oset, decide_False by done. unfold ofield at 1. rewrite omit_aget.
  rewrite decide_True by set_solver. right. left.
Qed.

(** The query context holds one query per object the chart's builder
    returned for the base query object, in order; no query contains an empty
    post-processing rule; the form data is passed on unchanged, with defaults
    for the result format and type. *)
Theorem buildQueryContext_queries fd options ctx :
  buildQueryContext fd options = Ok ctx →
  ∃ base built queries,
    buildQueryObject fd (options_queryFields options) = Ok base ∧
    options_buildQuery options base = Ok built ∧
    ofield "queries" ctx = JArr (JObj <$> queries) ∧
    length queries = length built ∧
    (∀ q, q ∈ queries → rules_truthy q) ∧
    (∀ i q0 q, built !! i = Some q0 → queries !! i = Some q →
       ofield "is_timeseries" q ∈ [ofield "is_timeseries" q0; JUndef] ∧
       ∀ k, isXAxisSet fd = false ∨ k ≠ "columns" ∧ k ≠ "is_timeseries" → k ≠ "post_processing" →
            ofield k q = ofield k q0) ∧
    ofield "form_data" ctx = JObj fd ∧
    truthy (ofield "result_format" ctx) = true ∧ truthy (ofield "result_type" ctx) = true.
Proof.
  intros Hctx. unfold buildQueryContext in Hctx.
  apply bind_Ok_inv in Hctx as (base & Hbase & Hctx).
  apply bind_Ok_inv in Hctx as (qs & Hbuilt & Hctx). cbv zeta in Hctx.
  set (norm := λ q, if isXAxisSet fd then normalizeTimeColumn fd q else q).
  assert (Hqs : (if isXAxisSet fd then normalizeTimeColumn fd <$> (clean_post_processing <$> qs)
                 else clean_post_processing <$> qs) = (λ q, norm (clean_post_processing q)) <$> qs).
  { subst norm. cbv beta. destruct (isXAxisSet fd); [by rewrite <- list_fmap_compose|done]. }
  rewrite Hqs in Hctx. apply bind_Ok_inv in Hctx as (key & _ & Hctx). injection Hctx as <-.
  exists base, qs, ((λ q, norm (clean_post_processing q)) <$> qs).
  assert (Hnorm : ∀ q k, isXAxisSet fd = false ∨ k ≠ "columns" ∧ k ≠ "is_timeseries" →
                         ofield k (norm q) = ofield k q).
  { intros q k Hk. subst norm. cbv beta. destruct (isXAxisSet fd); [|done].
    destruct Hk as [?|[??]]; [done|]. by apply normalizeTimeColumn_other. }
  assert (Hclean : ∀ q k, k ≠ "post_processing" → ofield k (clean_post_processing q) = ofield k q).
  { intros q k ?. unfold clean_post_processing. destruct (ofield "post_processing" q); try done.
    by rewrite ofield_oset, decide_False. }
  split; [done|]. split; [done|]. split; [done|]. split; [by rewrite length_fmap|].
  split; [|split; [|split; [done|]]].
  - intros q (q0 & -> & _)%list_elem_of_fmap rules Hr.
    rewrite Hnorm in Hr by by right. by apply clean_post_processing_truthy in Hr.
  - intros i q0 q Hi Hq. rewrite list_lookup_fmap, Hi in Hq. injection Hq as <-. split.
    + rewrite <- (Hclean q0) by done. subst norm. cbv beta.
      destruct (isXAxisSet fd); [apply normalizeTimeColumn_series|left].
    + intros k Hk ?. by rewrite Hnorm, Hclean.
  - split; by apply truthy_js_or_default.
Qed.
End context.

Lemma buildQueryContext_queries_witness :
  let options := BuildFunction (λ q,
    Ok [oset "post_processing" (JArr [JUndef; JObj []]) q]) in
  match buildQueryContext [("datasource", JStr "5__table"); ("metrics", JArr [JStr "n"])] options with
  | Ok ctx => ∃ queries, ofield "queries" ctx = JArr (JObj <$> queries) ∧
                         (∀ q, q ∈ queries → rules_truthy q)
  | Throw _ => False
  end.
Proof.
  intros options.
  destruct (buildQueryContext _ options) as [ctx|e] eqn:E; [|vm_compute in E; discriminate E].
  destruct (buildQueryContext_queries _ _ ctx E) as (base & built & qs & _ & _ & Hq & _ & Hr & _).
  exists qs. split; [exact Hq|exact Hr].
Defined.

(** ** Datasource keys *)

Definition is_underscore (c : Ascii.ascii) : bool := bool_decide (c = "_"%char).

Lemma split_go_prefix fuel s t cur :
  all_chars (λ c, negb (is_underscore c)) s = true →
  split_go (String.length s + fuel) "__" (s +:+ t) cur =
  split_go fuel "__" t (string_rev_app s cur).
Proof.
  revert cur. induction s as [|c s IH]; intros cur Hs; [done|].
  cbn [all_chars] in Hs. apply andb_true_iff in Hs as [Hc Hs].
  cbn [String.length Nat.add split_go].
  assert (strip_prefix "__" (String c s +:+ t) = None) as ->.
  { change (strip_prefix "__" (String c s +:+ t)) with
      (if decide ("_"%char = c) then strip_prefix "_" (s +:+ t) else None).
    unfold is_underscore in Hc.
    apply negb_true_iff, bool_decide_eq_false in Hc.
    by rewrite decide_False by congruence. }
  by apply IH.
Qed.

Lemma strip_prefix_length p s r :
  strip_prefix p s = Some r → String.length s = String.length p + String.length r.
Proof.
  revert s. induction p as [|a p IH]; intros s H; simpl in H; [by injection H as ->|].
  destruct s as [|b s]; [done|]. case_decide; [|done]. simpl. by rewrite (IH s).
Qed.

Lemma split_go_fuel f1 f2 s cur :
  String.length s < f1 → String.length s < f2 →
  split_go f1 "__" s cur = split_go f2 "__" s cur.
Proof.
  revert f2 s cur. induction f1 as [|f1 IH]; intros [|f2] s cur H1 H2; try lia.
  cbn [split_go]. destruct (strip_prefix "__" s) as [r|] eqn:E.
  - apply strip_prefix_length in E. simpl in E. f_equal. apply IH; lia.
  - destruct s as [|c s]; [done|]. simpl in H1, H2. apply IH; lia.
Qed.

Lemma split_go_sep f t cur :
  split_go (S f) "__" ("__" +:+ t) cur =
  string_rev_app cur EmptyString :: split_go f "__" t EmptyString.
Proof. done. Qed.

Lemma split_head s t :
  all_chars (λ c, negb (is_underscore c)) s = true →
  split "__" (s +:+ "__" +:+ t) = s :: split "__" t.
Proof.
  intros Hs. unfold split.
  replace (S (String.length (s +:+ "__" +:+ t)))
    with (String.length s + S (S (S (String.length t)))) by
    (rewrite !string_length_app; simpl; lia).
  rewrite split_go_prefix by done. rewrite split_go_sep, string_rev_app_involutive. f_equal.
  - simpl. apply string_app_nil_r.
  - apply split_go_fuel; lia.
Qed.

(** A datasource key, the decimal identifier and the type joined by two
    underscores, is read back: the identifier as the number it denotes, the
    type as a query when it says so and as a table in every other case. *)
Theorem new_DatasourceKey_reads n t :
  new_DatasourceKey (string_of_N n +:+ "__" +:+ DatasourceType_value t) =
  {| dk_id := num_of_Z (Z.of_N n);
     dk_type := match t with QueryType => QueryType | _ => Table end |}.
Proof.
  assert (Hd : all_chars (λ c, negb (is_underscore c)) (string_of_N n) = true).
  { eapply all_chars_impl, string_of_N_digits. intros c Hc%is_digit_bounds.
    apply negb_true_iff, bool_decide_eq_false. intros ->. vm_compute in Hc. naive_solver. }
  unfold new_DatasourceKey. rewrite split_head by done. simpl (_ !! 0). simpl default.
  assert (Hp : parseInt (string_of_N n) = num_of_Z (Z.of_N n)).
  { pose proof (parseInt_string_of_N n EmptyString I) as Hp.
    rewrite decimal_to_num_integer in Hp. by rewrite string_app_nil_r in Hp. }
  rewrite Hp. by destruct t; vm_compute (split _ _).
Qed.
