(* ===== verification/ExtraFormData.v ===== *)
(** * Merging the extra form data of dashboard filters

    [app/dashboard/components/nativeFilters/utils.ts]: every filter of a
    dashboard contributes extra form data; the contributions that apply to a
    chart (or to a layer of a chart) are merged into one.  A data mask state is
    an object from filter ids to data masks, both JavaScript objects. *)

From Stdlib Require Import Ascii String.
From stdpp Require Import base strings option numbers list sets.
From S2P Require Import Prelude JsObject JsNumber JsValue QueryTypes Query.

(** ** Merging *)

(** @source app/utils/types.ts 24-25 isIterable *)
Definition isIterable (obj : jsval) : bool :=
  match obj with JArr _ | JStr _ => true | _ => false end.

(** [...(isIterable(v) ? v : [])]: a string is spread into its characters. *)
Definition iterable_items (v : jsval) : list jsval :=
  if isIterable v then
    match v with
    | JArr xs => xs
    | JStr s => (λ c, JStr (String c EmptyString)) <$> String.list_ascii_of_string s
    | _ => []
    end
  else [].

(** @source app/dashboard/components/nativeFilters/utils.ts 109-119 mergeExtraFormData (append keys) *)
Definition merge_append_key (originalExtra newExtra mergedExtra : jsobj) (key : string) : jsobj :=
  let mergedValues :=
    iterable_items (ofield key originalExtra) ++ iterable_items (ofield key newExtra) in
  if bool_decide (length mergedValues ≠ 0) then oset key (JArr mergedValues) mergedExtra
  else mergedExtra.

(** @source app/dashboard/components/nativeFilters/utils.ts 120-131 mergeExtraFormData (override keys) *)
Definition merge_override_key (originalExtra newExtra mergedExtra : jsobj) (key : string) : jsobj :=
  let originalValue := ofield key originalExtra in
  let mergedExtra :=
    if is_undefined originalValue then mergedExtra else oset key originalValue mergedExtra in
  let newValue := ofield key newExtra in
  if is_undefined newValue then mergedExtra else oset key newValue mergedExtra.

(** @source app/dashboard/components/nativeFilters/utils.ts 104-133 mergeExtraFormData *)
Definition mergeExtraFormData (originalExtra newExtra : jsobj) : jsobj :=
  let mergedExtra :=
    foldl (merge_append_key originalExtra newExtra) [] EXTRA_FORM_DATA_APPEND_KEYS in
  foldl (merge_override_key originalExtra newExtra) mergedExtra EXTRA_FORM_DATA_OVERRIDE_KEYS.

(** [dataMask[key]?.extraFormData] *)
Definition mask_extra (dataMask : jsobj) (key : string) : jsval :=
  opt_field "extraFormData" (ofield key dataMask).

(** @source app/dashboard/components/nativeFilters/utils.ts 142-154 getExtraFormData *)
Definition getExtraFormData (dataMask : jsobj) (filterIdsAppliedOnChart : list string) : jsobj :=
  foldl (λ extraFormData key,
    mergeExtraFormData extraFormData
      (object_entries (js_nullish (mask_extra dataMask key) (JObj []))))
    [] filterIdsAppliedOnChart.

(** @source app/dashboard/components/nativeFilters/utils.ts 255-272 aggregateFiltersForTarget *)
Definition aggregateFiltersForTarget (dataMask : jsobj) (filterIds : list string) : jsobj :=
  foldl (λ aggregatedFormData filterId,
    if truthy (mask_extra dataMask filterId) then
      mergeExtraFormData aggregatedFormData (object_entries (mask_extra dataMask filterId))
    else aggregatedFormData)
    [] filterIds.

(** @source app/dashboard/components/nativeFilters/utils.ts 327-357 getLayerSpecificExtraFormData *)
Definition getLayerSpecificExtraFormData (dataMask : jsobj) (filterIds : list string)
    (chartId : Z) (layerId : option string) : jsobj :=
  let extraFormData :=
    foldl (λ extraFormData filterId,
      if truthy (mask_extra dataMask filterId) then
        mergeExtraFormData extraFormData (object_entries (mask_extra dataMask filterId))
      else extraFormData)
      [] filterIds in
  match layerId with
  | None | Some EmptyString => extraFormData
  | Some layerId =>
      let layerKey := string_of_Z chartId +:+ "-" +:+ layerId in
      if truthy (mask_extra dataMask layerKey) then
        mergeExtraFormData extraFormData (object_entries (mask_extra dataMask layerKey))
      else extraFormData
  end.

(** ** Scope keys *)

(** @source app/dashboard/components/nativeFilters/utils.ts 196-200 FilterTarget *)
Inductive FilterTarget :=
| LAYER (chartId layerId : string)
| CHART (chartId : string).

(** @source app/dashboard/components/nativeFilters/utils.ts 202-205 FilterScope *)
Record FilterScope := {
  fs_filterId : string;
  fs_targets : list FilterTarget;
}.

(** The longest prefix of decimal digits, as text, with the rest. *)
Fixpoint take_digits (s : string) : string * string :=
  match s with
  | String c s' =>
      if is_digit c then
        let '(ds, rest) := take_digits s' in (String c ds, rest)
      else (EmptyString, s)
  | EmptyString => (EmptyString, EmptyString)
  end.

(** @source app/dashboard/components/nativeFilters/utils.ts 207-208 LAYER_KEY_REGEX *)
Definition match_layer_key (s : string) : option (string * string) :=
  rest ← strip_prefix "chart-" s;
  let '(chartId, rest) := take_digits rest in
  rest ← strip_prefix "-layer-" rest;
  let '(layerId, rest) := take_digits rest in
  if bool_decide (chartId ≠ EmptyString ∧ layerId ≠ EmptyString ∧ rest = EmptyString)
  then Some (chartId, layerId) else None.

(** @source app/dashboard/components/nativeFilters/utils.ts 209-210 CHART_KEY_REGEX *)
Definition match_chart_key (s : string) : option string :=
  rest ← strip_prefix "chart-" s;
  let '(chartId, rest) := take_digits rest in
  if bool_decide (chartId ≠ EmptyString ∧ rest = EmptyString) then Some chartId else None.

(** @source app/dashboard/components/nativeFilters/utils.ts 212-231 parseFilterTarget *)
Definition parseFilterTarget (scopeKey : string) : option FilterTarget :=
  match match_layer_key scopeKey with
  | Some (chartId, layerId) => Some (LAYER chartId layerId)
  | None =>
      match match_chart_key scopeKey with
      | Some chartId => Some (CHART chartId)
      | None => None
      end
  end.

(** Invalid keys are reported on the console and skipped.

    @source app/dashboard/components/nativeFilters/utils.ts 233-253 getFilterScope *)
Definition getFilterScope (filterId : string) (filterScopes : list (string * list string))
    : FilterScope :=
  let scopeKeys := default [] (aget filterId filterScopes) in
  {| fs_filterId := filterId; fs_targets := omap parseFilterTarget scopeKeys |}.

(** @source app/dashboard/components/nativeFilters/utils.ts 274-279 createTargetKey *)
Definition createTargetKey (target : FilterTarget) : string :=
  match target with
  | LAYER chartId layerId => chartId +:+ "-" +:+ layerId
  | CHART chartId => chartId
  end.

(** The two maps that [groupFiltersByTarget] fills. *)
Record target_filters := {
  tf_chart : list (string * jsobj);
  tf_layer : list (string * jsobj);
}.

(** @source app/dashboard/components/nativeFilters/utils.ts 294-305 groupFiltersByTarget (one target) *)
Definition group_target (dataMask : jsobj) (filterId : string) (acc : target_filters)
    (target : FilterTarget) : target_filters :=
  let filterData := object_entries (js_or (mask_extra dataMask filterId) (JObj [])) in
  let targetKey := createTargetKey target in
  match target with
  | CHART _ =>
      let existing := default [] (aget targetKey (tf_chart acc)) in
      {| tf_chart := aset targetKey (mergeExtraFormData existing filterData) (tf_chart acc);
         tf_layer := tf_layer acc |}
  | LAYER _ _ =>
      let existing := default [] (aget targetKey (tf_layer acc)) in
      {| tf_chart := tf_chart acc;
         tf_layer := aset targetKey (mergeExtraFormData existing filterData) (tf_layer acc) |}
  end.

(** @source app/dashboard/components/nativeFilters/utils.ts 281-309 groupFiltersByTarget *)
Definition groupFiltersByTarget (dataMask : jsobj) (filterScopes : list (string * list string))
    : target_filters :=
  foldl (λ acc filterId,
    foldl (group_target dataMask filterId) acc (fs_targets (getFilterScope filterId filterScopes)))
    {| tf_chart := []; tf_layer := [] |} (akeys dataMask).

(** [filter.chartsInScope.map(chartId => `chart-${chartId}`)] *)
Definition chart_scope_keys (chartsInScope : list jsval) : list string :=
  (λ chartId, "chart-" +:+ to_string chartId) <$> chartsInScope.

(** @source app/dashboard/components/nativeFilters/utils.ts 311-325 buildFilterScopesFromFilters *)
Definition buildFilterScopesFromFilters (filters : jsobj) : list (string * list string) :=
  foldl (λ filterScopes filter,
    let chartsInScope := opt_field "chartsInScope" filter in
    if truthy chartsInScope then
      oset (to_string (opt_field "id" filter)) (chart_scope_keys (array_items chartsInScope))
        filterScopes
    else filterScopes) [] (avalues filters).

(** ** Queries of the filters themselves *)

(** The reserved parameters of the page's address.

    @source app/dashboard/util/extractUrlParams.ts 21-21 reservedQueryParams *)
Definition reservedQueryParams : list string := ["standalone"; "edit"].

(** @source app/dashboard/util/extractUrlParams.ts 23-23 UrlParamType *)
Inductive UrlParamType := reserved | regular | all_params.

(** The entries of the page's address are an argument; their values are
    strings, so the branch for an array value is never taken.

    @source app/dashboard/util/extractUrlParams.ts 25-48 extractUrlParams *)
Definition extractUrlParams (queryParams : list (string * string)) (urlParamType : UrlParamType)
    : jsobj :=
  foldl (λ acc kv,
    let has := bool_decide (kv.1 ∈ reservedQueryParams) in
    match urlParamType with
    | regular => if has then acc else oset kv.1 (JStr kv.2) acc
    | reserved => if negb has then acc else oset kv.1 (JStr kv.2) acc
    | all_params => oset kv.1 (JStr kv.2) acc
    end) [] queryParams.

(** The configured limit is read from the page's bootstrap data.

    @source app/dashboard/components/nativeFilters/utils.ts 40-45 getDefaultRowLimit *)
Definition getDefaultRowLimit (nativeFilterDefaultRowLimit : jsval) : jsval :=
  js_or nativeFilterDefaultRowLimit (JNum (num_of_Z 1000)).

(** [conf] is the configured row limit and [params] the address entries.

    @source app/dashboard/components/nativeFilters/utils.ts 47-102 getFormData *)
Definition getFormData (conf : jsval) (params : list (string * string)) (props : jsobj) : jsobj :=
  let get k := ofield k props in
  let otherProps := [] in
  let otherProps :=
    if truthy (get "datasetId")
    then oset "datasource" (JStr (to_string (get "datasetId") +:+ "__table")) otherProps
    else otherProps in
  let otherProps :=
    if truthy (get "groupby") then oset "groupby" (JArr [get "groupby"]) otherProps
    else otherProps in
  let otherProps :=
    if truthy (get "sortMetric") then oset "sortMetric" (get "sortMetric") otherProps
    else otherProps in
  ospread (ospread (ospread [] (object_entries (get "controlValues"))) otherProps)
    [("adhoc_filters", js_nullish (get "adhoc_filters") (JArr []));
     ("extra_filters", JArr []);
     ("extra_form_data", with_default (get "dependencies") (JObj []));
     ("granularity_sqla", get "granularity_sqla");
     ("metrics", JArr [JStr "count"]);
     ("row_limit", getDefaultRowLimit conf);
     ("showSearch", JBool true);
     ("defaultValue", opt_field "value" (opt_field "filterState" (get "defaultDataMask")));
     ("time_range", get "time_range");
     ("url_params", JObj (extractUrlParams params regular));
     ("inView", JBool true);
     ("viz_type", get "filterType");
     ("type", get "type");
     ("dashboardId", get "dashboardId");
     ("native_filter_id", get "id")].
