(* ===== verification/ExtraFormDataFacts.v ===== *)
(** * Laws of extra form data

    Merging is a monoid operation on the extra form data it produces, so the
    three aggregation routines agree and can be split at any point; scope keys
    are read back exactly; and grouping by target computes, for each chart, the
    aggregate of the filters whose scope holds the chart. *)

From Stdlib Require Import Ascii String.
From stdpp Require Import base strings option numbers list sets.
From S2P Require Import Prelude JsObject JsNumber JsValue QueryTypes Query ExtraFormData.

(** ** The normal form of a merge *)

(** Setting new, non-index keys one after the other appends them. *)
Lemma oset_append {V} k (v : V) (o : list (string * V)) :
  array_index k = None → k ∉ akeys o → oset k v o = o ++ [(k, v)].
Proof. intros Hi Hk. unfold oset. by rewrite (proj2 (aget_None k o) Hk), Hi. Qed.

Lemma oset_append_oset {V} k (v w : V) (o : list (string * V)) :
  array_index k = None → k ∉ akeys o → oset k w (oset k v o) = o ++ [(k, w)].
Proof.
  intros Hi Hk. rewrite (oset_append k v) by done. unfold oset.
  rewrite aget_app, (proj2 (aget_None k o) Hk). simpl. rewrite decide_True by done.
  revert Hk. clear. unfold akeys. induction o as [|[k0 v0] o IH]; simpl; intros Hk.
  - by rewrite decide_True.
  - apply not_elem_of_cons in Hk as [??]. rewrite decide_False by done. by rewrite IH.
Qed.

(** The entries a list of keys gives when each key has at most one value. *)
Definition entries_of (e : string → option jsval) (ks : list string) : jsobj :=
  omap (λ k, pair k <$> e k) ks.

Lemma entries_of_cons e k ks :
  entries_of e (k :: ks) =
  match e k with Some v => (k, v) :: entries_of e ks | None => entries_of e ks end.
Proof. unfold entries_of. simpl. by destruct (e k). Qed.

Lemma akeys_entries_of e ks k : k ∈ akeys (entries_of e ks) → k ∈ ks.
Proof.
  unfold akeys, entries_of. intros ([k0 v] & -> & (k1 & H1 & H2)%list_elem_of_omap)%list_elem_of_fmap.
  destruct (e k1); simplify_eq/=. done.
Qed.

Lemma aget_entries_of e ks k :
  aget k (entries_of e ks) = if decide (k ∈ ks) then e k else None.
Proof.
  induction ks as [|k0 ks IH]; [by rewrite decide_False by set_solver|].
  rewrite entries_of_cons. destruct (decide (k = k0)) as [->|Hne].
  - rewrite (decide_True (P := k0 ∈ k0 :: ks)) by set_solver.
    destruct (e k0) eqn:E; simpl; [by rewrite decide_True|]. rewrite IH. by case_decide.
  - destruct (e k0); simpl; [rewrite decide_False by done|];
      rewrite IH; apply decide_ext; set_solver.
Qed.

Section fold_keys.
Context (step : jsobj → string → jsobj) (e : string → option jsval).
Hypothesis step_entry : ∀ acc k,
  array_index k = None → k ∉ akeys acc →
  step acc k = match e k with Some v => acc ++ [(k, v)] | None => acc end.

Lemma fold_keys acc ks :
  NoDup ks → Forall (λ k, array_index k = None) ks → (∀ k, k ∈ ks → k ∉ akeys acc) →
  foldl step acc ks = acc ++ entries_of e ks.
Proof.
  revert acc. induction ks as [|k ks IH]; intros acc Hnd Hi Hf.
  { by rewrite app_nil_r. }
  cbn [foldl].
  apply NoDup_cons in Hnd as [Hk Hnd]. apply Forall_cons in Hi as [Hki Hi].
  rewrite step_entry by (done || (apply Hf; left)). rewrite entries_of_cons.
  destruct (e k) as [v|] eqn:E; rewrite IH; try done.
  - by rewrite <- app_assoc.
  - intros k' Hk'. unfold akeys. rewrite fmap_app, elem_of_app. simpl.
    rewrite list_elem_of_singleton. intros [?| ->]; [by eapply Hf; [by right|]|done].
  - intros k' Hk'. apply Hf. by right.
Qed.
End fold_keys.

(** The value of a key in a merge. *)
Definition appended (a b : jsobj) (k : string) : option jsval :=
  match iterable_items (ofield k a) ++ iterable_items (ofield k b) with
  | [] => None
  | xs => Some (JArr xs)
  end.

Definition defined (v : jsval) : option jsval := if is_undefined v then None else Some v.

Definition latest (a b : jsobj) (k : string) : option jsval :=
  match defined (ofield k b) with Some v => Some v | None => defined (ofield k a) end.

Lemma defined_inj v w : defined v = defined w → v = w.
Proof. by destruct v, w; intros [=]; subst. Qed.

Lemma mergeExtraFormData_entries a b :
  mergeExtraFormData a b =
  entries_of (appended a b) EXTRA_FORM_DATA_APPEND_KEYS ++
  entries_of (latest a b) EXTRA_FORM_DATA_OVERRIDE_KEYS.
Proof.
  unfold mergeExtraFormData.
  rewrite (fold_keys (merge_append_key a b) (appended a b)).
  - rewrite (fold_keys (merge_override_key a b) (latest a b)); [done| | | |].
    + intros acc k Hi Hk. unfold merge_override_key, latest, defined.
      destruct (is_undefined (ofield k a)), (is_undefined (ofield k b)); try done;
        by rewrite ?oset_append_oset, ?oset_append by done.
    + solve_decided.
    + solve_decided.
    + intros k Hk Hin%akeys_entries_of. revert k Hk Hin. solve_disjoint.
  - intros acc k Hi Hk. unfold merge_append_key, appended.
    destruct (iterable_items (ofield k a) ++ iterable_items (ofield k b)); simpl; [done|].
    by apply oset_append.
  - solve_decided.
  - solve_decided.
  - intros k _ Hk. by apply elem_of_nil in Hk.
Qed.

Lemma append_override_disjoint k :
  k ∈ EXTRA_FORM_DATA_APPEND_KEYS → k ∈ EXTRA_FORM_DATA_OVERRIDE_KEYS → False.
Proof. revert k. solve_disjoint. Qed.

Lemma aget_mergeExtraFormData a b k :
  aget k (mergeExtraFormData a b) =
  if decide (k ∈ EXTRA_FORM_DATA_APPEND_KEYS) then appended a b k
  else if decide (k ∈ EXTRA_FORM_DATA_OVERRIDE_KEYS) then latest a b k
  else None.
Proof.
  rewrite mergeExtraFormData_entries, aget_app, !aget_entries_of.
  destruct (decide (k ∈ EXTRA_FORM_DATA_APPEND_KEYS)) as [Ha|Ha]; [|done].
  destruct (appended a b k); [done|].
  rewrite decide_False; [done|]. intros ?. by eapply append_override_disjoint.
Qed.

Lemma merged_items a b k :
  k ∈ EXTRA_FORM_DATA_APPEND_KEYS →
  iterable_items (ofield k (mergeExtraFormData a b)) =
  iterable_items (ofield k a) ++ iterable_items (ofield k b).
Proof.
  intros Hk. unfold ofield at 1. rewrite aget_mergeExtraFormData, decide_True by done.
  unfold appended. by destruct (_ ++ _).
Qed.

Lemma merged_value a b k :
  k ∈ EXTRA_FORM_DATA_OVERRIDE_KEYS →
  defined (ofield k (mergeExtraFormData a b)) = latest a b k.
Proof.
  intros Hk. unfold ofield at 1. rewrite aget_mergeExtraFormData.
  rewrite decide_False by (intros ?; by eapply append_override_disjoint).
  rewrite decide_True by done. unfold latest, defined.
  by destruct (ofield k b) eqn:?, (ofield k a) eqn:?.
Qed.

Lemma entries_of_ext e e' ks :
  (∀ k, k ∈ ks → e k = e' k) → entries_of e ks = entries_of e' ks.
Proof.
  induction ks as [|k ks IH]; intros H; [done|]. rewrite !entries_of_cons.
  rewrite (H k) by left. rewrite IH; [done|]. intros k' Hk'. apply H. by right.
Qed.

(** Two merges are equal when they agree on what each key collects. *)
Lemma mergeExtraFormData_ext a b a' b' :
  (∀ k, k ∈ EXTRA_FORM_DATA_APPEND_KEYS →
     iterable_items (ofield k a) ++ iterable_items (ofield k b) =
     iterable_items (ofield k a') ++ iterable_items (ofield k b')) →
  (∀ k, k ∈ EXTRA_FORM_DATA_OVERRIDE_KEYS → latest a b k = latest a' b' k) →
  mergeExtraFormData a b = mergeExtraFormData a' b'.
Proof.
  intros Ha Ho. rewrite !mergeExtraFormData_entries. f_equal; apply entries_of_ext; [|done].
  intros k Hk. unfold appended. by rewrite Ha.
Qed.

Lemma mergeExtraFormData_assoc a b c :
  mergeExtraFormData (mergeExtraFormData a b) c = mergeExtraFormData a (mergeExtraFormData b c).
Proof.
  apply mergeExtraFormData_ext; intros k Hk.
  - rewrite !merged_items by done. by rewrite app_assoc.
  - unfold latest at 1 2. rewrite !merged_value by done. unfold latest.
    by destruct (defined (ofield k c)).
Qed.

Lemma mergeExtraFormData_nil_l a b :
  mergeExtraFormData [] (mergeExtraFormData a b) = mergeExtraFormData a b.
Proof.
  apply mergeExtraFormData_ext; intros k Hk; [by rewrite merged_items|].
  unfold latest at 1. rewrite merged_value by done. by destruct (latest a b k).
Qed.

Lemma mergeExtraFormData_nil_r a b :
  mergeExtraFormData (mergeExtraFormData a b) [] = mergeExtraFormData a b.
Proof.
  apply mergeExtraFormData_ext; intros k Hk.
  - rewrite merged_items by done. by rewrite app_nil_r.
  - unfold latest at 1. by rewrite merged_value.
Qed.

(** Merging two extra form data concatenates the lists of every append
    key, lets the second value of every override key win when it is defined
    and drops all other keys; an append key whose value is a plain object, as
    [custom_form_data] is declared to be, is lost. *)
Theorem mergeExtraFormData_values a b k :
  (k ∈ EXTRA_FORM_DATA_APPEND_KEYS →
     ofield k (mergeExtraFormData a b) =
     match iterable_items (ofield k a) ++ iterable_items (ofield k b) with
     | [] => JUndef
     | xs => JArr xs
     end) ∧
  (k ∈ EXTRA_FORM_DATA_OVERRIDE_KEYS →
     ofield k (mergeExtraFormData a b) =
     if is_undefined (ofield k b) then ofield k a else ofield k b) ∧
  (k ∉ EXTRA_FORM_DATA_APPEND_KEYS → k ∉ EXTRA_FORM_DATA_OVERRIDE_KEYS →
     ahas k (mergeExtraFormData a b) = false) ∧
  (∀ o o', ofield "custom_form_data" a = JObj o → ofield "custom_form_data" b = JObj o' →
     ahas "custom_form_data" (mergeExtraFormData a b) = false).
Proof.
  split; [|split; [|split]].
  - intros Hk. unfold ofield at 1. rewrite aget_mergeExtraFormData, decide_True by done.
    unfold appended. by destruct (_ ++ _).
  - intros Hk. pose proof (merged_value a b k Hk) as Hm. unfold latest, defined in Hm.
    apply defined_inj. unfold defined. rewrite Hm.
    destruct (is_undefined (ofield k b)) eqn:Hb; [done|]. by rewrite Hb.
  - intros Ha Ho. unfold ahas. rewrite aget_mergeExtraFormData.
    by rewrite !decide_False.
  - intros o o' Ha Hb. unfold ahas. rewrite aget_mergeExtraFormData.
    rewrite decide_True by solve_decided. unfold appended. by rewrite Ha, Hb.
Qed.

(** On the extra form data it produces, merging is a monoid: it is
    associative and the empty object is neutral on both sides, so the result
    for a list of filters depends on the order of the filters only. *)
Theorem mergeExtraFormData_monoid a b c :
  mergeExtraFormData (mergeExtraFormData a b) c =
    mergeExtraFormData a (mergeExtraFormData b c) ∧
  mergeExtraFormData [] (mergeExtraFormData a b) = mergeExtraFormData a b ∧
  mergeExtraFormData (mergeExtraFormData a b) [] = mergeExtraFormData a b.
Proof.
  split; [apply mergeExtraFormData_assoc|].
  split; [apply mergeExtraFormData_nil_l|apply mergeExtraFormData_nil_r].
Qed.

Lemma mergeExtraFormData_values_witness :
  ofield "filters" (mergeExtraFormData [("filters", JArr [JNull])] [("filters", JArr [JBool true])])
    = JArr [JNull; JBool true].
Proof.
  destruct (mergeExtraFormData_values [("filters", JArr [JNull])] [("filters", JArr [JBool true])]
    "filters") as [H _].
  rewrite H; [reflexivity|]. right. left.
Defined.

(** ** Aggregation *)

(** What a filter contributes. *)
Definition contribution (dm : jsobj) (id : string) : jsobj :=
  object_entries (js_nullish (mask_extra dm id) (JObj [])).

(** Extra form data that merging has produced. *)
Definition merged (e : jsobj) : Prop := mergeExtraFormData e [] = e.

Lemma merged_nil : merged [].
Proof. done. Qed.

Lemma merged_merge a b : merged (mergeExtraFormData a b).
Proof. apply mergeExtraFormData_nil_r. Qed.

Lemma merged_nil_l e : merged e → mergeExtraFormData [] e = e.
Proof. intros <-. apply mergeExtraFormData_nil_l. Qed.

#[local] Hint Resolve merged_nil merged_merge : core.

Lemma contribution_or dm id :
  object_entries (js_or (mask_extra dm id) (JObj [])) = contribution dm id.
Proof.
  unfold contribution, js_or, js_nullish. destruct (mask_extra dm id); try done; simpl.
  - by destruct b.
  - by destruct (negb _).
  - by case_bool_decide.
Qed.

Lemma contribution_falsy dm id : truthy (mask_extra dm id) = false → contribution dm id = [].
Proof. intros H. rewrite <- contribution_or. unfold js_or. by rewrite H. Qed.

Lemma contribution_truthy dm id :
  truthy (mask_extra dm id) = true → object_entries (mask_extra dm id) = contribution dm id.
Proof. intros H. rewrite <- contribution_or. unfold js_or. by rewrite H. Qed.

(** The step of the two routines that skip filters without extra form data. *)
Lemma skip_step dm e id :
  merged e →
  (if truthy (mask_extra dm id) then
     mergeExtraFormData e (object_entries (mask_extra dm id)) else e) =
  mergeExtraFormData e (contribution dm id).
Proof.
  intros He. destruct (truthy (mask_extra dm id)) eqn:E.
  - by rewrite contribution_truthy.
  - by rewrite contribution_falsy, He.
Qed.

Section fold.
Context (dm : jsobj).

Definition collect (e : jsobj) (ids : list string) : jsobj :=
  foldl (λ e id, mergeExtraFormData e (contribution dm id)) e ids.

Lemma collect_merged e ids : merged e → merged (collect e ids).
Proof.
  revert e. induction ids as [|id ids IH]; intros e He; [done|]. by apply IH.
Qed.

Lemma collect_app e ids ids' : collect e (ids ++ ids') = collect (collect e ids) ids'.
Proof. unfold collect. by rewrite foldl_app. Qed.

Lemma collect_merge e ids : merged e → collect e ids = mergeExtraFormData e (collect [] ids).
Proof.
  revert e. induction ids as [|id ids IH]; intros e He; [done|].
  change (collect (mergeExtraFormData e (contribution dm id)) ids =
    mergeExtraFormData e (collect (mergeExtraFormData [] (contribution dm id)) ids)).
  rewrite (IH (mergeExtraFormData e _)) by done.
  rewrite (IH (mergeExtraFormData [] _)) by done.
  rewrite <- mergeExtraFormData_assoc, mergeExtraFormData_assoc.
  rewrite <- (mergeExtraFormData_assoc e []). by rewrite He, mergeExtraFormData_assoc.
Qed.

Lemma collect_skip e ids :
  merged e →
  foldl (λ e id,
    if truthy (mask_extra dm id) then
      mergeExtraFormData e (object_entries (mask_extra dm id)) else e) e ids = collect e ids.
Proof.
  revert e. induction ids as [|id ids IH]; intros e He; [done|].
  cbn [foldl]. rewrite skip_step by done. by apply IH.
Qed.
End fold.

(** C38. The three aggregation routines agree: skipping the filters without
    extra form data gives what merging every filter gives, and the aggregate
    of a concatenation of filter lists is the merge of their aggregates; the
    layer-specific routine adds what the mask of the layer contributes. *)
Theorem getExtraFormData_aggregates dm ids ids' chartId layer :
  layer ≠ EmptyString →
  getExtraFormData dm ids = aggregateFiltersForTarget dm ids ∧
  getExtraFormData dm (ids ++ ids') =
    mergeExtraFormData (getExtraFormData dm ids) (getExtraFormData dm ids') ∧
  getLayerSpecificExtraFormData dm ids chartId None = getExtraFormData dm ids ∧
  getLayerSpecificExtraFormData dm ids chartId (Some layer) =
    getExtraFormData dm (ids ++ [string_of_Z chartId +:+ "-" +:+ layer]).
Proof.
  intros Hlayer. change (getExtraFormData dm) with (collect dm []).
  unfold aggregateFiltersForTarget, getLayerSpecificExtraFormData.
  rewrite !collect_skip by done. split; [done|]. split; [|split; [done|]].
  - rewrite collect_app. apply collect_merge. by apply collect_merged.
  - destruct layer as [|c layer]; [done|]. rewrite collect_app.
    apply skip_step. by apply collect_merged.
Qed.

Lemma getExtraFormData_aggregates_witness :
  getExtraFormData [("a", JObj [("extraFormData", JObj [("time_range", JStr "Last week")])])]
    ["a"; "b"] = [("time_range", JStr "Last week")].
Proof.
  destruct (getExtraFormData_aggregates
    [("a", JObj [("extraFormData", JObj [("time_range", JStr "Last week")])])]
    ["a"; "b"] [] 1 "x" ltac:(discriminate)) as [H _].
  rewrite H. vm_compute. reflexivity.
Defined.

(** ** Scope keys *)

(** The scope key of a target. *)
Definition print_target (t : FilterTarget) : string :=
  match t with
  | LAYER c l => "chart-" +:+ c +:+ "-layer-" +:+ l
  | CHART c => "chart-" +:+ c
  end.

(** A non-empty string of decimal digits. *)
Definition digits (s : string) : bool :=
  bool_decide (s ≠ EmptyString) && all_chars is_digit s.

Definition target_ok (t : FilterTarget) : bool :=
  match t with
  | LAYER c l => digits c && digits l
  | CHART c => digits c
  end.

Lemma strip_prefix_Some p s r : strip_prefix p s = Some r → s = p +:+ r.
Proof.
  revert s. induction p as [|c p IH]; intros s H; [by injection H as ->|].
  destruct s as [|c' s]; [done|]. simpl in H. case_decide; [|done].
  subst. by rewrite (IH s H).
Qed.

Lemma take_digits_app s r :
  all_chars is_digit s = true → no_digit_first r → take_digits (s +:+ r) = (s, r).
Proof.
  induction s as [|c s IH]; intros Hs Hr.
  - destruct r as [|c r]; [done|]. simpl in *. unfold is_digit. by rewrite Hr.
  - simpl in Hs. apply andb_true_iff in Hs as [Hc Hs].
    change (take_digits (String c s +:+ r)) with
      (if is_digit c then let '(ds, rest) := take_digits (s +:+ r) in (String c ds, rest)
       else (EmptyString, String c s +:+ r)).
    by rewrite Hc, IH.
Qed.

Lemma take_digits_spec s ds r :
  take_digits s = (ds, r) → s = ds +:+ r ∧ all_chars is_digit ds = true.
Proof.
  revert ds r. induction s as [|c s IH]; intros ds r H; simpl in H; [by simplify_eq|].
  destruct (is_digit c) eqn:Hc; [|by simplify_eq].
  destruct (take_digits s) as [ds' r'] eqn:E. injection H as <- <-.
  destruct (IH _ _ eq_refl) as [-> Hd]. split; [done|]. simpl. by rewrite Hc.
Qed.

Lemma match_layer_key_spec s c l :
  match_layer_key s = Some (c, l) ↔
  s = "chart-" +:+ c +:+ "-layer-" +:+ l ∧ digits c = true ∧ digits l = true.
Proof.
  unfold match_layer_key, digits. split.
  - intros (r1 & H1%strip_prefix_Some & H)%bind_Some.
    destruct (take_digits r1) as [c' r2] eqn:E1.
    apply take_digits_spec in E1 as [-> Hc].
    apply bind_Some in H as (r3 & ->%strip_prefix_Some & H).
    destruct (take_digits r3) as [l' r4] eqn:E2.
    apply take_digits_spec in E2 as [-> Hl].
    case_bool_decide as Hne; [|done]. destruct Hne as (Hc0 & Hl0 & ->). injection H as -> ->.
    rewrite string_app_nil_r in H1. rewrite Hc, Hl. split; [done|].
    by rewrite !bool_decide_eq_true_2 by done.
  - intros (-> & [Hc0%bool_decide_eq_true Hc]%andb_true_iff &
            [Hl0%bool_decide_eq_true Hl]%andb_true_iff).
    rewrite strip_prefix_app. cbn [mbind option_bind]. rewrite take_digits_app by done.
    cbv beta iota. rewrite strip_prefix_app. cbn [mbind option_bind].
    pose proof (take_digits_app l EmptyString Hl I) as Ht.
    rewrite string_app_nil_r in Ht. rewrite Ht. by rewrite bool_decide_eq_true_2.
Qed.

Lemma match_chart_key_spec s c :
  match_chart_key s = Some c ↔ s = "chart-" +:+ c ∧ digits c = true.
Proof.
  unfold match_chart_key, digits. split.
  - intros (r1 & H1%strip_prefix_Some & H)%bind_Some.
    destruct (take_digits r1) as [c' r2] eqn:E1.
    apply take_digits_spec in E1 as [-> Hc].
    case_bool_decide as Hne; [|done]. destruct Hne as (Hc0 & ->). injection H as ->.
    rewrite string_app_nil_r in H1. rewrite Hc. by rewrite bool_decide_eq_true_2 by done.
  - intros (-> & [Hc0%bool_decide_eq_true Hc]%andb_true_iff).
    rewrite strip_prefix_app. simpl.
    pose proof (take_digits_app c EmptyString Hc I) as Ht.
    rewrite string_app_nil_r in Ht. rewrite Ht. by rewrite bool_decide_eq_true_2.
Qed.

Lemma layer_key_no_chart_key c l : match_chart_key ("chart-" +:+ c +:+ "-layer-" +:+ l) = None.
Proof.
  destruct (match_chart_key _) as [c'|] eqn:E; [|done].
  apply match_chart_key_spec in E as [E Hc']. apply (f_equal (strip_prefix "chart-")) in E.
  rewrite !strip_prefix_app in E. injection E as <-. unfold digits in Hc'.
  apply andb_true_iff in Hc' as [_ Hc']. exfalso. revert Hc'. clear.
  induction c as [|a c IH]; intros H; [vm_compute in H; done|].
  simpl in H. apply andb_true_iff in H as [_ H]. by apply IH.
Qed.

(** A scope key denotes a target exactly when it is the key of that
    target: parsing reads back the keys of charts and of layers with decimal
    identifiers, and rejects every other string. *)
Theorem parseFilterTarget_exact s t :
  parseFilterTarget s = Some t ↔ s = print_target t ∧ target_ok t = true.
Proof.
  unfold parseFilterTarget. destruct t as [c l|c]; simpl.
  - rewrite andb_true_iff, <- match_layer_key_spec.
    destruct (match_layer_key s) as [[c' l']|]; [split; congruence|].
    split; [|congruence]. by destruct (match_chart_key s).
  - rewrite <- match_chart_key_spec. destruct (match_layer_key s) as [[c' l']|] eqn:E.
    + apply match_layer_key_spec in E as (-> & _ & _). rewrite layer_key_no_chart_key.
      split; congruence.
    + destruct (match_chart_key s); split; congruence.
Qed.

(** ** Grouping by target *)

Section grouping.
Context (dm : jsobj).

(** One event per target that a filter has. *)
Definition group_event (acc : target_filters) (ev : string * FilterTarget) : target_filters :=
  group_target dm ev.1 acc ev.2.

Definition events (scopes : list (string * list string)) : list (string * FilterTarget) :=
  flat_map (λ id, pair id <$> fs_targets (getFilterScope id scopes)) (akeys dm).

Lemma groupFiltersByTarget_events scopes :
  groupFiltersByTarget dm scopes = foldl group_event {| tf_chart := []; tf_layer := [] |} (events scopes).
Proof.
  unfold groupFiltersByTarget, events. generalize {| tf_chart := []; tf_layer := [] |} as acc.
  induction (akeys dm) as [|id ids IH]; intros acc; [done|].
  cbn [foldl flat_map]. rewrite IH, foldl_app. f_equal.
  generalize (fs_targets (getFilterScope id scopes)) as ts. intros ts. revert acc.
  induction ts as [|t ts IHt]; intros acc; [done|]. simpl. by rewrite IHt.
Qed.

Definition is_chart (t : FilterTarget) : bool := match t with CHART _ => true | _ => false end.

(** The map an event updates. *)
Definition tf_of (chart : bool) (acc : target_filters) : list (string * jsobj) :=
  if chart then tf_chart acc else tf_layer acc.

(** The filters of the events that update the entry of a key, in order. *)
Definition ids_for (chart : bool) (key : string) (evs : list (string * FilterTarget)) : list string :=
  (filter (λ ev, is_chart ev.2 = chart ∧ createTargetKey ev.2 = key) evs).*1.

Lemma group_event_entry chart key acc ev :
  aget key (tf_of chart (group_event acc ev)) =
  if decide (is_chart ev.2 = chart ∧ createTargetKey ev.2 = key)
  then Some (mergeExtraFormData (default [] (aget key (tf_of chart acc))) (contribution dm ev.1))
  else aget key (tf_of chart acc).
Proof.
  destruct ev as [id t]. unfold group_event, group_target. rewrite contribution_or. cbn [fst snd].
  destruct t as [c l|c], chart; cbn [is_chart tf_of tf_chart tf_layer];
    first [by rewrite decide_False by naive_solver|rewrite aget_aset].
  - destruct (decide (key = createTargetKey (LAYER c l))) as [->|Hne].
    + by rewrite decide_True.
    + by rewrite decide_False by naive_solver.
  - destruct (decide (key = createTargetKey (CHART c))) as [->|Hne].
    + by rewrite decide_True.
    + by rewrite decide_False by naive_solver.
Qed.

Lemma group_events_entry chart key acc evs :
  aget key (tf_of chart (foldl group_event acc evs)) =
  match ids_for chart key evs with
  | [] => aget key (tf_of chart acc)
  | ids => Some (collect dm (default [] (aget key (tf_of chart acc))) ids)
  end.
Proof.
  revert acc. induction evs as [|ev evs IH]; intros acc; [done|].
  cbn [foldl]. rewrite IH, group_event_entry. unfold ids_for. rewrite filter_cons.
  destruct (decide _) as [Hd|Hd]; [|done]. rewrite fmap_cons. by destruct ((filter _ evs).*1).
Qed.
End grouping.

(** Grouping refines aggregation: a chart (or a layer) has an entry when
    some filter of the data mask has it in scope, and the entry is the
    aggregated extra form data of those filters in the order of the mask. *)
Theorem groupFiltersByTarget_refines dm scopes key :
  let groups := groupFiltersByTarget dm scopes in
  let applied chart := ids_for chart key (events dm scopes) in
  aget key (tf_chart groups) =
    (if decide (applied true = []) then None else Some (getExtraFormData dm (applied true))) ∧
  aget key (tf_layer groups) =
    (if decide (applied false = []) then None else Some (getExtraFormData dm (applied false))).
Proof.
  intros groups applied. subst groups applied. cbv beta. rewrite groupFiltersByTarget_events.
  split.
  - pose proof (group_events_entry dm true key {| tf_chart := []; tf_layer := [] |}
      (events dm scopes)) as H. simpl in H. rewrite H. clear H.
    by destruct (ids_for true key (events dm scopes)).
  - pose proof (group_events_entry dm false key {| tf_chart := []; tf_layer := [] |}
      (events dm scopes)) as H. simpl in H. rewrite H. clear H.
    by destruct (ids_for false key (events dm scopes)).
Qed.

(** ** Scopes of a filter configuration *)

(** A filter configuration as the dashboard keeps it: filters under their own
    id, each with distinct charts in scope whose ids are decimal. *)
Definition charts_of (f : jsval) : list string :=
  to_string <$> array_items (opt_field "chartsInScope" f).

Definition filters_ok (filters : jsobj) : Prop :=
  NoDup (akeys filters) ∧
  ∀ k f, (k, f) ∈ filters →
    to_string (opt_field "id" f) = k ∧
    (truthy (opt_field "chartsInScope" f) = false → charts_of f = []) ∧
    NoDup (charts_of f) ∧ Forall (λ c, digits c = true) (charts_of f).

Lemma buildFilterScopes_fold filters acc k :
  NoDup (akeys filters) →
  (∀ k f, (k, f) ∈ filters → to_string (opt_field "id" f) = k) →
  aget k (foldl (λ filterScopes filter,
    let chartsInScope := opt_field "chartsInScope" filter in
    if truthy chartsInScope then
      oset (to_string (opt_field "id" filter)) (chart_scope_keys (array_items chartsInScope))
        filterScopes
    else filterScopes) acc (avalues filters)) =
  match aget k filters with
  | Some f =>
      if truthy (opt_field "chartsInScope" f)
      then Some (chart_scope_keys (array_items (opt_field "chartsInScope" f)))
      else aget k acc
  | None => aget k acc
  end.
Proof.
  revert acc. induction filters as [|[k0 f0] filters IH]; intros acc Hnd Hid; [done|].
  apply NoDup_cons in Hnd as [Hk0 Hnd]. change (avalues ((k0, f0) :: filters)) with (f0 :: avalues filters).
  cbn [foldl aget]. rewrite IH; [|done|intros; apply Hid; by right].
  rewrite (Hid k0 f0) by left. destruct (decide (k = k0)) as [->|Hne].
  - rewrite (proj2 (aget_None k0 filters) Hk0).
    destruct (truthy _); [|done]. by rewrite aget_oset_eq.
  - destruct (aget k filters) as [f|].
    + destruct (truthy (opt_field "chartsInScope" f)); [done|].
      destruct (truthy _); [|done]. by rewrite aget_oset_ne.
    + destruct (truthy _); [|done]. by rewrite aget_oset_ne.
Qed.

Lemma fmap_scope_keys f :
  chart_scope_keys (array_items (opt_field "chartsInScope" f)) =
  (λ c, "chart-" +:+ c) <$> charts_of f.
Proof. unfold chart_scope_keys, charts_of. by rewrite <- list_fmap_compose. Qed.

Lemma parse_chart_keys cs :
  Forall (λ c, digits c = true) cs →
  omap parseFilterTarget ((λ c, "chart-" +:+ c) <$> cs) = CHART <$> cs.
Proof.
  induction 1 as [|c cs Hc _ IH]; [done|]. rewrite !fmap_cons.
  assert (parseFilterTarget ("chart-" +:+ c) = Some (CHART c)) as Hp.
  { unfold parseFilterTarget. assert (match_chart_key ("chart-" +:+ c) = Some c) as ->
      by (by apply match_chart_key_spec).
    destruct (match_layer_key _) as [[c' l]|] eqn:E; [|done].
    apply match_layer_key_spec in E as (E & _ & _).
    pose proof (layer_key_no_chart_key c' l) as Hn. rewrite <- E in Hn.
    by rewrite (proj2 (match_chart_key_spec _ c)) in Hn. }
  change (omap parseFilterTarget (("chart-" +:+ c) :: ((λ c, "chart-" +:+ c) <$> cs)))
    with (match parseFilterTarget ("chart-" +:+ c) with
          | Some t => t :: omap parseFilterTarget ((λ c, "chart-" +:+ c) <$> cs)
          | None => omap parseFilterTarget ((λ c, "chart-" +:+ c) <$> cs)
          end).
  by rewrite Hp, IH.
Qed.

Lemma filter_unique (cs : list string) c :
  NoDup cs → filter (λ x, x = c) cs = if decide (c ∈ cs) then [c] else [].
Proof.
  induction 1 as [|x cs Hx Hnd IH]; [by rewrite decide_False by set_solver|].
  rewrite filter_cons, IH. destruct (decide (x = c)) as [->|].
  - rewrite (decide_False (P := c ∈ cs)) by done. by rewrite decide_True by set_solver.
  - apply decide_ext. set_solver.
Qed.

Lemma ids_for_one id cs c :
  NoDup cs →
  ids_for true c (pair id <$> (CHART <$> cs)) = if decide (c ∈ cs) then [id] else [].
Proof.
  intros Hnd. transitivity ((λ _, id) <$> filter (λ x, x = c) cs).
  - unfold ids_for. clear Hnd. induction cs as [|x cs IH]; [done|].
    rewrite !fmap_cons, !filter_cons. cbn [fst snd is_chart createTargetKey].
    destruct (decide (x = c)) as [->|].
    + rewrite decide_True by done. rewrite !fmap_cons. by f_equal.
    + by rewrite decide_False by naive_solver.
  - rewrite filter_unique by done. by case_decide.
Qed.

(** The filters of the mask that have a chart in scope. *)
Definition filters_of_chart (dm filters : jsobj) (c : string) : list string :=
  filter (λ id, c ∈ charts_of (ofield id filters)) (akeys dm).

Lemma ids_for_filters dm filters c :
  filters_ok filters →
  ids_for true c (events dm (buildFilterScopesFromFilters filters)) =
  filters_of_chart dm filters c.
Proof.
  intros [Hnd Hok]. unfold events, filters_of_chart.
  induction (akeys dm) as [|id ids IH]; [done|]. cbn [flat_map].
  unfold ids_for in *. rewrite filter_app, fmap_app, IH, filter_cons.
  assert (Hone : (filter (λ ev, is_chart ev.2 = true ∧ createTargetKey ev.2 = c)
    (pair id <$> fs_targets (getFilterScope id (buildFilterScopesFromFilters filters)))).*1 =
    if decide (c ∈ charts_of (ofield id filters)) then [id] else []).
  { unfold getFilterScope, buildFilterScopesFromFilters. cbn [fs_targets].
    rewrite buildFilterScopes_fold by (done || (intros; by apply Hok)). unfold ofield.
    destruct (aget id filters) as [f|] eqn:E; simpl; [|done].
    apply aget_Some_elem in E. destruct (Hok id f E) as (_ & Hfalse & Hnd' & Hdig).
    destruct (truthy (opt_field "chartsInScope" f)); simpl.
    - rewrite fmap_scope_keys, parse_chart_keys by done. by apply ids_for_one.
    - rewrite Hfalse by done. by rewrite decide_False by set_solver. }
  rewrite Hone. by case_decide.
Qed.

(** With the scopes of a filter configuration, grouping gives each chart
    the extra form data of exactly the filters that have the chart in scope,
    each counted once, in the order of the data mask. *)
Theorem groupFiltersByTarget_filters dm filters c :
  filters_ok filters →
  let ids := filters_of_chart dm filters c in
  aget c (tf_chart (groupFiltersByTarget dm (buildFilterScopesFromFilters filters))) =
    if decide (ids = []) then None else Some (getExtraFormData dm ids).
Proof.
  intros Hok ids. rewrite groupFiltersByTarget_events.
  pose proof (group_events_entry dm true c {| tf_chart := []; tf_layer := [] |}
    (events dm (buildFilterScopesFromFilters filters))) as H.
  rewrite ids_for_filters in H by done. fold ids in H. simpl in H. rewrite H.
  by destruct ids.
Qed.

Lemma groupFiltersByTarget_filters_witness :
  let filters := [("F", JObj [("id", JStr "F"); ("chartsInScope", JArr [JStr "3"; JStr "4"])])] in
  let dm := [("F", JObj [("extraFormData", JObj [("time_range", JStr "Last day")])])] in
  aget "4" (tf_chart (groupFiltersByTarget dm (buildFilterScopesFromFilters filters))) =
    Some [("time_range", JStr "Last day")].
Proof.
  intros filters dm. rewrite (groupFiltersByTarget_filters dm filters "4").
  - vm_compute. reflexivity.
  - split; [apply (bool_decide_unpack _); vm_compute; exact I|].
    intros k f Hf. apply elem_of_cons in Hf as [Hf|Hf]; [|by apply elem_of_nil in Hf].
    injection Hf as -> ->. split; [reflexivity|]. split; [discriminate|].
    split; apply (bool_decide_unpack _); vm_compute; exact I.
Defined.
