(* ===== verification/PostProcessing.v ===== *)
(** * Post-processing operators

    [superset-ui-chart-controls/src/operators]: each operator reads the form
    data and the query object and returns the post-processing rule the back
    end applies to the result of the query, or [undefined] when the rule does
    not apply.  A metric label or a column that the code dereferences without
    a guard makes the operator throw.

    The time-comparison rules depend on each other by column name: the back
    end returns one column [<metric>__<offset>] for each shifted metric, the
    pivot rule aggregates these columns, the compare rule consumes them and
    produces [<type>__<metric>__<metric>__<offset>], and the rename rule
    shortens that name.  The properties below state that the names agree. *)

From Stdlib Require Import Ascii String.
From stdpp Require Import base strings option numbers list.
From S2P Require Import Prelude JsObject JsNumber JsValue Lodash QueryTypes ExtraFormData.

(** ** Enumerations and helpers *)

(** @source core/query/types/AdvancedAnalytics.ts 20-25 RollingType *)
Inductive RollingType : Type := Mean | Sum | Std | Cumsum.

Definition RollingType_value (r : RollingType) : string :=
  match r with Mean => "mean" | Sum => "sum" | Std => "std" | Cumsum => "cumsum" end.

(** @source core/query/types/AdvancedAnalytics.ts 32-37 ComparisonType *)
Inductive ComparisonType : Type := Values | Difference | Percentage | Ratio.

Definition ComparisonType_value (c : ComparisonType) : string :=
  match c with
  | Values => "values"
  | Difference => "difference"
  | Percentage => "percentage"
  | Ratio => "ratio"
  end.

(** [v === ComparisonType.c] *)
Definition is_comparison (v : jsval) (c : ComparisonType) : bool :=
  is_str v (ComparisonType_value c).

Definition is_rolling (v : jsval) (r : RollingType) : bool :=
  is_str v (RollingType_value r).

(** @source core/utils/ensureIsInt.ts 20-27 ensureIsInt *)
Definition ensureIsInt (value : jsval) (defaultValue : option jsnum) : jsnum :=
  let val := parseInt (to_string value) in
  let defaultOrNaN := default NaN defaultValue in
  if isNaN val then defaultOrNaN else val.

(** @source controls/operators/utils/constants.ts 20-20 TIME_COMPARISON_SEPARATOR *)
Definition TIME_COMPARISON_SEPARATOR : string := "__".

(** [values.join(sep)]: [undefined] and [null] count as the empty string. *)
Definition join_values (sep : string) (values : list jsval) : string :=
  join sep ((λ v, if is_nullish v then EmptyString else to_string v) <$> values).

(** [Object.fromEntries(values.map(v => [v, f(v)]))]: a key is converted to a
    string. *)
Definition object_of (values : list jsval) (f : jsval → jsval) : jsobj :=
  from_entries ((λ v, (to_string v, f v)) <$> values).

(** The rule [{operation, options}]. *)
Definition rule (operation : string) (options : jsobj) : jsval :=
  JObj [("operation", JStr operation); ("options", JObj options)].

(** [{operator: 'mean'}] *)
Definition mean_aggregate : jsval := JObj [("operator", JStr "mean")].

(** [!!(v || []).length] for a value that may be an array or a string. *)
Definition has_length (v : jsval) : bool :=
  match v with
  | JArr xs => negb (bool_decide (xs = []))
  | JStr s => negb (bool_decide (s = EmptyString))
  | JObj o => truthy (ofield "length" o)
  | _ => false
  end.

(** [xs.some(p)] with a predicate that may throw *)
Fixpoint some_result (p : jsval → result bool) (xs : list jsval) : result bool :=
  match xs with
  | [] => Ok false
  | x :: xs =>
      b ← p x;
      if (b : bool) then Ok true else some_result p xs
  end.

(** ** Utilities *)

(** One entry [<metric>__<offset>] → [<metric>] per metric and offset.

    @source controls/operators/utils/getMetricOffsetsMap.ts 24-50 getMetricOffsetsMap *)
Definition getMetricOffsetsMap (formData queryObject : jsobj)
    : result (list (string * jsval)) :=
  let queryMetrics := ensureIsArray (ofield "metrics" queryObject) in
  let timeOffsets := ensureIsArray (ofield "time_compare" formData) in
  metricLabels ← map_result getMetricLabel queryMetrics;
  Ok (foldl (λ m metric,
        foldl (λ m offset,
          aset (join_values TIME_COMPARISON_SEPARATOR [metric; offset]) metric m)
          m timeOffsets)
        [] metricLabels).

(** @source controls/operators/utils/isTimeComparison.ts 24-35 isTimeComparison *)
Definition isTimeComparison (formData queryObject : jsobj) : result bool :=
  let comparisonType := ofield "comparison_type" formData in
  metricOffsetMap ← getMetricOffsetsMap formData queryObject;
  Ok (existsb (is_comparison comparisonType) [Values; Difference; Percentage; Ratio] &&
      (0 <? length metricOffsetMap)).

(** @source controls/operators/utils/extractExtraMetrics.ts 26-41 extractExtraMetrics *)
Definition extractExtraMetrics (formData : jsobj) : result (list jsval) :=
  let groupby := ofield "groupby" formData in
  let x_axis_sort := ofield "x_axis_sort" formData in
  let metrics := ofield "metrics" formData in
  let limitMetric :=
    default JUndef (head (ensureIsArray (ofield "timeseries_limit_metric" formData))) in
  if negb (has_length groupby) && truthy limitMetric then
    label ← getMetricLabel limitMetric;
    if strict_eq label x_axis_sort then
      found ← match metrics with
              | JUndef | JNull => Ok false
              | JArr ms =>
                  some_result (λ metric, label ← getMetricLabel metric;
                                         Ok (strict_eq label x_axis_sort)) ms
              | _ => Throw (TypeError "metrics?.some is not a function")
              end;
      Ok (if (found : bool) then [] else [limitMetric])
    else Ok []
  else Ok [].

(** [name.includes(s)]: a name that is neither a string nor an array has no
    such method. *)
Definition name_includes (name : jsval) (s : string) : result bool :=
  match name with
  | JStr n => Ok (includes s n)
  | JArr xs => Ok (set_has xs (JStr s))
  | JUndef => Throw (TypeError "Cannot read properties of undefined (reading 'includes')")
  | JNull => Throw (TypeError "Cannot read properties of null (reading 'includes')")
  | _ => Throw (TypeError "series.name.includes is not a function")
  end.

(** The loop of [find].

    @source controls/operators/utils/timeOffset.ts 22-32 getTimeOffset *)
Fixpoint getTimeOffset (series : jsobj) (timeCompare : list jsval) : result jsval :=
  match timeCompare with
  | [] => Ok JUndef
  | timeOffset :: rest =>
      grouped ← name_includes (ofield "name" series) (to_string timeOffset +:+ ",");
      shifted ← (if (grouped : bool) then Ok true
                 else name_includes (ofield "name" series) ("__" +:+ to_string timeOffset));
      if (shifted : bool) then Ok timeOffset else getTimeOffset series rest
  end.

(** @source controls/operators/utils/timeOffset.ts 34-40 hasTimeOffset *)
Definition hasTimeOffset (series : jsobj) (timeCompare : list jsval) : result bool :=
  if is_string (ofield "name" series) then
    offset ← getTimeOffset series timeCompare;
    Ok (truthy offset)
  else Ok false.

(** [s.replace(p, '')]: the first occurrence only. *)
Fixpoint remove_first (p s : string) : string :=
  match strip_prefix p s with
  | Some rest => rest
  | None =>
      match s with
      | EmptyString => EmptyString
      | String c s' => String c (remove_first p s')
      end
  end.

(** @source controls/operators/utils/timeOffset.ts 42-54 getOriginalSeries *)
Definition getOriginalSeries (seriesName : string) (timeCompare : list string) : string :=
  trim (foldl (λ result compare,
          let result := remove_first (compare +:+ ",") result in
          remove_first ("__" +:+ compare) result)
        seriesName timeCompare).

(** @source controls/operators/utils/isDerivedSeries.ts 28-38 isDerivedSeries *)
Definition isDerivedSeries (series formData : jsobj) : result bool :=
  let comparisonType := ofield "comparison_type" formData in
  if negb (is_comparison comparisonType Values) then Ok false
  else hasTimeOffset series (ensureIsArray (ofield "time_compare" formData)).

(** ** Operators on the time axis *)

(** The columns a rolling window covers. *)
Definition rolling_columns (formData queryObject : jsobj) : result (list jsval) :=
  comparison ← isTimeComparison formData queryObject;
  if (comparison : bool) then
    metricsMap ← getMetricOffsetsMap formData queryObject;
    Ok (avalues metricsMap ++ (JStr <$> akeys metricsMap))
  else
    map_result (λ metric,
      if is_string metric then Ok metric else field "label" metric)
      (ensureIsArray (ofield "metrics" queryObject)).

(** @source controls/operators/rollingWindowOperator.ts 30-77 rollingWindowOperator *)
Definition rollingWindowOperator (formData queryObject : jsobj) : result jsval :=
  columns ← rolling_columns formData queryObject;
  let columnsMap := object_of columns id in
  let rolling_type := ofield "rolling_type" formData in
  if is_rolling rolling_type Cumsum then
    Ok (rule "cum" [("operator", JStr "sum"); ("columns", JObj columnsMap)])
  else if existsb (is_rolling rolling_type) [Sum; Mean; Std] then
    Ok (rule "rolling"
          [("rolling_type", rolling_type);
           ("window", JNum (ensureIsInt (ofield "rolling_periods" formData) (Some (num_of_Z 1))));
           ("min_periods", JNum (ensureIsInt (ofield "min_periods" formData) (Some (num_of_Z 0))));
           ("columns", JObj columnsMap)])
  else Ok JUndef.

(** @source controls/operators/timeCompareOperator.ts 24-46 timeCompareOperator *)
Definition timeCompareOperator (formData queryObject : jsobj) : result jsval :=
  let comparisonType := ofield "comparison_type" formData in
  metricOffsetMap ← getMetricOffsetsMap formData queryObject;
  comparison ← isTimeComparison formData queryObject;
  if (comparison : bool) && negb (is_comparison comparisonType Values) then
    Ok (rule "compare"
          [("source_columns", JArr (avalues metricOffsetMap));
           ("compare_columns", JArr (JStr <$> akeys metricOffsetMap));
           ("compare_type", comparisonType);
           ("drop_original_columns", JBool true)])
  else Ok JUndef.

(** [queryObject.series_columns || queryObject.columns] as labels *)
Definition series_labels (queryObject : jsobj) : list jsval :=
  getColumnLabel <$>
    ensureIsArray (js_or (ofield "series_columns" queryObject) (ofield "columns" queryObject)).

(** The labels [pivotOperator] aggregates. *)
Definition pivot_labels (formData queryObject : jsobj) : result (list jsval) :=
  extra ← extractExtraMetrics formData;
  map_result getMetricLabel (ensureIsArray (ofield "metrics" queryObject) ++ extra).

(** @source controls/operators/pivotOperator.ts 29-57 pivotOperator *)
Definition pivotOperator (formData queryObject : jsobj) : result jsval :=
  metricLabels ← pivot_labels formData queryObject;
  let xAxisLabel := getXAxisLabel formData in
  if truthy xAxisLabel && (0 <? length metricLabels) then
    Ok (rule "pivot"
          [("index", JArr [xAxisLabel]);
           ("columns", JArr (series_labels queryObject));
           ("aggregates", JObj (object_of metricLabels (λ _, mean_aggregate)));
           ("drop_missing_columns",
             JBool (negb (truthy (ofield "show_empty_columns" formData))))])
  else Ok JUndef.

(** @source controls/operators/timeComparePivotOperator.ts 30-58 timeComparePivotOperator *)
Definition timeComparePivotOperator (formData queryObject : jsobj) : result jsval :=
  metricOffsetMap ← getMetricOffsetsMap formData queryObject;
  let xAxisLabel := getXAxisLabel formData in
  comparison ← isTimeComparison formData queryObject;
  if (comparison : bool) && truthy xAxisLabel then
    let aggregates :=
      object_of (avalues metricOffsetMap ++ (JStr <$> akeys metricOffsetMap))
        (λ _, mean_aggregate) in
    Ok (rule "pivot"
          [("index", JArr [xAxisLabel]);
           ("columns", JArr (series_labels queryObject));
           ("drop_missing_columns",
             JBool (negb (truthy (ofield "show_empty_columns" formData))));
           ("aggregates", JObj aggregates)])
  else Ok JUndef.

(** The pair pushed for one entry of the metric offset map.

    @source controls/operators/renameOperator.ts 67-81 forEach *)
Definition rename_pair (formData : jsobj) (metrics timeOffsets : list jsval)
    (entry : string * jsval) : string * jsval :=
  let '(metricWithOffset, metricOnly) := entry in
  let offsetLabel :=
    default JUndef
      (List.find (λ offset, includes (to_string offset) metricWithOffset) timeOffsets) in
  (if is_comparison (ofield "comparison_type" formData) Values then metricWithOffset
   else join_values TIME_COMPARISON_SEPARATOR
          [ofield "comparison_type" formData; metricOnly; JStr metricWithOffset],
   if 1 <? length metrics
   then JStr (to_string metricOnly +:+ ", " +:+ to_string offsetLabel)
   else offsetLabel).

(** The pairs for the shifted metrics, empty outside a time comparison. *)
Definition offset_pairs (formData queryObject : jsobj) (isTimeComparisonValue : bool)
    : result (list (string * jsval)) :=
  if isTimeComparisonValue then
    metricOffsetMap ← getMetricOffsetsMap formData queryObject;
    Ok (rename_pair formData (ensureIsArray (ofield "metrics" queryObject))
          (ensureIsArray (ofield "time_compare" formData)) <$> (metricOffsetMap : list _))
  else Ok [].

(** @source controls/operators/renameOperator.ts 31-111 renameOperator *)
Definition renameOperator (formData queryObject : jsobj) : result jsval :=
  let metrics := ensureIsArray (ofield "metrics" queryObject) in
  let columns :=
    ensureIsArray (js_or (ofield "series_columns" queryObject) (ofield "columns" queryObject)) in
  let timeOffsets := ensureIsArray (ofield "time_compare" formData) in
  let truncate_metric := ofield "truncate_metric" formData in
  let xAxisLabel := getXAxisLabel formData in
  isTimeComparisonValue ← isTimeComparison formData queryObject;
  if (0 <? length metrics) && truthy xAxisLabel &&
     (isTimeComparisonValue ||
      (((0 <? length columns) || (1 <? length timeOffsets)) &&
       negb (is_undefined truncate_metric) && truthy truncate_metric)) then
    renamePairs ← offset_pairs formData queryObject isTimeComparisonValue;
    renamePairs ←
      (if negb (existsb (is_comparison (ofield "comparison_type" formData))
                  [Difference; Percentage; Ratio]) &&
          (length metrics =? 1) && (length renamePairs =? 0) then
         label ← getMetricLabel (default JUndef (head metrics));
         Ok [(to_string label, JNull)]
       else Ok renamePairs);
    if length renamePairs =? 0 then Ok JUndef
    else
      Ok (rule "rename"
            [("columns", JObj (from_entries renamePairs));
             ("level", JNum (num_of_Z 0));
             ("inplace", JBool true)])
  else Ok JUndef.

(** @source controls/operators/resampleOperator.ts 24-42 resampleOperator *)
Definition resampleOperator (formData queryObject : jsobj) : result jsval :=
  let resampleZeroFill := is_str (ofield "resample_method" formData) "zerofill" in
  let resampleMethod :=
    if resampleZeroFill then JStr "asfreq" else ofield "resample_method" formData in
  let resampleRule := ofield "resample_rule" formData in
  if truthy resampleMethod && truthy resampleRule then
    Ok (rule "resample"
          [("method", resampleMethod);
           ("rule", resampleRule);
           ("fill_value", if resampleZeroFill then JNum (num_of_Z 0) else JNull)])
  else Ok JUndef.

(** @source controls/operators/prophetOperator.ts 23-43 prophetOperator *)
Definition prophetOperator (formData queryObject : jsobj) : result jsval :=
  let xAxisLabel := getXAxisLabel formData in
  if truthy (ofield "forecastEnabled" formData) && truthy xAxisLabel then
    Ok (rule "prophet"
          [("time_grain", ofield "time_grain_sqla" formData);
           ("periods", JNum (parseInt (to_string (ofield "forecastPeriods" formData))));
           ("confidence_interval",
             JNum (parseFloat (to_string (ofield "forecastInterval" formData))));
           ("yearly_seasonality", ofield "forecastSeasonalityYearly" formData);
           ("weekly_seasonality", ofield "forecastSeasonalityWeekly" formData);
           ("daily_seasonality", ofield "forecastSeasonalityDaily" formData);
           ("index", xAxisLabel)])
  else Ok JUndef.

(** ** Operators on the result table *)

Section sort.
Context `{Lodash}.

(** The labels a bar chart can be sorted by. *)
Definition sortable_labels (formData : jsobj) : result (list jsval) :=
  labels ← map_result getMetricLabel (ensureIsArray (ofield "metrics" formData));
  extra ← extractExtraMetrics formData;
  extraLabels ← map_result getMetricLabel extra;
  Ok (List.filter truthy (getXAxisLabel formData :: labels ++ extraLabels)).

(** @source controls/operators/sortOperator.ts 30-66 sortOperator *)
Definition sortOperator (formData : jsobj) : result jsval :=
  sortableLabels ← sortable_labels formData;
  let x_axis_sort := ofield "x_axis_sort" formData in
  let x_axis_sort_asc := ofield "x_axis_sort_asc" formData in
  if isDefined x_axis_sort && isDefined x_axis_sort_asc &&
     set_has sortableLabels x_axis_sort &&
     isEmpty (ofield "groupby" formData) then
    if strict_eq x_axis_sort (getXAxisLabel formData) then
      Ok (rule "sort" [("is_sort_index", JBool true); ("ascending", x_axis_sort_asc)])
    else
      Ok (rule "sort" [("by", x_axis_sort); ("ascending", x_axis_sort_asc)])
  else Ok JUndef.
End sort.

(** @source controls/operators/contributionOperator.ts 23-36 contributionOperator *)
Definition contributionOperator (formData queryObject : jsobj) (time_shifts : jsval)
    : result jsval :=
  if truthy (ofield "contributionMode" formData) then
    Ok (rule "contribution"
          [("orientation", ofield "contributionMode" formData);
           ("time_shifts", time_shifts)])
  else Ok JUndef.

(** @source controls/operators/flattenOperator.ts 23-28 flattenOperator *)
Definition flattenOperator (formData queryObject : jsobj) : result jsval :=
  Ok (JObj [("operation", JStr "flatten")]).

(** @source controls/operators/rankOperator.ts 23-30 rankOperator *)
Definition rankOperator (formData queryObject : jsobj) (options : jsval) : result jsval :=
  Ok (JObj [("operation", JStr "rank"); ("options", options)]).

(** @source controls/operators/aggregateOperator.ts 28-58 aggregationOperator *)
Definition aggregationOperator (formData queryObject : jsobj) : result jsval :=
  let aggregation := with_default (ofield "aggregation" formData) (JStr "LAST_VALUE") in
  if is_str aggregation "LAST_VALUE" || is_str aggregation "raw" then Ok JUndef
  else
    let metrics := ensureIsArray (ofield "metrics" queryObject) in
    if length metrics =? 0 then Ok JUndef
    else
      aggregates ← fold_result (λ aggregates metric,
        metricLabel ← getMetricLabel metric;
        Ok (oset (to_string metricLabel)
              (JObj [("operator", aggregation); ("column", metricLabel)]) aggregates))
        [] metrics;
      Ok (rule "aggregate" [("groupby", JArr []); ("aggregates", JObj aggregates)]).

(** A match of the expression at the start of the text. *)
Definition percentiles_here (s : string) : option (string * string) :=
  let '(low, rest) := take_digits s in
  rest ← strip_prefix "/" rest;
  let '(high, rest) := take_digits rest in
  _ ← strip_prefix " percentiles" rest;
  if bool_decide (low ≠ EmptyString ∧ high ≠ EmptyString) then Some (low, high) else None.

(** [PERCENTILE_REGEX.exec(s)]: the leftmost match.  Digits are matched
    greedily, and giving one back never helps: the next pattern character is
    no digit.

    @source controls/operators/boxplotOperator.ts 28-28 PERCENTILE_REGEX *)
Fixpoint percentile_match (s : string) : option (string * string) :=
  match percentiles_here s with
  | Some m => Some m
  | None => match s with String _ s' => percentile_match s' | EmptyString => None end
  end.

(** @source controls/operators/boxplotOperator.ts 30-66 boxplotOperator *)
Definition boxplotOperator (formData queryObject : jsobj) : result jsval :=
  let groupby := ofield "groupby" formData in
  let whiskerOptions := ofield "whiskerOptions" formData in
  if truthy whiskerOptions then
    let percentileMatch := percentile_match (to_string whiskerOptions) in
    whisker ←
      (if is_str whiskerOptions "Tukey" || negb (truthy whiskerOptions)
       then Ok ("tukey", JUndef)
       else if is_str whiskerOptions "Min/max (no outliers)" then Ok ("min/max", JUndef)
       else match percentileMatch with
            | Some (low, high) =>
                Ok ("percentile", JArr [JNum (parseInt low); JNum (parseInt high)])
            | None =>
                Throw (GenericError ("Unsupported whisker type: " +:+ to_string whiskerOptions))
            end);
    metrics ← map_result getMetricLabel (ensureIsArray (ofield "metrics" queryObject));
    Ok (rule "boxplot"
          [("whisker_type", JStr whisker.1);
           ("percentiles", whisker.2);
           ("groupby", JArr (getColumnLabel <$> ensureIsArray groupby));
           ("metrics", JArr metrics)])
  else Ok JUndef.

(** @source controls/operators/histogramOperator.ts 23-40 histogramOperator *)
Definition histogramOperator (formData queryObject : jsobj) : result jsval :=
  let bins := to_number (ofield "bins" formData) in
  let groupby := with_default (ofield "groupby" formData) (JArr []) in
  let parsedBins := if isNaN bins then num_of_Z 5 else bins in
  let parsedColumn := getColumnLabel (ofield "column" formData) in
  parsedGroupBy ←
    match groupby with
    | JArr xs => Ok (getColumnLabel <$> xs)
    | JNull => Throw (TypeError "Cannot read properties of null (reading 'map')")
    | _ => Throw (TypeError "groupby.map is not a function")
    end;
  Ok (rule "histogram"
        [("column", parsedColumn);
         ("groupby", JArr parsedGroupBy);
         ("bins", JNum parsedBins);
         ("cumulative", ofield "cumulative" formData);
         ("normalize", ofield "normalize" formData)]).
