(* ===== verification/PostProcessingFacts.v ===== *)
(** * Properties of the post-processing operators

    The column names of a time comparison agree across the operators; the
    rename rule recovers the offset when no offset occurs inside another
    column name, and confuses two offsets otherwise; the column a bar chart is
    sorted by is a column of its pivot table. *)

From Stdlib Require Import Ascii String.
From stdpp Require Import base strings option numbers list.
From S2P Require Import Prelude JsObject JsNumber JsValue Lodash QueryTypes PostProcessing.

(** ** Strings *)

Lemma starts_with_refl p : starts_with p p = true.
Proof. rewrite <- (string_app_nil_r p) at 2. apply starts_with_app. Qed.

Lemma includes_suffix a p : includes p (a +:+ p) = true.
Proof.
  induction a as [|c a IH].
  - change (includes p p = true). destruct p; [done|].
    cbn [includes]. by rewrite starts_with_refl.
  - change (starts_with p (String c (a +:+ p)) || includes p (a +:+ p) = true).
    by rewrite IH, orb_true_r.
Qed.

(** ** Maps built by insertion *)

Section map_of.
Context {V : Type}.
Implicit Types (l acc : list (string * V)).

Definition asets (acc l : list (string * V)) : list (string * V) :=
  foldl (λ acc kv, aset kv.1 kv.2 acc) acc l.

Lemma elem_of_aset k v (x : string * V) acc : x ∈ aset k v acc → x = (k, v) ∨ x ∈ acc.
Proof.
  induction acc as [|[k0 v0] acc IH]; cbn [aset].
  - rewrite list_elem_of_singleton. auto.
  - case_decide; rewrite !elem_of_cons; naive_solver.
Qed.

Lemma elem_of_asets x acc l : x ∈ asets acc l → x ∈ acc ∨ x ∈ l.
Proof.
  revert acc. induction l as [|[k v] l IH]; intros acc; [by left|].
  intros [[->|]%elem_of_aset|]%IH; [right; left|by left|right; by right].
Qed.

Lemma NoDup_asets acc l : NoDup (akeys acc) → NoDup (akeys (asets acc l)).
Proof.
  revert acc. induction l as [|[k v] l IH]; intros acc H; [done|].
  by apply IH, NoDup_akeys_aset.
Qed.

Lemma elem_of_akeys_asets k acc l :
  k ∈ akeys (asets acc l) ↔ k ∈ akeys acc ∨ k ∈ akeys l.
Proof.
  revert acc. induction l as [|[k' v] l IH]; intros acc.
  - unfold akeys. cbn. split; [by left|]. intros [|?%not_elem_of_nil]; done.
  - unfold asets. cbn [foldl]. fold (asets (aset k' v acc) l).
    rewrite IH, elem_of_akeys_aset. unfold akeys. rewrite fmap_cons, elem_of_cons.
    cbn [fst]. naive_solver.
Qed.
End map_of.

Lemma aset_values {V W} (f : V → W) k v o :
  aset k (f v) (prod_map id f <$> o) = prod_map id f <$> aset k v o.
Proof.
  induction o as [|[k0 v0] o IH]; [done|].
  rewrite fmap_cons. unfold prod_map at 1. cbn [aset fst snd id].
  case_decide; [done|]. rewrite fmap_cons. by rewrite <- IH.
Qed.

Lemma elem_of_akeys_from_entries {V} k (l : list (string * V)) :
  k ∈ akeys (from_entries l) ↔ k ∈ akeys l.
Proof.
  unfold from_entries. rewrite elem_of_akeys_ospread.
  split; [intros [?%not_elem_of_nil|]; done|by right].
Qed.

Lemma elem_of_object_of l values f :
  l ∈ akeys (object_of values f) ↔ l ∈ to_string <$> values.
Proof.
  unfold object_of. rewrite elem_of_akeys_from_entries. unfold akeys.
  by rewrite <- list_fmap_compose.
Qed.

Lemma to_string_strings (xs : list string) : to_string <$> (JStr <$> xs) = xs.
Proof. induction xs as [|x xs IH]; [done|]. rewrite !fmap_cons, IH. done. Qed.

(** ** The metric offset map *)

(** The name of the column that holds metric [m] shifted by [o]. *)
Definition offset_column (m o : string) : string := m +:+ "__" +:+ o.

(** The name of the column that compares it with the metric. *)
Definition compare_column (c : ComparisonType) (m k : string) : string :=
  match c with
  | Values => k
  | _ => join "__" [ComparisonType_value c; m; k]
  end.

Definition offset_entries (ms os : list string) : list (string * string) :=
  ms ≫= λ m, (λ o, (offset_column m o, m)) <$> os.

Definition offset_map (ms os : list string) : list (string * string) :=
  asets [] (offset_entries ms os).

Lemma asets_cons {V} k v (acc l : list (string * V)) :
  asets acc ((k, v) :: l) = asets (aset k v acc) l.
Proof. done. Qed.

Lemma asets_app {V} (acc l l' : list (string * V)) : asets acc (l ++ l') = asets (asets acc l) l'.
Proof. apply foldl_app. Qed.

Lemma offset_fold_inner m os acc :
  foldl (λ mp offset, aset (join_values TIME_COMPARISON_SEPARATOR [JStr m; offset]) (JStr m) mp)
    (prod_map id JStr <$> acc) (JStr <$> os) =
  prod_map id JStr <$> asets acc ((λ o, (offset_column m o, m)) <$> os).
Proof.
  revert acc. induction os as [|o os IH]; intros acc; [done|].
  rewrite !fmap_cons, asets_cons. cbn [foldl]. rewrite <- IH. f_equal.
  by rewrite <- aset_values.
Qed.

Lemma offset_fold_outer ms os acc :
  foldl (λ mp metric,
    foldl (λ mp offset, aset (join_values TIME_COMPARISON_SEPARATOR [metric; offset]) metric mp)
      mp (JStr <$> os)) (prod_map id JStr <$> acc) (JStr <$> ms) =
  prod_map id JStr <$> asets acc (offset_entries ms os).
Proof.
  revert acc. induction ms as [|m ms IH]; intros acc; [done|].
  rewrite fmap_cons. cbn [foldl]. rewrite offset_fold_inner, IH.
  unfold offset_entries. by rewrite bind_cons, asets_app.
Qed.

Lemma elem_of_offset_entries k m ms os :
  (k, m) ∈ offset_entries ms os ↔ m ∈ ms ∧ ∃ o, o ∈ os ∧ k = offset_column m o.
Proof.
  unfold offset_entries. rewrite list_elem_of_bind. split.
  - intros (m' & (o & [= -> ->] & Ho)%list_elem_of_fmap & Hm). eauto.
  - intros (Hm & o & Ho & ->). exists m. split; [|done].
    apply list_elem_of_fmap. by exists o.
Qed.

Lemma elem_of_offset_map k m ms os :
  (k, m) ∈ offset_map ms os → m ∈ ms ∧ ∃ o, o ∈ os ∧ k = offset_column m o.
Proof.
  intros [?%not_elem_of_nil|H]%elem_of_asets; [done|]. by apply elem_of_offset_entries.
Qed.

Lemma offset_map_complete m o ms os :
  m ∈ ms → o ∈ os → offset_column m o ∈ (offset_map ms os).*1.
Proof.
  intros Hm Ho. apply elem_of_akeys_asets. right.
  apply list_elem_of_fmap. exists (offset_column m o, m). split; [done|].
  apply elem_of_offset_entries. eauto.
Qed.

Lemma offset_map_NoDup ms os : NoDup (offset_map ms os).*1.
Proof. apply NoDup_asets, NoDup_nil_2. Qed.

(** ** A form with a time comparison *)

Section time_comparison.
Context (fd qo : jsobj) (ms os : list string) (c : ComparisonType).
Hypothesis metrics_labels :
  map_result getMetricLabel (ensureIsArray (ofield "metrics" qo)) = Ok (JStr <$> ms).
Hypothesis offsets : ensureIsArray (ofield "time_compare" fd) = JStr <$> os.
Hypothesis type : ofield "comparison_type" fd = JStr (ComparisonType_value c).
Hypothesis has_metric : ms ≠ [].
Hypothesis has_offset : os ≠ [].

Lemma getMetricOffsetsMap_columns :
  getMetricOffsetsMap fd qo = Ok (prod_map id JStr <$> offset_map ms os).
Proof.
  unfold getMetricOffsetsMap. rewrite metrics_labels, bind_Ok, offsets.
  f_equal. exact (offset_fold_outer ms os []).
Qed.

Lemma offset_map_keys : akeys (prod_map id JStr <$> offset_map ms os) = (offset_map ms os).*1.
Proof. unfold akeys. rewrite <- list_fmap_compose. by apply list_fmap_ext. Qed.

Lemma offset_map_values :
  avalues (prod_map id JStr <$> offset_map ms os) = JStr <$> (offset_map ms os).*2.
Proof. unfold avalues. by rewrite <- !list_fmap_compose. Qed.

Lemma offset_map_nonempty : (0 <? length (offset_map ms os)) = true.
Proof using has_metric has_offset.
  clear -has_metric has_offset. destruct ms as [|m ms']; [done|]. destruct os as [|o os']; [done|].
  pose proof (offset_map_complete m o (m :: ms') (o :: os')) as H.
  destruct (offset_map _ _); [|done].
  exfalso. eapply not_elem_of_nil, H; left.
Qed.

Lemma isTimeComparison_true : isTimeComparison fd qo = Ok true.
Proof using All.
  unfold isTimeComparison. rewrite getMetricOffsetsMap_columns, bind_Ok, length_fmap.
  rewrite offset_map_nonempty, type. by destruct c.
Qed.

Lemma has_metrics : (0 <? length (ensureIsArray (ofield "metrics" qo))) = true.
Proof using has_metric metrics_labels.
  apply map_result_length in metrics_labels. rewrite length_fmap in metrics_labels.
  rewrite <- metrics_labels. by destruct ms.
Qed.

Lemma rename_pair_key n k s :
  (rename_pair fd n (JStr <$> os) (k, JStr s)).1 = compare_column c s k.
Proof using type. unfold rename_pair. rewrite type. by destruct c. Qed.

(** The pairs of the rename rule, one per compare column. *)
Definition rename_pairs : list (string * jsval) :=
  rename_pair fd (ensureIsArray (ofield "metrics" qo)) (JStr <$> os) <$>
    (prod_map id JStr <$> offset_map ms os).

Lemma elem_of_rename_pairs_keys l :
  l ∈ akeys rename_pairs ↔ ∃ k s, (k, s) ∈ offset_map ms os ∧ l = compare_column c s k.
Proof using type.
  unfold akeys, rename_pairs. rewrite <- !list_fmap_compose, list_elem_of_fmap. split.
  - intros ([k s] & -> & H). exists k, s. split; [done|]. apply rename_pair_key.
  - intros (k & s & H & ->). exists (k, s). split; [|done]. symmetry. apply rename_pair_key.
Qed.

Lemma renameOperator_pairs :
  truthy (getXAxisLabel fd) = true →
  renameOperator fd qo =
  Ok (rule "rename" [("columns", JObj (from_entries rename_pairs));
                     ("level", JNum (num_of_Z 0)); ("inplace", JBool true)]).
Proof using All.
  intros Hx. unfold renameOperator.
  rewrite isTimeComparison_true, bind_Ok, has_metrics, Hx. cbn [andb orb].
  unfold offset_pairs. rewrite getMetricOffsetsMap_columns, !bind_Ok, offsets.
  fold rename_pairs.
  assert ((length rename_pairs =? 0) = false) as E.
  { unfold rename_pairs. rewrite !length_fmap. pose proof offset_map_nonempty as H.
    by destruct (offset_map ms os). }
  by rewrite E, andb_false_r, bind_Ok, E.
Qed.

(** C37. Column names of a time comparison agree across the rules.  The
    compare rule lists each shifted metric column once, next to the metric it
    was shifted from; these are exactly the columns [metric__offset] for the
    metrics and offsets of the form; the pivot rule aggregates exactly the
    source and the shifted columns; and the rename rule has an entry for
    exactly the columns the comparison creates. *)
Theorem time_comparison_columns :
  c ≠ Values → truthy (getXAxisLabel fd) = true →
  ∃ cols : list (string * string),
    NoDup cols.*1 ∧
    (∀ k m, (k, m) ∈ cols → m ∈ ms ∧ ∃ o, o ∈ os ∧ k = offset_column m o) ∧
    (∀ m o, m ∈ ms → o ∈ os → offset_column m o ∈ cols.*1) ∧
    timeCompareOperator fd qo =
      Ok (rule "compare" [("source_columns", JArr (JStr <$> cols.*2));
                          ("compare_columns", JArr (JStr <$> cols.*1));
                          ("compare_type", JStr (ComparisonType_value c));
                          ("drop_original_columns", JBool true)]) ∧
    (∃ drop aggregates,
       timeComparePivotOperator fd qo =
         Ok (rule "pivot" [("index", JArr [getXAxisLabel fd]);
                           ("columns", JArr (series_labels qo));
                           ("drop_missing_columns", JBool drop);
                           ("aggregates", JObj aggregates)]) ∧
       ∀ l, l ∈ akeys aggregates ↔ l ∈ cols.*2 ∨ l ∈ cols.*1) ∧
    (∃ names,
       renameOperator fd qo =
         Ok (rule "rename" [("columns", JObj names);
                            ("level", JNum (num_of_Z 0)); ("inplace", JBool true)]) ∧
       ∀ l, l ∈ akeys names ↔ ∃ k m, (k, m) ∈ cols ∧ l = compare_column c m k).
Proof using All.
  intros Hc Hx. exists (offset_map ms os).
  split; [apply offset_map_NoDup|]. split; [intros k m; apply elem_of_offset_map|].
  split; [intros m o; by apply offset_map_complete|]. split; [|split].
  - unfold timeCompareOperator.
    rewrite getMetricOffsetsMap_columns, isTimeComparison_true, !bind_Ok, type.
    rewrite offset_map_keys, offset_map_values. by destruct c.
  - do 2 eexists. split.
    + unfold timeComparePivotOperator.
      rewrite getMetricOffsetsMap_columns, isTimeComparison_true, !bind_Ok, Hx.
      reflexivity.
    + intros l. rewrite elem_of_object_of, offset_map_keys, offset_map_values.
      by rewrite fmap_app, elem_of_app, !to_string_strings.
  - eexists. split; [by apply renameOperator_pairs|].
    intros l. by rewrite elem_of_akeys_from_entries, elem_of_rename_pairs_keys.
Qed.
(** *** The names the rename rule gives *)

(** No offset occurs in the column of another one. *)
Definition offsets_apart : Prop :=
  ∀ m o o', m ∈ ms → o ∈ os → o' ∈ os → includes o' (offset_column m o) = true → o' = o.

Lemma offset_column_suffix m o : offset_column m o = (m +:+ "__") +:+ o.
Proof. unfold offset_column. by rewrite string_app_assoc. Qed.

(** Columns whose names end alike have the same offset. *)
Lemma offsets_apart_suffix a b m m' o o' :
  offsets_apart → m ∈ ms → m' ∈ ms → o ∈ os → o' ∈ os → a +:+ o = b +:+ o' → o = o'.
Proof.
  intros Hap Hm Hm' Ho Ho' [[d E]|[d E]]%string_suffix_or.
  - symmetry. apply (Hap m); [done..|].
    rewrite offset_column_suffix, E, string_app_assoc. apply includes_suffix.
  - apply (Hap m'); [done..|].
    rewrite offset_column_suffix, E, string_app_assoc. apply includes_suffix.
Qed.

Lemma compare_column_suffix m o :
  compare_column c m (offset_column m o) =
  match c with
  | Values => m +:+ "__"
  | _ => (ComparisonType_value c +:+ "__") +:+ m +:+ "__" +:+ m +:+ "__"
  end +:+ o.
Proof.
  unfold compare_column, offset_column.
  destruct c; cbn [join]; rewrite ?string_app_assoc; done.
Qed.

Lemma compare_column_inj m m' o o' :
  offsets_apart → m ∈ ms → m' ∈ ms → o ∈ os → o' ∈ os →
  compare_column c m (offset_column m o) = compare_column c m' (offset_column m' o') →
  m = m' ∧ o = o'.
Proof.
  intros Hap Hm Hm' Ho Ho'. rewrite !compare_column_suffix. intros E.
  assert (o = o') as <- by (eapply (offsets_apart_suffix _ _ m m'); eauto).
  apply string_app_inj_r in E. split; [|done].
  destruct c; [by apply string_app_inj_r in E|..]; apply (inj _) in E;
    (eapply string_app_length_inj, proj1 in E; [exact E|]);
    apply (f_equal String.length) in E; rewrite !string_length_app in E; simpl in E; lia.
Qed.

Lemma find_offset m o :
  offsets_apart → m ∈ ms → o ∈ os →
  List.find (λ offset, includes (to_string offset) (offset_column m o)) (JStr <$> os) =
  Some (JStr o).
Proof.
  intros Hap Hm Ho. destruct (List.find _ _) as [v|] eqn:E.
  - apply find_some in E as [Hin Hv]. apply list_elem_of_In in Hin.
    apply list_elem_of_fmap in Hin as (o' & -> & Ho'). f_equal. f_equal. by apply (Hap m).
  - exfalso. assert (In (JStr o) (JStr <$> os)) as Hin.
    { apply list_elem_of_In, list_elem_of_fmap. by exists o. }
    apply (find_none _ _ E) in Hin. cbn [to_string] in Hin.
    by rewrite offset_column_suffix, includes_suffix in Hin.
Qed.

(** The label of metric [m] shifted by [o]. *)
Definition offset_label (m o : string) : jsval :=
  if 1 <? length ms then JStr (m +:+ ", " +:+ o) else JStr o.

Lemma rename_pair_apart m o :
  offsets_apart → m ∈ ms → o ∈ os →
  rename_pair fd (ensureIsArray (ofield "metrics" qo)) (JStr <$> os)
    (offset_column m o, JStr m) =
  (compare_column c m (offset_column m o), offset_label m o).
Proof.
  intros Hap Hm Ho. rewrite (surjective_pairing (rename_pair _ _ _ _)), rename_pair_key.
  f_equal. unfold rename_pair. rewrite find_offset by done. cbn [snd default to_string].
  unfold offset_label. pose proof (map_result_length _ _ _ metrics_labels) as Hl.
  rewrite length_fmap in Hl. by rewrite <- Hl.
Qed.

Lemma rename_pairs_NoDup : offsets_apart → NoDup (akeys rename_pairs).
Proof.
  intros Hap. unfold akeys, rename_pairs. rewrite <- !list_fmap_compose.
  apply NoDup_fmap_2_strong; [|eapply NoDup_fmap_1, offset_map_NoDup].
  intros [k m] [k' m'] Hk Hk' E.
  change ((rename_pair fd (ensureIsArray (ofield "metrics" qo)) (JStr <$> os) (k, JStr m)).1 =
          (rename_pair fd (ensureIsArray (ofield "metrics" qo)) (JStr <$> os) (k', JStr m')).1)
    in E.
  rewrite !rename_pair_key in E. apply elem_of_offset_map in Hk as (? & o & ? & ->).
  apply elem_of_offset_map in Hk' as (? & o' & ? & ->).
  apply compare_column_inj in E as [-> ->]; done.
Qed.

(** Renaming recovers the offset.  When no offset occurs inside the column
    of another one, the rename rule maps the column of each metric and offset
    (the shifted column for actual values, the comparison column otherwise)
    to the offset, prefixed by the metric when there are several metrics. *)
Theorem renameOperator_labels :
  offsets_apart → truthy (getXAxisLabel fd) = true →
  ∃ names,
    renameOperator fd qo =
      Ok (rule "rename" [("columns", JObj names);
                         ("level", JNum (num_of_Z 0)); ("inplace", JBool true)]) ∧
    ∀ m o, m ∈ ms → o ∈ os →
      aget (compare_column c m (offset_column m o)) names = Some (offset_label m o).
Proof using All.
  intros Hap Hx. eexists. split; [by apply renameOperator_pairs|]. intros m o Hm Ho.
  rewrite aget_from_entries by by apply rename_pairs_NoDup.
  apply elem_aget; [by apply rename_pairs_NoDup|].
  pose proof (offset_map_complete m o ms os Hm Ho) as Hin.
  apply list_elem_of_fmap in Hin as ([k m'] & Hk & Hin). cbn in Hk. subst k.
  pose proof (elem_of_offset_map _ _ _ _ Hin) as (Hm' & o' & Ho' & E).
  rewrite !offset_column_suffix in E.
  assert (o = o') as <- by (eapply (offsets_apart_suffix _ _ m m'); eauto).
  apply string_app_inj_r, string_app_inj_r in E as <-.
  rewrite <- rename_pair_apart by done.
  unfold rename_pairs. apply list_elem_of_fmap. eexists. split; [done|].
  apply list_elem_of_fmap. by exists (offset_column m o, m).
Qed.
End time_comparison.

(** A form that compares two metrics with two earlier periods. *)
Definition comparison_form : jsobj :=
  [("granularity_sqla", JStr "ds"); ("comparison_type", JStr "difference");
   ("time_compare", JArr [JStr "1 week ago"; JStr "2 weeks ago"])].

Definition comparison_query : jsobj :=
  [("metrics", JArr [JStr "count";
      JObj [("expressionType", JStr "SIMPLE"); ("aggregate", JStr "SUM");
            ("column", JObj [("column_name", JStr "num")])]])].

Lemma time_comparison_columns_witness :
  ∃ cols,
    timeCompareOperator comparison_form comparison_query =
      Ok (rule "compare" [("source_columns", JArr (JStr <$> cols.*2));
                          ("compare_columns", JArr (JStr <$> cols.*1));
                          ("compare_type", JStr "difference");
                          ("drop_original_columns", JBool true)]) ∧
    "SUM(num)__2 weeks ago" ∈ cols.*1.
Proof.
  destruct (time_comparison_columns comparison_form comparison_query
    ["count"; "SUM(num)"] ["1 week ago"; "2 weeks ago"] Difference)
    as (cols & _ & _ & Hall & Hop & _); try done.
  exists cols. split; [exact Hop|].
  apply (Hall "SUM(num)" "2 weeks ago"); solve_decided.
Defined.

Lemma renameOperator_labels_witness :
  ∃ names,
    renameOperator comparison_form comparison_query =
      Ok (rule "rename" [("columns", JObj names);
                         ("level", JNum (num_of_Z 0)); ("inplace", JBool true)]) ∧
    aget "difference__SUM(num)__SUM(num)__1 week ago" names =
      Some (JStr "SUM(num), 1 week ago").
Proof.
  destruct (renameOperator_labels comparison_form comparison_query
    ["count"; "SUM(num)"] ["1 week ago"; "2 weeks ago"] Difference)
    as (names & Hop & Hall); try done.
  - intros m o o' Hm Ho Ho'.
    repeat match goal with
    | H : _ ∈ _ :: _ |- _ => apply elem_of_cons in H as [->|H]
    | H : _ ∈ [] |- _ => by apply not_elem_of_nil in H
    end; done.
  - exists names. split; [exact Hop|].
    apply (Hall "SUM(num)" "1 week ago"); solve_decided.
Defined.

(** The offset is searched for as a substring, so that an offset inside
    another one captures its column: with [1 week ago] and [11 week ago] both
    columns are renamed to [1 week ago]. *)
Lemma renameOperator_offset_collision :
  renameOperator
    [("granularity_sqla", JStr "ds"); ("comparison_type", JStr "values");
     ("time_compare", JArr [JStr "1 week ago"; JStr "11 week ago"])]
    [("metrics", JArr [JStr "count"])] =
  Ok (rule "rename"
        [("columns", JObj [("count__1 week ago", JStr "1 week ago");
                           ("count__11 week ago", JStr "1 week ago")]);
         ("level", JNum (num_of_Z 0)); ("inplace", JBool true)]).
Proof. vm_compute. reflexivity. Qed.

(** A rolling window names the columns by [metric.label], the pivot table by
    [getMetricLabel]: for a metric without a label they differ. *)
Lemma rollingWindowOperator_unlabelled :
  rollingWindowOperator [("rolling_type", JStr "cumsum")]
    [("metrics", JArr [JObj [("expressionType", JStr "SQL");
                             ("sqlExpression", JStr "SUM(x)")]])] =
    Ok (rule "cum" [("operator", JStr "sum");
                    ("columns", JObj [("undefined", JUndef)])]) ∧
  pivot_labels []
    [("metrics", JArr [JObj [("expressionType", JStr "SQL");
                             ("sqlExpression", JStr "SUM(x)")]])] = Ok [JStr "SUM(x)"].
Proof. by vm_compute. Qed.

(** ** Sorting a pivot table *)

Lemma map_result_app {A B} (f : A → result B) xs ys us vs :
  map_result f xs = Ok us → map_result f ys = Ok vs →
  map_result f (xs ++ ys) = Ok (us ++ vs).
Proof.
  revert us. induction xs as [|x xs IH]; intros us.
  - intros [= <-] Hys. exact Hys.
  - cbn [map_result app]. intros (u & Hu & H)%bind_Ok_inv.
    apply bind_Ok_inv in H as (us' & Hus & [= <-]). intros Hys.
    by rewrite Hu, (IH us' Hus Hys), !bind_Ok.
Qed.

Lemma aget_object_of l values (v : jsval) :
  l ∈ to_string <$> values → aget l (object_of values (λ _, v)) = Some v.
Proof.
  intros Hin. apply elem_of_object_of with (f := λ _, v) in Hin.
  apply aget_is_Some in Hin as [w Hw]. rewrite Hw. f_equal.
  assert (∀ acc vs, (∀ x, x ∈ avalues acc → x = v) →
    ∀ x, x ∈ avalues (ospread acc ((λ u, (to_string u, v)) <$> vs)) → x = v) as Hall.
  { intros acc vs. revert acc. induction vs as [|u vs IH]; intros acc Hacc; [exact Hacc|].
    rewrite fmap_cons. apply IH. intros x (k & Hk)%elem_of_avalues.
    unfold oset in Hk. cbn [fst snd] in Hk. destruct (aget (to_string u) acc) eqn:E.
    - apply elem_of_aset in Hk as [[= _ ->]|Hk]; [done|].
      apply Hacc, elem_of_avalues. eauto.
    - destruct (array_index (to_string u)).
      + rewrite insert_index_Permutation in Hk. apply elem_of_cons in Hk as [[= _ ->]|Hk];
          [done|]. apply Hacc, elem_of_avalues. eauto.
      + apply elem_of_app in Hk as [Hk|[= _ ->]%list_elem_of_singleton]; [|done].
        apply Hacc, elem_of_avalues. eauto. }
  eapply (Hall [] values); [by intros x ?%not_elem_of_nil|].
  apply elem_of_avalues. exists l. by apply aget_Some_elem.
Qed.

Section sort_pivot.
Context `{Lodash} (fd qo : jsobj).
Hypothesis same_metrics : ofield "metrics" fd = ofield "metrics" qo.

Lemma sortable_labels_pivot labels s :
  sortable_labels fd = Ok labels → JStr s ∈ labels → getXAxisLabel fd ≠ JStr s →
  ∃ ps, pivot_labels fd qo = Ok ps ∧ JStr s ∈ ps.
Proof using same_metrics.
  unfold sortable_labels. intros (ms & Hms & Hs)%bind_Ok_inv.
  apply bind_Ok_inv in Hs as (extra & Hex & Hs).
  apply bind_Ok_inv in Hs as (es & Hes & Hs).
  assert (labels = List.filter truthy (getXAxisLabel fd :: ms ++ es)) as -> by congruence.
  intros Hin Hne. apply list_elem_of_In, filter_In in Hin as [Hin _]. apply list_elem_of_In in Hin.
  apply elem_of_cons in Hin as [Hin|Hin]; [by rewrite Hin in Hne|]. exists (ms ++ es). split; [|done].
  unfold pivot_labels. rewrite Hex, bind_Ok, <- same_metrics. by apply map_result_app.
Qed.

(** The column a bar chart is sorted by is a column of its pivot table.
    When the sort rule sorts by a metric label (and not by the index), the
    form and the query have the same metrics and the chart has an x axis,
    the pivot rule applies and aggregates that label: also when it is the
    label of the sort metric, which is not among the metrics. *)
Theorem sortOperator_column_in_pivot s ascending :
  truthy (getXAxisLabel fd) = true →
  sortOperator fd = Ok (rule "sort" [("by", JStr s); ("ascending", ascending)]) →
  ∃ drop aggregates,
    pivotOperator fd qo =
      Ok (rule "pivot" [("index", JArr [getXAxisLabel fd]);
                        ("columns", JArr (series_labels qo));
                        ("aggregates", JObj aggregates);
                        ("drop_missing_columns", JBool drop)]) ∧
    aget s aggregates = Some mean_aggregate.
Proof using same_metrics.
  intros Hx. unfold sortOperator. intros (labels & Hl & Hs)%bind_Ok_inv.
  destruct (isDefined _ && _ && _ && _) eqn:E; [|done].
  apply andb_prop in E as [[_ Hin]%andb_prop _].
  destruct (strict_eq _ _) eqn:Ene; [done|]. injection Hs as Hs _.
  rewrite Hs in Hin, Ene. apply set_has_str in Hin.
  destruct (sortable_labels_pivot labels s Hl Hin) as (ps & Hps & Hsp).
  { intros E. rewrite E in Ene. cbn in Ene. by rewrite bool_decide_true in Ene. }
  unfold pivotOperator. rewrite Hps, bind_Ok, Hx.
  destruct ps as [|p ps]; [by apply not_elem_of_nil in Hsp|]. cbn [length Nat.ltb andb].
  do 2 eexists. split; [reflexivity|]. apply aget_object_of.
  apply list_elem_of_fmap. by exists (JStr s).
Qed.
End sort_pivot.

Lemma sortOperator_column_in_pivot_witness :
  ∃ drop aggregates,
    pivotOperator
      [("x_axis", JStr "state"); ("metrics", JArr [JStr "count"]);
       ("timeseries_limit_metric", JStr "avg__age"); ("x_axis_sort", JStr "avg__age");
       ("x_axis_sort_asc", JBool true)]
      [("metrics", JArr [JStr "count"])] =
      Ok (rule "pivot" [("index", JArr [JStr "state"]); ("columns", JArr []);
                        ("aggregates", JObj aggregates);
                        ("drop_missing_columns", JBool drop)]) ∧
    aget "avg__age" aggregates = Some mean_aggregate.
Proof.
  apply (sortOperator_column_in_pivot
    [("x_axis", JStr "state"); ("metrics", JArr [JStr "count"]);
     ("timeseries_limit_metric", JStr "avg__age"); ("x_axis_sort", JStr "avg__age");
     ("x_axis_sort_asc", JBool true)]
    [("metrics", JArr [JStr "count"])]) with (ascending := JBool true);
    vm_compute; reflexivity.
Defined.
