(* ===== verification/ReduxUtils.v ===== *)
(** * Redux helpers

    [app/reduxUtils.ts]: updates of an array or of an object held under a key
    of a state object, and the equality test the reducers use.  The generator
    of fresh identifiers (the package nanoid) is a parameter. *)

From Stdlib Require Import String.
From stdpp Require Import base strings option numbers list.
From S2P Require Import Prelude JsObject JsNumber JsValue Lodash QueryTypes Query.

(** The array under a key of the state. *)
Definition state_array (state : jsobj) (arrKey : string) : result (list jsval) :=
  for_each_items (ofield arrKey state).

(** [{...obj}] with an [id] that is not empty; [nanoid] supplies the new one. *)
Definition with_id (nanoid : string) (obj : jsobj) : jsobj :=
  if truthy (ofield "id" obj) then obj else oset "id" (JStr nanoid) obj.

(** @source app/reduxUtils.ts 25-38 addToObject *)
Definition addToObject (nanoid : string) (state : jsobj) (arrKey : string) (obj : jsobj) : jsobj :=
  let newObject := object_entries (ofield arrKey state) in
  let copiedObject := with_id nanoid obj in
  let newObject := oset (to_string (ofield "id" copiedObject)) (JObj copiedObject) newObject in
  oset arrKey (JObj newObject) state.

(** @source app/reduxUtils.ts 40-49 alterInObject *)
Definition alterInObject (state : jsobj) (arrKey : string) (obj alterations : jsobj) : jsobj :=
  let newObject := object_entries (ofield arrKey state) in
  let id := to_string (ofield "id" obj) in
  let newObject :=
    oset id (JObj (ospread (object_entries (ofield id newObject)) alterations)) newObject in
  oset arrKey (JObj newObject) state.

(** @source app/reduxUtils.ts 51-69 alterInArr *)
Definition alterInArr (state : jsobj) (arrKey : string) (obj alterations : jsobj) (idKey : string)
    : result jsobj :=
  items ← state_array state arrKey;
  newArr ← map_result (λ arrItem,
    itemId ← field idKey arrItem;
    if strict_eq (ofield idKey obj) itemId
    then Ok (JObj (ospread (object_entries arrItem) alterations)) else Ok arrItem) items;
  Ok (oset arrKey (JArr newArr) state).

(** @source app/reduxUtils.ts 71-84 removeFromArr *)
Definition removeFromArr (state : jsobj) (arrKey : string) (obj : jsobj) (idKey : string)
    : result jsobj :=
  items ← state_array state arrKey;
  newArr ← fold_result (λ newArr arrItem,
    itemId ← field idKey arrItem;
    if strict_eq (ofield idKey obj) itemId then Ok newArr else Ok (newArr ++ [arrItem])) [] items;
  Ok (oset arrKey (JArr newArr) state).

(** The last match wins.

    @source app/reduxUtils.ts 86-98 getFromArr *)
Definition getFromArr (arr : list jsval) (id : string) (idKey : string) : result jsval :=
  fold_result (λ obj o,
    itemId ← field idKey o;
    if strict_eq itemId (JStr id) then Ok o else Ok obj) JUndef arr.

(** @source app/reduxUtils.ts 100-117 addToArr *)
Definition addToArr (nanoid : string) (state : jsobj) (arrKey : string) (obj : jsobj)
    (prepend : bool) : result jsobj :=
  let newObj := JObj (with_id nanoid obj) in
  items ← spread_items (ofield arrKey state);
  Ok (oset arrKey (JArr (if prepend then newObj :: items else items ++ [newObj])) state).

(** The elements get their [id] in place, so the array that was passed in shows
    the new elements too: the second component is that array afterwards.

    @source app/reduxUtils.ts 119-139 extendArr *)
Definition extendArr (nanoid : nat → string) (state : jsobj) (arrKey : string) (arr : list jsobj)
    (prepend : bool) : result (jsobj * list jsobj) :=
  let newArr := imap (λ i el, with_id (nanoid i) el) arr in
  items ← spread_items (ofield arrKey state);
  let elements := JObj <$> newArr in
  Ok (oset arrKey (JArr (if prepend then elements ++ items else items ++ elements)) state, newArr).

(** @source app/reduxUtils.ts 165-183 areArraysShallowEqual *)
Definition areArraysShallowEqual (arr1 arr2 : option (list jsval)) : bool :=
  match arr1, arr2 with
  | Some a, Some b =>
      if bool_decide (length a ≠ length b) then false
      else forallb (λ xy, strict_eq xy.1 xy.2) (zip a b)
  | _, _ => false
  end.

Record equal_opts := {
  ignoreUndefined : bool;
  ignoreNull : bool;
  ignoreFields : list string;
}.

Definition default_opts : equal_opts :=
  {| ignoreUndefined := false; ignoreNull := false; ignoreFields := [] |}.

Definition ignoring_undefined : equal_opts :=
  {| ignoreUndefined := true; ignoreNull := false; ignoreFields := [] |}.

(** @source app/reduxUtils.ts 185-214 areObjectsEqual *)
Definition areObjectsEqual `{Lodash} (obj1 obj2 : jsval) (opts : equal_opts) : bool :=
  let drop (on : bool) (p : jsval → bool) v := if on then JObj (omitBy v p) else v in
  let comp1 := drop (ignoreUndefined opts) is_undefined obj1 in
  let comp2 := drop (ignoreUndefined opts) is_undefined obj2 in
  let comp1 := drop (ignoreNull opts) (λ i, strict_eq i JNull) comp1 in
  let comp2 := drop (ignoreNull opts) (λ i, strict_eq i JNull) comp2 in
  if bool_decide (ignoreFields opts ≠ []) then
    let without v := JArr ((λ value, omit_value value (ignoreFields opts)) <$> ensureIsArray v) in
    isEqualWith comp1 comp2 (λ val1 val2, Some (isEqual (without val1) (without val2)))
  else isEqual comp1 comp2.

(** ** Arrays of identified items *)

Section arrays.
Implicit Types (items : list jsval) (id : string).

(** The items are objects. *)
Definition objects items : Prop := Forall (λ v, ∃ o, v = JObj o) items.

Definition has_id idKey id (v : jsval) : Prop := opt_field idKey v = JStr id.

#[export] Instance has_id_dec idKey id v : Decision (has_id idKey id v).
Proof. unfold has_id. apply _. Defined.

Lemma field_object k o : field k (JObj o) = Ok (ofield k o).
Proof. done. Qed.

Lemma getFromArr_spec items id idKey acc :
  objects items →
  fold_result (λ obj o,
    itemId ← field idKey o;
    if strict_eq itemId (JStr id) then Ok o else Ok obj) acc items =
  Ok (default acc (last (filter (has_id idKey id) items))).
Proof.
  intros Ho. revert acc. induction Ho as [|v items [o ->] _ IH]; intros acc; [done|].
  cbn [fold_result]. rewrite field_object, bind_Ok. rewrite filter_cons.
  destruct (strict_eq (ofield idKey o) (JStr id)) eqn:E.
  - apply strict_eq_str in E. rewrite bind_Ok, IH. rewrite decide_True by done.
    rewrite last_cons. by destruct (last _).
  - rewrite bind_Ok, IH. rewrite decide_False; [done|].
    intros Hid. unfold has_id in Hid. simpl in Hid. rewrite Hid in E.
    by rewrite (proj2 (strict_eq_str _ _) eq_refl) in E.
Qed.

Lemma removeFromArr_spec items id idKey (obj : jsobj) acc :
  objects items → ofield idKey obj = JStr id →
  fold_result (λ newArr arrItem,
    itemId ← field idKey arrItem;
    if strict_eq (ofield idKey obj) itemId then Ok newArr else Ok (newArr ++ [arrItem])) acc items =
  Ok (acc ++ filter (λ v, ¬ has_id idKey id v) items).
Proof.
  intros Ho Hid. rewrite Hid. revert acc.
  induction Ho as [|v items [o ->] _ IH]; intros acc; [by rewrite app_nil_r|].
  cbn [fold_result]. rewrite field_object, bind_Ok, filter_cons.
  destruct (strict_eq (JStr id) (ofield idKey o)) eqn:E.
  - rewrite bind_Ok, IH. rewrite decide_False; [done|]. intros Hn. apply Hn.
    unfold has_id. simpl. destruct (ofield idKey o); try done. simpl in E.
    apply bool_decide_eq_true in E. by subst.
  - rewrite bind_Ok, IH, <- app_assoc. rewrite decide_True; [done|].
    intros Hn. unfold has_id in Hn. simpl in Hn. rewrite Hn in E. simpl in E.
    by rewrite bool_decide_eq_true_2 in E.
Qed.
End arrays.

(** Identified items of a state array can be looked up after an update:
    an item that was appended is found under its id, a removed id is no longer
    found, and looking up any other id is not affected by either. *)
Theorem redux_array_lookup state arrKey items idKey id (o : jsobj) nanoid :
  ofield arrKey state = JArr items → objects items →
  ofield idKey o = JStr id → id ≠ EmptyString → truthy (ofield "id" o) = true →
  ∃ added removed,
    addToArr nanoid state arrKey o false = Ok added ∧
    removeFromArr state arrKey o idKey = Ok removed ∧
    getFromArr (array_items (ofield arrKey added)) id idKey = Ok (JObj o) ∧
    getFromArr (array_items (ofield arrKey removed)) id idKey = Ok JUndef ∧
    ∀ id', id' ≠ id →
      getFromArr (array_items (ofield arrKey added)) id' idKey = getFromArr items id' idKey ∧
      getFromArr (array_items (ofield arrKey removed)) id' idKey = getFromArr items id' idKey.
Proof.
  intros Hitems Hobj Hid Hne Htruthy.
  exists (oset arrKey (JArr (items ++ [JObj o])) state),
         (oset arrKey (JArr (filter (λ v, ¬ has_id idKey id v) items)) state).
  assert (Hobj' : objects (items ++ [JObj o])).
  { apply Forall_app. split; [done|]. apply Forall_singleton. by exists o. }
  assert (Hobj'' : objects (filter (λ v, ¬ has_id idKey id v) items)).
  { apply Forall_forall. intros v [_ Hv]%list_elem_of_filter.
    revert Hobj. unfold objects. rewrite Forall_forall. auto. }
  split; [unfold addToArr; rewrite Hitems; unfold with_id; by rewrite Htruthy|].
  split.
  { unfold removeFromArr, state_array. rewrite Hitems. cbn [for_each_items]. rewrite bind_Ok.
    by rewrite (removeFromArr_spec _ id) by done. }
  rewrite !ofield_oset, !decide_True by done. cbn [array_items]. unfold getFromArr.
  rewrite !getFromArr_spec by done. split; [|split].
  - rewrite filter_app, filter_cons, decide_True by done. rewrite filter_nil. by rewrite last_snoc.
  - rewrite list_filter_filter. rewrite (list_filter_iff _ (λ _, False)) by tauto.
    replace (filter (λ _ : jsval, False) items) with (@nil jsval); [done|].
    clear. induction items; [done|]. by rewrite filter_cons.
  - intros id' Hid'. rewrite !getFromArr_spec by done. split.
    + rewrite filter_app, filter_cons, decide_False by
        (unfold has_id; simpl; congruence). by rewrite filter_nil, app_nil_r.
    + rewrite list_filter_filter. do 3 f_equal. apply list_filter_iff.
      intros v. unfold has_id. naive_solver congruence.
Qed.

Lemma redux_array_lookup_witness :
  getFromArr [JObj [("id", JStr "a")]] "a" "id" = Ok (JObj [("id", JStr "a")]) ∧
  ∃ removed,
    removeFromArr [("xs", JArr [JObj [("id", JStr "a")]])] "xs" [("id", JStr "a")] "id" = Ok removed ∧
    getFromArr (array_items (ofield "xs" removed)) "a" "id" = Ok JUndef.
Proof.
  split; [reflexivity|].
  destruct (redux_array_lookup [("xs", JArr [JObj [("id", JStr "a")]])] "xs"
    [JObj [("id", JStr "a")]] "id" "a" [("id", JStr "a")] "n")
    as (added & removed & _ & Hr & _ & Hg & _); try reflexivity; try discriminate.
  - apply Forall_singleton. eexists. reflexivity.
  - exists removed. split; [exact Hr|exact Hg].
Defined.
