(* ===== verification/DataMask.v ===== *)
(** * The data mask reducer

    [app/dataMask/reducer.ts] and [actions.ts]: the redux state that holds, for
    every native filter and every chart that filters others, the mask it
    applies.  The state is an object from ids to masks. *)

From Stdlib Require Import String.
From stdpp Require Import base strings option numbers list.
From S2P Require Import Prelude JsObject JsNumber JsValue Lodash QueryTypes Query ReduxUtils.

(** The package immer: [produce(recipe, initial)] is a reducer that runs the
    recipe on a draft of the state, without changing the state itself, and
    returns what the recipe returns. *)
Class Immer := {
  produce : ∀ {S A : Type}, (S → A → result S) → S → option S → A → result S;
  produce_recipe : ∀ (S A : Type) (recipe : S → A → result S) initial state action,
    produce recipe initial state action = recipe (default initial state) action;
}.

#[export, refine] Instance immer_reference : Immer := {
  produce S A recipe initial state action := recipe (default initial state) action;
}.
Proof. done. Defined.

(** @source app/dashboard/components/nativeFilters/FiltersConfigModal/utils.ts 203-203 NATIVE_FILTER_PREFIX *)
Definition NATIVE_FILTER_PREFIX : string := "NATIVE_FILTER-".

(** @source app/dashboard/components/nativeFilters/FiltersConfigModal/utils.ts 204-204 NATIVE_FILTER_DIVIDER_PREFIX *)
Definition NATIVE_FILTER_DIVIDER_PREFIX : string := "NATIVE_FILTER_DIVIDER-".

(** @source app/dataMask/reducer.ts 50-61 getInitialDataMask *)
Definition getInitialDataMask (id : jsval) (moreProps : jsobj) : jsobj :=
  ospread
    ((if is_undefined id then [] else [("id", id)]) ++
     [("extraFormData", JObj []); ("filterState", JObj []); ("ownState", JObj [])])
    moreProps.

(** The masks in the state that are not those of native filters are put back.

    @source app/dataMask/reducer.ts 92-97 fillNativeFilters (other filters) *)
Definition restore_others (draftDataMask mergedDataMask : jsobj) : jsobj :=
  foldl (λ merged filter,
    let id := to_string (opt_field "id" filter) in
    if starts_with NATIVE_FILTER_PREFIX id then merged else oset id filter merged)
    mergedDataMask (avalues draftDataMask).

(** @source app/dataMask/reducer.ts 70-90 fillNativeFilters (one filter) *)
Definition fill_native_filter `{Lodash} (initialDataMask currentFilters : jsval)
    (mergedDataMask : jsobj) (filter : jsobj) : jsobj :=
  let key := to_string (ofield "id" filter) in
  let dataMask := object_entries (js_or initialDataMask (JObj [])) in
  let defaultDataMask := object_entries (ofield "defaultDataMask" filter) in
  let mask :=
    ospread (ospread (getInitialDataMask (ofield "id" filter) []) defaultDataMask)
      (object_entries (ofield key dataMask)) in
  let mergedDataMask := oset key (JObj mask) mergedDataMask in
  if truthy currentFilters &&
     negb (areObjectsEqual (ofield "defaultDataMask" filter)
             (opt_field "defaultDataMask" (opt_field key currentFilters)) ignoring_undefined)
  then oset key (JObj (ospread mask defaultDataMask)) mergedDataMask
  else mergedDataMask.

(** @source app/dataMask/reducer.ts 63-98 fillNativeFilters *)
Definition fillNativeFilters `{Lodash} (filterConfig : list jsobj)
    (mergedDataMask draftDataMask : jsobj) (initialDataMask currentFilters : jsval) : jsobj :=
  restore_others draftDataMask
    (foldl (fill_native_filter initialDataMask currentFilters) mergedDataMask filterConfig).

(** @source app/dashboard/components/nativeFilters/FiltersConfigModal/types.ts 70-72 SaveFilterChangesType *)
Record SaveFilterChanges := {
  modified : list jsobj;
  deleted : list string;
}.

(** @source app/dataMask/reducer.ts 117-138 updateDataMaskForFilterChanges (a modified filter) *)
Definition modified_mask `{Lodash} (draftDataMask filter : jsobj) : jsobj :=
  let existingFilter := ofield (to_string (ofield "id" filter)) draftDataMask in
  let areTargetsEqual := isEqual (opt_field "targets" existingFilter) (ofield "targets" filter) in
  let controlValues := ofield "controlValues" filter in
  let shouldPreserveState :=
    truthy existingFilter && areTargetsEqual &&
    (truthy (opt_field "enableEmptyFilter" controlValues) ||
     truthy (opt_field "defaultToFirstItem" controlValues)) in
  ospread
    (ospread
       (ospread (getInitialDataMask (ofield "id" filter) [])
          (object_entries (ofield "defaultDataMask" filter)))
       filter)
    (if shouldPreserveState then
       [("extraFormData", opt_field "extraFormData" existingFilter);
        ("filterState", opt_field "filterState" existingFilter)]
     else []).

(** @source app/dataMask/reducer.ts 100-146 updateDataMaskForFilterChanges *)
Definition updateDataMaskForFilterChanges `{Lodash} (filterChanges : SaveFilterChanges)
    (mergedDataMask draftDataMask : jsobj) (initialDataMask : jsval) : jsobj :=
  let dataMask := object_entries (js_or initialDataMask (JObj [])) in
  let mergedDataMask :=
    foldl (λ merged kv,
      oset kv.1
        (JObj (ospread (object_entries kv.2) (object_entries (opt_field "defaultDataMask" kv.2))))
        merged) mergedDataMask dataMask in
  let mergedDataMask := foldl (λ merged filterId, adel filterId merged)
                          mergedDataMask (deleted filterChanges) in
  let mergedDataMask :=
    foldl (λ merged filter,
      oset (to_string (ofield "id" filter)) (JObj (modified_mask draftDataMask filter)) merged)
      mergedDataMask (modified filterChanges) in
  restore_others draftDataMask mergedDataMask.

(** The actions the reducer answers to; [OtherAction] stands for the rest.

    @source app/dataMask/actions.ts 23-84 AnyDataMaskAction *)
Inductive AnyDataMaskAction :=
| ClearDataMaskState
| UpdateDataMask (filterId : jsval) (dataMask : jsobj)
| HydrateDashboard (chart_configuration native_filter_configuration dataMask : jsval)
| SetDataMaskForFilterChangesComplete (filterChanges : SaveFilterChanges) (filters : jsval)
| OtherAction.

(** [Object.keys(v)] *)
Definition object_keys (v : jsval) : result (list string) :=
  match v with
  | JObj o => Ok (akeys o)
  | JUndef | JNull => Throw (TypeError "Cannot convert undefined or null to object")
  | JArr xs => Ok ((λ i, string_of_N (N.of_nat i)) <$> seq 0 (length xs))
  | JStr s => Ok ((λ i, string_of_N (N.of_nat i)) <$> seq 0 (String.length s))
  | _ => Ok []
  end.

(** @source app/dataMask/reducer.ts 149-193 dataMaskReducer (recipe) *)
Definition dataMask_recipe `{Lodash} (draft : jsobj) (action : AnyDataMaskAction) : result jsobj :=
  match action with
  | ClearDataMaskState => Ok []
  | UpdateDataMask filterId dataMask =>
      let key := to_string filterId in
      Ok (oset key
            (JObj (ospread
                     (ospread (getInitialDataMask filterId []) (object_entries (ofield key draft)))
                     dataMask)) draft)
  | HydrateDashboard chart_configuration native_filter_configuration dataMask =>
      ids ← object_keys chart_configuration;
      let cleanState :=
        foldl (λ st id, oset id (JObj (getInitialDataMask (JStr id) [])) st) [] ids in
      config ← for_each_items (js_nullish native_filter_configuration (JArr []));
      filters ← map_result as_object config;
      Ok (fillNativeFilters filters cleanState draft dataMask JUndef)
  | SetDataMaskForFilterChangesComplete filterChanges filters =>
      Ok (updateDataMaskForFilterChanges filterChanges [] draft filters)
  | OtherAction => Ok draft
  end.

(** @source app/dataMask/reducer.ts 148-197 dataMaskReducer *)
Definition dataMaskReducer `{Lodash, Immer} (state : option jsobj) (action : AnyDataMaskAction)
    : result jsobj :=
  produce dataMask_recipe [] state action.

(** @source app/dataMask/actions.ts 60-69 updateDataMask *)
Definition updateDataMask (filterId : jsval) (dataMask : jsobj) : AnyDataMaskAction :=
  UpdateDataMask filterId dataMask.

(** @source app/dataMask/actions.ts 49-58 setDataMaskForFilterChangesComplete *)
Definition setDataMaskForFilterChangesComplete (filterChanges : SaveFilterChanges) (filters : jsval)
    : AnyDataMaskAction :=
  SetDataMaskForFilterChangesComplete filterChanges filters.

(** @source app/dataMask/actions.ts 71-73 clearDataMask *)
Definition clearDataMask (filterId : jsval) : AnyDataMaskAction :=
  updateDataMask filterId (getInitialDataMask filterId []).

(** @source app/dataMask/actions.ts 75-79 clearDataMaskState *)
Definition clearDataMaskState : AnyDataMaskAction := ClearDataMaskState.
