(* ===== verification/DataMaskFacts.v ===== *)
(** * Invariants of the data mask state

    Every mask is stored under its own id, whatever sequence of actions led to
    the state; an update touches one mask; saving the filter configuration
    rebuilds the native filters and keeps all other masks. *)

From Stdlib Require Import String.
From stdpp Require Import base strings option numbers list sets.
From S2P Require Import Prelude JsObject JsNumber JsValue Lodash QueryTypes Query ReduxUtils DataMask.

(** ** The invariant *)

(** A mask stored under a key: an object whose id, as text, is the key. *)
Definition mask_ok (k : string) (v : jsval) : Prop :=
  ∃ o, v = JObj o ∧ NoDup (akeys o) ∧ to_string (ofield "id" o) = k.

Definition state_ok (st : jsobj) : Prop :=
  NoDup (akeys st) ∧ ∀ k v, aget k st = Some v → mask_ok k v.

(** An object that does not set another id than the key. *)
Definition keeps_id (k : string) (o : jsobj) : Prop :=
  NoDup (akeys o) ∧ ("id" ∈ akeys o → to_string (ofield "id" o) = k).

Lemma keeps_id_nil k : keeps_id k [].
Proof. split; [apply NoDup_nil_2|]. intros H. by apply elem_of_nil in H. Qed.

Lemma state_ok_nil : state_ok [].
Proof. split; [apply NoDup_nil_2|done]. Qed.

Lemma state_ok_oset k v st : mask_ok k v → state_ok st → state_ok (oset k v st).
Proof.
  intros Hv [Hnd Hst]. split; [by apply NoDup_akeys_oset|].
  intros k' v'. rewrite aget_oset. case_decide; [intros [= <-]; by subst|apply Hst].
Qed.

Lemma state_ok_adel k st : state_ok st → state_ok (adel k st).
Proof.
  intros [Hnd Hst]. split; [by apply NoDup_akeys_adel|].
  intros k' v'. rewrite aget_adel. case_decide; [done|apply Hst].
Qed.

Lemma mask_ok_spread k a b :
  NoDup (akeys a) → to_string (ofield "id" a) = k → keeps_id k b →
  NoDup (akeys (ospread a b)) ∧ to_string (ofield "id" (ospread a b)) = k.
Proof.
  intros Ha Hid [Hb Hidb]. split; [by apply NoDup_akeys_ospread|].
  rewrite ofield_ospread by done. case_decide; auto.
Qed.

Lemma mask_ok_keeps k v : mask_ok k v → keeps_id k (object_entries v).
Proof. by intros (o & -> & Hnd & Hid). Qed.

Lemma getInitialDataMask_ok id :
  id ≠ JUndef →
  NoDup (akeys (getInitialDataMask id [])) ∧ ofield "id" (getInitialDataMask id []) = id.
Proof.
  intros Hid. unfold getInitialDataMask. destruct id; try done; (split; [solve_decided|done]).
Qed.

#[export] Hint Resolve keeps_id_nil state_ok_nil state_ok_oset state_ok_adel : liteset.

Lemma foldl_state_ok {A} (step : jsobj → A → jsobj) xs st :
  (∀ st x, x ∈ xs → state_ok st → state_ok (step st x)) →
  state_ok st → state_ok (foldl step st xs).
Proof.
  revert st. induction xs as [|x xs IH]; intros st Hstep Hst; [done|]. simpl.
  apply IH; [intros; apply Hstep; [by right|done]|]. apply Hstep; [by left|done].
Qed.

Lemma restore_others_ok draft st : state_ok draft → state_ok st → state_ok (restore_others draft st).
Proof.
  intros [Hnd Hd] Hst. apply foldl_state_ok; [|done].
  intros st' f (k & Hk)%elem_of_avalues Hst'. cbv zeta.
  destruct (Hd k f ltac:(by apply elem_aget)) as (o & -> & Ho & Hid). cbn [opt_field].
  destruct (starts_with _ _); [done|]. apply state_ok_oset; [|done]. by exists o.
Qed.

(** The masks that are not of native filters survive. *)
Lemma restore_others_aget draft st k :
  state_ok draft →
  aget k (restore_others draft st) =
  if starts_with NATIVE_FILTER_PREFIX k then aget k st
  else match aget k draft with Some v => Some v | None => aget k st end.
Proof.
  unfold restore_others. revert st.
  induction draft as [|[k0 v0] draft IH]; intros st [Hnd Hd].
  { by destruct (starts_with NATIVE_FILTER_PREFIX k). }
  change (avalues ((k0, v0) :: draft)) with (v0 :: avalues draft). cbn [foldl aget].
  apply NoDup_cons in Hnd as [Hk0 Hnd].
  assert (Hd' : state_ok draft).
  { split; [done|]. intros k' v' Hk'. apply Hd. simpl. rewrite decide_False; [done|].
    intros ->. by rewrite (proj2 (aget_None k0 draft) Hk0) in Hk'. }
  destruct (Hd k0 v0) as (o & -> & Ho & Hid); [simpl; by rewrite decide_True|].
  rewrite IH by done. cbn [opt_field]. rewrite Hid.
  destruct (starts_with NATIVE_FILTER_PREFIX k) eqn:Hk.
  - destruct (starts_with _ k0) eqn:Hk0'; [done|]. rewrite aget_oset_ne; [done|congruence].
  - destruct (decide (k = k0)) as [->|Hne].
    + rewrite (proj2 (aget_None k0 draft) Hk0), Hk. by rewrite aget_oset_eq.
    + destruct (aget k draft); [done|].
      destruct (starts_with _ k0); [done|]. by rewrite aget_oset_ne.
Qed.

(** ** Actions *)

Section reducer.
Context `{Lodash, Immer}.

(** A filter object with an id, whose default mask does not set another. *)
Definition filter_ok (f : jsobj) : Prop :=
  NoDup (akeys f) ∧ ofield "id" f ≠ JUndef ∧
  keeps_id (to_string (ofield "id" f)) (object_entries (ofield "defaultDataMask" f)).

(** What the code that dispatches the actions guarantees. *)
Definition action_ok (a : AnyDataMaskAction) : Prop :=
  match a with
  | UpdateDataMask id mask => id ≠ JUndef ∧ keeps_id (to_string id) mask
  | HydrateDashboard _ config initial =>
      (∀ o, JObj o ∈ array_items config → filter_ok o) ∧
      (∀ k, keeps_id k (object_entries (opt_field k initial)))
  | SetDataMaskForFilterChangesComplete changes filters =>
      (∀ k v, (k, v) ∈ object_entries filters →
         ∃ o, v = JObj o ∧ filter_ok o ∧ to_string (ofield "id" o) = k) ∧
      (∀ f, f ∈ modified changes → filter_ok f)
  | _ => True
  end.

Lemma ofield_object_entries k v : ofield k (object_entries (js_or v (JObj []))) = opt_field k v.
Proof.
  unfold js_or. destruct (truthy v) eqn:E; [by destruct v|]. by destruct v.
Qed.

Lemma fill_native_filter_ok initial current st f :
  filter_ok f → (∀ k, keeps_id k (object_entries (opt_field k initial))) →
  state_ok st → state_ok (fill_native_filter initial current st f).
Proof.
  intros (Hf & Hid & Hdef) Hinit Hst. unfold fill_native_filter.
  set (key := to_string (ofield "id" f)) in *. rewrite ofield_object_entries.
  destruct (getInitialDataMask_ok (ofield "id" f) Hid) as [Hn1 Hi1].
  destruct (mask_ok_spread key _ (object_entries (ofield "defaultDataMask" f)) Hn1) as [Hn2 Hi2];
    [by rewrite Hi1|done|].
  destruct (mask_ok_spread key _ (object_entries (opt_field key initial)) Hn2 Hi2) as [Hn3 Hi3];
    [done|].
  set (mask := ospread (ospread _ _) _) in *.
  assert (state_ok (oset key (JObj mask) st)) by (apply state_ok_oset; [by exists mask|done]).
  destruct (_ && _); [|done]. apply state_ok_oset; [|done]. eexists. split; [done|].
  by apply mask_ok_spread.
Qed.

Lemma modified_mask_ok draft f :
  filter_ok f → mask_ok (to_string (ofield "id" f)) (JObj (modified_mask draft f)).
Proof.
  intros (Hf & Hid & Hdef). unfold modified_mask. cbv zeta.
  destruct (getInitialDataMask_ok (ofield "id" f) Hid) as [Hn1 Hi1].
  destruct (mask_ok_spread (to_string (ofield "id" f)) _
    (object_entries (ofield "defaultDataMask" f)) Hn1) as [Hn2 Hi2]; [by rewrite Hi1|done|].
  destruct (mask_ok_spread (to_string (ofield "id" f)) _ f Hn2 Hi2) as [Hn3 Hi3]; [done|].
  eexists. split; [done|]. apply mask_ok_spread; [done..|].
  destruct (_ && _); [|by apply keeps_id_nil].
  split; [solve_decided|]. intros Hin. exfalso. revert Hin. solve_decided.
Qed.

Lemma updateDataMask_clean_ok changes draft filters :
  state_ok draft →
  action_ok (SetDataMaskForFilterChangesComplete changes filters) →
  state_ok (updateDataMaskForFilterChanges changes [] draft filters).
Proof.
  intros Hd [Hfilters Hmod]. unfold updateDataMaskForFilterChanges. cbv zeta.
  apply restore_others_ok; [done|].
  apply foldl_state_ok.
  { intros st f Hf Hst. apply state_ok_oset; [|done]. by apply modified_mask_ok, Hmod. }
  apply foldl_state_ok; [intros; by apply state_ok_adel|].
  apply foldl_state_ok; [|apply state_ok_nil].
  intros st [k v] Hkv Hst. cbn [fst snd].
  assert (Hin : (k, v) ∈ object_entries filters).
  { unfold js_or in Hkv. destruct (truthy filters); [done|]. by apply elem_of_nil in Hkv. }
  destruct (Hfilters k v Hin) as (o & -> & (Ho & Hid & Hdef) & Hk).
  apply state_ok_oset; [|done]. eexists. split; [done|]. cbn [object_entries opt_field].
  subst k. by apply mask_ok_spread.
Qed.

Lemma hydrate_clean_ok ids :
  state_ok (foldl (λ st id, oset id (JObj (getInitialDataMask (JStr id) [])) st) [] ids).
Proof.
  apply foldl_state_ok; [|apply state_ok_nil]. intros st id _ Hst.
  apply state_ok_oset; [|done]. eexists. split; [done|].
  by destruct (getInitialDataMask_ok (JStr id)) as [? ->].
Qed.

Lemma dataMask_recipe_ok st a st' :
  state_ok st → action_ok a → dataMask_recipe st a = Ok st' → state_ok st'.
Proof.
  intros Hst Ha H'. destruct a as [|id mask|cc config initial|changes filters|]; simpl in H'.
  - injection H' as <-. apply state_ok_nil.
  - injection H' as <-. destruct Ha as [Hid Hmask]. apply state_ok_oset; [|done].
    destruct (getInitialDataMask_ok id Hid) as [Hn1 Hi1]. eexists. split; [done|].
    destruct (mask_ok_spread (to_string id) _ (object_entries (ofield (to_string id) st)) Hn1)
      as [Hn2 Hi2]; [by rewrite Hi1| |by apply mask_ok_spread].
    unfold ofield. destruct (aget (to_string id) st) as [v|] eqn:E; [|apply keeps_id_nil].
    by apply mask_ok_keeps, Hst.
  - destruct Ha as [Hconfig Hinit].
    apply bind_Ok_inv in H' as (ids & _ & H'). apply bind_Ok_inv in H' as (fs & Hfs & H').
    apply bind_Ok_inv in H' as (objs & Hobjs & H'). injection H' as <-.
    unfold fillNativeFilters. apply restore_others_ok; [done|].
    apply foldl_state_ok; [|apply hydrate_clean_ok].
    intros s f Hf Hs. apply fill_native_filter_ok; [|done|done].
    apply Hconfig. assert (Hfs' : JObj f ∈ fs).
    { revert objs Hobjs Hf. clear. induction fs as [|v fs IH]; intros objs Hobjs Hf; simpl in Hobjs.
      - injection Hobjs as <-. by apply elem_of_nil in Hf.
      - apply bind_Ok_inv in Hobjs as (o & Ho & Hobjs). apply bind_Ok_inv in Hobjs as (os & Hos & Hobjs).
        injection Hobjs as <-. destruct v; try done. injection Ho as ->.
        apply elem_of_cons in Hf as [->|Hf]; [by left|]. right. by eapply IH. }
    destruct config; simpl in *; simplify_eq/=; try done; by apply elem_of_nil in Hfs'.
  - injection H' as <-. by apply updateDataMask_clean_ok.
  - by injection H' as <-.
Qed.

(** Runs a sequence of actions. *)
Definition dispatch_all (st : jsobj) (actions : list AnyDataMaskAction) : result jsobj :=
  fold_result (λ st a, dataMaskReducer (Some st) a) st actions.

(** C39. In every state the reducer reaches, from the empty one, by any
    sequence of well-formed actions, each mask is an object stored under its
    own id and no id occurs twice. *)
Theorem dataMaskReducer_invariant actions st :
  Forall action_ok actions → dispatch_all [] actions = Ok st → state_ok st.
Proof.
  assert (Hgen : ∀ st0, state_ok st0 → Forall action_ok actions →
    dispatch_all st0 actions = Ok st → state_ok st).
  { induction actions as [|a actions IH]; intros st0 Hst0 Ha Hrun; simpl in Hrun.
    - by injection Hrun as <-.
    - apply Forall_cons in Ha as [Ha Has].
      apply bind_Ok_inv in Hrun as (st1 & Hst1 & Hrun). unfold dataMaskReducer in Hst1.
      rewrite produce_recipe in Hst1. eapply IH; [|done|done]. by eapply dataMask_recipe_ok. }
  apply Hgen, state_ok_nil.
Qed.
(** An update of one mask leaves every other mask alone, and sets in the
    one it names exactly the fields of the update: the other fields keep their
    value, or get the initial one when there was no mask. *)
Theorem dataMaskReducer_update st id mask st' :
  state_ok st → NoDup (akeys mask) →
  dataMaskReducer (Some st) (updateDataMask id mask) = Ok st' →
  (∀ k, k ≠ to_string id → aget k st' = aget k st) ∧
  ∀ f, opt_field f (ofield (to_string id) st') =
       if decide (f ∈ akeys mask) then ofield f mask
       else let old := object_entries (ofield (to_string id) st) in
            if decide (f ∈ akeys old) then ofield f old
            else ofield f (getInitialDataMask id []).
Proof.
  intros [Hnd Hst] Hmask Hrun. unfold dataMaskReducer in Hrun. rewrite produce_recipe in Hrun.
  injection Hrun as <-. split.
  - intros k Hk. by rewrite aget_oset_ne.
  - intros f. rewrite ofield_oset, decide_True by done. cbn [opt_field].
    rewrite ofield_ospread by done. case_decide; [done|].
    apply ofield_ospread. unfold ofield.
    destruct (aget (to_string id) st) as [v|] eqn:E; [|apply NoDup_nil_2].
    by destruct (Hst _ _ E) as (o & -> & ? & _).
Qed.

Section filter_changes.
Context (draft : jsobj).
Implicit Types (st : jsobj) (k : string).

Lemma aget_fold_modified fs st k :
  aget k (foldl (λ merged f,
    oset (to_string (ofield "id" f)) (JObj (modified_mask draft f)) merged) st fs) =
  match last (filter (λ f, to_string (ofield "id" f) = k) fs) with
  | Some f => Some (JObj (modified_mask draft f))
  | None => aget k st
  end.
Proof.
  revert st. induction fs as [|f fs IH]; intros st; [done|]. cbn [foldl].
  rewrite IH, filter_cons, aget_oset. destruct (decide (to_string (ofield "id" f) = k)) as [Hk|Hk].
  - rewrite last_cons, decide_True by done. by destruct (last _).
  - by rewrite decide_False by congruence.
Qed.

Lemma aget_fold_deleted ids st k :
  aget k (foldl (λ merged id, adel id merged) st ids) =
  if decide (k ∈ ids) then None else aget k st.
Proof.
  revert st. induction ids as [|id ids IH]; intros st; [by rewrite decide_False by set_solver|].
  cbn [foldl]. rewrite IH, aget_adel. repeat case_decide; set_solver.
Qed.

Lemma aget_fold_filters (f : jsval → jsval) (o st : jsobj) k :
  NoDup (akeys o) →
  aget k (foldl (λ merged kv, oset kv.1 (f kv.2) merged) st o) =
  match aget k o with Some v => Some (f v) | None => aget k st end.
Proof.
  revert st. induction o as [|[k0 v0] o IH]; intros st Hnd; [done|].
  apply NoDup_cons in Hnd as [Hk0 Hnd]. cbn [foldl aget fst snd]. rewrite IH by done.
  destruct (decide (k = k0)) as [->|].
  - rewrite (proj2 (aget_None k0 o) Hk0). by rewrite aget_oset_eq.
  - destruct (aget k o); [done|]. by rewrite aget_oset_ne.
Qed.
End filter_changes.

Lemma updateDataMaskForFilterChanges_aget changes filters st k :
  state_ok st → NoDup (akeys (object_entries filters)) →
  aget k (updateDataMaskForFilterChanges changes [] st filters) =
  let rebuilt :=
    match last (filter (λ f, to_string (ofield "id" f) = k) (modified changes)) with
    | Some f => Some (JObj (modified_mask st f))
    | None =>
        if decide (k ∈ deleted changes) then None
        else (λ v, JObj (ospread (object_entries v)
                           (object_entries (opt_field "defaultDataMask" v)))) <$>
             aget k (object_entries filters)
    end in
  if starts_with NATIVE_FILTER_PREFIX k then rebuilt
  else match aget k st with Some v => Some v | None => rebuilt end.
Proof.
  intros Hst Hnd. unfold updateDataMaskForFilterChanges. cbv zeta.
  rewrite restore_others_aget by done.
  rewrite !aget_fold_modified, !aget_fold_deleted.
  assert (object_entries (js_or filters (JObj [])) = object_entries filters) as ->.
  { unfold js_or. destruct (truthy filters) eqn:E; [done|]. by destruct filters. }
  rewrite (aget_fold_filters
    (λ v, JObj (ospread (object_entries v) (object_entries (opt_field "defaultDataMask" v)))))
    by done. cbn [aget].
  by destruct (aget k (object_entries filters)).
Qed.

(** Saving the filter configuration rebuilds the mask of every native
    filter from the changes (the last modification of the filter, nothing when
    it was deleted, its configuration otherwise) and drops the masks of native
    filters that are not configured; a mask that is not a native filter's is
    kept as it was. *)
Theorem dataMaskReducer_filter_changes st changes filters st' k :
  state_ok st → NoDup (akeys (object_entries filters)) →
  dataMaskReducer (Some st) (setDataMaskForFilterChangesComplete changes filters) = Ok st' →
  (starts_with NATIVE_FILTER_PREFIX k = false →
     ∀ v, aget k st = Some v → aget k st' = Some v) ∧
  (starts_with NATIVE_FILTER_PREFIX k = true →
     aget k st' =
     match last (filter (λ f, to_string (ofield "id" f) = k) (modified changes)) with
     | Some f => Some (JObj (modified_mask st f))
     | None =>
         if decide (k ∈ deleted changes) then None
         else (λ v, JObj (ospread (object_entries v)
                            (object_entries (opt_field "defaultDataMask" v)))) <$>
              aget k (object_entries filters)
     end).
Proof.
  intros Hst Hnd Hrun. unfold dataMaskReducer in Hrun. rewrite produce_recipe in Hrun.
  injection Hrun as <-. cbn [default from_option id].
  rewrite updateDataMaskForFilterChanges_aget by done. cbv zeta.
  split; intros Hk; rewrite Hk; [|done]. by intros v ->.
Qed.

(** The mask of a filter divider is taken for a mask that is not a native
    filter's, because the prefix of divider ids does not extend that of filter
    ids: deleting the divider leaves its mask in the state. *)
Theorem deleted_divider_mask_remains st changes filters st' x v :
  let k := NATIVE_FILTER_DIVIDER_PREFIX +:+ x in
  state_ok st → NoDup (akeys (object_entries filters)) →
  k ∈ deleted changes → aget k st = Some v →
  dataMaskReducer (Some st) (setDataMaskForFilterChangesComplete changes filters) = Ok st' →
  aget k st' = Some v.
Proof.
  intros k Hst Hnd _ Hv Hrun. unfold dataMaskReducer in Hrun. rewrite produce_recipe in Hrun.
  injection Hrun as <-. cbn [default from_option id].
  rewrite updateDataMaskForFilterChanges_aget by done. cbv zeta.
  assert (starts_with NATIVE_FILTER_PREFIX k = false) as -> by done. by rewrite Hv.
Qed.
End reducer.

Lemma dataMaskReducer_invariant_witness :
  match dispatch_all [] [updateDataMask (JStr "NATIVE_FILTER-1") [("filterState", JObj [])];
                         clearDataMask (JNum (num_of_Z 5))] with
  | Ok st => state_ok st ∧ length st = 2
  | Throw _ => False
  end.
Proof.
  destruct (dispatch_all [] _) as [st|e] eqn:E; [|vm_compute in E; discriminate E].
  split.
  - refine (dataMaskReducer_invariant _ st _ E).
    repeat (apply Forall_cons; split); [| |by apply Forall_nil].
    + split; [discriminate|]. split; [apply (bool_decide_unpack _); vm_compute; exact I|].
      intros Hin. exfalso. revert Hin. apply (bool_decide_unpack _); vm_compute; exact I.
    + split; [discriminate|]. split; [apply (bool_decide_unpack _); vm_compute; exact I|].
      intros _. vm_compute. reflexivity.
  - vm_compute in E. injection E as <-. reflexivity.
Defined.

Lemma mask_ok_literal k (o : jsobj) :
  NoDup (akeys o) → to_string (ofield "id" o) = k → state_ok [(k, JObj o)].
Proof.
  intros Hnd Hid. split; [apply NoDup_singleton|].
  intros k' v' Hk'. simpl in Hk'. case_decide; [|done]. injection Hk' as <-. subst k'. by exists o.
Qed.

Lemma dataMaskReducer_update_witness :
  match dataMaskReducer (Some [("7", JObj [("id", JStr "7"); ("ownState", JStr "s")])])
          (updateDataMask (JStr "7") [("filterState", JStr "f")]) with
  | Ok st' => opt_field "ownState" (ofield "7" st') = JStr "s"
  | Throw _ => False
  end.
Proof.
  destruct (dataMaskReducer _ _) as [st'|e] eqn:E; [|vm_compute in E; discriminate E].
  destruct (dataMaskReducer_update _ (JStr "7") [("filterState", JStr "f")] st'
    (mask_ok_literal "7" [("id", JStr "7"); ("ownState", JStr "s")]
       ltac:(apply (bool_decide_unpack _); vm_compute; exact I) eq_refl)
    ltac:(apply (bool_decide_unpack _); vm_compute; exact I) E) as [_ Hf].
  exact (Hf "ownState").
Defined.

Lemma dataMaskReducer_filter_changes_witness :
  let changes := {| modified := []; deleted := ["NATIVE_FILTER-a"] |} in
  let filters := JObj [("NATIVE_FILTER-a", JObj [("id", JStr "NATIVE_FILTER-a")])] in
  match dataMaskReducer (Some [("7", JObj [("id", JStr "7")])])
          (setDataMaskForFilterChangesComplete changes filters) with
  | Ok st' => aget "NATIVE_FILTER-a" st' = None
  | Throw _ => False
  end.
Proof.
  intros changes filters.
  destruct (dataMaskReducer _ _) as [st'|e] eqn:E; [|vm_compute in E; discriminate E].
  destruct (dataMaskReducer_filter_changes _ changes filters st' "NATIVE_FILTER-a"
    (mask_ok_literal "7" [("id", JStr "7")]
       ltac:(apply (bool_decide_unpack _); vm_compute; exact I) eq_refl)
    ltac:(apply (bool_decide_unpack _); vm_compute; exact I) E) as [_ Hn].
  rewrite (Hn eq_refl). reflexivity.
Defined.

Lemma deleted_divider_witness :
  let k := "NATIVE_FILTER_DIVIDER-a" in
  let changes := {| modified := []; deleted := [k] |} in
  match dataMaskReducer (Some [(k, JObj [("id", JStr k)])])
          (setDataMaskForFilterChangesComplete changes JUndef) with
  | Ok st' => aget k st' = Some (JObj [("id", JStr k)])
  | Throw _ => False
  end.
Proof.
  intros k changes.
  destruct (dataMaskReducer _ _) as [st'|e] eqn:E; [|vm_compute in E; discriminate E].
  exact (deleted_divider_mask_remains _ changes JUndef st' "a" _
    (mask_ok_literal k [("id", JStr k)]
       ltac:(apply (bool_decide_unpack _); vm_compute; exact I) eq_refl)
    ltac:(apply (bool_decide_unpack _); vm_compute; exact I)
    ltac:(left) eq_refl E).
Defined.
