(* ===== verification/NativeFilters.v ===== *)
(** * The native filters of a dashboard

    The reducer of the native filter state
    ([app/dashboard/reducers/nativeFilters.ts]) and the functions of the
    configuration dialog that decide what is saved
    ([app/dashboard/components/nativeFilters/FiltersConfigModal/utils.ts]). *)

From Stdlib Require Import String.
From stdpp Require Import base strings option numbers list relations sets.
From S2P Require Import Prelude JsObject JsNumber JsValue QueryTypes Query DataMask.

(** ** The reducer *)

(** @source core/query/types/Dashboard.ts 159-163 NativeFiltersState *)
Record NativeFiltersState := {
  nf_filters : jsobj;
  focusedFilterId : option string;
  hoveredFilterId : option string;
}.

(** @source app/dashboard/reducers/nativeFilters.ts 37-57 getInitialState *)
Definition getInitialState (filterConfig : option (list jsobj)) (prevState : option NativeFiltersState)
    : NativeFiltersState :=
  {| nf_filters :=
       match filterConfig with
       | Some config =>
           foldl (λ filters filter, oset (to_string (ofield "id" filter)) (JObj filter) filters)
             [] config
       | None => default [] (nf_filters <$> prevState)
       end;
     focusedFilterId := None;
     hoveredFilterId := None |}.

(** @source app/dashboard/reducers/nativeFilters.ts 64-75 handleFilterChangesComplete (one filter) *)
Definition save_filter (modifiedFilters filter : jsobj) : jsobj :=
  let key := to_string (ofield "id" filter) in
  if negb (is_nullish (ofield "chartsInScope" filter)) &&
     negb (is_nullish (ofield "tabsInScope" filter))
  then oset key (JObj filter) modifiedFilters
  else
    let existingFilter := ofield key modifiedFilters in
    oset key
      (JObj (oset "tabsInScope"
               (js_nullish (ofield "tabsInScope" filter) (opt_field "tabsInScope" existingFilter))
               (oset "chartsInScope"
                  (js_nullish (ofield "chartsInScope" filter)
                     (opt_field "chartsInScope" existingFilter)) filter)))
      modifiedFilters.

(** @source app/dashboard/reducers/nativeFilters.ts 59-81 handleFilterChangesComplete *)
Definition handleFilterChangesComplete (state : NativeFiltersState) (filters : list jsobj)
    : NativeFiltersState :=
  {| nf_filters := foldl save_filter (nf_filters state) filters;
     focusedFilterId := focusedFilterId state;
     hoveredFilterId := hoveredFilterId state |}.

Inductive AnyFilterAction :=
| HydrateFilters (filters : jsobj)
| SetInScopeStatusOfFilters (filterConfig : list jsobj)
| SetNativeFiltersConfigComplete (filterChanges : list jsobj)
| SetFocusedNativeFilter (id : string)
| UnsetFocusedNativeFilter
| SetHoveredNativeFilter (id : string)
| UnsetHoveredNativeFilter
| UpdateCascadeParentIds (id : string) (parentIds : list string)
| OtherFilterAction.

(** @source app/dashboard/reducers/nativeFilters.ts 83-140 nativeFilterReducer *)
Definition nativeFilterReducer (state : NativeFiltersState) (action : AnyFilterAction)
    : NativeFiltersState :=
  match action with
  | HydrateFilters filters =>
      {| nf_filters := filters; focusedFilterId := None; hoveredFilterId := None |}
  | SetInScopeStatusOfFilters filterConfig => getInitialState (Some filterConfig) (Some state)
  | SetNativeFiltersConfigComplete filterChanges => handleFilterChangesComplete state filterChanges
  | SetFocusedNativeFilter id =>
      {| nf_filters := nf_filters state; focusedFilterId := Some id;
         hoveredFilterId := hoveredFilterId state |}
  | UnsetFocusedNativeFilter =>
      {| nf_filters := nf_filters state; focusedFilterId := None;
         hoveredFilterId := hoveredFilterId state |}
  | SetHoveredNativeFilter id =>
      {| nf_filters := nf_filters state; focusedFilterId := focusedFilterId state;
         hoveredFilterId := Some id |}
  | UnsetHoveredNativeFilter =>
      {| nf_filters := nf_filters state; focusedFilterId := focusedFilterId state;
         hoveredFilterId := None |}
  | UpdateCascadeParentIds id parentIds =>
      {| nf_filters :=
           oset id
             (JObj (oset "cascadeParentIds" (JArr (JStr <$> parentIds))
                      (object_entries (ofield id (nf_filters state)))))
             (nf_filters state);
         focusedFilterId := focusedFilterId state;
         hoveredFilterId := hoveredFilterId state |}
  | OtherFilterAction => state
  end.

(** The filters and the dashboard configuration after the charts in scope have
    been computed.

    @source app/dashboard/actions/nativeFilters.ts 113-117 setInScopeStatusOfFilters (filters) *)
Definition filtersWithScopes (filters : jsobj) (filterScopes : list (string * jsval * jsval))
    : list jsobj :=
  (λ scope, oset "tabsInScope" scope.2 (oset "chartsInScope" scope.1.2
              (object_entries (ofield scope.1.1 filters)))) <$> filterScopes.

(** ** The configuration dialog *)

Section circular.
Context (dependencyMap : list (string * list string)).

(** [dependencies.some(f)], which stops at the first [true]; [None] when the
    fuel of a call ran out. *)
Fixpoint some_dependency (f : string → option bool) (dependencies : list string) : option bool :=
  match dependencies with
  | [] => Some false
  | d :: dependencies =>
      match f d with
      | Some true => Some true
      | Some false => some_dependency f dependencies
      | None => None
      end
  end.

(** @source app/dashboard/components/nativeFilters/FiltersConfigModal/utils.ts 35-50 hasCircularDependency *)
Fixpoint hasCircularDependency (fuel : nat) (filterId : string) (trace : list string) : option bool :=
  match fuel with
  | 0 => None
  | S fuel =>
      if bool_decide (filterId ∈ trace) then Some true
      else
        match aget filterId dependencyMap with
        | Some dependencies =>
            some_dependency (λ dependency,
              hasCircularDependency fuel dependency (trace ++ [filterId])) dependencies
        | None => Some false
        end
  end.
End circular.

(** @source app/dashboard/components/nativeFilters/FiltersConfigModal/utils.ts 101-147 createHandleSave (transformFilter) *)
Definition transformFilter (filters filterConfigMap : jsobj) (id : string) : jsval :=
  let formInputs := js_or (ofield id filters) (ofield id filterConfigMap) in
  let get k := opt_field k formInputs in
  if negb (truthy formInputs) then JUndef
  else if is_str (get "type") "DIVIDER" then
    JObj [("id", JStr id); ("type", JStr "DIVIDER");
          ("scope", JObj [("rootPath", JArr [JStr "ROOT_ID"]); ("excluded", JArr [])]);
          ("title", get "title"); ("description", get "description")]
  else
    let target := [] in
    let target :=
      if truthy (get "dataset") then oset "datasetId" (opt_field "value" (get "dataset")) target
      else target in
    let target :=
      if truthy (get "dataset") && truthy (get "column")
      then oset "column" (JObj [("name", get "column")]) target else target in
    JObj [("id", JStr id);
          ("adhoc_filters", get "adhoc_filters");
          ("time_range", get "time_range");
          ("controlValues", js_nullish (get "controlValues") (JObj []));
          ("granularity_sqla", get "granularity_sqla");
          ("requiredFirst",
            default JUndef (head (filter (λ rf, truthy rf = true)
              (avalues (object_entries (js_nullish (get "requiredFirst") (JObj [])))))));
          ("name", get "name");
          ("filterType", get "filterType");
          ("targets", JArr [JObj target]);
          ("defaultDataMask", js_nullish (get "defaultDataMask") (JObj (getInitialDataMask JUndef [])));
          ("cascadeParentIds", js_or (get "dependencies") (JArr []));
          ("scope", get "scope");
          ("sortMetric", get "sortMetric");
          ("type", get "type");
          ("description", JStr (trim (to_string (js_or (get "description") (JStr EmptyString)))))].

(** @source app/dashboard/components/nativeFilters/FiltersConfigModal/utils.ts 149-156 createHandleSave (the saved changes) *)
Definition transformedModified (filters filterConfigMap : jsobj) (modified : list string) : list jsval :=
  filter (λ v, truthy v = true) (transformFilter filters filterConfigMap <$> modified).

(** @source core/query/types/Dashboard.ts 42-45 NativeFilterType *)
Inductive NativeFilterType := NativeFilter | Divider.

(** @source app/dashboard/components/nativeFilters/FiltersConfigModal/utils.ts 205-211 generateFilterId *)
Definition generateFilterId (nanoid : string) (type : NativeFilterType) : string :=
  (match type with
   | NativeFilter => NATIVE_FILTER_PREFIX
   | Divider => NATIVE_FILTER_DIVIDER_PREFIX
   end) +:+ nanoid.

(** @source app/dashboard/components/nativeFilters/FiltersConfigModal/utils.ts 213-214 getFilterIds *)
Definition getFilterIds (config : list jsobj) : list jsval := ofield "id" <$> config.

(** ** Circular dependencies *)

Section circular_facts.
Context (m : list (string * list string)).

(** A filter depends directly on another. *)
Definition depends (x y : string) : Prop := ∃ ds, aget x m = Some ds ∧ y ∈ ds.

Lemma some_dependency_true f ds :
  some_dependency f ds = Some true → ∃ d, d ∈ ds ∧ f d = Some true.
Proof.
  induction ds as [|d ds IH]; simpl; [done|]. destruct (f d) as [[]|] eqn:E; try done.
  - intros _. exists d. split; [by left|done].
  - intros (d' & ? & ?)%IH. exists d'. split; [by right|done].
Qed.

Lemma some_dependency_false f ds :
  some_dependency f ds = Some false → ∀ d, d ∈ ds → f d = Some false.
Proof.
  induction ds as [|d ds IH]; simpl; intros H d' Hd'; [by apply elem_of_nil in Hd'|].
  destruct (f d) as [[]|] eqn:E; try done.
  apply elem_of_cons in Hd' as [->|Hd']; [done|]. by apply IH.
Qed.

Lemma some_dependency_total f ds :
  (∀ d, d ∈ ds → is_Some (f d)) → is_Some (some_dependency f ds).
Proof.
  induction ds as [|d ds IH]; simpl; intros H; [by eexists|].
  destruct (H d) as [b ->]; [by left|]. destruct b; [by eexists|].
  apply IH. intros d' Hd'. apply H. by right.
Qed.

(** The trace holds distinct keys of the map, so its length is bounded. *)
Lemma hasCircularDependency_total fuel id trace :
  NoDup trace → trace ⊆ akeys m → length m < fuel + length trace →
  1 < fuel ∨ (fuel = 1 ∧ length trace = length m) →
  is_Some (hasCircularDependency m fuel id trace).
Proof.
  revert id trace. induction fuel as [|fuel IH]; intros id trace Hnd Hsub Hlen Hf; [lia|].
  cbn [hasCircularDependency]. case_bool_decide as Hin; [by eexists|].
  destruct (aget id m) as [ds|] eqn:E; [|by eexists].
  assert (Hkey : id ∈ akeys m) by (apply aget_is_Some; by eexists).
  assert (Hnd' : NoDup (trace ++ [id])).
  { apply NoDup_app. split; [done|]. split; [|apply NoDup_singleton].
    intros x Hx ->%list_elem_of_singleton. done. }
  assert (Hsub' : trace ++ [id] ⊆ akeys m) by set_solver.
  assert (Hle : length (trace ++ [id]) ≤ length m).
  { rewrite <- (length_fmap fst m). apply submseteq_length, NoDup_submseteq; [done|].
    intros x Hx. by apply Hsub'. }
  rewrite length_app in Hle. simpl in Hle.
  apply some_dependency_total. intros d _. apply IH; [done|done|..]; rewrite length_app; simpl; lia.
Qed.

Lemma hasCircularDependency_sound fuel id trace :
  (∀ t, t ∈ trace → tc depends t id) →
  hasCircularDependency m fuel id trace = Some true →
  ∃ y, rtc depends id y ∧ tc depends y y.
Proof.
  revert id trace. induction fuel as [|fuel IH]; intros id trace Htr H; [done|].
  cbn [hasCircularDependency] in H. case_bool_decide as Hin.
  { exists id. split; [by apply rtc_refl|by apply Htr]. }
  destruct (aget id m) as [ds|] eqn:E; [|done].
  apply some_dependency_true in H as (d & Hd & H).
  assert (Hdep : depends id d) by (by exists ds).
  destruct (IH d (trace ++ [id])) as (y & Hy & Hc); [|done|].
  - intros t [Ht| ->%list_elem_of_singleton]%elem_of_app; [|by apply tc_once].
    by eapply tc_r; [apply Htr|].
  - exists y. split; [|done]. by eapply rtc_l.
Qed.

Lemma hasCircularDependency_acyclic fuel id trace :
  hasCircularDependency m fuel id trace = Some false → Acc (flip depends) id.
Proof.
  revert id trace. induction fuel as [|fuel IH]; intros id trace H; [done|].
  cbn [hasCircularDependency] in H. case_bool_decide; [done|].
  constructor. intros d (ds & Hds & Hd). rewrite Hds in H.
  apply (IH d (trace ++ [id])). exact (some_dependency_false _ _ H d Hd).
Qed.

Lemma Acc_no_cycle y : Acc (flip depends) y → ¬ tc depends y y.
Proof.
  induction 1 as [y _ IH]. intros Hc. inversion Hc as [? ? Hone|? z ? Hone Hrest]; subst.
  - by apply (IH y); [|by apply tc_once].
  - apply (IH z); [done|]. eapply tc_transitive; [done|]. by apply tc_once.
Qed.

Lemma Acc_rtc x y : Acc (flip depends) x → rtc depends x y → Acc (flip depends) y.
Proof.
  intros Hacc H. induction H as [|x z y Hxz _ IH]; [done|]. apply IH. by apply Hacc.
Qed.

(** C40. The dependency check of the filter dialog terminates (one more level
    of recursion than there are filters with dependencies, and one for the
    last look at the trace, are always enough) and answers whether a filter
    that depends on itself is reachable from the given one. *)
Theorem hasCircularDependency_correct id :
  ∃ b, hasCircularDependency m (2 + length m) id [] = Some b ∧
       (b = true ↔ ∃ y, rtc depends id y ∧ tc depends y y).
Proof.
  destruct (hasCircularDependency_total (2 + length m) id []) as [b Hb].
  - apply NoDup_nil_2.
  - set_solver.
  - simpl. lia.
  - lia.
  - exists b. split; [done|]. destruct b.
    + split; [|done]. intros _. eapply hasCircularDependency_sound; [|done].
      intros t Ht. by apply elem_of_nil in Ht.
    + split; [done|]. intros (y & Hy & Hc). exfalso. eapply Acc_no_cycle; [|done].
      eapply Acc_rtc; [|done]. by eapply hasCircularDependency_acyclic.
Qed.
End circular_facts.

(** ** The filter state *)

(** Every filter is an object stored under its own id. *)
Definition filters_stored (filters : jsobj) : Prop :=
  NoDup (akeys filters) ∧
  ∀ k v, aget k filters = Some v → ∃ o, v = JObj o ∧ to_string (ofield "id" o) = k.

Lemma filters_stored_oset k o filters :
  to_string (ofield "id" o) = k → filters_stored filters →
  filters_stored (oset k (JObj o) filters).
Proof.
  intros Hid [Hnd Hf]. split; [by apply NoDup_akeys_oset|].
  intros k' v. rewrite aget_oset. case_decide; [|apply Hf].
  intros [= <-]. subst. by exists o.
Qed.

Lemma save_filter_stored filters f :
  filters_stored filters → filters_stored (save_filter filters f).
Proof.
  intros Hf. unfold save_filter. cbv zeta. destruct (_ && _); apply filters_stored_oset; try done.
  by rewrite !ofield_oset.
Qed.

Lemma foldl_filters_stored (step : jsobj → jsobj → jsobj) fs filters :
  (∀ s f, filters_stored s → filters_stored (step s f)) →
  filters_stored filters → filters_stored (foldl step filters fs).
Proof.
  intros Hstep. revert filters. induction fs as [|f fs IH]; intros s Hs; [done|].
  by apply IH, Hstep.
Qed.

Definition filter_action_ok (st : NativeFiltersState) (a : AnyFilterAction) : Prop :=
  match a with
  | HydrateFilters filters => filters_stored filters
  | UpdateCascadeParentIds id _ => id ∈ akeys (nf_filters st)
  | _ => True
  end.

(** Every native filter is stored under its own id: the reducer keeps
    this for each of its actions, as long as the parents of a filter are only
    updated for a filter that exists. *)
Theorem nativeFilterReducer_stored st a :
  filters_stored (nf_filters st) → filter_action_ok st a →
  filters_stored (nf_filters (nativeFilterReducer st a)).
Proof.
  intros Hst Ha. destruct a; simpl in *; try done.
  - apply foldl_filters_stored; [intros; by apply filters_stored_oset|].
    split; [apply NoDup_nil_2|done].
  - apply foldl_filters_stored; [apply save_filter_stored|done].
  - apply aget_is_Some in Ha as [v Hv].
    destruct (proj2 Hst _ _ Hv) as (o & -> & Hid).
    apply filters_stored_oset; [|done]. unfold ofield at 2. rewrite Hv.
    rewrite ofield_oset. by rewrite decide_False.
Qed.

Lemma nativeFilterReducer_stored_witness :
  filters_stored (nf_filters (nativeFilterReducer
    {| nf_filters := [("F", JObj [("id", JStr "F")])]; focusedFilterId := None; hoveredFilterId := None |}
    (UpdateCascadeParentIds "F" ["G"]))).
Proof.
  apply nativeFilterReducer_stored; [|left].
  split; [apply NoDup_singleton|]. intros k v Hk. simpl in Hk.
  destruct (decide (k = "F")) as [->|]; [|discriminate Hk]. injection Hk as <-.
  eexists. split; reflexivity.
Defined.

(** The filters that are saved under an id. *)
Definition saved_as (k : string) (fs : list jsobj) : list jsobj :=
  filter (λ f, to_string (ofield "id" f) = k) fs.

Lemma save_filter_other k filters f :
  to_string (ofield "id" f) ≠ k → aget k (save_filter filters f) = aget k filters.
Proof.
  intros Hk. unfold save_filter. cbv zeta. destruct (_ && _); by rewrite aget_oset_ne.
Qed.

Lemma foldl_save_filter_other k filters fs :
  saved_as k fs = [] → aget k (foldl save_filter filters fs) = aget k filters.
Proof.
  unfold saved_as. revert filters. induction fs as [|f fs IH]; intros filters Hs; [done|].
  rewrite filter_cons in Hs. case_decide as Hk; [done|]. simpl.
  rewrite IH by done. by apply save_filter_other.
Qed.

(** Saving the filter configuration changes the filters that are saved
    and no other; a saved filter that does not say which charts and tabs it
    applies to keeps the ones it had, and every other field is the saved
    one. *)
Theorem handleFilterChangesComplete_scope st before f after :
  let k := to_string (ofield "id" f) in
  NoDup (akeys f) →
  saved_as k before = [] → saved_as k after = [] →
  let st' := handleFilterChangesComplete st (before ++ f :: after) in
  let saved := ofield k (nf_filters st') in
  let old := ofield k (nf_filters st) in
  opt_field "chartsInScope" saved =
    js_nullish (ofield "chartsInScope" f) (opt_field "chartsInScope" old) ∧
  opt_field "tabsInScope" saved =
    js_nullish (ofield "tabsInScope" f) (opt_field "tabsInScope" old) ∧
  (∀ x, x ≠ "chartsInScope" → x ≠ "tabsInScope" → opt_field x saved = ofield x f) ∧
  (∀ k', saved_as k' (before ++ f :: after) = [] →
     aget k' (nf_filters st') = aget k' (nf_filters st)).
Proof.
  intros k Hnd Hb Ha st' saved old.
  assert (Hsaved : saved = ofield k (save_filter (foldl save_filter (nf_filters st) before) f)).
  { subst saved st'. cbn [handleFilterChangesComplete nf_filters]. rewrite foldl_app. cbn [foldl].
    unfold ofield. by rewrite foldl_save_filter_other. }
  assert (Hold : ofield k (foldl save_filter (nf_filters st) before) = old).
  { subst old. unfold ofield. by rewrite foldl_save_filter_other. }
  set (base := foldl save_filter (nf_filters st) before) in *. clearbody base.
  unfold save_filter in Hsaved. cbv zeta in Hsaved. fold k in Hsaved. rewrite Hold in Hsaved.
  split; [|split; [|split]].
  4: { intros k' Hk'. by apply foldl_save_filter_other. }
  all: rewrite Hsaved; unfold js_nullish;
    destruct (is_nullish (ofield "chartsInScope" f)) eqn:E1,
             (is_nullish (ofield "tabsInScope" f)) eqn:E2; cbn [negb andb];
    rewrite ofield_oset, decide_True by done; cbn [opt_field]; try intros x Hx Hx';
    rewrite ?ofield_oset; by repeat case_decide.
Qed.

Lemma handleFilterChangesComplete_scope_witness :
  let st := {| nf_filters := [("F", JObj [("id", JStr "F"); ("chartsInScope", JArr [JNull])])];
               focusedFilterId := None; hoveredFilterId := None |} in
  opt_field "chartsInScope"
    (ofield "F" (nf_filters (handleFilterChangesComplete st ([] ++ [("id", JStr "F")] :: [])))) =
  JArr [JNull].
Proof.
  intros st.
  destruct (handleFilterChangesComplete_scope st [] [("id", JStr "F")] []) as [H _].
  - apply NoDup_singleton.
  - reflexivity.
  - reflexivity.
  - exact H.
Defined.
