(* ===== verification/Layout.v ===== *)
(** * The layout of a dashboard

    [app/dashboard/util]: a layout is an object from component ids to layout
    items.  Component types, which components may be nested, parents and
    children of a component, the charts below a component, and the keys of the
    filter fields of a chart.

    Chart ids are database ids, integers that a double represents exactly; they
    are elements of [Z]. *)

From Stdlib Require Import Ascii String.
From stdpp Require Import base strings option numbers list sets.
From S2P Require Import Prelude JsObject JsNumber JsValue Query ExtraFormData.

(** ** Items *)

(** @source app/dashboard/util/componentTypes.ts 19-32 componentTypes *)
Definition CHART_TYPE : string := "CHART".
Definition COLUMN_TYPE : string := "COLUMN".
Definition HEADER_TYPE : string := "HEADER".
Definition DASHBOARD_GRID_TYPE : string := "GRID".
Definition DASHBOARD_ROOT_TYPE : string := "ROOT".
Definition DIVIDER_TYPE : string := "DIVIDER".
Definition MARKDOWN_TYPE : string := "MARKDOWN".
Definition ROW_TYPE : string := "ROW".
Definition TABS_TYPE : string := "TABS".
Definition TAB_TYPE : string := "TAB".
Definition DYNAMIC_TYPE : string := "DYNAMIC".

(** @source app/dashboard/util/constants.ts 22-22 DASHBOARD_ROOT_ID *)
Definition DASHBOARD_ROOT_ID : string := "ROOT_ID".

(** The part of [meta] the modelled code reads is the chart id.

    @source app/dashboard/types.ts 198-217 LayoutItem *)
Record LayoutItem := {
  li_id : string;
  li_type : string;
  li_children : list string;
  li_parents : option (list string);
  li_chartId : option Z;
}.

Abbreviation layout_map := (list (string * LayoutItem)).

(** ** Nesting *)

Definition rootDepth : Z := 0.

(** @source app/dashboard/util/isValidChild.ts 57-112 parentMaxDepthLookup *)
Definition parentMaxDepthLookup : list (string * list (string * Z)) :=
  let depthOne := (rootDepth + 1)%Z in
  let depthThree := (rootDepth + 3)%Z in
  let depthFour := (rootDepth + 4)%Z in
  let depthFive := (rootDepth + 5)%Z in
  [(DASHBOARD_ROOT_TYPE, [(TABS_TYPE, rootDepth); (DASHBOARD_GRID_TYPE, rootDepth)]);
   (DASHBOARD_GRID_TYPE,
     [(CHART_TYPE, depthOne); (DYNAMIC_TYPE, depthOne); (MARKDOWN_TYPE, depthOne);
      (COLUMN_TYPE, depthOne); (DIVIDER_TYPE, depthOne); (HEADER_TYPE, depthOne);
      (ROW_TYPE, depthOne); (TABS_TYPE, depthOne)]);
   (ROW_TYPE,
     [(CHART_TYPE, depthFour); (DYNAMIC_TYPE, depthFour); (MARKDOWN_TYPE, depthFour);
      (COLUMN_TYPE, depthFour)]);
   (TABS_TYPE, [(TAB_TYPE, depthThree)]);
   (TAB_TYPE,
     [(CHART_TYPE, depthFive); (DYNAMIC_TYPE, depthFive); (MARKDOWN_TYPE, depthFive);
      (COLUMN_TYPE, depthThree); (DIVIDER_TYPE, depthFive); (HEADER_TYPE, depthFive);
      (ROW_TYPE, depthThree); (TABS_TYPE, depthThree)]);
   (COLUMN_TYPE,
     [(CHART_TYPE, depthFive); (HEADER_TYPE, depthFive); (MARKDOWN_TYPE, depthFive);
      (ROW_TYPE, depthThree); (DIVIDER_TYPE, depthThree); (TABS_TYPE, depthThree)]);
   (CHART_TYPE, []); (DYNAMIC_TYPE, []); (DIVIDER_TYPE, []); (HEADER_TYPE, []);
   (MARKDOWN_TYPE, [])].

(** [parentDepth] is [None] when it is not a number.

    @source app/dashboard/util/isValidChild.ts 120-130 isValidChild *)
Definition isValidChild (parentType childType : string) (parentDepth : option Z) : bool :=
  match parentDepth with
  | Some parentDepth =>
      if bool_decide (parentType = EmptyString) || bool_decide (childType = EmptyString)
      then false
      else
        match aget parentType parentMaxDepthLookup ≫= aget childType with
        | Some maxParentDepth => (parentDepth <=? maxParentDepth)%Z
        | None => false
        end
  | None => false
  end.

(** ** Parents *)

(** [children.includes(id)] *)
Definition has_child (childId : string) (component : LayoutItem) : bool :=
  bool_decide (childId ∈ li_children component).

(** @source app/dashboard/util/findParentId.ts 31-49 findParentId *)
Fixpoint findParentId (childId : string) (layout : layout_map) : option string :=
  match layout with
  | [] => None
  | (id, component) :: layout =>
      if bool_decide (id ≠ childId) && has_child childId component then Some id
      else findParentId childId layout
  end.

(** The module keeps a cache of the parents it found; it is the state that the
    calls thread.

    @source app/dashboard/util/findParentId.ts 51-70 findParentIdWithCache *)
Definition findParentIdWithCache (childId : string) (layout : layout_map)
    (cache : list (string * option string)) : option string * list (string * option string) :=
  let search :=
    let parentId := findParentId childId layout in
    (parentId, oset childId parentId cache) in
  match aget childId cache with
  | Some (Some cachedValue) =>
      if bool_decide (cachedValue = EmptyString) then search
      else
        match aget cachedValue layout with
        | Some lastParent =>
            if has_child childId lastParent then (Some (li_id lastParent), cache) else search
        | None => search
        end
  | _ => search
  end.

(** ** Charts below a component *)

(** The recursion follows the children; [None] when the fuel ran out.

    @source app/dashboard/util/getChartIdsFromComponent.ts 22-44 getChartIdsFromComponent *)
Fixpoint getChartIdsFromComponent (fuel : nat) (componentId : string) (layout : layout_map)
    : option (list Z) :=
  match fuel with
  | 0 => None
  | S fuel =>
      match aget componentId layout with
      | None => Some []
      | Some component =>
          let own :=
            if bool_decide (li_type component = CHART_TYPE) then
              match li_chartId component with
              | Some chartId => if bool_decide (chartId = 0%Z) then [] else [chartId]
              | None => []
              end
            else [] in
          foldl (λ acc childId,
            chartIds ← acc;
            below ← getChartIdsFromComponent fuel childId layout;
            Some (chartIds ++ below)) (Some own) (li_children component)
      end
  end.

(** [xs.indexOf(x)] *)
Definition index_of (x : string) (xs : list string) : option nat :=
  find_index (λ y, bool_decide (y = x)) xs.

(** [None] stands for the source's [-1].

    @source app/dashboard/util/findTabIndexByComponentId.ts 21-46 findTabIndexByComponentId *)
Definition findTabIndexByComponentId (currentComponent : option LayoutItem)
    (directPathToChild : list string) : option nat :=
  match currentComponent with
  | None => None
  | Some currentComponent =>
      match index_of (li_id currentComponent) directPathToChild with
      | None => None
      | Some currentComponentIdx =>
          match directPathToChild !! S currentComponentIdx with
          | Some nextParentId => index_of nextParentId (li_children currentComponent)
          | None => None
          end
      end
  end.

(** @source app/dashboard/util/isDashboardEmpty.ts 21-25 USER_CONTENT_COMPONENT_TYPE *)
Definition USER_CONTENT_COMPONENT_TYPE : list string := [CHART_TYPE; MARKDOWN_TYPE; DYNAMIC_TYPE].

(** @source app/dashboard/util/isDashboardEmpty.ts 26-32 isDashboardEmpty *)
Definition isDashboardEmpty (layout : layout_map) : bool :=
  negb (existsb (λ item, bool_decide (li_type item ∈ USER_CONTENT_COMPONENT_TYPE))
          (avalues layout)).

(** The tabs that hold the charts in scope, without repetition.

    @source app/dashboard/components/nativeFilters/utils.ts 163-176 findTabsWithChartsInScope *)
Definition findTabsWithChartsInScope (chartLayoutItems : list LayoutItem) (chartsInScope : list Z)
    : list string :=
  let tabs_of chartId :=
    match find_index (λ item, bool_decide (li_chartId item = Some chartId)) chartLayoutItems ≫=
          (λ i, chartLayoutItems !! i) with
    | Some item =>
        filter (λ parent, starts_with (TAB_TYPE +:+ "-") parent = true) (default [] (li_parents item))
    | None => []
    end in
  foldl (λ acc tab, if bool_decide (tab ∈ acc) then acc else acc ++ [tab]) []
    (flat_map tabs_of chartsInScope).

(** ** Filter keys *)

(** @source app/dashboard/util/getDashboardFilterKey.ts 25-30 getDashboardFilterKey *)
Definition getDashboardFilterKey (chartId column : string) : string :=
  chartId +:+ "_" +:+ column.

(** The characters [.] does not match in a regular expression: line feed and
    carriage return among the ASCII ones. *)
Definition is_line_end (c : Ascii.ascii) : bool :=
  bool_decide (Ascii.N_of_ascii c = 10%N ∨ Ascii.N_of_ascii c = 13%N).

(** @source app/dashboard/util/getDashboardFilterKey.ts 32-38 getChartIdAndColumnFromFilterKey *)
Definition getChartIdAndColumnFromFilterKey (key : string) : result (jsnum * string) :=
  let '(chartId, rest) := take_digits key in
  match strip_prefix "_" rest with
  | Some column =>
      if bool_decide (chartId ≠ EmptyString) && all_chars (λ c, negb (is_line_end c)) column
      then Ok (parseInt chartId, column)
      else Throw (GenericError "Cannot parse invalid filter key")
  | None => Throw (GenericError "Cannot parse invalid filter key")
  end.

(** The first pass of [getRevertedFilterScope]: checked values have the form
    [chartId:field].

    @source app/dashboard/util/getRevertedFilterScope.ts 34-43 getRevertedFilterScope (by field) *)
Definition checkedChartIdsByFilterField (checked : list string) : list (string * list jsnum) :=
  foldl (λ map value,
    let parts := split ":" value in
    let chartId := default "undefined" (parts !! 0) in
    let filterField := default "undefined" (parts !! 1) in
    oset filterField (default [] (aget filterField map) ++ [parseInt chartId]) map) [] checked.

(** @source app/dashboard/util/getRevertedFilterScope.ts 29-55 getRevertedFilterScope *)
Definition getRevertedFilterScope (checked filterFields : list string)
    (filterScopeMap : list (string * jsobj)) : list (string * jsobj) :=
  let byField := checkedChartIdsByFilterField checked in
  foldl (λ map filterField,
    oset filterField
      (oset "checked" (JArr (JNum <$> default [] (aget filterField byField)))
         (default [] (aget filterField filterScopeMap))) map) [] filterFields.
