(* ===== verification/LayoutFacts.v ===== *)
(** * Properties of dashboard layouts

    How deep components nest, the transparency of the cache of parents, the
    charts below a component as reachability along the children, and the round
    trip of filter keys. *)

From Stdlib Require Import Ascii String.
From stdpp Require Import base strings option numbers list sets relations.
From S2P Require Import Prelude JsObject JsNumber JsValue Query ExtraFormData ExtraFormDataFacts Layout.

(** ** Nesting *)

(** The depth of the children of a component: tabs and tab do not count. *)
Definition depth_below (type : string) (depth : Z) : Z :=
  if bool_decide (type = TABS_TYPE ∨ type = TAB_TYPE) then depth else (depth + 1)%Z.

(** A chain of components, each a valid child of the one before it. *)
Fixpoint nesting_ok (parentType : string) (depth : Z) (chain : list string) : bool :=
  match chain with
  | [] => true
  | child :: chain =>
      isValidChild parentType child (Some depth) &&
      nesting_ok child (depth_below parentType depth) chain
  end.

(** A tab that holds tabs, again and again. *)
Fixpoint nested_tabs (n : nat) : list string :=
  match n with 0 => [] | S n => TABS_TYPE :: TAB_TYPE :: nested_tabs n end.

Lemma isValidChild_depth p c d : isValidChild p c (Some d) = true → (d ≤ 5)%Z.
Proof.
  unfold isValidChild. destruct (_ || _); [done|].
  destruct (aget p parentMaxDepthLookup) as [row|] eqn:Hp; [|done].
  cbn [mbind option_bind]. destruct (aget c row) as [m|] eqn:Hc; [|done].
  intros Hd%Z.leb_le. apply aget_Some_elem in Hp, Hc.
  assert (Forall (λ pr : string * list (string * Z), Forall (λ cm, (cm.2 ≤ 5)%Z) pr.2)
            parentMaxDepthLookup) as Hall by solve_decided.
  rewrite Forall_forall in Hall. specialize (Hall _ Hp). rewrite Forall_forall in Hall.
  pose proof (Hall _ Hc) as Hm. simpl in Hm. lia.
Qed.

Lemma nesting_bound p d chain :
  p ≠ TABS_TYPE → p ≠ TAB_TYPE → Forall (λ c, c ≠ TABS_TYPE ∧ c ≠ TAB_TYPE) chain →
  (0 ≤ d ≤ 6)%Z → nesting_ok p d chain = true → (Z.of_nat (length chain) ≤ 6 - d)%Z.
Proof.
  intros Hp1 Hp2 Hch. revert p d Hp1 Hp2.
  induction Hch as [|c chain [Hc1 Hc2] _ IH]; intros p d Hp1 Hp2 Hd Hok; simpl in *; [lia|].
  apply andb_true_iff in Hok as [Hv Hok]. apply isValidChild_depth in Hv.
  unfold depth_below in Hok. rewrite bool_decide_eq_false_2 in Hok by tauto.
  apply IH in Hok; try done; lia.
Qed.

Lemma nested_tabs_ok n d : (d ≤ 3)%Z → nesting_ok TAB_TYPE d (nested_tabs n) = true.
Proof.
  intros Hd. induction n as [|n IH]; [done|]. cbn [nested_tabs nesting_ok].
  change (depth_below TAB_TYPE d) with d. change (depth_below TABS_TYPE d) with d.
  rewrite IH, andb_true_r.
  assert (∀ m, (d <=? rootDepth + 3)%Z = m → isValidChild TAB_TYPE TABS_TYPE (Some d) = m) as H1
    by (by intros m <-).
  assert (∀ m, (d <=? rootDepth + 3)%Z = m → isValidChild TABS_TYPE TAB_TYPE (Some d) = m) as H2
    by (by intros m <-).
  rewrite (H1 true), (H2 true); [done|..]; apply Z.leb_le; unfold rootDepth; lia.
Qed.

(** Depth limits nesting only outside of tabs: components other than
    tabs nest at most six levels below the root, while tabs inside a tab are
    valid at every level, so they nest without bound. *)
Theorem isValidChild_nesting chain n :
  Forall (λ c, c ≠ TABS_TYPE ∧ c ≠ TAB_TYPE) chain →
  nesting_ok DASHBOARD_ROOT_TYPE rootDepth chain = true →
  length chain ≤ 6 ∧
  nesting_ok DASHBOARD_ROOT_TYPE rootDepth (TABS_TYPE :: TAB_TYPE :: nested_tabs n) = true.
Proof.
  intros Hch Hok. split.
  - apply nesting_bound in Hok; [|done|done|done|unfold rootDepth; lia].
    unfold rootDepth in Hok. lia.
  - cbn [nesting_ok].
    assert (Hd : nesting_ok TAB_TYPE
      (depth_below TABS_TYPE (depth_below DASHBOARD_ROOT_TYPE rootDepth)) (nested_tabs n) = true)
      by (apply nested_tabs_ok; vm_compute; congruence).
    rewrite Hd. vm_compute. reflexivity.
Qed.

Lemma isValidChild_nesting_witness :
  length [DASHBOARD_GRID_TYPE; ROW_TYPE; COLUMN_TYPE; ROW_TYPE; CHART_TYPE] ≤ 6 ∧
  nesting_ok DASHBOARD_ROOT_TYPE rootDepth (TABS_TYPE :: TAB_TYPE :: nested_tabs 40) = true.
Proof.
  apply (isValidChild_nesting
    [DASHBOARD_GRID_TYPE; ROW_TYPE; COLUMN_TYPE; ROW_TYPE; CHART_TYPE] 40).
  - apply (bool_decide_unpack _). vm_compute. exact I.
  - vm_compute. reflexivity.
Defined.

(** ** Parents *)

(** A layout that is a tree: items are stored under their id and no component
    is a child of two items or of itself. *)
Record tree_layout (layout : layout_map) : Prop := {
  tree_ids : ∀ id item, (id, item) ∈ layout → li_id item = id ∧ id ≠ EmptyString;
  tree_keys : NoDup (akeys layout);
  tree_parent : ∀ p q c a b, (p, a) ∈ layout → (q, b) ∈ layout →
    c ∈ li_children a → c ∈ li_children b → p = q;
  tree_irreflexive : ∀ p a, (p, a) ∈ layout → p ∉ li_children a;
}.

Lemma findParentId_Some child layout p :
  findParentId child layout = Some p →
  ∃ item, (p, item) ∈ layout ∧ child ∈ li_children item ∧ p ≠ child.
Proof.
  induction layout as [|[id item] layout IH]; simpl; [done|].
  destruct (_ && _) eqn:E.
  - intros [= <-]. apply andb_true_iff in E as [?%bool_decide_eq_true ?%bool_decide_eq_true].
    exists item. split; [by left|done].
  - intros (item' & ? & ?)%IH. exists item'. split; [by right|done].
Qed.

Lemma findParentId_None child layout :
  findParentId child layout = None →
  ∀ p item, (p, item) ∈ layout → p ≠ child → child ∉ li_children item.
Proof.
  induction layout as [|[id item] layout IH]; simpl; intros H p a Hin Hp.
  { by apply elem_of_nil in Hin. }
  destruct (_ && _) eqn:E; [done|]. apply elem_of_cons in Hin as [[= -> ->]|Hin]; [|by eapply IH].
  apply andb_false_iff in E as [E|E]; apply bool_decide_eq_false in E; [|done].
  by apply dec_stable in E.
Qed.

Lemma findParentId_unique layout child p item :
  tree_layout layout → (p, item) ∈ layout → child ∈ li_children item →
  findParentId child layout = Some p.
Proof.
  intros Ht Hp Hc. destruct (findParentId child layout) as [q|] eqn:E.
  - apply findParentId_Some in E as (b & Hq & Hcb & _). f_equal. by eapply (tree_parent _ Ht).
  - exfalso. eapply findParentId_None; try done. intros ->. by eapply (tree_irreflexive _ Ht).
Qed.

(** A sequence of lookups, in the order of the calls, with the results. *)
Fixpoint cached_lookups (calls : list (string * layout_map)) (cache : list (string * option string))
    : list (option string) :=
  match calls with
  | [] => []
  | (child, layout) :: calls =>
      let '(p, cache) := findParentIdWithCache child layout cache in
      p :: cached_lookups calls cache
  end.

(** The cache of parents is transparent: on layouts that are trees, any
    sequence of lookups, whatever the layouts and the state of the cache, gives
    the parents that the search without a cache finds. *)
Theorem findParentIdWithCache_transparent calls cache :
  Forall (λ call, tree_layout call.2) calls →
  cached_lookups calls cache = (λ call, findParentId call.1 call.2) <$> calls.
Proof.
  intros Hcalls. revert cache.
  induction Hcalls as [|[child layout] calls Ht _ IH]; intros cache; [done|].
  cbn [cached_lookups]. destruct (findParentIdWithCache child layout cache) as [p cache'] eqn:E.
  rewrite fmap_cons, IH. f_equal. cbn [fst snd] in *. unfold findParentIdWithCache in E.
  destruct (aget child cache) as [[v|]|]; [|congruence|congruence].
  case_bool_decide; [congruence|]. destruct (aget v layout) as [item|] eqn:Hv; [|congruence].
  unfold has_child in E. case_bool_decide as Hc; [|congruence]. injection E as <- _.
  apply aget_Some_elem in Hv. destruct (tree_ids _ Ht _ _ Hv) as [-> _].
  symmetry. by eapply findParentId_unique.
Qed.

Lemma findParentIdWithCache_witness :
  let item id children := {| li_id := id; li_type := ROW_TYPE; li_children := children;
                             li_parents := None; li_chartId := None |} in
  let layout := [("A", item "A" ["B"]); ("B", item "B" [])] in
  cached_lookups [("B", layout); ("B", layout)] [("B", Some "Z")] = [Some "A"; Some "A"].
Proof.
  intros item layout.
  assert (Ht : tree_layout layout).
  { split.
    - intros id i Hi. repeat (apply elem_of_cons in Hi as [[= -> ->]|Hi]; [split; [reflexivity|discriminate]|]).
      by apply elem_of_nil in Hi.
    - apply (bool_decide_unpack _). vm_compute. exact I.
    - intros p q c a b Ha Hb.
      apply elem_of_cons in Ha as [[= -> ->]|Ha]; [|apply elem_of_cons in Ha as [[= -> ->]|Ha]];
      (apply elem_of_cons in Hb as [[= -> ->]|Hb]; [|apply elem_of_cons in Hb as [[= -> ->]|Hb]]);
      simpl; intros Hca Hcb;
      first [by apply elem_of_nil in Hca|by apply elem_of_nil in Hcb|
             by apply elem_of_nil in Ha|by apply elem_of_nil in Hb|reflexivity].
    - intros p a Ha.
      apply elem_of_cons in Ha as [[= -> ->]|Ha]; [|apply elem_of_cons in Ha as [[= -> ->]|Ha]];
        [apply (bool_decide_unpack _); vm_compute; exact I..|by apply elem_of_nil in Ha]. }
  rewrite (findParentIdWithCache_transparent [("B", layout); ("B", layout)] [("B", Some "Z")]).
  - vm_compute. reflexivity.
  - repeat (apply Forall_cons; split; [exact Ht|]). apply Forall_nil. exact I.
Defined.

(** ** Charts below a component *)

Section below.
Context (layout : layout_map).

Definition child_of (x y : string) : Prop :=
  ∃ item, aget x layout = Some item ∧ y ∈ li_children item.

(** The component is a chart with an id. *)
Definition shows_chart (x : string) (c : Z) : Prop :=
  ∃ item, aget x layout = Some item ∧ li_type item = CHART_TYPE ∧
          li_chartId item = Some c ∧ c ≠ 0%Z.

Lemma collect_children go (f : string → list Z) own children :
  (∀ child, child ∈ children → go child = Some (f child)) →
  foldl (λ acc childId,
    chartIds ← acc; below ← go childId; Some (chartIds ++ below)) (Some own) children =
  Some (own ++ flat_map f children).
Proof.
  revert own. induction children as [|child children IH]; intros own Hgo; simpl.
  { by rewrite app_nil_r. }
  rewrite Hgo by left. simpl. rewrite IH; [by rewrite <- app_assoc|].
  intros c Hc. apply Hgo. by right.
Qed.

(** A rank that decreases from a component to its children, as in a tree. *)
Context (rank : string → nat) (Hrank : ∀ x y, child_of x y → rank y < rank x).

Lemma choose_results go (children : list string) (P : string → list Z → Prop) :
  (∀ child, child ∈ children → ∃ ids, go child = Some ids ∧ P child ids) →
  ∃ f, ∀ child, child ∈ children → go child = Some (f child) ∧ P child (f child).
Proof.
  intros H. exists (λ child, default [] (go child)). intros child Hc.
  destruct (H child Hc) as (ids & Hgo & HP). by rewrite Hgo.
Qed.

Lemma getChartIdsFromComponent_spec fuel id :
  rank id < fuel →
  ∃ ids, getChartIdsFromComponent fuel id layout = Some ids ∧
         ∀ c, c ∈ ids ↔ ∃ x, rtc child_of id x ∧ shows_chart x c.
Proof.
  revert id. induction fuel as [|fuel IH]; intros id Hf; [lia|].
  cbn [getChartIdsFromComponent]. destruct (aget id layout) as [item|] eqn:E.
  - destruct (choose_results (λ child, getChartIdsFromComponent fuel child layout)
      (li_children item) (λ child ids, ∀ c, c ∈ ids ↔ ∃ x, rtc child_of child x ∧ shows_chart x c))
      as [f Hfs].
    { intros child Hc. apply IH. assert (rank child < rank id); [|lia].
      apply Hrank. by exists item. }
    rewrite (collect_children _ f) by (intros; by apply Hfs).
    eexists. split; [done|]. intros c. rewrite elem_of_app. split.
    + intros [Hown|Hch].
      * exists id. split; [by apply rtc_refl|]. exists item.
        case_bool_decide; [|by apply elem_of_nil in Hown].
        destruct (li_chartId item) as [c'|]; [|by apply elem_of_nil in Hown].
        case_bool_decide; [by apply elem_of_nil in Hown|].
        apply list_elem_of_singleton in Hown as ->. done.
      * apply list_elem_of_In, in_flat_map in Hch as (child & Hin & Hc).
        apply list_elem_of_In in Hin, Hc. apply (Hfs child Hin) in Hc as (x & Hx & Hs).
        exists x. split; [|done]. eapply rtc_l; [|done]. by exists item.
    + intros (x & Hx & Hs). inversion Hx as [|? child ? Hch Hrest]; subst.
      * left. destruct Hs as (item' & Hi & Hty & Hid & Hne). simplify_eq.
        rewrite bool_decide_eq_true_2 by done. rewrite Hid.
        rewrite bool_decide_eq_false_2 by done. by apply list_elem_of_singleton.
      * right. destruct Hch as (item' & Hi & Hin). simplify_eq.
        apply list_elem_of_In, in_flat_map. exists child. split; [by apply list_elem_of_In|].
        apply list_elem_of_In. apply (Hfs child Hin). by exists x.
  - exists []. split; [done|]. intros c. split; [by intros H%elem_of_nil|].
    intros (x & Hx & item & Hi & _). inversion Hx as [|? child ? (item' & ? & _) _]; simplify_eq.
Qed.

(** The charts collected from a component are the charts at or below it:
    on a layout without cycles the recursion ends (a fuel above the height of
    the component is enough) and finds every chart that some path of children
    leads to, and nothing else. *)
Theorem getChartIdsFromComponent_descendants id :
  ∃ ids, getChartIdsFromComponent (S (rank id)) id layout = Some ids ∧
         ∀ c, c ∈ ids ↔ ∃ x, rtc child_of id x ∧ shows_chart x c.
Proof. apply getChartIdsFromComponent_spec. lia. Qed.
End below.

Lemma getChartIdsFromComponent_descendants_witness :
  let item id type children c := {| li_id := id; li_type := type; li_children := children;
                                    li_parents := None; li_chartId := c |} in
  let layout := [("ROW-1", item "ROW-1" ROW_TYPE ["CHART-1"] None);
                 ("CHART-1", item "CHART-1" CHART_TYPE [] (Some 7%Z))] in
  let rank x := if bool_decide (x = "ROW-1") then 1 else 0 in
  ∃ ids, getChartIdsFromComponent 2 "ROW-1" layout = Some ids ∧
         ∀ c, c ∈ ids ↔ ∃ x, rtc (child_of layout) "ROW-1" x ∧ shows_chart layout x c.
Proof.
  intros item layout rank.
  apply (getChartIdsFromComponent_descendants layout rank).
  intros x y (i & Hi & Hy). simpl in Hi.
  destruct (decide (x = "ROW-1")) as [->|].
  - injection Hi as <-. simpl in Hy. apply list_elem_of_singleton in Hy as ->. vm_compute. lia.
  - destruct (decide (x = "CHART-1")) as [->|]; [|discriminate Hi].
    injection Hi as <-. by apply elem_of_nil in Hy.
Defined.

(** ** Filter keys *)

(** The key of a filter field is read back into the chart id and the
    column, for every chart id and every column on one line, underscores and
    colons in the column included. *)
Theorem getDashboardFilterKey_roundtrip n column :
  all_chars (λ c, negb (is_line_end c)) column = true →
  getChartIdAndColumnFromFilterKey (getDashboardFilterKey (string_of_N n) column) =
  Ok (num_of_Z (Z.of_N n), column).
Proof.
  intros Hc. unfold getChartIdAndColumnFromFilterKey, getDashboardFilterKey.
  rewrite take_digits_app by (done || apply string_of_N_digits).
  rewrite strip_prefix_app, Hc, andb_true_r.
  destruct (string_of_N_first n) as (c & s & Hs & _).
  rewrite bool_decide_eq_true_2 by (by rewrite Hs).
  pose proof (parseInt_string_of_N n EmptyString I) as Hp. rewrite string_app_nil_r in Hp.
  by rewrite Hp, decimal_to_num_integer.
Qed.

Lemma getDashboardFilterKey_witness :
  getChartIdAndColumnFromFilterKey (getDashboardFilterKey (string_of_N 12) "a_b:c") =
  Ok (num_of_Z 12, "a_b:c").
Proof. apply (getDashboardFilterKey_roundtrip 12 "a_b:c"). reflexivity. Defined.
