(* ===== verification/LayoutReducer.v ===== *)
(** * The layout reducer

    [app/dashboard/reducers/dashboardLayout.js] and the functions of
    [app/dashboard/util] it calls: the state of a dashboard's layout, an object
    from component ids to components, and the actions of drag and drop.

    A component has the five fields of a layout item; [children], [parents] and
    [meta] may be missing.  The version string that a stored layout carries
    under its own key is no component and is kept aside.  A field that is read
    from a component that does not exist throws.  Each call of the id generator
    [nanoid] within one action gets its own number.  Warnings on the console
    are left out.

    A child list holds ids only: where the source would store [undefined] as a
    child (an index outside of the list), the model throws. *)

From Stdlib Require Import Ascii String.
From stdpp Require Import base strings option numbers list.
From S2P Require Import Prelude JsObject JsNumber JsValue Layout.

(** ** Components *)

(** @source app/dashboard/types.ts 198-217 LayoutItem *)
Record component := {
  c_id : string;
  c_type : string;
  c_children : option (list string);
  c_parents : option (list string);
  c_meta : option jsobj;
}.

#[export] Instance component_eq_dec : EqDecision component.
Proof. solve_decision. Defined.

Abbreviation components := (list (string * component)).

Definition kids (c : component) : list string := default [] (c_children c).

Definition with_children (children : list string) (c : component) : component :=
  {| c_id := c_id c; c_type := c_type c; c_children := Some children;
     c_parents := c_parents c; c_meta := c_meta c |}.

Definition with_parents (parents : list string) (c : component) : component :=
  {| c_id := c_id c; c_type := c_type c; c_children := c_children c;
     c_parents := Some parents; c_meta := c_meta c |}.

Definition with_meta (meta : jsobj) (c : component) : component :=
  {| c_id := c_id c; c_type := c_type c; c_children := c_children c;
     c_parents := c_parents c; c_meta := Some meta |}.

(** What [findParentId] reads of a component. *)
Definition item_of (c : component) : LayoutItem :=
  {| li_id := c_id c; li_type := c_type c; li_children := kids c;
     li_parents := c_parents c; li_chartId := None |}.

Definition items_of (layout : components) : layout_map := prod_map id item_of <$> layout.

(** [layout[null]] reads the key ["null"]. *)
Definition parent_key (childId : string) (layout : components) : string :=
  default "null" (findParentId childId (items_of layout)).

Definition missing (k : string) : jserror :=
  TypeError ("Cannot read properties of undefined (reading '" +:+ k +:+ "')").

(** [layout[id]], of which a field is read at once *)
Definition need (id : string) (layout : components) : result component :=
  match aget id layout with Some c => Ok c | None => Throw (missing "children") end.

(** [[...c.children]] *)
Definition need_children (c : component) : result (list string) :=
  match c_children c with
  | Some children => Ok children
  | None => Throw (TypeError "c.children is not iterable")
  end.

Definition need_end {A} (x : option A) : result A :=
  match x with Some x => Ok x | None => Throw (missing "id") end.

(** @source app/dashboard/util/constants.ts 20-21 DASHBOARD_GRID_ID, DASHBOARD_HEADER_ID *)
Definition DASHBOARD_GRID_ID : string := "GRID_ID".
Definition DASHBOARD_HEADER_ID : string := "HEADER_ID".

(** @source app/dashboard/util/constants.ts 25-25 NEW_COMPONENTS_SOURCE_ID *)
Definition NEW_COMPONENTS_SOURCE_ID : string := "NEW_COMPONENTS_SOURCE_ID".

(** @source app/dashboard/util/constants.ts 40-41 GRID_COLUMN_COUNT, GRID_MIN_COLUMN_COUNT *)
Definition GRID_COLUMN_COUNT : jsval := JNum (num_of_Z 12).
Definition GRID_MIN_COLUMN_COUNT : jsval := JNum (num_of_Z 1).

(** @source app/dashboard/util/constants.ts 45-45 GRID_DEFAULT_CHART_WIDTH *)
Definition GRID_DEFAULT_CHART_WIDTH : jsval := JNum (num_of_Z 4).

(** ** New components *)

Section factory.
Context (nanoid : nat → string) (t : string → string).

(** @source app/dashboard/util/newComponentFactory.js 41-65 typeToDefaultMetaData *)
Definition typeToDefaultMetaData : list (string * jsobj) :=
  let transparent := JStr "BACKGROUND_TRANSPARENT" in
  [(CHART_TYPE, [("width", GRID_DEFAULT_CHART_WIDTH); ("height", JNum (num_of_Z 50))]);
   (COLUMN_TYPE, [("width", GRID_DEFAULT_CHART_WIDTH); ("background", transparent)]);
   (DIVIDER_TYPE, []);
   (HEADER_TYPE, [("text", JStr (t "New header")); ("headerSize", JStr "MEDIUM_HEADER");
                  ("background", transparent)]);
   (MARKDOWN_TYPE, [("width", GRID_DEFAULT_CHART_WIDTH); ("height", JNum (num_of_Z 50))]);
   (ROW_TYPE, [("background", transparent)]);
   (TABS_TYPE, []);
   (TAB_TYPE, [("text", JStr EmptyString); ("defaultText", JStr (t "Tab title"));
               ("placeholder", JStr (t "Tab title"))]);
   (DYNAMIC_TYPE, [("width", GRID_COLUMN_COUNT); ("background", transparent)])].

(** @source app/dashboard/util/newComponentFactory.js 67-69 uuid *)
Definition uuid (n : nat) (type : string) : string := type +:+ "-" +:+ nanoid n.

(** @source app/dashboard/util/newComponentFactory.js 71-82 entityFactory *)
Definition newComponentFactory (n : nat) (type : string) (meta : option jsobj)
    (parents : option (list string)) : component :=
  {| c_type := type; c_id := uuid n type; c_children := Some [];
     c_parents := Some (default [] parents);
     c_meta := Some (ospread (default [] (aget type typeToDefaultMetaData)) (default [] meta)) |}.

(** @source app/dashboard/util/componentIsResizable.ts 26-32 componentIsResizable *)
Definition componentIsResizable (type : string) : bool :=
  bool_decide (type ∈ [COLUMN_TYPE; CHART_TYPE; MARKDOWN_TYPE; DYNAMIC_TYPE]).

(** @source app/dashboard/util/shouldWrapChildInRow.js 27-39 typeToWrapChildLookup *)
Definition typeToWrapChildLookup : list (string * list string) :=
  [(DASHBOARD_GRID_TYPE, [CHART_TYPE; COLUMN_TYPE; MARKDOWN_TYPE]);
   (TAB_TYPE, [CHART_TYPE; COLUMN_TYPE; MARKDOWN_TYPE])].

(** @source app/dashboard/util/shouldWrapChildInRow.js 41-48 shouldWrapChildInRow *)
Definition shouldWrapChildInRow (parentType childType : string) : bool :=
  if bool_decide (parentType = EmptyString) || bool_decide (childType = EmptyString) then false
  else
    match aget parentType typeToWrapChildLookup with
    | None => false
    | Some wrapChildLookup => bool_decide (childType ∈ wrapChildLookup)
    end.

(** ** Widths *)

Definition meta_width (c : component) : jsval := ofield "width" (default [] (c_meta c)).

(** [a + b] where [a] is a number or a string *)
Definition js_add (a b : jsval) : jsval :=
  match a, b with
  | JStr s, _ => JStr (s +:+ to_string b)
  | _, (JStr _ | JArr _ | JObj _) => JStr (to_string a +:+ to_string b)
  | _, _ => JNum (num_add (to_number a) (to_number b))
  end.

(** @source app/dashboard/util/getDetailedComponentWidth.js 29-41 getTotalChildWidth *)
Definition getTotalChildWidth (id : string) (layout : components) : jsval :=
  match aget id layout with
  | None => JNum (num_of_Z 0)
  | Some component =>
      foldl (λ width childId,
        let childWidth :=
          match aget childId layout with Some child => meta_width child | None => JUndef end in
        js_add width (js_or childWidth (JNum (num_of_Z 0))))
        (JNum (num_of_Z 0)) (kids component)
  end.

Record widths := {
  w_width : jsval;
  w_occupied : jsval;
  w_minimum : jsval;
}.

Definition call_stack_exceeded : jserror := GenericError "Maximum call stack size exceeded".

(** The recursion climbs from a row to its parent, which is the component
    passed for [id].  [passedComponent || components[id]] is the first
    argument; an empty object gives the same result as a missing component.

    @source app/dashboard/util/getDetailedComponentWidth.js 43-96 getDetailedComponentWidth *)
Fixpoint getDetailedComponentWidth (fuel : nat) (passed : option component)
    (layout : components) : result widths :=
  match passed with
  | None => Ok {| w_width := JUndef; w_occupied := JUndef; w_minimum := JUndef |}
  | Some component =>
      let width := meta_width component in
      if bool_decide (c_type component = ROW_TYPE) then
        match fuel with
        | 0 => Throw call_stack_exceeded
        | S fuel =>
            parent ← getDetailedComponentWidth fuel
                       (aget (parent_key (c_id component) layout) layout) layout;
            let occupiedWidth := getTotalChildWidth (c_id component) layout in
            Ok {| w_width := js_or (w_width parent) GRID_COLUMN_COUNT;
                  w_occupied := occupiedWidth;
                  w_minimum := js_or occupiedWidth GRID_MIN_COLUMN_COUNT |}
        end
      else if bool_decide (c_type component = COLUMN_TYPE) then
        minimumWidth ← fold_result (λ minimumWidth childId,
          match aget childId layout with
          | None => Throw (missing "type")
          | Some child =>
              if bool_decide (c_type child = ROW_TYPE) then
                Ok (JNum (num_max (to_number minimumWidth)
                            (to_number (getTotalChildWidth childId layout))))
              else Ok minimumWidth
          end) GRID_MIN_COLUMN_COUNT (kids component);
        Ok {| w_width := width; w_occupied := JNum (num_of_Z 0); w_minimum := minimumWidth |}
      else if bool_decide (c_type component ∈ [DYNAMIC_TYPE; MARKDOWN_TYPE; CHART_TYPE]) then
        Ok {| w_width := width; w_occupied := width; w_minimum := GRID_MIN_COLUMN_COUNT |}
      else Ok {| w_width := width; w_occupied := width; w_minimum := JUndef |}
  end.

(** ** Drops *)

Record drop_end := {
  de_id : string;
  de_type : string;
  de_index : Z;
}.

Record dragged := {
  dg_id : string;
  dg_type : string;
  dg_meta : option jsobj;
}.

Record dropResult := {
  dr_source : option drop_end;
  dr_destination : option drop_end;
  dr_dragging : option dragged;
  dr_position : option string;
}.

(** [Number(a - b)] *)
Definition js_sub (a b : jsval) : jsnum := num_sub (to_number a) (to_number b).

(** Recursion through rows is bounded by the number of components on a layout
    without cycles.

    @source app/dashboard/util/getComponentWidthFromDrop.js 24-81 getComponentWidthFromDrop *)
Definition getComponentWidthFromDrop (n : nat) (drop : dropResult) (layout : components)
    : result jsval :=
  source ← need_end (dr_source drop);
  destination ← need_end (dr_destination drop);
  dragging ← need_end (dr_dragging drop);
  let widths_of c := getDetailedComponentWidth (S (length layout)) c layout in
  let isNewComponent := bool_decide (de_id source = NEW_COMPONENTS_SOURCE_ID) in
  let component :=
    if isNewComponent then Some (newComponentFactory n (dg_type dragging) None None)
    else aget (dg_id dragging) layout in
  if bool_decide (de_id source = de_id destination) then
    match component ≫= c_meta with
    | Some meta => Ok (ofield "width" meta)
    | None => Throw (missing "width")
    end
  else
    dragging_widths ← widths_of component;
    destination_widths ← widths_of (aget (de_id destination) layout);
    let draggingWidth := w_width dragging_widths in
    let capacity := js_sub (w_width destination_widths) (w_occupied destination_widths) in
    destinationCapacity ←
      (if isNaN capacity then
         grandparent ← widths_of (aget (parent_key (de_id destination) layout) layout);
         Ok (js_sub (w_width grandparent) (w_occupied grandparent))
       else Ok capacity);
    if isNaN destinationCapacity || isNaN (to_number draggingWidth) then Ok draggingWidth
    else if num_leb (to_number draggingWidth) destinationCapacity then Ok draggingWidth
    else if num_leb (to_number (w_minimum dragging_widths)) destinationCapacity
    then Ok (JNum destinationCapacity)
    else Ok (JNum (num_of_Z (-1))).

(** @source app/dashboard/util/dropOverflowsParent.js 21-24 doesChildOverflowParent *)
Definition dropOverflowsParent (n : nat) (drop : dropResult) (layout : components)
    : result bool :=
  childWidth ← getComponentWidthFromDrop n drop layout;
  Ok match childWidth with JNum w => num_ltb w (num_of_Z 0) | _ => false end.

(** [list.splice(start, 0, ...items)] *)
Definition splice_start (start : Z) (len : nat) : nat :=
  if (start <? 0)%Z then Z.to_nat (Z.max (Z.of_nat len + start) 0)
  else Nat.min (Z.to_nat start) len.

Definition insert_at {A} (start : Z) (x : A) (l : list A) : list A :=
  let i := splice_start start (length l) in take i l ++ x :: drop i l.

(** [list.splice(start, 1)] *)
Definition remove_at {A} (start : Z) (l : list A) : list A :=
  let i := splice_start start (length l) in take i l ++ drop (S i) l.

(** [list[index]] *)
Definition at_index {A} (index : Z) (l : list A) : option A :=
  if (index <? 0)%Z then None else l !! Z.to_nat index.

Definition undefined_child : jserror := GenericError "undefined as a child".

(** [reorder] moves the element [list[startIndex]], which is given for
    [splice(startIndex, 1)].

    @source app/dashboard/util/dnd-reorder.js 23-29 reorder *)
Definition reorder (l : list string) (startIndex endIndex : Z) : result (list string) :=
  match l !! splice_start startIndex (length l) with
  | Some removed => Ok (insert_at endIndex removed (remove_at startIndex l))
  | None => Throw undefined_child
  end.

Definition DROP_LEFT : string := "DROP_LEFT".
Definition DROP_RIGHT : string := "DROP_RIGHT".

(** Where a tab is dropped in its own list; [None] when it stays in place.

    @source app/dashboard/util/dnd-reorder.js 44-73 reorderItem (same list) *)
Definition same_list_index (isTabsType : bool) (source destination : drop_end)
    (position : option string) : option Z :=
  let dropIndex := de_index destination in
  if isTabsType then
    let dropIndex :=
      if bool_decide (position = Some DROP_LEFT) then Z.max dropIndex 0
      else if bool_decide (position = Some DROP_RIGHT) then (dropIndex + 1)%Z
      else dropIndex in
    let isRightPosition :=
      bool_decide (position = Some DROP_RIGHT) && (de_index source =? de_index destination + 1)%Z in
    let isLeftPosition :=
      bool_decide (position = Some DROP_LEFT) && (de_index source =? de_index destination - 1)%Z in
    if isRightPosition || isLeftPosition then None
    else Some (if (de_index source <? dropIndex)%Z then dropIndex - 1 else dropIndex)%Z
  else Some dropIndex.

(** @source app/dashboard/util/dnd-reorder.js 86-93 reorderItem (other list) *)
Definition other_list_index (isTabsType : bool) (destination : drop_end)
    (position : option string) (currentLength : nat) : Z :=
  let dropIndex := de_index destination in
  if isTabsType then
    if bool_decide (position = Some DROP_LEFT) then Z.max dropIndex 0
    else if bool_decide (position = Some DROP_RIGHT)
    then Z.min (dropIndex + 1) (Z.of_nat currentLength - 1)
    else dropIndex
  else dropIndex.

(** @source app/dashboard/util/dnd-reorder.js 31-112 reorderItem *)
Definition reorderItem (entitiesMap : components) (source destination : drop_end)
    (position : option string) : result components :=
  sourceEntity ← need (de_id source) entitiesMap;
  current ← need_children sourceEntity;
  destinationEntity ← need (de_id destination) entitiesMap;
  next ← need_children destinationEntity;
  let isSameSource := bool_decide (de_id source = de_id destination) in
  let isTabsType :=
    negb (bool_decide (de_type source = EmptyString)) &&
    bool_decide (de_type destination = TABS_TYPE) in
  if isSameSource then
    match same_list_index isTabsType source destination position with
    | None => Ok entitiesMap
    | Some dropIndex =>
        reordered ← reorder current (de_index source) dropIndex;
        Ok (oset (de_id source) (with_children reordered sourceEntity) entitiesMap)
    end
  else
    match at_index (de_index source) current with
    | None => Throw undefined_child
    | Some target =>
        let dropIndex := other_list_index isTabsType destination position (length current) in
        let current := remove_at (de_index source) current in
        let next := insert_at dropIndex target next in
        Ok (oset (de_id destination) (with_children next destinationEntity)
              (oset (de_id source) (with_children current sourceEntity) entitiesMap))
    end.

(** [c.meta.width = width] *)
Definition set_width (width : jsval) (c : component) : component :=
  with_meta (oset "width" width (default [] (c_meta c))) c.

(** @source app/dashboard/util/newEntitiesFromDrop.js 26-73 newEntitiesFromDrop *)
Definition newEntitiesFromDrop (drop : dropResult) (layout : components) : result components :=
  dragging ← need_end (dr_dragging drop);
  destination ← need_end (dr_destination drop);
  let dragType := dg_type dragging in
  dropEntity ← need (de_id destination) layout;
  let dropType := c_type dropEntity in
  let dropPath := default [] (c_parents dropEntity) ++ [c_id dropEntity] in
  let newDropChild := with_parents dropPath (newComponentFactory 0 dragType (dg_meta dragging) None) in
  newDropChild ←
    (if componentIsResizable dragType then
       width ← getComponentWidthFromDrop 1 drop layout;
       Ok (set_width (js_or width JUndef) newDropChild)
     else Ok newDropChild);
  let wrapChildInRow := shouldWrapChildInRow dropType dragType in
  let childId := c_id newDropChild in
  let '(newEntities, newChildId) :=
    if wrapChildInRow then
      let rowWrapper :=
        with_parents dropPath (with_children [childId] (newComponentFactory 2 ROW_TYPE None None)) in
      (oset (c_id rowWrapper) rowWrapper
         (oset childId (with_parents (dropPath ++ [c_id rowWrapper]) newDropChild) []),
       c_id rowWrapper)
    else if bool_decide (dragType = TABS_TYPE) then
      let tabChild := with_parents dropPath (newComponentFactory 2 TAB_TYPE None None) in
      (oset (c_id tabChild) tabChild
         (oset childId (with_children [c_id tabChild] newDropChild) []), childId)
    else (oset childId newDropChild [], childId) in
  dropChildren ← need_children dropEntity;
  Ok (oset (de_id destination)
        (with_children (insert_at (de_index destination) newChildId dropChildren) dropEntity)
        newEntities).

(** ** The actions *)

Fixpoint remove_elem (x : string) (l : list string) : list string :=
  match l with
  | [] => []
  | y :: l => if bool_decide (y = x) then l else y :: remove_elem x l
  end.

(** [indexOf] and [splice] on the children of the parent, if it still exists.

    @source app/dashboard/reducers/dashboardLayout.js 64-77 recursivelyDeleteChildren (parent) *)
Definition detach (componentId parentId : string) (layout : components) : components :=
  match aget parentId layout with
  | Some parent =>
      match c_children parent with
      | Some children =>
          if bool_decide (componentId ∈ children)
          then oset parentId (with_children (remove_elem componentId children) parent) layout
          else layout
      | None => layout
      end
  | None => layout
  end.

(** Every call that recurses deletes a component first, so that the number of
    components bounds the depth.

    @source app/dashboard/reducers/dashboardLayout.js 48-79 recursivelyDeleteChildren *)
Fixpoint recursivelyDeleteChildren (fuel : nat) (componentId parentId : string)
    (nextComponents : components) : components :=
  match fuel with
  | 0 => nextComponents
  | S fuel =>
      match aget componentId nextComponents with
      | None => nextComponents
      | Some component =>
          let nextComponents := adel componentId nextComponents in
          let nextComponents :=
            foldl (λ next childId, recursivelyDeleteChildren fuel childId componentId next)
              nextComponents (kids component) in
          detach componentId parentId nextComponents
      end
  end.

Definition delete_below (componentId parentId : string) (layout : components) : components :=
  recursivelyDeleteChildren (length layout) componentId parentId layout.

Inductive layout_action :=
| HYDRATE_DASHBOARD (present : components)
| UPDATE_COMPONENTS (nextComponents : components)
| DELETE_COMPONENT (id : string) (parentId : option string)
| CREATE_COMPONENT (drop : dropResult)
| MOVE_COMPONENT (drop : dropResult)
| CREATE_TOP_LEVEL_TABS (drop : dropResult)
| DELETE_TOP_LEVEL_TABS
| UPDATE_COMPONENTS_PARENTS_LIST
| DASHBOARD_TITLE_CHANGED (text : jsval)
| OTHER_ACTION (type : string).

(** @source app/dashboard/reducers/dashboardLayout.js 98-118 DELETE_COMPONENT *)
Definition delete_component (id : string) (parentId : option string) (state : components)
    : components :=
  match parentId with
  | Some parentId =>
      if bool_decide (parentId = EmptyString) || bool_decide (id = EmptyString) ||
         negb (ahas id state) || negb (ahas parentId state)
      then state
      else
        let nextComponents := delete_below id parentId state in
        match aget parentId nextComponents with
        | Some nextParent =>
            if bool_decide (c_type nextParent = ROW_TYPE) &&
               bool_decide (c_children nextParent = Some [])
            then delete_below parentId (parent_key parentId nextComponents) nextComponents
            else nextComponents
        | None => nextComponents
        end
  | None => state
  end.

(** The width of the component that was moved.

    @source app/dashboard/reducers/dashboardLayout.js 148-164 MOVE_COMPONENT (width) *)
Definition resize_moved (drop : dropResult) (dragging : dragged) (state nextEntities : components)
    : result components :=
  moved ← need (dg_id dragging) nextEntities;
  if componentIsResizable (c_type moved) then
    width ← getComponentWidthFromDrop 0 drop state;
    let nextWidth := js_or width JUndef in
    if strict_eq (meta_width moved) nextWidth then Ok nextEntities
    else Ok (oset (dg_id dragging) (set_width nextWidth moved) nextEntities)
  else Ok nextEntities.

(** The row put around the component that was moved.

    @source app/dashboard/reducers/dashboardLayout.js 172-180 MOVE_COMPONENT (row) *)
Definition wrap_moved (destination : drop_end) (nextEntities : components) : result components :=
  destinationEntity ← need (de_id destination) nextEntities;
  destinationChildren ← need_children destinationEntity;
  match at_index (de_index destination) destinationChildren with
  | None => Throw undefined_child
  | Some child =>
      let newRow :=
        with_parents (default [] (c_parents destinationEntity) ++ [de_id destination])
          (with_children [child] (newComponentFactory 1 ROW_TYPE None None)) in
      Ok (oset (c_id newRow) newRow
            (oset (de_id destination)
               (with_children (<[Z.to_nat (de_index destination) := c_id newRow]>
                                 destinationChildren) destinationEntity) nextEntities))
  end.

(** @source app/dashboard/reducers/dashboardLayout.js 133-186 MOVE_COMPONENT *)
Definition move_component (drop : dropResult) (state : components) : result components :=
  match dr_source drop, dr_destination drop, dr_dragging drop with
  | Some source, Some destination, Some dragging =>
      nextEntities ← reorderItem state source destination (dr_position drop);
      nextEntities ← resize_moved drop dragging state nextEntities;
      nextEntities ←
        (if shouldWrapChildInRow (de_type destination) (dg_type dragging)
         then wrap_moved destination nextEntities else Ok nextEntities);
      Ok (ospread state nextEntities)
  | _, _, _ => Ok state
  end.

(** [array.find(component => component.type === type)] with its key *)
Definition find_type (type : string) (layout : components) : result (string * component) :=
  match List.find (λ kc, bool_decide (c_type kc.2 = type)) layout with
  | Some kc => Ok kc
  | None => Throw (missing "children")
  end.

Definition first_child (c : component) : result string :=
  match kids c with
  | x :: _ => Ok x
  | [] => Throw (missing "children")
  end.

(** @source app/dashboard/reducers/dashboardLayout.js 188-248 CREATE_TOP_LEVEL_TABS *)
Definition create_top_level_tabs (drop : dropResult) (state : components) : result components :=
  source ← need_end (dr_source drop);
  rootComponent ← need DASHBOARD_ROOT_ID state;
  topLevelId ← first_child rootComponent;
  if bool_decide (de_id source ≠ NEW_COMPONENTS_SOURCE_ID) then
    dragging ← need_end (dr_dragging drop);
    draggingTabs ← need (dg_id dragging) state;
    draggingTabId ← first_child draggingTabs;
    topLevelComponent ← need topLevelId state;
    topLevelChildren ← need_children topLevelComponent;
    let childrenToMove := filter (λ id, id ≠ dg_id dragging) topLevelChildren in
    draggingTab ← need draggingTabId state;
    draggingTabChildren ← need_children draggingTab;
    Ok (oset draggingTabId (with_children (draggingTabChildren ++ childrenToMove) draggingTab)
          (oset topLevelId (with_children [] topLevelComponent)
             (oset DASHBOARD_ROOT_ID (with_children [dg_id dragging] rootComponent) state)))
  else
    newEntities ← newEntitiesFromDrop drop state;
    tab ← find_type TAB_TYPE newEntities;
    tabs ← find_type TABS_TYPE newEntities;
    topLevelComponent ← need topLevelId state;
    topLevelChildren ← need_children topLevelComponent;
    let newEntities := oset tab.1 (with_children topLevelChildren tab.2) newEntities in
    let newEntities := oset topLevelId (with_children [] topLevelComponent) newEntities in
    let newEntities :=
      oset DASHBOARD_ROOT_ID (with_children [c_id tabs.2] rootComponent) newEntities in
    Ok (ospread state newEntities).

(** The loop of [DELETE_TOP_LEVEL_TABS]: the children of the tabs and the
    layout without the tabs.

    @source app/dashboard/reducers/dashboardLayout.js 260-264 DELETE_TOP_LEVEL_TABS (loop) *)
Definition collect_tab (state : components) (acc : list string * components) (tabId : string)
    : result (list string * components) :=
  tabComponent ← need tabId state;
  tabChildren ← need_children tabComponent;
  Ok (acc.1 ++ tabChildren, adel tabId acc.2).

(** The grid is kept in the layout while there are top-level tabs; a missing
    one would be created without an id.

    @source app/dashboard/reducers/dashboardLayout.js 250-279 DELETE_TOP_LEVEL_TABS *)
Definition delete_top_level_tabs (state : components) : result components :=
  rootComponent ← need DASHBOARD_ROOT_ID state;
  topLevelId ← first_child rootComponent;
  topLevelTabs ← need topLevelId state;
  if bool_decide (c_type topLevelTabs ≠ TABS_TYPE) then Ok state
  else
    tabIds ← need_children topLevelTabs;
    collected ← fold_result (collect_tab state) ([], state) tabIds;
    let nextEntities := adel topLevelId collected.2 in
    let nextEntities :=
      oset DASHBOARD_ROOT_ID (with_children [DASHBOARD_GRID_ID] rootComponent) nextEntities in
    let grid :=
      default {| c_id := EmptyString; c_type := EmptyString; c_children := None;
                 c_parents := None; c_meta := None |} (aget DASHBOARD_GRID_ID state) in
    Ok (oset DASHBOARD_GRID_ID (with_children collected.1 grid) nextEntities).

(** The recursion follows the children of the current component.

    @source app/dashboard/util/updateComponentParentsList.js 21-58 updateComponentParentsList *)
Fixpoint updateComponentParentsList (fuel : nat) (currentComponent : component)
    (layout : components) : result components :=
  match fuel with
  | 0 => Throw call_stack_exceeded
  | S fuel =>
      if ahas (c_id currentComponent) layout then
        let parentsList := default [] (c_parents currentComponent) ++ [c_id currentComponent] in
        fold_result (λ layout childId,
          match aget childId layout with
          | Some child =>
              let child := with_parents parentsList child in
              updateComponentParentsList fuel child (oset childId child layout)
          | None => Ok layout
          end) layout (kids currentComponent)
      else Ok layout
  end.

(** @source app/dashboard/reducers/dashboardLayout.js 281-294 UPDATE_COMPONENTS_PARENTS_LIST *)
Definition update_parents_list (state : components) : result components :=
  match aget DASHBOARD_ROOT_ID state with
  | Some root => updateComponentParentsList (S (length state)) root state
  | None => Ok state
  end.

(** @source app/dashboard/reducers/dashboardLayout.js 296-307 DASHBOARD_TITLE_CHANGED *)
Definition dashboard_title_changed (text : jsval) (state : components) : result components :=
  header ← need DASHBOARD_HEADER_ID state;
  Ok (oset DASHBOARD_HEADER_ID
        (with_meta (oset "text" text (default [] (c_meta header))) header) state).

(** @source app/dashboard/reducers/dashboardLayout.js 310-317 layoutReducer *)
Definition layoutReducer (state : components) (action : layout_action) : result components :=
  match action with
  | HYDRATE_DASHBOARD present => Ok (ospread [] present)
  | UPDATE_COMPONENTS nextComponents => Ok (ospread state nextComponents)
  | DELETE_COMPONENT id parentId => Ok (delete_component id parentId state)
  | CREATE_COMPONENT drop =>
      newEntities ← newEntitiesFromDrop drop state;
      Ok (ospread state newEntities)
  | MOVE_COMPONENT drop => move_component drop state
  | CREATE_TOP_LEVEL_TABS drop => create_top_level_tabs drop state
  | DELETE_TOP_LEVEL_TABS => delete_top_level_tabs state
  | UPDATE_COMPONENTS_PARENTS_LIST => update_parents_list state
  | DASHBOARD_TITLE_CHANGED text => dashboard_title_changed text state
  | OTHER_ACTION _ => Ok state
  end.

(** The type of an action that the layout history tracks; resizing and
    handling a drop are never dispatched with a type of their own.

    @source app/dashboard/reducers/undoableDashboardLayout.js 37-47 TRACKED_ACTIONS *)
Definition tracked (action : layout_action) : bool :=
  match action with
  | HYDRATE_DASHBOARD _ | UPDATE_COMPONENTS _ | DELETE_COMPONENT _ _ | CREATE_COMPONENT _
  | CREATE_TOP_LEVEL_TABS _ | DELETE_TOP_LEVEL_TABS | MOVE_COMPONENT _ => true
  | OTHER_ACTION type => bool_decide (type ∈ ["RESIZE_COMPONENT"; "HANDLE_COMPONENT_DROP"])
  | UPDATE_COMPONENTS_PARENTS_LIST | DASHBOARD_TITLE_CHANGED _ => false
  end.

(** @source app/dashboard/reducers/undoableDashboardLayout.js 86-92 layoutOnlyReducer *)
Definition layoutOnlyReducer (state : components) (action : layout_action) : result components :=
  if negb (tracked action) then Ok state else layoutReducer state action.
End factory.
