(* ===== verification/LayoutReducerFacts.v ===== *)
(** * Properties of the layout reducer

    A layout is well formed when it is a forest: components are stored under
    their ids, children exist, no component is listed twice or under two
    parents, and no component lies below itself.  Deleting removes exactly the
    components below the deleted one; the actions of drag and drop keep a
    layout well formed, with the exception of making nested tabs top-level
    tabs, which closes a cycle. *)

From Stdlib Require Import Ascii String.
From stdpp Require Import base strings option numbers list sets relations.
From S2P Require Import Prelude JsObject JsNumber JsValue Layout LayoutFacts LayoutReducer.

(** ** Forests *)

Definition child (l : components) (x y : string) : Prop :=
  ∃ c, aget x l = Some c ∧ y ∈ kids c.

Record wf (l : components) : Prop := {
  wf_keys : NoDup (akeys l);
  wf_ids : ∀ x c, aget x l = Some c → c_id c = x;
  wf_closed : ∀ x y, child l x y → is_Some (aget y l);
  wf_nodup : ∀ x c, aget x l = Some c → NoDup (kids c);
  wf_parent : ∀ x1 x2 y, child l x1 y → child l x2 y → x1 = x2;
  wf_acyclic : ∀ x, ¬ tc (child l) x x;
}.

Lemma child_adel l id x y : child (adel id l) x y ↔ child l x y ∧ x ≠ id.
Proof.
  unfold child. setoid_rewrite aget_adel. case_decide; naive_solver.
Qed.

Lemma child_none l x y : aget x l = None → ¬ child l x y.
Proof. intros H (c & Hc & _). congruence. Qed.

Lemma rtc_child_none l x y : aget x l = None → rtc (child l) x y → y = x.
Proof. intros H Hr. inversion Hr as [|? z ? Hz]; subst; [done|]. by destruct (child_none l x z H). Qed.

(** ** Deletion

    [removed S l r]: the layout [r] is [l] without the components of [S]. *)
Definition removed (S : string → Prop) (l r : components) : Prop :=
  ∀ x, (S x ∧ aget x r = None) ∨ (¬ S x ∧ aget x r = aget x l).

Lemma removed_child S l r x y : removed S l r → child r x y → child l x y ∧ ¬ S x.
Proof.
  intros H (c & Hc & Hy). destruct (H x) as [[_ E]|[HS E]]; [congruence|].
  split; [|done]. exists c. by rewrite <- E.
Qed.

Lemma removed_rtc S l r x y : removed S l r → rtc (child r) x y → rtc (child l) x y.
Proof.
  intros H. induction 1 as [|x z y Hxz _ IH]; [done|].
  eapply rtc_l; [|done]. by apply (removed_child S l r).
Qed.

(** A path either meets the removed part or survives. *)
Lemma removed_path a l r x y :
  removed (rtc (child l) a) l r → rtc (child l) x y → rtc (child l) a y ∨ rtc (child r) x y.
Proof.
  intros H. induction 1 as [x|x z y (c & Hc & Hz) Hzy [IH|IH]]; [by right|by left|].
  destruct (H x) as [[Hx _]|[_ E]].
  - left. etrans; [exact Hx|]. eapply rtc_l; [by exists c|done].
  - right. eapply rtc_l; [|exact IH]. exists c. by rewrite E.
Qed.

Lemma path_after_delete l id c y :
  aget id l = Some c → rtc (child l) id y →
  y = id ∨ ∃ z, z ∈ kids c ∧ rtc (child (adel id l)) z y.
Proof.
  intros Hc. revert y. refine (rtc_ind_r _ id _ _); [by left|]. intros x y Hx Hxy IH.
  destruct (decide (y = id)) as [->|Hy]; [by left|]. right.
  destruct IH as [->|(z & Hz & Hzx)].
  - destruct Hxy as (c' & Hc' & Hin). simplify_eq. exists y. split; [done|]. apply rtc_refl.
  - destruct (decide (x = id)) as [->|Hx'].
    + destruct Hxy as (c' & Hc' & Hin). simplify_eq. exists y. split; [done|]. apply rtc_refl.
    + exists z. split; [done|]. eapply rtc_r; [done|]. by apply child_adel.
Qed.

Lemma detach_absent id p l : aget p l = None → detach id p l = l.
Proof. intros H. unfold detach. by rewrite H. Qed.

Section deletion.
Context (fuel : nat) (id : string).
Hypothesis delete_child : ∀ l y,
  NoDup (akeys l) → length l ≤ fuel → aget id l = None →
  let r := recursivelyDeleteChildren fuel y id l in
  removed (rtc (child l) y) l r ∧ NoDup (akeys r) ∧ length r ≤ length l.

Lemma delete_children l ks :
  NoDup (akeys l) → length l ≤ fuel → aget id l = None →
  let r := foldl (λ next y, recursivelyDeleteChildren fuel y id next) l ks in
  removed (λ x, ∃ y, y ∈ ks ∧ rtc (child l) y x) l r ∧ NoDup (akeys r) ∧ length r ≤ length l.
Proof using delete_child.
  revert l. induction ks as [|y ks IH]; intros l Hk Hl Hid; cbn [foldl].
  { split; [|done]. intros x. right. split; [|done]. intros (y & Hy & _). by apply elem_of_nil in Hy. }
  destruct (delete_child l y Hk Hl Hid) as (Hrem & Hk1 & Hl1).
  set (l1 := recursivelyDeleteChildren fuel y id l) in *.
  assert (aget id l1 = None) as Hid1 by (destruct (Hrem id) as [[_ ?]|[_ ->]]; done).
  destruct (IH l1 Hk1 ltac:(lia) Hid1) as (Hrem2 & Hk2 & Hl2).
  split; [|split; [done|lia]]. intros x.
  destruct (Hrem2 x) as [[(y' & Hy' & Hx) E]|[Hx E]].
  - left. split; [|done]. exists y'. split; [by right|]. by eapply removed_rtc.
  - destruct (Hrem x) as [[Hyx E1]|[Hyx E1]].
    + left. split; [|by rewrite E]. exists y. split; [by left|done].
    + right. split; [|by rewrite E]. intros (y' & [->|Hy']%elem_of_cons & Hp); [done|].
      destruct (removed_path y l l1 y' x Hrem Hp) as [|Hp1]; [done|]. apply Hx. eauto.
Qed.
End deletion.

(** The loop over the children removes everything below the component. *)
Lemma delete_component_below fuel id l c :
  (∀ l y, NoDup (akeys l) → length l ≤ fuel → aget id l = None →
     let r := recursivelyDeleteChildren fuel y id l in
     removed (rtc (child l) y) l r ∧ NoDup (akeys r) ∧ length r ≤ length l) →
  NoDup (akeys l) → length l ≤ S fuel → aget id l = Some c →
  let r := foldl (λ next y, recursivelyDeleteChildren fuel y id next) (adel id l) (kids c) in
  removed (rtc (child l) id) l r ∧ NoDup (akeys r) ∧ length r ≤ length l.
Proof.
  intros Hrec Hk Hl Hc.
  assert (S (length (adel id l)) = length l) as Hlen.
  { apply length_adel_in; [done|]. apply aget_is_Some. by exists c. }
  destruct (delete_children fuel id Hrec (adel id l) (kids c)) as (Hrem & Hk' & Hl').
  { by apply NoDup_akeys_adel. } { lia. } { apply aget_adel_eq. }
  split; [|split; [done|lia]]. intros x.
  destruct (decide (x = id)) as [->|Hx].
  { left. split; [apply rtc_refl|].
    destruct (Hrem id) as [[_ ?]|[_ ->]]; [done|]. apply aget_adel_eq. }
  destruct (Hrem x) as [[(y & Hy & Hyx) E]|[Hn E]].
  - left. split; [|done]. eapply rtc_l; [by exists c|].
    eapply (rtc_subrel (child (adel id l))); [|done]. intros a b ?. by eapply child_adel.
  - right. rewrite E, aget_adel_ne by done. split; [|done].
    intros [?|(z & Hz & Hzx)]%(path_after_delete l id c); [done| |done]. apply Hn. eauto.
Qed.

Lemma recursivelyDeleteChildren_removed fuel id p l :
  NoDup (akeys l) → length l ≤ fuel → aget p l = None →
  let r := recursivelyDeleteChildren fuel id p l in
  removed (rtc (child l) id) l r ∧ NoDup (akeys r) ∧ length r ≤ length l.
Proof.
  revert id p l. induction fuel as [|fuel IH]; intros id p l Hk Hl Hp.
  { destruct l; [|simpl in Hl; lia]. split; [|done]. intros x.
    destruct (decide (x = id)) as [->|Hx]; [left; split; [apply rtc_refl|done]|].
    right. split; [|done]. intros Hr. by apply rtc_child_none in Hr. }
  cbn [recursivelyDeleteChildren]. destruct (aget id l) as [c|] eqn:Hc.
  - destruct (delete_component_below fuel id l c) as (Hrem & Hk' & Hl'); try done.
    { intros l' y Hk' Hl' Hid. by apply IH. }
    rewrite detach_absent; [done|]. destruct (Hrem p) as [[_ ?]|[_ ->]]; done.
  - split; [|done]. intros x. destruct (decide (x = id)) as [->|Hx].
    { left. split; [apply rtc_refl|done]. }
    right. split; [|done]. intros Hr. by apply rtc_child_none in Hr.
Qed.

(** [id] is taken out of the children of [c]. *)
Definition without (id : string) (c : component) : component :=
  if bool_decide (id ∈ kids c) then with_children (remove_elem id (kids c)) c else c.

Lemma aget_detach id p l x :
  aget x (detach id p l) = if decide (x = p) then without id <$> aget x l else aget x l.
Proof.
  unfold detach, without. case_decide as Hx; [subst x|].
  - destruct (aget p l) as [c|] eqn:E; [|done]. unfold kids.
    destruct (c_children c) as [ks|] eqn:Ek; cbn [default fmap option_fmap option_map];
      unfold kids; rewrite ?Ek; cbn [default].
    + destruct (decide (id ∈ ks)).
      * rewrite !bool_decide_eq_true_2 by done. by rewrite aget_oset_eq.
      * rewrite !bool_decide_eq_false_2 by done. done.
    + done.
  - destruct (aget p l) as [c|]; [|done]. destruct (c_children c); [|done].
    case_bool_decide; [|done]. by rewrite aget_oset_ne.
Qed.

(** The components below [id] go, [id] is taken out of the children of the
    component [p], and nothing else changes. *)
Lemma delete_below_spec id p l :
  NoDup (akeys l) → is_Some (aget id l) →
  ∀ x, (rtc (child l) id x ∧ aget x (delete_below id p l) = None) ∨
       (¬ rtc (child l) id x ∧
        aget x (delete_below id p l) = if decide (x = p) then without id <$> aget x l else aget x l).
Proof.
  intros Hk [c Hc] x. unfold delete_below.
  destruct (length l) as [|fuel] eqn:Hl; [destruct l; done|].
  cbn [recursivelyDeleteChildren]. rewrite Hc.
  destruct (delete_component_below fuel id l c) as (Hrem & _ & _); try done; [|lia|].
  { intros l' y Hk' Hl' Hid. by apply recursivelyDeleteChildren_removed. }
  rewrite aget_detach. destruct (Hrem x) as [[Hx E]|[Hx E]]; [left|right]; (split; [done|]).
  - rewrite E. by case_decide.
  - by rewrite E.
Qed.

Lemma NoDup_detach id p l : NoDup (akeys l) → NoDup (akeys (detach id p l)).
Proof. intros H. unfold detach. repeat (break_match; auto with liteset). Qed.

Lemma delete_below_NoDup id p l : NoDup (akeys l) → NoDup (akeys (delete_below id p l)).
Proof.
  intros Hk. unfold delete_below. destruct (length l) as [|fuel] eqn:Hl; [done|].
  cbn [recursivelyDeleteChildren]. destruct (aget id l) as [c|] eqn:Hc; [|done].
  apply NoDup_detach. eapply delete_component_below; try done; [|lia].
  intros l' y ?? ?. by apply recursivelyDeleteChildren_removed.
Qed.

Lemma remove_elem_spec x l :
  NoDup l → NoDup (remove_elem x l) ∧ ∀ y, y ∈ remove_elem x l ↔ y ∈ l ∧ y ≠ x.
Proof.
  induction 1 as [|z l Hz Hl [IHn IHe]]; cbn [remove_elem].
  { split; [apply NoDup_nil_2|]. intros y. split; [by intros ?%elem_of_nil|naive_solver]. }
  case_bool_decide as E; [subst z|].
  - split; [done|]. intros y. rewrite elem_of_cons. split; [|naive_solver].
    intros Hy. split; [by right|]. congruence.
  - split; [apply NoDup_cons; rewrite IHe; naive_solver|].
    intros y. rewrite !elem_of_cons, IHe. naive_solver.
Qed.

Lemma kids_without id c :
  NoDup (kids c) → NoDup (kids (without id c)) ∧ ∀ y, y ∈ kids (without id c) ↔ y ∈ kids c ∧ y ≠ id.
Proof.
  intros H. unfold without. case_bool_decide as Hin.
  - unfold kids at 1 2. cbn [with_children c_children default]. by apply remove_elem_spec.
  - split; [done|]. intros y. split; [|naive_solver]. intros Hy. split; [done|]. congruence.
Qed.

Lemma without_absent id c : id ∉ kids c → without id c = c.
Proof. intros H. unfold without. by rewrite bool_decide_eq_false_2. Qed.

(** The layout that is left when everything below [id] is gone. *)
Definition pruned (id : string) (l r : components) : Prop :=
  ∀ x, (rtc (child l) id x ∧ aget x r = None) ∨
       (¬ rtc (child l) id x ∧ aget x r = without id <$> aget x l).

Lemma pruned_child id l r x y :
  wf l → pruned id l r → child r x y ↔ child l x y ∧ y ≠ id ∧ ¬ rtc (child l) id x.
Proof.
  intros Hwf H. split.
  - intros (c & Hc & Hy). destruct (H x) as [[_ E]|[Hx E]]; [congruence|]. rewrite Hc in E.
    destruct (aget x l) as [c0|] eqn:E0; [|done]. cbn in E. injection E as ->.
    apply kids_without in Hy as [Hy Hne]; [|by eapply wf_nodup]. split; [by exists c0|done].
  - intros ((c & Hc & Hy) & Hne & Hx). destruct (H x) as [[? _]|[_ E]]; [done|].
    exists (without id c). rewrite E, Hc. split; [done|]. apply kids_without; [|done].
    by eapply wf_nodup.
Qed.

Lemma tc_subrel (R1 R2 : string → string → Prop) :
  (∀ x y, R1 x y → R2 x y) → ∀ x y, tc R1 x y → tc R2 x y.
Proof.
  intros H x y. induction 1 as [x y Hxy|x z y Hxz _ IH]; [by apply tc_once, H|].
  eapply tc_l; [by apply H|done].
Qed.

Lemma without_id id c : c_id (without id c) = c_id c ∧ c_type (without id c) = c_type c.
Proof. unfold without. by case_bool_decide. Qed.

Lemma pruned_wf id l r : wf l → NoDup (akeys r) → pruned id l r → wf r.
Proof.
  intros Hwf Hk H.
  assert (∀ x c, aget x r = Some c → ∃ c0, aget x l = Some c0 ∧ c = without id c0) as Hget.
  { intros x c Hc. destruct (H x) as [[_ E]|[_ E]]; [congruence|]. rewrite Hc in E.
    destruct (aget x l) as [c0|]; [|done]. injection E as ->. by exists c0. }
  split; [done|..].
  - intros x c (c0 & Hc0 & ->)%Hget. destruct (without_id id c0) as [-> _]. by apply (wf_ids l Hwf).
  - intros x y (Hxy & Hne & Hx)%(pruned_child id l r); [|done..].
    destruct (wf_closed l Hwf x y Hxy) as [c Hc].
    destruct (H y) as [[Hy _]|[_ E]]; [exfalso|rewrite E, Hc; by eexists].
    apply rtc_inv_r in Hy as [->|(z & Hz & Hzy)]; [done|].
    by rewrite (wf_parent l Hwf x z y) in Hx.
  - intros x c (c0 & Hc0 & ->)%Hget. apply kids_without. by eapply wf_nodup.
  - intros x1 x2 y H1 H2. apply (pruned_child id l r) in H1, H2; try done.
    destruct H1, H2. by eapply (wf_parent l Hwf).
  - intros x Hx. apply (wf_acyclic l Hwf x). eapply tc_subrel; [|done].
    intros a b Hab. by apply (pruned_child id l r) in Hab as [? _].
Qed.

Lemma delete_below_pruned id p l :
  wf l → is_Some (aget id l) → (∀ x, child l x id → x = p) → pruned id l (delete_below id p l).
Proof.
  intros Hwf Hid Hp x. destruct (delete_below_spec id p l (wf_keys l Hwf) Hid x) as [?|[Hx E]];
    [by left|]. right. split; [done|]. rewrite E. case_decide as Hxp; [done|].
  destruct (aget x l) as [c|] eqn:Hc; [|done]. cbn. rewrite without_absent; [done|].
  intros Hin. apply Hxp, Hp. by exists c.
Qed.

Lemma elem_of_items_of x i l : (x, i) ∈ items_of l ↔ ∃ c, (x, c) ∈ l ∧ i = item_of c.
Proof.
  unfold items_of. rewrite list_elem_of_fmap. split.
  - intros ([y c] & [= -> ->] & Hin). eauto.
  - intros (c & Hin & ->). by exists (x, c).
Qed.

Lemma parent_key_child l x y : wf l → child l x y → x = parent_key y l.
Proof.
  intros Hwf Hxy. pose proof Hxy as (c & Hc & Hy). unfold parent_key.
  destruct (findParentId y (items_of l)) as [q|] eqn:E; cbn [default].
  - apply findParentId_Some in E as (i & Hi & Hin & _).
    apply elem_of_items_of in Hi as (c' & Hc' & ->).
    apply (wf_parent l Hwf x q y Hxy). exists c'. split; [|done].
    apply elem_aget; [apply (wf_keys l Hwf)|done].
  - exfalso. eapply (findParentId_None y (items_of l) E x (item_of c)); [|intros ->|done].
    + apply elem_of_items_of. exists c. split; [by apply aget_Some_elem|done].
    + by apply (wf_acyclic l Hwf y), tc_once.
Qed.

(** A row whose only child is [id]. *)
Definition only_child_of_row (l : components) (p id : string) : Prop :=
  ∃ c, aget p l = Some c ∧ c_type c = ROW_TYPE ∧ kids c = [id].

Lemma emptied_row l p id c :
  wf l → aget p l = Some c → id ∈ kids c →
  c_children (without id c) = Some [] ↔ kids c = [id].
Proof.
  intros Hwf Hc Hin. unfold without. rewrite bool_decide_eq_true_2 by done. cbn.
  pose proof (wf_nodup l Hwf p c Hc) as Hnd. destruct (kids c) as [|k ks]; [by apply elem_of_nil in Hin|].
  cbn [remove_elem]. case_bool_decide as E; [subst k; split; congruence|].
  split; [done|]. intros [= -> ->]. done.
Qed.

(** Deleting the only child of a row and then the row is deleting the row. *)
Lemma pruned_row l p id r1 r2 :
  wf l → only_child_of_row l p id → pruned id l r1 → pruned p r1 r2 → pruned p l r2.
Proof.
  intros Hwf (c & Hc & _ & Hk) H1 H2 x.
  assert (child l p id) as Hp by (exists c; rewrite Hk; split; [done|by left]).
  assert (∀ y, ¬ child r1 p y) as Hleaf.
  { intros y ((c' & Hc' & Hy) & Hne & _)%(pruned_child id l r1); [|done..]. simplify_eq.
    rewrite Hk in Hy. by apply list_elem_of_singleton in Hy. }
  assert (¬ rtc (child l) id p) as Hnp.
  { intros Hr. apply (wf_acyclic l Hwf p). eapply tc_rtc_r; [by apply tc_once|done]. }
  destruct (H2 x) as [[Hx E]|[Hx E]].
  { left. split; [|done]. inversion Hx as [|? z ? Hz]; subst; [apply rtc_refl|]. by destruct (Hleaf z). }
  destruct (H1 x) as [[Hx1 E1]|[Hx1 E1]]; rewrite E, E1.
  { left. split; [|done]. by eapply rtc_l. }
  right. split.
  - intros Hr. inversion Hr as [|? z ? (c' & Hc' & Hz) Hzx]; subst; [by apply Hx, rtc_refl|].
    simplify_eq. rewrite Hk in Hz. apply list_elem_of_singleton in Hz as ->. done.
  - destruct (aget x l) as [cx|] eqn:Hcx; [|done]. cbn. f_equal. f_equal.
    apply without_absent. intros Hin. apply Hx. rewrite (wf_parent l Hwf p x id); [apply rtc_refl|done|].
    by exists cx.
Qed.

Lemma pruned_parent l p id r c :
  wf l → child l p id → pruned id l r → aget p l = Some c → aget p r = Some (without id c).
Proof.
  intros Hwf Hp H Hc. destruct (H p) as [[Hr _]|[_ E]]; [exfalso|by rewrite E, Hc].
  apply (wf_acyclic l Hwf p). eapply tc_rtc_r; [by apply tc_once|done].
Qed.

Section delete.
Context (l : components) (p id : string).
Hypothesis Hwf : wf l.
Hypothesis Hp : child l p id.

Lemma delete_component_result :
  p ≠ EmptyString → id ≠ EmptyString →
  (¬ only_child_of_row l p id ∧ pruned id l (delete_component id (Some p) l)) ∨
  (only_child_of_row l p id ∧ pruned p l (delete_component id (Some p) l)).
Proof using All.
  intros Hp0 Hid0. destruct (wf_closed l Hwf p id Hp) as [ci Hci]. pose proof Hp as (c & Hc & Hin).
  unfold delete_component. rewrite !bool_decide_eq_false_2 by done.
  rewrite (proj2 (ahas_spec id l)) by (apply aget_is_Some; eauto).
  rewrite (proj2 (ahas_spec p l)) by (apply aget_is_Some; eauto). cbn [negb orb].
  assert (pruned id l (delete_below id p l)) as H1.
  { apply delete_below_pruned; [done|by exists ci|]. intros x Hx. by apply (wf_parent l Hwf x p id). }
  set (r1 := delete_below id p l) in *. rewrite (pruned_parent l p id r1 c) by done.
  destruct (without_id id c) as [_ ->].
  assert (wf r1) as Hwf1 by (eapply pruned_wf; [done| |done]; apply delete_below_NoDup, wf_keys; done).
  destruct (bool_decide (c_type c = ROW_TYPE) && _) eqn:E.
  - right. apply andb_true_iff in E as [Ht%bool_decide_eq_true He%bool_decide_eq_true].
    apply (emptied_row l p id c) in He; [|done..].
    assert (only_child_of_row l p id) as Hrow by (exists c; done).
    split; [done|]. apply (pruned_row l p id r1); [done..|].
    apply delete_below_pruned; [done| |].
    + rewrite (pruned_parent l p id r1 c) by done. by eexists.
    + intros x Hx. by apply parent_key_child.
  - left. split; [|done]. intros (c' & Hc' & Ht & Hk). simplify_eq.
    rewrite bool_decide_eq_true_2 in E by done. cbn [andb] in E.
    apply bool_decide_eq_false in E. by apply E, (emptied_row l p id c).
Qed.

Lemma delete_component_wf : wf (delete_component id (Some p) l).
Proof using All.
  destruct (decide (p = EmptyString ∨ id = EmptyString)) as [H|H].
  - unfold delete_component. destruct H as [->| ->].
    + by rewrite bool_decide_eq_true_2.
    + by rewrite (bool_decide_eq_true_2 (EmptyString = EmptyString)), orb_true_r.
  - assert (NoDup (akeys (delete_component id (Some p) l))).
    { unfold delete_component. destruct (_ || _ || _ || _); [by apply wf_keys|].
      repeat (break_match; auto using delete_below_NoDup, wf_keys). }
    destruct delete_component_result as [[_ ?]|[_ ?]]; [tauto|tauto|..]; by eapply pruned_wf.
Qed.

(** C6. Deleting a component removes exactly the components below it.  The
    layout that is left is well formed; the deleted component is taken out of
    the children of its parent and nothing else changes.  When the parent is a
    row that would be left empty, the row is deleted in the same way instead. *)
Theorem delete_component_removes :
  p ≠ EmptyString → id ≠ EmptyString →
  let r := delete_component id (Some p) l in
  wf r ∧
  ∃ root,
    (root = id ∧ ¬ only_child_of_row l p id ∨ root = p ∧ only_child_of_row l p id) ∧
    (∀ x, rtc (child l) root x → aget x r = None) ∧
    (∀ x, ¬ rtc (child l) root x → aget x r = without root <$> aget x l).
Proof using All.
  intros Hp0 Hid0 r. split; [apply delete_component_wf|].
  destruct delete_component_result as [[Hn H]|[Hn H]]; [done..| |].
  - exists id. split; [by left|]. split; intros x Hx; by destruct (H x) as [[]|[]].
  - exists p. split; [by right|]. split; intros x Hx; by destruct (H x) as [[]|[]].
Qed.
End delete.
