(* ===== verification/LayoutMoveFacts.v ===== *)
(** * Drag and drop keeps the layout a forest

    The actions that create and move components, as operations on the parent
    relation: a leaf is added, or a component gets another parent.  A drop
    that the user interface can produce succeeds, keeps the layout well formed
    and changes the parent of the dragged component only.  Top-level tabs can
    be created and deleted again without a trace; making nested tabs top-level
    tabs closes a cycle. *)

From Stdlib Require Import Ascii String.
From stdpp Require Import base strings option numbers list sets relations.
From S2P Require Import Prelude JsObject JsNumber JsValue Layout LayoutFacts LayoutReducer.
From S2P Require Import LayoutReducerFacts.

(** ** Forests as relations *)

Record forest (D : string → Prop) (R : string → string → Prop) : Prop := {
  forest_dom : ∀ x y, R x y → D x ∧ D y;
  forest_parent : ∀ x1 x2 y, R x1 y → R x2 y → x1 = x2;
  forest_acyclic : ∀ x, ¬ tc R x x;
}.

Definition dom (l : components) (x : string) : Prop := is_Some (aget x l).

(** What is required of the components one by one. *)
Record local_ok (l : components) : Prop := {
  local_keys : NoDup (akeys l);
  local_ids : ∀ x c, aget x l = Some c → c_id c = x;
  local_nodup : ∀ x c, aget x l = Some c → NoDup (kids c);
}.

Lemma wf_forest l : wf l ↔ local_ok l ∧ forest (dom l) (child l).
Proof.
  split.
  - intros [? ? Hc ? ? ?]. split; [by split|]. split; [|done|done].
    intros x y Hxy. split; [|by eapply Hc]. destruct Hxy as (c & ? & _). by exists c.
  - intros [[] [Hd ? ?]]. split; try done. intros x y Hxy. by apply (Hd x y).
Qed.

Lemma forest_iff (D D' : string → Prop) (R R' : string → string → Prop) :
  (∀ x, D x ↔ D' x) → (∀ x y, R x y ↔ R' x y) → forest D R → forest D' R'.
Proof.
  intros HD HR [Hd Hp Ha]. split.
  - intros x y Hxy%HR. rewrite <- !HD. by apply Hd.
  - intros x1 x2 y H1%HR H2%HR. by eapply Hp.
  - intros x Hx. apply (Ha x). eapply tc_subrel; [|done]. intros a b. apply HR.
Qed.

Lemma forest_leaf D R d w :
  forest D R → D d → ¬ D w →
  forest (λ x, D x ∨ x = w) (λ x y, R x y ∨ x = d ∧ y = w).
Proof.
  intros [Hd Hp Ha] Hdd Hw. split.
  - intros x y [?%Hd|[-> ->]]; naive_solver.
  - intros x1 x2 y [H1|[-> ->]] [H2|[-> ?]]; [by eapply Hp| | |done].
    + subst y. apply Hd in H1 as [_ ?]. done.
    + apply Hd in H2 as [_ ?]. done.
  - assert (∀ a b, tc (λ x y, R x y ∨ x = d ∧ y = w) a b → D a ∧ (b = w ∨ tc R a b)) as Htc.
    { intros a b. induction 1 as [a b [Hab|[-> ->]]|a z b Haz _ [Hz IH]].
      - split; [by apply Hd in Hab as [? _]|]. right. by apply tc_once.
      - split; [done|by left].
      - destruct Haz as [Haz|[-> ->]]; [|done]. split; [by apply Hd in Haz as [? _]|].
        destruct IH as [->|IH]; [by left|]. right. by eapply tc_l. }
    intros x Hx. destruct (Htc x x Hx) as [Hdx [->|Hr]]; [done|]. by apply (Ha x).
Qed.

(** The components of [T] become children of [d]. *)
Lemma forest_reparent_all D R d (T : string → Prop) :
  forest D R → D d → (∀ t, T t → D t ∧ ¬ rtc R t d) →
  forest D (λ x y, x = d ∧ T y ∨ R x y ∧ ¬ T y).
Proof.
  intros [Hd Hp Ha] Hdd HT. split.
  - intros x y [[-> Hy]|[?%Hd _]]; [|done]. split; [done|by apply HT].
  - intros x1 x2 y [[-> ?]|[H1 ?]] [[-> ?]|[H2 ?]]; try done. by eapply Hp.
  - assert (∀ a b, tc (λ x y, x = d ∧ T y ∨ R x y ∧ ¬ T y) a b →
              tc R a b ∨ rtc R a d ∧ ∃ t, T t ∧ rtc R t b) as Htc.
    { intros a b. induction 1 as [a b [[-> Hb]|[Hab _]]|a z b Haz _ IH].
      - right. split; [apply rtc_refl|]. exists b. split; [done|apply rtc_refl].
      - left. by apply tc_once.
      - destruct Haz as [[-> Hz]|[Haz _]].
        + right. split; [apply rtc_refl|]. destruct IH as [IH|[_ IH]]; [|done].
          exists z. split; [done|by apply tc_rtc].
        + destruct IH as [IH|[IH1 IH2]]; [left; by eapply tc_l|right].
          split; [by eapply rtc_l|done]. }
    intros x Hx. destruct (Htc x x Hx) as [Hr|[H1 (t & Ht & H2)]]; [by apply (Ha x)|].
    apply (HT t Ht). by etrans.
Qed.

Lemma forest_reparent D R d t :
  forest D R → D d → D t → ¬ rtc R t d →
  forest D (λ x y, x = d ∧ y = t ∨ R x y ∧ y ≠ t).
Proof.
  intros Hf Hd Ht Hn. apply (forest_reparent_all D R d (λ y, y = t)); [done..|].
  by intros ? ->.
Qed.

Lemma forest_sub (D D' : string → Prop) (R R' : string → string → Prop) :
  forest D R → (∀ x y, R' x y → R x y) → (∀ x y, R' x y → D' x ∧ D' y) → forest D' R'.
Proof.
  intros [_ Hp Ha] Hsub Hd. split; [done|..].
  - intros x1 x2 y H1 H2. apply (Hp x1 x2 y); by apply Hsub.
  - intros x Hx. apply (Ha x). by eapply tc_subrel.
Qed.

(** ** Depth *)

Lemma nsteps_nodes l n x y :
  (∀ z, ¬ tc (child l) z z) → nsteps (child l) n x y →
  ∃ xs, length xs = n ∧ NoDup xs ∧ ∀ z, z ∈ xs → z ∈ akeys l ∧ rtc (child l) x z.
Proof.
  intros Ha. induction 1 as [x|n x z y Hxz _ (xs & Hl & Hnd & Hxs)].
  - exists []. split; [done|]. split; [apply NoDup_nil_2|]. by intros z ?%elem_of_nil.
  - exists (x :: xs). split; [simpl; lia|]. split.
    + apply NoDup_cons. split; [|done]. intros [_ Hzx]%Hxs. apply (Ha x).
      eapply tc_rtc_r; [by apply tc_once|done].
    + intros u [->|Hu]%elem_of_cons.
      * split; [|apply rtc_refl]. destruct Hxz as (c & Hc & _). apply aget_is_Some. by exists c.
      * apply Hxs in Hu as [Hu Hr]. split; [done|]. by eapply rtc_l.
Qed.

(** A path has at most as many steps as there are components. *)
Lemma nsteps_bound l n x y : wf l → nsteps (child l) n x y → n ≤ length l.
Proof.
  intros Hwf Hn. destruct (nsteps_nodes l n x y (wf_acyclic l Hwf) Hn) as (xs & <- & Hnd & Hxs).
  assert (xs ⊆+ akeys l) as Hsub.
  { apply NoDup_submseteq; [done|]. intros z Hz. by apply Hxs. }
  apply submseteq_length in Hsub. unfold akeys in Hsub. by rewrite length_fmap in Hsub.
Qed.

Lemma parent_key_Some l x c :
  wf l → aget "null" l = None → aget (parent_key x l) l = Some c → child l (parent_key x l) x.
Proof.
  intros Hwf Hnull. unfold parent_key.
  destruct (findParentId x (items_of l)) as [q|] eqn:E; cbn [default]; [|congruence].
  intros Hc. apply findParentId_Some in E as (i & Hi & Hin & _).
  apply elem_of_items_of in Hi as (c' & Hc' & ->). exists c'. split; [|done].
  apply elem_aget; [by apply wf_keys|done].
Qed.

Lemma fold_result_total {A S} (f : S → A → result S) xs s :
  (∀ s x, x ∈ xs → ∃ s', f s x = Ok s') → ∃ s', fold_result f s xs = Ok s'.
Proof.
  revert s. induction xs as [|x xs IH]; intros s Hf; [by exists s|].
  destruct (Hf s x ltac:(left)) as [s1 Hs1]. cbn [fold_result]. rewrite Hs1, bind_Ok.
  apply IH. intros s2 x2 Hx2. apply Hf. by right.
Qed.

Section widths.
Context (l : components).
Hypothesis Hwf : wf l.
Hypothesis Hnull : aget "null" l = None.

(** Climbing from row to row ends within the number of components. *)
Lemma widths_total fuel k x y c :
  aget x l = Some c → nsteps (child l) k x y → length l < fuel + k →
  ∃ w, getDetailedComponentWidth fuel (Some c) l = Ok w.
Proof using All.
  revert k x c. induction fuel as [|fuel IH]; intros k x c Hc Hk Hl.
  { apply nsteps_bound in Hk; [lia|done]. }
  cbn [getDetailedComponentWidth]. case_bool_decide as Ht.
  - rewrite (wf_ids l Hwf x c Hc). destruct (aget (parent_key x l) l) as [cp|] eqn:Hp.
    + destruct (IH (S k) (parent_key x l) cp Hp) as [w Hw]; [|lia|].
      { eapply nsteps_l; [by eapply parent_key_Some|done]. }
      rewrite Hw, bind_Ok. by eexists.
    + destruct fuel; cbn [getDetailedComponentWidth]; rewrite bind_Ok; by eexists.
  - case_bool_decide; [|case_bool_decide; by eexists].
    match goal with |- context [fold_result ?f ?s ?xs] =>
      destruct (fold_result_total f xs s) as [m Hm] end.
    { intros s z Hz. destruct (wf_closed l Hwf x z) as [cz Hcz]; [by exists c|].
      rewrite Hcz. case_bool_decide; by eexists. }
    rewrite Hm, bind_Ok. by eexists.
Qed.

Lemma widths_stored x c :
  aget x l = Some c → ∃ w, getDetailedComponentWidth (S (length l)) (Some c) l = Ok w.
Proof using All. intros Hc. eapply (widths_total _ 0 x x); [done|apply nsteps_O|lia]. Qed.

Lemma widths_lookup x : ∃ w, getDetailedComponentWidth (S (length l)) (aget x l) l = Ok w.
Proof using All.
  destruct (aget x l) as [c|] eqn:E; [by eapply widths_stored|]. by eexists.
Qed.

Lemma widths_fresh c :
  aget (c_id c) l = None → kids c = [] →
  ∃ w, getDetailedComponentWidth (S (length l)) (Some c) l = Ok w.
Proof using All.
  intros Hc Hk. cbn [getDetailedComponentWidth]. case_bool_decide.
  - destruct (aget (parent_key (c_id c) l) l) as [cp|] eqn:Hp.
    { apply parent_key_Some, wf_closed in Hp as [? ?]; try done. congruence. }
    destruct (length l); cbn [getDetailedComponentWidth]; rewrite bind_Ok; by eexists.
  - rewrite Hk. cbn [fold_result]. rewrite bind_Ok. repeat case_bool_decide; by eexists.
Qed.
End widths.

(** The parts of a drop are given. *)
Definition drop_of (s d : drop_end) (g : dragged) (pos : option string) : dropResult :=
  {| dr_source := Some s; dr_destination := Some d; dr_dragging := Some g; dr_position := pos |}.

Section drops.
Context (nanoid : nat → string) (t : string → string) (l : components).
Hypothesis Hwf : wf l.
Hypothesis Hnull : aget "null" l = None.

(** The ids that the generator makes are not in use, and are distinct. *)
Definition fresh_ids : Prop :=
  (∀ n type, aget (uuid nanoid n type) l = None) ∧
  (∀ n n' type type', uuid nanoid n type = uuid nanoid n' type' → n = n').

Lemma getComponentWidthFromDrop_total n s d g pos :
  fresh_ids →
  (de_id s = de_id d → de_id s ≠ NEW_COMPONENTS_SOURCE_ID →
     ∃ c m, aget (dg_id g) l = Some c ∧ c_meta c = Some m) →
  ∃ w, getComponentWidthFromDrop nanoid t n (drop_of s d g pos) l = Ok w.
Proof using All.
  intros [Hfresh _] Hmeta. unfold getComponentWidthFromDrop, drop_of. cbn [dr_source dr_destination
    dr_dragging need_end]. rewrite !bind_Ok.
  set (c := if bool_decide (de_id s = NEW_COMPONENTS_SOURCE_ID) then _ else _).
  assert (∃ w, getDetailedComponentWidth (S (length l)) c l = Ok w) as [w Hw].
  { unfold c. case_bool_decide; [|by apply widths_lookup].
    apply widths_fresh; [done..|apply Hfresh|done]. }
  case_bool_decide as Hsd.
  - unfold c. case_bool_decide as Hn; [by eexists|].
    destruct (Hmeta Hsd Hn) as (cg & m & -> & Hm). cbn [mbind option_bind]. rewrite Hm. by eexists.
  - rewrite Hw, bind_Ok. destruct (widths_lookup l Hwf Hnull (de_id d)) as [wd Hwd].
    rewrite Hwd, bind_Ok. destruct (isNaN (js_sub _ _)).
    + destruct (widths_lookup l Hwf Hnull (parent_key (de_id d) l)) as [wg Hwg].
      rewrite Hwg, !bind_Ok. repeat (case_match; [by eexists|]). by eexists.
    + rewrite bind_Ok. repeat (case_match; [by eexists|]). by eexists.
Qed.
End drops.

(** ** Lists with an element moved *)

Lemma splice_start_at {A} i (l : list A) x :
  at_index i l = Some x → l !! splice_start i (length l) = Some x ∧ (0 ≤ i)%Z.
Proof.
  unfold at_index, splice_start. destruct (Z.ltb_spec i 0); [done|]. intros H1.
  pose proof (lookup_lt_Some _ _ _ H1). rewrite Nat.min_l by lia. done.
Qed.

Lemma remove_at_Permutation {A} i (l : list A) x :
  at_index i l = Some x → l ≡ₚ x :: remove_at i l.
Proof.
  intros [H _]%splice_start_at. unfold remove_at.
  rewrite <- (take_drop_middle l _ x H) at 1. by rewrite Permutation_middle.
Qed.

Lemma insert_at_Permutation {A} i (l : list A) x : insert_at i x l ≡ₚ x :: l.
Proof. unfold insert_at. rewrite <- Permutation_middle. by rewrite take_drop. Qed.

Lemma insert_at_lookup {A} i (l : list A) x :
  (0 ≤ i ≤ Z.of_nat (length l))%Z → at_index i (insert_at i x l) = Some x.
Proof.
  intros Hi. unfold at_index, insert_at, splice_start. destruct (Z.ltb_spec i 0); [lia|].
  rewrite Nat.min_l by lia. rewrite lookup_app_r; rewrite length_take; [|lia].
  by replace (Z.to_nat i - Nat.min (Z.to_nat i) (length l)) with 0 by lia.
Qed.

Lemma reorder_Permutation l i j x :
  at_index i l = Some x → ∃ r, reorder l i j = Ok r ∧ r = insert_at j x (remove_at i l) ∧ r ≡ₚ l.
Proof.
  intros Hx. pose proof (splice_start_at i l x Hx) as [H _]. unfold reorder. rewrite H.
  eexists. split; [done|]. split; [done|].
  by rewrite insert_at_Permutation, <- remove_at_Permutation.
Qed.

(** ** Updating one component *)

Lemma kids_with_children ks c : kids (with_children ks c) = ks.
Proof. done. Qed.

Lemma kids_with_parents ps c : kids (with_parents ps c) = kids c.
Proof. done. Qed.

Lemma child_children l x c ks y :
  aget x l = Some c → c_children c = Some ks → child l x y ↔ y ∈ ks.
Proof.
  intros Hc Hk. unfold child, kids. rewrite Hc. split.
  - intros (c' & [= <-] & Hy). by rewrite Hk in Hy.
  - intros Hy. exists c. rewrite Hk. done.
Qed.

Lemma child_oset k c l x y :
  child (oset k c l) x y ↔ x = k ∧ y ∈ kids c ∨ x ≠ k ∧ child l x y.
Proof. unfold child. setoid_rewrite aget_oset. case_decide; naive_solver. Qed.

Lemma dom_oset k c l x : dom (oset k c l) x ↔ x = k ∨ dom l x.
Proof. unfold dom. rewrite aget_oset. case_decide; naive_solver eauto. Qed.

Lemma local_ok_oset k c l :
  local_ok l → c_id c = k → NoDup (kids c) → local_ok (oset k c l).
Proof.
  intros [Hk Hi Hn] Hid Hc. split; [by apply NoDup_akeys_oset|..];
    intros x c'; rewrite aget_oset; case_decide; naive_solver.
Qed.

(** [r] has the components of [l], up to their children and widths. *)
Definition same_components (l r : components) : Prop :=
  ∀ x, (λ c, (c_type c, c_parents c)) <$> aget x r = (λ c, (c_type c, c_parents c)) <$> aget x l.

Lemma same_components_dom l r x : same_components l r → dom r x ↔ dom l x.
Proof. intros H. unfold dom. rewrite <- !(fmap_is_Some (λ c, (c_type c, c_parents c))). by rewrite H. Qed.

Lemma same_components_oset k c c0 l r :
  same_components l r → aget k l = Some c0 → c_type c = c_type c0 → c_parents c = c_parents c0 →
  same_components l (oset k c r).
Proof.
  intros H Hc Ht Hp x. rewrite aget_oset. case_decide; [subst|apply H].
  rewrite Hc. cbn. by rewrite Ht, Hp.
Qed.

(** The parent of [g] is now [d], and no other parent has changed. *)
Definition reparented (l : components) (d g : string) (r : components) : Prop :=
  ∀ x y, child r x y ↔ x = d ∧ y = g ∨ child l x y ∧ y ≠ g.

Lemma reparented_wf l d g r :
  wf l → local_ok r → (∀ x, dom r x ↔ dom l x) → reparented l d g r →
  dom l d → dom l g → ¬ rtc (child l) g d → wf r.
Proof.
  intros [_ Hf]%wf_forest Hr Hdom Hch Hd Hg Hn. apply wf_forest. split; [done|].
  eapply forest_iff; [intros x; symmetry; apply Hdom|intros x y; symmetry; apply Hch|].
  by apply forest_reparent.
Qed.

Section reorder.
Context (l : components) (s d : drop_end) (pos : option string).
Context (cs cd : component) (current next : list string) (g : string).
Hypothesis Hwf : wf l.
Hypothesis Hcs : aget (de_id s) l = Some cs.
Hypothesis Hks : c_children cs = Some current.
Hypothesis Hcd : aget (de_id d) l = Some cd.
Hypothesis Hkd : c_children cd = Some next.
Hypothesis Hg : at_index (de_index s) current = Some g.

Lemma source_parent : child l (de_id s) g.
Proof using Hcs Hks Hg.
  exists cs. split; [done|]. unfold kids. rewrite Hks. cbn [default].
  rewrite (remove_at_Permutation _ _ _ Hg). left.
Qed.

Lemma source_nodup : NoDup current.
Proof using Hwf Hcs Hks. pose proof (wf_nodup l Hwf _ _ Hcs) as H. unfold kids in H. by rewrite Hks in H. Qed.

Lemma reorder_same r :
  de_id s = de_id d → r ≡ₚ current →
  let l' := oset (de_id s) (with_children r cs) l in
  local_ok l' ∧ same_components l l' ∧ reparented l (de_id d) g l'.
Proof using All.
  intros Hsd Hr l'. pose proof source_parent as Hp. pose proof source_nodup as Hn.
  apply wf_forest in Hwf as Hl. destruct Hl as [Hl Hf]. split; [|split].
  - apply local_ok_oset; [done|exact (wf_ids l Hwf _ _ Hcs)|]. change (NoDup r). by rewrite Hr.
  - eapply same_components_oset; [by intros x|done..].
  - intros x y. unfold l'. rewrite child_oset, kids_with_children.
    rewrite Hr, <- (child_children l _ cs current y Hcs Hks).
    rewrite <- Hsd. destruct (decide (x = de_id s)) as [->|Hx].
    + destruct (decide (y = g)); naive_solver.
    + split; [|naive_solver]. intros [?|[_ Hxy]]; [naive_solver|]. right. split; [done|].
      intros ->. by apply Hx, (wf_parent l Hwf _ _ g).
Qed.

Lemma reorder_other j :
  de_id s ≠ de_id d → ¬ rtc (child l) g (de_id d) →
  let l' := oset (de_id d) (with_children (insert_at j g next) cd)
              (oset (de_id s) (with_children (remove_at (de_index s) current) cs) l) in
  local_ok l' ∧ same_components l l' ∧ reparented l (de_id d) g l'.
Proof using All.
  intros Hsd Hn l'. pose proof source_parent as Hp. pose proof source_nodup as Hnd.
  rewrite (remove_at_Permutation _ _ _ Hg) in Hnd. apply NoDup_cons in Hnd as [Hg' Hnd].
  assert (g ∉ next) as Hgn.
  { intros Hin. apply Hsd, (wf_parent l Hwf _ _ g); [done|]. exists cd.
    unfold kids. by rewrite Hkd. }
  assert (NoDup next) as Hnn.
  { pose proof (wf_nodup l Hwf _ _ Hcd) as H. unfold kids in H. by rewrite Hkd in H. }
  apply wf_forest in Hwf as Hl. destruct Hl as [Hl Hf]. split; [|split].
  - apply local_ok_oset; [apply local_ok_oset|..]; try done;
      [exact (wf_ids l Hwf _ _ Hcs)|exact (wf_ids l Hwf _ _ Hcd)|].
    change (NoDup (insert_at j g next)). rewrite insert_at_Permutation. by apply NoDup_cons.
  - eapply same_components_oset; [|done..]. eapply same_components_oset; [by intros x|done..].
  - intros x y. unfold l'. rewrite !child_oset, !kids_with_children.
    rewrite insert_at_Permutation, elem_of_cons.
    rewrite <- (child_children l _ cd next y Hcd Hkd).
    assert (y ∈ remove_at (de_index s) current ↔ child l (de_id s) y ∧ y ≠ g) as ->.
    { rewrite (child_children l _ cs current y Hcs Hks).
      pose proof (remove_at_Permutation _ _ _ Hg) as Hperm.
      set (rest := remove_at (de_index s) current) in *.
      rewrite Hperm, elem_of_cons. naive_solver. }
    assert (∀ x, child l x g → x = de_id s) as Hu by (intros x' ?; by apply (wf_parent l Hwf _ _ g)).
    destruct (decide (x = de_id d)) as [->|]; [|destruct (decide (x = de_id s)) as [->|]];
      destruct (decide (y = g)) as [->|]; naive_solver.
Qed.
End reorder.

(** ** Moving a component *)

Section reorderItem.
Context (l : components) (s d : drop_end) (pos : option string).
Context (cs cd : component) (current next : list string) (g : string).
Hypothesis Hwf : wf l.
Hypothesis Hcs : aget (de_id s) l = Some cs.
Hypothesis Hks : c_children cs = Some current.
Hypothesis Hcd : aget (de_id d) l = Some cd.
Hypothesis Hkd : c_children cd = Some next.
Hypothesis Hg : at_index (de_index s) current = Some g.
Hypothesis Hup : de_id s ≠ de_id d → ¬ rtc (child l) g (de_id d).

(** The index of the drop lies within the list it is dropped into. *)
Definition index_ok : Prop :=
  (0 ≤ de_index d ≤ Z.of_nat (length next))%Z ∧
  (de_id s = de_id d → de_index d < Z.of_nat (length next))%Z.

Lemma reorderItem_ok :
  ∃ r, reorderItem l s d pos = Ok r ∧ local_ok r ∧ same_components l r ∧
       reparented l (de_id d) g r ∧
       (de_type d ≠ TABS_TYPE → index_ok →
          ∃ c ks, aget (de_id d) r = Some c ∧ c_children c = Some ks ∧
                  at_index (de_index d) ks = Some g).
Proof using All.
  unfold reorderItem, need. rewrite Hcs, bind_Ok. unfold need_children. rewrite Hks, bind_Ok.
  rewrite Hcd, bind_Ok, Hkd, bind_Ok.
  case_bool_decide as Hsd.
  - assert (cd = cs) as Hcc by congruence. assert (next = current) as Hnc by congruence.
    destruct (same_list_index _ s d pos) as [j|] eqn:Hj.
    + destruct (reorder_Permutation current (de_index s) j g Hg) as (r & Hr & -> & Hperm).
      rewrite Hr, bind_Ok. eexists. split; [done|].
      destruct (reorder_same l s d pos cs cd current next g Hwf Hcs Hks Hcd Hkd Hg _ Hsd Hperm)
        as (? & ? & ?).
      split; [done|]. split; [done|]. split; [done|]. intros Ht [Hi1 Hi2].
      rewrite <- Hsd, aget_oset_eq. do 2 eexists. split; [done|]. split; [done|].
      unfold same_list_index in Hj. rewrite (bool_decide_eq_false_2 (de_type d = TABS_TYPE)) in Hj by done.
      rewrite andb_false_r in Hj. injection Hj as <-. apply insert_at_lookup.
      pose proof (Permutation_length (remove_at_Permutation _ _ _ Hg)) as Hlen. simpl in Hlen.
      specialize (Hi2 Hsd). rewrite Hnc in Hi2. lia.
    + exists l. split; [done|]. apply wf_forest in Hwf as Hl. destruct Hl as [Hl _].
      split; [done|]. split; [by intros x|]. split.
      * intros x y. rewrite <- Hsd. pose proof (source_parent l s cs current g Hcs Hks Hg) as Hp.
        destruct (decide (y = g)) as [->|]; [|naive_solver]. split; [|naive_solver].
        intros Hx. left. split; [|done]. by apply (wf_parent l Hwf _ _ g).
      * intros Ht _. unfold same_list_index in Hj.
        rewrite (bool_decide_eq_false_2 (de_type d = TABS_TYPE)), andb_false_r in Hj by done. done.
  - rewrite Hg. eexists. split; [done|].
    destruct (reorder_other l s d pos cs cd current next g Hwf Hcs Hks Hcd Hkd Hg
      (other_list_index
        (negb (bool_decide (de_type s = EmptyString)) && bool_decide (de_type d = TABS_TYPE)) d pos
        (length current)) Hsd (Hup Hsd)) as (? & ? & ?).
    split; [done|]. split; [done|]. split; [done|]. intros Ht [Hi1 _].
    rewrite aget_oset_eq. do 2 eexists. split; [done|]. split; [done|].
    unfold other_list_index. rewrite (bool_decide_eq_false_2 (de_type d = TABS_TYPE)) by done.
    rewrite andb_false_r. by apply insert_at_lookup.
Qed.
End reorderItem.

(** [r] differs from [l] in the meta data of its components only. *)
Definition same_children (l r : components) : Prop :=
  ∀ x, (λ c, (c_type c, c_parents c, c_children c)) <$> aget x r =
       (λ c, (c_type c, c_parents c, c_children c)) <$> aget x l.

Lemma same_children_get l r x c :
  same_children l r → aget x l = Some c → ∃ c', aget x r = Some c' ∧ c_children c' = c_children c.
Proof.
  intros H Hc. specialize (H x). rewrite Hc in H. destruct (aget x r) as [c'|]; [|done].
  exists c'. split; [done|]. cbn in H. congruence.
Qed.

Lemma same_children_child l r x y : same_children l r → child r x y ↔ child l x y.
Proof.
  intros H. specialize (H x). unfold child, kids.
  destruct (aget x r) as [c|], (aget x l) as [c'|]; try done.
  cbn in H. injection H as _ _ H. split; intros (? & [= <-] & Hy); eexists; (split; [done|]);
    [by rewrite <- H|by rewrite H].
Qed.

Section move.
Context (nanoid : nat → string) (t : string → string) (l : components).

Lemma set_width_oset r w c :
  local_ok r → aget (c_id c) r = Some c → local_ok (oset (c_id c) (set_width w c) r) ∧
  same_children r (oset (c_id c) (set_width w c) r).
Proof.
  intros Hr Hc. split.
  - apply local_ok_oset; [done|done|]. exact (local_nodup r Hr _ _ Hc).
  - intros x. rewrite aget_oset. case_decide; [subst|done]. by rewrite Hc.
Qed.

Lemma resize_moved_ok drop g r c w :
  local_ok r → aget (dg_id g) r = Some c → getComponentWidthFromDrop nanoid t 0 drop l = Ok w →
  ∃ r', resize_moved nanoid t drop g l r = Ok r' ∧ local_ok r' ∧ same_children r r'.
Proof.
  intros Hr Hc Hw. unfold resize_moved, need. rewrite Hc, bind_Ok.
  destruct (componentIsResizable _); [|exists r; split; [done|by split]].
  rewrite Hw, bind_Ok. destruct (strict_eq _ _); [exists r; split; [done|by split]|].
  eexists. split; [done|]. rewrite <- (local_ids r Hr _ _ Hc).
  apply set_width_oset; [done|]. by rewrite (local_ids r Hr _ _ Hc).
Qed.

Lemma elem_of_list_replace (i : nat) (ks : list string) g w y :
  NoDup ks → ks !! i = Some g → y ∈ <[i:=w]> ks ↔ y = w ∨ y ∈ ks ∧ y ≠ g.
Proof.
  intros Hn Hi. pose proof (lookup_lt_Some _ _ _ Hi) as Hl.
  assert (ks ≡ₚ g :: take i ks ++ drop (S i) ks) as Hp.
  { rewrite <- (take_drop_middle ks i g Hi) at 1. by rewrite Permutation_middle. }
  rewrite insert_take_drop by done. rewrite Hp in Hn. apply NoDup_cons in Hn as [Hg _].
  set (rest := take i ks ++ drop (S i) ks) in *.
  assert (take i ks ++ w :: drop (S i) ks ≡ₚ w :: rest) as -> by (unfold rest; by rewrite Permutation_middle).
  rewrite Hp, !elem_of_cons. naive_solver.
Qed.

Lemma list_replace_NoDup (i : nat) (ks : list string) g w :
  NoDup ks → ks !! i = Some g → w ∉ ks → NoDup (<[i:=w]> ks).
Proof.
  intros Hn Hi Hw. pose proof (lookup_lt_Some _ _ _ Hi) as Hl.
  rewrite insert_take_drop by done. rewrite <- Permutation_middle. apply NoDup_cons.
  rewrite <- (take_drop_middle ks i g Hi) in Hn, Hw. rewrite <- Permutation_middle in Hn, Hw.
  apply NoDup_cons in Hn as [_ Hn]. split; [|done]. intros Hin. apply Hw. by right.
Qed.

Lemma wrap_moved_ok d r c ks g :
  local_ok r → aget (de_id d) r = Some c → c_children c = Some ks →
  at_index (de_index d) ks = Some g → ¬ dom r (uuid nanoid 1 ROW_TYPE) → (∀ x y, child r x y → dom r y) →
  let w := uuid nanoid 1 ROW_TYPE in
  ∃ r', wrap_moved nanoid t d r = Ok r' ∧ local_ok r' ∧ (∀ x, dom r' x ↔ dom r x ∨ x = w) ∧
        ∀ x y, child r' x y ↔ x = w ∧ y = g ∨ (child r x y ∨ x = de_id d ∧ y = w) ∧ (x = de_id d → y ≠ g).
Proof.
  intros Hr Hc Hk Hg Hw Hcl w. unfold wrap_moved, need. rewrite Hc, bind_Ok.
  unfold need_children. rewrite Hk, bind_Ok, Hg. eexists. split; [done|].
  assert (ks !! Z.to_nat (de_index d) = Some g) as Hi.
  { unfold at_index in Hg. by destruct (_ <? _)%Z. }
  assert (NoDup ks) as Hnd.
  { pose proof (local_nodup r Hr _ _ Hc) as H. unfold kids in H. by rewrite Hk in H. }
  assert (w ∉ ks) as Hwk.
  { intros Hin. apply Hw, (Hcl (de_id d)). by eapply child_children. }
  assert (w ≠ de_id d) as Hwd by (intros E; apply Hw; fold w; rewrite E; by exists c).
  assert (g ≠ w) as Hgw by (intros E; apply Hwk; rewrite <- E; by eapply list_elem_of_lookup_2).
  split; [|split].
  - apply local_ok_oset; [apply local_ok_oset|..]; try done.
    + exact (local_ids r Hr _ _ Hc).
    + by eapply list_replace_NoDup.
    + apply NoDup_singleton.
  - intros x. rewrite !dom_oset. cbn [with_parents with_children newComponentFactory c_id]. fold w.
    assert (dom r (de_id d)) by (by exists c). naive_solver.
  - intros x y. rewrite !child_oset, kids_with_parents, !kids_with_children.
    cbn [with_parents with_children newComponentFactory c_id]. fold w.
    rewrite (elem_of_list_replace _ _ g) by done. rewrite list_elem_of_singleton.
    rewrite <- (child_children r _ c ks y Hc Hk).
    assert (¬ child r w y) by (intros (c' & Hc' & _); apply Hw; by exists c').
    destruct (decide (x = w)) as [->|]; [naive_solver|].
    destruct (decide (x = de_id d)) as [->|]; naive_solver.
Qed.
End move.

Lemma leaf_rtc (D : string → Prop) (R : string → string → Prop) d w a b :
  (∀ x y, R x y → D x ∧ D y) → D d → ¬ D w →
  rtc (λ x y, R x y ∨ x = d ∧ y = w) a b → a ≠ w → b = w ∨ rtc R a b.
Proof.
  intros HR Hd Hw Hab Ha. revert b Hab. refine (rtc_ind_r _ a _ _); [right; apply rtc_refl|].
  intros y z _ [Hyz|[-> ->]] IH; [|by left]. destruct IH as [->|IH].
  - by apply HR in Hyz as [? _].
  - right. by eapply rtc_r.
Qed.

Lemma forest_row D R d w g :
  forest D R → R d g → ¬ D w →
  forest (λ x, D x ∨ x = w)
    (λ x y, x = w ∧ y = g ∨ (R x y ∨ x = d ∧ y = w) ∧ (x = d → y ≠ g)).
Proof.
  intros Hf Hdg Hw. pose proof (forest_dom D R Hf d g Hdg) as [Hd Hg].
  assert (g ≠ w) as Hgw by (intros ->; done).
  apply (forest_iff (λ x, D x ∨ x = w) _
    (λ x y, x = w ∧ y = g ∨ (R x y ∨ x = d ∧ y = w) ∧ y ≠ g)); [done| |
    apply forest_reparent; [by apply forest_leaf|..]].
  - intros x y. cbn. split; [naive_solver|]. intros [?|[[Hxy|[-> ->]] Hn]]; [by left|right|right].
    + split; [by left|]. intros ->. by apply (Hn (forest_parent D R Hf _ _ g Hxy Hdg)).
    + split; [by right|]. congruence.
  - by right.
  - by left.
  - intros Hr. apply rtc_inv_r in Hr as [->|(z & Hgz & [Hzw|[-> _]])]; [done| |].
    + by apply (forest_dom D R Hf) in Hzw as [_ ?].
    + apply (leaf_rtc D R) in Hgz as [->|Hgd]; [done| |apply (forest_dom D R Hf)|done..].
      apply (forest_acyclic D R Hf d). eapply tc_rtc_r; [by apply tc_once|done].
Qed.

Lemma wf_entries r r' : entries_eq r r' → NoDup (akeys r') → wf r → wf r'.
Proof.
  intros E Hk Hwf.
  assert (∀ x y, child r' x y ↔ child r x y) as Hch by (intros x y; unfold child; by rewrite E).
  apply wf_forest in Hwf as [[_ Hi Hn] Hf]. apply wf_forest. split.
  - split; [done|intros x c; rewrite <- E; apply Hi|intros x c; rewrite <- E; apply Hn].
  - eapply forest_iff; [|intros x y; symmetry; apply Hch|exact Hf].
    intros x. unfold dom. by rewrite E.
Qed.

Lemma ospread_extension (l r : components) :
  NoDup (akeys r) → (∀ x, dom l x → dom r x) → entries_eq r (ospread l r).
Proof.
  intros Hk Hd x. rewrite aget_ospread by done. destruct (aget x r) eqn:E; [done|].
  destruct (aget x l) eqn:El; [|done]. destruct (Hd x) as [? ?]; [by eexists|congruence].
Qed.

Lemma shouldWrap_tabs type : shouldWrapChildInRow TABS_TYPE type = false.
Proof. unfold shouldWrapChildInRow. by destruct (_ || _). Qed.

(** A drop as the user interface produces it: the dragged component is the one
    at the source, it has meta data, the index lies within the destination,
    and a component is not dropped into what lies below it. *)
Record move_ok (l : components) (s d : drop_end) (g : dragged) : Prop := {
  mo_source : ∃ cs current, aget (de_id s) l = Some cs ∧ c_children cs = Some current ∧
                at_index (de_index s) current = Some (dg_id g);
  mo_destination : ∃ cd next, aget (de_id d) l = Some cd ∧ c_children cd = Some next ∧
                     index_ok s d next;
  mo_below : de_id s ≠ de_id d → ¬ rtc (child l) (dg_id g) (de_id d);
  mo_meta : ∃ c m, aget (dg_id g) l = Some c ∧ c_meta c = Some m;
}.

Section move_component.
Context (nanoid : nat → string) (t : string → string) (l : components).
Context (s d : drop_end) (g : dragged) (pos : option string).
Hypothesis Hwf : wf l.
Hypothesis Hnull : aget "null" l = None.
Hypothesis Hfresh : fresh_ids nanoid l.
Hypothesis Hok : move_ok l s d g.

(** The layout after the component was moved and resized, before it is put
    into a row. *)
Lemma moved_before_wrap :
  ∃ r r', reorderItem l s d pos = Ok r ∧
    resize_moved nanoid t (drop_of s d g pos) g l r = Ok r' ∧
    wf r' ∧ (∀ x, dom r' x ↔ dom l x) ∧ reparented l (de_id d) (dg_id g) r' ∧
    (de_type d ≠ TABS_TYPE → ∃ c ks, aget (de_id d) r' = Some c ∧ c_children c = Some ks ∧
                  at_index (de_index d) ks = Some (dg_id g)).
Proof using All.
  destruct Hok as [(cs & current & Hcs & Hks & Hg) (cd & next & Hcd & Hkd & Hi) Hup (cg & m & Hcg & Hm)].
  destruct (reorderItem_ok l s d pos cs cd current next (dg_id g) Hwf Hcs Hks Hcd Hkd Hg Hup)
    as (r & Hr & Hloc & Hsame & Hrep & Hat).
  destruct (getComponentWidthFromDrop_total nanoid t l Hwf Hnull 0 s d g pos Hfresh) as [w Hw].
  { intros _ _. by exists cg, m. }
  assert (dom r (dg_id g)) as [c Hc] by (apply (same_components_dom l r); [done|by exists cg]).
  destruct (resize_moved_ok nanoid t l (drop_of s d g pos) g r c w Hloc Hc Hw)
    as (r' & Hr' & Hloc' & Hsame').
  assert (∀ x, dom r' x ↔ dom l x) as Hdom.
  { intros x. rewrite <- (same_components_dom l r) by done. unfold dom.
    rewrite <- !(fmap_is_Some (λ c, (c_type c, c_parents c, c_children c))). by rewrite Hsame'. }
  assert (reparented l (de_id d) (dg_id g) r') as Hrep'.
  { intros x y. by rewrite (same_children_child r r'). }
  exists r, r'. split; [done|]. split; [done|]. split.
  - apply (reparented_wf l (de_id d) (dg_id g) r'); [exact Hwf|done|done|done|..].
    + by exists cd.
    + by exists cg.
    + destruct (decide (de_id s = de_id d)) as [E|]; [|by apply Hup]. rewrite <- E. intros Hr1.
      apply (wf_acyclic l Hwf (de_id s)). eapply tc_rtc_r; [|done].
      by apply tc_once, (source_parent l s cs current).
  - split; [done|]. split; [done|]. intros Ht. destruct (Hat Ht Hi) as (c0 & ks & Hc0 & Hk0 & Ha).
    destruct (same_children_get r r' _ _ Hsame' Hc0) as (c' & Hc' & Hk').
    exists c', ks. split; [done|]. split; [congruence|done].
Qed.

Lemma move_component_moved :
  let wrap := shouldWrapChildInRow (de_type d) (dg_type g) in
  let p := if wrap then uuid nanoid 1 ROW_TYPE else de_id d in
  ∃ r, move_component nanoid t (drop_of s d g pos) l = Ok r ∧ wf r ∧
       (wrap = true → aget p l = None) ∧
       ∀ x y, child r x y ↔ x = p ∧ y = dg_id g ∨ child l x y ∧ y ≠ dg_id g ∨
                            wrap = true ∧ x = de_id d ∧ y = p.
Proof using All.
  intros wrap p. destruct moved_before_wrap as (r & r' & Hr & Hr' & Hwf' & Hdom & Hrep & Hat).
  unfold move_component. cbn [drop_of dr_source dr_destination dr_dragging dr_position].
  rewrite Hr, bind_Ok. fold (drop_of s d g pos). rewrite Hr', bind_Ok. fold wrap.
  apply wf_forest in Hwf' as Hl. destruct Hl as [Hloc Hf].
  destruct wrap eqn:Hwrap.
  - assert (de_type d ≠ TABS_TYPE) as Ht by (intros E; unfold wrap in Hwrap; by rewrite E, shouldWrap_tabs in Hwrap).
    destruct (Hat Ht) as (c & ks & Hc & Hk & Hg).
    assert (¬ dom r' (uuid nanoid 1 ROW_TYPE)) as Hw.
    { rewrite Hdom. unfold dom. rewrite (proj1 Hfresh). by intros [? ?]. }
    destruct (wrap_moved_ok nanoid t d r' c ks (dg_id g) Hloc Hc Hk Hg Hw) as (r2 & Hr2 & Hloc2 & Hdom2 & Hch2).
    { intros x y Hxy. by apply (forest_dom _ _ Hf x y). }
    assert (child r' (de_id d) (dg_id g)) as Hdg by (apply Hrep; by left).
    assert (wf r2) as Hwf2.
    { apply wf_forest. split; [done|]. eapply forest_iff; [intros x; symmetry; apply Hdom2|
        intros x y; symmetry; apply Hch2|by apply forest_row]. }
    rewrite Hr2, bind_Ok. eexists. split; [done|].
    assert (entries_eq r2 (ospread l r2)) as He.
    { apply ospread_extension; [by apply wf_keys|]. intros x Hx. apply Hdom2. left. by apply Hdom. }
    split; [eapply wf_entries; [exact He|apply NoDup_akeys_ospread, wf_keys; done|done]|].
    split; [intros _; apply (proj1 Hfresh)|]. intros x y.
    transitivity (child r2 x y); [unfold child; by rewrite (He x)|]. rewrite Hch2, (Hrep x y).
    fold p. assert (p ≠ dg_id g) as Hpg.
    { intros E. apply Hw. fold p. rewrite E. by apply (forest_dom _ _ Hf) in Hdg as [_ ?]. }
    naive_solver.
  - rewrite bind_Ok. eexists. split; [done|].
    assert (entries_eq r' (ospread l r')) as He.
    { apply ospread_extension; [by apply wf_keys|]. intros x Hx. by apply Hdom. }
    split; [eapply wf_entries; [exact He|apply NoDup_akeys_ospread, wf_keys; done|done]|].
    split; [done|]. intros x y.
    transitivity (child r' x y); [unfold child; by rewrite (He x)|]. rewrite (Hrep x y). naive_solver.
Qed.

(** C5. A drop moves one component.  A drop that the user interface can
    produce succeeds and keeps the layout well formed.  Afterwards the dragged
    component lies in its destination, or in a new row there when the
    destination wraps its children, and every other component has the parent
    it had. *)
Theorem move_component_reparents :
  let wrap := shouldWrapChildInRow (de_type d) (dg_type g) in
  let p := if wrap then uuid nanoid 1 ROW_TYPE else de_id d in
  ∃ r, move_component nanoid t (drop_of s d g pos) l = Ok r ∧ wf r ∧
       (wrap = true → aget p l = None) ∧
       ∀ x y, child r x y ↔ x = p ∧ y = dg_id g ∨ child l x y ∧ y ≠ dg_id g ∨
                            wrap = true ∧ x = de_id d ∧ y = p.
Proof using All. exact move_component_moved. Qed.
End move_component.
