(* ===== verification/LayoutTabsFacts.v ===== *)
(** * New components and top-level tabs

    Dropping a new component adds it (with its row or its first tab) below the
    destination.  Top-level tabs that are created and deleted again leave the
    layout as it was.  Making existing tabs top-level tabs keeps the layout
    well formed when they were at the top of the grid, and closes a cycle when
    they were nested deeper. *)

From Stdlib Require Import Ascii String.
From stdpp Require Import base strings option numbers list sets relations.
From S2P Require Import Prelude JsObject JsNumber JsValue Layout LayoutFacts LayoutReducer.
From S2P Require Import LayoutReducerFacts LayoutMoveFacts.

Lemma ospread_oset_entries {V} (l r : list (string * V)) k v :
  NoDup (akeys r) → entries_eq (ospread l (oset k v r)) (oset k v (ospread l r)).
Proof.
  intros Hr x. rewrite aget_ospread by by apply NoDup_akeys_oset.
  rewrite !aget_oset, aget_ospread by done. by case_decide.
Qed.

Lemma oset_swap_entries {V} (l : list (string * V)) k k' v v' :
  k ≠ k' → entries_eq (oset k v (oset k' v' l)) (oset k' v' (oset k v l)).
Proof. intros Hne x. rewrite !aget_oset. by repeat case_decide; subst. Qed.

(** [a] was added below [d], and [b], if any, below [a]. *)
Definition attached (l : components) (d a : string) (b : option string) (r : components) : Prop :=
  ∀ x y, child r x y ↔ child l x y ∨ x = d ∧ y = a ∨ x = a ∧ Some y = b.

Section attach.
Context (l : components) (d : string) (cd : component) (ks : list string) (i : Z).
Context (a : string) (ca : component).
Hypothesis Hwf : wf l.
Hypothesis Hcd : aget d l = Some cd.
Hypothesis Hks : c_children cd = Some ks.
Hypothesis Ha : ¬ dom l a.
Hypothesis Hia : c_id ca = a.

Lemma fresh_not_child z : ¬ dom l z → (z ∉ ks) ∧ (∀ y, ¬ child l z y) ∧ z ≠ d.
Proof using Hwf Hcd Hks.
  intros Hz. split; [|split].
  - intros Hin. apply Hz, (wf_closed l Hwf d). by eapply child_children.
  - intros y (c & Hc & _). apply Hz. by exists c.
  - intros ->. apply Hz. by exists cd.
Qed.

Lemma insert_at_NoDup z : z ∉ ks → NoDup (insert_at i z ks).
Proof using Hwf Hcd Hks.
  intros Hz. rewrite insert_at_Permutation. apply NoDup_cons. split; [done|].
  pose proof (wf_nodup l Hwf _ _ Hcd) as H. unfold kids in H. by rewrite Hks in H.
Qed.

Let parent_entry := with_children (insert_at i a ks) cd.

Lemma attach_one :
  kids ca = [] →
  let r := oset d parent_entry (oset a ca l) in wf r ∧ attached l d a None r.
Proof using All.
  intros Hka r. destruct (fresh_not_child a Ha) as (Hak & Hac & Had).
  apply wf_forest in Hwf as Hl. destruct Hl as [Hloc Hf].
  assert (attached l d a None r) as Hatt.
  { intros x y. unfold r, parent_entry. rewrite !child_oset, kids_with_children, Hka.
    rewrite insert_at_Permutation, elem_of_cons, <- (child_children l d cd ks y Hcd Hks), elem_of_nil.
    specialize (Hac y). destruct (decide (x = d)) as [->|]; [naive_solver|].
    destruct (decide (x = a)) as [->|]; naive_solver. }
  split; [|done]. apply wf_forest. split.
  - apply local_ok_oset; [apply local_ok_oset; [done|done|rewrite Hka; apply NoDup_nil_2]|..].
    + exact (wf_ids l Hwf _ _ Hcd).
    + by apply insert_at_NoDup.
  - apply (forest_iff (λ x, dom l x ∨ x = a) _ (λ x y, child l x y ∨ x = d ∧ y = a)).
    + intros x. unfold r. rewrite !dom_oset. assert (dom l d) by (by exists cd). naive_solver.
    + intros x y. rewrite (Hatt x y). naive_solver.
    + apply forest_leaf; [done|by exists cd|done].
Qed.

Context (b : string) (cb : component).
Hypothesis Hb : ¬ dom l b.
Hypothesis Hib : c_id cb = b.
Hypothesis Hab : a ≠ b.

Lemma attach_two :
  kids ca = [b] → kids cb = [] →
  let r := oset d parent_entry (oset a ca (oset b cb l)) in wf r ∧ attached l d a (Some b) r.
Proof using All.
  intros Hka Hkb r. destruct (fresh_not_child a Ha) as (Hak & Hac & Had).
  destruct (fresh_not_child b Hb) as (Hbk & Hbc & Hbd).
  apply wf_forest in Hwf as Hl. destruct Hl as [Hloc Hf].
  assert (attached l d a (Some b) r) as Hatt.
  { intros x y. unfold r, parent_entry. rewrite !child_oset, kids_with_children, Hka, Hkb.
    rewrite insert_at_Permutation, elem_of_cons, <- (child_children l d cd ks y Hcd Hks).
    rewrite list_elem_of_singleton, elem_of_nil. specialize (Hac y). specialize (Hbc y).
    destruct (decide (x = d)) as [->|]; [naive_solver|].
    destruct (decide (x = a)) as [->|]; [naive_solver|].
    destruct (decide (x = b)) as [->|]; naive_solver. }
  split; [|done]. apply wf_forest. split.
  - apply local_ok_oset; [apply local_ok_oset; [apply local_ok_oset|..]|..]; try done.
    + rewrite Hkb. apply NoDup_nil_2.
    + rewrite Hka. apply NoDup_singleton.
    + exact (wf_ids l Hwf _ _ Hcd).
    + by apply insert_at_NoDup.
  - apply (forest_iff (λ x, (dom l x ∨ x = a) ∨ x = b) _
      (λ x y, (child l x y ∨ x = d ∧ y = a) ∨ x = a ∧ y = b)).
    + intros x. unfold r. rewrite !dom_oset. assert (dom l d) by (by exists cd). naive_solver.
    + intros x y. rewrite (Hatt x y). naive_solver.
    + apply forest_leaf; [apply forest_leaf; [done|by exists cd|done]|by right|naive_solver].
Qed.
End attach.

(** ** New components *)

Section create.
Context (nanoid : nat → string) (t : string → string) (l : components).
Context (s d : drop_end) (g : dragged) (pos : option string).
Context (cd : component) (ks : list string).
Hypothesis Hwf : wf l.
Hypothesis Hnull : aget "null" l = None.
Hypothesis Hfresh : fresh_ids nanoid l.
Hypothesis Hnew : de_id s = NEW_COMPONENTS_SOURCE_ID.
Hypothesis Hcd : aget (de_id d) l = Some cd.
Hypothesis Hks : c_children cd = Some ks.

Let cid := uuid nanoid 0 (dg_type g).
Let rowId := uuid nanoid 2 ROW_TYPE.
Let tabId := uuid nanoid 2 TAB_TYPE.
Let path := default [] (c_parents cd) ++ [c_id cd].

Definition new_row : component :=
  with_parents path (with_children [cid] (newComponentFactory nanoid t 2 ROW_TYPE None None)).

Definition new_tab : component :=
  with_parents path (newComponentFactory nanoid t 2 TAB_TYPE None None).

Definition entry_with (z : string) : component :=
  with_children (insert_at (de_index d) z ks) cd.

(** The component that is created, before it is put into a row. *)
Lemma newEntitiesFromDrop_cases :
  ∃ c, c_id c = cid ∧ c_type c = dg_type g ∧ c_children c = Some [] ∧
    newEntitiesFromDrop nanoid t (drop_of s d g pos) l =
    Ok (if shouldWrapChildInRow (c_type cd) (dg_type g) then
          oset (de_id d) (entry_with rowId)
            (oset rowId new_row (oset cid (with_parents (path ++ [rowId]) c) []))
        else if bool_decide (dg_type g = TABS_TYPE) then
          oset (de_id d) (entry_with cid)
            (oset tabId new_tab (oset cid (with_children [tabId] c) []))
        else oset (de_id d) (entry_with cid) (oset cid c [])).
Proof using All.
  destruct (getComponentWidthFromDrop_total nanoid t l Hwf Hnull 1 s d g pos Hfresh) as [w Hw].
  { intros _ Hn. by destruct Hn. }
  set (c0 := with_parents path (newComponentFactory nanoid t 0 (dg_type g) (dg_meta g) None)).
  assert (∃ c, c_id c = cid ∧ c_type c = dg_type g ∧ c_children c = Some [] ∧
    (if componentIsResizable (dg_type g)
     then width ← getComponentWidthFromDrop nanoid t 1 (drop_of s d g pos) l;
          Ok (set_width (js_or width JUndef) c0)
     else Ok c0) = Ok c) as (c & Hid & Hty & Hch & Hc).
  { destruct (componentIsResizable _); [rewrite Hw, bind_Ok|];
      eexists; (split; [|split; [|split; [|done]]]); done. }
  exists c. split; [done|]. split; [done|]. split; [done|].
  unfold newEntitiesFromDrop. cbn [drop_of dr_source dr_destination dr_dragging need_end].
  rewrite !bind_Ok. unfold need. rewrite Hcd, bind_Ok. fold path. fold c0.
  fold (drop_of s d g pos). rewrite Hc, bind_Ok, Hid.
  destruct (shouldWrapChildInRow _ _); [|case_bool_decide];
    unfold need_children; rewrite Hks, bind_Ok; done.
Qed.

Lemma fresh_dom n type : ¬ dom l (uuid nanoid n type).
Proof using Hfresh. unfold dom. rewrite (proj1 Hfresh). by intros [? ?]. Qed.

Lemma fresh_distinct n n' type type' : n ≠ n' → uuid nanoid n type ≠ uuid nanoid n' type'.
Proof using Hfresh. intros Hn E. by apply Hn, (proj2 Hfresh _ _ type type'). Qed.

Lemma create_wf r0 r :
  newEntitiesFromDrop nanoid t (drop_of s d g pos) l = Ok r0 → r = ospread l r0 →
  let wrap := shouldWrapChildInRow (c_type cd) (dg_type g) in
  wf r ∧
  attached l (de_id d) (if wrap then rowId else cid)
    (if wrap then Some cid else if bool_decide (dg_type g = TABS_TYPE) then Some tabId else None) r.
Proof using All.
  intros H0 ->. destruct newEntitiesFromDrop_cases as (c & Hid & Hty & Hch & H). rewrite H in H0.
  assert (cid ≠ rowId) as Hcr by (apply fresh_distinct; lia).
  assert (cid ≠ tabId) as Hct by (apply fresh_distinct; lia).
  intros wrap. fold wrap in H0. injection H0 as H0.
  assert (∀ r1 d' a b,
    NoDup (akeys r0) → entries_eq r1 (ospread l r0) → wf r1 ∧ attached l d' a b r1 →
    wf (ospread l r0) ∧ attached l d' a b (ospread l r0)) as Htrans.
  { intros r1 d' a b Hnd He [Hw Ha]. split.
    - eapply wf_entries; [exact He|by apply NoDup_akeys_ospread, wf_keys|done].
    - intros x y. rewrite <- (Ha x y). unfold child. by rewrite (He x). }
  pose proof (fresh_dom 0 (dg_type g)) as Hf0. pose proof (fresh_dom 2 ROW_TYPE) as Hf2.
  pose proof (fresh_dom 2 TAB_TYPE) as Hf3. fold cid in Hf0. fold rowId in Hf2. fold tabId in Hf3.
  assert (∀ k v r, NoDup (akeys r) → NoDup (akeys (@oset component k v r))) as Hos
    by (intros; by apply NoDup_akeys_oset).
  destruct wrap; [|destruct (bool_decide (dg_type g = TABS_TYPE))]; subst r0.
  - eapply Htrans; [auto 6 using NoDup_nil_2| |
      apply (attach_two l (de_id d) cd ks (de_index d) rowId new_row Hwf Hcd Hks Hf2 eq_refl
               cid (with_parents (path ++ [rowId]) c) Hf0 Hid (not_eq_sym Hcr)); [done|]].
    + intros x. rewrite !ospread_oset_entries by auto using NoDup_nil_2. done.
    + rewrite kids_with_parents. unfold kids. by rewrite Hch.
  - eapply Htrans; [auto 6 using NoDup_nil_2| |
      apply (attach_two l (de_id d) cd ks (de_index d) cid (with_children [tabId] c) Hwf Hcd Hks
               Hf0 Hid tabId new_tab Hf3 eq_refl Hct); done].
    intros x. rewrite !ospread_oset_entries by auto using NoDup_nil_2.
    rewrite !aget_oset. case_decide; [done|]. repeat case_decide; try done.
    destruct Hct. by etrans.
  - eapply Htrans; [auto 6 using NoDup_nil_2| |
      apply (attach_one l (de_id d) cd ks (de_index d) cid c Hwf Hcd Hks Hf0 Hid)].
    + intros x. rewrite !ospread_oset_entries by auto using NoDup_nil_2. done.
    + unfold kids. by rewrite Hch.
Qed.
End create.

(** ** Top-level tabs *)

Lemma need_Some l x c : aget x l = Some c → need x l = Ok c.
Proof. intros H. unfold need. by rewrite H. Qed.

Lemma need_children_Some c ks : c_children c = Some ks → need_children c = Ok ks.
Proof. intros H. unfold need_children. by rewrite H. Qed.

Lemma find_type_unique type (r : components) k c :
  aget k r = Some c → c_type c = type → NoDup (akeys r) →
  (∀ k' c', aget k' r = Some c' → c_type c' = type → k' = k) → find_type type r = Ok (k, c).
Proof.
  intros Hc Ht Hnd Hu. unfold find_type. destruct (List.find _ r) as [[k' c']|] eqn:E.
  - apply find_some in E as [Hin Ht']. apply list_elem_of_In in Hin.
    apply elem_aget in Hin; [|done]. cbn in Ht'. apply bool_decide_eq_true in Ht'.
    assert (k' = k) as -> by by eapply Hu. by assert (c' = c) as -> by congruence.
  - exfalso. apply aget_Some_elem, list_elem_of_In in Hc.
    apply (find_none _ _ E) in Hc. cbn in Hc. by apply bool_decide_eq_false in Hc.
Qed.

Lemma with_children_same c ks ks' :
  c_children c = Some ks → with_children ks (with_children ks' c) = c.
Proof. destruct c. cbn. by intros ->. Qed.

(** A dashboard without top-level tabs: the grid is the child of the root. *)
Record grid_layout (l : components) (root grid : component) (ks : list string) : Prop := {
  gl_wf : wf l;
  gl_null : aget "null" l = None;
  gl_root : aget DASHBOARD_ROOT_ID l = Some root;
  gl_root_type : c_type root = DASHBOARD_ROOT_TYPE;
  gl_root_children : c_children root = Some [DASHBOARD_GRID_ID];
  gl_grid : aget DASHBOARD_GRID_ID l = Some grid;
  gl_grid_children : c_children grid = Some ks;
}.

Section top_level.
Context (nanoid : nat → string) (t : string → string) (l : components).
Context (root grid : component) (ks : list string) (i : Z) (g : dragged) (pos : option string).
Hypothesis Hl : grid_layout l root grid ks.
Hypothesis Hfresh : fresh_ids nanoid l.
Hypothesis Hg : dg_type g = TABS_TYPE.

(** New tabs are dropped on the root. *)
Let s := {| de_id := NEW_COMPONENTS_SOURCE_ID; de_type := EmptyString; de_index := 0 |}.
Let d := {| de_id := DASHBOARD_ROOT_ID; de_type := DASHBOARD_ROOT_TYPE; de_index := i |}.
Let tabsId := uuid nanoid 0 TABS_TYPE.
Let tabId := uuid nanoid 2 TAB_TYPE.

Lemma ids_apart :
  tabsId ≠ tabId ∧ tabsId ≠ DASHBOARD_ROOT_ID ∧ tabsId ≠ DASHBOARD_GRID_ID ∧
  tabId ≠ DASHBOARD_ROOT_ID ∧ tabId ≠ DASHBOARD_GRID_ID.
Proof using Hl Hfresh.
  destruct Hl as [_ _ Hr _ _ Hgr _], Hfresh as [Hf Hd].
  split; [|repeat split; intros E].
  - intros E. apply Hd in E. lia.
  - pose proof (Hf 0 TABS_TYPE) as H. fold tabsId in H. rewrite E in H. congruence.
  - pose proof (Hf 0 TABS_TYPE) as H. fold tabsId in H. rewrite E in H. congruence.
  - pose proof (Hf 2 TAB_TYPE) as H. fold tabId in H. rewrite E in H. congruence.
  - pose proof (Hf 2 TAB_TYPE) as H. fold tabId in H. rewrite E in H. congruence.
Qed.

(** The layout with the top-level tabs, component by component. *)
Lemma create_top_level_tabs_new :
  ∃ r c tab, create_top_level_tabs nanoid t (drop_of s d g pos) l = Ok r ∧
    c_type c = TABS_TYPE ∧ c_id c = tabsId ∧ c_id tab = tabId ∧ NoDup (akeys r) ∧
    ∀ x, aget x r =
      if decide (x = DASHBOARD_ROOT_ID) then Some (with_children [tabsId] root)
      else if decide (x = DASHBOARD_GRID_ID) then Some (with_children [] grid)
      else if decide (x = tabId) then Some (with_children ks tab)
      else if decide (x = tabsId) then Some (with_children [tabId] c)
      else aget x l.
Proof using All.
  pose proof ids_apart as (Htt & Hsr & Hsg & Htr & Htg).
  destruct Hl as [Hwf Hnull Hr Hrt Hrk Hgr Hgk].
  destruct (newEntitiesFromDrop_cases nanoid t l s d g pos root [DASHBOARD_GRID_ID] Hwf Hnull Hfresh
    eq_refl Hr Hrk) as (c & Hid & Hty & Hch & Hnew).
  rewrite Hrt, Hg in Hnew. change (shouldWrapChildInRow DASHBOARD_ROOT_TYPE TABS_TYPE) with false in Hnew.
  rewrite bool_decide_eq_true_2 in Hnew by done. cbn beta iota in Hnew.
  rewrite Hg in Hid, Hty. fold tabsId in Hnew, Hid. fold tabId in Hnew.
  set (tab := new_tab nanoid t root) in *.
  set (entry := entry_with d root [DASHBOARD_GRID_ID] tabsId) in *.
  set (r0 := oset (de_id d) entry (oset tabId tab (oset tabsId (with_children [tabId] c) []))) in *.
  assert (NoDup (akeys r0)) as Hnd by (unfold r0; auto using NoDup_akeys_oset, NoDup_nil_2).
  assert (∀ x, aget x r0 = if decide (x = DASHBOARD_ROOT_ID) then Some entry
    else if decide (x = tabId) then Some tab
    else if decide (x = tabsId) then Some (with_children [tabId] c) else None) as Hr0.
  { intros x. unfold r0. by rewrite !aget_oset. }
  assert (find_type TAB_TYPE r0 = Ok (tabId, tab)) as Htab.
  { apply find_type_unique; [|done|done|].
    - by rewrite Hr0, decide_False, decide_True by done.
    - intros k' c'. rewrite Hr0. repeat case_decide; try done; intros [= <-] Ht; try done; exfalso.
      + unfold entry in Ht. cbn in Ht. by rewrite Hrt in Ht.
      + cbn in Ht. by rewrite Hty in Ht. }
  assert (find_type TABS_TYPE r0 = Ok (tabsId, with_children [tabId] c)) as Htabs.
  { apply find_type_unique; [|done|done|].
    - by rewrite Hr0, decide_False, decide_False, decide_True by done.
    - intros k' c'. rewrite Hr0. repeat case_decide; try done; intros [= <-] Ht; try done; exfalso.
      unfold entry in Ht. cbn in Ht. by rewrite Hrt in Ht. }
  unfold create_top_level_tabs. cbn [drop_of dr_source need_end]. rewrite bind_Ok.
  rewrite (need_Some _ _ _ Hr), bind_Ok.
  assert (first_child root = Ok DASHBOARD_GRID_ID) as -> by (unfold first_child, kids; by rewrite Hrk).
  rewrite bind_Ok. rewrite bool_decide_eq_false_2 by (intros Hn; by apply Hn).
  fold (drop_of s d g pos). rewrite Hnew, bind_Ok, Htab, bind_Ok, Htabs, bind_Ok.
  rewrite (need_Some _ _ _ Hgr), bind_Ok, (need_children_Some _ _ Hgk), bind_Ok. cbn [fst snd].
  eexists _, c, tab. split; [done|]. split; [done|]. split; [done|]. split; [done|].
  split; [by apply NoDup_akeys_ospread, wf_keys|]. intros x.
  rewrite aget_ospread by auto using NoDup_akeys_oset. rewrite !aget_oset, Hr0.
  cbn [c_id with_children]. rewrite Hid. by repeat case_decide.
Qed.

(** Top-level tabs leave no trace: creating tabs at the top of a dashboard
    moves the components of the grid into the new tab, and deleting the tabs
    restores every component of the layout as it was. *)
Theorem top_level_tabs_roundtrip :
  ∃ r1 r2,
    create_top_level_tabs nanoid t (drop_of s d g pos) l = Ok r1 ∧
    (∀ y, child r1 tabId y ↔ child l DASHBOARD_GRID_ID y) ∧
    delete_top_level_tabs r1 = Ok r2 ∧
    entries_eq r2 l.
Proof using All.
  pose proof ids_apart as (Htt & Hsr & Hsg & Htr & Htg).
  destruct create_top_level_tabs_new as (r1 & c & tab & Hr1 & Hty & _ & _ & _ & Hget).
  destruct Hl as [Hwf Hnull Hr Hrt Hrk Hgr Hgk].
  assert (aget tabId r1 = Some (with_children ks tab)) as Htab.
  { by rewrite Hget, !decide_False, decide_True by done. }
  assert (aget tabsId r1 = Some (with_children [tabId] c)) as Htabs.
  { by rewrite Hget, !decide_False, decide_True by done. }
  assert (aget DASHBOARD_ROOT_ID r1 = Some (with_children [tabsId] root)) as Hroot by by rewrite Hget.
  exists r1. eexists. split; [done|]. split; [|split].
  - intros y. rewrite (child_children _ _ _ ks y Htab eq_refl).
    by rewrite (child_children _ _ _ ks y Hgr Hgk).
  - unfold delete_top_level_tabs. rewrite (need_Some _ _ _ Hroot), bind_Ok.
    change (first_child (with_children [tabsId] root)) with (@Ok string tabsId). rewrite bind_Ok.
    rewrite (need_Some _ _ _ Htabs), bind_Ok. rewrite bool_decide_eq_false_2 by (cbn; intros Hn; by apply Hn).
    change (need_children (with_children [tabId] c)) with (@Ok (list string) [tabId]).
    rewrite bind_Ok. cbn [fold_result]. unfold collect_tab. rewrite (need_Some _ _ _ Htab), bind_Ok.
    change (need_children (with_children ks tab)) with (@Ok (list string) ks).
    rewrite !bind_Ok. reflexivity.
  - intros x. rewrite Hget, !aget_oset, !aget_adel. cbn [fst snd]. rewrite aget_adel, Hget.
    destruct (decide (x = DASHBOARD_GRID_ID)) as [->|Hxg].
    { rewrite Hgr, decide_False by done. cbn [default from_option]. f_equal. by apply with_children_same. }
    destruct (decide (x = DASHBOARD_ROOT_ID)) as [->|Hxr].
    { rewrite Hr. f_equal. by apply with_children_same. }
    destruct Hfresh as [Hf _]. destruct (decide (x = tabsId)) as [->|];
      [symmetry; apply (Hf 0 TABS_TYPE)|].
    destruct (decide (x = tabId)) as [->|]; [symmetry; apply (Hf 2 TAB_TYPE)|done].
Qed.
End top_level.
