(* ===== verification/LayoutParentsFacts.v ===== *)
(** * The lists of parents

    [updateComponentParentsList] gives every component below the root the path
    that leads to it.  The recursion ends on a well-formed layout.  The wrapper
    that filters the actions of the layout history keeps the action that runs
    it, and the one that changes the title, from ever reaching the reducer. *)

From Stdlib Require Import Ascii String.
From stdpp Require Import base strings option numbers list sets relations.
From S2P Require Import Prelude JsObject JsNumber JsValue Layout LayoutFacts LayoutReducer.
From S2P Require Import LayoutReducerFacts LayoutMoveFacts.

(** [r] differs from [l] in the lists of parents only. *)
Definition skeleton (c : component) := (c_id c, c_type c, c_children c, c_meta c).

Definition same_skeleton (l r : components) : Prop :=
  ∀ x, skeleton <$> aget x r = skeleton <$> aget x l.

Lemma same_skeleton_trans l r q : same_skeleton l r → same_skeleton r q → same_skeleton l q.
Proof. intros H1 H2 x. by rewrite H2. Qed.

Lemma same_skeleton_get l r x c :
  same_skeleton l r → aget x r = Some c → ∃ c', aget x l = Some c' ∧ skeleton c = skeleton c'.
Proof.
  intros H Hc. specialize (H x). rewrite Hc in H. destruct (aget x l) as [c'|]; [|done].
  exists c'. split; [done|]. cbn in H. congruence.
Qed.

Lemma same_skeleton_sym l r : same_skeleton l r → same_skeleton r l.
Proof. intros H x. by rewrite H. Qed.

Lemma same_skeleton_child l r x y : same_skeleton l r → child r x y ↔ child l x y.
Proof.
  assert (∀ l r, same_skeleton l r → child r x y → child l x y) as Hone.
  { intros l' r' H (c & Hc & Hy). destruct (same_skeleton_get l' r' x c H Hc) as (c' & Hc' & E).
    exists c'. split; [done|]. unfold kids in *. unfold skeleton in E. congruence. }
  intros H. split; apply Hone; [done|by apply same_skeleton_sym].
Qed.

Lemma same_skeleton_rtc l r x y : same_skeleton l r → rtc (child r) x y ↔ rtc (child l) x y.
Proof.
  intros H. split; apply rtc_subrel; intros a b; by apply (same_skeleton_child l r).
Qed.

Lemma same_skeleton_nsteps l r n x y :
  same_skeleton l r → nsteps (child r) n x y → nsteps (child l) n x y.
Proof.
  intros H Hn. apply (nsteps_congruence id _ _ _ _ (λ a b, proj1 (same_skeleton_child l r a b H)) Hn).
Qed.

Lemma same_skeleton_wf l r : same_skeleton l r → NoDup (akeys r) → wf l → wf r.
Proof.
  intros H Hk [Hloc Hf]%wf_forest. apply wf_forest. split.
  - split; [done|..]; intros x c Hc; destruct (same_skeleton_get l r x c H Hc) as (c' & Hc' & E);
      unfold skeleton in E.
    + pose proof (local_ids l Hloc x c' Hc'). congruence.
    + pose proof (local_nodup l Hloc x c' Hc') as Hn. unfold kids in *. congruence.
  - apply (forest_iff (dom l) _ (child l)); [|intros x y; symmetry; by apply same_skeleton_child|done].
    intros x. unfold dom. specialize (H x).
    destruct (aget x l), (aget x r); try done; split; by intros [? ?].
Qed.

(** ** Branches of a forest *)

Section branches.
Context (l : components).
Hypothesis Hwf : wf l.

Lemma ancestors_linear z z' x :
  rtc (child l) z x → rtc (child l) z' x → rtc (child l) z z' ∨ rtc (child l) z' z.
Proof using Hwf.
  intros Hz. revert z'. revert x Hz. refine (rtc_ind_r _ z _ _); [intros z' ?; by right|].
  intros x y Hzx Hxy IH z' [->|(w & Hz' & Hwy)]%rtc_inv_r.
  - left. by eapply rtc_r.
  - rewrite (wf_parent l Hwf w x y) in Hz' by done. by apply IH.
Qed.

Lemma siblings_disjoint p z z' x :
  child l p z → child l p z' → rtc (child l) z x → rtc (child l) z' x → z = z'.
Proof using Hwf.
  assert (∀ a b, child l p a → child l p b → rtc (child l) a b → a = b) as Hone.
  { intros a b Ha Hb [->|(w & Haw & Hwb)]%rtc_inv_r; [done|]. exfalso.
    rewrite (wf_parent l Hwf w p b) in Haw by done.
    exact (wf_acyclic l Hwf p (tc_rtc_r _ _ _ (tc_once _ _ _ Ha) Haw)). }
  intros Hz Hz' Hzx Hz'x. destruct (ancestors_linear z z' x Hzx Hz'x) as [H|H].
  - exact (Hone z z' Hz Hz' H).
  - symmetry. exact (Hone z' z Hz' Hz H).
Qed.

Lemma not_below_child p z : child l p z → ¬ rtc (child l) z p.
Proof using Hwf.
  intros Hp Hz. exact (wf_acyclic l Hwf p (tc_rtc_r _ _ _ (tc_once _ _ _ Hp) Hz)).
Qed.
End branches.

(** The children of [x] are recorded with the path to [x] followed by [x]. *)
Definition path_ok (r : components) (x : string) : Prop :=
  ∀ y, child r x y →
    ∃ cx cy, aget x r = Some cx ∧ aget y r = Some cy ∧
             c_parents cy = Some (default [] (c_parents cx) ++ [x]).

Lemma path_ok_same r r' x :
  same_skeleton r r' → aget x r' = aget x r → (∀ y, child r x y → aget y r' = aget y r) →
  path_ok r x → path_ok r' x.
Proof.
  intros Hs Hx Hy Hp y Hxy%(same_skeleton_child r r'); [|done].
  destruct (Hp y Hxy) as (cx & cy & Hcx & Hcy & E). exists cx, cy. by rewrite Hx, Hy.
Qed.

Section update.
Context (fuel : nat) (x0 : string) (parents : list string).

(** What one call does, for every component with at most [fuel] levels below. *)
Definition updates (fuel : nat) : Prop := ∀ l cur,
  wf l → aget (c_id cur) l = Some cur → (∀ n y, nsteps (child l) n (c_id cur) y → n < fuel) →
  ∃ r, updateComponentParentsList fuel cur l = Ok r ∧ same_skeleton l r ∧ NoDup (akeys r) ∧
       (∀ x, ¬ tc (child l) (c_id cur) x → aget x r = aget x l) ∧
       (∀ x, rtc (child l) (c_id cur) x → path_ok r x).

Definition update_child (layout : components) (childId : string) : result components :=
  match aget childId layout with
  | Some child =>
      let child := with_parents parents child in
      updateComponentParentsList fuel child (oset childId child layout)
  | None => Ok layout
  end.

Lemma update_one l z :
  updates fuel → wf l → child l x0 z → (∀ n y, nsteps (child l) n z y → n < fuel) →
  ∃ r, update_child l z = Ok r ∧ same_skeleton l r ∧ NoDup (akeys r) ∧
       (∀ x, ¬ rtc (child l) z x → aget x r = aget x l) ∧
       (∃ c, aget z r = Some c ∧ c_parents c = Some parents) ∧
       (∀ x, rtc (child l) z x → path_ok r x).
Proof.
  intros Hupd Hwf Hz Hd. destruct (wf_closed l Hwf x0 z Hz) as [c Hc].
  unfold update_child. rewrite Hc. set (c' := with_parents parents c).
  set (l1 := oset z c' l).
  assert (c_id c' = z) as Hid by exact (wf_ids l Hwf z c Hc).
  assert (same_skeleton l l1) as Hs.
  { intros x. unfold l1. rewrite aget_oset. case_decide; [subst|done]. by rewrite Hc. }
  assert (NoDup (akeys l1)) as Hk by apply NoDup_akeys_oset, wf_keys, Hwf.
  destruct (Hupd l1 c') as (r & Hr & Hs' & Hk' & Hout & Hin).
  - by eapply same_skeleton_wf.
  - rewrite Hid. apply aget_oset_eq.
  - rewrite Hid. intros n y Hn. apply (Hd n y). by apply (same_skeleton_nsteps l l1).
  - rewrite Hid in Hout, Hin.
    assert (∀ x y, rtc (child l1) x y ↔ rtc (child l) x y) as Hrtc
      by (intros; by apply same_skeleton_rtc).
    assert (wf l1) as Hwf1 by by eapply same_skeleton_wf.
    exists r. split; [done|]. split; [by eapply same_skeleton_trans|]. split; [done|]. split; [|split].
    + intros x Hx. rewrite Hout by (intros Ht; apply Hx, Hrtc; by apply tc_rtc).
      unfold l1. rewrite aget_oset_ne; [done|]. intros ->. apply Hx, rtc_refl.
    + exists c'. split; [|done]. rewrite Hout by apply (wf_acyclic l1 Hwf1). apply aget_oset_eq.
    + intros x Hx. by apply Hin, Hrtc.
Qed.

Lemma update_children l ks :
  updates fuel → wf l → NoDup ks → (∀ z, z ∈ ks → child l x0 z) →
  (∀ z n y, z ∈ ks → nsteps (child l) n z y → n < fuel) →
  ∃ r, fold_result update_child l ks = Ok r ∧ same_skeleton l r ∧ NoDup (akeys r) ∧
       (∀ x, (∀ z, z ∈ ks → ¬ rtc (child l) z x) → aget x r = aget x l) ∧
       (∀ z, z ∈ ks → ∃ c, aget z r = Some c ∧ c_parents c = Some parents) ∧
       (∀ z x, z ∈ ks → rtc (child l) z x → path_ok r x).
Proof.
  intros Hupd. revert l. induction ks as [|z ks IH]; intros l Hwf Hnd Hks Hd; cbn [fold_result].
  { exists l. split; [done|]. split; [by intros x|]. split; [by apply wf_keys|].
    split; [done|]. split; intros z; [|intros x]; by intros ?%elem_of_nil. }
  apply NoDup_cons in Hnd as [Hz Hnd].
  assert (child l x0 z) as Hcz by (apply Hks; left).
  destruct (update_one l z) as (r1 & Hr1 & Hs1 & Hk1 & Hout1 & (c & Hc & Hpc) & Hin1); try done.
  { intros n y. apply Hd. left. }
  assert (wf r1) as Hwf1 by by eapply same_skeleton_wf.
  assert (∀ x y, rtc (child r1) x y ↔ rtc (child l) x y) as Hrtc by (intros; by apply same_skeleton_rtc).
  destruct (IH r1) as (r & Hr & Hs & Hk & Hout & Hpar & Hin); try done.
  { intros z' Hz'. apply (same_skeleton_child l r1); [done|]. apply Hks. by right. }
  { intros z' n y Hz' Hn. apply (Hd z' n y); [by right|]. by apply (same_skeleton_nsteps l r1). }
  rewrite Hr1, bind_Ok. exists r. split; [done|]. split; [by eapply same_skeleton_trans|].
  split; [done|].
  assert (∀ x, rtc (child l) z x → aget x r = aget x r1) as Hkeep.
  { intros x Hx. apply Hout. intros z' Hz' Hx'. apply Hrtc in Hx'. apply Hz.
    assert (child l x0 z') as Hcz' by (apply Hks; by right).
    by rewrite (siblings_disjoint l Hwf x0 z z' x). }
  split; [|split].
  - intros x Hx. rewrite Hout.
    + apply Hout1, Hx. left.
    + intros z' Hz' Hx'. apply (Hx z'); [by right|by apply Hrtc].
  - intros z' [->|Hz']%elem_of_cons; [|by apply Hpar].
    exists c. rewrite Hkeep by apply rtc_refl. done.
  - intros z' x [->|Hz']%elem_of_cons Hx; [|eapply Hin; [done|by apply Hrtc]].
    apply (path_ok_same r1); [done|by apply Hkeep| |by apply Hin1].
    intros y Hy. apply Hkeep. eapply rtc_r; [done|]. by apply (same_skeleton_child l r1).
Qed.
End update.

Lemma updateComponentParentsList_updates fuel : updates fuel.
Proof.
  induction fuel as [|fuel IH]; intros l cur Hwf Hcur Hd.
  { specialize (Hd 0 (c_id cur) (nsteps_O _ _)). lia. }
  cbn [updateComponentParentsList].
  rewrite (proj2 (ahas_spec (c_id cur) l)) by (apply aget_is_Some; by exists cur).
  set (x0 := c_id cur) in *. set (ps := default [] (c_parents cur) ++ [x0]).
  assert (∀ z, z ∈ kids cur → child l x0 z) as Hkids by (intros z Hz; by exists cur).
  destruct (update_children fuel x0 ps l (kids cur)) as (r & Hr & Hs & Hk & Hout & Hpar & Hin); try done.
  { by eapply wf_nodup. }
  { intros z n y Hz Hn. assert (S n < S fuel); [|lia]. apply (Hd (S n) y).
    eapply nsteps_l; [by apply Hkids|done]. }
  assert (aget x0 r = Some cur) as Hx0.
  { rewrite Hout; [done|]. intros z Hz. by apply (not_below_child l Hwf), Hkids. }
  exists r. split; [exact Hr|]. split; [done|]. split; [done|]. split.
  - intros x Hx. apply Hout. intros z Hz Hzx. apply Hx. eapply tc_rtc_r; [|done].
    by apply tc_once, Hkids.
  - intros x Hx. inversion Hx as [|? z ? (c & Hc & Hz) Hzx]; subst.
    + intros y Hy%(same_skeleton_child l r); [|done]. destruct Hy as (c & Hc & Hy). simplify_eq.
      destruct (Hpar y Hy) as (cy & Hcy & E). exists cur, cy. done.
    + simplify_eq. by eapply Hin.
Qed.

Lemma update_parents_list_ok l root :
  wf l → aget DASHBOARD_ROOT_ID l = Some root →
  ∃ r, update_parents_list l = Ok r ∧ same_skeleton l r ∧ wf r ∧
       aget DASHBOARD_ROOT_ID r = Some root ∧
       (∀ x, rtc (child l) DASHBOARD_ROOT_ID x → path_ok r x) ∧
       (∀ x, ¬ rtc (child l) DASHBOARD_ROOT_ID x → aget x r = aget x l).
Proof.
  intros Hwf Hroot. unfold update_parents_list. rewrite Hroot.
  pose proof (wf_ids l Hwf _ _ Hroot) as Hid.
  destruct (updateComponentParentsList_updates (S (length l)) l root) as (r & Hr & Hs & Hk & Hout & Hin).
  - done.
  - by rewrite Hid.
  - intros n y Hn. apply nsteps_bound in Hn; [lia|done].
  - rewrite Hid in Hout, Hin. exists r. split; [done|]. split; [done|].
    split; [by eapply same_skeleton_wf|]. split; [|split].
    + rewrite Hout; [done|]. by apply wf_acyclic.
    + done.
    + intros x Hx. apply Hout. intros Ht. by apply Hx, tc_rtc.
Qed.

(** Every component below the root gets the path that leads to it: on a
    well-formed layout [UPDATE_COMPONENTS_PARENTS_LIST] ends, gives each child
    the list of parents of its parent followed by the parent, and changes
    nothing else.  The reducer of the layout history, however, drops this
    action and the one that changes the title before they are handled. *)
Theorem update_parents_list_paths nanoid t l root text :
  wf l → aget DASHBOARD_ROOT_ID l = Some root →
  (∃ r, update_parents_list l = Ok r ∧ same_skeleton l r ∧ wf r ∧
        aget DASHBOARD_ROOT_ID r = Some root ∧
        (∀ x, rtc (child l) DASHBOARD_ROOT_ID x → path_ok r x) ∧
        (∀ x, ¬ rtc (child l) DASHBOARD_ROOT_ID x → aget x r = aget x l)) ∧
  layoutOnlyReducer nanoid t l UPDATE_COMPONENTS_PARENTS_LIST = Ok l ∧
  layoutOnlyReducer nanoid t l (DASHBOARD_TITLE_CHANGED text) = Ok l.
Proof.
  intros Hwf Hroot. split; [|done]. by apply update_parents_list_ok.
Qed.
