(* ===== verification/LayoutReach.v ===== *)
(** * The layouts a dashboard can reach

    Existing tabs that are made top-level tabs keep the layout well formed
    exactly when they lay directly in the grid.  Deleting top-level tabs keeps
    it well formed.  With the facts on the other actions, every layout that the
    actions of drag and drop reach from a well-formed one is well formed. *)

From Stdlib Require Import Ascii String.
From stdpp Require Import base strings option numbers list sets relations.
From S2P Require Import Prelude JsObject JsNumber JsValue Layout LayoutFacts LayoutReducer.
From S2P Require Import LayoutReducerFacts LayoutMoveFacts LayoutTabsFacts.
From S2P Require Import LayoutParentsFacts.

Lemma tc_first (R : string → string → Prop) x y : tc R x y → ∃ z, R x z ∧ rtc R z y.
Proof.
  destruct 1 as [x y H|x z y H Ht]; [by exists y; split|exists z]. split; [done|by apply tc_rtc].
Qed.

(** ** Existing tabs at the top *)

Section existing.
Context (nanoid : nat → string) (t : string → string) (l : components).
Context (s d : drop_end) (dg : dragged) (pos : option string).
Context (root top tabs tab : component) (topId tabId : string) (ks tks : list string).
Let g := dg_id dg.
Hypothesis Hwf : wf l.
Hypothesis Hold : de_id s ≠ NEW_COMPONENTS_SOURCE_ID.
Hypothesis Hroot : aget DASHBOARD_ROOT_ID l = Some root.
Hypothesis Hfirst : first_child root = Ok topId.
Hypothesis Htop : aget topId l = Some top.
Hypothesis Hks : c_children top = Some ks.
Hypothesis Htabs : aget g l = Some tabs.
Hypothesis Htfirst : first_child tabs = Ok tabId.
Hypothesis Htab : aget tabId l = Some tab.
Hypothesis Htks : c_children tab = Some tks.
Hypothesis Hbelow : tc (child l) topId g.

Definition moved : list string := filter (λ id, id ≠ g) ks.

Definition raised : components :=
  oset tabId (with_children (tks ++ moved) tab)
    (oset topId (with_children [] top)
       (oset DASHBOARD_ROOT_ID (with_children [g] root) l)).

Lemma create_existing_result :
  create_top_level_tabs nanoid t (drop_of s d dg pos) l = Ok raised.
Proof using All.
  unfold create_top_level_tabs. cbn [drop_of dr_source dr_dragging need_end]. rewrite bind_Ok.
  rewrite (need_Some _ _ _ Hroot), bind_Ok, Hfirst, bind_Ok, bool_decide_eq_true_2 by done.
  rewrite bind_Ok. fold g. rewrite (need_Some _ _ _ Htabs), bind_Ok, Htfirst, bind_Ok.
  rewrite (need_Some _ _ _ Htop), bind_Ok, (need_children_Some _ _ Hks), bind_Ok.
  by rewrite (need_Some _ _ _ Htab), bind_Ok, (need_children_Some _ _ Htks), bind_Ok.
Qed.

Lemma first_child_elem c x : first_child c = Ok x → x ∈ kids c.
Proof. unfold first_child. destruct (kids c); [done|]. intros [= ->]. left. Qed.

Lemma root_top : child l DASHBOARD_ROOT_ID topId.
Proof using All. exists root. split; [done|by apply first_child_elem]. Qed.

Lemma tabs_tab : child l g tabId.
Proof using All. exists tabs. split; [done|by apply first_child_elem]. Qed.

Lemma ordered x y : tc (child l) x y → x ≠ y.
Proof using All. intros H ->. by apply (wf_acyclic l Hwf y). Qed.

Lemma levels :
  DASHBOARD_ROOT_ID ≠ topId ∧ DASHBOARD_ROOT_ID ≠ tabId ∧ topId ≠ tabId ∧ topId ≠ g ∧ g ≠ tabId.
Proof using All.
  pose proof root_top as Hr. pose proof tabs_tab as Ht.
  assert (tc (child l) topId tabId) as Htt by by eapply tc_r.
  repeat split; apply ordered; [by apply tc_once|by eapply tc_l|done..|by apply tc_once].
Qed.

Lemma elem_moved y : y ∈ moved ↔ child l topId y ∧ y ≠ g.
Proof using All.
  unfold moved. rewrite list_elem_of_filter, (child_children l topId top ks y Htop Hks). tauto.
Qed.

Lemma raised_child x y :
  child raised x y ↔
    x = tabId ∧ (child l tabId y ∨ child l topId y ∧ y ≠ g) ∨
    x = DASHBOARD_ROOT_ID ∧ y = g ∨
    x ≠ tabId ∧ x ≠ topId ∧ x ≠ DASHBOARD_ROOT_ID ∧ child l x y.
Proof using All.
  pose proof levels as (H1 & H2 & H3 & _). unfold raised.
  rewrite !child_oset, !kids_with_children, elem_of_app, elem_moved, list_elem_of_singleton, elem_of_nil.
  rewrite <- (child_children l tabId tab tks y Htab Htks).
  destruct (decide (x = tabId)) as [->|]; [naive_solver|].
  destruct (decide (x = topId)) as [->|]; naive_solver.
Qed.

Lemma raised_dom x : dom raised x ↔ dom l x.
Proof using All.
  unfold raised. rewrite !dom_oset.
  assert (dom l tabId ∧ dom l topId ∧ dom l DASHBOARD_ROOT_ID) as (? & ? & ?)
    by (repeat split; eexists; eassumption).
  naive_solver.
Qed.

Lemma raised_local : local_ok raised.
Proof using All.
  apply wf_forest in Hwf as Hl. destruct Hl as [Hloc _].
  repeat apply local_ok_oset; try done;
    try (first [exact (wf_ids l Hwf _ _ Hroot)|exact (wf_ids l Hwf _ _ Htop)|exact (wf_ids l Hwf _ _ Htab)]).
  - apply NoDup_singleton.
  - apply NoDup_nil_2.
  - rewrite kids_with_children. apply NoDup_app.
    pose proof (wf_nodup l Hwf _ _ Htab) as Hn1. pose proof (wf_nodup l Hwf _ _ Htop) as Hn2.
    unfold kids in Hn1, Hn2. rewrite Htks in Hn1. rewrite Hks in Hn2.
    split; [done|]. split; [|by apply NoDup_filter].
    intros y Hy [Hm _]%elem_moved. apply (child_children l tabId tab tks y Htab Htks) in Hy.
    pose proof levels as (_ & _ & Hne & _). by apply Hne, (wf_parent l Hwf _ _ y).
Qed.

(** The tabs lie directly in the grid. *)
Lemma raised_wf : child l topId g → wf raised.
Proof using All.
  intros Hg. apply wf_forest. split; [apply raised_local|].
  apply wf_forest in Hwf as Hl. destruct Hl as [_ Hf].
  pose proof levels as (Hrt & Hrb & Htt & Htg & Hgt). pose proof root_top as Hr.
  set (R1 := λ x y, x = tabId ∧ (child l topId y ∧ y ≠ g) ∨ child l x y ∧ ¬ (child l topId y ∧ y ≠ g)).
  assert (forest (dom l) R1) as Hf1.
  { apply forest_reparent_all; [done|by exists tab|]. intros z [Hz Hzg].
    split; [by apply (wf_closed l Hwf topId)|]. intros Hzt. apply Hzg.
    apply (siblings_disjoint l Hwf topId z g tabId); [done..|by apply rtc_once, tabs_tab]. }
  assert (R1 DASHBOARD_ROOT_ID topId) as E1.
  { right. split; [done|]. intros [H _]. by apply (ordered topId topId); [apply tc_once|]. }
  assert (R1 topId g) as E2 by (right; naive_solver).
  set (R2 := λ x y, x = DASHBOARD_ROOT_ID ∧ y = g ∨ R1 x y ∧ y ≠ g).
  assert (forest (dom l) R2) as Hf2.
  { apply forest_reparent; [done|by exists root|by exists tabs|]. intros Hgr.
    apply (forest_acyclic _ _ Hf1 g). eapply tc_rtc_l; [exact Hgr|].
    eapply tc_l; [exact E1|by apply tc_once]. }
  apply (forest_sub (dom l) _ R2); [done|..].
  - intros x y. rewrite raised_child. unfold R2, R1.
    intros [[-> [Hy|Hy]]|[[-> ->]|(Hx1 & Hx2 & Hx3 & Hy)]].
    + assert (¬ child l topId y) by (intros H; by apply Htt, (wf_parent l Hwf _ _ y)).
      right. split; [right; naive_solver|]. naive_solver.
    + right. split; [by left|naive_solver].
    + by left.
    + assert (¬ child l topId y) by (intros H; by apply Hx2, (wf_parent l Hwf _ _ y)).
      right. split; [right; naive_solver|]. naive_solver.
  - intros x y. rewrite raised_child, !raised_dom.
    intros [[-> [Hy|[Hy _]]]|[[-> ->]|(_ & _ & _ & Hy)]];
      [by apply (forest_dom _ _ Hf)| |split; eexists; eassumption|by apply (forest_dom _ _ Hf)].
    split; [by exists tab|]. by apply (wf_closed l Hwf topId).
Qed.

(** The tabs lie deeper: their first tab is above and below them. *)
Lemma raised_cycle : ¬ child l topId g → tc (child raised) g g.
Proof using All.
  intros Hg. pose proof levels as (Hrt & Hrb & Htt & Htg & Hgt).
  destruct (tc_first _ _ _ Hbelow) as (z & Hz & Hzg).
  assert (z ≠ g) as Hne by (intros ->; done).
  assert (∀ x, rtc (child l) z x → x ≠ topId ∧ x ≠ DASHBOARD_ROOT_ID) as Hout.
  { intros x Hx. assert (tc (child l) topId x) as Ht by (eapply tc_rtc_r; [by apply tc_once|done]).
    split; apply not_eq_sym, ordered; [done|]. eapply tc_l; [apply root_top|done]. }
  assert (∀ x w, rtc (child l) x w → rtc (child l) z x → rtc (child l) w g → rtc (child raised) x w)
    as Hpath.
  { intros x w. induction 1 as [x|x y w Hxy Hyw IH]; intros Hzx Hwg; [apply rtc_refl|].
    assert (rtc (child l) z y) as Hzy by by eapply rtc_r.
    apply rtc_l with y; [|by apply IH]. apply raised_child. right; right.
    destruct (Hout x Hzx). split; [|done]. intros ->.
    apply (wf_acyclic l Hwf g). apply tc_rtc_r with y; [|by etrans].
    eapply tc_l; [apply tabs_tab|by apply tc_once]. }
  assert (child raised g tabId) as E1.
  { apply raised_child. right; right. destruct (Hout g Hzg). split; [done|].
    split; [done|]. split; [done|apply tabs_tab]. }
  assert (child raised tabId z) as E2 by (apply raised_child; left; naive_solver).
  apply tc_rtc_r with z; [eapply tc_l; [exact E1|by apply tc_once]|]. apply Hpath; [done|apply rtc_refl..].
Qed.

(** Tabs that are made top-level tabs: when existing tabs below the grid
    are dropped on the root, the components of the grid move into their first
    tab.  The layout stays well formed exactly when the tabs lay directly in
    the grid.  Tabs that lay deeper end up below themselves, since the
    component of the grid they were in moves into their own first tab. *)
Theorem top_level_tabs_existing :
  ∃ r, create_top_level_tabs nanoid t (drop_of s d dg pos) l = Ok r ∧
       child r DASHBOARD_ROOT_ID g ∧
       (wf r ↔ child l topId g) ∧ (¬ child l topId g → tc (child r) g g).
Proof using All.
  exists raised. split; [apply create_existing_result|]. split; [apply raised_child; naive_solver|].
  split; [|apply raised_cycle]. split; [|apply raised_wf]. intros Hr.
  destruct (decide (g ∈ ks)) as [Hin|Hin]; [by eapply child_children|]. exfalso.
  apply (wf_acyclic raised Hr g), raised_cycle. intros Hc. by apply Hin, (child_children l topId top).
Qed.
End existing.

(** ** New tabs at the top *)

Lemma child_kids l x c y : aget x l = Some c → child l x y ↔ y ∈ kids c.
Proof. intros H. unfold child. rewrite H. naive_solver. Qed.

Definition new_tabs_drop (i : Z) (g : dragged) (pos : option string) : dropResult :=
  drop_of {| de_id := NEW_COMPONENTS_SOURCE_ID; de_type := EmptyString; de_index := 0 |}
    {| de_id := DASHBOARD_ROOT_ID; de_type := DASHBOARD_ROOT_TYPE; de_index := i |} g pos.

Lemma grid_kids_nodup l root grid ks : grid_layout l root grid ks → NoDup ks.
Proof.
  intros [Hwf _ _ _ _ Hgr Hgk]. pose proof (wf_nodup l Hwf _ _ Hgr) as H. unfold kids in H.
  by rewrite Hgk in H.
Qed.

(** The layout that [create_top_level_tabs_new] describes. *)
Section new_tabs.
Context (nanoid : nat → string) (l r : components).
Context (root grid c tab : component) (ks : list string).
Hypothesis Hl : grid_layout l root grid ks.
Hypothesis Hfresh : fresh_ids nanoid l.
Let tabsId := uuid nanoid 0 TABS_TYPE.
Let tabId := uuid nanoid 2 TAB_TYPE.
Hypothesis Hidc : c_id c = tabsId.
Hypothesis Hidt : c_id tab = tabId.
Hypothesis Hnd : NoDup (akeys r).
Hypothesis Hget : ∀ x, aget x r =
  if decide (x = DASHBOARD_ROOT_ID) then Some (with_children [tabsId] root)
  else if decide (x = DASHBOARD_GRID_ID) then Some (with_children [] grid)
  else if decide (x = tabId) then Some (with_children ks tab)
  else if decide (x = tabsId) then Some (with_children [tabId] c)
  else aget x l.

Let Hwf : wf l := gl_wf _ _ _ _ Hl.
Let Hroot := gl_root _ _ _ _ Hl.
Let Hgr := gl_grid _ _ _ _ Hl.
Let Hgk := gl_grid_children _ _ _ _ Hl.
Let Hd1 : ¬ dom l tabsId := fresh_dom nanoid l Hfresh 0 TABS_TYPE.
Let Hd2 : ¬ dom l tabId := fresh_dom nanoid l Hfresh 2 TAB_TYPE.

Lemma new_tabs_child x y :
  child r x y ↔
    x = DASHBOARD_ROOT_ID ∧ y = tabsId ∨ x = tabId ∧ child l DASHBOARD_GRID_ID y ∨
    x = tabsId ∧ y = tabId ∨ x ≠ DASHBOARD_ROOT_ID ∧ x ≠ DASHBOARD_GRID_ID ∧ child l x y.
Proof using All.
  pose proof (ids_apart nanoid l root grid ks Hl Hfresh) as (Htt & Hsr & Hsg & Htr & Htg).
  fold tabsId in Htt, Hsr, Hsg. fold tabId in Htt, Htr, Htg.
  rewrite (child_children _ _ _ ks y Hgr Hgk).
  assert (¬ child l tabsId y ∧ ¬ child l tabId y) as [? ?]
    by (split; intros (? & ? & _); [apply Hd1|apply Hd2]; by eexists).
  specialize (Hget x).
  destruct (decide (x = DASHBOARD_ROOT_ID)) as [->|];
    [rewrite (child_kids _ _ _ _ Hget), kids_with_children, list_elem_of_singleton; naive_solver|].
  destruct (decide (x = DASHBOARD_GRID_ID)) as [->|];
    [rewrite (child_kids _ _ _ _ Hget), kids_with_children, elem_of_nil; naive_solver|].
  destruct (decide (x = tabId)) as [->|];
    [rewrite (child_kids _ _ _ _ Hget), kids_with_children; naive_solver|].
  destruct (decide (x = tabsId)) as [->|];
    [rewrite (child_kids _ _ _ _ Hget), kids_with_children, list_elem_of_singleton; naive_solver|].
  unfold child at 1. rewrite Hget. fold (child l x y). naive_solver.
Qed.

Lemma new_tabs_dom x : dom r x ↔ dom l x ∨ x = tabsId ∨ x = tabId.
Proof using All.
  pose proof Hroot as Hr. pose proof Hgr as Hg. unfold dom. rewrite Hget.
  repeat case_decide; subst; rewrite ?Hr, ?Hg; rewrite ?is_Some_alt; naive_solver.
Qed.

Lemma new_tabs_local : local_ok r.
Proof using All.
  split; [done|..]; intros x cx; rewrite Hget; repeat case_decide; try (intros [= <-]; subst x).
  - exact (wf_ids l Hwf _ _ Hroot).
  - exact (wf_ids l Hwf _ _ Hgr).
  - done.
  - done.
  - apply (wf_ids l Hwf).
  - apply NoDup_singleton.
  - apply NoDup_nil_2.
  - by eapply grid_kids_nodup.
  - apply NoDup_singleton.
  - apply (wf_nodup l Hwf).
Qed.

(** The layout with the new tabs next to the grid. *)
Let R1 x y := (child l x y ∨ x = DASHBOARD_ROOT_ID ∧ y = tabsId) ∨ x = tabsId ∧ y = tabId.

Lemma beside_forest : forest (λ x, (dom l x ∨ x = tabsId) ∨ x = tabId) R1.
Proof using All.
  apply wf_forest in Hwf as Hl'. destruct Hl' as [_ Hf].
  assert (tabsId ≠ tabId) by apply (ids_apart nanoid l root grid ks Hl Hfresh).
  apply forest_leaf; [apply forest_leaf; [done|by exists root|done]|by right|naive_solver].
Qed.

Lemma grid_child_above z : child l DASHBOARD_GRID_ID z → ¬ rtc R1 z tabId.
Proof using All.
  intros Hz. assert (tabsId ≠ tabId) by apply (ids_apart nanoid l root grid ks Hl Hfresh).
  intros [->|(w & Hzw & [[Hw|[_ ?]]|[-> _]])]%rtc_inv_r.
  - by apply Hd2, (wf_closed l Hwf DASHBOARD_GRID_ID).
  - by apply Hd2, (wf_closed l Hwf w).
  - done.
  - apply rtc_inv_r in Hzw as [->|(w & Hzw & [[Hw|[-> _]]|[_ ?]])]; [..|done].
    + by apply Hd1, (wf_closed l Hwf DASHBOARD_GRID_ID).
    + by apply Hd1, (wf_closed l Hwf w).
    + apply (forest_acyclic _ _ beside_forest DASHBOARD_ROOT_ID). apply tc_rtc_r with z; [|done].
      apply tc_l with DASHBOARD_GRID_ID; [left; left|apply tc_once; left; by left].
      apply (child_children _ _ _ _ DASHBOARD_GRID_ID Hroot (gl_root_children _ _ _ _ Hl)). left.
Qed.

Lemma new_tabs_result_wf : wf r.
Proof using All.
  apply wf_forest. split; [apply new_tabs_local|].
  apply wf_forest in Hwf as Hl'. destruct Hl' as [_ Hf].
  pose proof (forest_reparent_all _ R1 tabId (child l DASHBOARD_GRID_ID) beside_forest) as Hf2.
  apply (forest_sub _ (dom r) _ (child r)) in Hf2; [done|by right| | |].
  - intros z Hz. split; [left; left; by apply (wf_closed l Hwf DASHBOARD_GRID_ID)|].
    by apply grid_child_above.
  - assert (∀ z, ¬ dom l z → ¬ child l DASHBOARD_GRID_ID z) as Hng
      by (intros z Hz Hc'; by apply Hz, (wf_closed l Hwf DASHBOARD_GRID_ID)).
    intros x y. rewrite new_tabs_child. unfold R1.
    intros [[-> ->]|[[-> Hy]|[[-> ->]|(Hx1 & Hx2 & Hy)]]]; [naive_solver|by left|naive_solver|].
    right. split; [by left; left|]. intros Hc'. by apply Hx2, (wf_parent l Hwf _ _ y).
  - intros x y. rewrite new_tabs_child, !new_tabs_dom.
    assert (dom l DASHBOARD_ROOT_ID) by by exists root.
    intros [[-> ->]|[[-> Hy]|[[-> ->]|(_ & _ & Hy)]]]; [naive_solver|..|naive_solver|].
    + split; [naive_solver|]. left. by apply (wf_closed l Hwf DASHBOARD_GRID_ID).
    + destruct (forest_dom _ _ Hf x y Hy). naive_solver.
Qed.
End new_tabs.

Lemma new_tabs_wf nanoid t l root grid ks i g pos :
  grid_layout l root grid ks → fresh_ids nanoid l → dg_type g = TABS_TYPE →
  ∃ r, create_top_level_tabs nanoid t (new_tabs_drop i g pos) l = Ok r ∧ wf r.
Proof.
  intros Hl Hfresh Hg.
  destruct (create_top_level_tabs_new nanoid t l root grid ks i g pos Hl Hfresh Hg)
    as (r & c & tab & Hr & _ & Hidc & Hidt & Hnd & Hget).
  exists r. split; [done|]. by apply (new_tabs_result_wf nanoid l r root grid c tab ks).
Qed.

(** ** Deleting the top-level tabs *)

Record tabs_layout (l : components) (root tabs grid : component) (topId : string)
    (tabIds : list string) : Prop := {
  tl_wf : wf l;
  tl_root : aget DASHBOARD_ROOT_ID l = Some root;
  tl_first : first_child root = Ok topId;
  tl_tabs : aget topId l = Some tabs;
  tl_type : c_type tabs = TABS_TYPE;
  tl_children : c_children tabs = Some tabIds;
  tl_tab : ∀ x c, x ∈ tabIds → aget x l = Some c → is_Some (c_children c);
  tl_grid : aget DASHBOARD_GRID_ID l = Some grid;
  tl_loose : ∀ x, ¬ child l x DASHBOARD_GRID_ID ∧ ¬ child l x DASHBOARD_ROOT_ID;
}.

Definition kids_at (l : components) (x : string) : list string := default [] (kids <$> aget x l).

Lemma elem_of_kids_at l x y : y ∈ kids_at l x ↔ child l x y.
Proof.
  unfold kids_at, child. destruct (aget x l) as [c|]; cbn; [naive_solver|].
  rewrite elem_of_nil. naive_solver.
Qed.

Lemma collect_tabs l tabIds acc :
  (∀ x, x ∈ tabIds → ∃ c ks, aget x l = Some c ∧ c_children c = Some ks) →
  fold_result (collect_tab l) acc tabIds =
  Ok (acc.1 ++ concat (kids_at l <$> tabIds), foldl (λ m x, adel x m) acc.2 tabIds).
Proof.
  revert acc. induction tabIds as [|x xs IH]; intros [ys m] H; cbn [fold_result].
  { cbn. by rewrite app_nil_r. }
  destruct (H x) as (c & ks & Hc & Hk); [left|].
  assert (kids_at l x = ks) as Hx by (unfold kids_at, kids; rewrite Hc; cbn; by rewrite Hk).
  assert (collect_tab l (ys, m) x = Ok (ys ++ ks, adel x m)) as ->.
  { unfold collect_tab. by rewrite (need_Some _ _ _ Hc), bind_Ok, (need_children_Some _ _ Hk). }
  rewrite bind_Ok, IH by (intros; apply H; by right). cbn [fst snd fmap list_fmap concat foldl].
  by rewrite Hx, app_assoc.
Qed.

Lemma aget_adel_all {V} (m : list (string * V)) xs x :
  aget x (foldl (λ m x, adel x m) m xs) = if decide (x ∈ xs) then None else aget x m.
Proof.
  revert m. induction xs as [|z xs IH]; intros m; cbn [foldl]; [by rewrite decide_False by apply not_elem_of_nil|].
  rewrite IH, aget_adel. repeat case_decide; try done; set_solver.
Qed.

Lemma NoDup_concat_kids l xs :
  wf l → NoDup xs → NoDup (concat (kids_at l <$> xs)).
Proof.
  intros Hwf. induction 1 as [|x xs Hx Hn IH]; cbn [fmap list_fmap concat]; [apply NoDup_nil_2|].
  apply NoDup_app. split; [|split; [|done]].
  - unfold kids_at. destruct (aget x l) as [c|] eqn:E; [exact (wf_nodup l Hwf _ _ E)|apply NoDup_nil_2].
  - intros y Hy%elem_of_kids_at Hin. apply list_elem_of_In, in_concat in Hin as (zs & Hzs & Hin).
    apply list_elem_of_In, list_elem_of_fmap in Hzs as (z & -> & Hz).
    apply list_elem_of_In, elem_of_kids_at in Hin. by rewrite (wf_parent l Hwf x z y) in Hx.
Qed.

Section delete_tabs.
Context (l : components) (root tabs grid : component) (topId : string) (tabIds : list string).
Hypothesis Hl : tabs_layout l root tabs grid topId tabIds.

Let Hwf : wf l := tl_wf _ _ _ _ _ _ Hl.
Let Hroot := tl_root _ _ _ _ _ _ Hl.
Let Htabs := tl_tabs _ _ _ _ _ _ Hl.
Let Hgrid := tl_grid _ _ _ _ _ _ Hl.

Definition tab_child (y : string) : Prop := ∃ x, x ∈ tabIds ∧ child l x y.

Definition lowered : components :=
  oset DASHBOARD_GRID_ID (with_children (concat (kids_at l <$> tabIds)) grid)
    (oset DASHBOARD_ROOT_ID (with_children [DASHBOARD_GRID_ID] root)
       (adel topId (foldl (λ m x, adel x m) l tabIds))).

Lemma tabs_child x : child l topId x ↔ x ∈ tabIds.
Proof using All. exact (child_children _ _ _ _ _ Htabs (tl_children _ _ _ _ _ _ Hl)). Qed.

Lemma root_child_tabs : child l DASHBOARD_ROOT_ID topId.
Proof using All. exists root. split; [done|]. apply first_child_elem, Hl. Qed.

Lemma delete_top_level_tabs_result : delete_top_level_tabs l = Ok lowered.
Proof using All.
  unfold delete_top_level_tabs. rewrite (need_Some _ _ _ Hroot), bind_Ok.
  rewrite (tl_first _ _ _ _ _ _ Hl), bind_Ok, (need_Some _ _ _ Htabs), bind_Ok.
  rewrite bool_decide_eq_false_2 by (rewrite (tl_type _ _ _ _ _ _ Hl); intros Hn; by apply Hn).
  rewrite (need_children_Some _ _ (tl_children _ _ _ _ _ _ Hl)), bind_Ok, collect_tabs, bind_Ok.
  - pose proof Hgrid as Hg. rewrite Hg. done.
  - intros x Hx. destruct (wf_closed l Hwf topId x) as [c Hc]; [by apply tabs_child|].
    destruct (tl_tab _ _ _ _ _ _ Hl x c Hx Hc) as [ks Hks]. by exists c, ks.
Qed.

Lemma elem_of_collected y : y ∈ concat (kids_at l <$> tabIds) ↔ tab_child y.
Proof using All.
  rewrite list_elem_of_In, in_concat. unfold tab_child. split.
  - intros (zs & Hzs & Hin). apply list_elem_of_In, list_elem_of_fmap in Hzs as (z & -> & Hz).
    exists z. split; [done|]. by apply elem_of_kids_at, list_elem_of_In.
  - intros (x & Hx & Hy). exists (kids_at l x). split; apply list_elem_of_In.
    + apply list_elem_of_fmap. by exists x.
    + by apply elem_of_kids_at.
Qed.

(** The components that are deleted lie between the root and the rest. *)
Lemma gone_parent x y :
  child l x y → y = topId ∨ y ∈ tabIds → x = DASHBOARD_ROOT_ID ∨ x = topId.
Proof using All.
  intros Hxy [->|Hy]; [left; apply (wf_parent l Hwf _ _ _ Hxy root_child_tabs)|].
  right. by apply (wf_parent l Hwf _ _ _ Hxy), tabs_child.
Qed.

Lemma tab_not_root x : x ∈ tabIds → x ≠ DASHBOARD_ROOT_ID ∧ x ≠ topId ∧ x ≠ DASHBOARD_GRID_ID.
Proof using All.
  intros Hx%tabs_child. destruct (tl_loose _ _ _ _ _ _ Hl topId) as [H1 H2].
  split; [by intros ->|]. split; [|by intros ->].
  intros ->. by apply (wf_acyclic l Hwf topId), tc_once.
Qed.

Lemma top_not_root : topId ≠ DASHBOARD_ROOT_ID ∧ topId ≠ DASHBOARD_GRID_ID.
Proof using All.
  destruct (tl_loose _ _ _ _ _ _ Hl DASHBOARD_ROOT_ID) as [H1 H2].
  pose proof root_child_tabs as Hr. by split; intros E; rewrite E in Hr.
Qed.

Lemma aget_lowered x :
  aget x lowered =
  if decide (x = DASHBOARD_GRID_ID) then Some (with_children (concat (kids_at l <$> tabIds)) grid)
  else if decide (x = DASHBOARD_ROOT_ID) then Some (with_children [DASHBOARD_GRID_ID] root)
  else if decide (x = topId ∨ x ∈ tabIds) then None else aget x l.
Proof using All.
  unfold lowered. rewrite !aget_oset, aget_adel, aget_adel_all. repeat case_decide; naive_solver.
Qed.

Lemma lowered_child x y :
  child lowered x y ↔
    x = DASHBOARD_GRID_ID ∧ tab_child y ∨ x = DASHBOARD_ROOT_ID ∧ y = DASHBOARD_GRID_ID ∨
    x ≠ DASHBOARD_GRID_ID ∧ x ≠ DASHBOARD_ROOT_ID ∧ x ≠ topId ∧ (x ∉ tabIds) ∧ child l x y.
Proof using All.
  pose proof (aget_lowered x) as Hx.
  destruct (decide (x = DASHBOARD_GRID_ID)) as [->|].
  { rewrite (child_kids _ _ _ _ Hx), kids_with_children, elem_of_collected. naive_solver. }
  destruct (decide (x = DASHBOARD_ROOT_ID)) as [->|].
  { rewrite (child_kids _ _ _ _ Hx), kids_with_children, list_elem_of_singleton. naive_solver. }
  unfold child at 1. rewrite Hx. case_decide; [naive_solver|]. fold (child l x y). naive_solver.
Qed.

Lemma lowered_dom x :
  dom lowered x ↔ x = DASHBOARD_GRID_ID ∨ x = DASHBOARD_ROOT_ID ∨ dom l x ∧ x ≠ topId ∧ x ∉ tabIds.
Proof using All.
  unfold dom at 1. rewrite aget_lowered.
  destruct (decide (x = DASHBOARD_GRID_ID)) as [->|]; [split; [by left|by eexists]|].
  destruct (decide (x = DASHBOARD_ROOT_ID)) as [->|]; [split; [by right; left|by eexists]|].
  case_decide; [split; [by intros [? ?]|naive_solver]|]. unfold dom. naive_solver.
Qed.

Lemma lowered_local : local_ok lowered.
Proof using All.
  split.
  - unfold lowered. apply NoDup_akeys_oset, NoDup_akeys_oset, NoDup_akeys_adel.
    pose proof (wf_keys l Hwf) as Hk. clear -Hk. revert l Hk.
    induction tabIds as [|x xs IH]; intros l Hk; cbn [foldl]; [done|]. by apply IH, NoDup_akeys_adel.
  - intros x c. rewrite aget_lowered. repeat case_decide; try done; try (intros [= <-]; subst x).
    + exact (wf_ids l Hwf _ _ Hgrid).
    + exact (wf_ids l Hwf _ _ Hroot).
    + apply (wf_ids l Hwf).
  - intros x c. rewrite aget_lowered. repeat case_decide; try done; try (intros [= <-]; subst x).
    + apply NoDup_concat_kids; [done|].
      pose proof (wf_nodup l Hwf _ _ Htabs) as H. unfold kids in H.
      by rewrite (tl_children _ _ _ _ _ _ Hl) in H.
    + apply NoDup_singleton.
    + apply (wf_nodup l Hwf).
Qed.

Lemma lowered_wf : wf lowered.
Proof using All.
  apply wf_forest. split; [apply lowered_local|]. apply wf_forest in Hwf as Hl'. destruct Hl' as [_ Hf].
  assert (∀ x, rtc (child l) x DASHBOARD_GRID_ID → x = DASHBOARD_GRID_ID) as Hup.
  { intros x [->|(w & _ & Hw)]%rtc_inv_r; [done|]. by destruct (tl_loose _ _ _ _ _ _ Hl w). }
  set (R1 := λ x y, x = DASHBOARD_GRID_ID ∧ tab_child y ∨ child l x y ∧ ¬ tab_child y).
  assert (forest (dom l) R1) as Hf1.
  { apply forest_reparent_all; [done|by exists grid|]. intros z (x & Hx & Hz).
    split; [by apply (wf_closed l Hwf x)|]. intros E%Hup. subst z.
    by destruct (tl_loose _ _ _ _ _ _ Hl x). }
  assert (forest (dom l) (λ x y, x = DASHBOARD_ROOT_ID ∧ y = DASHBOARD_GRID_ID ∨
    R1 x y ∧ y ≠ DASHBOARD_GRID_ID)) as Hf2.
  { apply forest_reparent; [done|by exists root|by exists grid|].
    intros [E|(w & _ & [[_ (x & _ & Hx)]|[Hw _]])]%rtc_inv_r; [done|..].
    - by destruct (tl_loose _ _ _ _ _ _ Hl x).
    - by destruct (tl_loose _ _ _ _ _ _ Hl w). }
  eapply forest_sub; [exact Hf2|..].
  - intros x y. rewrite lowered_child. unfold R1.
    intros [[-> Hy]|[[-> ->]|(Hx1 & Hx2 & Hx3 & Hx4 & Hy)]]; [right|by left|right].
    + split; [by left|]. intros ->. destruct Hy as (x & _ & Hx). by destruct (tl_loose _ _ _ _ _ _ Hl x).
    + split; [right; split; [done|]|].
      * intros (z & Hz & Hzy). by rewrite (wf_parent l Hwf x z y) in Hx4.
      * intros ->. by destruct (tl_loose _ _ _ _ _ _ Hl x).
  - intros x y. rewrite lowered_child, !lowered_dom.
    intros [[-> (z & Hz & Hy)]|[[-> ->]|(Hx1 & Hx2 & Hx3 & Hx4 & Hy)]]; [split; [by left|]|naive_solver|].
    + right; right. split; [by apply (wf_closed l Hwf z)|]. destruct (tab_not_root z Hz) as (H1 & H2 & _).
      split; intros E; (destruct (gone_parent z y Hy) as [?|?]; [naive_solver|done|done]).
    + destruct (forest_dom _ _ Hf x y Hy) as [Hdx Hdy]. split; [naive_solver|]. right; right.
      split; [done|]. split; intros E; (destruct (gone_parent x y Hy) as [?|?]; [naive_solver|done|done]).
Qed.
End delete_tabs.

(** ** Every action *)

(** An update as the components of a dashboard send it: it replaces stored
    components and keeps their ids and children. *)
Definition same_structure (l next : components) : Prop :=
  NoDup (akeys next) ∧
  ∀ x c, aget x next = Some c →
    ∃ c', aget x l = Some c' ∧ c_id c = c_id c' ∧ c_children c = c_children c'.

(** The actions that the user interface dispatches on a layout. *)
Inductive valid_action (nanoid : nat → string) (l : components) : layout_action → Prop :=
| va_update next : same_structure l next → valid_action nanoid l (UPDATE_COMPONENTS next)
| va_delete p id : child l p id → valid_action nanoid l (DELETE_COMPONENT id (Some p))
| va_create s d g pos cd ks :
    aget "null" l = None → fresh_ids nanoid l → de_id s = NEW_COMPONENTS_SOURCE_ID →
    aget (de_id d) l = Some cd → c_children cd = Some ks →
    valid_action nanoid l (CREATE_COMPONENT (drop_of s d g pos))
| va_move s d g pos :
    aget "null" l = None → fresh_ids nanoid l → move_ok l s d g →
    valid_action nanoid l (MOVE_COMPONENT (drop_of s d g pos))
| va_new_tabs root grid ks i g pos :
    grid_layout l root grid ks → fresh_ids nanoid l → dg_type g = TABS_TYPE →
    valid_action nanoid l (CREATE_TOP_LEVEL_TABS (new_tabs_drop i g pos))
| va_existing_tabs s d g pos root top tabs tab topId tabId ks tks :
    de_id s ≠ NEW_COMPONENTS_SOURCE_ID →
    aget DASHBOARD_ROOT_ID l = Some root → first_child root = Ok topId →
    aget topId l = Some top → c_children top = Some ks →
    aget (dg_id g) l = Some tabs → first_child tabs = Ok tabId →
    aget tabId l = Some tab → c_children tab = Some tks → dg_id g ∈ ks →
    valid_action nanoid l (CREATE_TOP_LEVEL_TABS (drop_of s d g pos))
| va_delete_tabs root tabs grid topId tabIds :
    tabs_layout l root tabs grid topId tabIds → valid_action nanoid l DELETE_TOP_LEVEL_TABS
| va_parents root :
    aget DASHBOARD_ROOT_ID l = Some root → valid_action nanoid l UPDATE_COMPONENTS_PARENTS_LIST
| va_title text header :
    aget DASHBOARD_HEADER_ID l = Some header → valid_action nanoid l (DASHBOARD_TITLE_CHANGED text)
| va_other type : valid_action nanoid l (OTHER_ACTION type).

(** The same components with the same children. *)
Definition alike (l r : components) : Prop := ∀ x,
  (∃ c c', aget x r = Some c ∧ aget x l = Some c' ∧ c_id c = c_id c' ∧ c_children c = c_children c') ∨
  aget x r = None ∧ aget x l = None.

Lemma alike_wf l r : alike l r → NoDup (akeys r) → wf l → wf r.
Proof.
  intros H Hk [Hloc Hf]%wf_forest. apply wf_forest. split.
  - split; [done|..]; intros x c Hc; destruct (H x) as [(c1 & c' & Hc1 & Hc' & E1 & E2)|[? _]]; simplify_eq.
    + rewrite E1. exact (local_ids l Hloc _ _ Hc').
    + pose proof (local_nodup l Hloc _ _ Hc') as Hn. unfold kids in *. congruence.
  - eapply forest_iff; [..|exact Hf].
    + intros x. unfold dom. destruct (H x) as [(c1 & c' & -> & -> & _)|[-> ->]]; [|done].
      split; intros _; by eexists.
    + intros x y. unfold child, kids. destruct (H x) as [(c1 & c' & -> & -> & _ & E)|[-> ->]]; [|done].
      split; intros (? & [= <-] & Hy); eexists; (split; [done|]); congruence.
Qed.

Lemma update_wf l next : wf l → same_structure l next → wf (ospread l next).
Proof.
  intros Hwf [Hn Hs]. apply (alike_wf l); [|by apply NoDup_akeys_ospread, wf_keys|exact Hwf].
  intros x. rewrite aget_ospread by done. destruct (aget x next) as [c|] eqn:E.
  - left. destruct (Hs x c E) as (c' & ? & ?). by exists c, c'.
  - destruct (aget x l) as [c|] eqn:El; [left|by right]. by exists c, c.
Qed.

Lemma title_wf l header m :
  wf l → aget DASHBOARD_HEADER_ID l = Some header →
  wf (oset DASHBOARD_HEADER_ID (with_meta m header) l).
Proof.
  intros Hwf Hh. apply (alike_wf l); [|by apply NoDup_akeys_oset, wf_keys|exact Hwf].
  intros x. rewrite aget_oset. case_decide as E; [subst x|].
  - left. by eexists _, header.
  - destruct (aget x l) as [c|] eqn:El; [left|by right]. by exists c, c.
Qed.

Lemma valid_action_ok nanoid t l a :
  wf l → valid_action nanoid l a → ∃ r, layoutReducer nanoid t l a = Ok r ∧ wf r.
Proof.
  intros Hwf. destruct 1; cbn [layoutReducer].
  - eexists. split; [done|]. by apply update_wf.
  - eexists. split; [done|]. by apply delete_component_wf.
  - destruct (newEntitiesFromDrop_cases nanoid t l s d g pos cd ks) as (c & _ & _ & _ & Hnew); [done..|].
    rewrite Hnew, bind_Ok. eexists. split; [done|].
    by eapply (create_wf nanoid t l s d g pos cd ks).
  - destruct (move_component_moved nanoid t l s d g pos) as (r & Hr & Hw & _); [done..|].
    by exists r.
  - by eapply new_tabs_wf.
  - assert (child l topId (dg_id g)) as Hg by by eapply child_children.
    eexists. split; [by eapply create_existing_result; eauto using tc_once|].
    eapply raised_wf; eauto using tc_once.
  - eexists. split; [by eapply delete_top_level_tabs_result|by eapply lowered_wf].
  - destruct (update_parents_list_ok l root) as (r & Hr & _ & Hw & _); [done..|]. by exists r.
  - unfold dashboard_title_changed. rewrite (need_Some _ _ _ H), bind_Ok. eexists. split; [done|].
    by apply title_wf.
  - by exists l.
Qed.

(** One action; the ids it creates are fresh. *)
Inductive layout_step (t : string → string) (l r : components) : Prop :=
| layout_step_intro nanoid a :
    valid_action nanoid l a → layoutReducer nanoid t l a = Ok r → layout_step t l r.

(** C4. A dashboard's layout stays a forest: every layout that a sequence of
    valid actions reaches from a well-formed one is well formed (each child
    exists and has one parent, and no component lies below itself), and in
    each of them every valid action succeeds. *)
Theorem layout_reachable_wf t l r :
  wf l → rtc (layout_step t) l r →
  wf r ∧ ∀ nanoid a, valid_action nanoid r a → ∃ r', layoutReducer nanoid t r a = Ok r'.
Proof.
  intros Hl Hr. assert (wf r) as Hwf.
  { induction Hr as [l|l m r [nanoid a Ha Hm] _ IH]; [done|]. apply IH.
    destruct (valid_action_ok nanoid t l a Hl Ha) as (m' & Hm' & Hw). rewrite Hm in Hm'. by injection Hm' as ->. }
  split; [done|]. intros nanoid a Ha.
  destruct (valid_action_ok nanoid t r a Hwf Ha) as (r' & Hr' & _). by exists r'.
Qed.
