(* ===== verification/LayoutDrop.v ===== *)
(** * Drops on a dashboard

    The thunks of [app/dashboard/actions/dashboardLayout.js] that read the
    layout before they change it: handling a drop, resizing and the title.  A
    thunk dispatches actions to the store; the state it can see is the present
    layout, the flag for unsaved changes and the scopes of the dashboard's
    filters.  What it dispatches is recorded in order.

    The layout that a thunk reads is the one its last action left.  Parents are
    searched without the module's cache, which is transparent on trees
    ([findParentIdWithCache]). *)

From Stdlib Require Import Ascii String.
From stdpp Require Import base strings option numbers list sets relations.
From S2P Require Import Prelude JsObject JsNumber JsValue Layout LayoutFacts LayoutReducer.
From S2P Require Import LayoutReducerFacts LayoutMoveFacts LayoutTabsFacts.
From S2P Require Import LayoutParentsFacts LayoutReach.

(** ** The store as the thunks see it *)

Inductive dispatched :=
| Layout_action (action : layout_action)
| UPDATE_LAYOUT_COMPONENTS (components : components)
| SET_UNSAVED_CHANGES (hasUnsavedChanges : bool)
| Warning_toast (message : string).

(** The scope of a column of a filter, and the scopes of the filters. *)
Definition filter_scopes : Type := list (string * list (string * list string)).

Record store := {
  present : components;
  hasUnsavedChanges : bool;
  dashboardFilters : filter_scopes;
  log : list dispatched;
}.

Definition record (d : dispatched) (w : store) : store :=
  {| present := present w; hasUnsavedChanges := hasUnsavedChanges w;
     dashboardFilters := dashboardFilters w; log := log w ++ [d] |}.

Definition with_present (l : components) (w : store) : store :=
  {| present := l; hasUnsavedChanges := hasUnsavedChanges w;
     dashboardFilters := dashboardFilters w; log := log w |}.

(** @source app/dashboard/reducers/dashboardState.js 179-182 SET_UNSAVED_CHANGES *)
Definition set_unsaved_changes (b : bool) (w : store) : store :=
  record (SET_UNSAVED_CHANGES b)
    {| present := present w; hasUnsavedChanges := b;
       dashboardFilters := dashboardFilters w; log := log w |}.

(** @source app/dashboard/util/isInDifferentFilterScopes.js 19-33 isInDifferentFilterScopes *)
Definition isInDifferentFilterScopes (filters : filter_scopes) (source destination : list string)
    : bool :=
  let allScopes := concat ((λ f, concat (avalues f)) <$> avalues filters) in
  existsb (λ tab, negb (Bool.eqb (bool_decide (tab ∈ destination)) (bool_decide (tab ∈ source))))
    allScopes.

Section thunks.
Context (nanoid : nat → string) (t : string → string).

(** An action of the layout, followed by the update of the active filters,
    unless it replaces components, and by the flag for unsaved changes.

    @source app/dashboard/actions/dashboardLayout.js 40-66 setUnsavedChangesAfterAction *)
Definition setUnsavedChangesAfterAction (action : layout_action) (w : store) : result store :=
  next ← layoutOnlyReducer nanoid t (present w) action;
  let w := with_present next (record (Layout_action action) w) in
  let isComponentLevelEvent := match action with UPDATE_COMPONENTS _ => true | _ => false end in
  let w := if isComponentLevelEvent then w else record (UPDATE_LAYOUT_COMPONENTS next) w in
  Ok (if hasUnsavedChanges w then w else set_unsaved_changes true w).

(** @source app/dashboard/actions/dashboardLayout.js 77-91 updateDashboardTitle *)
Definition updateDashboardTitle (text : jsval) (w : store) : result store :=
  let header :=
    default {| c_id := EmptyString; c_type := EmptyString; c_children := None;
               c_parents := None; c_meta := None |} (aget DASHBOARD_HEADER_ID (present w)) in
  setUnsavedChangesAfterAction
    (UPDATE_COMPONENTS [(DASHBOARD_HEADER_ID, with_meta [("text", text)] header)]) w.

(** [size && component.meta[k] !== size] *)
Definition size_changed (k : string) (size : jsval) (component : option component) : result bool :=
  if truthy size then
    match component ≫= c_meta with
    | Some meta => Ok (negb (strict_eq (ofield k meta) size))
    | None => Throw (missing k)
    end
  else Ok false.

(** @source app/dashboard/actions/dashboardLayout.js 137-160 resizeComponent *)
Definition resizeComponent (id : string) (width height : jsval) (w : store) : result store :=
  let component := aget id (present w) in
  widthChanged ← size_changed "width" width component;
  heightChanged ← size_changed "height" height component;
  match component with
  | Some component =>
      if widthChanged || heightChanged then
        let meta := default [] (c_meta component) in
        let meta :=
          oset "height" (js_or height (ofield "height" meta))
            (oset "width" (js_or width (ofield "width" meta)) meta) in
        setUnsavedChangesAfterAction (UPDATE_COMPONENTS [(id, with_meta meta component)]) w
      else Ok w
  | None => Ok w
  end.

Definition no_space : string :=
  t "There is not enough space for this component. Try decreasing its width, or increasing the destination width.".

Definition refused_message : string := t "Can not move top level tab into nested tabs".

Definition different_scope : string := t "This chart has been moved to a different filter scope.".

(** The component at the top of the dashboard; [children[0]] may be missing.

    @source app/dashboard/actions/dashboardLayout.js 192-194 handleComponentDrop (root) *)
Definition rootChildId (layout : components) : option string :=
  match aget DASHBOARD_ROOT_ID layout ≫= c_children with
  | Some children => head children
  | None => Some EmptyString
  end.

(** A top-level tab may not become a nested one.

    @source app/dashboard/actions/dashboardLayout.js 207-210 handleComponentDrop (tabs) *)
Definition refused (source destination : drop_end) (layout : components) : bool :=
  bool_decide (de_type source = TABS_TYPE) && bool_decide (de_type destination = TABS_TYPE) &&
  bool_decide (Some (de_id source) = rootChildId layout) &&
  bool_decide (Some (de_id destination) ≠ rootChildId layout).

(** What a moved component leaves behind: an empty source is deleted, and a
    change of the filter scope is reported.

    @source app/dashboard/actions/dashboardLayout.js 232-264 handleComponentDrop (source) *)
Definition clean_source (source destination : drop_end) (w : store) : result store :=
  let layout := present w in
  let sourceComponent := aget (de_id source) layout in
  let destinationComponent := aget (de_id destination) layout in
  let emptied :=
    match sourceComponent with
    | Some c => bool_decide (c_type c ∈ [TABS_TYPE; ROW_TYPE]) && bool_decide (c_children c = Some [])
    | None => false
    end in
  w ← (if (emptied : bool) then
         let parentId := findParentId (de_id source) (items_of layout) in
         setUnsavedChangesAfterAction (DELETE_COMPONENT (de_id source) parentId) w
       else Ok w);
  let path c id := default [] (c ≫= c_parents) ++ [id] in
  if isInDifferentFilterScopes (dashboardFilters w) (path sourceComponent (de_id source))
       (path destinationComponent (de_id destination))
  then Ok (record (Warning_toast different_scope) w) else Ok w.

(** The width of a new component is computed from a component that is thrown
    away.

    @source app/dashboard/actions/dashboardLayout.js 172-268 handleComponentDrop *)
Definition handleComponentDrop (drop : dropResult) (w : store) : result store :=
  overflowsParent ← dropOverflowsParent nanoid t 3 drop (present w);
  if (overflowsParent : bool) then Ok (record (Warning_toast no_space) w)
  else
    source ← need_end (dr_source drop);
    destination ← need_end (dr_destination drop);
    let isNewComponent := bool_decide (de_id source = NEW_COMPONENTS_SOURCE_ID) in
    let leave w := if isNewComponent then Ok w else clean_source source destination w in
    if bool_decide (de_id destination = DASHBOARD_ROOT_ID) then
      w ← setUnsavedChangesAfterAction (CREATE_TOP_LEVEL_TABS drop) w; leave w
    else if isNewComponent then
      w ← setUnsavedChangesAfterAction (CREATE_COMPONENT drop) w; leave w
    else if refused source destination (present w) then
      Ok (record (Warning_toast refused_message) w)
    else if bool_decide (de_id destination = de_id source) &&
            bool_decide (de_index destination = de_index source) then leave w
    else w ← setUnsavedChangesAfterAction (MOVE_COMPONENT drop) w; leave w.
End thunks.

(** ** Actions from a thunk *)

Section thunk_facts.
Context (nanoid : nat → string) (t : string → string).

Lemma after_action a w next :
  tracked a = true → layoutReducer nanoid t (present w) a = Ok next →
  ∃ r, setUnsavedChangesAfterAction nanoid t a w = Ok r ∧ present r = next ∧
       hasUnsavedChanges r = true ∧ dashboardFilters r = dashboardFilters w.
Proof.
  intros Ht Hn. unfold setUnsavedChangesAfterAction, layoutOnlyReducer. rewrite Ht. cbn [negb].
  rewrite Hn, bind_Ok. eexists. split; [done|].
  destruct a, (hasUnsavedChanges w) eqn:E; cbn; rewrite ?E; done.
Qed.

Lemma findParentId_child l p id :
  wf l → findParentId id (items_of l) = Some p → child l p id.
Proof.
  intros Hwf (i & Hi & Hin & _)%findParentId_Some. apply elem_of_items_of in Hi as (c & Hc & ->).
  exists c. split; [by apply elem_aget; [apply wf_keys|]|done].
Qed.

Lemma findParentId_orphan l id p :
  wf l → findParentId id (items_of l) = None → ¬ child l p id.
Proof.
  intros Hwf Hn Hp. pose proof Hp as (c & Hc & Hin).
  apply (findParentId_None _ _ Hn p (item_of c)); [|intros ->|done].
  - apply elem_of_items_of. exists c. split; [by apply aget_Some_elem|done].
  - by apply (wf_acyclic l Hwf id), tc_once.
Qed.

(** The layout without the emptied source. *)
Definition emptied (l : components) (x : string) : Prop :=
  ∃ c, aget x l = Some c ∧ c_type c ∈ [TABS_TYPE; ROW_TYPE] ∧ c_children c = Some [].

Lemma clean_source_cases s d w :
  wf (present w) →
  ∃ r, clean_source nanoid t s d w = Ok r ∧ wf (present r) ∧
       (hasUnsavedChanges w = true → hasUnsavedChanges r = true) ∧
       (present r ≠ present w → hasUnsavedChanges r = true) ∧
       (¬ emptied (present w) (de_id s) ∧ present r = present w ∨
        emptied (present w) (de_id s) ∧ (∀ p, ¬ child (present w) p (de_id s)) ∧ present r = present w ∨
        emptied (present w) (de_id s) ∧ ∃ p, child (present w) p (de_id s) ∧
          present r = delete_component (de_id s) (Some p) (present w)).
Proof.
  intros Hwf. unfold clean_source. set (b := match aget (de_id s) (present w) with Some _ => _ | None => _ end).
  assert (b = true ↔ emptied (present w) (de_id s)) as Hb.
  { unfold b, emptied. destruct (aget (de_id s) (present w)) as [c|]; [|naive_solver].
    rewrite andb_true_iff, !bool_decide_eq_true. naive_solver. }
  clearbody b.
  assert (∀ w' (m : bool), ∃ r,
    (if m then Ok (record (Warning_toast (different_scope t)) w') else Ok w') = Ok r ∧
    present r = present w' ∧ hasUnsavedChanges r = hasUnsavedChanges w') as Hend.
  { intros w' []; by eexists. }
  destruct b.
  - destruct (findParentId (de_id s) (items_of (present w))) as [p|] eqn:Hp.
    + apply findParentId_child in Hp; [|done].
      destruct (after_action (DELETE_COMPONENT (de_id s) (Some p)) w _ eq_refl eq_refl)
        as (w' & -> & Hl & Hu & _). rewrite bind_Ok.
      edestruct (Hend w') as (r & -> & Hr & Hru). exists r. split; [done|]. rewrite Hr, Hl, Hru, Hu.
      split; [by apply delete_component_wf|]. split; [done|]. split; [done|]. right; right. split; [by apply Hb|].
      by exists p.
    + destruct (after_action (DELETE_COMPONENT (de_id s) None) w _ eq_refl eq_refl)
        as (w' & -> & Hl & Hu & _). rewrite bind_Ok.
      edestruct (Hend w') as (r & -> & Hr & Hru). exists r. split; [done|]. rewrite Hr, Hl, Hru, Hu. cbn.
      split; [done|]. split; [done|]. split; [done|]. right; left. split; [by apply Hb|].
      split; [|done]. intros p. by apply findParentId_orphan.
  - rewrite bind_Ok. edestruct (Hend w) as (r & -> & Hr & Hru). exists r. split; [done|].
    rewrite Hr, Hru. split; [done|]. split; [done|]. split; [done|]. left. split; [|done].
    intros H%Hb. done.
Qed.
End thunk_facts.

(** ** Every drop *)

(** The drops that the user interface produces: a new component, a component of
    the layout, new tabs on the root, and tabs of the topmost container on the
    root. *)
Inductive valid_drop (nanoid : nat → string) (l : components) : dropResult → Prop :=
| vd_new s d g pos cd ks :
    de_id s = NEW_COMPONENTS_SOURCE_ID → de_id d ≠ DASHBOARD_ROOT_ID →
    aget (de_id d) l = Some cd → c_children cd = Some ks →
    aget NEW_COMPONENTS_SOURCE_ID l = None →
    valid_drop nanoid l (drop_of s d g pos)
| vd_move s d g pos :
    de_id s ≠ NEW_COMPONENTS_SOURCE_ID → de_id d ≠ DASHBOARD_ROOT_ID → move_ok l s d g →
    valid_drop nanoid l (drop_of s d g pos)
| vd_new_tabs root grid ks i g pos :
    grid_layout l root grid ks → dg_type g = TABS_TYPE →
    valid_drop nanoid l (new_tabs_drop i g pos)
| vd_existing_tabs s d g pos root top tabs tab tabId ks tks :
    de_id s ≠ NEW_COMPONENTS_SOURCE_ID → de_id d = DASHBOARD_ROOT_ID →
    aget DASHBOARD_ROOT_ID l = Some root → first_child root = Ok (de_id s) →
    aget (de_id s) l = Some top → c_children top = Some ks → dg_id g ∈ ks →
    aget (dg_id g) l = Some tabs → first_child tabs = Ok tabId →
    aget tabId l = Some tab → c_children tab = Some tks →
    valid_drop nanoid l (drop_of s d g pos).

Section every_drop.
Context (nanoid : nat → string) (t : string → string) (w : store).
Hypothesis Hwf : wf (present w).
Hypothesis Hnull : aget "null" (present w) = None.
Hypothesis Hfresh : fresh_ids nanoid (present w).

Lemma overflow_total drop :
  valid_drop nanoid (present w) drop →
  ∃ b, dropOverflowsParent nanoid t 3 drop (present w) = Ok b.
Proof using All.
  intros H. unfold dropOverflowsParent.
  assert (∃ v, getComponentWidthFromDrop nanoid t 3 drop (present w) = Ok v) as [v ->];
    [|rewrite bind_Ok; by eexists].
  destruct H.
  - apply getComponentWidthFromDrop_total; [done..|]. intros E1 E2. congruence.
  - apply getComponentWidthFromDrop_total; [done..|]. intros _ _. by destruct H1.
  - apply getComponentWidthFromDrop_total; [done..|]. intros E. discriminate.
  - apply getComponentWidthFromDrop_total; [done..|]. intros E _. exfalso.
    apply (wf_acyclic _ Hwf DASHBOARD_ROOT_ID), tc_once. exists root. split; [done|].
    apply first_child_elem. congruence.
Qed.

(** A valid action and what follows it. *)
Lemma action_then_clean a s d (isNew : bool) :
  tracked a = true → valid_action nanoid (present w) a →
  ∃ r, (w' ← setUnsavedChangesAfterAction nanoid t a w;
        if isNew then Ok w' else clean_source nanoid t s d w') = Ok r ∧
       wf (present r) ∧ hasUnsavedChanges r = true.
Proof using Hwf.
  intros Ht Ha. destruct (valid_action_ok nanoid t _ a Hwf Ha) as (m & Hm & Hwm).
  destruct (after_action nanoid t a w m Ht Hm) as (w' & Hw' & <- & Hu & _). rewrite Hw', bind_Ok.
  destruct isNew; [by exists w'|].
  destruct (clean_source_cases nanoid t s d w' Hwm) as (r & Hr & ? & Hu' & _). exists r. eauto.
Qed.

(** Every drop leaves a well-formed layout: a drop that the user interface
    can produce is handled without an error.  A component that does not fit
    leaves the layout as it is, with a warning as the only effect.  Otherwise
    the layout that results, after an emptied row or an emptied group of tabs
    was deleted, is well formed, and a changed layout is marked as unsaved. *)
Theorem handleComponentDrop_safe drop :
  valid_drop nanoid (present w) drop →
  ∃ r, handleComponentDrop nanoid t drop w = Ok r ∧ wf (present r) ∧
       (present r ≠ present w → hasUnsavedChanges r = true) ∧
       (dropOverflowsParent nanoid t 3 drop (present w) = Ok true →
          r = record (Warning_toast (no_space t)) w).
Proof using All.
  intros Hd. unfold handleComponentDrop. destruct (overflow_total drop Hd) as [b Hb].
  rewrite Hb, bind_Ok. destruct b.
  { eexists. split; [done|]. by split. }
  assert (∀ (x : result store),
    (∃ r, x = Ok r ∧ wf (present r) ∧ (present r ≠ present w → hasUnsavedChanges r = true)) →
    ∃ r, x = Ok r ∧ wf (present r) ∧ (present r ≠ present w → hasUnsavedChanges r = true) ∧
         (Ok false = Ok true → r = record (Warning_toast (no_space t)) w)) as Hskip.
  { intros x (r & ? & ? & ?). exists r. naive_solver. }
  apply Hskip. clear Hskip Hb.
  assert (∀ a s d (isNew : bool),
    tracked a = true → valid_action nanoid (present w) a →
    ∃ r, (w' ← setUnsavedChangesAfterAction nanoid t a w;
          if isNew then Ok w' else clean_source nanoid t s d w') = Ok r ∧
         wf (present r) ∧ (present r ≠ present w → hasUnsavedChanges r = true)) as Hact.
  { intros a s d isNew Ht Ha. destruct (action_then_clean a s d isNew Ht Ha) as (r & ? & ? & ?). eauto. }
  destruct Hd.
  - cbn [drop_of dr_source dr_destination need_end]. rewrite !bind_Ok.
    rewrite (bool_decide_eq_false_2 (de_id d = _)), (bool_decide_eq_true_2 (de_id s = _)) by done.
    apply (Hact (CREATE_COMPONENT (drop_of s d g pos)) s d true); [done|]. by econstructor.
  - cbn [drop_of dr_source dr_destination need_end]. rewrite !bind_Ok.
    rewrite (bool_decide_eq_false_2 (de_id d = DASHBOARD_ROOT_ID)), (bool_decide_eq_false_2 (de_id s = _)) by done.
    destruct (refused s d (present w)); [eexists; split; [done|by split]|].
    destruct (bool_decide _ && bool_decide _).
    + destruct (clean_source_cases nanoid t s d w Hwf) as (r & Hr & ? & _ & ? & _). by exists r.
    + apply (Hact (MOVE_COMPONENT (drop_of s d g pos)) s d false); [done|]. by econstructor.
  - cbn. apply (Hact (CREATE_TOP_LEVEL_TABS (new_tabs_drop i g pos))
      {| de_id := NEW_COMPONENTS_SOURCE_ID; de_type := EmptyString; de_index := 0 |}
      {| de_id := DASHBOARD_ROOT_ID; de_type := DASHBOARD_ROOT_TYPE; de_index := i |} true); [done|]. by econstructor.
  - cbn [drop_of dr_source dr_destination need_end]. rewrite !bind_Ok.
    rewrite (bool_decide_eq_true_2 (de_id d = DASHBOARD_ROOT_ID)), (bool_decide_eq_false_2 (de_id s = _)) by done.
    apply (Hact (CREATE_TOP_LEVEL_TABS (drop_of s d g pos)) s d false); [done|]. by eapply va_existing_tabs.
Qed.
End every_drop.

(** ** A drop that moves a component *)

(** Every component keeps its type, and its list of children when it has one. *)
Definition kept_shape (l r : components) : Prop :=
  ∀ x c, aget x l = Some c → ∃ c', aget x r = Some c' ∧ c_type c' = c_type c ∧
    (is_Some (c_children c) → is_Some (c_children c')).

Lemma kept_shape_trans l r r' : kept_shape l r → kept_shape r r' → kept_shape l r'.
Proof.
  intros H1 H2 x c (c1 & (c2 & Hc2 & Ht & Hk)%H2 & Ht1 & Hk1)%H1. exists c2. split; [done|].
  split; [congruence|eauto].
Qed.

Lemma kept_shape_oset l k c :
  (∀ c0, aget k l = Some c0 → c_type c = c_type c0 ∧ (is_Some (c_children c0) → is_Some (c_children c))) →
  kept_shape l (oset k c l).
Proof.
  intros Hc x cx Hx. rewrite aget_oset. case_decide as E; [subst; eexists; split; [done|]; by apply Hc|].
  by exists cx.
Qed.

Lemma reorderItem_shape l s d pos r :
  NoDup (akeys l) → reorderItem l s d pos = Ok r → kept_shape l r ∧ NoDup (akeys r).
Proof.
  unfold reorderItem, need, need_children. intros Hn H.
  destruct (aget (de_id s) l) as [cs|] eqn:Hs; [|done]. rewrite bind_Ok in H.
  destruct (c_children cs) as [ks|]; [|done]. rewrite bind_Ok in H.
  destruct (aget (de_id d) l) as [cd|] eqn:Hd; [|done]. rewrite bind_Ok in H.
  destruct (c_children cd) as [kd|]; [|done]. rewrite bind_Ok in H. cbv zeta in H. case_bool_decide as E.
  - destruct (same_list_index _ _ _ _) as [i|]; [|injection H as <-; split; [by intros x c ?; exists c|done]].
    apply bind_Ok_inv in H as (ks' & _ & H). injection H as <-. split; [|by apply NoDup_akeys_oset].
    apply kept_shape_oset. intros c0 Hc0. simplify_eq. split; [done|]. by eexists.
  - destruct (at_index _ _); [|done]. injection H as <-. split; [|by do 2 apply NoDup_akeys_oset].
    eapply kept_shape_trans; apply kept_shape_oset.
    + intros c0 Hc0. rewrite Hs in Hc0. injection Hc0 as <-. split; [done|]. by eexists.
    + intros c0 Hc0. rewrite aget_oset_ne, Hd in Hc0 by done. injection Hc0 as <-. split; [done|]. by eexists.
Qed.

Lemma move_component_shape nanoid t drop l r :
  NoDup (akeys l) → (∀ n type, aget (uuid nanoid n type) l = None) →
  move_component nanoid t drop l = Ok r → kept_shape l r.
Proof.
  unfold move_component. intros Hn Hfresh.
  assert (kept_shape l l) as Hrefl by by intros x c ?; exists c.
  destruct (dr_source drop) as [s|], (dr_destination drop) as [d|], (dr_dragging drop) as [g|];
    [|by intros [= <-]..].
  intros (r1 & [H1 Hn1]%reorderItem_shape & H)%bind_Ok_inv; [|done].
  apply bind_Ok_inv in H as (r2 & Hr2 & H).
  assert (kept_shape l r2 ∧ NoDup (akeys r2)) as [H2 Hn2].
  { unfold resize_moved, need in Hr2. destruct (aget (dg_id g) r1) as [c|] eqn:Hc; [|done].
    rewrite bind_Ok in Hr2. destruct (componentIsResizable _); [|by injection Hr2 as <-].
    apply bind_Ok_inv in Hr2 as (w & _ & Hr2). destruct (strict_eq _ _); injection Hr2 as <-; [done|].
    split; [|by apply NoDup_akeys_oset]. eapply kept_shape_trans; [exact H1|]. apply kept_shape_oset.
    intros c0 Hc0. rewrite Hc in Hc0. by injection Hc0 as <-. }
  apply bind_Ok_inv in H as (r3 & Hr3 & H). injection H as <-.
  assert (kept_shape l r3 ∧ NoDup (akeys r3)) as [H3 Hn3].
  { destruct (shouldWrapChildInRow _ _); [|by injection Hr3 as <-].
    unfold wrap_moved, need, need_children in Hr3. destruct (aget (de_id d) r2) as [c|] eqn:Hc; [|done].
    rewrite bind_Ok in Hr3. destruct (c_children c) as [ks|]; [|done]. rewrite bind_Ok in Hr3.
    destruct (at_index _ _); [|done]. injection Hr3 as <-. split; [|by do 2 apply NoDup_akeys_oset].
    assert (kept_shape l (oset (de_id d) (with_children (<[Z.to_nat (de_index d) := uuid nanoid 1 ROW_TYPE]> ks) c) r2))
      as Hd.
    { eapply kept_shape_trans; [exact H2|]. apply kept_shape_oset. intros c0 Hc0. rewrite Hc in Hc0.
      injection Hc0 as <-. split; [done|]. by eexists. }
    intros x cx Hx. rewrite aget_oset_ne; [by apply Hd|]. intros ->. cbn in Hx. by rewrite Hfresh in Hx. }
  intros x c (c' & Hc' & H')%H3. rewrite aget_ospread, Hc' by done. by exists c'.
Qed.

(** Deleting an empty component deletes it, or the row it alone is in. *)
Lemma delete_empty m p id :
  wf m → child m p id → (∀ y, ¬ child m id y) → p ≠ EmptyString → id ≠ EmptyString →
  let r := delete_component id (Some p) m in
  ∃ root, (root = id ∧ ¬ only_child_of_row m p id ∨ root = p ∧ only_child_of_row m p id) ∧
    (∀ x y, child r x y ↔ child m x y ∧ y ≠ root ∧ x ≠ root) ∧ aget id r = None ∧ aget root r = None ∧
    (∀ x, x ≠ id → x ≠ root → is_Some (aget x m) → is_Some (aget x r)).
Proof.
  intros Hwf Hp Hleaf Hp0 Hid0 r.
  assert (∀ z, rtc (child m) id z → z = id) as Hid.
  { intros z Hz. inversion Hz as [|? y ? Hy]; subst; [done|]. by destruct (Hleaf y). }
  assert (∀ root, pruned root m r → (∀ x, rtc (child m) root x ↔ x = root ∨ x = id) →
    (∀ x y, child r x y ↔ child m x y ∧ y ≠ root ∧ x ≠ root) ∧ aget id r = None ∧ aget root r = None ∧
      (∀ x, x ≠ id → x ≠ root → is_Some (aget x m) → is_Some (aget x r))) as Hgen.
  { intros root Hpr Hr.
    assert (∀ x, rtc (child m) root x → aget x r = None) as Hnone.
    { intros x Hx. by destruct (Hpr x) as [[_ ?]|[? _]]. }
    split_and!.
    - intros x y. rewrite (pruned_child root m r) by done. rewrite Hr. split; [naive_solver|].
      intros (Hxy & Hy & Hx). split; [done|]. split; [done|]. intros [?| ->]; [done|].
      by destruct (Hleaf y).
    - apply Hnone, Hr. by right.
    - apply Hnone, Hr. by left.
    - intros x Hx1 Hx2 [c Hc]. destruct (Hpr x) as [[H _]|[_ E]]; [by apply Hr in H as [?|?]|].
      rewrite E, Hc. by eexists. }
  destruct (delete_component_result m p id Hwf Hp Hp0 Hid0) as [[Hno Hpr]|[Hrow Hpr]].
  - exists id. split; [by left|]. apply (Hgen id Hpr). intros x. split; [intros ?%Hid; by left|].
    intros [->| ->]; apply rtc_refl.
  - exists p. split; [by right|]. destruct Hrow as (c & Hc & _ & Hk).
    assert (∀ y, child m p y → y = id) as Hy.
    { intros y (c' & Hc' & Hy). simplify_eq. rewrite Hk in Hy. by apply list_elem_of_singleton in Hy. }
    apply (Hgen p Hpr). intros x. split.
    + intros Hx. inversion Hx as [|? z ? Hz Hzx]; subst; [by left|]. apply Hy in Hz as ->.
      right. by apply Hid.
    + intros [->| ->]; [apply rtc_refl|by apply rtc_once].
Qed.

Lemma only_element {A} (x : A) xs : NoDup xs → x ∈ xs → (∀ y, y ∈ xs → y = x) → xs = [x].
Proof.
  intros Hn Hx Hall. destruct xs as [|y [|z ys]]; [by apply elem_of_nil in Hx|f_equal; by apply Hall; left|].
  apply NoDup_cons in Hn as [Hy _]. destruct Hy. rewrite (Hall y), (Hall z); [left|right; left|left].
Qed.

(** The drop takes the last child out of a row or of a group of tabs. *)
Definition leaves_empty (l : components) (s d : drop_end) (g : dragged) : Prop :=
  de_id s ≠ de_id d ∧
  ∃ cs, aget (de_id s) l = Some cs ∧ c_type cs ∈ [TABS_TYPE; ROW_TYPE] ∧ c_children cs = Some [dg_id g].

(** The components that a drop removes: the emptied source, when it lies in a
    component, and this component, when it is a row with nothing else in it. *)
Definition removed_by_drop (l : components) (s d : drop_end) (g : dragged) (x : string) : Prop :=
  leaves_empty l s d g ∧
  ∃ q, child l q (de_id s) ∧ (x = de_id s ∨ x = q ∧ q ≠ de_id d ∧ only_child_of_row l q (de_id s)).

Section moved_drop.
Context (nanoid : nat → string) (t : string → string) (w : store).
Context (s d : drop_end) (g : dragged) (pos : option string).
Let l := present w.
Let wrap := shouldWrapChildInRow (de_type d) (dg_type g).
Let p := if wrap then uuid nanoid 1 ROW_TYPE else de_id d.
Hypothesis Hwf : wf l.
Hypothesis Hnull : aget "null" l = None.
Hypothesis Hempty : aget EmptyString l = None.
Hypothesis Hfresh : fresh_ids nanoid l.
Hypothesis Hok : move_ok l s d g.

Lemma dragged_child : child l (de_id s) (dg_id g).
Proof using Hok.
  destruct (mo_source _ _ _ _ Hok) as (cs & current & Hc & Hk & Hg).
  by apply (source_parent l s cs current).
Qed.

Lemma place_dragged : wrap = true ∨ wrap = false ∧ p = de_id d.
Proof using All. unfold p, wrap. destruct (shouldWrapChildInRow _ _); [by left|by right]. Qed.

(** What the theorem below uses of the layout after the move. *)
Section moved_layout.
Context (m : components).
Hypothesis Hwm : wf m.
Hypothesis Hnew : wrap = true → aget p l = None.
Hypothesis Hch : ∀ x y, child m x y ↔ x = p ∧ y = dg_id g ∨ child l x y ∧ y ≠ dg_id g ∨
                                      wrap = true ∧ x = de_id d ∧ y = p.
Hypothesis Hshape : kept_shape l m.

Lemma dragged_not_source : dg_id g ≠ de_id s.
Proof using Hok Hwf.
  intros E. pose proof dragged_child as Hsg. rewrite E in Hsg. by apply (wf_acyclic l Hwf (de_id s)), tc_once.
Qed.

(** The components of the old layout are not the new row. *)
Lemma old_not_new x : is_Some (aget x l) → x ≠ de_id d → x ≠ p.
Proof using All.
  intros [c Hc] Hd E. assert (wrap = true) as Hw.
  { destruct place_dragged as [|[_ Hp]]; [done|]. congruence. }
  by rewrite E, Hnew in Hc.
Qed.

Lemma emptied_iff : emptied m (de_id s) ↔ leaves_empty l s d g.
Proof using All.
  pose proof dragged_child as Hsg.
  destruct (mo_source _ _ _ _ Hok) as (cs & current & Hcs & Hk & _).
  destruct (Hshape _ _ Hcs) as (cm & Hcm & Ht & Hsome). split.
  - intros (c & Hc & Hct & Hck). simplify_eq.
    assert (∀ y, ¬ child m (de_id s) y) as Hleaf.
    { intros y (c' & Hc' & Hy). simplify_eq. unfold kids in Hy. rewrite Hck in Hy. by apply elem_of_nil in Hy. }
    split.
    + intros E. destruct place_dragged as [Hw|[_ Hp]]; [apply (Hleaf p)|apply (Hleaf (dg_id g))];
        apply Hch; rewrite E; [by right; right|left; by rewrite Hp].
    + exists cs. split; [done|]. split; [congruence|]. rewrite Hk. f_equal. apply only_element.
      * pose proof (wf_nodup l Hwf _ _ Hcs) as H. unfold kids in H. by rewrite Hk in H.
      * by apply (child_children l _ cs current _ Hcs Hk).
      * intros y Hy. destruct (decide (y = dg_id g)); [done|]. destruct (Hleaf y). apply Hch. right; left.
        split; [|done]. by apply (child_children l _ cs current _ Hcs Hk).
  - intros (Hsd & cs' & Hcs' & Hty & Hkg). simplify_eq.
    exists cm. split; [done|]. split; [congruence|].
    destruct (Hsome ltac:(by eexists)) as [[|y ks] Hks]; [done|]. exfalso.
    assert (child m (de_id s) y) as [[E _]|[[Hy Hn]|(_ & ? & _)]]%Hch by (eapply child_children; [done..|left]);
      [|by apply (child_children l _ cs [dg_id g]) in Hy as ->%list_elem_of_singleton|done].
    eapply old_not_new; [by eexists|exact Hsd|exact E].
Qed.

Lemma only_source_iff q :
  child m q (de_id s) → child l q (de_id s) →
  only_child_of_row m q (de_id s) ↔ q ≠ de_id d ∧ only_child_of_row l q (de_id s).
Proof using All.
  intros Hmq Hlq. pose proof Hlq as (cq & Hcq & Hin). destruct (Hshape _ _ Hcq) as (cm & Hcm & Ht & _).
  pose proof dragged_not_source as Hgs.
  assert (is_Some (aget (de_id s) l)) as Hds by by apply (wf_closed l Hwf q).
  split.
  - intros (c & Hc & Hty & Hk). simplify_eq.
    assert (∀ y, child m q y → y = de_id s) as Honly.
    { intros y (c' & Hc' & Hy). simplify_eq. rewrite Hk in Hy. by apply list_elem_of_singleton in Hy. }
    split.
    + intros E. destruct place_dragged as [Hw|[_ Hp]].
      * assert (p = de_id s) as Eps by (apply Honly, Hch; naive_solver).
        destruct Hds as [? Hds]. rewrite <- Eps, Hnew in Hds by done. done.
      * apply Hgs, Honly, Hch. left. by rewrite Hp.
    + exists cq. split; [done|]. split; [congruence|]. apply only_element; [by apply (wf_nodup l Hwf q)|done|].
      intros y Hy. assert (child l q y) as Hqy by by exists cq.
      destruct (decide (y = dg_id g)) as [->|]; [|apply Honly, Hch; naive_solver]. exfalso.
      assert (q = de_id s) as -> by (eapply (wf_parent l Hwf); [exact Hqy|apply dragged_child]).
      by apply (wf_acyclic l Hwf (de_id s)), tc_once.
  - intros (Hqd & c & Hc & Hty & Hk). simplify_eq. exists cm. split; [done|]. split; [congruence|].
    apply only_element; [by apply (wf_nodup m Hwm q)|destruct Hmq as (c' & ? & ?); by simplify_eq|].
    intros y Hy. assert (child m q y) as [[E _]|[[(c' & Hc' & Hy') _]|(_ & ? & _)]]%Hch by by exists cm.
    + exfalso. eapply old_not_new; [by eexists|exact Hqd|exact E].
    + simplify_eq. rewrite Hk in Hy'. by apply list_elem_of_singleton in Hy'.
    + done.
Qed.

(** The source and its parent are what they were. *)
Lemma parent_of_source q : leaves_empty l s d g → child m q (de_id s) ↔ child l q (de_id s).
Proof using All.
  intros [Hsd _]. rewrite Hch. pose proof dragged_not_source as Hgs.
  assert (p ≠ de_id s) as Hps.
  { apply not_eq_sym, old_not_new; [|done]. destruct dragged_child as (c & Hc & _). by exists c. }
  split; [|naive_solver]. intros [[_ ?]|[[? _]|(_ & _ & ?)]]; [by destruct Hgs|done|by destruct Hps].
Qed.

Lemma removed_none : (¬ emptied m (de_id s) ∨ ∀ q, ¬ child m q (de_id s)) → ∀ x, ¬ removed_by_drop l s d g x.
Proof using All.
  intros [He|Ho] x (Hl & q & Hq & _); [by apply He, emptied_iff|]. by apply (Ho q), parent_of_source.
Qed.

(** Deleting the emptied source removes what the drop is said to remove. *)
Lemma delete_source q r :
  aget EmptyString l = None →
  emptied m (de_id s) → child m q (de_id s) → r = delete_component (de_id s) (Some q) m →
  (∀ x y, child r x y ↔ child m x y ∧ ¬ removed_by_drop l s d g y) ∧
  (∀ x, is_Some (aget x m) → is_Some (aget x r) ↔ ¬ removed_by_drop l s d g x).
Proof using All.
  intros Hes He Hq ->. apply emptied_iff in He as Hle. apply parent_of_source in Hq as Hlq; [|done].
  assert (∀ x y, child l x y → x ≠ EmptyString) as Hne.
  { intros x y (cx & Hx & _) ->. congruence. }
  assert (∀ y, ¬ child m (de_id s) y) as Hleaf.
  { destruct He as (c & Hc & _ & Hk). intros y (c' & Hc' & Hy). simplify_eq. unfold kids in Hy.
    rewrite Hk in Hy. by apply elem_of_nil in Hy. }
  destruct (delete_empty m q (de_id s) Hwm Hq Hleaf) as (root & Hroot & Hrch & Hgone & Hgone2 & Hkeep).
  { by eapply Hne. } { eapply Hne, dragged_child. }
  rewrite (only_source_iff q Hq Hlq) in Hroot.
  assert (∀ x, removed_by_drop l s d g x ↔ x = de_id s ∨ x = root) as Hrem.
  { intros x. split.
    - intros (_ & q' & Hq' & Hx). assert (q' = q) as -> by (by eapply (wf_parent l Hwf)).
      destruct Hroot as [[-> Hr]|[-> Hr]]; naive_solver.
    - intros Hx. split; [done|]. exists q. split; [done|]. destruct Hroot as [[-> Hr]|[-> Hr]]; naive_solver. }
  assert (root = de_id s ∨ root = q ∧ ∀ y, child m q y → y = de_id s) as Hroot'.
  { destruct Hroot as [[-> _]|[-> Hr]]; [by left|right]. split; [done|].
    apply (only_source_iff q Hq Hlq) in Hr as (c & Hc & _ & Hk). intros y (c' & Hc' & Hy). simplify_eq.
    rewrite Hk in Hy. by apply list_elem_of_singleton in Hy. }
  split.
  - intros x y. rewrite Hrch, Hrem. split.
    + intros (Hxy & Hy & Hx). split; [done|]. intros [->|?]; [|done]. apply Hx.
      assert (x = q) as -> by (by eapply (wf_parent m Hwm)). destruct Hroot' as [->|[-> _]]; [|done].
      by destruct Hx.
    + intros [Hxy Hy]. split; [done|]. split; [tauto|]. intros ->.
      destruct Hroot' as [->|[-> Honly]]; [by apply (Hleaf y)|]. apply Hy. left. by apply Honly.
  - intros x Hx. rewrite Hrem. split.
    + intros Hs [->| ->]; [rewrite Hgone in Hs|rewrite Hgone2 in Hs]; by destruct Hs.
    + intros Hn. apply Hkeep; [tauto..|done].
Qed.
End moved_layout.

(** C7. A dropped component is moved and nothing else is lost.  In a well-formed
    layout in which no component has an empty id or the id null and the ids of new
    components are not in use, take a valid drop of one of its components, to a
    place other than where it was and not on the root, that fits and is not
    refused.  The component ends in its destination, or in a new row there, and
    apart from it no component has a new parent.  What is removed is exactly
    this: when the dragged component was the only child of a row or a group of
    tabs, and was dropped elsewhere, the source it leaves empty is removed if it
    lies in a component, and with it the row it lies in, when this is a row with
    no other child that is not the destination.  Every other component of the
    layout is still there and in the component it was in. *)
Theorem handleComponentDrop_moves :
  dropOverflowsParent nanoid t 3 (drop_of s d g pos) l = Ok false → refused s d l = false →
  de_id s ≠ NEW_COMPONENTS_SOURCE_ID → de_id d ≠ DASHBOARD_ROOT_ID →
  (de_id d, de_index d) ≠ (de_id s, de_index s) →
  ∃ r, handleComponentDrop nanoid t (drop_of s d g pos) w = Ok r ∧
    hasUnsavedChanges r = true ∧ wf (present r) ∧ child (present r) p (dg_id g) ∧
    (∀ x y, child (present r) x y ↔
       (x = p ∧ y = dg_id g ∨ child l x y ∧ y ≠ dg_id g ∨ wrap = true ∧ x = de_id d ∧ y = p) ∧
       ¬ removed_by_drop l s d g y) ∧
    (∀ x, is_Some (aget x l) → is_Some (aget x (present r)) ↔ ¬ removed_by_drop l s d g x) ∧
    (emptied (present r) (de_id s) → ∀ q, ¬ child (present r) q (de_id s)).
Proof using All.
  intros Hfit Href Hs Hd Hmoved. unfold handleComponentDrop. fold l. rewrite Hfit, bind_Ok.
  cbn [drop_of dr_source dr_destination need_end]. rewrite !bind_Ok.
  rewrite (bool_decide_eq_false_2 (de_id d = DASHBOARD_ROOT_ID)), (bool_decide_eq_false_2 (de_id s = _)), Href by done.
  replace (bool_decide (de_id d = de_id s) && bool_decide (de_index d = de_index s)) with false
    by (symmetry; apply andb_false_iff; rewrite !bool_decide_eq_false;
        destruct (decide (de_id d = de_id s)); [right|by left]; congruence).
  fold (drop_of s d g pos).
  destruct (move_component_moved nanoid t l s d g pos Hwf Hnull Hfresh Hok) as (m & Hm & Hwm & Hnew & Hch).
  fold wrap p in Hnew, Hch.
  assert (kept_shape l m) as Hshape by (by eapply move_component_shape; [apply wf_keys|apply Hfresh|]).
  destruct (after_action nanoid t (MOVE_COMPONENT (drop_of s d g pos)) w m eq_refl Hm)
    as (w1 & Hw1 & Em & Hu & _).
  rewrite Hw1, bind_Ok. assert (child m p (dg_id g)) as Hpg by (apply Hch; by left).
  assert (∀ x, is_Some (aget x l) → is_Some (aget x m)) as Hdom.
  { intros x [c Hc]. destruct (Hshape x c Hc) as (c' & ? & _). by exists c'. }
  destruct (clean_source_cases nanoid t s d w1) as (r & -> & Hwr & Hur & _ & Hcases); [by rewrite Em|].
  rewrite Em in Hcases. exists r. split; [done|]. split; [by apply Hur|]. split; [done|].
  pose proof (removed_none m Hwm Hnew Hch Hshape) as Hnone.
  destruct Hcases as [[He ->]|[(He & Horphan & ->)|(He & q & Hq & Hr)]].
  - specialize (Hnone (or_introl He)). split; [done|].
    split; [intros x y; rewrite Hch; split; [by intros ?; split|by intros [? _]]|].
    split; [intros x Hx; split; [by intros _|by intros _; apply Hdom]|done].
  - specialize (Hnone (or_intror Horphan)). split; [done|].
    split; [intros x y; rewrite Hch; split; [by intros ?; split|by intros [? _]]|].
    split; [intros x Hx; split; [by intros _|by intros _; apply Hdom]|done].
  - destruct (delete_source m Hwm Hnew Hch Hshape q _ Hempty He Hq Hr) as [Hrch Hrdom].
    assert (¬ removed_by_drop l s d g (dg_id g)) as Hg.
    { intros (_ & q' & Hq' & [E|(E & _)]); [by apply dragged_not_source|].
      apply (wf_acyclic l Hwf (de_id s)). eapply tc_l; [exact dragged_child|]. rewrite E. by apply tc_once. }
    split; [by apply Hrch|]. split; [intros x y; by rewrite Hrch, Hch|].
    split; [intros x Hx; by apply Hrdom, Hdom|].
    intros (c & Hc & _). assert (is_Some (aget (de_id s) (present r))) as Hsr by by exists c.
    assert (is_Some (aget (de_id s) m)) as Hsm by (destruct He as (c' & Hc' & _); by exists c').
    apply Hrdom in Hsr; [|done]. destruct Hsr.
    assert (leaves_empty l s d g) as Hle by by apply (emptied_iff m Hwm Hnew Hch Hshape).
    split; [done|]. exists q. split; [by apply (parent_of_source m Hwm Hnew Hch Hshape q Hle)|by left].
Qed.
End moved_drop.

(** ** Resizing *)

(** The size that a component has after a change; a size that is not given
    stays. *)
Definition resized (k : string) (size : jsval) (old new : jsobj) : Prop :=
  ofield k new = js_or size (ofield k old) ∨
  ofield k new = ofield k old ∧ (truthy size = true → strict_eq (ofield k old) size = true).

(** Resizing a component sets the sizes that are given and nothing else, and
    keeps the layout well formed. *)
Theorem resizeComponent_sizes nanoid t id width height w c m :
  wf (present w) → aget id (present w) = Some c → c_meta c = Some m →
  ∃ r c' m', resizeComponent nanoid t id width height w = Ok r ∧ wf (present r) ∧
    aget id (present r) = Some c' ∧ c_meta c' = Some m' ∧ c_children c' = c_children c ∧
    resized "width" width m m' ∧ resized "height" height m m' ∧
    (∀ k, k ≠ "width" → k ≠ "height" → ofield k m' = ofield k m) ∧
    (∀ x, x ≠ id → aget x (present r) = aget x (present w)).
Proof.
  intros Hwf Hc Hm. unfold resizeComponent. rewrite Hc.
  assert (∀ k size, ∃ b, size_changed k size (Some c) = Ok b ∧
    (b = false → truthy size = true → strict_eq (ofield k m) size = true)) as Hsize.
  { intros k size. unfold size_changed. destruct (truthy size); [|by exists false].
    cbn [mbind option_bind]. rewrite Hm. eexists. split; [done|]. by intros ?%negb_false_iff. }
  destruct (Hsize "width" width) as (bw & -> & Hw), (Hsize "height" height) as (bh & -> & Hh).
  rewrite !bind_Ok. destruct (bw || bh) eqn:E.
  - rewrite Hm. cbn [default]. unfold Datatypes.id.
    set (m' := oset "height" _ _). set (c' := with_meta m' c).
    assert (same_structure (present w) [(id, c')]) as Hs.
    { split; [apply NoDup_singleton|]. intros x c2. cbn [aget]. case_decide as Ex; [|done].
      intros [= <-]. subst x. by exists c. }
    destruct (after_action nanoid t (UPDATE_COMPONENTS [(id, c')]) w _ eq_refl eq_refl)
      as (r & -> & Hp & _). exists r, c', m'. rewrite Hp. split; [done|]. split; [by apply update_wf|].
    split_and!; [apply aget_oset_eq|done|done| | | |].
    + left. unfold m'. by rewrite !ofield_oset.
    + left. unfold m'. by rewrite !ofield_oset.
    + intros k H1 H2. unfold m'. by rewrite !ofield_oset, !decide_False.
    + intros x Hx. cbn. by rewrite aget_oset_ne.
  - apply orb_false_iff in E as [-> ->]. exists w, c, m. split_and!; try done; right; auto.
Qed.
