(* ===== verification/LayoutHydrate.v ===== *)
(** * The layout of a dashboard that is loaded

    [hydrateDashboard] ([app/dashboard/actions/hydrate.js]) builds the first
    layout of a dashboard from the layout that was stored and the charts of the
    dashboard: charts that are not in the layout, because they were added from
    the chart editor, are put into new rows of three charts; names are synced,
    and the paths of parents are built.  The source changes the stored object in
    place; the objects it keeps references to (the container at the top and the
    row that is being filled) are entries of the layout and are updated there.

    The version string of a stored layout is no component, but the test for
    missing parents sees it: a flag says whether the layout carries one.  The
    ids of the charts are integers, object keys are their text.  The active
    filters, which are rebuilt from the layout, are modelled with the scopes. *)

From Stdlib Require Import Ascii String.
From stdpp Require Import base strings option numbers list sets relations.
From S2P Require Import Prelude JsObject JsNumber JsValue Layout LayoutFacts LayoutReducer.
From S2P Require Import LayoutReducerFacts LayoutMoveFacts LayoutTabsFacts.
From S2P Require Import LayoutParentsFacts LayoutReach.

(** @source app/dashboard/util/componentTypes.ts 21-21 DASHBOARD_HEADER_TYPE *)
Definition DASHBOARD_HEADER_TYPE : string := "HEADER".

Definition bare (id type : string) (children parents : option (list string)) : component :=
  {| c_id := id; c_type := type; c_children := children; c_parents := parents; c_meta := None |}.

(** @source app/dashboard/util/getEmptyLayout.js 27-42 getEmptyLayout *)
Definition getEmptyLayout : components :=
  [(DASHBOARD_ROOT_ID, bare DASHBOARD_ROOT_ID DASHBOARD_ROOT_TYPE (Some [DASHBOARD_GRID_ID]) None);
   (DASHBOARD_GRID_ID,
    bare DASHBOARD_GRID_ID DASHBOARD_GRID_TYPE (Some []) (Some [DASHBOARD_ROOT_ID]))].

(** [layout[children[0]]] *)
Definition child_at_top (c : component) (layout : components) : result component :=
  id ← first_child c; need id layout.

(** @source app/dashboard/util/findFirstParentContainer.js 22-37 findFirstParentContainerId *)
Definition findFirstParentContainerId (layout : components) : result string :=
  parent ← need DASHBOARD_ROOT_ID layout;
  _ ← need_children parent;
  top ← child_at_top parent layout;
  if bool_decide (c_type top = TABS_TYPE) then
    _ ← need_children top;
    tab ← child_at_top top layout;
    Ok (c_id tab)
  else Ok (c_id top).

(** The fields of a chart that the layout needs. *)
Record slice := {
  slice_id : Z;
  slice_name : jsval;
}.

Definition chart_id (c : component) : jsval := ofield "chartId" (default [] (c_meta c)).

Definition slice_key (id : Z) : string := to_string (JNum (num_of_Z id)).

(** @source app/dashboard/actions/hydrate.js 81-83 chartIdToLayoutId (entry) *)
Definition lookup_chart (ids : list (string * string)) (kc : string * component)
    : result (list (string * string)) :=
  if bool_decide (c_type kc.2 = CHART_TYPE) then
    match c_meta kc.2 with
    | Some meta => Ok (oset (to_string (ofield "chartId" meta)) (c_id kc.2) ids)
    | None => Throw (missing "chartId")
    end
  else Ok ids.

(** The lookup from charts to components.

    @source app/dashboard/actions/hydrate.js 78-84 chartIdToLayoutId *)
Definition lookup_charts (layout : components) : result (list (string * string)) :=
  fold_result lookup_chart [] layout.

(** What the loop over the charts changes: the layout, the lookup, the row that
    is being filled with its width, the number of components that were made for
    a chart, and the number of calls of the id generator. *)
Record filling := {
  fl_layout : components;
  fl_ids : list (string * string);
  fl_container : string;
  fl_width : Z;
  fl_counts : list (string * Z);
  fl_next : nat;
}.

(** [`${CHART_TYPE}-explore-${slice_id}-${count}`] *)
Definition explore_id (key : string) (count : Z) : string :=
  CHART_TYPE +:+ "-explore-" +:+ key +:+ "-" +:+ slice_key count.

(** [{...array}] *)
Definition spread_array (xs : list string) : jsobj :=
  imap (λ i x, (slice_key (Z.of_nat i), JStr x)) xs.

(** [component.children.push(id)] *)
Definition push_child (id : string) (c : component) : result component :=
  match c_children c with
  | Some children => Ok (with_children (children ++ [id]) c)
  | None => Throw (missing "push")
  end.

Section hydrate.
Context (nanoid : nat → string) (t : string → string).

(** A new row in the container; the parents are passed where the meta data are
    expected.

    @source app/dashboard/actions/hydrate.js 131-142 hydrateDashboard (row) *)
Definition new_row (parentId : string) (parent : component) (st : filling) : result filling :=
  if bool_decide (fl_width st = 0%Z) || bool_decide (fl_width st + 4 > 12)%Z then
    let row :=
      newComponentFactory nanoid t (fl_next st) ROW_TYPE
        (Some (spread_array (default [] (c_parents parent)))) None in
    parent ← push_child (c_id row) parent;
    Ok {| fl_layout := oset parentId parent (oset (c_id row) row (fl_layout st));
          fl_ids := fl_ids st; fl_container := c_id row; fl_width := 0;
          fl_counts := fl_counts st; fl_next := S (fl_next st) |}
  else Ok st.

(** The component of a new chart in the row.

    @source app/dashboard/actions/hydrate.js 144-159 hydrateDashboard (chart) *)
Definition new_chart (slice : slice) (st : filling) : result filling :=
  let key := slice_key (slice_id slice) in
  row ← need (fl_container st) (fl_layout st);
  let count := (default 0 (aget key (fl_counts st)) + 1)%Z in
  let id := explore_id key count in
  let made :=
    newComponentFactory nanoid t (fl_next st) CHART_TYPE
      (Some [("chartId", JNum (num_of_Z (slice_id slice)))]) (c_parents row) in
  let chartHolder :=
    {| c_id := id; c_type := c_type made; c_children := c_children made;
       c_parents := c_parents made; c_meta := c_meta made |} in
  row ← push_child id row;
  Ok {| fl_layout := oset (fl_container st) row (oset id chartHolder (fl_layout st));
        fl_ids := oset (to_string (chart_id chartHolder)) id (fl_ids st);
        fl_container := fl_container st; fl_width := fl_width st + 4;
        fl_counts := oset key count (fl_counts st); fl_next := S (fl_next st) |}.

(** [layout[layoutId].meta.sliceName = slice.slice_name]

    @source app/dashboard/actions/hydrate.js 162-168 hydrateDashboard (name) *)
Definition sync_name (slice : slice) (st : filling) : result filling :=
  match aget (slice_key (slice_id slice)) (fl_ids st) with
  | Some layoutId =>
      if bool_decide (layoutId = EmptyString) then Ok st
      else
        match aget layoutId (fl_layout st) with
        | Some c =>
            match c_meta c with
            | Some meta =>
                Ok {| fl_layout :=
                        oset layoutId (with_meta (oset "sliceName" (slice_name slice) meta) c)
                          (fl_layout st);
                      fl_ids := fl_ids st; fl_container := fl_container st;
                      fl_width := fl_width st; fl_counts := fl_counts st;
                      fl_next := fl_next st |}
            | None => Throw (missing "sliceName")
            end
        | None => Ok st
        end
  | None => Ok st
  end.

(** [!chartIdToLayoutId[key]] *)
Definition unplaced (key : string) (ids : list (string * string)) : bool :=
  bool_decide (default EmptyString (aget key ids) = EmptyString).

(** @source app/dashboard/actions/hydrate.js 129-169 hydrateDashboard (charts) *)
Definition place_slice (parentId : string) (st : filling) (slice : slice) : result filling :=
  st ← match aget parentId (fl_layout st) with
       | Some parent =>
           if unplaced (slice_key (slice_id slice)) (fl_ids st) then
             st ← new_row parentId parent st; new_chart slice st
           else Ok st
       | None => Ok st
       end;
  sync_name slice st.

(** The loop over the charts.

    @source app/dashboard/actions/hydrate.js 86-98 hydrateDashboard (rows) *)
Definition fill_layout (layout : components) (charts : list slice) : result components :=
  ids ← lookup_charts layout;
  parentId ← findFirstParentContainerId layout;
  st ← fold_result (place_slice parentId)
         {| fl_layout := layout; fl_ids := ids; fl_container := EmptyString; fl_width := 0;
            fl_counts := []; fl_next := 0 |} charts;
  Ok (fl_layout st).

(** [element.id !== DASHBOARD_ROOT_ID && !element.parents] *)
Definition lacks_parents (kc : string * component) : bool :=
  bool_decide (c_id kc.2 ≠ DASHBOARD_ROOT_ID) && bool_decide (c_parents kc.2 = None).

(** @source app/dashboard/actions/hydrate.js 171-181 hydrateDashboard (parents) *)
Definition build_parents (version : bool) (layout : components) : result components :=
  if version || existsb lacks_parents layout then update_parents_list layout else Ok layout.

(** @source app/dashboard/actions/hydrate.js 188-195 hydrateDashboard (header) *)
Definition header_component (dashboard_title : jsval) : component :=
  {| c_id := DASHBOARD_HEADER_ID; c_type := DASHBOARD_HEADER_TYPE; c_children := None;
     c_parents := None; c_meta := Some [("text", dashboard_title)] |}.

(** The stored layout is [None] when there is none or when it is empty.

    @source app/dashboard/actions/hydrate.js 72-76 hydrateDashboard (layout) *)
Definition hydrate_layout (stored : option (components * bool)) (charts : list slice)
    (dashboard_title : jsval) : result components :=
  let '(layout, version) := default (getEmptyLayout, true) stored in
  layout ← fill_layout layout charts;
  layout ← build_parents version layout;
  Ok (oset DASHBOARD_HEADER_ID (header_component dashboard_title) layout).
End hydrate.
