(* ===== verification/LayoutHydrateFacts.v ===== *)
(** * The layout of a loaded dashboard is complete

    Hydration turns a well-formed stored layout into a well-formed layout that
    has a component for every chart of the dashboard.  It is the first layout of
    the sequences that [LayoutReach] studies. *)

From Stdlib Require Import Ascii String.
From stdpp Require Import base strings option numbers list sets relations.
From S2P Require Import Prelude JsObject JsNumber JsValue Layout LayoutFacts LayoutReducer.
From S2P Require Import LayoutReducerFacts LayoutMoveFacts LayoutTabsFacts.
From S2P Require Import LayoutParentsFacts LayoutReach LayoutHydrate.

(** ** Pushing a new component *)

Lemma insert_at_end {A} (x : A) l : insert_at (Z.of_nat (length l)) x l = l ++ [x].
Proof.
  unfold insert_at, splice_start. destruct (_ <? 0)%Z eqn:E; [apply Z.ltb_lt in E; lia|].
  rewrite Nat2Z.id, Nat.min_id, take_ge, drop_ge by done. done.
Qed.

Lemma push_attach l d cd ks a ca :
  wf l → aget d l = Some cd → c_children cd = Some ks → aget a l = None → c_id ca = a →
  kids ca = [] →
  push_child a cd = Ok (with_children (ks ++ [a]) cd) ∧
  wf (oset d (with_children (ks ++ [a]) cd) (oset a ca l)) ∧
  attached l d a None (oset d (with_children (ks ++ [a]) cd) (oset a ca l)) ∧ a ≠ d.
Proof.
  intros Hwf Hd Hk Ha Hia Hka. split; [unfold push_child; by rewrite Hk|].
  assert (¬ dom l a) as Hn by (unfold dom; rewrite Ha; by intros [? ?]).
  destruct (attach_one l d cd ks (Z.of_nat (length ks)) a ca Hwf Hd Hk Hn Hia Hka) as [H1 H2].
  rewrite insert_at_end in H1, H2. split; [done|]. split; [done|]. intros ->. congruence.
Qed.

Lemma explore_id_inj k k' : explore_id k 1 = explore_id k' 1 → k = k'.
Proof.
  unfold explore_id. intros H. repeat (rewrite ?append_cons, ?append_empty_l in H; simplify_eq/=).
  by apply string_app_inj_r in H.
Qed.

(** ** The loop over the charts *)

(** The component of the chart with the given key. *)
Definition chart_of (key : string) (c : component) : Prop :=
  c_type c = CHART_TYPE ∧ is_Some (c_meta c) ∧ to_string (chart_id c) = key.

(** Components keep their types and meta data. *)
Definition keeps (l r : components) : Prop :=
  ∀ x c, aget x l = Some c → ∃ c', aget x r = Some c' ∧ c_type c' = c_type c ∧ c_meta c' = c_meta c.

Lemma keeps_chart l r key x :
  keeps l r → (∃ c, aget x l = Some c ∧ chart_of key c) → ∃ c, aget x r = Some c ∧ chart_of key c.
Proof.
  intros Hk (c & Hc & H1 & H2 & H3). destruct (Hk x c Hc) as (c' & ? & E1 & E2). exists c'.
  split; [done|]. unfold chart_of, chart_id in *. rewrite E1, E2. done.
Qed.

Lemma keeps_trans l m r : keeps l m → keeps m r → keeps l r.
Proof.
  intros H1 H2 x c Hc. destruct (H1 x c Hc) as (c1 & Hc1 & E1 & E2).
  destruct (H2 x c1 Hc1) as (c2 & Hc2 & E3 & E4). exists c2. split; [done|]. split; congruence.
Qed.

Lemma keeps_push l d cd ks a ca :
  aget d l = Some cd → aget a l = None → keeps l (oset d (with_children ks cd) (oset a ca l)).
Proof.
  intros Hd Ha x c Hc. rewrite !aget_oset. case_decide as E1.
  - subst x. rewrite Hd in Hc. injection Hc as <-. by eexists.
  - case_decide as E2; [subst x; congruence|]. by exists c.
Qed.

Definition key_of (s : slice) : string := slice_key (slice_id s).

(** The component of a chart carries its present name. *)
Definition named (st : filling) (s : slice) : Prop :=
  ∃ x c m, aget (key_of s) (fl_ids st) = Some x ∧ aget x (fl_layout st) = Some c ∧
           c_meta c = Some m ∧ ofield "sliceName" m = slice_name s.

(** The lookup keeps its entries, and the components of the charts that are not
    concerned keep their meta data. *)
Definition undisturbed (keys : list string) (st st' : filling) : Prop :=
  ∀ k x, k ∉ keys → aget k (fl_ids st) = Some x →
    aget k (fl_ids st') = Some x ∧ c_meta <$> aget x (fl_layout st') = c_meta <$> aget x (fl_layout st).

Lemma undisturbed_trans ks st1 st2 st3 :
  undisturbed ks st1 st2 → undisturbed ks st2 st3 → undisturbed ks st1 st3.
Proof.
  intros H1 H2 k x Hk Hx. destruct (H1 k x Hk Hx) as [Hx2 E1].
  destruct (H2 k x Hk Hx2) as [Hx3 E2]. split; [done|congruence].
Qed.

Lemma undisturbed_weaken ks ks' st st' :
  ks ⊆ ks' → undisturbed ks st st' → undisturbed ks' st st'.
Proof. intros Hs H k x Hk. apply H. intros Hk'. by apply Hk, Hs. Qed.

Lemma named_undisturbed keys st st' s :
  undisturbed keys st st' → key_of s ∉ keys → named st s → named st' s.
Proof.
  intros Hu Hk (x & c & m & Hx & Hc & Hm & Hs). destruct (Hu _ x Hk Hx) as [Hx' E].
  rewrite Hc in E. cbn in E. destruct (aget x (fl_layout st')) as [c'|] eqn:Hc'; [|done].
  cbn in E. injection E as E. exists x, c', m. split_and!; [done..|congruence|done].
Qed.

Section loop.
Context (nanoid : nat → string) (t : string → string) (l : components) (parentId : string).

Let row n := uuid nanoid n ROW_TYPE.

(** The state of the loop; [open] says that the row may still be empty. *)
Record filled (open : bool) (st : filling) : Prop := {
  fi_wf : wf (fl_layout st);
  fi_empty : aget EmptyString (fl_layout st) = None;
  fi_dom : ∀ x, dom l x → dom (fl_layout st) x;
  fi_parent : ∃ c ks, aget parentId (fl_layout st) = Some c ∧ c_children c = Some ks;
  fi_ids : ∀ key x, aget key (fl_ids st) = Some x →
             ∃ c, aget x (fl_layout st) = Some c ∧ chart_of key c;
  fi_charts : ∀ x c key, aget x l = Some c → chart_of key c → is_Some (aget key (fl_ids st));
  fi_explore : ∀ key, is_Some (aget (explore_id key 1) (fl_layout st)) →
                 is_Some (aget key (fl_ids st)) ∧ ∀ x c, aget x l = Some c → ¬ chart_of key c;
  fi_counts : ∀ key, is_Some (aget key (fl_counts st)) → is_Some (aget key (fl_ids st));
  fi_row : fl_width st ≠ 0%Z ∨ open = true →
           ∃ n c ks, fl_container st = row n ∧ aget (row n) (fl_layout st) = Some c ∧
             c_children c = Some ks ∧ fl_width st = (4 * Z.of_nat (length ks))%Z ∧
             (fl_width st ≤ 12)%Z;
  fi_rows : ∀ n c, aget (row n) (fl_layout st) = Some c →
              length (kids c) ≤ 3 ∧ (kids c = [] → open = true ∧ fl_container st = row n);
  fi_fresh : ∀ n, fl_next st ≤ n → aget (row n) (fl_layout st) = None;
  fi_child : ∀ x y, child l x y → child (fl_layout st) x y;
  fi_new : ∀ x y, child (fl_layout st) x y →
             child l x y ∨ (∃ n, x = parentId ∧ y = row n) ∨
             ∃ n key, x = row n ∧ y = explore_id key 1;
  fi_header : ∀ c, aget DASHBOARD_HEADER_ID (fl_layout st) = Some c → c_type c ≠ CHART_TYPE;
  fi_old : ∀ n, aget (row n) l = None;
  fi_place : ∀ x c, aget x l = Some c → ∃ c' ns, aget x (fl_layout st) = Some c' ∧
               kids c' = kids c ++ (row <$> ns) ∧ (x ≠ parentId → ns = []);
}.

Hypothesis Hrows : ∀ n n', row n = row n' → n = n'.

Lemma row_not_explore n key count : row n ≠ explore_id key count.
Proof using. unfold row, uuid, explore_id, ROW_TYPE, CHART_TYPE. rewrite !append_cons. done. Qed.

Lemma row_not_empty n : row n ≠ EmptyString.
Proof using. unfold row, uuid, ROW_TYPE. rewrite !append_cons. done. Qed.

Lemma header_not_new n key :
  DASHBOARD_HEADER_ID ≠ row n ∧ DASHBOARD_HEADER_ID ≠ explore_id key 1.
Proof using.
  unfold row, uuid, explore_id, ROW_TYPE, CHART_TYPE. rewrite !append_cons. done.
Qed.

Lemma new_row_filled st parent :
  filled false st → aget parentId (fl_layout st) = Some parent → parentId ≠ EmptyString →
  (∀ n, parentId ≠ row n) →
  ∃ st', new_row nanoid t parentId parent st = Ok st' ∧ filled true st' ∧
         (fl_width st' ≤ 8)%Z ∧ keeps (fl_layout st) (fl_layout st') ∧ fl_ids st' = fl_ids st.
Proof using Hrows.
  intros Hst Hp Hpe Hpr. unfold new_row. destruct (_ || _) eqn:E.
  - clear E. destruct Hst as [Hw He Hd Hpar Hi Hch Hex Hco _ Hro Hfr Hc Hn Hhd Hold Hpl].
    destruct Hpar as (c & ks & Hc1 & Hk). rewrite Hp in Hc1. injection Hc1 as <-.
    set (r := newComponentFactory _ _ _ _ _ _).
    pose proof (Hfr (fl_next st) (Nat.le_refl _)) as Hfresh.
    destruct (push_attach (fl_layout st) parentId parent ks (row (fl_next st)) r)
      as (Hpush & Hw' & Hatt & Hne); [done..|].
    change (c_id r) with (row (fl_next st)). rewrite Hpush, bind_Ok. eexists. split; [done|].
    assert (∀ x, x ≠ parentId → x ≠ row (fl_next st) →
      aget x (oset parentId (with_children (ks ++ [row (fl_next st)]) parent)
                (oset (row (fl_next st)) r (fl_layout st))) = aget x (fl_layout st)) as Hget.
    { intros x H1 H2. rewrite !aget_oset. by rewrite !decide_False by done. }
    assert (keeps (fl_layout st) (oset parentId (with_children (ks ++ [row (fl_next st)]) parent)
                (oset (row (fl_next st)) r (fl_layout st)))) as Hkeep by (by apply keeps_push).
    split; [|done]. split; cbn [fl_layout fl_ids fl_container fl_width fl_counts fl_next].
    + done.
    + rewrite Hget by (done || apply not_eq_sym, row_not_empty). done.
    + intros x Hx. rewrite !dom_oset. auto.
    + rewrite aget_oset_eq. by do 2 eexists.
    + intros key x Hx. by apply (keeps_chart (fl_layout st)); [|apply Hi].
    + done.
    + intros key. destruct (decide (explore_id key 1 = parentId)) as [<-|Hkp].
      * intros _. apply Hex. by exists parent.
      * rewrite Hget by (done || apply not_eq_sym, row_not_explore). apply Hex.
    + done.
    + intros _. exists (fl_next st), r, []. split; [done|].
      rewrite aget_oset_ne by done. rewrite aget_oset_eq. done.
    + intros n c. destruct (decide (n = fl_next st)) as [->|Hnn].
      * rewrite aget_oset_ne, aget_oset_eq by done. intros [= <-]. split; [cbn; lia|done].
      * rewrite Hget by (done || (by intros ?%Hrows) || (intros ?; by eapply Hpr)).
        intros Hcn. destruct (Hro n c Hcn) as [? Hb]. split; [done|]. intros Hz. by destruct (Hb Hz).
    + intros n Hnn. rewrite Hget; [apply Hfr; lia|by intros ?; eapply Hpr|]. intros ?%Hrows. lia.
    + intros x y Hxy. apply Hatt. left. by apply Hc.
    + intros x y [Hxy|[[-> ->]|[_ ?]]]%Hatt; [by apply Hn|right; left; by eexists|done].
    + intros c. destruct (decide (parentId = DASHBOARD_HEADER_ID)) as [E|E].
      * rewrite <- E, aget_oset_eq. intros [= <-]. apply (Hhd parent). by rewrite <- E.
      * rewrite Hget; [apply Hhd|done|by apply (header_not_new (fl_next st) EmptyString)].
    + done.
    + intros x c Hx. destruct (Hpl x c Hx) as (c' & ns & Hc' & Hkc & Hns).
      destruct (decide (x = parentId)) as [->|Hxp].
      * simplify_eq. eexists. exists (ns ++ [fl_next st]). split; [apply aget_oset_eq|]. split; [|done].
        rewrite kids_with_children, fmap_app, app_assoc, <- Hkc. unfold kids. by rewrite Hk.
      * exists c', ns. rewrite Hget; [done|done|]. intros ->. by rewrite Hold in Hx.
  - apply orb_false_iff in E as [E1%bool_decide_eq_false E2%bool_decide_eq_false].
    exists st. split; [done|]. split; [|split; [|split; [|done]]].
    + destruct Hst as [? ? ? ? ? ? ? ? Hr Hro]. split; try done; [intros _; apply Hr; by left|].
      intros n c Hc. destruct (Hro n c Hc) as [? Hb]. split; [done|]. intros Hz. by destruct (Hb Hz).
    + lia.
    + intros x c Hc. by exists c.
Qed.

Lemma new_chart_filled st s :
  filled true st → (fl_width st ≤ 8)%Z → aget (slice_key (slice_id s)) (fl_ids st) = None →
  ∃ st', new_chart nanoid t s st = Ok st' ∧ filled false st' ∧
         keeps (fl_layout st) (fl_layout st') ∧
         (∀ key, key ≠ slice_key (slice_id s) → aget key (fl_ids st') = aget key (fl_ids st)) ∧
         is_Some (aget (slice_key (slice_id s)) (fl_ids st')).
Proof using Hrows.
  intros Hst H8 Hid. set (key := slice_key (slice_id s)) in *.
  destruct Hst as [Hw He Hd Hpar Hi Hch Hex Hco Hrow Hro Hfr Hc Hn Hhd Hold Hpl].
  destruct (Hrow (or_intror eq_refl)) as (n & cr & ks & Hcon & Hcr & Hk & Hwd & _).
  unfold new_chart. fold key. rewrite Hcon, (need_Some _ _ _ Hcr), bind_Ok.
  assert (aget key (fl_counts st) = None) as ->.
  { destruct (aget key (fl_counts st)) as [z|] eqn:E; [|done].
    destruct (Hco key) as [? ?]; [by exists z|]. congruence. }
  cbn [default]. change (0 + 1)%Z with 1%Z. set (ch := Build_component _ _ _ _ _).
  assert (aget (explore_id key 1) (fl_layout st) = None) as Hnone.
  { destruct (aget (explore_id key 1) (fl_layout st)) as [c|] eqn:E; [|done].
    destruct (Hex key) as [[? ?] _]; [by exists c|]. congruence. }
  destruct (push_attach (fl_layout st) (row n) cr ks (explore_id key 1) ch)
    as (Hpush & Hw' & Hatt & Hne); [done..|].
  rewrite Hpush, bind_Ok. eexists. split; [done|].
  assert (chart_of key ch) as Hchart by (split; [done|split; [by eexists|done]]).
  change (to_string (chart_id ch)) with key.
  set (L := oset (row n) (with_children (ks ++ [explore_id key 1]) cr)
              (oset (explore_id key 1) ch (fl_layout st))) in *.
  assert (∀ x, x ≠ row n → x ≠ explore_id key 1 → aget x L = aget x (fl_layout st)) as Hget.
  { intros x H1 H2. unfold L. by rewrite !aget_oset, !decide_False by done. }
  assert (keeps (fl_layout st) L) as Hkeep by (by apply keeps_push).
  assert (aget (explore_id key 1) L = Some ch) as Hnew by (unfold L; by rewrite aget_oset_ne, aget_oset_eq).
  split; [|split; [done|cbn [fl_ids]; split; [intros k Hkk; by rewrite aget_oset_ne|rewrite aget_oset_eq; by eexists]]].
  split; cbn [fl_layout fl_ids fl_container fl_width fl_counts fl_next].
  - done.
  - rewrite Hget; [done|apply not_eq_sym, row_not_empty|done].
  - intros x Hx. unfold L. rewrite !dom_oset. auto.
  - destruct Hpar as (c & ks' & Hp & Hkp). destruct (decide (parentId = row n)) as [->|].
    { unfold L. rewrite aget_oset_eq. by do 2 eexists. }
    exists c, ks'. rewrite Hget; [done|done|]. intros ->. congruence.
  - intros k x. rewrite aget_oset. case_decide as Ek.
    + intros [= <-]. subst k. by exists ch.
    + intros Hx. by apply (keeps_chart (fl_layout st)); [|apply Hi].
  - intros x c k Hx Hxc. rewrite aget_oset. case_decide; [by eexists|]. by eapply Hch.
  - intros k Hk'. destruct (decide (k = key)) as [->|Hkk].
    + split; [rewrite aget_oset_eq; by eexists|]. intros x c Hx Hxc.
      destruct (Hch x c key Hx Hxc). congruence.
    + rewrite aget_oset_ne by done. apply Hex.
      by rewrite Hget in Hk' by (apply not_eq_sym, row_not_explore || (by intros ?%explore_id_inj)).
  - intros k. rewrite !aget_oset. case_decide; [by eexists|apply Hco].
  - intros _. exists n. do 2 eexists. split; [done|]. split; [apply aget_oset_eq|]. split; [done|].
    rewrite length_app. cbn [length]. lia.
  - intros m c Hm. destruct (decide (m = n)) as [->|Hmn].
    + unfold L in Hm. rewrite aget_oset_eq in Hm. injection Hm as <-. rewrite kids_with_children.
      rewrite length_app. cbn [length]. split; [lia|]. by destruct ks.
    + rewrite Hget in Hm; [|by intros ?%Hrows|apply row_not_explore].
      destruct (Hro m c Hm) as [? Hb]. split; [done|]. intros Hz. destruct (Hb Hz) as [_ E].
      rewrite Hcon in E. by apply Hrows in E.
  - intros m Hm. rewrite Hget; [apply Hfr; lia| |apply row_not_explore]. intros E.
    rewrite <- E, Hfr in Hcr by lia. done.
  - intros x y Hxy. apply Hatt. left. by apply Hc.
  - intros x y [Hxy|[[-> ->]|[_ ?]]]%Hatt; [by apply Hn|right; right; by do 2 eexists|done].
  - intros c. rewrite Hget by apply (header_not_new n key). apply Hhd.
  - done.
  - intros x c Hx. destruct (Hpl x c Hx) as (c' & ns & Hc' & ?). exists c', ns.
    rewrite Hget; [done|intros ->; by rewrite Hold in Hx|intros ->; congruence].
Qed.

Lemma sync_name_filled st s :
  filled false st →
  ∃ st', sync_name s st = Ok st' ∧ filled false st' ∧ fl_ids st' = fl_ids st ∧
    (∀ x c, aget x (fl_layout st) = Some c →
       ∃ c', aget x (fl_layout st') = Some c' ∧
         (aget (slice_key (slice_id s)) (fl_ids st) ≠ Some x → c_meta c' = c_meta c)) ∧
    (∀ x, aget (slice_key (slice_id s)) (fl_ids st) = Some x →
       ∃ c m, aget x (fl_layout st') = Some c ∧ c_meta c = Some m ∧
              ofield "sliceName" m = slice_name s).
Proof using.
  intros Hst. unfold sync_name. set (key := slice_key (slice_id s)).
  destruct (aget key (fl_ids st)) as [x|] eqn:Hx.
  2: { exists st. split; [done|]. split; [done|]. split; [done|]. split; [|done].
       intros x c Hc. by exists c. }
  destruct (fi_ids _ _ Hst key x Hx) as (c & Hc & Ht & [m Hm] & Hkey).
  rewrite bool_decide_eq_false_2 by (intros ->; by rewrite (fi_empty _ _ Hst) in Hc).
  rewrite Hc, Hm. eexists. split; [done|].
  set (c' := with_meta _ c). set (L := oset x c' (fl_layout st)).
  assert (alike (fl_layout st) L) as Hal.
  { intros y. unfold L. rewrite aget_oset. case_decide as E; [subst y; left; by exists c', c|].
    destruct (aget y (fl_layout st)) as [cy|]; [left; by exists cy, cy|by right]. }
  assert (∀ y, dom L y ↔ dom (fl_layout st) y) as Hdom.
  { intros y. unfold dom. destruct (Hal y) as [(a & b & -> & -> & _)|[-> ->]]; [|done].
    split; intros _; by eexists. }
  assert (∀ y z, child L y z ↔ child (fl_layout st) y z) as Hch.
  { intros y z. unfold child, kids. destruct (Hal y) as [(a & b & -> & -> & _ & E)|[-> ->]]; [|done].
    split; intros (? & [= <-] & Hz); eexists; (split; [done|]); congruence. }
  assert (∀ y a, aget y L = Some a → ∃ b, aget y (fl_layout st) = Some b ∧ c_children a = c_children b ∧
            c_type a = c_type b) as Hback.
  { intros y a. unfold L. rewrite aget_oset. case_decide as E; [|by intros H; exists a].
    subst y. intros [= <-]. by exists c. }
  assert (∀ y a, aget y (fl_layout st) = Some a → ∃ b, aget y L = Some b ∧ c_children b = c_children a) as Hfwd.
  { intros y a Ha. destruct (Hal y) as [(a1 & b1 & ? & ? & _ & ?)|[_ ?]]; [|congruence]. exists a1. split; [done|congruence]. }
  assert (∀ k y, (∃ a, aget y (fl_layout st) = Some a ∧ chart_of k a) → ∃ a, aget y L = Some a ∧ chart_of k a) as Hcharts.
  { intros k y (a & Ha & Hka). unfold L. rewrite aget_oset. case_decide as E; [|by exists a]. subst y.
    rewrite Hc in Ha. injection Ha as <-. exists c'. split; [done|]. destruct Hka as (? & _ & Hka).
    split; [done|]. split; [by eexists|]. rewrite <- Hka. unfold chart_id, c'. rewrite Hm.
    cbn [with_meta c_meta default id]. by rewrite ofield_oset, decide_False. }
  split; [|split; [done|split]].
  - destruct Hst as [Hw He Hd Hpar Hi Hchs Hex Hco Hrow Hro Hfr Hcc Hn Hhd Hold Hpl]. unfold dom in Hdom.
    split; cbn [fl_layout fl_ids fl_container fl_width fl_counts fl_next]; fold L.
    + by apply (alike_wf (fl_layout st)); [|apply NoDup_akeys_oset, wf_keys|].
    + apply eq_None_not_Some. rewrite Hdom. by rewrite He; intros [? ?].
    + intros y Hy. apply Hdom. by apply Hd.
    + destruct Hpar as (cp & ks & Hp & Hk). destruct (Hfwd _ _ Hp) as (b & ? & ?). exists b, ks. split; [done|congruence].
    + intros k y Hy. by apply Hcharts, Hi.
    + done.
    + intros k. rewrite Hdom. apply Hex.
    + done.
    + intros Hb. destruct (Hrow Hb) as (n & cn & ks & ? & Hcn & Hkn & ? & ?).
      destruct (Hfwd _ _ Hcn) as (b & ? & ?). exists n, b, ks. split; [done|]. split; [done|]. split; [congruence|done].
    + intros n a Ha. destruct (Hback _ _ Ha) as (b & Hb & Hk & _). unfold kids. rewrite Hk. by apply (Hro n b).
    + intros n Hnn. apply eq_None_not_Some. rewrite Hdom. by rewrite Hfr; [intros [? ?]|].
    + intros y z Hyz. by apply Hch, Hcc.
    + intros y z Hyz. by apply Hn, Hch.
    + intros a Ha. destruct (Hback _ _ Ha) as (b & Hb & _ & ->). by apply Hhd.
    + done.
    + intros y a Ha. destruct (Hpl y a Ha) as (a' & ns & Ha' & Hka & Hns). destruct (Hfwd _ _ Ha') as (b & Hb & Hkb).
      exists b, ns. split; [done|]. split; [|done]. rewrite <- Hka. unfold kids. by rewrite Hkb.
  - intros y a Ha. cbn [fl_layout]. fold L. unfold L. rewrite aget_oset. case_decide as E; [|by exists a].
    subst y. exists c'. split; [done|]. done.
  - intros y [= <-]. exists c'. exists (oset "sliceName" (slice_name s) m).
    cbn [fl_layout]. unfold L. rewrite aget_oset_eq. split; [done|]. split; [done|].
    by rewrite ofield_oset, decide_True.
Qed.

Lemma keeps_undisturbed st st' keys :
  filled false st → keeps (fl_layout st) (fl_layout st') →
  (∀ k, k ∉ keys → aget k (fl_ids st') = aget k (fl_ids st)) → undisturbed keys st st'.
Proof using.
  intros Hst Hk Hi k x Hkk Hx. rewrite Hi by done. split; [done|].
  destruct (fi_ids _ _ Hst k x Hx) as (c & Hc & _). destruct (Hk x c Hc) as (c' & Hc' & _ & E).
  rewrite Hc, Hc'. cbn. congruence.
Qed.

Lemma unplaced_spec st key :
  filled false st → unplaced key (fl_ids st) = true ↔ aget key (fl_ids st) = None.
Proof using.
  intros Hst. unfold unplaced. rewrite bool_decide_eq_true.
  destruct (aget key (fl_ids st)) as [x|] eqn:E; cbn [default]; [|done]. split; [|done]. unfold id. intros ->.
  destruct (fi_ids _ _ Hst key _ E) as (c & Hc & _). by rewrite (fi_empty _ _ Hst) in Hc.
Qed.

Hypothesis Hpe : parentId ≠ EmptyString.
Hypothesis Hpr : ∀ n, parentId ≠ row n.

Lemma place_slice_filled st s :
  filled false st →
  ∃ st', place_slice nanoid t parentId st s = Ok st' ∧ filled false st' ∧ named st' s ∧
         undisturbed [key_of s] st st'.
Proof using All.
  intros Hst. unfold place_slice. destruct (fi_parent _ _ Hst) as (parent & ks & Hp & _). rewrite Hp.
  fold (key_of s).
  set (x := if unplaced _ _ then _ else _).
  assert (∃ st1, x = Ok st1 ∧ filled false st1 ∧ is_Some (aget (key_of s) (fl_ids st1)) ∧
            undisturbed [key_of s] st st1) as (st1 & -> & H1 & [y Hy] & Hu1).
  { unfold x. destruct (unplaced (key_of s) (fl_ids st)) eqn:Hun.
    - apply unplaced_spec in Hun; [|done].
      destruct (new_row_filled st parent Hst Hp Hpe Hpr) as (st1 & -> & H1 & H8 & Hk1 & Hi1).
      rewrite bind_Ok. destruct (new_chart_filled st1 s H1 H8) as (st2 & -> & H2 & Hk2 & Hi2 & Hi2');
        [by rewrite Hi1|]. exists st2. split; [done|]. split; [done|]. split; [done|].
      apply keeps_undisturbed; [done|by eapply keeps_trans|]. intros k Hk.
      rewrite Hi2, Hi1; [done|]. intros ->. apply Hk. by left.
    - exists st. split; [done|]. split; [done|]. split; [|by intros k z].
      destruct (aget (key_of s) (fl_ids st)) as [y|] eqn:E; [by eexists|].
      apply unplaced_spec in E; [|done]. congruence. }
  rewrite bind_Ok. destruct (sync_name_filled st1 s H1) as (st2 & -> & H2 & Hi2 & Hm & Hn).
  fold (key_of s) in Hm, Hn. exists st2. split; [done|]. split; [done|]. split.
  - destruct (Hn y Hy) as (c & m & ? & ? & ?). exists y, c, m. by rewrite Hi2.
  - apply (undisturbed_trans _ st st1 st2); [done|]. intros k z Hk Hz. rewrite Hi2. split; [done|].
    destruct (fi_ids _ _ H1 k z Hz) as (c & Hc & Hkc). destruct (Hm z c Hc) as (c' & Hc' & E).
    rewrite Hc, Hc'. cbn. f_equal. apply E. rewrite Hy. intros [= ->].
    destruct (fi_ids _ _ H1 _ z Hy) as (c2 & Hc2 & Hkc2). simplify_eq.
    apply Hk, list_elem_of_singleton. destruct Hkc as (_ & _ & <-). by destruct Hkc2 as (_ & _ & <-).
Qed.

Lemma fill_filled charts st :
  filled false st →
  ∃ st', fold_result (place_slice nanoid t parentId) st charts = Ok st' ∧ filled false st' ∧
    undisturbed (key_of <$> charts) st st' ∧
    (∀ s, s ∈ charts → is_Some (aget (key_of s) (fl_ids st'))) ∧
    (NoDup (key_of <$> charts) → ∀ s, s ∈ charts → named st' s).
Proof using All.
  revert st. induction charts as [|s charts IH]; intros st Hst; cbn [fold_result].
  { exists st. split; [done|]. split; [done|]. split; [by intros k x|]. split; intros; by exfalso; eapply not_elem_of_nil. }
  destruct (place_slice_filled st s Hst) as (st1 & -> & H1 & Hn1 & Hu1). rewrite bind_Ok.
  destruct (IH st1 H1) as (st2 & -> & H2 & Hu2 & Hp2 & Hn2). exists st2. split; [done|]. split; [done|].
  split; [|split].
  - apply (undisturbed_trans _ st st1 st2); (eapply undisturbed_weaken; [|done]); set_solver.
  - intros s' [->|Hs]%elem_of_cons; [|by apply Hp2]. destruct (decide (key_of s ∈ key_of <$> charts)) as [Hin|Hin].
    + apply list_elem_of_fmap in Hin as (s' & -> & Hs'). by apply Hp2.
    + destruct Hn1 as (x & _ & _ & Hx & _). destruct (Hu2 _ x Hin Hx) as [-> _]. by eexists.
  - cbn [fmap list_fmap]. intros [Hin Hnd]%NoDup_cons s' [->|Hs]%elem_of_cons; [|by apply Hn2].
    by eapply named_undisturbed.
Qed.
End loop.

(** ** Hydration *)

Lemma lookup_charts_from (l suffix : components) ids :
  (∀ kc, kc ∈ suffix → c_type kc.2 = CHART_TYPE → is_Some (c_meta kc.2)) →
  (∀ kc, kc ∈ suffix → aget (c_id kc.2) l = Some kc.2) →
  (∀ key x, aget key ids = Some x → ∃ c, aget x l = Some c ∧ chart_of key c) →
  ∃ r, fold_result lookup_chart ids suffix = Ok r ∧
    (∀ key x, aget key r = Some x → ∃ c, aget x l = Some c ∧ chart_of key c) ∧
    (∀ key, is_Some (aget key ids) → is_Some (aget key r)) ∧
    (∀ kc key, kc ∈ suffix → chart_of key kc.2 → is_Some (aget key r)).
Proof.
  revert ids. induction suffix as [|[k c] suffix IH]; intros ids Hm Hg Hi; cbn [fold_result snd].
  { exists ids. split_and!; [done..|]. intros kc key ?%elem_of_nil. done. }
  assert (∀ ids', (∀ key x, aget key ids' = Some x → ∃ c, aget x l = Some c ∧ chart_of key c) →
    (∀ key, is_Some (aget key ids) → is_Some (aget key ids')) →
    (∀ key, chart_of key c → is_Some (aget key ids')) → ∃ r, fold_result lookup_chart ids' suffix = Ok r ∧
    (∀ key x, aget key r = Some x → ∃ c, aget x l = Some c ∧ chart_of key c) ∧
    (∀ key, is_Some (aget key ids) → is_Some (aget key r)) ∧
    (∀ kc key, kc ∈ (k, c) :: suffix → chart_of key kc.2 → is_Some (aget key r))) as Hnext.
  { intros ids' H1 H2 H3. destruct (IH ids') as (r & Hr & Hr1 & Hr2 & Hr3);
      [intros kc ?; apply Hm; by right|intros kc ?; apply Hg; by right|done|].
    exists r. split; [exact Hr|]. split; [done|]. split; [auto|].
    intros kc key [->|Hin]%elem_of_cons Hk; [by apply Hr2, H3|exact (Hr3 kc key Hin Hk)]. }
  destruct (lookup_chart ids (k, c)) as [ids1|] eqn:E1; unfold lookup_chart in E1; cbn [snd] in E1;
    case_bool_decide as Ht.
  - destruct (Hm (k, c) ltac:(by left) Ht) as [m Em]. cbn [snd] in Em. rewrite Em in E1. injection E1 as <-.
    assert (to_string (chart_id c) = to_string (ofield "chartId" m)) as Ek by (unfold chart_id; by rewrite Em).
    rewrite bind_Ok. apply Hnext; [intros key x|intros key|intros key Hk]; rewrite aget_oset; case_decide as E.
    + intros [= <-]. exists c. split; [apply (Hg (k, c)); by left|]. split; [done|]. split; [by eexists|].
      by rewrite Ek.
    + apply Hi.
    + by eexists.
    + done.
    + by eexists.
    + destruct E. destruct Hk as (_ & _ & <-). by rewrite Ek.
  - injection E1 as <-. rewrite bind_Ok. apply Hnext; [done|done|]. by intros key [? _].
  - destruct (Hm (k, c) ltac:(by left) Ht) as [m Em]. cbn [snd] in Em. by rewrite Em in E1.
  - done.
Qed.

(** A stored layout: it is well formed, there is a container for new rows, the
    components of charts have meta data, and the header is on its own. *)
Record stored_ok (nanoid : nat → string) (l : components) (parentId : string) : Prop := {
  so_wf : wf l;
  so_empty : aget EmptyString l = None;
  so_parent : findFirstParentContainerId l = Ok parentId;
  so_children : ∃ c ks, aget parentId l = Some c ∧ c_children c = Some ks;
  so_meta : ∀ x c, aget x l = Some c → c_type c = CHART_TYPE → is_Some (c_meta c);
  so_header : ∀ x, ¬ child l x DASHBOARD_HEADER_ID ∧ ¬ child l DASHBOARD_HEADER_ID x;
  so_header_type : ∀ c, aget DASHBOARD_HEADER_ID l = Some c → c_type c ≠ CHART_TYPE;
  so_fresh : fresh_ids nanoid l;
  so_explore : ∀ key, aget (explore_id key 1) l = None;
}.

Lemma findFirst_root l p :
  wf l → findFirstParentContainerId l = Ok p →
  is_Some (aget DASHBOARD_ROOT_ID l) ∧ ∃ x, child l x p.
Proof.
  intros Hwf. unfold findFirstParentContainerId, need at 1, child_at_top.
  destruct (aget DASHBOARD_ROOT_ID l) as [root|] eqn:Hr; [|done]. rewrite bind_Ok.
  destruct (need_children root); [|done]. rewrite bind_Ok.
  assert (∀ x c top, aget x l = Some c → (id ← first_child c; need id l) = Ok top → child l x (c_id top) ∧ aget (c_id top) l = Some top) as Hc.
  { intros x c top Hx. destruct (first_child c) as [y|] eqn:Hf; [|done]. rewrite bind_Ok. unfold need.
    destruct (aget y l) as [c'|] eqn:Hy; [|done]. intros [= <-]. rewrite (wf_ids l Hwf y c' Hy).
    split; [|done]. exists c. split; [done|]. by apply first_child_elem. }
  destruct (id ← first_child root; need id l) as [top|] eqn:Ht; [|done]. rewrite bind_Ok.
  destruct (Hc _ _ _ Hr Ht) as [Ht1 Ht2]. case_bool_decide.
  - destruct (need_children top); [|done]. rewrite bind_Ok.
    destruct (id ← first_child top; need id l) as [tab|] eqn:Htab; [|done]. rewrite bind_Ok. intros [= <-].
    split; [by eexists|]. exists (c_id top). by apply (Hc _ top).
  - intros [= <-]. split; [by eexists|by eexists].
Qed.

(** The paths of parents are built without changing the components. *)
Lemma build_parents_ok version m :
  wf m → is_Some (aget DASHBOARD_ROOT_ID m) →
  ∃ r, build_parents version m = Ok r ∧ same_skeleton m r ∧ wf r ∧
       (version = true → ∀ x, rtc (child m) DASHBOARD_ROOT_ID x → path_ok r x).
Proof.
  intros Hw [root Hr]. unfold build_parents.
  destruct (update_parents_list_ok m root Hw Hr) as (r & Hu & Hs & Hwr & _ & Hp & _).
  destruct (version || existsb lacks_parents m) eqn:E.
  - exists r. auto.
  - exists m. apply orb_false_iff in E as [-> _]. split; [done|]. by split; [intros x|].
Qed.

Lemma header_wf m title :
  wf m → (∀ x, ¬ child m x DASHBOARD_HEADER_ID ∧ ¬ child m DASHBOARD_HEADER_ID x) →
  let r := oset DASHBOARD_HEADER_ID (header_component title) m in
  wf r ∧ ∀ x y, child r x y ↔ child m x y.
Proof.
  intros Hw Hh r. assert (∀ x y, child r x y ↔ child m x y) as Hch.
  { intros x y. unfold r. rewrite child_oset. split.
    - intros [[_ ?%elem_of_nil]|[_ ?]]; done.
    - intros Hxy. right. split; [|done]. intros ->. by destruct (Hh y). }
  split; [|done]. apply wf_forest in Hw as [Hloc Hf]. apply wf_forest. split.
  - apply local_ok_oset; [done|done|apply NoDup_nil_2].
  - destruct Hf as [Hd Hp Ha]. split.
    + intros x y Hxy%Hch. unfold r. rewrite !dom_oset. apply Hd in Hxy. tauto.
    + intros x1 x2 y H1%Hch H2%Hch. by eapply Hp.
    + intros x Hx. apply (Ha x). eapply tc_subrel; [|done]. intros a b. apply Hch.
Qed.
Section hydration.
Context (nanoid : nat → string) (t : string → string) (l : components) (parentId : string).
Hypothesis Hl : stored_ok nanoid l parentId.

Let row n := uuid nanoid n ROW_TYPE.

Lemma fill_layout_ok charts :
  ∃ st, fill_layout nanoid t l charts = Ok (fl_layout st) ∧ filled nanoid l parentId false st ∧
    (∀ s, s ∈ charts → is_Some (aget (key_of s) (fl_ids st))) ∧
    (NoDup (key_of <$> charts) → ∀ s, s ∈ charts → named st s).
Proof using All.
  destruct Hl as [Hw He Hp (cp & ks & Hcp & Hks) Hm Hh Hht [Hf1 Hf2] Hex]. unfold fill_layout, lookup_charts.
  destruct (lookup_charts_from l l []) as (ids & -> & Hi & _ & Hc).
  { intros [k c] Hin. apply (Hm k c), elem_aget; [by apply wf_keys|done]. }
  { intros [k c] Hin. cbn. apply elem_aget in Hin; [|by apply wf_keys]. by rewrite (wf_ids l Hw k c). }
  { done. }
  rewrite bind_Ok, Hp, bind_Ok.
  assert (∀ n n', row n = row n' → n = n') as Hrow by (intros n n'; apply Hf2).
  set (st0 := {| fl_layout := l; fl_ids := ids; fl_container := EmptyString; fl_width := 0;
                 fl_counts := []; fl_next := 0 |}).
  assert (filled nanoid l parentId false st0) as H0.
  { split; cbn; try done.
    - by do 2 eexists.
    - intros x c key Hx. apply (Hc (x, c)). by apply aget_Some_elem.
    - intros key. rewrite Hex. by intros [? ?].
    - by intros [?|?].
    - intros n c. by rewrite Hf1.
    - by left.
    - intros x c Hx. exists c, []. by rewrite app_nil_r. }
  assert (parentId ≠ EmptyString) as Hpe by (intros E; by rewrite E, He in Hcp).
  assert (∀ n, parentId ≠ row n) as Hpr by (intros n E; unfold row in E; by rewrite E, Hf1 in Hcp).
  destruct (fill_filled nanoid t l parentId Hrow Hpe Hpr charts st0 H0) as (st & -> & Hst & _ & H1 & H2).
  exists st. by rewrite bind_Ok.
Qed.

(** The header stands alone, so that replacing it changes no other component. *)
Lemma header_alone st : filled nanoid l parentId false st →
  ∀ x, ¬ child (fl_layout st) x DASHBOARD_HEADER_ID ∧ ¬ child (fl_layout st) DASHBOARD_HEADER_ID x.
Proof using Hl.
  intros Hst x. pose proof (so_header _ _ _ Hl) as Hh.
  assert (∀ n, row n ≠ DASHBOARD_HEADER_ID) as Hr by (intros n; apply not_eq_sym, (header_not_new nanoid n EmptyString)).
  split; intros Hx; apply (fi_new _ _ _ _ _ Hst) in Hx as [Hx|[(n & E1 & E2)|(n & key & E1 & E2)]].
  - by destruct (Hh x).
  - by destruct (Hr n).
  - by destruct (header_not_new nanoid n key).
  - by destruct (Hh x).
  - destruct (findFirst_root l parentId (so_wf _ _ _ Hl) (so_parent _ _ _ Hl)) as [_ [z Hz]].
    destruct (Hh z) as [Hz1 _]. rewrite <- E1 in Hz. done.
  - by destruct (Hr n).
Qed.

(** C8. A loaded dashboard shows all its charts: from a stored layout that is
    well formed, with a container for new rows, meta data for the components of
    charts and the header on its own, and in which the ids of the new components
    are not in use yet, hydration makes a well-formed layout.  Every chart has a component, with its
    present name when the charts are distinct.  Every stored component keeps its
    children in their order, and only the topmost container gets further ones,
    behind those: new rows, with one to three new charts each, and only charts
    that had no component get one.  When the layout carries a version, every
    component below the root has the path that leads to it. *)
Theorem hydrate_layout_complete charts version title :
  ∃ r, hydrate_layout nanoid t (Some (l, version)) charts title = Ok r ∧ wf r ∧
    (∀ s, s ∈ charts → ∃ x c, aget x r = Some c ∧ chart_of (key_of s) c ∧
       (NoDup (key_of <$> charts) → ofield "sliceName" (default [] (c_meta c)) = slice_name s)) ∧
    (∀ x c, aget x l = Some c → ∃ c' ns, aget x r = Some c' ∧
       kids c' = kids c ++ ((λ n, uuid nanoid n ROW_TYPE) <$> ns) ∧ (x ≠ parentId → ns = [])) ∧
    (∀ x y, child l x y → child r x y) ∧
    (∀ x y, child r x y → child l x y ∨ (∃ n, x = parentId ∧ y = uuid nanoid n ROW_TYPE) ∨
       ∃ n key, x = uuid nanoid n ROW_TYPE ∧ y = explore_id key 1) ∧
    (∀ n c, aget (uuid nanoid n ROW_TYPE) r = Some c → 1 ≤ length (kids c) ≤ 3) ∧
    (∀ key x c, is_Some (aget (explore_id key 1) r) → aget x l = Some c → ¬ chart_of key c) ∧
    (version = true → ∀ x, rtc (child r) DASHBOARD_ROOT_ID x → path_ok r x).
Proof using Hl.
  destruct (fill_layout_ok charts) as (st & Hfill & Hst & Hplaced & Hnamed).
  destruct (findFirst_root l parentId (so_wf _ _ _ Hl) (so_parent _ _ _ Hl)) as [Hroot _].
  destruct (build_parents_ok version (fl_layout st) (fi_wf _ _ _ _ _ Hst)) as (m & Hm & Hsk & Hwm & Hpath).
  { by apply (fi_dom _ _ _ _ _ Hst). }
  unfold hydrate_layout. cbn [default id]. unfold id. rewrite Hfill, bind_Ok, Hm, bind_Ok.
  eexists. split; [done|]. pose proof (same_skeleton_child (fl_layout st) m) as Hch.
  destruct (header_wf m title Hwm) as [Hw Hch2].
  { intros x. rewrite !Hch by done. by apply header_alone. }
  set (r := oset _ _ m) in *.
  assert (∀ x y, child r x y ↔ child (fl_layout st) x y) as Hchild by (intros x y; by rewrite Hch2, Hch).
  assert (∀ x, x ≠ DASHBOARD_HEADER_ID → skeleton <$> aget x r = skeleton <$> aget x (fl_layout st)) as Hget.
  { intros x Hx. unfold r. rewrite aget_oset_ne by done. apply Hsk. }
  split; [done|]. split; [|split; [|split; [|split; [|split; [|split]]]]].
  - intros s Hs. destruct (Hplaced s Hs) as [x Hx].
    destruct (fi_ids _ _ _ _ _ Hst _ x Hx) as (c & Hc & Hk).
    assert (x ≠ DASHBOARD_HEADER_ID) as Hxh.
    { intros ->. by apply (fi_header _ _ _ _ _ Hst c Hc), Hk. }
    specialize (Hget x Hxh). rewrite Hc in Hget. destruct (aget x r) as [c'|] eqn:Hc'; [|done].
    injection Hget as _ Ht _ Em. exists x, c'. split; [done|].
    unfold chart_of, chart_id in *. rewrite Em, Ht. split; [done|]. intros Hnd.
    destruct (Hnamed Hnd s Hs) as (x2 & c2 & m2 & Hx2 & Hc2 & Hm2 & Hn2).
    rewrite Hx in Hx2. injection Hx2 as <-. rewrite Hc in Hc2. injection Hc2 as <-. by rewrite Hm2.
  - intros x c Hx. destruct (fi_place _ _ _ _ _ Hst x c Hx) as (c' & ns & Hc' & Hkc & Hns).
    destruct (decide (x = DASHBOARD_HEADER_ID)) as [->|Hxh].
    + assert (kids c' = []) as E.
      { destruct (kids c') as [|y ys] eqn:Ek; [done|]. exfalso. destruct (header_alone st Hst y) as [_ Hh].
        apply Hh. exists c'. rewrite Ek. split; [done|left]. }
      exists (header_component title), ns. unfold r. rewrite aget_oset_eq, <- Hkc, E. done.
    + specialize (Hget x Hxh). rewrite Hc' in Hget. destruct (aget x r) as [c2|]; [|done].
      injection Hget as _ _ Ek _. exists c2, ns. split; [done|]. split; [|done]. rewrite <- Hkc.
      unfold kids. by rewrite Ek.
  - intros x y Hxy. by apply Hchild, (fi_child _ _ _ _ _ Hst).
  - intros x y Hxy%Hchild. by apply (fi_new _ _ _ _ _ Hst).
  - intros n c Hc.
    assert (row n ≠ DASHBOARD_HEADER_ID) as Hn by apply not_eq_sym, (header_not_new nanoid n EmptyString).
    specialize (Hget _ Hn). unfold row in Hget. rewrite Hc in Hget.
    destruct (aget (uuid nanoid n ROW_TYPE) (fl_layout st)) as [c'|] eqn:Hc'; [|done].
    injection Hget as _ _ Ek _. destruct (fi_rows _ _ _ _ _ Hst n c' Hc') as [Hlen Hne].
    unfold kids in *. rewrite Ek. split; [|done].
    destruct (default [] (c_children c')); [by destruct (Hne eq_refl)|cbn; lia].
  - intros key x c He. apply (fi_explore _ _ _ _ _ Hst).
    specialize (Hget (explore_id key 1)). rewrite <- (fmap_is_Some skeleton), <- Hget, fmap_is_Some; [done|].
    apply not_eq_sym, (header_not_new nanoid 0 key).
  - intros Hv x Hx y Hxy. assert (path_ok m x) as Hp.
    { apply (Hpath Hv). eapply rtc_subrel; [|exact Hx]. intros a b. apply Hchild. }
    apply Hch2 in Hxy as Hmxy. destruct (Hp y Hmxy) as (cx & cy & Hcx & Hcy & E). exists cx, cy.
    unfold r. destruct (header_alone st Hst x) as [Hh1 _], (header_alone st Hst y) as [_ Hh2].
    rewrite !aget_oset_ne; [done|..]; intros ->; [by apply Hh1, Hchild|]. 
    by destruct (header_alone st Hst y) as [_ ?]; apply Hchild in Hxy.
Qed.
End hydration.
