(* ===== verification/LayoutExamples.v ===== *)
(** * A sample dashboard

    A layout with a chart in a row and tabs within tabs, an executable check of
    well-formedness for layouts that list parents before children, and the
    theorems on the layout reducer at this layout. *)

From Stdlib Require Import Ascii String.
From stdpp Require Import base strings option numbers list sets relations.
From S2P Require Import Prelude JsObject JsNumber JsValue Layout LayoutFacts LayoutReducer.
From S2P Require Import LayoutReducerFacts LayoutMoveFacts LayoutTabsFacts.
From S2P Require Import LayoutParentsFacts LayoutReach LayoutDrop LayoutHydrate LayoutHydrateFacts.

(** ** An executable check *)

(** The position of a key. *)
Fixpoint position (x : string) (xs : list string) : nat :=
  match xs with
  | [] => 0
  | y :: xs => if bool_decide (x = y) then 0 else S (position x xs)
  end.

Definition wf_check (l : components) : bool :=
  bool_decide (NoDup (akeys l)) &&
  forallb (λ kc, bool_decide (c_id kc.2 = kc.1)) l &&
  bool_decide (NoDup (concat ((λ kc, kids kc.2) <$> l))) &&
  forallb (λ kc, forallb (λ y, bool_decide (y ∈ akeys l) &&
                               (position kc.1 (akeys l) <? position y (akeys l))) (kids kc.2)) l.

Lemma forallb_aget {V} (f : string * V → bool) l x c :
  forallb f l = true → aget x l = Some c → f (x, c) = true.
Proof.
  intros H Hc. rewrite forallb_forall in H. by apply H, list_elem_of_In, aget_Some_elem.
Qed.

Lemma NoDup_concat_unique (l : components) x1 x2 c1 c2 y :
  NoDup (concat ((λ kc, kids kc.2) <$> l)) →
  (x1, c1) ∈ l → (x2, c2) ∈ l → y ∈ kids c1 → y ∈ kids c2 → x1 = x2.
Proof.
  induction l as [|[x c] l IH]; [by intros _ ?%elem_of_nil|]. cbn [fmap list_fmap concat].
  intros (_ & Hd & Hn)%NoDup_app H1 H2 Hy1 Hy2.
  assert (∀ x c, (x, c) ∈ l → y ∈ kids c → y ∈ concat ((λ kc, kids kc.2) <$> l)) as Hin.
  { intros x' c' Hl Hy. apply list_elem_of_In, in_concat. exists (kids c'). split; apply list_elem_of_In; [|done].
    apply list_elem_of_fmap. by exists (x', c'). }
  apply elem_of_cons in H1 as [[= -> ->]|H1], H2 as [[= -> ->]|H2].
  - done.
  - destruct (Hd y Hy1). by eapply Hin.
  - destruct (Hd y Hy2). by eapply Hin.
  - by apply IH.
Qed.

Lemma NoDup_concat_each (l : components) x c :
  NoDup (concat ((λ kc, kids kc.2) <$> l)) → (x, c) ∈ l → NoDup (kids c).
Proof.
  induction l as [|[x' c'] l IH]; [by intros _ ?%elem_of_nil|]. cbn [fmap list_fmap concat].
  intros (H & _ & Hn)%NoDup_app [[= -> ->]|Hin]%elem_of_cons; [done|by apply IH].
Qed.

Lemma wf_check_wf l : wf_check l = true → wf l.
Proof.
  unfold wf_check. intros [[[Hk%bool_decide_eq_true Hi]%andb_true_iff
    Hn%bool_decide_eq_true]%andb_true_iff Hp]%andb_true_iff.
  assert (∀ x y, child l x y → y ∈ akeys l ∧ position x (akeys l) < position y (akeys l)) as Hc.
  { intros x y (c & Hc & Hy). pose proof (forallb_aget _ _ _ _ Hp Hc) as H. cbn in H.
    rewrite forallb_forall in H. apply list_elem_of_In, H in Hy.
    apply andb_true_iff in Hy as [?%bool_decide_eq_true ?%Nat.ltb_lt]. done. }
  assert (∀ x y, tc (child l) x y → position x (akeys l) < position y (akeys l)) as Ht.
  { intros x y. induction 1 as [x y H|x z y H _ IH]; apply Hc in H; lia. }
  split; [done|..].
  - intros x c Hx. pose proof (forallb_aget _ _ _ _ Hi Hx) as H. by apply bool_decide_eq_true in H.
  - intros x y Hxy. apply aget_is_Some. by apply (Hc x).
  - intros x c Hx. eapply NoDup_concat_each; [done|by apply aget_Some_elem].
  - intros x1 x2 y (c1 & H1 & Hy1) (c2 & H2 & Hy2).
    eapply NoDup_concat_unique; [done|by apply aget_Some_elem..|done|done].
  - intros x Hx%Ht. lia.
Qed.

(** ** Fresh ids *)

(** Ids that end in [a] and a number of [b]s. *)
Fixpoint sample_id (n : nat) : string :=
  match n with 0 => "a" | S n => sample_id n +:+ "b" end.

Fixpoint last_char (s : string) : option ascii :=
  match s with
  | EmptyString => None
  | String c EmptyString => Some c
  | String _ s => last_char s
  end.

Lemma snoc_inj (s s' : string) c c' :
  s +:+ String c EmptyString = s' +:+ String c' EmptyString → s = s' ∧ c = c'.
Proof.
  revert s'. induction s as [|x s IH]; intros [|x' s'] H; cbn in H.
  - injection H as ->. done.
  - injection H as _ H. by destruct s'.
  - injection H as _ H. by destruct s.
  - injection H as -> H. apply IH in H as [-> ->]. done.
Qed.

Lemma last_char_snoc s c : last_char (s +:+ String c EmptyString) = Some c.
Proof. induction s as [|x s IH]; [done|]. cbn. destruct s; [done|exact IH]. Qed.

Lemma uuid_S n type : uuid sample_id (S n) type = uuid sample_id n type +:+ "b".
Proof. unfold uuid. cbn [sample_id]. by rewrite !string_app_assoc. Qed.

Lemma uuid_0 type : uuid sample_id 0 type = (type +:+ "-") +:+ "a".
Proof. unfold uuid. cbn [sample_id]. by rewrite string_app_assoc. Qed.

Lemma sample_id_inj n n' type type' :
  uuid sample_id n type = uuid sample_id n' type' → n = n'.
Proof.
  revert n'. induction n as [|n IH]; intros [|n']; rewrite ?uuid_S, ?uuid_0; try done;
    intros H%snoc_inj; destruct H as [H ?]; [done..|]. f_equal. by apply IH.
Qed.

Lemma sample_fresh l :
  forallb (λ x, negb (bool_decide (last_char x ∈ [Some "a"; Some "b"]%char))) (akeys l) = true →
  fresh_ids sample_id l.
Proof.
  intros H. split; [|intros; by eapply sample_id_inj]. intros n type. apply aget_None. intros Hin.
  rewrite forallb_forall in H. apply list_elem_of_In, H, negb_true_iff, bool_decide_eq_false in Hin.
  apply Hin. destruct n; rewrite ?uuid_S, ?uuid_0, last_char_snoc; set_solver.
Qed.

(** ** The sample *)

Definition sample_component (id type : string) (children : list string) : string * component :=
  (id, {| c_id := id; c_type := type; c_children := Some children; c_parents := None;
          c_meta := Some (if bool_decide (type = CHART_TYPE) then [("width", GRID_DEFAULT_CHART_WIDTH)]
                          else []) |}).

Definition sample : components :=
  [sample_component DASHBOARD_ROOT_ID DASHBOARD_ROOT_TYPE [DASHBOARD_GRID_ID];
   sample_component DASHBOARD_GRID_ID DASHBOARD_GRID_TYPE ["ROW-1"; "TABS-1"];
   sample_component DASHBOARD_HEADER_ID HEADER_TYPE [];
   sample_component "ROW-1" ROW_TYPE ["CHART-1"; "CHART-2"];
   sample_component "CHART-1" CHART_TYPE [];
   sample_component "CHART-2" CHART_TYPE [];
   sample_component "TABS-1" TABS_TYPE ["TAB-1"];
   sample_component "TAB-1" TAB_TYPE ["TABS-2"];
   sample_component "TABS-2" TABS_TYPE ["TAB-2"];
   sample_component "TAB-2" TAB_TYPE []].

Definition sample_at (id : string) : component :=
  default (sample_component id id []).2 (aget id sample).

Lemma sample_wf : wf sample.
Proof. apply wf_check_wf. vm_compute. reflexivity. Qed.

Lemma sample_ids : fresh_ids sample_id sample.
Proof. apply sample_fresh. vm_compute. reflexivity. Qed.

Lemma sample_child x y : bool_decide (y ∈ kids (sample_at x)) && ahas x sample = true → child sample x y.
Proof.
  intros [H%bool_decide_eq_true Hx%ahas_spec%aget_is_Some]%andb_true_iff.
  destruct Hx as [c Hc]. exists c. split; [done|]. unfold sample_at in H. by rewrite Hc in H.
Qed.

Definition sample_end (id type : string) (index : Z) : drop_end :=
  {| de_id := id; de_type := type; de_index := index |}.

Definition sample_dragged (id type : string) : dragged :=
  {| dg_id := id; dg_type := type; dg_meta := None |}.

Lemma delete_component_removes_witness :
  let r := delete_component "CHART-1" (Some "ROW-1") sample in
  wf r ∧
  ∃ root,
    (root = "CHART-1" ∧ ¬ only_child_of_row sample "ROW-1" "CHART-1" ∨
     root = "ROW-1" ∧ only_child_of_row sample "ROW-1" "CHART-1") ∧
    (∀ x, rtc (child sample) root x → aget x r = None) ∧
    (∀ x, ¬ rtc (child sample) root x → aget x r = without root <$> aget x sample).
Proof.
  apply (delete_component_removes sample "ROW-1" "CHART-1");
    [exact sample_wf|apply sample_child; reflexivity|discriminate..].
Defined.

(** A chart is dragged out of its row. *)
Lemma sample_move :
  move_ok sample (sample_end "ROW-1" ROW_TYPE 0) (sample_end DASHBOARD_GRID_ID DASHBOARD_GRID_TYPE 1)
    (sample_dragged "CHART-1" CHART_TYPE).
Proof.
  split.
  - eexists _, _. split; [reflexivity|]. split; reflexivity.
  - eexists _, _. split; [reflexivity|]. split; [reflexivity|]. split; cbn; [lia|discriminate].
  - intros _ Hr. apply rtc_inv in Hr as [Hr|(z & (c & Hc & Hz) & _)]; [discriminate|].
    injection Hc as <-. by apply elem_of_nil in Hz.
  - eexists _, _. split; reflexivity.
Qed.

Lemma move_component_reparents_witness :
  let s := sample_end "ROW-1" ROW_TYPE 0 in
  let d := sample_end DASHBOARD_GRID_ID DASHBOARD_GRID_TYPE 1 in
  let g := sample_dragged "CHART-1" CHART_TYPE in
  let p := uuid sample_id 1 ROW_TYPE in
  ∃ r, move_component sample_id id (drop_of s d g None) sample = Ok r ∧ wf r ∧
       (true = true → aget p sample = None) ∧
       ∀ x y, child r x y ↔ x = p ∧ y = "CHART-1" ∨ child sample x y ∧ y ≠ "CHART-1" ∨
                            true = true ∧ x = DASHBOARD_GRID_ID ∧ y = p.
Proof.
  intros s d g p. apply (move_component_reparents sample_id id sample s d g None).
  - exact sample_wf.
  - reflexivity.
  - exact sample_ids.
  - exact sample_move.
Defined.

Lemma sample_grid :
  grid_layout sample (sample_at DASHBOARD_ROOT_ID) (sample_at DASHBOARD_GRID_ID) ["ROW-1"; "TABS-1"].
Proof. split; [exact sample_wf|reflexivity..]. Qed.

Lemma top_level_tabs_roundtrip_witness :
  ∃ r1 r2,
    create_top_level_tabs sample_id id
      (drop_of (sample_end NEW_COMPONENTS_SOURCE_ID EmptyString 0)
         (sample_end DASHBOARD_ROOT_ID DASHBOARD_ROOT_TYPE 0)
         (sample_dragged "NEW_TABS_ID" TABS_TYPE) None) sample = Ok r1 ∧
    (∀ y, child r1 (uuid sample_id 2 TAB_TYPE) y ↔ child sample DASHBOARD_GRID_ID y) ∧
    delete_top_level_tabs r1 = Ok r2 ∧
    entries_eq r2 sample.
Proof.
  apply (top_level_tabs_roundtrip sample_id id sample _ _ _ 0 (sample_dragged "NEW_TABS_ID" TABS_TYPE)
    None sample_grid sample_ids eq_refl).
Defined.

Lemma update_parents_list_paths_witness :
  (∃ r, update_parents_list sample = Ok r ∧ same_skeleton sample r ∧ wf r ∧
        aget DASHBOARD_ROOT_ID r = Some (sample_at DASHBOARD_ROOT_ID) ∧
        (∀ x, rtc (child sample) DASHBOARD_ROOT_ID x → path_ok r x) ∧
        (∀ x, ¬ rtc (child sample) DASHBOARD_ROOT_ID x → aget x r = aget x sample)) ∧
  layoutOnlyReducer sample_id id sample UPDATE_COMPONENTS_PARENTS_LIST = Ok sample ∧
  layoutOnlyReducer sample_id id sample (DASHBOARD_TITLE_CHANGED JUndef) = Ok sample.
Proof. apply update_parents_list_paths; [exact sample_wf|reflexivity]. Defined.

(** The nested tabs end up below themselves. *)
Lemma top_level_tabs_existing_witness :
  ∃ r, create_top_level_tabs sample_id id
         (drop_of (sample_end "TAB-1" TAB_TYPE 0) (sample_end DASHBOARD_ROOT_ID DASHBOARD_ROOT_TYPE 0)
            (sample_dragged "TABS-2" TABS_TYPE) None) sample = Ok r ∧
       child r DASHBOARD_ROOT_ID "TABS-2" ∧
       (wf r ↔ child sample DASHBOARD_GRID_ID "TABS-2") ∧
       (¬ child sample DASHBOARD_GRID_ID "TABS-2" → tc (child r) "TABS-2" "TABS-2").
Proof.
  apply (top_level_tabs_existing sample_id id sample (sample_end "TAB-1" TAB_TYPE 0)
    (sample_end DASHBOARD_ROOT_ID DASHBOARD_ROOT_TYPE 0) (sample_dragged "TABS-2" TABS_TYPE) None
    (sample_at DASHBOARD_ROOT_ID) (sample_at DASHBOARD_GRID_ID) (sample_at "TABS-2") (sample_at "TAB-2")
    DASHBOARD_GRID_ID "TAB-2" ["ROW-1"; "TABS-1"] []); try reflexivity.
  - exact sample_wf.
  - discriminate.
  - apply tc_l with "TABS-1"; [apply sample_child; reflexivity|].
    apply tc_l with "TAB-1"; [apply sample_child; reflexivity|].
    apply tc_once, sample_child. reflexivity.
Defined.

Lemma layout_reachable_wf_witness :
  let r := delete_component "CHART-1" (Some "ROW-1") sample in
  wf r ∧ ∀ nanoid a, valid_action nanoid r a → ∃ r', layoutReducer nanoid id r a = Ok r'.
Proof.
  apply (layout_reachable_wf id sample); [exact sample_wf|]. apply rtc_once.
  apply (layout_step_intro _ _ _ sample_id (DELETE_COMPONENT "CHART-1" (Some "ROW-1"))); [|reflexivity].
  apply va_delete, sample_child. reflexivity.
Defined.

(** ** Drops and loading *)

Definition sample_store : store :=
  {| present := sample; hasUnsavedChanges := false; dashboardFilters := []; log := [] |}.

Lemma handleComponentDrop_safe_witness :
  let drop := drop_of (sample_end "ROW-1" ROW_TYPE 0)
                (sample_end DASHBOARD_GRID_ID DASHBOARD_GRID_TYPE 1)
                (sample_dragged "CHART-1" CHART_TYPE) None in
  ∃ r, handleComponentDrop sample_id id drop sample_store = Ok r ∧ wf (present r) ∧
       (present r ≠ sample → hasUnsavedChanges r = true) ∧
       (dropOverflowsParent sample_id id 3 drop sample = Ok true →
          r = record (Warning_toast (no_space id)) sample_store).
Proof.
  intros drop. apply (handleComponentDrop_safe sample_id id sample_store).
  - exact sample_wf.
  - reflexivity.
  - exact sample_ids.
  - apply vd_move; [discriminate|discriminate|exact sample_move].
Defined.

(** The only nested tab is dragged to the outer tabs. *)
Lemma sample_move_tab :
  move_ok sample (sample_end "TABS-2" TABS_TYPE 0) (sample_end "TABS-1" TABS_TYPE 1)
    (sample_dragged "TAB-2" TAB_TYPE).
Proof.
  split.
  - eexists _, _. split; [reflexivity|]. split; reflexivity.
  - eexists _, _. split; [reflexivity|]. split; [reflexivity|]. split; cbn; [lia|discriminate].
  - intros _ Hr. apply rtc_inv in Hr as [Hr|(z & (c & Hc & Hz) & _)]; [discriminate|].
    injection Hc as <-. by apply elem_of_nil in Hz.
  - eexists _, _. split; reflexivity.
Qed.

Lemma handleComponentDrop_moves_witness :
  let s := sample_end "TABS-2" TABS_TYPE 0 in
  let d := sample_end "TABS-1" TABS_TYPE 1 in
  let g := sample_dragged "TAB-2" TAB_TYPE in
  ∃ r, handleComponentDrop sample_id id (drop_of s d g None) sample_store = Ok r ∧
       child (present r) "TABS-1" "TAB-2" ∧ aget "TABS-2" (present r) = None.
Proof.
  intros s d g.
  destruct (handleComponentDrop_moves sample_id id sample_store s d g None) as (r & Hr & _ & _ & Hc & _).
  - exact sample_wf.
  - reflexivity.
  - reflexivity.
  - exact sample_ids.
  - exact sample_move_tab.
  - vm_compute. reflexivity.
  - vm_compute. reflexivity.
  - discriminate.
  - discriminate.
  - discriminate.
  - exists r. split; [exact Hr|]. split; [exact Hc|].
    vm_compute in Hr. injection Hr as <-. reflexivity.
Defined.

Lemma sample_stored : stored_ok sample_id sample DASHBOARD_GRID_ID.
Proof.
  split.
  - exact sample_wf.
  - reflexivity.
  - vm_compute. reflexivity.
  - eexists _, _. split; reflexivity.
  - intros x c Hc _. pose proof (forallb_aget (λ kc, bool_decide (c_meta kc.2 ≠ None)) sample x c eq_refl Hc) as H.
    apply bool_decide_eq_true in H. destruct (c_meta c) eqn:E; [by eexists|]. by destruct H.
  - intros x. split; intros (c & Hc & Hx); [|by injection Hc as <-; apply elem_of_nil in Hx].
    pose proof (forallb_aget (λ kc, bool_decide (DASHBOARD_HEADER_ID ∉ kids kc.2)) sample x c eq_refl Hc) as H.
    by apply bool_decide_eq_true in H.
  - by intros c [= <-].
  - exact sample_ids.
  - reflexivity.
Qed.

(** Two charts are loaded that the layout does not contain. *)
Lemma hydrate_layout_complete_witness :
  let charts := [{| slice_id := 7; slice_name := JStr "a" |}; {| slice_id := 8; slice_name := JStr "b" |}] in
  ∃ r, hydrate_layout sample_id id (Some (sample, true)) charts (JStr "title") = Ok r ∧ wf r ∧
    ∀ s, s ∈ charts → ∃ x c, aget x r = Some c ∧ chart_of (key_of s) c.
Proof.
  intros charts.
  destruct (hydrate_layout_complete sample_id id sample DASHBOARD_GRID_ID sample_stored charts true
              (JStr "title")) as (r & Hr & Hw & Hc & _).
  exists r. split; [exact Hr|]. split; [exact Hw|]. intros s Hs.
  destruct (Hc s Hs) as (x & c & Hx & Hk & _). exists x, c. split; [exact Hx|exact Hk].
Defined.
