(* ===== verification/DashboardState.v ===== *)
(** * The state of a dashboard and its tabs

    [app/dashboard/reducers/dashboardState.js] with all its actions, and
    [findTabsToRestore] and [setActiveTab] of
    [app/dashboard/actions/dashboardState.js]: when the user switches to another
    tab, the tabs that are active inside of the old one become inactive, and
    those inside of the new one that were active before become active again.

    Fields that one action sets and no handler reads are the entries of
    [ds_other].  Sets are lists in the order of insertion.  [now] is the clock. *)

From Stdlib Require Import Ascii String.
From stdpp Require Import base strings option numbers list.
From S2P Require Import Prelude JsObject JsNumber JsValue LayoutReducer.

(** ** Sets *)

(** [new Set(l)] *)
Definition js_set (l : list string) : list string :=
  foldl (λ s x, if bool_decide (x ∈ s) then s else s ++ [x]) [] l.

(** [a.difference(b)], [a.union(b)] *)
Definition set_difference (a b : list string) : list string := filter (λ x, x ∉ b) a.
Definition set_union (a b : list string) : list string := js_set (a ++ b).

Lemma elem_of_js_set x l : x ∈ js_set l ↔ x ∈ l.
Proof.
  unfold js_set. induction l as [|y l IH] using rev_ind; [done|].
  rewrite foldl_app, elem_of_app, list_elem_of_singleton, <- IH. simpl.
  case_bool_decide as Hy; [split; [tauto|]; intros [?| ->]; done|].
  by rewrite elem_of_app, list_elem_of_singleton.
Qed.

Lemma js_set_NoDup l : NoDup (js_set l).
Proof.
  unfold js_set. induction l as [|y l IH] using rev_ind; [constructor|].
  rewrite foldl_app. simpl. case_bool_decide as Hy; [done|].
  apply NoDup_app. split; [done|]. split; [|apply NoDup_singleton].
  by intros x Hx ->%list_elem_of_singleton.
Qed.

Lemma elem_of_set_difference x a b : x ∈ set_difference a b ↔ x ∈ a ∧ x ∉ b.
Proof. unfold set_difference. rewrite list_elem_of_filter. tauto. Qed.

Lemma elem_of_set_union x a b : x ∈ set_union a b ↔ x ∈ a ∨ x ∈ b.
Proof. unfold set_union. by rewrite elem_of_js_set, elem_of_app. Qed.

(** ** The state *)

Record dashboard_state := {
  activeTabs : list string;
  inactiveTabs : list string;
  tabActivationTimes : list (string * jsnum);
  sliceIds : list jsval;
  expandedSlices : jsobj;
  focusedFilterField : option (jsval * jsval);
  ds_other : jsobj;
}.

(** The state a dashboard is loaded with; fields may be missing. *)
Record dashboard_data := {
  d_activeTabs : option (list string);
  d_inactiveTabs : option (list string);
  d_tabActivationTimes : option (list (string * jsnum));
  d_sliceIds : option (list jsval);
  d_expandedSlices : option jsobj;
  d_focusedFilterField : option (option (jsval * jsval));
  d_other : jsobj;
}.

Inductive dashboard_action :=
| HYDRATE_DASHBOARD (data : dashboard_data)
| UPDATE_CSS (css : jsval)
| ADD_SLICE (slice_id : jsval)
| REMOVE_SLICE (sliceId : jsval)
| TOGGLE_FAVE_STAR (isStarred : jsval)
| TOGGLE_PUBLISHED (isPublished : jsval)
| SET_EDIT_MODE (editMode : jsval)
| SET_MAX_UNDO_HISTORY_EXCEEDED (maxUndoHistoryExceeded : jsval)
| SHOW_BUILDER_PANE
| SET_COLOR_SCHEME (colorScheme : jsval)
| SET_DASHBOARD_LABELS_COLORMAP_SYNCABLE
| SET_DASHBOARD_LABELS_COLORMAP_SYNCED
| SET_DASHBOARD_SHARED_LABELS_COLORS_SYNCABLE
| SET_DASHBOARD_SHARED_LABELS_COLORS_SYNCED
| TOGGLE_EXPAND_SLICE (sliceId : jsval)
| ON_CHANGE
| SAVE_DASHBOARD_STARTED
| SAVE_DASHBOARD_FINISHED
| ON_SAVE (lastModifiedTime : jsval)
| SET_UNSAVED_CHANGES (hasUnsavedChanges : jsval)
| SET_REFRESH_FREQUENCY (refreshFrequency isPersistent : jsval)
| ON_REFRESH
| ON_FILTERS_REFRESH
| ON_FILTERS_REFRESH_SUCCESS
| ON_REFRESH_SUCCESS
| SET_DIRECT_PATH (path : jsval)
| SET_ACTIVE_TAB (activeTabs : list string) (prevTabId : option string) (inactiveTabs : list string)
| SET_ACTIVE_TABS (activeTabs : list string)
| SET_OVERRIDE_CONFIRM (overwriteConfirmMetadata : jsval)
| SET_FOCUSED_FILTER_FIELD (chartId column : jsval)
| UNSET_FOCUSED_FILTER_FIELD (chartId column : jsval)
| SET_FULL_SIZE_CHART_ID (chartId : jsval)
| SET_DATASETS_STATUS (status : jsval)
| TOGGLE_NATIVE_FILTERS_BAR (isOpen : jsval).

Section reducer.
Context (now : jsnum).
Implicit Types (st : dashboard_state).

Definition set_other (fields : jsobj) st : dashboard_state :=
  {| activeTabs := activeTabs st; inactiveTabs := inactiveTabs st;
     tabActivationTimes := tabActivationTimes st; sliceIds := sliceIds st;
     expandedSlices := expandedSlices st; focusedFilterField := focusedFilterField st;
     ds_other := ospread (ds_other st) fields |}.

Definition set_sliceIds (ids : list jsval) st : dashboard_state :=
  {| activeTabs := activeTabs st; inactiveTabs := inactiveTabs st;
     tabActivationTimes := tabActivationTimes st; sliceIds := ids;
     expandedSlices := expandedSlices st; focusedFilterField := focusedFilterField st;
     ds_other := ds_other st |}.

Definition set_focused (f : option (jsval * jsval)) st : dashboard_state :=
  {| activeTabs := activeTabs st; inactiveTabs := inactiveTabs st;
     tabActivationTimes := tabActivationTimes st; sliceIds := sliceIds st;
     expandedSlices := expandedSlices st; focusedFilterField := f; ds_other := ds_other st |}.

Definition activated (tabs : list string) (times : list (string * jsnum)) : list (string * jsnum) :=
  foldl (λ times tab, oset tab now times) times tabs.

(** @source app/dashboard/reducers/dashboardState.js 62-74 HYDRATE_DASHBOARD *)
Definition hydrate_dashboard (d : dashboard_data) st : dashboard_state :=
  let active := default (activeTabs st) (d_activeTabs d) in
  {| activeTabs := active;
     inactiveTabs := default (inactiveTabs st) (d_inactiveTabs d);
     tabActivationTimes := activated active (default (tabActivationTimes st) (d_tabActivationTimes d));
     sliceIds := default (sliceIds st) (d_sliceIds d);
     expandedSlices := default (expandedSlices st) (d_expandedSlices d);
     focusedFilterField := default (focusedFilterField st) (d_focusedFilterField d);
     ds_other := ospread (ds_other st) (d_other d) |}.

(** [new Set(values)] of other values than tabs *)
Definition value_set (l : list jsval) : list jsval :=
  foldl (λ s x, if js_includes s x then s else s ++ [x]) [] l.

(** @source app/dashboard/reducers/dashboardState.js 150-159 TOGGLE_EXPAND_SLICE *)
Definition toggle_expand_slice (sliceId : jsval) st : dashboard_state :=
  let id := to_string sliceId in
  {| activeTabs := activeTabs st; inactiveTabs := inactiveTabs st;
     tabActivationTimes := tabActivationTimes st; sliceIds := sliceIds st;
     expandedSlices := if truthy (ofield id (expandedSlices st)) then adel id (expandedSlices st)
                       else oset id (JBool true) (expandedSlices st);
     focusedFilterField := focusedFilterField st; ds_other := ds_other st |}.

(** @source app/dashboard/reducers/dashboardState.js 221-241 SET_ACTIVE_TAB *)
Definition set_active_tab (active : list string) (prevTabId : option string) (inactive : list string)
    st : dashboard_state :=
  let newActiveTabs := set_difference (js_set (activeTabs st)) (inactive ++ option_list prevTabId) in
  let newInactiveTabs := set_union (set_difference (js_set (inactiveTabs st)) active) inactive in
  {| activeTabs := set_union newActiveTabs active;
     inactiveTabs := newInactiveTabs;
     tabActivationTimes := activated active (tabActivationTimes st);
     sliceIds := sliceIds st; expandedSlices := expandedSlices st;
     focusedFilterField := focusedFilterField st; ds_other := ds_other st |}.

(** A field that has lost the focus is unset only when it still has it.

    @source app/dashboard/reducers/dashboardState.js 263-279 UNSET_FOCUSED_FILTER_FIELD *)
Definition unset_focused (chartId column : jsval) st : dashboard_state :=
  match focusedFilterField st with
  | Some (chart, col) =>
      if strict_eq chartId chart && strict_eq column col then set_focused None st else st
  | None => st
  end.

Definition yes : jsval := JBool true.
Definition no : jsval := JBool false.

(** @source app/dashboard/reducers/dashboardState.js 60-304 dashboardStateReducer *)
Definition dashboardStateReducer st (action : dashboard_action) : dashboard_state :=
  match action with
  | HYDRATE_DASHBOARD d => hydrate_dashboard d st
  | UPDATE_CSS css => set_other [("css", css)] st
  | ADD_SLICE id => set_sliceIds (value_set (value_set (sliceIds st) ++ [id])) st
  | REMOVE_SLICE id =>
      set_sliceIds (filter (λ x, js_includes [x] id = false) (value_set (sliceIds st))) st
  | TOGGLE_FAVE_STAR v => set_other [("isStarred", v)] st
  | TOGGLE_PUBLISHED v => set_other [("isPublished", v)] st
  | SET_EDIT_MODE v => set_other [("editMode", v)] st
  | SET_MAX_UNDO_HISTORY_EXCEEDED v => set_other [("maxUndoHistoryExceeded", with_default v yes)] st
  | SHOW_BUILDER_PANE => st
  | SET_COLOR_SCHEME v => set_other [("colorScheme", v); ("updatedColorScheme", yes)] st
  | SET_DASHBOARD_LABELS_COLORMAP_SYNCABLE => set_other [("labelsColorMapMustSync", yes)] st
  | SET_DASHBOARD_LABELS_COLORMAP_SYNCED => set_other [("labelsColorMapMustSync", no)] st
  | SET_DASHBOARD_SHARED_LABELS_COLORS_SYNCABLE => set_other [("sharedLabelsColorsMustSync", yes)] st
  | SET_DASHBOARD_SHARED_LABELS_COLORS_SYNCED => set_other [("sharedLabelsColorsMustSync", no)] st
  | TOGGLE_EXPAND_SLICE id => toggle_expand_slice id st
  | ON_CHANGE => set_other [("hasUnsavedChanges", yes)] st
  | SAVE_DASHBOARD_STARTED => set_other [("dashboardIsSaving", yes)] st
  | SAVE_DASHBOARD_FINISHED => set_other [("dashboardIsSaving", no)] st
  | ON_SAVE time =>
      set_other [("hasUnsavedChanges", no); ("maxUndoHistoryExceeded", no); ("editMode", no);
                 ("updatedColorScheme", no); ("lastModifiedTime", time)] st
  | SET_UNSAVED_CHANGES v => set_other [("hasUnsavedChanges", v)] st
  | SET_REFRESH_FREQUENCY v persistent =>
      set_other [("refreshFrequency", v); ("shouldPersistRefreshFrequency", persistent);
                 ("hasUnsavedChanges", persistent)] st
  | ON_REFRESH => set_other [("isRefreshing", yes); ("lastRefreshTime", JNum now)] st
  | ON_FILTERS_REFRESH => set_other [("isFiltersRefreshing", yes)] st
  | ON_FILTERS_REFRESH_SUCCESS => set_other [("isFiltersRefreshing", no)] st
  | ON_REFRESH_SUCCESS => set_other [("isRefreshing", no)] st
  | SET_DIRECT_PATH v => set_other [("directPathToChild", v); ("directPathLastUpdated", JNum now)] st
  | SET_ACTIVE_TAB active prev inactive => set_active_tab active prev inactive st
  | SET_ACTIVE_TABS active =>
      {| activeTabs := active; inactiveTabs := inactiveTabs st;
         tabActivationTimes := tabActivationTimes st; sliceIds := sliceIds st;
         expandedSlices := expandedSlices st; focusedFilterField := focusedFilterField st;
         ds_other := ds_other st |}
  | SET_OVERRIDE_CONFIRM v => set_other [("overwriteConfirmMetadata", v)] st
  | SET_FOCUSED_FILTER_FIELD chart col => set_focused (Some (chart, col)) st
  | UNSET_FOCUSED_FILTER_FIELD chart col => unset_focused chart col st
  | SET_FULL_SIZE_CHART_ID v => set_other [("fullSizeChartId", v)] st
  | SET_DATASETS_STATUS v => set_other [("datasetsStatus", v)] st
  | TOGGLE_NATIVE_FILTERS_BAR v => set_other [("nativeFiltersBarOpen", v)] st
  end.
End reducer.

(** ** Switching tabs *)

Section tabs.
Context (layout : components).

(** [currentLayout[id]?.parents.f()], [undefined] without the component *)
Definition parents_at {A} (id : string) (f : list string → A) (missing_ : A) : result A :=
  match aget id layout with
  | None => Ok missing_
  | Some c => match c_parents c with
              | Some parents => Ok (f parents)
              | None => Throw (TypeError "Cannot read properties of undefined")
              end
  end.

Definition is_tab_id (id : string) : bool := starts_with "TAB-" id.

(** The innermost tab around a component. *)
Definition nearest_tab (parents : list string) : option string :=
  last (filter (λ id, is_tab_id id = true) parents).

(** The loop takes one step for the tab and one for each restored tab, so that
    one more than there are inactive tabs is enough fuel; [None] stands for a
    loop that has not ended.

    @source app/dashboard/actions/dashboardState.js 679-693 findTabsToRestore (loop) *)
Fixpoint restore_loop (fuel : nat) (prevInactiveTabs queue visited restoredTabs : list string)
    : option (result (list string)) :=
  match queue with
  | [] => Some (Ok restoredTabs)
  | seek :: queue =>
      match fuel with
      | 0 => None
      | S fuel =>
          if bool_decide (seek ∈ visited) then
            restore_loop fuel prevInactiveTabs queue visited restoredTabs
          else
            match filter_result (λ id, parents_at id (λ ps, bool_decide (nearest_tab ps = Some seek)) false)
                    prevInactiveTabs with
            | Throw e => Some (Throw e)
            | Ok found =>
                restore_loop fuel prevInactiveTabs (queue ++ found) (visited ++ [seek]) (restoredTabs ++ found)
            end
      end
  end.

(** The tabs that become active and inactive.

    @source app/dashboard/actions/dashboardState.js 672-707 findTabsToRestore *)
Definition findTabsToRestore (tabId : string) (prevTabId : option string) (st : dashboard_state)
    : option (result (list string * list string)) :=
  restored ← restore_loop (S (length (inactiveTabs st))) (inactiveTabs st) [tabId] [] [];
  Some (
    restoredTabs ← restored;
    inactive ←
      match prevTabId with
      | Some prev =>
          if bool_decide (prev ≠ EmptyString) && bool_decide (tabId ≠ prev) then
            filter_result (λ id,
              if bool_decide (id = prev) then Ok false
              else parents_at id (λ ps, bool_decide (prev ∈ ps)) false) (activeTabs st)
          else Ok []
      | None => Ok []
      end;
    Ok (tabId :: restoredTabs, inactive)).

(** @source app/dashboard/actions/dashboardState.js 709-726 setActiveTab *)
Definition setActiveTab (now : jsnum) (tabId : string) (prevTabId : option string) (st : dashboard_state)
    : option (result dashboard_state) :=
  found ← findTabsToRestore tabId prevTabId st;
  Some (tabs ← found;
        Ok (dashboardStateReducer now st (SET_ACTIVE_TAB tabs.1 prevTabId tabs.2))).
End tabs.
