(* ===== verification/DashboardStateFacts.v ===== *)
(** * The tabs of a dashboard come back as they were

    [findTabsToRestore] always ends and finds the inactive tabs under the chosen
    one.  A set of tabs is settled when it is closed under the enclosing tab;
    switching between the tabs of a container keeps it settled, and switching
    to another tab and back restores both sets. *)

From Stdlib Require Import Ascii String Lia.
From stdpp Require Import base strings option numbers list.
From S2P Require Import Prelude JsObject JsNumber JsValue LayoutReducer DashboardState.

Lemma elem_of_set_active_tab now active prev inactive st x :
  x ∈ activeTabs (set_active_tab now active prev inactive st) ↔
  x ∈ active ∨ (x ∈ activeTabs st ∧ x ∉ inactive ∧ prev ≠ Some x).
Proof.
  simpl. rewrite elem_of_set_union, elem_of_set_difference, elem_of_js_set, elem_of_app.
  destruct prev as [p|]; simpl; [rewrite list_elem_of_singleton|rewrite elem_of_nil]; naive_solver.
Qed.

Lemma elem_of_set_inactive_tab now active prev inactive st x :
  x ∈ inactiveTabs (set_active_tab now active prev inactive st) ↔
  x ∈ inactive ∨ (x ∈ inactiveTabs st ∧ x ∉ active).
Proof.
  simpl. rewrite elem_of_set_union, elem_of_set_difference, elem_of_js_set. tauto.
Qed.

Section layout.
Context (layout : components).
Implicit Types (st : dashboard_state).

Definition path_of (id : string) : list string := default [] (aget id layout ≫= c_parents).

Definition around (id : string) : option string := nearest_tab (path_of id).

(** The paths of the components are those of a tree: the tabs above a component
    are the innermost one and the tabs above that. *)
Record tree_paths : Prop := {
  tp_known : ∀ id c, aget id layout = Some c → is_Some (c_parents c);
  tp_above : ∀ t n p, around t = Some n → is_tab_id p →
    p ∈ path_of t ↔ p = n ∨ p ∈ path_of n;
  tp_shorter : ∀ t n, around t = Some n → length (path_of n) < length (path_of t);
}.

(** The tabs of [tabs] that are inside of [tab], each directly or through others
    of [tabs]. *)
Inductive under (tabs : list string) (tab : string) : string → Prop :=
| under_tab id : id ∈ tabs → around id = Some tab → under tabs tab id
| under_under m id : under tabs tab m → id ∈ tabs → around id = Some m → under tabs tab id.

(** Every tab around an active tab is active, and none around an inactive one. *)
Record settled st : Prop := {
  settled_disjoint : ∀ x, x ∈ activeTabs st → x ∉ inactiveTabs st;
  settled_active : ∀ x n, x ∈ activeTabs st → around x = Some n → n ∈ activeTabs st;
  settled_inactive : ∀ x n, x ∈ inactiveTabs st → around x = Some n → n ∉ activeTabs st;
}.

Lemma under_in tabs t x : under tabs t x → x ∈ tabs.
Proof. by destruct 1. Qed.

Hypothesis paths : tree_paths.

Lemma parents_at_ok id (P : list string → Prop) `{∀ ps, Decision (P ps)} :
  ¬ P [] → parents_at layout id (λ ps, bool_decide (P ps)) false = Ok (bool_decide (P (path_of id))).
Proof.
  intros Hnil. unfold parents_at, path_of. destruct (aget id layout) as [c|] eqn:Hc; simpl.
  - by destruct (tp_known paths _ _ Hc) as [ps ->].
  - by rewrite bool_decide_eq_false_2.
Qed.

Lemma seek_ok tabs seek :
  filter_result (λ id, parents_at layout id (λ ps, bool_decide (nearest_tab ps = Some seek)) false) tabs =
  Ok (filter (λ id, around id = Some seek) tabs).
Proof. apply filter_result_decide. intros x. by apply parents_at_ok. Qed.

(** ** Paths *)

Lemma around_in t n : around t = Some n → n ∈ path_of t ∧ is_tab_id n.
Proof.
  unfold around, nearest_tab. intros H%last_Some. destruct H as [l' H].
  assert (n ∈ filter (λ id, is_tab_id id = true) (path_of t)) as Hn
    by (rewrite H, elem_of_app, list_elem_of_singleton; by right).
  apply list_elem_of_filter in Hn as [Htab Hin]. by rewrite Htab.
Qed.

Lemma around_some t p : is_tab_id p → p ∈ path_of t → is_Some (around t).
Proof.
  intros Hp Hin. unfold around, nearest_tab. apply last_is_Some. intros Hnil.
  apply (not_elem_of_nil p). rewrite <- Hnil, list_elem_of_filter. split; [by apply Is_true_true|done].
Qed.

Lemma above_shorter t p : is_tab_id p → p ∈ path_of t → length (path_of p) < length (path_of t).
Proof.
  intros Hp. induction t as [t IH] using (induction_ltof1 _ (λ t, length (path_of t))).
  unfold ltof in IH. intros Hin.
  destruct (around_some t p Hp Hin) as [n Hn]. pose proof (tp_shorter paths _ _ Hn) as Hlt.
  destruct (proj1 (tp_above paths t n p Hn Hp) Hin) as [-> |Hin']; [done|].
  pose proof (IH n Hlt Hin'). lia.
Qed.

Lemma not_above_self p : is_tab_id p → p ∉ path_of p.
Proof. intros Hp Hin. pose proof (above_shorter _ _ Hp Hin). lia. Qed.

Lemma above_around t n p : around t = Some n → is_tab_id p → p ∈ path_of n → p ∈ path_of t.
Proof. intros Hn Hp Hin. apply (tp_above paths t n p Hn Hp). by right. Qed.

Lemma under_above tabs t x : is_tab_id t → under tabs t x → t ∈ path_of x.
Proof.
  intros Ht. induction 1 as [x Hx Hn|m x _ IH Hx Hn]; [by apply around_in|].
  by eapply above_around.
Qed.

(** Tabs that are closed under the enclosing tab are inside of the tabs on their
    paths. *)
Lemma above_under (tabs : list string) t x :
  is_tab_id t → (∀ y n, y ∈ tabs → around y = Some n → n ∈ tabs) →
  x ∈ tabs → t ∈ path_of x → under (filter (λ y, t ∈ path_of y) tabs) t x.
Proof.
  intros Ht Hclosed. induction x as [x IH] using (induction_ltof1 _ (λ x, length (path_of x))).
  unfold ltof in IH. intros Hx Hin.
  assert (x ∈ filter (λ y, t ∈ path_of y) tabs) as Hf by by rewrite list_elem_of_filter.
  destruct (around_some x t Ht Hin) as [n Hn].
  destruct (decide (n = t)) as [-> |Hne]; [by apply under_tab|].
  destruct (proj1 (tp_above paths x n t Hn Ht) Hin) as [?|Hin']; [by subst|].
  apply under_under with n; [|done..].
  apply IH; [by apply (tp_shorter paths)|by eapply Hclosed|done].
Qed.

(** ** The search *)

(** The steps the search has left: the queue, and the inactive tabs it has not
    found yet. *)
Definition unfound (tabs visited : list string) : list string :=
  filter (λ id, match around id with Some n => bool_decide (n ∉ visited) | None => false end = true) tabs.

Lemma unfound_visit tabs visited seek :
  seek ∉ visited →
  length (unfound tabs (visited ++ [seek])) + length (filter (λ id, around id = Some seek) tabs) =
  length (unfound tabs visited).
Proof.
  intros Hseek. induction tabs as [|id tabs IH]; [done|].
  unfold unfound in *. rewrite !filter_cons.
  destruct (around id) as [n|]; [|repeat case_decide; (congruence || lia)].
  assert (n ∉ visited ++ [seek] ↔ n ∉ visited ∧ n ≠ seek) as Hiff
    by (rewrite elem_of_app, list_elem_of_singleton; tauto).
  rewrite (bool_decide_ext _ _ Hiff).
  repeat case_bool_decide; repeat case_decide; simpl in *; try lia; naive_solver.
Qed.

(** What the search has found so far. *)
Record search_ok (tabs : list string) (tab : string) (queue visited restored : list string) : Prop := {
  search_restored : ∀ x, x ∈ restored ↔ x ∈ tabs ∧ ∃ n, around x = Some n ∧ n ∈ visited;
  search_inside : ∀ x, x ∈ visited ++ queue → x = tab ∨ under tabs tab x;
  search_seen : ∀ x, x = tab ∨ x ∈ restored → x ∈ visited ++ queue;
}.

Lemma search_ok_init tabs tab : search_ok tabs tab [tab] [] [].
Proof.
  split; intros x; [|simpl; rewrite list_elem_of_singleton; by left|].
  - split; [by intros ?%elem_of_nil|]. by intros [_ (n & _ & ?%elem_of_nil)].
  - intros [-> |?%elem_of_nil]; [by left|done].
Qed.

Lemma search_ok_skip tabs tab seek queue visited restored :
  seek ∈ visited → search_ok tabs tab (seek :: queue) visited restored →
  search_ok tabs tab queue visited restored.
Proof.
  intros Hseek [H1 H2 H3]. split; [done| |]; intros x.
  - intros Hx. apply H2. rewrite elem_of_app, elem_of_cons in *. tauto.
  - intros Hx%H3. rewrite elem_of_app, elem_of_cons in *. naive_solver.
Qed.

Lemma search_ok_visit tabs tab seek queue visited restored :
  let found := filter (λ id, around id = Some seek) tabs in
  search_ok tabs tab (seek :: queue) visited restored →
  search_ok tabs tab (queue ++ found) (visited ++ [seek]) (restored ++ found).
Proof.
  intros found [H1 H2 H3]. split; intros x; unfold found.
  - rewrite elem_of_app, H1, list_elem_of_filter.
    assert (∀ n, n ∈ visited ++ [seek] ↔ n ∈ visited ∨ n = seek) as Hiff
      by (intros n; by rewrite elem_of_app, list_elem_of_singleton).
    naive_solver.
  - rewrite !elem_of_app, list_elem_of_singleton, list_elem_of_filter. intros Hx.
    destruct (H2 seek) as [Hs|Hs]; [rewrite elem_of_app, elem_of_cons; tauto| |];
      destruct Hx as [Hx|[Hx|[Hx Hin]]];
      try (apply H2; rewrite elem_of_app, elem_of_cons; tauto); right.
    + apply under_tab; [done|congruence].
    + by apply under_under with seek.
  - rewrite !elem_of_app, list_elem_of_singleton. specialize (H3 x).
    rewrite elem_of_app, elem_of_cons in H3. tauto.
Qed.

Lemma search_ok_done tabs tab visited restored x :
  search_ok tabs tab [] visited restored → x ∈ restored ↔ under tabs tab x.
Proof.
  intros [H1 H2 H3]. rewrite app_nil_r in *. split.
  - intros (Hx & n & Hn & [-> |Hv]%H2)%H1; [by apply under_tab|by apply under_under with n].
  - induction 1 as [x Hx Hn|m x _ IH Hx Hn]; apply H1; split; [done| |done|]; eexists; (split; [done|]);
      apply H3; tauto.
Qed.

Lemma restore_loop_ok tabs tab fuel queue visited restored :
  search_ok tabs tab queue visited restored →
  length queue + length (unfound tabs visited) ≤ fuel →
  ∃ found, restore_loop layout fuel tabs queue visited restored = Some (Ok found) ∧
           ∀ x, x ∈ found ↔ under tabs tab x.
Proof.
  revert queue visited restored. induction fuel as [|fuel IH]; intros queue visited restored Hok Hfuel.
  - destruct queue as [|seek queue]; [|simpl in Hfuel; lia].
    exists restored. split; [done|]. intros x. by eapply search_ok_done.
  - destruct queue as [|seek queue].
    { exists restored. split; [done|]. intros x. by eapply search_ok_done. }
    simpl. case_bool_decide as Hseek.
    + apply IH; [by eapply search_ok_skip|simpl in Hfuel; lia].
    + rewrite seek_ok. apply IH; [by apply search_ok_visit|].
      rewrite length_app. pose proof (unfound_visit tabs visited seek Hseek). simpl in Hfuel. lia.
Qed.

Lemma unfound_length tabs visited : length (unfound tabs visited) ≤ length tabs.
Proof. apply length_filter. Qed.

(** The search ends, and finds the tabs inside of the chosen tab; and the tabs
    that become inactive are the active ones inside of the previous tab. *)
Lemma findTabsToRestore_ok tab prev st :
  is_tab_id prev →
  ∃ restored,
    findTabsToRestore layout tab (Some prev) st =
      Some (Ok (tab :: restored,
                if decide (tab = prev) then []
                else filter (λ id, id ≠ prev ∧ prev ∈ path_of id) (activeTabs st))) ∧
    ∀ x, x ∈ restored ↔ under (inactiveTabs st) tab x.
Proof.
  intros Hprev. destruct (restore_loop_ok (inactiveTabs st) tab (S (length (inactiveTabs st))) [tab] [] [])
    as (found & Hloop & Hfound); [apply search_ok_init| |].
  { pose proof (unfound_length (inactiveTabs st) []). simpl. lia. }
  exists found. split; [|done]. unfold findTabsToRestore. rewrite Hloop. simpl.
  rewrite (bool_decide_eq_true_2 (prev ≠ EmptyString)) by (intros ->; destruct Hprev). simpl.
  destruct (decide (tab = prev)) as [-> |Hne]; [by rewrite bool_decide_eq_false_2 by tauto|].
  rewrite (bool_decide_eq_true_2 (tab ≠ prev)) by done. simpl.
  erewrite (filter_result_decide _ (λ id, id ≠ prev ∧ prev ∈ path_of id)); [done|]. intros x.
  case_bool_decide as Hx; [by rewrite bool_decide_eq_false_2 by naive_solver|].
  rewrite (parents_at_ok x (λ ps, prev ∈ ps)) by (by apply not_elem_of_nil).
  f_equal. apply bool_decide_ext. tauto.
Qed.

(** ** Switching *)

(** What a switch to [tab] from [prev] does to the two sets. *)
Definition switched (tab prev : string) st st' : Prop :=
  (∀ x, x ∈ activeTabs st' ↔
        x = tab ∨ under (inactiveTabs st) tab x ∨
        (x ∈ activeTabs st ∧ x ≠ prev ∧ prev ∉ path_of x)) ∧
  (∀ x, x ∈ inactiveTabs st' ↔
        (x ∈ activeTabs st ∧ prev ∈ path_of x) ∨
        (x ∈ inactiveTabs st ∧ x ≠ tab ∧ ¬ under (inactiveTabs st) tab x)).

Lemma setActiveTab_switched now tab prev st :
  is_tab_id prev → tab ≠ prev →
  ∃ st', setActiveTab layout now tab (Some prev) st = Some (Ok st') ∧ switched tab prev st st'.
Proof.
  intros Hprev Hne. destruct (findTabsToRestore_ok tab prev st Hprev) as (restored & Hfound & Hin).
  rewrite decide_False in Hfound by done. unfold setActiveTab. rewrite Hfound. eexists. split; [done|].
  pose proof (not_above_self prev Hprev) as Hself.
  split; intros x; cbn [fst snd dashboardStateReducer].
  - rewrite elem_of_set_active_tab, elem_of_cons, Hin, list_elem_of_filter.
    destruct (decide (x = prev)) as [-> |]; naive_solver.
  - rewrite elem_of_set_inactive_tab, elem_of_cons, Hin, list_elem_of_filter.
    destruct (decide (x = prev)) as [-> |]; naive_solver.
Qed.

(** The tabs of a container are siblings. *)
Record siblings st (a b : string) : Prop := {
  sib_a : is_tab_id a;
  sib_b : is_tab_id b;
  sib_around : around a = around b;
  sib_active : a ∈ activeTabs st;
  sib_other : b ∉ activeTabs st;
  sib_apart : b ∉ inactiveTabs st;
}.

Lemma sibling_not_above a b : is_tab_id a → around a = around b → a ∉ path_of b.
Proof.
  intros Ha Hsame Hin. destruct (around_some b a Ha Hin) as [n Hn].
  destruct (proj1 (tp_above paths b n a Hn Ha) Hin) as [-> |Habove].
  - rewrite <- Hsame in Hn. pose proof (tp_shorter paths _ _ Hn). lia.
  - rewrite <- Hsame in Hn. pose proof (tp_shorter paths _ _ Hn).
    pose proof (above_shorter _ _ Ha Habove). lia.
Qed.

(** What was active inside of the old tab is inactive and inside of it. *)
Lemma switched_under_prev a b st st1 x :
  settled st → siblings st a b → switched b a st st1 →
  under (inactiveTabs st1) a x ↔ x ∈ activeTabs st ∧ a ∈ path_of x.
Proof.
  intros [Hdis Hact Hinact] [Ha Hb Hsame HaA HbA HbI] [_ HI1]. split.
  - induction 1 as [x [?|[Hx _]]%HI1 Hn|m x _ [IHA IHa] [?|[Hx _]]%HI1 Hn]; [done| |done|].
    + by destruct (Hinact _ _ Hx Hn).
    + by destruct (Hinact _ _ Hx Hn).
  - intros [Hx Hin]. pose proof (above_under _ _ _ Ha Hact Hx Hin) as H.
    clear Hx Hin. induction H as [x [Hin Hx]%list_elem_of_filter Hn|m x _ IH [Hin Hx]%list_elem_of_filter Hn].
    + apply under_tab; [apply HI1; by left|done].
    + apply under_under with m; [done|apply HI1; by left|done].
Qed.

(** What is active inside of the new tab is what was inactive inside of it. *)
Lemma switched_inside_tab a b st st1 x :
  settled st → siblings st a b → switched b a st st1 →
  x ∈ activeTabs st1 ∧ b ∈ path_of x ↔ under (inactiveTabs st) b x.
Proof.
  intros [Hdis Hact Hinact] [Ha Hb Hsame HaA HbA HbI] [HA1 _]. split; [|intros H].
  - intros [[-> |[H|(Hx & _)]]%HA1 Hin]; [by apply not_above_self in Hin|done|].
    exfalso. apply HbA. clear HA1.
    pose proof (above_under _ _ _ Hb Hact Hx Hin) as H.
    clear Hx Hin. induction H as [x [_ Hx]%list_elem_of_filter Hn|]; [by eapply Hact|done].
  - split; [apply HA1; tauto|]. by eapply under_above.
Qed.

Lemma switched_settled a b st st1 :
  settled st → siblings st a b → switched b a st st1 → settled st1.
Proof.
  intros Hst Hsib Hsw. pose proof Hst as [Hdis Hact Hinact].
  pose proof Hsib as [Ha Hb Hsame HaA HbA HbI]. pose proof Hsw as [HA1 HI1].
  split.
  - intros x [-> |[H|(Hx & Hxa & Hin)]]%HA1 [[Hx' Hin']|(Hx' & Hxb & Hn)]%HI1; try done.
    + apply under_in in H. by apply (Hdis x).
    + by apply (Hdis x).
  - intros x n Hx Hn. apply HA1 in Hx as [-> |[H|(Hx & Hxa & Hin)]]; apply HA1.
    + right. right. rewrite <- Hsame in Hn. split; [by eapply Hact|].
      destruct (around_in _ _ Hn) as [_ Hntab]. pose proof (tp_shorter paths _ _ Hn). split.
      * intros ->. lia.
      * intros Hna. pose proof (above_shorter _ _ Ha Hna). lia.
    + destruct H as [x Hx Hn'|m x Hm Hx Hn']; rewrite Hn' in Hn; injection Hn as <-; [by left|].
      right. by left.
    + right. right. split; [by eapply Hact|].
      pose proof (tp_above paths x n a Hn Ha) as Hiff. split; [intros ->|intros Hna]; apply Hin, Hiff; auto.
  - intros x n [[Hx Hin]|(Hx & Hxb & Hu)]%HI1 Hn [-> |[H|(Hn' & Hna & Hnin)]]%HA1.
    + by apply HbA, (Hact x).
    + apply under_in in H. by apply (Hdis n); [apply (Hact x)|].
    + destruct (proj1 (tp_above paths x n a Hn Ha) Hin); by subst.
    + apply Hu. by apply under_tab.
    + apply Hu. by apply under_under with n.
    + by apply (Hinact x n).
Qed.

Lemma switched_siblings a b st st1 :
  settled st → siblings st a b → switched b a st st1 → siblings st1 b a.
Proof.
  intros [Hdis Hact Hinact] [Ha Hb Hsame HaA HbA HbI] [HA1 HI1]. split; try done.
  - apply HA1. by left.
  - intros [-> |[H%under_in|(_ & ? & _)]]%HA1; [done| |done]. by apply (Hdis a).
  - intros [[_ Hin]|[Hin _]]%HI1; [by apply not_above_self in Hin|by apply (Hdis a)].
Qed.

Lemma switched_back a b st st1 st2 :
  settled st → siblings st a b → switched b a st st1 → switched a b st1 st2 →
  (∀ x, x ∈ activeTabs st2 ↔ x ∈ activeTabs st) ∧
  (∀ x, x ∈ inactiveTabs st2 ↔ x ∈ inactiveTabs st).
Proof.
  intros Hst Hsib H1 [HA2 HI2].
  pose proof (switched_under_prev a b st st1) as Hprev.
  pose proof (switched_inside_tab a b st st1) as Htab.
  pose proof Hst as [Hdis Hact Hinact]. pose proof Hsib as [Ha Hb Hsame HaA HbA HbI].
  pose proof H1 as [HA1 HI1]. split; intros x.
  - rewrite HA2, Hprev, HA1 by done. split.
    + intros [-> |[[? _]|([-> |[H|[? _]]] & Hxb & Hnin)]]; [done|done|done| |done].
      by apply under_above in H.
    + intros Hx. destruct (decide (x = a)) as [-> |]; [by left|]. right.
      destruct (decide (a ∈ path_of x)); [by left|]. right. split; [tauto|].
      split; [by intros ->|]. intros Hin.
      pose proof (above_under _ _ _ Hb Hact Hx Hin) as H. apply HbA. clear -H Hact.
      induction H as [x [_ Hx]%list_elem_of_filter Hn|]; [by eapply Hact|done].
  - rewrite HI2, Htab, Hprev, HI1 by done. split.
    + intros [H%under_in|([[? ?]|[? _]] & _ & ?)]; tauto.
    + intros Hx.
      assert (x ≠ a) by (intros ->; by apply (Hdis a)).
      assert (x ≠ b) by (intros ->; done).
      destruct (decide (x ∈ activeTabs st1 ∧ b ∈ path_of x)) as [Hu%Htab|Hu]; [by left|done|done|done|].
      rewrite Htab in Hu by done. right. split; [tauto|]. split; [done|]. intros [Hx' _]. by apply (Hdis x).
Qed.
End layout.

(** ** The round trip *)

(** C18. In a settled dashboard, switching from a tab to another tab of the same
    container always ends without an error and leaves the dashboard settled:
    every tab around an active tab is active, and no inactive tab is directly
    inside of an active one.  Switching back then restores the active tabs and
    the inactive tabs exactly, at every depth of nesting. *)
Theorem tab_switch_roundtrip (layout : components) now1 now2 a b st :
  tree_paths layout → settled layout st → siblings layout st a b →
  ∃ st1 st2,
    setActiveTab layout now1 b (Some a) st = Some (Ok st1) ∧
    settled layout st1 ∧ b ∈ activeTabs st1 ∧ a ∉ activeTabs st1 ∧
    setActiveTab layout now2 a (Some b) st1 = Some (Ok st2) ∧
    (∀ x, x ∈ activeTabs st2 ↔ x ∈ activeTabs st) ∧
    (∀ x, x ∈ inactiveTabs st2 ↔ x ∈ inactiveTabs st).
Proof.
  intros Hpaths Hst Hsib. pose proof Hsib as [Ha Hb _ HaA HbA _].
  assert (b ≠ a) as Hne by (by intros ->).
  destruct (setActiveTab_switched layout Hpaths now1 b a st Ha Hne) as (st1 & Hrun1 & Hsw1).
  destruct (setActiveTab_switched layout Hpaths now2 a b st1 Hb (not_eq_sym Hne)) as (st2 & Hrun2 & Hsw2).
  pose proof (switched_siblings layout Hpaths _ _ _ _ Hst Hsib Hsw1) as [].
  pose proof (switched_settled layout Hpaths _ _ _ _ Hst Hsib Hsw1).
  pose proof (switched_back layout Hpaths _ _ _ _ _ Hst Hsib Hsw1 Hsw2).
  exists st1, st2. tauto.
Qed.

(** Decides [tree_paths]. *)
Definition tree_path_check (layout : components) (id : string) (c : component) : bool :=
  match c_parents c, around layout id with
  | None, _ => false
  | Some _, None => true
  | Some _, Some n =>
      forallb (λ p, implb (is_tab_id p)
                      (eqb (bool_decide (p ∈ path_of layout id))
                           (bool_decide (p = n ∨ p ∈ path_of layout n))))
              (path_of layout id ++ path_of layout n)
      && bool_decide (length (path_of layout n) < length (path_of layout id))
  end.

Lemma tree_path_check_ok layout :
  forallb (λ e, tree_path_check layout e.1 e.2) layout = true → tree_paths layout.
Proof.
  rewrite forallb_forall. intros Hall.
  assert (∀ id c, aget id layout = Some c → tree_path_check layout id c = true) as Hcheck.
  { intros id c Hc. apply (Hall (id, c)). apply list_elem_of_In. by apply aget_Some_elem. }
  assert (∀ t n, around layout t = Some n → ∃ c, aget t layout = Some c) as Hknown.
  { intros t n. unfold around, path_of. destruct (aget t layout); [by eexists|done]. }
  clear Hall. split.
  - intros id c Hc%Hcheck. unfold tree_path_check in Hc. by destruct (c_parents c).
  - intros t n p Hn Hp. destruct (Hknown t n Hn) as [c Hc%Hcheck].
    unfold tree_path_check in Hc. rewrite Hn in Hc. destruct (c_parents c); [|done].
    apply andb_prop in Hc as [Hc _]. rewrite forallb_forall in Hc.
    destruct (around_in layout t n Hn) as [Hin _].
    destruct (decide (p ∈ path_of layout t ++ path_of layout n)) as [Hpin|Hpin];
      [|rewrite elem_of_app in Hpin; naive_solver].
    apply list_elem_of_In, Hc in Hpin. destruct (is_tab_id p); [|done].
    apply eqb_prop in Hpin. do 2 case_bool_decide; naive_solver.
  - intros t n Hn. destruct (Hknown t n Hn) as [c Hc%Hcheck].
    unfold tree_path_check in Hc. rewrite Hn in Hc. destruct (c_parents c); [|done].
    apply andb_prop in Hc as [_ Hc]. by apply bool_decide_eq_true in Hc.
Qed.

Module Multi_depth.
Definition tab (id : string) (parents : list string) : string * component :=
  (id, {| c_id := id; c_type := "TAB"; c_children := None; c_parents := Some parents; c_meta := None |}).

Definition layout : components :=
  [tab "TAB-1" []; tab "TAB-2" [];
   tab "TAB-A" ["TAB-1"; "TABS-1"]; tab "TAB-B" ["TAB-1"; "TABS-1"];
   tab "TAB-__a" ["TAB-1"; "TABS-1"; "TAB-A"; "TABS-A"];
   tab "TAB-__b" ["TAB-1"; "TABS-1"; "TAB-B"; "TABS-B"]].

Definition state : dashboard_state :=
  {| activeTabs := ["TAB-1"; "TAB-B"]; inactiveTabs := ["TAB-__a"]; tabActivationTimes := [];
     sliceIds := []; expandedSlices := []; focusedFilterField := None; ds_other := [] |}.

Lemma layout_paths : tree_paths layout.
Proof. apply tree_path_check_ok. by vm_compute. Qed.

Lemma state_settled : settled layout state.
Proof.
  split; simpl.
  - intros x Hx Hy. revert x Hx Hy. solve_disjoint.
  - intros x n Hx. repeat (apply elem_of_cons in Hx as [-> |Hx]; [vm_compute; intros [= <-] || discriminate|]);
      [by left|by apply elem_of_nil in Hx].
  - intros x n ->%list_elem_of_singleton.
    replace (around layout "TAB-__a") with (Some "TAB-A") by reflexivity.
    intros [= <-]. by apply (bool_decide_unpack _).
Qed.

Lemma state_siblings : siblings layout state "TAB-1" "TAB-2".
Proof. split; by apply (bool_decide_unpack _). Qed.
End Multi_depth.

Lemma tab_switch_roundtrip_witness : ∃ st1 st2,
  setActiveTab Multi_depth.layout (num_of_Z 1) "TAB-2" (Some "TAB-1") Multi_depth.state = Some (Ok st1) ∧
  settled Multi_depth.layout st1 ∧ "TAB-2" ∈ activeTabs st1 ∧ "TAB-1" ∉ activeTabs st1 ∧
  setActiveTab Multi_depth.layout (num_of_Z 2) "TAB-1" (Some "TAB-2") st1 = Some (Ok st2) ∧
  (∀ x, x ∈ activeTabs st2 ↔ x ∈ ["TAB-1"; "TAB-B"]) ∧
  (∀ x, x ∈ inactiveTabs st2 ↔ x ∈ ["TAB-__a"]).
Proof.
  apply (tab_switch_roundtrip Multi_depth.layout (num_of_Z 1) (num_of_Z 2) "TAB-1" "TAB-2" Multi_depth.state).
  - exact Multi_depth.layout_paths.
  - exact Multi_depth.state_settled.
  - exact Multi_depth.state_siblings.
Defined.
