(* ===== verification/DashboardReducers.v ===== *)
(** * The other state of a dashboard, and where a dragged component may land

    The reducers of the slices, of the information about the dashboard and of its
    datasources ([app/dashboard/reducers]), the fields of a filter box, and the
    place next to or in a component where a dragged one is dropped
    ([getDropPosition.js]), with its cache of mouse positions.

    States are objects; [now] is the clock in milliseconds. *)

From Stdlib Require Import Ascii String SpecFloat.
From stdpp Require Import base strings option numbers list.
From S2P Require Import Prelude JsObject JsNumber JsValue JsJson Query Layout LayoutReducer.

(** ** Slices *)

Record slice_entities := {
  se_slices : jsobj;
  se_isLoading : bool;
  se_errorMessage : jsval;
  se_lastUpdated : jsnum;
}.

(** @source app/dashboard/reducers/sliceEntities.js 29-34 initSliceEntities *)
Definition initSliceEntities : slice_entities :=
  {| se_slices := []; se_isLoading := true; se_errorMessage := JNull; se_lastUpdated := num_of_Z 0 |}.

Inductive slices_action :=
| HYDRATE_SLICES (sliceEntities : slice_entities)
| FETCH_ALL_SLICES_STARTED
| ADD_SLICES (slices : jsobj)
| SET_SLICES (slices : jsobj)
| FETCH_ALL_SLICES_FAILED (error : jsval).

(** Replacing the slices also forgets an error: the field is missing then.

    @source app/dashboard/reducers/sliceEntities.js 36-82 sliceEntitiesReducer *)
Definition sliceEntitiesReducer (t : string → string) (now : jsnum) (state : slice_entities)
    (action : slices_action) : slice_entities :=
  match action with
  | HYDRATE_SLICES s => s
  | FETCH_ALL_SLICES_STARTED =>
      {| se_slices := se_slices state; se_isLoading := true; se_errorMessage := se_errorMessage state;
         se_lastUpdated := se_lastUpdated state |}
  | ADD_SLICES slices =>
      {| se_slices := ospread (se_slices state) slices; se_isLoading := false;
         se_errorMessage := se_errorMessage state; se_lastUpdated := now |}
  | SET_SLICES slices =>
      {| se_slices := ospread [] slices; se_isLoading := false; se_errorMessage := JUndef;
         se_lastUpdated := now |}
  | FETCH_ALL_SLICES_FAILED error =>
      {| se_slices := se_slices state; se_isLoading := false;
         se_errorMessage := js_or error (JStr (t "Could not fetch all saved charts"));
         se_lastUpdated := now |}
  end.

(** @source app/dashboard/actions/sliceEntities.ts 32-37 getDatasourceParameter *)
Definition getDatasourceParameter (datasourceId datasourceType : jsval) : string :=
  to_string datasourceId +:+ "__" +:+ to_string datasourceType.

(** The slice that a chart of the server becomes.  [date_parse] gives the
    milliseconds of a date.

    @source app/dashboard/actions/sliceEntities.ts 60-90 parseResult (slice) *)
Definition parse_slice (date_parse : jsval → jsnum) (slice : jsobj) : result jsval :=
  form_data ← match ofield "params" slice with
              | JStr s => JSON_parse s
              | v => JSON_parse (to_string v)
              end;
  let form_data :=
    oset "datasource" (JStr (getDatasourceParameter (ofield "datasource_id" slice) (ofield "datasource_type" slice)))
      (object_entries form_data) in
  Ok (JObj
    [("slice_id", ofield "id" slice);
     ("slice_url", ofield "url" slice);
     ("slice_name", ofield "slice_name" slice);
     ("form_data", JObj form_data);
     ("datasource_name", ofield "datasource_name_text" slice);
     ("datasource_url", ofield "datasource_url" slice);
     ("datasource_id", ofield "datasource_id" slice);
     ("datasource_type", ofield "datasource_type" slice);
     ("changed_on", JNum (date_parse (ofield "changed_on_utc" slice)));
     ("description", ofield "description" slice);
     ("description_markdown", ofield "description_markeddown" slice);
     ("viz_type", ofield "viz_type" slice);
     ("modified", ofield "changed_on_delta_humanized" slice);
     ("changed_on_humanized", ofield "changed_on_delta_humanized" slice);
     ("thumbnail_url", ofield "thumbnail_url" slice);
     ("owners", ofield "owners" slice);
     ("created_by", ofield "created_by" slice)]).

(** @source app/dashboard/actions/sliceEntities.ts 59-91 parseResult *)
Definition parseResult (date_parse : jsval → jsnum) (result_ : list jsobj) : result jsobj :=
  fold_result (λ slices slice,
    v ← parse_slice date_parse slice; Ok (oset (to_string (ofield "id" slice)) v slices)) [] result_.

(** ** Information and datasources *)

Inductive info_action :=
| DASHBOARD_INFO_UPDATED (newInfo : jsobj)
| DASHBOARD_INFO_FILTERS_CHANGED (newInfo : jsval)
| HYDRATE_INFO (dashboardInfo : jsobj)
| SET_FILTER_BAR_ORIENTATION (filterBarOrientation : jsval)
| SET_CROSS_FILTERS_ENABLED (crossFiltersEnabled : jsval)
| SET_DASHBOARD_THEME (theme : jsval).

(** [Math.round(x)] of a finite number below 2^53 *)
Definition Math_round (x : jsnum) : jsnum :=
  num_of_Z (floor_Z (num_add x (num_div (num_of_Z 1) (num_of_Z 2)))).

(** [seconds] is the time of the clock in seconds.

    @source app/dashboard/reducers/dashboardInfo.js 29-73 dashboardStateReducer *)
Definition dashboardInfoReducer (now : jsnum) (state : jsobj) (action : info_action) : jsobj :=
  let seconds := JNum (Math_round (num_div now (num_of_Z 1000))) in
  match action with
  | DASHBOARD_INFO_UPDATED newInfo => oset "last_modified_time" seconds (ospread state newInfo)
  | DASHBOARD_INFO_FILTERS_CHANGED newInfo =>
      oset "last_modified_time" seconds
        (oset "metadata"
           (JObj (oset "native_filter_configuration" newInfo (object_entries (ofield "metadata" state)))) state)
  | HYDRATE_INFO info => ospread state info
  | SET_FILTER_BAR_ORIENTATION v => oset "filterBarOrientation" v state
  | SET_CROSS_FILTERS_ENABLED v => oset "crossFiltersEnabled" v state
  | SET_DASHBOARD_THEME v => oset "last_modified_time" seconds (oset "theme" v state)
  end.

Inductive datasources_action :=
| SetDatasources (datasources : list jsobj)
| SetDatasource (key : string) (datasource : jsval).

(** @source app/dashboard/reducers/datasources.ts 26-43 datasourcesReducer *)
Definition datasourcesReducer (datasources : jsobj) (action : datasources_action) : jsobj :=
  match action with
  | SetDatasources ds =>
      ospread datasources (from_entries ((λ d, (to_string (ofield "uid" d), JObj d)) <$> ds))
  | SetDatasource key d => oset key d datasources
  end.

(** ** The fields of a filter box *)

(** @source app/explore/constants.ts 130-135 TIME_FILTER_LABELS *)
Definition TIME_FILTER_LABELS (t : string → string) : list (string * string) :=
  [("time_range", t "Time range"); ("granularity_sqla", t "Time column");
   ("time_grain_sqla", t "Time grain"); ("granularity", t "Time granularity")].

(** @source app/explore/constants.ts 151-156 TIME_FILTER_MAP *)
Definition TIME_FILTER_MAP : list (string * string) :=
  [("time_range", "__time_range"); ("granularity_sqla", "__time_col");
   ("time_grain_sqla", "__time_grain"); ("granularity", "__granularity")].

(** The default of one field: several values are separated by semicolons.

    @source app/dashboard/util/getFilterConfigsFromFormdata.js 34-62 getFilterConfigsFromFormdata (config) *)
Definition add_filter_config (acc : jsobj * jsobj) (config : jsobj) : jsobj * jsobj :=
  let column := to_string (ofield "column" config) in
  let given := ofield "defaultValue" config in
  let defaultValues := if is_str given EmptyString then JNull else given in
  let defaultValues :=
    if truthy defaultValues && truthy (ofield "multiple" config)
    then JArr (JStr <$> split ";" (to_string given)) else defaultValues in
  (oset column (js_or (ofield "vals" config) defaultValues) acc.1,
   oset column (ofield "label" config) acc.2).

(** The columns with their values, and the labels.

    @source app/dashboard/util/getFilterConfigsFromFormdata.js 26-102 getFilterConfigsFromFormdata *)
Definition getFilterConfigsFromFormdata (t : string → string) (form_data : jsobj) (filter_configs : list jsobj)
    : jsobj * jsobj :=
  let '(columns, labels) := foldl add_filter_config ([], []) filter_configs in
  if truthy (ofield "date_filter" form_data) then
    let column k cols := oset (default EmptyString (aget k TIME_FILTER_MAP)) (ofield k form_data) cols in
    let columns := column "time_range" columns in
    let columns := if truthy (ofield "show_sqla_time_granularity" form_data)
                   then column "time_grain_sqla" columns else columns in
    let columns := if truthy (ofield "show_sqla_time_column" form_data)
                   then column "granularity_sqla" columns else columns in
    let time_labels :=
      (λ kv, (kv.2, JStr (default EmptyString (aget kv.1 (TIME_FILTER_LABELS t))))) <$> TIME_FILTER_MAP in
    (columns, ospread labels (from_entries time_labels))
  else (columns, labels).

(** ** Where a component is dropped *)

(** @source app/dashboard/util/getDropPosition.js 22-26 DROP_TOP *)
Inductive drop_position := Top | Right | Bottom | Left | Forbidden.

(** @source app/dashboard/util/getDropPosition.js 28-31 SIBLING_DROP_THRESHOLD *)
Definition SIBLING_DROP_THRESHOLD : jsnum := num_of_Z 20.
Definition NON_SHALLOW_DROP_THRESHOLD : jsnum := num_of_Z 20.

Record point := { pt_x : jsnum; pt_y : jsnum }.
Record rect := { r_top : jsnum; r_bottom : jsnum; r_left : jsnum; r_right : jsnum }.

(** The component that is dragged over, and what is dragged; [None] when there
    is nothing. *)
Record hovered := {
  hv_component : component;
  hv_parent : option component;
  hv_depth : Z;
  hv_row : bool;
  hv_shallow : bool;
  hv_rect : option rect;
}.

(** What is dragged, and where the mouse is. *)
Record monitor := {
  mo_item : option (string * string);
  mo_offset : option point;
}.

Definition num_abs (x : jsnum) : jsnum := SFabs x.

Definition is_valid_child (h : hovered) (type : string) : bool :=
  isValidChild (c_type (hv_component h)) type (Some (hv_depth h)).

Definition is_valid_sibling (h : hovered) (type : string) : bool :=
  match hv_parent h with
  | Some p =>
      isValidChild (c_type p) type
        (Some (hv_depth h + (if bool_decide (c_type p = TAB_TYPE ∨ c_type p = TABS_TYPE) then 0 else -1))%Z)
  | None => false
  end.

(** @source app/dashboard/util/getDropPosition.js 79-91 getDropPosition (child) *)
Definition as_child (h : hovered) : drop_position :=
  let hasChildren := bool_decide (kids (hv_component h) ≠ []) in
  if hv_row h then (if hasChildren then Right else Left)
  else (if hasChildren then Bottom else Top).

(** @source app/dashboard/util/getDropPosition.js 126-137 getDropPosition (half) *)
Definition by_half (h : hovered) (at_ : point) (r : rect) : drop_position :=
  let middle a b := num_add a (num_div (num_sub b a) (num_of_Z 2)) in
  if hv_row h then (if num_ltb (pt_y at_) (middle (r_top r) (r_bottom r)) then Top else Bottom)
  else (if num_ltb (pt_x at_) (middle (r_left r) (r_right r)) then Left else Right).

(** Near the edge, as a sibling, otherwise as a child.

    @source app/dashboard/util/getDropPosition.js 139-155 getDropPosition (edge) *)
Definition by_edge (h : hovered) (deltaTop deltaBottom deltaLeft deltaRight : jsnum) : drop_position :=
  if hv_row h then
    if num_ltb deltaTop SIBLING_DROP_THRESHOLD then Top
    else if num_ltb deltaBottom SIBLING_DROP_THRESHOLD then Bottom else as_child h
  else
    if num_ltb deltaLeft SIBLING_DROP_THRESHOLD then Left
    else if num_ltb deltaRight SIBLING_DROP_THRESHOLD then Right else as_child h.

(** The mouse position is kept for each component, since it is not known any
    more when the mouse is released.

    @source app/dashboard/util/getDropPosition.js 42-158 getDropPosition *)
Definition getDropPosition (m : monitor) (h : hovered) (cache : list (string * point))
    : option drop_position * list (string * point) :=
  match mo_item m with
  | None => (None, cache)
  | Some (id, type) =>
      if bool_decide (id = c_id (hv_component h)) then (None, cache)
      else
        let validChild := is_valid_child h type in
        let validSibling := is_valid_sibling h type in
        if negb validChild && negb validSibling then (Some Forbidden, cache)
        else if validChild && negb validSibling then (Some (as_child h), cache)
        else
          let key := c_id (hv_component h) in
          let offset := match mo_offset m with Some p => Some p | None => aget key cache end in
          match offset, hv_rect h with
          | Some p, Some r =>
              let cache := oset key p cache in
              let deltaTop := num_abs (num_sub (pt_y p) (r_top r)) in
              let deltaBottom := num_abs (num_sub (pt_y p) (r_bottom r)) in
              let deltaLeft := num_abs (num_sub (pt_x p) (r_left r)) in
              let deltaRight := num_abs (num_sub (pt_x p) (r_right r)) in
              if negb (hv_shallow h) &&
                 forallb (num_ltb NON_SHALLOW_DROP_THRESHOLD) [deltaTop; deltaBottom; deltaLeft; deltaRight]
              then (None, cache)
              else if validChild then (Some (by_edge h deltaTop deltaBottom deltaLeft deltaRight), cache)
              else (Some (by_half h p r), cache)
          | _, _ => (None, cache)
          end
  end.

(** The edges of a component where a sibling can land: those along which its
    container is laid out. *)
Definition sibling_edge (h : hovered) (p : drop_position) : Prop :=
  if hv_row h then p = Top ∨ p = Bottom else p = Left ∨ p = Right.

Lemma getDropPosition_item m h cache p cache' :
  getDropPosition m h cache = (Some p, cache') →
  ∃ id type, mo_item m = Some (id, type) ∧ id ≠ c_id (hv_component h).
Proof.
  unfold getDropPosition. destruct (mo_item m) as [[id type]|]; [|done].
  case_bool_decide; [done|]. by exists id, type.
Qed.

(** A component is refused exactly where it may stand neither in the component
    below the mouse nor next to it; and wherever a place is shown, it is the place
    of a child that is valid or that of a valid sibling. *)
Theorem getDropPosition_valid m h cache p cache' id type :
  getDropPosition m h cache = (Some p, cache') → mo_item m = Some (id, type) →
  (p = Forbidden ↔ is_valid_child h type = false ∧ is_valid_sibling h type = false) ∧
  (p ≠ Forbidden →
     is_valid_child h type = true ∧ p = as_child h ∨
     is_valid_sibling h type = true ∧ sibling_edge h p).
Proof.
  intros Hrun Hitem. unfold getDropPosition in Hrun. rewrite Hitem in Hrun. case_bool_decide; [done|].
  assert (∀ h, as_child h ≠ Forbidden) as Hchild.
  { intros h'. unfold as_child. repeat case_match; done. }
  unfold sibling_edge.
  destruct (is_valid_child h type), (is_valid_sibling h type); simpl in Hrun; simplify_eq; try naive_solver;
    (destruct (match mo_offset m with Some _ => _ | None => _ end) as [q|]; [|done]);
    (destruct (hv_rect h) as [r|]; [|done]);
    match type of Hrun with (if ?b then _ else _) = _ => destruct b; [done|] end;
    injection Hrun as <- <-; unfold by_edge, by_half in *; destruct (hv_row h);
    repeat (match goal with |- context [if ?b then _ else _] => destruct b end); naive_solver.
Qed.
