(* ===== verification/ScopeTree.v ===== *)
(** * The scopes of the filters a chart sets

    Filter boxes keep, for each of their fields, the components the field
    applies to and the charts in these components it does not apply to.  The
    dialog shows the layout as a tree of tabs and charts
    ([getFilterScopeNodesTree.js]) and turns the charts the user checks into a
    scope ([getFilterScopeFromNodesTree.js]); the reducer stores it
    ([reducers/dashboardFilters.js]), and [activeDashboardFilters.js], a module
    with state of its own, finds the charts in the scope of each value.

    The recursion along the layout takes two levels more than there are
    components; beyond, the call stack overflows. *)

From Stdlib Require Import Ascii String.
From stdpp Require Import base strings option numbers list.
From S2P Require Import Prelude JsObject JsNumber JsValue JsJson Query Layout LayoutReducer DashboardState.

(** ** The tree of the dialog *)

Inductive snode : Type :=
| SNode (value label : jsval) (type : string) (showCheckbox : option bool) (children : list snode).

Definition n_value (n : snode) : jsval := let 'SNode v _ _ _ _ := n in v.
Definition n_type (n : snode) : string := let 'SNode _ _ ty _ _ := n in ty.
Definition n_children (n : snode) : list snode := let 'SNode _ _ _ _ ch := n in ch.

(** What [traverse] returns: a node, or the nodes of a component without one. *)
Inductive traversed : Type :=
| One (n : snode)
| Many (ns : list snode).

Definition nodes_of (t : traversed) : list snode :=
  match t with One n => [n] | Many ns => ns end.

(** @source app/dashboard/util/getFilterScopeNodesTree.js 25-25 FILTER_SCOPE_CONTAINER_TYPES *)
Definition FILTER_SCOPE_CONTAINER_TYPES : list string := [TAB_TYPE; DASHBOARD_ROOT_TYPE].

Definition meta_field (k : string) (c : component) : jsval := ofield k (default [] (c_meta c)).

Section nodes.
Context (t : string → string) (layout : components) (selectedChartId : jsval).

(** @source app/dashboard/util/getFilterScopeNodesTree.js 38-58 traverse (chart) *)
Definition chart_node (c : component) : snode :=
  let chartId := meta_field "chartId" c in
  SNode chartId
    (js_or (meta_field "sliceName" c) (JStr (c_type c +:+ " " +:+ to_string chartId)))
    (c_type c) (Some (negb (strict_eq selectedChartId chartId))) [].

(** @source app/dashboard/util/getFilterScopeNodesTree.js 79-95 traverse (container) *)
Definition container_node (c : component) (children : list snode) : snode :=
  let text := meta_field "text" c in
  SNode (JStr (c_id c))
    (if bool_decide (c_type c = DASHBOARD_ROOT_TYPE) then JStr (t "All charts")
     else js_or text (JStr (c_type c +:+ " " +:+ c_id c)))
    (c_type c) None children.

(** A child that is not in the layout gives no nodes, but reading its type
    throws.

    @source app/dashboard/util/getFilterScopeNodesTree.js 27-97 traverse *)
Fixpoint traverse_layout (fuel : nat) (currentNode : component) : result traversed :=
  match fuel with
  | 0 => Throw call_stack_exceeded
  | S fuel =>
      if bool_decide (c_type currentNode = CHART_TYPE) && truthy (meta_field "chartId" currentNode)
      then Ok (One (chart_node currentNode))
      else
        below ← map_result (λ child,
          match aget child layout with
          | Some c => nodes_of <$> traverse_layout fuel c
          | None => Throw (TypeError "Cannot read properties of undefined (reading 'type')")
          end) (kids currentNode);
        let children := concat below in
        Ok (if bool_decide (c_type currentNode ∈ FILTER_SCOPE_CONTAINER_TYPES)
            then One (container_node currentNode children) else Many children)
  end.

(** The root is copied into an object: an array becomes one whose keys are its
    indices, and which has no children.

    @source app/dashboard/util/getFilterScopeNodesTree.js 100-119 getFilterScopeNodesTree *)
Definition getFilterScopeNodesTree : result (list traversed) :=
  match layout with
  | [] => Ok []
  | _ =>
      root ← match aget DASHBOARD_ROOT_ID layout with
             | Some c => traverse_layout (S (S (length layout))) c
             | None => Ok (Many [])
             end;
      Ok [root]
  end.
End nodes.

(** @source app/dashboard/util/getFilterScopeParentNodes.js 19-39 getFilterScopeParentNodes (node) *)
Fixpoint parent_nodes (depthLimit : Z) (depth : Z) (n : snode) : list jsval :=
  if (bool_decide (depthLimit = -1) || (depth <? depthLimit))%Z then
    n_value n :: flat_map (parent_nodes depthLimit (depth + 1)) (n_children n)
  else [].

(** @source app/dashboard/util/getFilterScopeParentNodes.js 19-39 getFilterScopeParentNodes *)
Definition getFilterScopeParentNodes (nodes : list traversed) (depthLimit : Z) : list jsval :=
  flat_map (λ n, match n with One n => parent_nodes depthLimit 0 n | Many _ => [] end) nodes.

(** The chart whose own fields are edited, which cannot be checked.

    @source app/dashboard/util/getSelectedChartIdForFilterScopeTree.js 21-51 getSelectedChartIdForFilterScopeTree *)
Definition getSelectedChartIdForFilterScopeTree (activeFilterField : option string)
    (checkedFilterFields : list string) : result jsval :=
  let chart_of key := fst <$> getChartIdAndColumnFromFilterKey key in
  match activeFilterField, checkedFilterFields with
  | Some (String _ _ as field), _ => JNum <$> chart_of field
  | _, [] => Ok JNull
  | _, first :: _ =>
      chartId ← chart_of first;
      (fix some fields :=
         match fields with
         | [] => Ok (JNum chartId)
         | key :: fields =>
             id ← chart_of key;
             if negb (num_eqb id chartId) then Ok JNull else some fields
         end) checkedFilterFields
  end.

Definition edited_fields (activeFilterField : option string) (checkedFilterFields : list string)
    : list string :=
  match activeFilterField with
  | Some (String _ _ as field) => [field]
  | _ => checkedFilterFields
  end.

(** @source app/dashboard/util/getKeyForFilterScopeTree.js 21-28 getKeyForFilterScopeTree *)
Definition getKeyForFilterScopeTree (activeFilterField : option string) (checkedFilterFields : list string)
    : string :=
  default EmptyString (JSON_stringify (JArr (JStr <$> edited_fields activeFilterField checkedFilterFields))).

Record scope_tree_entry := {
  st_nodes : list traversed;
  st_nodesFiltered : list traversed;
  st_checked : list string;
  st_expanded : list jsval;
}.

(** What the dialog keeps for a field, or for the fields that are edited
    together. *)
Record field_entry := {
  fe_checked : option (list jsval);
  fe_expanded : list jsval;
}.

(** @source app/dashboard/util/buildFilterScopeTreeEntry.js 24-65 buildFilterScopeTreeEntry *)
Definition buildFilterScopeTreeEntry (t : string → string) (checkedFilterFields : list string)
    (activeFilterField : option string) (filterScopeMap : list (string * field_entry))
    (layout : components) : result (string * scope_tree_entry) :=
  let key := getKeyForFilterScopeTree activeFilterField checkedFilterFields in
  let editingList := edited_fields activeFilterField checkedFilterFields in
  selectedChartId ← getSelectedChartIdForFilterScopeTree activeFilterField checkedFilterFields;
  nodes ← getFilterScopeNodesTree t layout selectedChartId;
  checked ← map_result (λ filterField,
    match aget filterField filterScopeMap with
    | Some e => Ok ((λ chartId, to_string chartId +:+ ":" +:+ filterField) <$> default [] (fe_checked e))
    | None => Throw (TypeError "Cannot read properties of undefined (reading 'checked')")
    end) editingList;
  Ok (key, {| st_nodes := nodes; st_nodesFiltered := nodes; st_checked := js_set (concat checked);
              st_expanded := match aget key filterScopeMap with
                             | Some e => fe_expanded e
                             | None => getFilterScopeParentNodes nodes 1
                             end |}).

(** ** From checked charts to a scope *)

Record filter_scope := { fs_scope : list jsval; fs_immune : list jsval }.

Definition chart_nodes (ns : list snode) : list snode := filter (λ n, n_type n = CHART_TYPE) ns.
Definition tab_nodes (ns : list snode) : list snode := filter (λ n, n_type n = TAB_TYPE) ns.

(** The charts of tabs that lie one level below the given ones, where neither
    is in scope.

    @source app/dashboard/util/getFilterScopeFromNodesTree.js 25-41 getImmuneChartIdsFromTabsNotInScope *)
Definition getImmuneChartIdsFromTabsNotInScope (tabs : list snode) (tabsInScope : list jsval) : list jsval :=
  flat_map (λ tab,
    if js_includes tabsInScope (n_value tab) then []
    else flat_map (λ subTab,
           if js_includes tabsInScope (n_value subTab) then []
           else n_value <$> chart_nodes (n_children subTab)) (n_children tab)) tabs.

(** The tab itself is in scope, as a whole. *)
Definition tab_in_scope (entry : string * filter_scope) : bool :=
  match fs_scope entry.2 with
  | first :: _ => is_str first entry.1
  | [] => false
  end.

(** @source app/dashboard/util/getFilterScopeFromNodesTree.js 42-92 getTabChildrenScope *)
Definition getTabChildrenScope (tabScopes : list (string * filter_scope)) (parentNodeValue : jsval)
    (forceAggregate hasChartSiblings : bool) (tabChildren : list snode) (immuneChartSiblings : list jsval)
    : filter_scope :=
  let scopes := avalues tabScopes in
  if forceAggregate || (negb hasChartSiblings && forallb tab_in_scope tabScopes) then
    let notInScope := getImmuneChartIdsFromTabsNotInScope tabChildren (flat_map fs_scope scopes) in
    {| fs_scope := [parentNodeValue];
       fs_immune := value_set (notInScope ++ flat_map fs_immune scopes) |}
  else
    let componentsInScope := filter (λ s, fs_scope s ≠ []) scopes in
    {| fs_scope := flat_map fs_scope componentsInScope;
       fs_immune := match componentsInScope with
                    | [] => flat_map fs_immune scopes ++ immuneChartSiblings
                    | _ => flat_map fs_immune componentsInScope
                    end |}.

Section scope.
Context (filterId : jsnum) (checkedChartIds : list jsval).

Definition checked (n : snode) : bool := js_includes checkedChartIds (n_value n).

(** @source app/dashboard/util/getFilterScopeFromNodesTree.js 94-157 traverse *)
Fixpoint traverse_nodes (currentNode : snode) : filter_scope :=
  let currentValue := n_value currentNode in
  let chartChildren := chart_nodes (n_children currentNode) in
  let tabChildren := tab_nodes (n_children currentNode) in
  let chartsImmune :=
    n_value <$> filter (λ n, negb (strict_eq (JNum filterId) (n_value n)) && negb (checked n) = true)
                  chartChildren in
  let tabScopes :=
    from_entries (flat_map (λ child,
      if bool_decide (n_type child = TAB_TYPE) then [(to_string (n_value child), traverse_nodes child)]
      else []) (n_children currentNode)) in
  if existsb checked chartChildren then
    match tabChildren with
    | [] => {| fs_scope := [currentValue]; fs_immune := chartsImmune |}
    | _ =>
        let below := getTabChildrenScope tabScopes currentValue true false tabChildren [] in
        {| fs_scope := fs_scope below; fs_immune := chartsImmune ++ fs_immune below |}
    end
  else
    match tabChildren with
    | [] => {| fs_scope := []; fs_immune := chartsImmune |}
    | _ => getTabChildrenScope tabScopes currentValue false
             (match chartChildren with [] => false | _ => true end) tabChildren chartsImmune
    end.
End scope.

(** [None] stands for an object without scope; a root that is not a node has no
    children to read.

    @source app/dashboard/util/getFilterScopeFromNodesTree.js 159-174 getFilterScopeFromNodesTree *)
Definition getFilterScopeFromNodesTree (filterKey : string) (nodes : list traversed)
    (checkedChartIds : list jsval) : result (option filter_scope) :=
  match nodes with
  | [] => Ok None
  | root :: _ =>
      key ← getChartIdAndColumnFromFilterKey filterKey;
      match root with
      | One n => Ok (Some (traverse_nodes key.1 checkedChartIds n))
      | Many _ => Throw (TypeError "Cannot read properties of undefined (reading 'filter')")
      end
  end.

(** ** The filters and their active values *)

(** A scope may be stored without its fields. *)
Record dashboard_filter := {
  df_chartId : jsval;
  df_filterName : jsval;
  df_columns : jsobj;
  df_labels : jsobj;
  df_scopes : list (string * option filter_scope);
  df_directPath : jsval;
  df_other : jsobj;
}.

Abbreviation dashboard_filters := (list (string * dashboard_filter)).

(** @source app/dashboard/reducers/dashboardFilters.js 31-34 DASHBOARD_FILTER_SCOPE_GLOBAL *)
Definition DASHBOARD_FILTER_SCOPE_GLOBAL : filter_scope :=
  {| fs_scope := [JStr DASHBOARD_ROOT_ID]; fs_immune := [] |}.

Record active_value := { av_values : jsval; av_scope : list jsval }.

(** The variables of the module.

    @source app/dashboard/util/activeDashboardFilters.js 28-30 activeFilters *)
Record filters_module := {
  m_activeFilters : list (string * active_value);
  m_applied : list (string * jsobj);
  m_components : components;
}.

Section charts.
Context (allComponents : components) (immuneChartIds : list jsval).

(** @source app/dashboard/util/activeDashboardFilters.js 60-77 traverse *)
Fixpoint traverse_charts (fuel : nat) (id : string) : result (list jsval) :=
  match fuel with
  | 0 => Throw call_stack_exceeded
  | S fuel =>
      match aget id allComponents with
      | None => Ok []
      | Some c =>
          let chartId := meta_field "chartId" c in
          if bool_decide (c_type c = CHART_TYPE) && truthy chartId && negb (js_includes immuneChartIds chartId)
          then Ok [chartId]
          else (λ l, concat l) <$> map_result (traverse_charts fuel) (kids c)
      end
  end.
End charts.

(** @source app/dashboard/util/activeDashboardFilters.js 59-87 getChartIdsInFilterScope *)
Definition getChartIdsInFilterScope (allComponents : components) (filterScope : option (option filter_scope))
    : result (list jsval) :=
  match default (Some DASHBOARD_FILTER_SCOPE_GLOBAL) filterScope with
  | None => Throw (TypeError "Cannot read properties of undefined (reading 'forEach')")
  | Some fs =>
      (λ l, concat l) <$> map_result (λ id,
        traverse_charts allComponents (fs_immune fs) (S (S (length allComponents))) (to_string id)) (fs_scope fs)
  end.

(** [Array.isArray(v) ? v.length : v !== undefined] *)
Definition has_value (v : jsval) : bool :=
  match v with
  | JArr [] | JUndef => false
  | _ => true
  end.

(** @source app/dashboard/util/activeDashboardFilters.js 100-119 buildActiveFilters (filter) *)
Definition active_values (allComponents : components) (filter_ : dashboard_filter)
    : result (list (string * active_value)) :=
  fold_result (λ acc e,
    if has_value e.2 then
      charts ← getChartIdsInFilterScope allComponents (aget e.1 (df_scopes filter_));
      Ok (oset (getDashboardFilterKey (to_string (df_chartId filter_)) e.1)
            {| av_values := e.2;
               av_scope := filter (λ id, negb (strict_eq (df_chartId filter_) id) = true) charts |} acc)
    else Ok acc) [] (df_columns filter_).

(** @source app/dashboard/util/activeDashboardFilters.js 93-126 buildActiveFilters *)
Definition buildActiveFilters (dashboardFilters : dashboard_filters) (components_ : components)
    (m : filters_module) : result filters_module :=
  let allComponents := match components_ with [] => m_components m | _ => components_ end in
  active ← fold_result (λ acc filter_,
    own ← active_values allComponents filter_; Ok (ospread acc own)) [] (avalues dashboardFilters);
  Ok {| m_activeFilters := active; m_applied := []; m_components := allComponents |}.

(** The values that apply to a chart, by column; they are computed once for a
    chart until the filters change.

    @source app/dashboard/util/activeDashboardFilters.js 39-54 getAppliedFilterValues *)
Definition getAppliedFilterValues (chartId : jsval) (filters : option (list (string * active_value)))
    (m : filters_module) : result (jsobj * filters_module) :=
  let key := to_string chartId in
  match aget key (m_applied m) with
  | Some applied => Ok (applied, m)
  | None =>
      let applicable :=
        filter (λ e, js_includes (av_scope e.2) chartId = true) (default (m_activeFilters m) filters) in
      entries ← map_result (λ e,
        k ← getChartIdAndColumnFromFilterKey e.1; Ok (k.2, av_values e.2)) applicable;
      let applied := from_entries entries in
      Ok (applied, {| m_activeFilters := m_activeFilters m; m_applied := oset key applied (m_applied m);
                      m_components := m_components m |})
  end.

(** ** The reducer *)

Inductive filters_action :=
| CHANGE_FILTER (chartId : string) (newSelectedValues : jsobj) (merge : bool)
| UPDATE_DIRECT_PATH_TO_FILTER (chartId : string) (path : jsval)
| UPDATE_LAYOUT_COMPONENTS (components_ : components)
| UPDATE_DASHBOARD_FILTERS_SCOPE (scopes : list (string * option filter_scope))
| HYDRATE_DASHBOARD_FILTERS (dashboardFilters : dashboard_filters).

Definition with_columns (columns : jsobj) (f : dashboard_filter) : dashboard_filter :=
  {| df_chartId := df_chartId f; df_filterName := df_filterName f; df_columns := columns;
     df_labels := df_labels f; df_scopes := df_scopes f; df_directPath := df_directPath f;
     df_other := df_other f |}.

Definition with_scopes (scopes : list (string * option filter_scope)) (f : dashboard_filter) : dashboard_filter :=
  {| df_chartId := df_chartId f; df_filterName := df_filterName f; df_columns := df_columns f;
     df_labels := df_labels f; df_scopes := scopes; df_directPath := df_directPath f;
     df_other := df_other f |}.

(** @source app/dashboard/reducers/dashboardFilters.js 53-76 CHANGE_FILTER *)
Definition change_filter (newSelectedValues : jsobj) (merge : bool) (f : dashboard_filter)
    : result dashboard_filter :=
  columns ← fold_result (λ columns e,
    match aget e.1 columns with
    | Some old =>
        if merge then
          before ← spread_items old; added ← spread_items e.2;
          Ok (oset e.1 (JArr (before ++ added)) columns)
        else Ok (oset e.1 e.2 columns)
    | None => Ok (oset e.1 e.2 columns)
    end) (df_columns f) newSelectedValues;
  Ok (with_columns columns f).

Definition chart_key (chartId : jsnum) : string := to_string (JNum chartId).

(** @source app/dashboard/reducers/dashboardFilters.js 95-121 UPDATE_DASHBOARD_FILTERS_SCOPE *)
Definition update_filters_scope (scopes : list (string * option filter_scope)) (filters : dashboard_filters)
    : result dashboard_filters :=
  fold_result (λ map e,
    k ← getChartIdAndColumnFromFilterKey e.1;
    match aget (chart_key k.1) map with
    | None => Throw (TypeError "Cannot read properties of undefined (reading 'scopes')")
    | Some f => Ok (oset (chart_key k.1) (with_scopes (oset k.2 e.2 (df_scopes f)) f) map)
    end) filters scopes.

Definition reading_columns : jserror := TypeError "Cannot read properties of undefined (reading 'columns')".

(** The next filters, with what happens to the variables of the module.

    @source app/dashboard/reducers/dashboardFilters.js 51-142 dashboardFiltersReducer *)
Definition dashboardFiltersReducer (filters : dashboard_filters) (m : filters_module) (action : filters_action)
    : result (dashboard_filters * filters_module) :=
  match action with
  | UPDATE_LAYOUT_COMPONENTS comps =>
      m ← buildActiveFilters filters comps m;
      Ok (filters, m)
  | UPDATE_DASHBOARD_FILTERS_SCOPE scopes =>
      updated ← update_filters_scope scopes filters;
      m ← buildActiveFilters updated [] m;
      Ok (updated, m)
  | HYDRATE_DASHBOARD_FILTERS filters' => Ok (filters', m)
  | CHANGE_FILTER chartId values merge =>
      match aget chartId filters with
      | None => Throw reading_columns
      | Some f =>
          f ← change_filter values merge f;
          let updated := oset chartId f filters in
          m ← buildActiveFilters updated [] m;
          Ok (updated, m)
      end
  | UPDATE_DIRECT_PATH_TO_FILTER chartId path =>
      let updated f :=
        {| df_chartId := df_chartId f; df_filterName := df_filterName f; df_columns := df_columns f;
           df_labels := df_labels f; df_scopes := df_scopes f; df_directPath := path;
           df_other := df_other f |} in
      let nothing :=
        {| df_chartId := JUndef; df_filterName := JUndef; df_columns := []; df_labels := [];
           df_scopes := []; df_directPath := path; df_other := [] |} in
      Ok (oset chartId (updated (default nothing (aget chartId filters))) filters, m)
  end.

(** ** What is stored *)

(** @source app/dashboard/util/serializeFilterScopes.js 19-34 serializeFilterScopes *)
Definition serializeFilterScopes (filters : dashboard_filters)
    : list (string * list (string * option filter_scope)) :=
  from_entries ((λ f, (to_string (df_chartId f), from_entries (df_scopes f))) <$> avalues filters).

(** @source app/dashboard/util/serializeActiveFilterValues.js 22-36 serializeActiveFilterValues *)
Definition serializeActiveFilterValues (activeFilters : list (string * active_value))
    : result (list (string * jsobj)) :=
  fold_result (λ map e,
    k ← getChartIdAndColumnFromFilterKey e.1;
    Ok (oset (chart_key k.1) (oset k.2 (av_values e.2) (default [] (aget (chart_key k.1) map))) map))
    [] activeFilters.

(** @source app/dashboard/util/constants.ts 73-73 ALL_FILTERS_ROOT *)
Definition ALL_FILTERS_ROOT : string := "ALL_FILTERS_ROOT".

(** The tree of the fields of all filters.

    @source app/dashboard/util/getFilterFieldNodesTree.js 25-48 getFilterFieldNodesTree *)
Definition getFilterFieldNodesTree (t : string → string) (filters : dashboard_filters) : jsval :=
  let field_node f column :=
    JObj [("value", JStr (getDashboardFilterKey (to_string (df_chartId f)) column));
          ("label", js_or (ofield column (df_labels f)) (JStr column))] in
  let filter_node f :=
    JObj [("value", df_chartId f); ("label", df_filterName f);
          ("children", JArr (field_node f <$> akeys (df_columns f))); ("showCheckbox", JBool true)] in
  JArr [JObj [("value", JStr ALL_FILTERS_ROOT); ("type", JStr DASHBOARD_ROOT_TYPE);
              ("label", JStr (t "All filters")); ("children", JArr (filter_node <$> avalues filters))]].
