(* ===== verification/ScopeTreeFacts.v ===== *)
(** * The scope of the checked charts

    The scope the dialog computes from the checked charts selects, when the
    charts are collected from it again, every checked chart; and no other chart,
    as long as a component with charts and tabs of its own has at most two levels
    of tabs and charts do not stand next to tabs in them.  Deeper trees are the
    reason for the second restriction. *)

From Stdlib Require Import Ascii String SpecFloat.
From stdpp Require Import base strings option numbers list relations.
From S2P Require Import Prelude JsObject JsNumber JsValue Layout LayoutReducer LayoutReducerFacts.
From S2P Require Import LayoutMoveFacts LayoutParentsFacts DashboardState ScopeTree.

(** ** Values that compare like themselves *)

(** Texts, and numbers other than zeros and the special ones. *)
Definition plain_value (v : jsval) : bool :=
  match v with JStr _ | JNum (S754_finite _ _ _) => true | _ => false end.

Lemma num_eqb_finite x s m e : num_eqb x (S754_finite s m e) = true ↔ x = S754_finite s m e.
Proof.
  unfold num_eqb, SFeqb. split; [|intros ->]; simpl.
  - destruct x as [s'|s'| |s' m' e']; simpl; [by destruct s|by destruct s'|done|].
    destruct s, s'; simpl; try done; destruct (Z.compare_spec e' e) as [-> | |]; simpl; try done;
      change (Pos.compare_cont Eq m' m) with (m' ?= m)%positive;
      destruct (Pos.compare_spec m' m) as [-> | |]; by simpl.
  - destruct s; rewrite Z.compare_refl; change (Pos.compare_cont Eq m m) with (m ?= m)%positive;
      by rewrite Pos.compare_refl.
Qed.

Lemma strict_eq_plain w v : plain_value v = true → strict_eq w v = true ↔ w = v.
Proof.
  destruct v as [| | |[| | |s m e]|str| |]; try done; intros _.
  - destruct w as [| | |x| | |]; try done. change (num_eqb x (S754_finite s m e) = true ↔ JNum x = JNum (S754_finite s m e)).
    rewrite num_eqb_finite. naive_solver.
  - destruct w; try done. simpl. rewrite bool_decide_eq_true. naive_solver.
Qed.

Lemma js_includes_plain l v : plain_value v = true → js_includes l v = true ↔ v ∈ l.
Proof.
  intros Hv. unfold js_includes. rewrite existsb_exists. split.
  - intros (w & Hw & Heq). apply list_elem_of_In in Hw. apply orb_prop in Heq as [Heq|Heq].
    + by apply (strict_eq_plain w v Hv) in Heq as ->.
    + destruct w, v as [| | |[]| | |]; try done; by rewrite andb_false_r in Heq.
  - intros Hin. exists v. split; [by apply list_elem_of_In|].
    by rewrite (proj2 (strict_eq_plain v v Hv)).
Qed.

Lemma value_set_elem_of l v : v ∈ value_set l → v ∈ l.
Proof.
  unfold value_set. induction l as [|x l IH] using rev_ind; [done|]. rewrite foldl_app. simpl.
  rewrite elem_of_app, list_elem_of_singleton. destruct (js_includes _ x); [by auto|].
  rewrite elem_of_app, list_elem_of_singleton. tauto.
Qed.

Lemma elem_of_value_set l v : plain_value v = true → v ∈ value_set l ↔ v ∈ l.
Proof.
  intros Hv. split; [apply value_set_elem_of|].
  unfold value_set. induction l as [|x l IH] using rev_ind; [done|]. rewrite foldl_app. simpl.
  rewrite elem_of_app, list_elem_of_singleton. intros [Hin| ->].
  - destruct (js_includes _ x); [by apply IH|]. rewrite elem_of_app. left. by apply IH.
  - destruct (js_includes _ x) eqn:Hx; [by apply js_includes_plain in Hx|].
    rewrite elem_of_app, list_elem_of_singleton. by right.
Qed.

(** ** Trees *)

Section snode_ind.
Context (P : snode → Prop).
Hypothesis HP : ∀ v l ty c ch, (∀ n, n ∈ ch → P n) → P (SNode v l ty c ch).

Fixpoint snode_nested_ind (n : snode) : P n :=
  let 'SNode v l ty c ch := n in
  HP v l ty c ch
    ((fix go (ch : list snode) : ∀ n, n ∈ ch → P n :=
        match ch with
        | [] => λ n H, False_ind _ (proj1 (elem_of_nil n) H)
        | m :: ch => λ n H,
            match proj1 (elem_of_cons ch n m) H with
            | or_introl E => eq_ind_r P (snode_nested_ind m) E
            | or_intror H => go ch n H
            end
        end) ch).
End snode_ind.

(** The charts of a tree, and the values of its other nodes. *)
Fixpoint charts_of (n : snode) : list jsval :=
  let 'SNode v _ ty _ ch := n in
  if bool_decide (ty = CHART_TYPE) then [v] else flat_map charts_of ch.

Fixpoint containers_of (n : snode) : list jsval :=
  let 'SNode v _ ty _ ch := n in
  if bool_decide (ty = CHART_TYPE) then [] else v :: flat_map containers_of ch.

(** What [getFilterScopeNodesTree] builds. *)
Inductive tree_ok : snode → Prop :=
| tree_ok_chart v l c : plain_value v = true → tree_ok (SNode v l CHART_TYPE c [])
| tree_ok_container s l ty c ch :
    ty ≠ CHART_TYPE →
    (∀ n, n ∈ ch → tree_ok n ∧ (n_type n = CHART_TYPE ∨ n_type n = TAB_TYPE)) →
    tree_ok (SNode (JStr s) l ty c ch).

(** Charts next to tabs: there are at most two levels of tabs, and charts stand
    in tabs without tabs only. *)
Definition mixed_ok (n : snode) : Prop :=
  chart_nodes (n_children n) = [] ∨
  ∀ tab, tab ∈ tab_nodes (n_children n) →
    tab_nodes (n_children tab) = [] ∨
    (chart_nodes (n_children tab) = [] ∧
     ∀ sub, sub ∈ tab_nodes (n_children tab) → tab_nodes (n_children sub) = []).

Inductive tame : snode → Prop :=
| tame_node n : mixed_ok n → (∀ m, m ∈ n_children n → tame m) → tame n.

(** [v] is a chart below a container in [scope]. *)
Inductive covered (scope : list jsval) : snode → jsval → Prop :=
| covered_here n v : n_type n ≠ CHART_TYPE → n_value n ∈ scope → v ∈ charts_of n → covered scope n v
| covered_below n m v : m ∈ n_children n → covered scope m v → covered scope n v.

Lemma elem_of_charts_of n v :
  n_type n ≠ CHART_TYPE → v ∈ charts_of n ↔ ∃ m, m ∈ n_children n ∧ v ∈ charts_of m.
Proof.
  destruct n as [x l ty c ch]. simpl. intros Hty. rewrite bool_decide_eq_false_2 by done.
  rewrite list_elem_of_In, in_flat_map. by setoid_rewrite <- list_elem_of_In.
Qed.

Lemma elem_of_containers_of n v :
  n_type n ≠ CHART_TYPE → v ∈ containers_of n ↔ v = n_value n ∨ ∃ m, m ∈ n_children n ∧ v ∈ containers_of m.
Proof.
  destruct n as [x l ty c ch]. simpl. intros Hty. rewrite bool_decide_eq_false_2 by done.
  rewrite elem_of_cons, list_elem_of_In, in_flat_map. by setoid_rewrite <- list_elem_of_In.
Qed.

Lemma tree_ok_chart_inv n : tree_ok n → n_type n = CHART_TYPE → n_children n = [] ∧ plain_value (n_value n) = true.
Proof. by destruct 1. Qed.

Lemma tree_ok_children n m :
  tree_ok n → m ∈ n_children n → n_type n ≠ CHART_TYPE ∧ tree_ok m ∧ (n_type m = CHART_TYPE ∨ n_type m = TAB_TYPE).
Proof. destruct 1 as [|s l ty c ch Hty Hch]; simpl; intros Hm; [by apply elem_of_nil in Hm|]. by apply Hch in Hm. Qed.

Lemma tree_ok_value n : tree_ok n → n_type n ≠ CHART_TYPE → ∃ s, n_value n = JStr s.
Proof. destruct 1; [done|]. intros _. by eexists. Qed.

Lemma covered_charts scope n v : tree_ok n → covered scope n v → v ∈ charts_of n.
Proof.
  intros Hok. induction 1 as [|n m v Hm _ IH]; [done|].
  destruct (tree_ok_children n m Hok Hm) as (Hty & Hmok & _).
  apply elem_of_charts_of; [done|]. exists m. auto.
Qed.

Lemma covered_restrict scope scope' n v :
  tree_ok n → (∀ x, x ∈ containers_of n → x ∈ scope → x ∈ scope') → covered scope n v → covered scope' n v.
Proof.
  intros Hok Hs Hc. induction Hc as [n v Hty Hin Hv|n m v Hm _ IH].
  - apply covered_here; [done| |done]. apply Hs; [|done]. apply elem_of_containers_of; auto.
  - destruct (tree_ok_children n m Hok Hm) as (Hty & Hmok & _).
    apply covered_below with m; [done|]. apply IH; [done|]. intros x Hx.
    apply Hs. apply elem_of_containers_of; [done|]. right. by exists m.
Qed.

Lemma covered_nil n v : ¬ covered [] n v.
Proof. intros Hc. induction Hc as [? ? _ []%elem_of_nil|]; done. Qed.

Lemma NoDup_flat_map_inv {A B} (f : A → list B) l x :
  NoDup (flat_map f l) → x ∈ l → NoDup (f x).
Proof.
  induction l as [|y l IH]; simpl; [by intros _ ?%elem_of_nil|].
  intros (Hy & _ & Hl)%NoDup_app [-> |Hx]%elem_of_cons; [done|by apply IH].
Qed.

Lemma flat_map_disjoint {A B} (f : A → list B) l x y v :
  NoDup (flat_map f l) → x ∈ l → y ∈ l → v ∈ f x → v ∈ f y → x = y.
Proof.
  induction l as [|z l IH]; simpl; [by intros _ ?%elem_of_nil|].
  intros (_ & Hdis & Hl)%NoDup_app Hx Hy Hvx Hvy.
  assert (∀ w, w ∈ l → v ∈ f w → v ∈ flat_map f l) as Hin.
  { intros w Hw Hv. apply list_elem_of_In, in_flat_map. exists w. by split; apply list_elem_of_In. }
  apply elem_of_cons in Hx as [-> |Hx], Hy as [-> |Hy].
  - done.
  - by destruct (Hdis v Hvx); apply (Hin y).
  - by destruct (Hdis v Hvy); apply (Hin x).
  - by apply IH.
Qed.

(** Distinct charts and distinct containers. *)
Record distinct (n : snode) : Prop := {
  distinct_charts : NoDup (charts_of n);
  distinct_containers : NoDup (containers_of n);
}.

Lemma distinct_child n m : n_type n ≠ CHART_TYPE → distinct n → m ∈ n_children n → distinct m.
Proof.
  destruct n as [x l ty c ch]. simpl. intros Hty [H1 H2] Hm. simpl in H1, H2.
  rewrite bool_decide_eq_false_2 in H1, H2 by done. apply NoDup_cons in H2 as [_ H2].
  split; by eapply NoDup_flat_map_inv.
Qed.

Lemma distinct_charts_child n m m' v :
  n_type n ≠ CHART_TYPE → distinct n → m ∈ n_children n → m' ∈ n_children n →
  v ∈ charts_of m → v ∈ charts_of m' → m = m'.
Proof.
  destruct n as [x l ty c ch]. simpl. intros Hty [H1 _]. simpl in H1.
  rewrite bool_decide_eq_false_2 in H1 by done. by apply flat_map_disjoint.
Qed.

Lemma distinct_containers_child n m m' v :
  n_type n ≠ CHART_TYPE → distinct n → m ∈ n_children n → m' ∈ n_children n →
  v ∈ containers_of m → v ∈ containers_of m' → m = m'.
Proof.
  destruct n as [x l ty c ch]. simpl. intros Hty [_ H2]. simpl in H2.
  rewrite bool_decide_eq_false_2 in H2 by done. apply NoDup_cons in H2 as [_ H2]. by apply flat_map_disjoint.
Qed.

Lemma distinct_own_value n m : n_type n ≠ CHART_TYPE → distinct n → m ∈ n_children n → n_value n ∉ containers_of m.
Proof.
  destruct n as [x l ty c ch]. simpl. intros Hty [_ H2] Hm Hx. simpl in H2.
  rewrite bool_decide_eq_false_2 in H2 by done. apply NoDup_cons in H2 as [H2 _]. apply H2.
  apply list_elem_of_In, in_flat_map. exists m. by split; apply list_elem_of_In.
Qed.

(** ** The scope of a node *)

Lemma elem_of_chart_nodes m ns : m ∈ chart_nodes ns ↔ m ∈ ns ∧ n_type m = CHART_TYPE.
Proof. unfold chart_nodes. rewrite list_elem_of_filter. tauto. Qed.

Lemma elem_of_tab_nodes m ns : m ∈ tab_nodes ns ↔ m ∈ ns ∧ n_type m = TAB_TYPE.
Proof. unfold tab_nodes. rewrite list_elem_of_filter. tauto. Qed.

Lemma tab_not_chart m : n_type m = TAB_TYPE → n_type m ≠ CHART_TYPE.
Proof. by intros ->. Qed.

Lemma charts_of_chart m : n_type m = CHART_TYPE → charts_of m = [n_value m].
Proof. destruct m as [x l ty c ch]. simpl. by intros ->. Qed.

Lemma plain_charts n v : tree_ok n → v ∈ charts_of n → plain_value v = true.
Proof.
  induction n as [x l ty c ch IH] using snode_nested_ind. intros Hok Hv.
  destruct (decide (ty = CHART_TYPE)) as [-> |Hty].
  - apply tree_ok_chart_inv in Hok as [_ Hp]; [|done]. rewrite charts_of_chart in Hv by done.
    by apply list_elem_of_singleton in Hv as ->.
  - apply elem_of_charts_of in Hv as (m & Hm & Hv); [|done].
    destruct (tree_ok_children _ m Hok Hm) as (_ & Hmok & _). by apply (IH m).
Qed.

Section scope.
Context (filterId : jsnum) (C : list jsval).

Definition scope_of (n : snode) : filter_scope := traverse_nodes filterId C n.

Definition own_immune (n : snode) : list jsval :=
  n_value <$> filter (λ m, negb (strict_eq (JNum filterId) (n_value m)) && negb (checked C m) = true)
                (chart_nodes (n_children n)).

Definition tab_scopes (n : snode) : list (string * filter_scope) :=
  from_entries ((λ m, (to_string (n_value m), scope_of m)) <$> tab_nodes (n_children n)).

Lemma scope_of_eq n :
  scope_of n =
  if existsb (checked C) (chart_nodes (n_children n)) then
    match tab_nodes (n_children n) with
    | [] => {| fs_scope := [n_value n]; fs_immune := own_immune n |}
    | _ =>
        let below := getTabChildrenScope (tab_scopes n) (n_value n) true false (tab_nodes (n_children n)) [] in
        {| fs_scope := fs_scope below; fs_immune := own_immune n ++ fs_immune below |}
    end
  else
    match tab_nodes (n_children n) with
    | [] => {| fs_scope := []; fs_immune := own_immune n |}
    | _ => getTabChildrenScope (tab_scopes n) (n_value n) false
             (match chart_nodes (n_children n) with [] => false | _ => true end)
             (tab_nodes (n_children n)) (own_immune n)
    end.
Proof.
  assert (tab_scopes n = from_entries (flat_map (λ child,
      if bool_decide (n_type child = TAB_TYPE) then [(to_string (n_value child), scope_of child)]
      else []) (n_children n))) as ->; [|by destruct n].
  unfold tab_scopes. f_equal. unfold tab_nodes. induction (n_children n) as [|m ch IH]; [done|].
  simpl. rewrite filter_cons. case_decide; [rewrite bool_decide_eq_true_2 by done|rewrite bool_decide_eq_false_2 by done].
  - simpl. by f_equal.
  - done.
Qed.

(** What the scope of a node is worth. *)
Record good (n : snode) (s : filter_scope) : Prop := {
  good_containers : ∀ x, x ∈ fs_scope s → x ∈ containers_of n;
  good_shape : fs_scope s = [] ∨ fs_scope s = [n_value n] ∨ n_value n ∉ fs_scope s;
  good_checked : ∀ v, v ∈ charts_of n → v ∈ C → covered (fs_scope s) n v;
  good_immune : ∀ v, v ∈ fs_immune s → v ∈ charts_of n ∧ v ∉ C;
  good_complete : tame n → fs_scope s = [] ∨ fs_scope s = [n_value n] →
    ∀ v, v ∈ charts_of n → v ∉ C → v ≠ JNum filterId → v ∈ fs_immune s;
  good_exact : tame n → ∀ v, covered (fs_scope s) n v → v ∉ C → v ≠ JNum filterId → v ∈ fs_immune s;
}.

Context (n : snode).
Hypothesis (Hok : tree_ok n) (Hty : n_type n ≠ CHART_TYPE) (Hdis : distinct n).
Hypothesis IH : ∀ m, m ∈ n_children n → n_type m = TAB_TYPE → good m (scope_of m).

Lemma charts_split v :
  v ∈ charts_of n ↔
  (∃ m, m ∈ chart_nodes (n_children n) ∧ v = n_value m) ∨
  (∃ tab, tab ∈ tab_nodes (n_children n) ∧ v ∈ charts_of tab).
Proof.
  rewrite elem_of_charts_of by done. split.
  - intros (m & Hm & Hv). destruct (tree_ok_children n m Hok Hm) as (_ & Hmok & [Hc|Ht]).
    + left. exists m. rewrite elem_of_chart_nodes. rewrite charts_of_chart in Hv by done.
      by apply list_elem_of_singleton in Hv.
    + right. exists m. by rewrite elem_of_tab_nodes.
  - intros [(m & [Hm Hc]%elem_of_chart_nodes & ->)|(m & [Hm Ht]%elem_of_tab_nodes & Hv)]; exists m; [|done].
    split; [done|]. rewrite charts_of_chart by done. by apply list_elem_of_singleton.
Qed.

Lemma elem_of_own_immune v :
  v ∈ own_immune n ↔ (∃ m, m ∈ chart_nodes (n_children n) ∧ v = n_value m) ∧ v ∉ C ∧ v ≠ JNum filterId.
Proof.
  unfold own_immune. rewrite list_elem_of_fmap.
  assert (∀ m, m ∈ chart_nodes (n_children n) →
    negb (strict_eq (JNum filterId) (n_value m)) && negb (checked C m) = true ↔
    n_value m ∉ C ∧ n_value m ≠ JNum filterId) as Hiff.
  { intros m [Hm Hc]%elem_of_chart_nodes. destruct (tree_ok_children n m Hok Hm) as (_ & Hmok & _).
    destruct (tree_ok_chart_inv m Hmok Hc) as [_ Hp]. unfold checked.
    rewrite andb_true_iff, !negb_true_iff, <- !not_true_iff_false.
    rewrite (strict_eq_plain _ _ Hp), (js_includes_plain _ _ Hp). naive_solver. }
  split.
  - intros (m & -> & [Hcond Hm]%list_elem_of_filter). apply Hiff in Hcond; [|done]. eauto.
  - intros ((m & Hm & ->) & HC & Hf). exists m. split; [done|]. apply list_elem_of_filter.
    split; [|done]. by apply Hiff.
Qed.

Lemma existsb_checked :
  existsb (checked C) (chart_nodes (n_children n)) = true ↔
  ∃ m, m ∈ chart_nodes (n_children n) ∧ n_value m ∈ C.
Proof.
  rewrite existsb_exists. setoid_rewrite <- list_elem_of_In.
  assert (∀ m, m ∈ chart_nodes (n_children n) → checked C m = true ↔ n_value m ∈ C) as Hiff; [|naive_solver].
  intros m [Hm Hc]%elem_of_chart_nodes. destruct (tree_ok_children n m Hok Hm) as (_ & Hmok & _).
  destruct (tree_ok_chart_inv m Hmok Hc) as [_ Hp]. by apply js_includes_plain.
Qed.

Lemma tab_value m : m ∈ tab_nodes (n_children n) → ∃ s, n_value m = JStr s.
Proof.
  intros [Hm Ht]%elem_of_tab_nodes. destruct (tree_ok_children n m Hok Hm) as (_ & Hmok & _).
  apply tree_ok_value; [done|by apply tab_not_chart].
Qed.

Lemma value_in_containers m : n_type m ≠ CHART_TYPE → n_value m ∈ containers_of m.
Proof. intros. apply elem_of_containers_of; auto. Qed.

Lemma tab_keys_NoDup : NoDup (to_string ∘ n_value <$> tab_nodes (n_children n)).
Proof.
  assert (NoDup (flat_map containers_of (n_children n))) as Hnd.
  { pose proof (distinct_containers n Hdis) as Hnd. destruct n as [x l ty c ch]. simpl in *.
    rewrite bool_decide_eq_false_2 in Hnd by done. by apply NoDup_cons in Hnd as [_ Hnd]. }
  pose proof tab_value as Htab. clear -Hnd Htab. revert Hnd Htab.
  generalize (n_children n) as ch. intros ch Hnd Htab.
  induction ch as [|m ch IHch]; [constructor|]. simpl in Hnd. unfold tab_nodes in *.
  apply NoDup_app in Hnd as (_ & Hnd' & Hnd). rewrite filter_cons in Htab |- *.
  case_decide as Hm; [|by apply IHch]. simpl. apply NoDup_cons. split; [|apply IHch; [done|]; intros m' Hm'; apply Htab; by right].
  intros (m' & Heq & Hm')%list_elem_of_fmap. simpl in Heq.
  destruct (Htab m) as [s Hs]; [left|]. destruct (Htab m') as [s' Hs']; [by right|].
  rewrite Hs, Hs' in Heq. simpl in Heq. subst s'.
  apply list_elem_of_filter in Hm' as [Ht' Hm'].
  apply (Hnd' (n_value m)); [apply value_in_containers; by apply tab_not_chart|].
  apply list_elem_of_In, in_flat_map. exists m'. split; [by apply list_elem_of_In|].
  apply list_elem_of_In. rewrite Hs, <- Hs'. apply value_in_containers. by apply tab_not_chart.
Qed.

Lemma elem_of_tab_scopes e :
  e ∈ tab_scopes n ↔ ∃ m, m ∈ tab_nodes (n_children n) ∧ e = (to_string (n_value m), scope_of m).
Proof.
  unfold tab_scopes. rewrite from_entries_Permutation.
  - rewrite list_elem_of_fmap. naive_solver.
  - unfold akeys. rewrite <- list_fmap_compose. apply tab_keys_NoDup.
Qed.

Lemma elem_of_scopes s : s ∈ avalues (tab_scopes n) ↔ ∃ m, m ∈ tab_nodes (n_children n) ∧ s = scope_of m.
Proof.
  unfold avalues. rewrite list_elem_of_fmap. split.
  - intros (e & -> & (m & Hm & ->)%elem_of_tab_scopes). by exists m.
  - intros (m & Hm & ->). eexists. split; [|by apply elem_of_tab_scopes; exists m]. done.
Qed.

Lemma elem_of_flat_scopes (f : filter_scope → list jsval) v :
  v ∈ flat_map f (avalues (tab_scopes n)) ↔ ∃ m, m ∈ tab_nodes (n_children n) ∧ v ∈ f (scope_of m).
Proof.
  rewrite list_elem_of_In, in_flat_map. setoid_rewrite <- list_elem_of_In. split.
  - intros (s & (m & Hm & ->)%elem_of_scopes & Hv). by exists m.
  - intros (m & Hm & Hv). exists (scope_of m). split; [|done]. apply elem_of_scopes. by exists m.
Qed.

Lemma tab_good m : m ∈ tab_nodes (n_children n) →
  m ∈ n_children n ∧ n_type m ≠ CHART_TYPE ∧ tree_ok m ∧ distinct m ∧ good m (scope_of m).
Proof.
  intros [Hm Ht]%elem_of_tab_nodes. destruct (tree_ok_children n m Hok Hm) as (_ & Hmok & _).
  split; [done|]. split; [by apply tab_not_chart|]. split; [done|].
  split; [by eapply distinct_child|by apply IH].
Qed.

Lemma tame_child m : tame n → m ∈ n_children n → tame m.
Proof. inversion 1. auto. Qed.

(** The scopes of the tabs together select in one tab what its own does. *)
Lemma covered_tab scope m v :
  m ∈ tab_nodes (n_children n) →
  (∀ x, x ∈ scope → x = n_value n ∨ ∃ m', m' ∈ tab_nodes (n_children n) ∧ x ∈ fs_scope (scope_of m')) →
  covered scope m v → covered (fs_scope (scope_of m)) m v.
Proof.
  intros Hm Hscope. destruct (tab_good m Hm) as (Hmn & Hmt & Hmok & _ & Hg).
  apply covered_restrict; [done|]. intros x Hx Hin.
  destruct (Hscope x Hin) as [-> |(m' & Hm' & Hxm')]; [by destruct (distinct_own_value n m Hty Hdis Hmn)|].
  destruct (tab_good m' Hm') as (Hmn' & _ & _ & _ & Hg').
  pose proof (good_containers _ _ Hg' x Hxm') as Hx'.
  by rewrite (distinct_containers_child n m m' x Hty Hdis Hmn Hmn' Hx Hx').
Qed.

(** Scopes of tabs only: what they cover lies in one tab. *)
Lemma covered_in_tab scope v :
  (∀ x, x ∈ scope → ∃ m', m' ∈ tab_nodes (n_children n) ∧ x ∈ fs_scope (scope_of m')) →
  covered scope n v →
  ∃ m, m ∈ tab_nodes (n_children n) ∧ covered (fs_scope (scope_of m)) m v.
Proof.
  intros Hscope Hc. inversion Hc as [? ? _ Hin _|? m ? Hm Hcm]; subst.
  - destruct (Hscope _ Hin) as (m & Hm & Hx). destruct (tab_good m Hm) as (Hmn & _ & _ & _ & Hg).
    by destruct (distinct_own_value n m Hty Hdis Hmn); apply (good_containers _ _ Hg).
  - destruct (tree_ok_children n m Hok Hm) as (_ & Hmok & [Ht|Ht]).
    + exfalso. destruct (tree_ok_chart_inv m Hmok Ht) as [Hch _].
      inversion Hcm as [? ? Hne|? ? ? Hin]; subst; [done|]. rewrite Hch in Hin. by apply elem_of_nil in Hin.
    + assert (m ∈ tab_nodes (n_children n)) as Hmt by by apply elem_of_tab_nodes.
      exists m. split; [done|]. apply (covered_tab scope); [done| |done]. intros x Hx. right. auto.
Qed.

(** *** Tabs that are not in scope *)

Definition in_scope : list jsval := flat_map fs_scope (avalues (tab_scopes n)).

Definition not_in_scope : list jsval :=
  getImmuneChartIdsFromTabsNotInScope (tab_nodes (n_children n)) in_scope.

Lemma includes_in_scope m x :
  n_value m = JStr x → js_includes in_scope (n_value m) = true ↔
  ∃ m', m' ∈ tab_nodes (n_children n) ∧ n_value m ∈ fs_scope (scope_of m').
Proof. intros Hx. rewrite js_includes_plain by by rewrite Hx. apply elem_of_flat_scopes. Qed.

Lemma elem_of_not_in_scope v :
  v ∈ not_in_scope ↔ ∃ tab sub m, tab ∈ tab_nodes (n_children n) ∧ sub ∈ n_children tab ∧
    m ∈ chart_nodes (n_children sub) ∧ v = n_value m ∧
    js_includes in_scope (n_value tab) = false ∧ js_includes in_scope (n_value sub) = false.
Proof.
  unfold not_in_scope, getImmuneChartIdsFromTabsNotInScope.
  rewrite list_elem_of_In, in_flat_map. setoid_rewrite <- list_elem_of_In. split.
  - intros (tab & Htab & Hv). destruct (js_includes in_scope (n_value tab)) eqn:E; [by apply elem_of_nil in Hv|].
    apply list_elem_of_In, in_flat_map in Hv as (sub & Hsub & Hv). apply list_elem_of_In in Hsub, Hv.
    destruct (js_includes in_scope (n_value sub)) eqn:E'; [by apply elem_of_nil in Hv|].
    apply list_elem_of_fmap in Hv as (m & -> & Hm). by exists tab, sub, m.
  - intros (tab & sub & m & Htab & Hsub & Hm & -> & E & E'). exists tab. split; [done|]. rewrite E.
    apply list_elem_of_In, in_flat_map. exists sub. split; [by apply list_elem_of_In|]. rewrite E'.
    apply list_elem_of_In, list_elem_of_fmap. by exists m.
Qed.

Lemma unchecked_not_in_scope v : v ∈ not_in_scope → v ∈ charts_of n ∧ v ∉ C.
Proof.
  intros (tab & sub & m & Htab & Hsub & [Hm Hc]%elem_of_chart_nodes & -> & E & E')%elem_of_not_in_scope.
  destruct (tab_good tab Htab) as (Htn & Htt & Htok & Htd & Hg).
  destruct (tree_ok_children tab sub Htok Hsub) as (_ & Hsok & _).
  destruct (tree_ok_children sub m Hsok Hm) as (Hst & _ & _).
  assert (n_value m ∈ charts_of sub) as Hvs.
  { apply elem_of_charts_of; [done|]. exists m. rewrite charts_of_chart by done.
    split; [done|]. by apply list_elem_of_singleton. }
  assert (n_value m ∈ charts_of tab) as Hvt by (apply elem_of_charts_of; eauto).
  split; [apply charts_split; eauto|]. intros HvC.
  destruct (tab_value tab Htab) as [x Hx]. destruct (tree_ok_value sub Hsok Hst) as [y Hy].
  assert (∀ z, n_value tab = JStr z → n_value tab ∉ fs_scope (scope_of tab)) as Hnt.
  { intros z Hz Hin. apply not_true_iff_false in E. apply E, (includes_in_scope tab z Hz). by exists tab. }
  assert (n_value sub ∉ fs_scope (scope_of tab)) as Hns.
  { intros Hin. apply not_true_iff_false in E'. apply E', (includes_in_scope sub y Hy). by exists tab. }
  pose proof (good_checked _ _ Hg _ Hvt HvC) as Hcov.
  inversion Hcov as [? ? _ Hin _|? sub' ? Hsub' Hcov']; subst; [by eapply Hnt|].
  assert (n_value m ∈ charts_of sub') as Hvs'.
  { destruct (tree_ok_children tab sub' Htok Hsub') as (_ & Hsok' & _). by eapply covered_charts. }
  rewrite <- (distinct_charts_child tab sub sub' (n_value m) Htt Htd Hsub Hsub' Hvs Hvs') in Hcov'.
  inversion Hcov' as [|? m' ? Hm' Hcov'']; subst; [done|].
  destruct (tree_ok_children sub m' Hsok Hm') as (_ & Hmok' & _).
  pose proof (covered_charts _ _ _ Hmok' Hcov'') as Hvm'.
  assert (m' = m) as ->.
  { apply (distinct_charts_child sub m' m (n_value m) Hst); [exact (distinct_child tab sub Htt Htd Hsub)|done..|].
    rewrite charts_of_chart by done. by apply list_elem_of_singleton. }
  inversion Hcov'' as [|? m'' ? Hm'']; subst; [done|].
  destruct (tree_ok_chart_inv m Hmok' Hc) as [Hch _]. rewrite Hch in Hm''. by apply elem_of_nil in Hm''.
Qed.

Lemma tabs_immune v : v ∈ flat_map fs_immune (avalues (tab_scopes n)) → v ∈ charts_of n ∧ v ∉ C.
Proof.
  intros (m & Hm & Hv)%elem_of_flat_scopes. destruct (tab_good m Hm) as (_ & _ & _ & _ & Hg).
  apply (good_immune _ _ Hg) in Hv as [Hv ?]. split; [|done]. apply charts_split. eauto.
Qed.

Lemma own_immune_ok v : v ∈ own_immune n → v ∈ charts_of n ∧ v ∉ C.
Proof. intros [Hv [? _]]%elem_of_own_immune. split; [|done]. apply charts_split. by left. Qed.

(** *** The node is in scope as a whole *)

Definition whole : filter_scope :=
  {| fs_scope := [n_value n];
     fs_immune := own_immune n ++ value_set (not_in_scope ++ flat_map fs_immune (avalues (tab_scopes n))) |}.

Lemma whole_complete v :
  (∀ tab, tab ∈ tab_nodes (n_children n) →
     (fs_scope (scope_of tab) = [] ∨ fs_scope (scope_of tab) = [n_value tab]) ∨
     (chart_nodes (n_children tab) = [] ∧
      ∀ sub, sub ∈ tab_nodes (n_children tab) → tab_nodes (n_children sub) = [])) →
  tame n → v ∈ charts_of n → v ∉ C → v ≠ JNum filterId → v ∈ fs_immune whole.
Proof.
  intros Hshape Htame Hv HC Hf. pose proof (plain_charts n v Hok Hv) as Hp.
  simpl. rewrite elem_of_app. apply charts_split in Hv as [Hv|(tab & Htab & Hv)]; [left; by apply elem_of_own_immune|].
  right. rewrite elem_of_value_set, elem_of_app, elem_of_flat_scopes by done.
  destruct (tab_good tab Htab) as (Htn & Htt & Htok & Htd & Hg).
  pose proof (tame_child tab Htame Htn) as Httame.
  destruct (Hshape tab Htab) as [Hfull|[Hnone Hflat]].
  { right. exists tab. split; [done|]. by apply (good_complete _ _ Hg). }
  destruct (proj1 (elem_of_charts_of tab v Htt) Hv) as (sub & Hsub & Hvs).
  destruct (tree_ok_children tab sub Htok Hsub) as (_ & Hsok & [Hst|Hst]).
  { assert (sub ∈ chart_nodes (n_children tab)) as Hin by by apply elem_of_chart_nodes.
    rewrite Hnone in Hin. by apply elem_of_nil in Hin. }
  apply tab_not_chart in Hst as Hst'. destruct (tree_ok_value sub Hsok Hst') as [y Hy].
  destruct (tab_value tab Htab) as [x Hx].
  assert (covered (fs_scope (scope_of tab)) tab v → v ∈ fs_immune (scope_of tab)) as Hexact
    by (intros; by apply (good_exact _ _ Hg)).
  assert (∀ z w, n_value z = JStr w → n_value z ∈ containers_of tab → js_includes in_scope (n_value z) = true →
    n_value z ∈ fs_scope (scope_of tab)) as Hin.
  { intros z w Hz Hzt (tab' & Htab' & Hzt')%(includes_in_scope z w Hz).
    destruct (tab_good tab' Htab') as (Htn' & _ & _ & _ & Hg').
    by rewrite (distinct_containers_child n tab tab' (n_value z) Hty Hdis Htn Htn' Hzt
      (good_containers _ _ Hg' _ Hzt')). }
  destruct (js_includes in_scope (n_value tab)) eqn:E.
  { right. exists tab. split; [done|]. apply Hexact, covered_here; [done| |done].
    apply (Hin tab x Hx); [by apply value_in_containers|done]. }
  assert (n_value sub ∈ containers_of tab) as Hst_in.
  { apply elem_of_containers_of; [done|]. right. exists sub. split; [done|]. by apply value_in_containers. }
  destruct (js_includes in_scope (n_value sub)) eqn:E'.
  { right. exists tab. split; [done|]. apply Hexact, covered_below with sub; [done|].
    apply covered_here; [done|by apply (Hin sub y Hy)|done]. }
  left. apply elem_of_not_in_scope.
  destruct (proj1 (elem_of_charts_of sub v Hst') Hvs) as (m & Hm & Hvm).
  destruct (tree_ok_children sub m Hsok Hm) as (_ & _ & [Hmt|Hmt]).
  - exists tab, sub, m. rewrite elem_of_chart_nodes. rewrite charts_of_chart in Hvm by done.
    by apply list_elem_of_singleton in Hvm.
  - assert (m ∈ tab_nodes (n_children sub)) as Hmin by by apply elem_of_tab_nodes.
    rewrite Hflat in Hmin by by apply elem_of_tab_nodes. by apply elem_of_nil in Hmin.
Qed.

Lemma whole_good :
  (tame n → ∀ tab, tab ∈ tab_nodes (n_children n) →
     (fs_scope (scope_of tab) = [] ∨ fs_scope (scope_of tab) = [n_value tab]) ∨
     (chart_nodes (n_children tab) = [] ∧
      ∀ sub, sub ∈ tab_nodes (n_children tab) → tab_nodes (n_children sub) = [])) →
  good n whole.
Proof.
  intros Hshape. split.
  - intros x ->%list_elem_of_singleton. by apply value_in_containers.
  - by right; left.
  - intros v Hv _. apply covered_here; [done|left|done].
  - intros v. simpl. rewrite elem_of_app. intros [?%own_immune_ok|Hv%value_set_elem_of]; [done|].
    apply elem_of_app in Hv as [?%unchecked_not_in_scope|?%tabs_immune]; done.
  - intros Htame _ v Hv. by apply whole_complete; auto.
  - intros Htame v Hv. apply whole_complete; auto. by eapply covered_charts.
Qed.

(** *** Only tabs of the node are in scope *)

Lemma tabs_good :
  existsb (checked C) (chart_nodes (n_children n)) = false →
  let componentsInScope := filter (λ s, fs_scope s ≠ []) (avalues (tab_scopes n)) in
  good n
    {| fs_scope := flat_map fs_scope componentsInScope;
       fs_immune := match componentsInScope with
                    | [] => flat_map fs_immune (avalues (tab_scopes n)) ++ own_immune n
                    | _ => flat_map fs_immune componentsInScope
                    end |}.
Proof.
  intros Hunchecked comps.
  assert (∀ (f : filter_scope → list jsval) v, v ∈ flat_map f comps ↔
    ∃ m, m ∈ tab_nodes (n_children n) ∧ fs_scope (scope_of m) ≠ [] ∧ v ∈ f (scope_of m)) as Hcomps.
  { intros f v. rewrite list_elem_of_In, in_flat_map. setoid_rewrite <- list_elem_of_In. unfold comps. split.
    - intros (s & [Hs Hin]%list_elem_of_filter & Hv). apply elem_of_scopes in Hin as (m & Hm & ->). by exists m.
    - intros (m & Hm & Hs & Hv). exists (scope_of m). split; [|done]. apply list_elem_of_filter.
      split; [done|]. apply elem_of_scopes. by exists m. }
  assert (∀ m x, m ∈ tab_nodes (n_children n) → x ∈ fs_scope (scope_of m) → x ∈ flat_map fs_scope comps) as Hscope.
  { intros m x Hm Hx. apply Hcomps. exists m. split; [done|]. split; [|done].
    intros Hnil. rewrite Hnil in Hx. by apply elem_of_nil in Hx. }
  assert (n_value n ∉ flat_map fs_scope comps) as Hself.
  { intros (m & Hm & _ & Hx)%Hcomps. destruct (tab_good m Hm) as (Hmn & _ & _ & _ & Hg).
    by apply (distinct_own_value n m Hty Hdis Hmn), (good_containers _ _ Hg). }
  split; cbn [fs_scope fs_immune].
  - intros x (m & Hm & _ & Hx)%Hcomps. destruct (tab_good m Hm) as (Hmn & _ & _ & _ & Hg).
    apply elem_of_containers_of; [done|]. right. exists m. split; [done|]. by apply (good_containers _ _ Hg).
  - auto.
  - intros v [Hv|(m & Hm & Hv)]%charts_split HvC.
    { apply not_true_iff_false in Hunchecked. destruct Hunchecked. apply existsb_checked.
      destruct Hv as (m & Hm & ->). by exists m. }
    destruct (tab_good m Hm) as (Hmn & _ & Hmok & _ & Hg). apply covered_below with m; [done|].
    eapply covered_restrict; [done| |by apply (good_checked _ _ Hg)]. intros x _. by apply Hscope.
  - destruct comps eqn:E; intros v.
    + rewrite elem_of_app. intros [?%tabs_immune|?%own_immune_ok]; done.
    + rewrite Hcomps. intros (m & Hm & _ & Hv). apply tabs_immune. apply elem_of_flat_scopes. by exists m.
  - intros Htame [Hnil|Hfull] v Hv HC Hf.
    + assert (∀ m, m ∈ tab_nodes (n_children n) → fs_scope (scope_of m) = []) as Hempty.
      { intros m Hm. destruct (fs_scope (scope_of m)) as [|x xs] eqn:E; [done|]. exfalso.
        apply (not_elem_of_nil x). rewrite <- Hnil. apply (Hscope m); [done|]. rewrite E. left. }
      assert (comps = []) as ->.
      { destruct comps as [|s comps'] eqn:E; [done|]. exfalso.
        assert (s ∈ comps) as Hs by (rewrite E; left). unfold comps in Hs.
        apply list_elem_of_filter in Hs as [Hs (m & Hm & ->)%elem_of_scopes]. by apply Hs, Hempty. }
      apply elem_of_app. apply charts_split in Hv as [Hv|(m & Hm & Hv)].
      * right. by apply elem_of_own_immune.
      * left. apply elem_of_flat_scopes. exists m. split; [done|].
        destruct (tab_good m Hm) as (Hmn & _ & _ & _ & Hg). apply (good_complete _ _ Hg); auto.
        by apply tame_child.
    + destruct Hself. rewrite Hfull. left.
  - intros Htame v Hcov HC Hf.
    destruct (covered_in_tab (flat_map fs_scope comps) v) as (m & Hm & Hcm); [|done|].
    { intros x (m & Hm & _ & Hx)%Hcomps. by exists m. }
    destruct (tab_good m Hm) as (Hmn & _ & _ & _ & Hg).
    assert (v ∈ fs_immune (scope_of m)) as Hv by (apply (good_exact _ _ Hg); auto; by apply tame_child).
    assert (fs_scope (scope_of m) ≠ []) as Hne.
    { intros Hnil. rewrite Hnil in Hcm. by apply covered_nil in Hcm. }
    destruct comps as [|s comps'] eqn:E.
    + apply elem_of_app. left. apply elem_of_flat_scopes. by exists m.
    + apply Hcomps. by exists m.
Qed.

Lemma scope_of_good : good n (scope_of n).
Proof.
  rewrite scope_of_eq. pose proof whole_good as Hw. unfold whole, not_in_scope, in_scope in Hw.
  destruct (existsb (checked C) (chart_nodes (n_children n))) eqn:Hex.
  - assert (chart_nodes (n_children n) ≠ []) as Hcharts by (intros Hnil; by rewrite Hnil in Hex).
    assert (tame n → mixed_ok n) as Hmixed by by inversion 1.
    unfold tab_scopes, mixed_ok in *.
    destruct (tab_nodes (n_children n)) as [|tab tabs] eqn:Htabs.
    + rewrite app_nil_r in Hw. apply Hw. by intros _ tab ?%elem_of_nil.
    + apply Hw. intros Htame m Hm. destruct (Hmixed Htame) as [?|Hmix]; [done|].
      destruct (Hmix m Hm) as [Hnone|]; [left|by right].
      assert (scope_of m = if existsb (checked C) (chart_nodes (n_children m))
                           then {| fs_scope := [n_value m]; fs_immune := own_immune m |}
                           else {| fs_scope := []; fs_immune := own_immune m |}) as ->
        by (rewrite scope_of_eq; by rewrite Hnone).
      destruct (existsb (checked C) (chart_nodes (n_children m))); [by right|by left].
  - pose proof (tabs_good Hex) as Ht. cbn zeta in Ht.
    destruct (tab_nodes (n_children n)) as [|tab tabs] eqn:Htabs.
    + unfold tab_scopes in Ht. by rewrite Htabs in Ht.
    + unfold getTabChildrenScope. simpl orb.
      destruct (chart_nodes (n_children n)) as [|m ms] eqn:Hcharts; [|exact Ht]. simpl negb.
      destruct (forallb tab_in_scope (tab_scopes n)) eqn:Hall; [|exact Ht].
      assert (own_immune n = []) as Hown by (unfold own_immune; by rewrite Hcharts).
      rewrite Hown in Hw. apply Hw. intros _ m Hm. left. right.
      rewrite forallb_forall in Hall. rewrite <- Htabs in Hm.
      assert ((to_string (n_value m), scope_of m) ∈ tab_scopes n) as Hin by (apply elem_of_tab_scopes; eauto).
      apply list_elem_of_In, Hall in Hin. unfold tab_in_scope in Hin. simpl in Hin.
      destruct (tab_good m Hm) as (_ & _ & _ & _ & Hg). destruct (tab_value m Hm) as [s Hs].
      destruct (fs_scope (scope_of m)) as [|first rest] eqn:E; [done|].
      apply is_str_true in Hin as ->. rewrite Hs in *. simpl in *.
      destruct (good_shape _ _ Hg) as [Hsh|[Hsh|Hsh]]; rewrite ?E, ?Hs in Hsh; [done|done|].
      destruct Hsh. left.
Qed.
End scope.

Lemma traverse_nodes_good filterId C n :
  tree_ok n → n_type n ≠ CHART_TYPE → distinct n → good filterId C n (traverse_nodes filterId C n).
Proof.
  induction n as [v l ty c ch IH] using snode_nested_ind. intros Hok Hty Hdis.
  apply scope_of_good; [done..|]. intros m Hm Hmt.
  destruct (tree_ok_children _ m Hok Hm) as (_ & Hmok & _).
  apply IH; [done|done|by apply tab_not_chart|]. exact (distinct_child _ m Hty Hdis Hm).
Qed.
