(* ===== verification/ScopeRoundtrip.v ===== *)
(** * From the layout to the scope and back

    The tree of the dialog holds the charts and tabs of the layout, each once;
    the charts collected from a scope are those of its components that are not
    immune.  With the scope of the checked charts these are the checked charts
    again. *)

From Stdlib Require Import Ascii String SpecFloat.
From stdpp Require Import base strings option numbers list relations.
From S2P Require Import Prelude JsObject JsNumber JsValue Layout LayoutReducer LayoutReducerFacts.
From S2P Require Import LayoutMoveFacts LayoutParentsFacts LayoutExamples DashboardState ScopeTree ScopeTreeFacts.

Lemma NoDup_flat_map {A B} (f : A → list B) l :
  NoDup l → (∀ x, x ∈ l → NoDup (f x)) →
  (∀ x y v, x ∈ l → y ∈ l → v ∈ f x → v ∈ f y → x = y) → NoDup (flat_map f l).
Proof.
  induction l as [|x l IH]; intros Hl Hf Hdis; simpl; [constructor|].
  apply NoDup_cons in Hl as [Hx Hl]. apply NoDup_app. split; [apply Hf; left|]. split.
  - intros v Hv Hin. apply list_elem_of_In, in_flat_map in Hin as (y & Hy & Hv').
    apply list_elem_of_In in Hy, Hv'. assert (x = y) as -> by (eapply Hdis; [left|by right|done..]). done.
  - apply IH; [done|..]; intros; [apply Hf; by right|]. eapply Hdis; [by right|by right|done..].
Qed.

Lemma flat_map_concat {A B C} (f : A → list B) (g : B → list C) l :
  flat_map g (flat_map f l) = flat_map (λ x, flat_map g (f x)) l.
Proof. induction l as [|x l IH]; [done|]. simpl. by rewrite flat_map_app, IH. Qed.

Lemma elem_of_flat_map {A B} (f : A → list B) l v : v ∈ flat_map f l ↔ ∃ x, x ∈ l ∧ v ∈ f x.
Proof. rewrite list_elem_of_In, in_flat_map. by setoid_rewrite <- list_elem_of_In. Qed.

Section layout.
Context (l : components).

(** The component shows a chart. *)
Definition chart_at (x : string) (v : jsval) : Prop :=
  ∃ c, aget x l = Some c ∧ c_type c = CHART_TYPE ∧ meta_field "chartId" c = v ∧ truthy v = true.

Definition container_at (x : string) : Prop :=
  ∃ c, aget x l = Some c ∧ c_type c ∈ FILTER_SCOPE_CONTAINER_TYPES.

Definition below (P : string → Prop) (x : string) : Prop := ∃ y, rtc (child l) x y ∧ P y.

(** A layout with one root, whose charts have an id of their own each. *)
Record dashboard_ok : Prop := {
  do_wf : wf l;
  do_root : ∃ root, aget DASHBOARD_ROOT_ID l = Some root ∧ c_type root = DASHBOARD_ROOT_TYPE;
  do_only_root : ∀ x c, aget x l = Some c → c_type c = DASHBOARD_ROOT_TYPE → x = DASHBOARD_ROOT_ID;
  do_not_below : ∀ x, ¬ child l x DASHBOARD_ROOT_ID;
  do_plain : ∀ x v, chart_at x v → plain_value v = true;
  do_no_children : ∀ x y v, chart_at x v → ¬ child l x y;
  do_ids : ∀ x y v, chart_at x v → chart_at y v → x = y;
}.

Hypothesis Hd : dashboard_ok.
Let Hwf : wf l := do_wf Hd.

Lemma below_child P x : below P x ↔ P x ∨ ∃ y, child l x y ∧ below P y.
Proof.
  split.
  - intros (z & Hz & HP). inversion Hz as [|? y ? Hxy Hyz]; subst; [by left|]. right. exists y. split; [done|]. by exists z.
  - intros [HP|(y & Hxy & z & Hyz & HP)]; [by exists x|]. exists z. split; [by eapply rtc_l|done].
Qed.

(** The components at most [fuel] levels below. *)
Definition within (fuel : nat) (x : string) : Prop := ∀ k y, nsteps (child l) k x y → k < fuel.

Lemma within_child fuel x y : within (S fuel) x → child l x y → within fuel y.
Proof. intros Hx Hxy k z Hk. specialize (Hx (S k) z). enough (S k < S fuel) by lia. apply Hx. by econstructor. Qed.

Lemma within_all x : within (S (S (length l))) x.
Proof. intros k y Hk. apply nsteps_bound in Hk; [lia|done]. Qed.

(** What the tree of a component holds. *)
Record built (x : string) (c : component) (t : traversed) : Prop := {
  built_ok : ∀ n, n ∈ nodes_of t → tree_ok n ∧ (n_type n = CHART_TYPE ∨ n_type n ∈ FILTER_SCOPE_CONTAINER_TYPES);
  built_tab : x ≠ DASHBOARD_ROOT_ID → ∀ n, n ∈ nodes_of t → n_type n = CHART_TYPE ∨ n_type n = TAB_TYPE;
  built_one : c_type c ∈ FILTER_SCOPE_CONTAINER_TYPES →
    ∃ n, t = One n ∧ n_type n = c_type c ∧ n_value n = JStr x;
  built_charts : ∀ v, v ∈ flat_map charts_of (nodes_of t) ↔ below (λ y, chart_at y v) x;
  built_containers : ∀ v, v ∈ flat_map containers_of (nodes_of t) ↔
    ∃ y, v = JStr y ∧ below (λ z, z = y ∧ container_at y) x;
  built_charts_NoDup : NoDup (flat_map charts_of (nodes_of t));
  built_containers_NoDup : NoDup (flat_map containers_of (nodes_of t));
  built_covered : ∀ scope v, (∃ n, n ∈ nodes_of t ∧ covered scope n v) ↔
    below (λ y, container_at y ∧ JStr y ∈ scope ∧ below (λ z, chart_at z v) y) x;
}.

(** *** The children of a component *)

Record built_children (x : string) (ch : list snode) : Prop := {
  bc_ok : ∀ n, n ∈ ch → tree_ok n ∧ (n_type n = CHART_TYPE ∨ n_type n = TAB_TYPE);
  bc_charts : ∀ v, v ∈ flat_map charts_of ch ↔ ∃ y, child l x y ∧ below (λ z, chart_at z v) y;
  bc_containers : ∀ v, v ∈ flat_map containers_of ch ↔
    ∃ y z, child l x y ∧ v = JStr z ∧ below (λ w, w = z ∧ container_at z) y;
  bc_charts_NoDup : NoDup (flat_map charts_of ch);
  bc_containers_NoDup : NoDup (flat_map containers_of ch);
  bc_covered : ∀ scope v, (∃ n, n ∈ ch ∧ covered scope n v) ↔
    ∃ y, child l x y ∧ below (λ z, container_at z ∧ JStr z ∈ scope ∧ below (λ w, chart_at w v) z) y;
}.

Lemma below_unique P x y z :
  (∀ a b, P a → P b → a = b) → child l x y → child l x z → below P y → below P z → y = z.
Proof using Hd.
  intros HP Hxy Hxz (a & Hya & Ha) (b & Hzb & Hb). rewrite (HP b a Hb Ha) in Hzb.
  by apply (siblings_disjoint l Hwf x y z a).
Qed.

Lemma built_children_of x c (f : string → list snode) :
  aget x l = Some c →
  (∀ y, y ∈ kids c → ∃ cy ty, aget y l = Some cy ∧ f y = nodes_of ty ∧ built y cy ty) →
  built_children x (flat_map f (kids c)).
Proof using Hd.
  intros Hc Hf. assert (∀ y, child l x y ↔ y ∈ kids c) as Hchild.
  { intros y. split; [by intros (c' & Hc' & Hy); simplify_eq|]. intros Hy. by exists c. }
  assert (NoDup (kids c)) as Hkids by by apply (wf_nodup l Hwf x).
  split.
  - intros n (y & Hy & Hn)%elem_of_flat_map. destruct (Hf y Hy) as (cy & ty & Hcy & Hfy & Hb).
    rewrite Hfy in Hn. split; [by apply (built_ok _ _ _ Hb)|]. apply (built_tab _ _ _ Hb); [|done].
    intros ->. by apply (do_not_below Hd x), Hchild.
  - intros v. rewrite flat_map_concat, elem_of_flat_map. split.
    + intros (y & Hy & Hv). destruct (Hf y Hy) as (cy & ty & Hcy & Hfy & Hb). rewrite Hfy in Hv.
      exists y. split; [by apply Hchild|]. by apply (built_charts _ _ _ Hb).
    + intros (y & Hy%Hchild & Hv). destruct (Hf y Hy) as (cy & ty & Hcy & Hfy & Hb).
      exists y. split; [done|]. rewrite Hfy. by apply (built_charts _ _ _ Hb).
  - intros v. rewrite flat_map_concat, elem_of_flat_map. split.
    + intros (y & Hy & Hv). destruct (Hf y Hy) as (cy & ty & Hcy & Hfy & Hb). rewrite Hfy in Hv.
      apply (built_containers _ _ _ Hb) in Hv as (z & -> & Hz). exists y, z. split; [by apply Hchild|done].
    + intros (y & z & Hy%Hchild & -> & Hz). destruct (Hf y Hy) as (cy & ty & Hcy & Hfy & Hb).
      exists y. split; [done|]. rewrite Hfy. apply (built_containers _ _ _ Hb). by exists z.
  - rewrite flat_map_concat. apply NoDup_flat_map; [done|..].
    + intros y Hy. destruct (Hf y Hy) as (cy & ty & Hcy & -> & Hb). apply (built_charts_NoDup _ _ _ Hb).
    + intros y z v Hy Hz. destruct (Hf y Hy) as (cy & ty & Hcy & -> & Hb), (Hf z Hz) as (cz & tz & Hcz & -> & Hb').
      rewrite (built_charts _ _ _ Hb), (built_charts _ _ _ Hb').
      apply (below_unique _ x); [|by apply Hchild..]. intros a b. apply (do_ids Hd).
  - rewrite flat_map_concat. apply NoDup_flat_map; [done|..].
    + intros y Hy. destruct (Hf y Hy) as (cy & ty & Hcy & -> & Hb). apply (built_containers_NoDup _ _ _ Hb).
    + intros y z v Hy Hz. destruct (Hf y Hy) as (cy & ty & Hcy & -> & Hb), (Hf z Hz) as (cz & tz & Hcz & -> & Hb').
      rewrite (built_containers _ _ _ Hb), (built_containers _ _ _ Hb').
      intros (a & -> & Ha) (b & [= <-] & Hb2). revert Ha Hb2.
      apply (below_unique _ x); [|by apply Hchild..]. by intros ? ? [-> _] [-> _].
  - intros scope v. split.
    + intros (n & (y & Hy & Hn)%elem_of_flat_map & Hcov). destruct (Hf y Hy) as (cy & ty & Hcy & Hfy & Hb).
      rewrite Hfy in Hn. exists y. split; [by apply Hchild|]. apply (built_covered _ _ _ Hb). by exists n.
    + intros (y & Hy%Hchild & Hz). destruct (Hf y Hy) as (cy & ty & Hcy & Hfy & Hb).
      apply (built_covered _ _ _ Hb) in Hz as (n & Hn & Hcov). exists n. split; [|done].
      apply elem_of_flat_map. exists y. split; [done|]. by rewrite Hfy.
Qed.

Lemma built_chart x c sel :
  aget x l = Some c → c_type c = CHART_TYPE → truthy (meta_field "chartId" c) = true →
  built x c (One (chart_node sel c)).
Proof using Hd.
  intros Hc Hty Hid. assert (chart_at x (meta_field "chartId" c)) as Hx by by exists c.
  assert (∀ P, below P x ↔ P x) as Hbelow.
  { intros P. rewrite below_child. split; [|by left]. intros [?|(y & Hxy & _)]; [done|].
    by destruct (do_no_children Hd x y _ Hx). }
  assert (¬ container_at x) as Hnot.
  { intros (c' & Hc' & Hin). simplify_eq. rewrite Hty in Hin. revert Hin. by apply (bool_decide_unpack _). }
  assert (n_type (chart_node sel c) = CHART_TYPE) as Hnty by done.
  split; cbn [nodes_of flat_map]; rewrite ?app_nil_r.
  - intros n ->%list_elem_of_singleton. split; [|by left]. unfold chart_node. rewrite Hty.
    apply tree_ok_chart. by apply (do_plain Hd x).
  - intros _ n ->%list_elem_of_singleton. by left.
  - intros Hin. destruct Hnot. by exists c.
  - intros v. rewrite Hbelow, charts_of_chart by done. rewrite list_elem_of_singleton. simpl. split.
    + by intros ->.
    + intros (c' & Hc' & _ & <- & _). by simplify_eq.
  - intros v. simpl. rewrite Hty. simpl. rewrite elem_of_nil. split; [done|].
    intros (y & -> & [-> Hy]%Hbelow). by destruct Hnot.
  - rewrite charts_of_chart by done. apply NoDup_singleton.
  - simpl. rewrite Hty. simpl. constructor.
  - intros scope v. split.
    + intros (n & ->%list_elem_of_singleton & Hcov).
      inversion Hcov as [? ? Hne|? ? ? Hin]; subst; [done|]. by apply elem_of_nil in Hin.
    + rewrite Hbelow. by intros [Hcont _].
Qed.

Lemma below_no_chart x c v :
  aget x l = Some c → ¬ (c_type c = CHART_TYPE ∧ truthy (meta_field "chartId" c) = true) →
  below (λ y, chart_at y v) x ↔ ∃ y, child l x y ∧ below (λ z, chart_at z v) y.
Proof.
  intros Hc Hno. rewrite below_child. split; [|by right]. intros [(c' & Hc' & ? & <- & ?)|?]; [|done].
  simplify_eq. by destruct Hno.
Qed.

Lemma built_many x c ch :
  aget x l = Some c → ¬ (c_type c = CHART_TYPE ∧ truthy (meta_field "chartId" c) = true) →
  c_type c ∉ FILTER_SCOPE_CONTAINER_TYPES → built_children x ch → built x c (Many ch).
Proof using Hd.
  intros Hc Hno Hcont Hch. assert (¬ container_at x) as Hnot by (intros (c' & Hc' & ?); by simplify_eq).
  split; cbn [nodes_of].
  - intros n Hn. destruct (bc_ok _ _ Hch n Hn) as [? [?|?]]; split; auto. right.
    rewrite H0. by apply (bool_decide_unpack _).
  - intros _ n Hn. by apply (bc_ok _ _ Hch).
  - done.
  - intros v. rewrite (below_no_chart x c v Hc Hno). apply (bc_charts _ _ Hch).
  - intros v. rewrite (bc_containers _ _ Hch). split.
    + intros (y & z & Hxy & -> & Hz). exists z. split; [done|]. apply below_child. right. by exists y.
    + intros (z & -> & [[<- ?]|(y & Hxy & Hz)]%below_child); [done|]. by exists y, z.
  - apply (bc_charts_NoDup _ _ Hch).
  - apply (bc_containers_NoDup _ _ Hch).
  - intros scope v. rewrite (bc_covered _ _ Hch), below_child. split; [by right|]. by intros [[? _]|?].
Qed.

Lemma built_container x c (t : string → string) ch :
  aget x l = Some c → c_type c ∈ FILTER_SCOPE_CONTAINER_TYPES → built_children x ch →
  built x c (One (container_node t c ch)).
Proof using Hd.
  intros Hc Hcont Hch. assert (container_at x) as Hx by by exists c.
  assert (c_type c ≠ CHART_TYPE) as Hne.
  { intros Hty. rewrite Hty in Hcont. revert Hcont. by apply (bool_decide_unpack _). }
  assert (¬ (c_type c = CHART_TYPE ∧ truthy (meta_field "chartId" c) = true)) as Hno by tauto.
  pose proof (wf_ids l Hwf x c Hc) as Hid.
  assert (charts_of (container_node t c ch) = flat_map charts_of ch) as Hcharts
    by (simpl; by rewrite bool_decide_eq_false_2).
  assert (containers_of (container_node t c ch) = JStr x :: flat_map containers_of ch) as Hconts
    by (simpl; rewrite bool_decide_eq_false_2 by done; by rewrite Hid).
  assert (∀ y, child l x y → ¬ below (λ w, w = x ∧ container_at x) y) as Hself.
  { intros y Hxy (w & Hyw & -> & _). by apply (not_below_child l Hwf x y). }
  split; cbn [nodes_of flat_map]; rewrite ?app_nil_r.
  - intros n ->%list_elem_of_singleton. split; [|by right]. apply tree_ok_container; [done|]. apply (bc_ok _ _ Hch).
  - intros Hnr n ->%list_elem_of_singleton. right. simpl. unfold FILTER_SCOPE_CONTAINER_TYPES in Hcont.
    apply elem_of_cons in Hcont as [?|Hroot%list_elem_of_singleton]; [done|].
    by destruct Hnr; apply (do_only_root Hd x c).
  - intros _. eexists. split; [done|]. simpl. by rewrite Hid.
  - intros v. rewrite Hcharts, (below_no_chart x c v Hc Hno). apply (bc_charts _ _ Hch).
  - intros v. rewrite Hconts, elem_of_cons, (bc_containers _ _ Hch). split.
    + intros [-> |(y & z & Hxy & -> & Hz)].
      * exists x. split; [done|]. apply below_child. by left.
      * exists z. split; [done|]. apply below_child. right. by exists y.
    + intros (z & -> & [[<- ?]|(y & Hxy & Hz)]%below_child); [by left|]. right. by exists y, z.
  - rewrite Hcharts. apply (bc_charts_NoDup _ _ Hch).
  - rewrite Hconts. apply NoDup_cons. split; [|apply (bc_containers_NoDup _ _ Hch)].
    intros (y & z & Hxy & [= <-] & Hz)%(bc_containers _ _ Hch). by apply (Hself y).
  - intros scope v. rewrite below_child, <- (bc_covered _ _ Hch). split.
    + intros (n & ->%list_elem_of_singleton & Hcov). inversion Hcov as [? ? _ Hin Hv|? m ? Hm Hcm]; subst.
      * left. split; [done|]. split; [done|]. rewrite Hcharts in Hv.
        rewrite (below_no_chart (c_id c) c v Hc Hno). by apply (bc_charts _ _ Hch).
      * right. by exists m.
    + intros [(_ & Hin & Hv)|(n & Hn & Hcov)]; eexists; (split; [by apply list_elem_of_singleton|]).
      * apply covered_here; [done|simpl; by rewrite Hid|]. rewrite Hcharts.
        rewrite (below_no_chart x c v Hc Hno) in Hv. by apply (bc_charts _ _ Hch).
      * by apply covered_below with n.
Qed.

(** ** The tree *)

Lemma traverse_layout_built (t : string → string) sel fuel x c :
  aget x l = Some c → within fuel x → ∃ tr, traverse_layout t l sel fuel c = Ok tr ∧ built x c tr.
Proof using Hd.
  revert x c. induction fuel as [|fuel IH]; intros x c Hc Hfuel.
  { specialize (Hfuel 0 x (nsteps_O _ _)). lia. }
  cbn [traverse_layout].
  destruct (bool_decide (c_type c = CHART_TYPE) && truthy (meta_field "chartId" c)) eqn:Hchart.
  { apply andb_prop in Hchart as [Hty%bool_decide_eq_true Hid]. eexists. split; [done|]. by apply built_chart. }
  assert (¬ (c_type c = CHART_TYPE ∧ truthy (meta_field "chartId" c) = true)) as Hno.
  { intros [Hty Hid]. by rewrite Hty, Hid in Hchart. }
  set (f := λ y, match aget y l with
                 | Some cy => match traverse_layout t l sel fuel cy with Ok ty => nodes_of ty | Throw _ => [] end
                 | None => []
                 end).
  assert (∀ y, y ∈ kids c → ∃ cy ty, aget y l = Some cy ∧ traverse_layout t l sel fuel cy = Ok ty ∧
            f y = nodes_of ty ∧ built y cy ty) as Hkids.
  { intros y Hy. assert (child l x y) as Hxy by by exists c.
    destruct (wf_closed l Hwf x y Hxy) as [cy Hcy].
    destruct (IH y cy Hcy (within_child _ _ _ Hfuel Hxy)) as (ty & Hty & Hb).
    exists cy, ty. unfold f. by rewrite Hcy, Hty. }
  rewrite (map_result_ok f).
  2: { intros y Hy. destruct (Hkids y Hy) as (cy & ty & Hcy & Hty & -> & _). by rewrite Hcy, Hty. }
  rewrite bind_Ok, <- flat_map_concat_map.
  assert (built_children x (flat_map f (kids c))) as Hch.
  { apply (built_children_of x c); [done|]. intros y Hy.
    destruct (Hkids y Hy) as (cy & ty & Hcy & _ & Hfy & Hb). by exists cy, ty. }
  eexists. split; [done|]. destruct (bool_decide (c_type c ∈ _)) eqn:Hk.
  - apply bool_decide_eq_true in Hk. by apply built_container.
  - apply bool_decide_eq_false in Hk. by apply built_many.
Qed.

(** ** The charts of a scope *)

Lemma traverse_charts_spec immune fuel x :
  within fuel x →
  ∃ vs, traverse_charts l immune fuel x = Ok vs ∧
        ∀ v, v ∈ vs ↔ below (λ y, chart_at y v) x ∧ v ∉ immune.
Proof using Hd.
  revert x. induction fuel as [|fuel IH]; intros x Hfuel.
  { specialize (Hfuel 0 x (nsteps_O _ _)). lia. }
  cbn [traverse_charts]. destruct (aget x l) as [c|] eqn:Hc.
  2: { exists []. split; [done|]. intros v. rewrite elem_of_nil. split; [done|].
       intros [[(c & Hc' & _)|(y & (c & Hc' & _) & _)]%below_child _]; by simplify_eq. }
  assert (∀ y, y ∈ kids c → within fuel y) as Hkids.
  { intros y Hy. apply (within_child _ x); [done|]. by exists c. }
  destruct (bool_decide (c_type c = CHART_TYPE) && truthy (meta_field "chartId" c)) eqn:Hchart.
  - apply andb_prop in Hchart as [Hty%bool_decide_eq_true Hid].
    assert (chart_at x (meta_field "chartId" c)) as Hx by by exists c.
    assert (kids c = []) as Hnone.
    { destruct (kids c) as [|y ys] eqn:E; [done|]. destruct (do_no_children Hd x y _ Hx).
      exists c. rewrite E. split; [done|left]. }
    assert (∀ v, below (λ y, chart_at y v) x ↔ v = meta_field "chartId" c) as Hv.
    { intros v. rewrite below_child. split.
      - intros [(c' & Hc' & _ & <- & _)|(y & (c' & Hc' & Hy) & _)]; simplify_eq; [done|].
        rewrite Hnone in Hy. by apply elem_of_nil in Hy.
      - intros ->. by left. }
    pose proof (js_includes_plain immune _ (do_plain Hd x _ Hx)) as Hinc.
    simpl. destruct (js_includes immune (meta_field "chartId" c)); simpl.
    + rewrite Hnone. exists []. split; [done|]. intros v. rewrite elem_of_nil, Hv. naive_solver.
    + eexists. split; [done|]. intros v. rewrite list_elem_of_singleton, Hv. naive_solver.
  - assert (¬ (c_type c = CHART_TYPE ∧ truthy (meta_field "chartId" c) = true)) as Hno.
    { intros [Hty Hid]. by rewrite Hty, Hid in Hchart. }
    simpl. rewrite (map_result_ok (λ y, default [] (match traverse_charts l immune fuel y with Ok vs => Some vs | _ => None end))).
    2: { intros y Hy. by destruct (IH y (Hkids y Hy)) as (vs & -> & _). }
    eexists. split; [done|]. intros v. rewrite <- flat_map_concat_map, elem_of_flat_map, (below_no_chart x c v Hc Hno).
    split.
    + intros (y & Hy & Hv). destruct (IH y (Hkids y Hy)) as (vs & Hvs & Hspec). rewrite Hvs in Hv.
      apply Hspec in Hv as [Hv ?]. split; [|done]. exists y. split; [by exists c|done].
    + intros [(y & (c' & Hc' & Hy) & Hv) Hi]. simplify_eq. exists y. split; [done|].
      destruct (IH y (Hkids y Hy)) as (vs & Hvs & Hspec). rewrite Hvs. by apply Hspec.
Qed.

Lemma filter_box_charts_spec fs :
  ∃ charts, getChartIdsInFilterScope l (Some (Some fs)) = Ok charts ∧
    ∀ v, v ∈ charts ↔
      (∃ x, x ∈ fs_scope fs ∧ below (λ y, chart_at y v) (to_string x)) ∧ v ∉ fs_immune fs.
Proof using Hd.
  unfold getChartIdsInFilterScope. simpl.
  set (go := λ x, traverse_charts l (fs_immune fs) (S (S (length l))) (to_string x)).
  rewrite (map_result_ok (λ x, default [] (match go x with Ok vs => Some vs | _ => None end))).
  2: { intros x _. cbn beta.
       destruct (traverse_charts_spec (fs_immune fs) _ _ (within_all (to_string x))) as (vs & Hvs & _).
       fold (go x) in Hvs. by rewrite Hvs. }
  eexists. split; [done|]. intros v. rewrite <- flat_map_concat_map, elem_of_flat_map. split.
  - intros (x & Hx & Hv). unfold go in Hv.
    destruct (traverse_charts_spec (fs_immune fs) _ _ (within_all (to_string x))) as (vs & Hvs & Hspec).
    rewrite Hvs in Hv. apply Hspec in Hv as [Hv ?]. split; [|done]. by exists x.
  - intros [(x & Hx & Hv) Hi]. exists x. split; [done|]. unfold go.
    destruct (traverse_charts_spec (fs_immune fs) _ _ (within_all (to_string x))) as (vs & -> & Hspec). by apply Hspec.
Qed.

(** ** The round trip *)

Lemma getFilterScopeNodesTree_root (t : string → string) (k : components) sel c :
  aget DASHBOARD_ROOT_ID k = Some c →
  getFilterScopeNodesTree t k sel = (root ← traverse_layout t k sel (S (S (length k))) c; Ok [root]).
Proof. intros Hc. unfold getFilterScopeNodesTree. destruct k; [done|]. by rewrite Hc. Qed.

Lemma root_tree (t : string → string) sel :
  ∃ n, getFilterScopeNodesTree t l sel = Ok [One n] ∧ tree_ok n ∧ n_type n ≠ CHART_TYPE ∧ distinct n ∧
    (∀ v, v ∈ charts_of n ↔ below (λ y, chart_at y v) DASHBOARD_ROOT_ID) ∧
    (∀ x, x ∈ containers_of n → ∃ y, x = JStr y ∧ rtc (child l) DASHBOARD_ROOT_ID y ∧ container_at y) ∧
    (∀ scope v, covered scope n v ↔
       below (λ y, container_at y ∧ JStr y ∈ scope ∧ below (λ z, chart_at z v) y) DASHBOARD_ROOT_ID).
Proof using Hd.
  destruct (do_root Hd) as (root & Hroot & Htype).
  destruct (traverse_layout_built t sel _ _ _ Hroot (within_all _)) as (tr & Htr & Hb).
  destruct (built_one _ _ _ Hb) as (n & -> & Hn & Hval).
  { rewrite Htype. by apply (bool_decide_unpack _). }
  assert (n ∈ nodes_of (One n)) as Hin by by apply list_elem_of_singleton.
  exists n. split.
  { by rewrite (getFilterScopeNodesTree_root t l sel _ Hroot), Htr. }
  split; [by apply (built_ok _ _ _ Hb)|]. split; [by rewrite Hn, Htype|].
  pose proof (built_charts _ _ _ Hb) as Hcharts. pose proof (built_containers _ _ _ Hb) as Hconts.
  pose proof (built_charts_NoDup _ _ _ Hb) as Hnd1. pose proof (built_containers_NoDup _ _ _ Hb) as Hnd2.
  simpl in *. rewrite app_nil_r in *. split; [by split|]. split; [done|]. split.
  - intros x (y & -> & z & Hz & -> & Hy)%Hconts. by exists y.
  - intros scope v. rewrite <- (built_covered _ _ _ Hb). simpl. split.
    + intros Hcov. by exists n.
    + by intros (m & ->%list_elem_of_singleton & Hcov).
Qed.
End layout.

(** C23. For every dashboard whose charts have ids of their own, and whatever
    charts the user checks for a field of a filter: the tree of the dialog can be
    built, it gives a scope, and the charts in this scope can be collected.  They
    are charts of the dashboard, and every checked chart is among them.  When the
    tabs next to charts are at most two levels deep, and hold no charts next to
    tabs in turn, no other chart is, but for the one the filter belongs to. *)
Theorem checked_charts_in_scope (t : string → string) (l : components) sel filterKey filterId column checkedIds :
  dashboard_ok l → getChartIdAndColumnFromFilterKey filterKey = Ok (filterId, column) →
  ∃ n fs charts,
    getFilterScopeNodesTree t l sel = Ok [One n] ∧
    getFilterScopeFromNodesTree filterKey [One n] checkedIds = Ok (Some fs) ∧
    getChartIdsInFilterScope l (Some (Some fs)) = Ok charts ∧
    (∀ v, v ∈ charts → below l (λ x, chart_at l x v) DASHBOARD_ROOT_ID) ∧
    (∀ v, below l (λ x, chart_at l x v) DASHBOARD_ROOT_ID → v ∈ checkedIds → v ∈ charts) ∧
    (tame n → ∀ v, v ∈ charts → v ∈ checkedIds ∨ v = JNum filterId).
Proof.
  intros Hd Hkey. destruct (root_tree l Hd t sel) as (n & Htree & Hok & Hty & Hdis & Hcharts & Hconts & Hcov).
  pose proof (traverse_nodes_good filterId checkedIds n Hok Hty Hdis) as Hg.
  destruct (filter_box_charts_spec l Hd (traverse_nodes filterId checkedIds n)) as (charts & Hrun & Hspec).
  assert (∀ v, (∃ x, x ∈ fs_scope (traverse_nodes filterId checkedIds n) ∧
                     below l (λ y, chart_at l y v) (to_string x)) ↔
               covered (fs_scope (traverse_nodes filterId checkedIds n)) n v) as Hiff.
  { intros v. rewrite Hcov. split.
    - intros (x & Hx & Hv). pose proof (good_containers _ _ _ _ Hg x Hx) as (y & -> & Hy & Hcont)%Hconts.
      by exists y.
    - intros (y & _ & _ & Hin & Hv). by exists (JStr y). }
  exists n, (traverse_nodes filterId checkedIds n), charts. split; [done|]. split.
  { unfold getFilterScopeFromNodesTree. by rewrite Hkey. }
  split; [done|]. split; [|split].
  - intros v [Hv%Hiff _]%Hspec. apply Hcharts. by eapply covered_charts.
  - intros v Hv%Hcharts HvC. apply Hspec. rewrite Hiff. split; [by apply (good_checked _ _ _ _ Hg)|].
    by intros [_ ?]%(good_immune _ _ _ _ Hg).
  - intros Htame v [Hv%Hiff Hi]%Hspec.
    destruct (decide (v ∈ checkedIds)) as [?|HvC]; [by left|].
    destruct (decide (v = JNum filterId)) as [?|Hf]; [by right|].
    destruct Hi. by apply (good_exact _ _ _ _ Hg).
Qed.

(** ** A dashboard *)

Definition charts_here (kc : string * component) : list jsval :=
  if bool_decide (c_type kc.2 = CHART_TYPE) && truthy (meta_field "chartId" kc.2)
  then [meta_field "chartId" kc.2] else [].

Definition dashboard_check (l : components) : bool :=
  wf_check l &&
  match aget DASHBOARD_ROOT_ID l with
  | Some root => bool_decide (c_type root = DASHBOARD_ROOT_TYPE)
  | None => false
  end &&
  forallb (λ kc,
    (bool_decide (c_type kc.2 ≠ DASHBOARD_ROOT_TYPE) || bool_decide (kc.1 = DASHBOARD_ROOT_ID)) &&
    bool_decide (DASHBOARD_ROOT_ID ∉ kids kc.2) &&
    forallb (λ v, plain_value v && bool_decide (kids kc.2 = [])) (charts_here kc)) l &&
  bool_decide (NoDup (flat_map charts_here l)).

Lemma dashboard_check_ok l : dashboard_check l = true → dashboard_ok l.
Proof.
  unfold dashboard_check. intros [[[Hwf%wf_check_wf Hroot]%andb_prop Hall]%andb_prop Hnd]%andb_prop.
  apply bool_decide_eq_true in Hnd.
  assert (∀ x v, chart_at l x v → ∃ c, aget x l = Some c ∧ (x, c) ∈ l ∧ v ∈ charts_here (x, c)) as Hchart.
  { intros x v (c & Hc & Hty & <- & Hv). exists c. split; [done|]. split; [by apply aget_Some_elem|].
    unfold charts_here. simpl. rewrite bool_decide_eq_true_2, Hv by done. by apply list_elem_of_singleton. }
  assert (∀ x c, aget x l = Some c → (c_type c ≠ DASHBOARD_ROOT_TYPE ∨ x = DASHBOARD_ROOT_ID) ∧
    DASHBOARD_ROOT_ID ∉ kids c ∧ ∀ v, v ∈ charts_here (x, c) → plain_value v = true ∧ kids c = []) as Hone.
  { intros x c Hc. pose proof (forallb_aget _ _ _ _ Hall Hc) as H. cbn in H.
    apply andb_prop in H as [[H1 H2%bool_decide_eq_true]%andb_prop H3]. split; [|split; [done|]].
    - apply orb_prop in H1 as [H1|H1]; apply bool_decide_eq_true in H1; auto.
    - intros v Hv. rewrite forallb_forall in H3. apply list_elem_of_In, H3, andb_prop in Hv as [? Hk].
      by apply bool_decide_eq_true in Hk. }
  split; [done| | | | | |].
  - destruct (aget DASHBOARD_ROOT_ID l) as [root|]; [|done]. exists root. by apply bool_decide_eq_true in Hroot.
  - intros x c Hc Hty. by destruct (Hone x c Hc) as [[?|?] _].
  - intros x (c & Hc & Hin). by destruct (Hone x c Hc) as (_ & ? & _).
  - intros x v (c & Hc & _ & Hv)%Hchart. by destruct (Hone x c Hc) as (_ & _ & H); apply H.
  - intros x y v (c & Hc & _ & Hv)%Hchart (c' & Hc' & Hy). simplify_eq.
    destruct (Hone x c Hc) as (_ & _ & H). destruct (H v Hv) as [_ Hk]. rewrite Hk in Hy. by apply elem_of_nil in Hy.
  - intros x y v (c & _ & Hc & Hv)%Hchart (c' & _ & Hc' & Hv')%Hchart.
    by pose proof (flat_map_disjoint charts_here l _ _ v Hnd Hc Hc' Hv Hv') as [= -> _].
Qed.

Module Mixed_tabs.
Definition comp (id type : string) (children : list string) (meta : jsobj) : string * component :=
  (id, {| c_id := id; c_type := type; c_children := Some children; c_parents := None; c_meta := Some meta |}).

Definition chart (id : string) (n : Z) : string * component := comp id "CHART" [] [("chartId", JNum (num_of_Z n))].

(** A chart next to tabs; one of the tabs has a chart next to tabs of its own. *)
Definition layout : components :=
  [comp "ROOT_ID" "ROOT" ["GRID_ID"] [];
   comp "GRID_ID" "GRID" ["ROW-1"; "TABS-1"] [];
   comp "ROW-1" "ROW" ["CHART-1"] []; chart "CHART-1" 1;
   comp "TABS-1" "TABS" ["TAB-1"; "TAB-2"] [];
   comp "TAB-1" "TAB" ["CHART-2"; "TABS-2"] []; chart "CHART-2" 2;
   comp "TABS-2" "TABS" ["TAB-3"; "TAB-4"] [];
   comp "TAB-3" "TAB" ["CHART-3"] []; chart "CHART-3" 3;
   comp "TAB-4" "TAB" ["CHART-4"] []; chart "CHART-4" 4;
   comp "TAB-2" "TAB" ["CHART-5"] []; chart "CHART-5" 5].

(** The same, with the second chart in a tab of its own. *)
Definition plain_layout : components :=
  [comp "ROOT_ID" "ROOT" ["GRID_ID"] [];
   comp "GRID_ID" "GRID" ["ROW-1"; "TABS-1"] [];
   comp "ROW-1" "ROW" ["CHART-1"] []; chart "CHART-1" 1;
   comp "TABS-1" "TABS" ["TAB-1"; "TAB-2"] [];
   comp "TAB-1" "TAB" ["TABS-2"] [];
   comp "TABS-2" "TABS" ["TAB-3"; "TAB-4"; "TAB-5"] [];
   comp "TAB-3" "TAB" ["CHART-3"] []; chart "CHART-3" 3;
   comp "TAB-4" "TAB" ["CHART-4"] []; chart "CHART-4" 4;
   comp "TAB-5" "TAB" ["CHART-2"] []; chart "CHART-2" 2;
   comp "TAB-2" "TAB" ["CHART-5"] []; chart "CHART-5" 5].

Definition ids (ns : list Z) : list jsval := JNum ∘ num_of_Z <$> ns.

Definition collected (layout : components) (checkedIds : list Z) : result (list jsval) :=
  nodes ← getFilterScopeNodesTree (λ s, s) layout JNull;
  fs ← getFilterScopeFromNodesTree "5_country" nodes (ids checkedIds);
  getChartIdsInFilterScope layout (Some fs).
End Mixed_tabs.

(** The second chart is not checked, but comes into the scope: the tab it stands
    in is only partly in scope, and the charts of such a tab are immune only
    when they stand in tabs of it.  The fifth chart is the one of the filter,
    which is taken out of the scope later. *)
Example unchecked_chart_in_scope :
  Mixed_tabs.collected Mixed_tabs.layout [1; 3]%Z = Ok (Mixed_tabs.ids [1; 2; 3; 5]%Z).
Proof. by vm_compute. Qed.

Definition mixed_check (n : snode) : bool :=
  bool_decide (length (chart_nodes (n_children n)) = 0) ||
  forallb (λ tab,
    bool_decide (length (tab_nodes (n_children tab)) = 0) ||
    (bool_decide (length (chart_nodes (n_children tab)) = 0) &&
     forallb (λ sub, bool_decide (length (tab_nodes (n_children sub)) = 0)) (tab_nodes (n_children tab))))
    (tab_nodes (n_children n)).

Fixpoint tame_check (n : snode) : bool :=
  let 'SNode _ _ _ _ ch := n in mixed_check n && forallb tame_check ch.

Lemma tame_check_ok n : tame_check n = true → tame n.
Proof.
  assert (∀ ns : list snode, bool_decide (length ns = 0) = true → ns = []) as Hnil.
  { intros ns H%bool_decide_eq_true. by apply nil_length_inv. }
  induction n as [v l ty c ch IH] using snode_nested_ind. intros [Hm Hch]%andb_prop. constructor.
  - apply orb_prop in Hm as [Hm|Hm]; [left; by apply Hnil|]. right. intros tab Htab.
    rewrite forallb_forall in Hm. apply list_elem_of_In, Hm in Htab.
    apply orb_prop in Htab as [H|[H Hs]%andb_prop]; [left; by apply Hnil|]. right. split; [by apply Hnil|].
    intros sub Hsub. rewrite forallb_forall in Hs. apply list_elem_of_In, Hs in Hsub. by apply Hnil.
  - rewrite forallb_forall in Hch. intros m Hm'. apply IH; [done|]. by apply Hch, list_elem_of_In.
Qed.

Example plain_layout_tame :
  match getFilterScopeNodesTree (λ s, s) Mixed_tabs.plain_layout JNull with
  | Ok [One n] => tame n
  | _ => False
  end.
Proof. apply tame_check_ok. by vm_compute. Qed.

Lemma checked_charts_in_scope_witness :
  ∃ n fs charts,
    getFilterScopeNodesTree (λ s, s) Mixed_tabs.plain_layout JNull = Ok [One n] ∧
    getFilterScopeFromNodesTree "5_country" [One n] (Mixed_tabs.ids [1; 4]%Z) = Ok (Some fs) ∧
    getChartIdsInFilterScope Mixed_tabs.plain_layout (Some (Some fs)) = Ok charts ∧
    (∀ v, v ∈ charts →
          below Mixed_tabs.plain_layout (λ x, chart_at Mixed_tabs.plain_layout x v) DASHBOARD_ROOT_ID) ∧
    (∀ v, below Mixed_tabs.plain_layout (λ x, chart_at Mixed_tabs.plain_layout x v) DASHBOARD_ROOT_ID →
          v ∈ Mixed_tabs.ids [1; 4]%Z → v ∈ charts) ∧
    (tame n → ∀ v, v ∈ charts → v ∈ Mixed_tabs.ids [1; 4]%Z ∨ v = JNum (num_of_Z 5)).
Proof.
  apply (checked_charts_in_scope (λ s, s) Mixed_tabs.plain_layout JNull "5_country" (num_of_Z 5) "country"
           (Mixed_tabs.ids [1; 4]%Z)).
  - apply dashboard_check_ok. by vm_compute.
  - by vm_compute.
Defined.
