(* ===== verification/ChartQueries.v ===== *)
(** * The queries of the charts

    Each chart plugin has a [buildQuery.ts] that turns its form data into the
    queries sent to the server: it passes a builder to [buildQueryContext], which
    gets the base query object and returns the queries.  The builders add
    columns, an order and the post-processing operators.  The mixed chart splits
    its form data into those of two charts first; the table keeps the filters of
    its last query in a closure.

    A value an operator leaves undefined is filtered out of the post-processing
    by [buildQueryContext]. *)

From Stdlib Require Import Ascii String.
From stdpp Require Import base strings option numbers list sets.
From S2P Require Import Prelude JsObject JsNumber JsValue JsJson Lodash QueryTypes Query PostProcessing.
From S2P Require Import DashboardState.

(** [v.map(...)] *)
Definition map_items (v : jsval) : result (list jsval) :=
  match v with
  | JArr xs => Ok xs
  | JUndef => Throw (TypeError "Cannot read properties of undefined (reading 'map')")
  | JNull => Throw (TypeError "Cannot read properties of null (reading 'map')")
  | _ => Throw (TypeError "map is not a function")
  end.

Definition oset_if (b : bool) (k : string) (v : jsval) (o : jsobj) : jsobj :=
  if b then oset k v o else o.

Definition pair (a b : jsval) : jsval := JArr [a; b].
Definition negation (v : jsval) : jsval := JBool (negb (truthy v)).

(** The column of the time axis, made from a physical one. *)
Definition base_axis (timeGrain col : jsval) : jsval :=
  JObj [("timeGrain", timeGrain); ("columnType", JStr "BASE_AXIS"); ("sqlExpression", col);
        ("label", col); ("expressionType", JStr "SQL")].

(** [formData?.temporal_columns_lookup?.[col]] *)
Definition temporal (formData : jsobj) (col : jsval) : bool :=
  truthy (opt_field (to_string col) (ofield "temporal_columns_lookup" formData)).

(** ** Suffixes of controls *)

(** [s] without the suffix, when it ends with it *)
Fixpoint strip_suffix (suffix s : string) : option string :=
  if bool_decide (s = suffix) then Some EmptyString
  else match s with
       | EmptyString => None
       | String c s => String c <$> strip_suffix suffix s
       end.

Definition ends_with (suffix s : string) : bool := bool_decide (is_Some (strip_suffix suffix s)).

(** [key.slice(0, -suffix.length)] of a key that ends with the suffix *)
Definition without_suffix (suffix key : string) : string :=
  if bool_decide (suffix = EmptyString) then EmptyString else default key (strip_suffix suffix key).

(** The controls with the suffix come first, so that they take the place of
    the ones without.

    @source plugins/plugin-chart-echarts/src/utils/formDataSuffix.ts 21-53 retainFormDataSuffix *)
Definition retainFormDataSuffix (formData : jsobj) (controlSuffix : string) : jsobj :=
  let suffixed := filter (λ kv, ends_with controlSuffix kv.1 = true) formData in
  let others := filter (λ kv, ends_with controlSuffix kv.1 = false) formData in
  let newFormData := from_entries (prod_map (without_suffix controlSuffix) id <$> suffixed) in
  foldl (λ o kv, if ahas kv.1 o then o else oset kv.1 kv.2 o) newFormData others.

(** @source plugins/plugin-chart-echarts/src/utils/formDataSuffix.ts 55-74 removeFormDataSuffix *)
Definition removeFormDataSuffix (formData : jsobj) (controlSuffix : string) : jsobj :=
  from_entries (filter (λ kv, ends_with controlSuffix kv.1 = false) formData).

Section queries.
Context `{Lodash}.

(** ** Time series *)

Definition x_axis_columns (formData : jsobj) : list jsval :=
  if isXAxisSet formData then ensureIsArray (getXAxisColumn formData) else [].

(** @source plugins/plugin-chart-echarts/src/Timeseries/buildQuery.ts 45-112 buildQuery (builder) *)
Definition timeseries_query (formData baseQueryObject : jsobj) : result (list jsobj) :=
  let groupby := ofield "groupby" formData in
  extra_metrics ← extractExtraMetrics formData;
  comparison ← isTimeComparison formData baseQueryObject;
  pivot ← (if (comparison : bool) then timeComparePivotOperator formData baseQueryObject
           else pivotOperator formData baseQueryObject);
  let columns := x_axis_columns formData ++ ensureIsArray groupby in
  let time_offsets := if (comparison : bool) then ofield "time_compare" formData else JArr [] in
  metrics ← spread_items (js_or (ofield "metrics" baseQueryObject) (JArr []));
  rolling ← rollingWindowOperator formData baseQueryObject;
  compare ← timeCompareOperator formData baseQueryObject;
  resample ← resampleOperator formData baseQueryObject;
  rename ← renameOperator formData baseQueryObject;
  contribution ← contributionOperator formData baseQueryObject time_offsets;
  sort ← sortOperator formData;
  flatten ← flattenOperator formData baseQueryObject;
  prophet ← prophetOperator formData baseQueryObject;
  Ok [oset "post_processing"
        (JArr [pivot; rolling; compare; resample; rename; contribution; sort; flatten; prophet])
        (oset "time_offsets" time_offsets
        (oset "orderby" (ofield "orderby" (normalizeOrderBy baseQueryObject))
        (oset_if (negb (isXAxisSet formData)) "is_timeseries" (JBool true)
        (oset "series_columns" groupby
        (oset "columns" (JArr columns)
        (oset "metrics" (JArr ((metrics : list jsval) ++ extra_metrics)) baseQueryObject))))))].

(** @source plugins/plugin-chart-echarts/src/Timeseries/buildQuery.ts 43-114 buildQuery *)
Definition timeseries_buildQuery (formData : jsobj) : result jsobj :=
  buildQueryContext formData (BuildFunction (timeseries_query formData)).

(** One of the two queries; whether there is an x axis is read from the form
    data of the whole chart.

    @source plugins/plugin-chart-echarts/src/MixedTimeseries/buildQuery.ts 52-86 buildQuery (builder) *)
Definition mixed_query (formData fd baseQueryObject : jsobj) : result (list jsobj) :=
  let queryObject :=
    oset_if (negb (isXAxisSet formData)) "is_timeseries" (JBool true)
      (oset "series_columns" (ofield "groupby" fd)
      (oset "columns" (JArr (x_axis_columns formData ++ ensureIsArray (ofield "groupby" fd))) baseQueryObject)) in
  comparison ← isTimeComparison fd queryObject;
  pivot ← (if (comparison : bool) then timeComparePivotOperator fd queryObject else pivotOperator fd queryObject);
  rolling ← rollingWindowOperator fd queryObject;
  compare ← timeCompareOperator fd queryObject;
  resample ← resampleOperator fd queryObject;
  rename ← renameOperator fd queryObject;
  flatten ← flattenOperator fd queryObject;
  Ok [normalizeOrderBy
        (oset "post_processing" (JArr [pivot; rolling; compare; resample; rename; flatten])
        (oset "time_offsets" (if (comparison : bool) then ofield "time_compare" fd else JArr []) queryObject))].

(** @source plugins/plugin-chart-echarts/src/MixedTimeseries/buildQuery.ts 44-93 buildQuery *)
Definition mixed_buildQuery (formData : jsobj) : result jsobj :=
  let formData1 := removeFormDataSuffix formData "_b" in
  let formData2 := retainFormDataSuffix formData "_b" in
  context1 ← buildQueryContext formData1 (BuildFunction (mixed_query formData formData1));
  context2 ← buildQueryContext formData2 (BuildFunction (mixed_query formData formData2));
  Ok (oset "queries"
        (JArr (array_items (ofield "queries" context1) ++ array_items (ofield "queries" context2))) context1).

(** ** Big numbers *)

Definition custom_shift (shift : jsval) : bool := is_str shift "custom" || is_str shift "inherit".

(** The shifts of the time comparison, with the date of a custom one.

    @source plugins/plugin-chart-echarts/src/BigNumber/BigNumberPeriodOverPeriod/buildQuery.ts 38-60 buildQuery (shifts) *)
Definition time_shifts (formData : jsobj) : list jsval :=
  let shifts := ensureIsArray (ofield "time_compare" formData) in
  let custom := filter (λ s, custom_shift s = true) shifts in
  filter (λ s, custom_shift s = false) shifts ++
  (if existsb (λ s, is_str s "custom") custom then [ofield "start_date_offset" formData] else []) ++
  (if existsb (λ s, is_str s "inherit") custom then [JStr "inherit"] else []).

(** @source plugins/plugin-chart-echarts/src/BigNumber/BigNumberPeriodOverPeriod/buildQuery.ts 31-76 buildQuery *)
Definition period_over_period_buildQuery (formData : jsobj) : result jsobj :=
  buildQueryContext formData (BuildFunction (λ base,
    compare ← timeCompareOperator formData base;
    comparison ← isTimeComparison formData base;
    Ok [oset "time_offsets" (JArr (if (comparison : bool) then time_shifts formData else []))
          (oset "post_processing" (JArr [compare]) (oset "groupby" (ofield "cols" formData) base))])).

(** @source plugins/plugin-chart-echarts/src/BigNumber/BigNumberTotal/buildQuery.ts 21-23 buildQuery *)
Definition big_number_total_buildQuery (formData : jsobj) : result jsobj :=
  buildQueryContext formData (BuildFunction (λ base, Ok [base])).

(** @source plugins/plugin-chart-echarts/src/BigNumber/BigNumberWithTrendline/buildQuery.ts 35-75 buildQuery *)
Definition trendline_buildQuery (formData : jsobj) : result jsobj :=
  let raw := is_str (ofield "aggregation" formData) "raw" in
  let timeColumn := x_axis_columns formData in
  buildQueryContext formData (BuildFunction (λ base,
    pivot ← pivotOperator formData base;
    rolling ← rollingWindowOperator formData base;
    resample ← resampleOperator formData base;
    flatten ← flattenOperator formData base;
    let trend :=
      oset "post_processing" (JArr (filter (λ r, truthy r = true) [pivot; rolling; resample; flatten]))
        (oset_if (bool_decide (timeColumn = [])) "is_timeseries" (JBool true)
        (oset "columns" (JArr timeColumn) base)) in
    let number :=
      oset "post_processing" (JArr [])
        (oset "is_timeseries" (JBool false) (oset "columns" (JArr []) base)) in
    Ok (trend :: (if raw then [number] else [])))).

(** ** Pivot tables *)

(** @source plugins/plugin-chart-pivot-table/src/plugin/buildQuery.ts 29-74 buildQuery *)
Definition pivot_table_buildQuery (formData : jsobj) : result jsobj :=
  let time_grain :=
    js_or (opt_field "time_grain_sqla" (ofield "extra_form_data" formData)) (ofield "time_grain_sqla" formData) in
  let columns :=
    (λ col, if isPhysicalColumn col && truthy time_grain &&
               (temporal formData col || strict_eq (ofield "granularity_sqla" formData) col)
            then base_axis time_grain col else col) <$>
      value_set (ensureIsArray (ofield "groupbyColumns" formData) ++ ensureIsArray (ofield "groupbyRows" formData)) in
  buildQueryContext formData (BuildFunction (λ base,
    let limit := ofield "series_limit_metric" base in
    let descending := negation (ofield "order_desc" base) in
    let orderBy :=
      if truthy limit then JArr [pair limit descending]
      else match ofield "metrics" base with
           | JArr (m :: _) => if truthy m then JArr [pair m descending] else JUndef
           | _ => JUndef
           end in
    Ok [oset "columns" (JArr columns) (oset "orderby" orderBy base)])).

(** ** Other charts *)

(** [s.includes(t)] of a setting *)
Definition setting_includes (v : jsval) (t : string) : result bool :=
  match v with
  | JStr s => Ok (includes t s)
  | JArr xs => Ok (js_includes xs (JStr t))
  | _ => Throw (TypeError "includes is not a function")
  end.

(** The order by one axis: by the metric or by the column, ascending or not.

    @source plugins/plugin-chart-echarts/src/Heatmap/buildQuery.ts 39-50 buildQuery (axis) *)
Definition axis_order (setting metric column : jsval) : result (list jsval) :=
  if truthy setting then
    by_value ← setting_includes setting "value";
    ascending ← setting_includes setting "asc";
    Ok [pair (if (by_value : bool) then metric else column) (JBool ascending)]
  else Ok [].

(** @source plugins/plugin-chart-echarts/src/Heatmap/buildQuery.ts 31-71 buildQuery *)
Definition heatmap_buildQuery (formData : jsobj) : result jsobj :=
  let across := ofield "normalize_across" formData in
  metric ← getMetricLabel (ofield "metric" formData);
  let columns := ensureIsArray (getXAxisColumn formData) ++ ensureIsArray (ofield "groupby" formData) in
  let column i := default JUndef (columns !! i) in
  order_x ← axis_order (ofield "sort_x_axis" formData) metric (column 0);
  order_y ← axis_order (ofield "sort_y_axis" formData) metric (column 1);
  let group_by :=
    if is_str across "x" then getColumnLabel (ofield "x_axis" formData)
    else if is_str across "y" then getColumnLabel (ofield "groupby" formData) else JUndef in
  buildQueryContext formData (BuildFunction (λ base,
    rank ← rankOperator formData base (JObj [("metric", metric); ("group_by", group_by)]);
    Ok [oset "post_processing" (JArr [rank])
          (oset "orderby" (JArr ((order_x : list jsval) ++ order_y)) (oset "columns" (JArr columns) base))])).

(** @source plugins/plugin-chart-echarts/src/Gantt/buildQuery.ts 26-61 buildQuery *)
Definition gantt_buildQuery (formData : jsobj) : result jsobj :=
  let groupBy := ensureIsArray (ofield "series" formData) in
  orderby ← map_result (λ expr, JSON_parse (to_string expr)) (ensureIsArray (ofield "order_by_cols" formData));
  let ordered := (λ v, default JUndef (head (array_items v))) <$> (orderby : list jsval) in
  let columns := value_set
    ([ofield "start_time" formData; ofield "end_time" formData; ofield "y_axis" formData] ++ groupBy ++
     ensureIsArray (ofield "tooltip_columns" formData) ++ ordered) in
  buildQueryContext formData (BuildFunction (λ base,
    Ok [oset "series_columns" (JArr groupBy)
          (oset "orderby" (JArr orderby)
          (oset "metrics" (JArr (ensureIsArray (ofield "tooltip_metrics" formData)))
          (oset "columns" (JArr columns) base)))])).

(** @source plugins/plugin-chart-echarts/src/BoxPlot/buildQuery.ts 28-59 buildQuery *)
Definition boxplot_buildQuery (formData : jsobj) : result jsobj :=
  let own := ensureIsArray (ofield "columns" formData) in
  let granularity := ofield "granularity_sqla" formData in
  let grain := ofield "time_grain_sqla" formData in
  let distributed := if bool_decide (own = []) && truthy granularity then [granularity] else own in
  let columns :=
    ((λ col, if isPhysicalColumn col && truthy grain && temporal formData col then base_axis grain col else col)
       <$> distributed) ++ ensureIsArray (ofield "groupby" formData) in
  buildQueryContext formData (BuildFunction (λ base,
    boxplot ← boxplotOperator formData base;
    Ok [oset "post_processing" (JArr [boxplot])
          (oset "series_columns" (ofield "groupby" formData) (oset "columns" (JArr columns) base))])).

(** Ordered by a metric, or by the first one of the query, descending.

    @source plugins/plugin-chart-echarts/src/Radar/buildQuery.ts 25-47 buildQuery *)
Definition radar_buildQuery (formData : jsobj) : result jsobj :=
  let sortByMetric := default JUndef (head (ensureIsArray (ofield "series_limit_metric" formData))) in
  buildQueryContext formData (BuildFunction (λ base,
    let orderby :=
      if truthy sortByMetric then JArr [pair sortByMetric (JBool false)]
      else match ofield "metrics" base with
           | JArr (m :: _) => JArr [pair m (JBool false)]
           | _ => with_default (ofield "orderby" base) (JArr [])
           end in
    Ok [oset "orderby" orderby base])).

(** The base query, ordered by the metric of the chart when it is asked for.

    @source plugins/plugin-chart-echarts/src/Funnel/buildQuery.ts 21-29 buildQuery *)
Definition by_metric (formData base : jsobj) : jsobj :=
  oset_if (truthy (ofield "sort_by_metric" formData)) "orderby"
    (JArr [pair (ofield "metric" formData) (JBool false)]) base.

Definition by_metric_buildQuery (formData : jsobj) : result jsobj :=
  buildQueryContext formData (BuildFunction (λ base, Ok [by_metric formData base])).

(** @source plugins/plugin-chart-echarts/src/Gauge/buildQuery.ts 21-29 buildQuery *)
Definition gauge_buildQuery : jsobj → result jsobj := by_metric_buildQuery.

(** @source plugins/plugin-chart-echarts/src/Sunburst/buildQuery.ts 21-29 buildQuery *)
Definition sunburst_buildQuery : jsobj → result jsobj := by_metric_buildQuery.

(** @source plugins/plugin-chart-echarts/src/Treemap/buildQuery.ts 21-30 buildQuery *)
Definition treemap_buildQuery : jsobj → result jsobj := by_metric_buildQuery.

(** @source plugins/plugin-chart-word-cloud/src/plugin/buildQuery.ts 23-33 buildQuery *)
Definition word_cloud_buildQuery : jsobj → result jsobj := by_metric_buildQuery.

(** @source plugins/plugin-chart-echarts/src/Sankey/buildQuery.ts 22-32 buildQuery *)
Definition sankey_buildQuery (formData : jsobj) : result jsobj :=
  buildQueryContext formData (BuildFunction (λ base,
    Ok [by_metric formData
          (oset "groupby" (JArr [ofield "source" formData; ofield "target" formData]) base)])).

(** @source plugins/plugin-chart-echarts/src/Pie/constants.ts 19-19 CONTRIBUTION_SUFFIX *)
Definition CONTRIBUTION_SUFFIX : string := "__contribution".

(** @source plugins/plugin-chart-echarts/src/Pie/utils.ts 21-22 getContributionLabel *)
Definition getContributionLabel (metricLabel : jsval) : string :=
  to_string metricLabel +:+ CONTRIBUTION_SUFFIX.

(** @source plugins/plugin-chart-echarts/src/Pie/buildQuery.ts 26-45 buildQuery *)
Definition pie_buildQuery (formData : jsobj) : result jsobj :=
  metricLabel ← getMetricLabel (ofield "metric" formData);
  buildQueryContext formData (BuildFunction (λ base,
    Ok [oset "post_processing"
          (JArr [rule "contribution"
                   [("columns", JArr [metricLabel]);
                    ("rename_columns", JArr [JStr (getContributionLabel metricLabel)])]])
          (by_metric formData base)])).

(** @source plugins/plugin-chart-echarts/src/Bubble/buildQuery.ts 25-40 buildQuery *)
Definition bubble_buildQuery (formData : jsobj) : result jsobj :=
  let columns := ensureIsArray (ofield "entity" formData) ++ ensureIsArray (ofield "series" formData) in
  buildQueryContext formData (BuildFunction (λ base,
    let orderby := ofield "orderby" base in
    Ok [oset "orderby"
          (if truthy orderby
           then JArr [pair (default JUndef (head (array_items orderby))) (negation (ofield "order_desc" base))]
           else JUndef)
          (oset "columns" (JArr columns) base)])).

(** @source plugins/plugin-chart-echarts/src/Waterfall/buildQuery.ts 25-38 buildQuery *)
Definition waterfall_buildQuery (formData : jsobj) : result jsobj :=
  let columns :=
    ensureIsArray (js_or (ofield "x_axis" formData) (ofield "granularity_sqla" formData)) ++
    ensureIsArray (ofield "groupby" formData) in
  buildQueryContext formData (BuildFunction (λ base,
    Ok [oset "orderby" (JArr ((λ c, pair c (JBool true)) <$> columns)) (oset "columns" (JArr columns) base)])).

(** @source plugins/plugin-chart-echarts/src/Histogram/buildQuery.ts 23-33 buildQuery *)
Definition histogram_buildQuery (formData : jsobj) : result jsobj :=
  buildQueryContext formData (BuildFunction (λ base,
    groupby ← spread_items (with_default (ofield "groupby" formData) (JArr []));
    histogram ← histogramOperator formData base;
    Ok [oset "metrics" JUndef
          (oset "post_processing" (JArr [histogram])
          (oset "columns" (JArr ((groupby : list jsval) ++ [ofield "column" formData])) base))])).

(** @source plugins/plugin-chart-handlebars/src/plugin/buildQuery.ts 25-32 buildQuery *)
Definition handlebars_buildQuery (formData : jsobj) : result jsobj :=
  buildQueryContext formData (BuildFunction (λ base,
    Ok [oset "orderby" (ofield "orderby" (normalizeOrderBy base)) base])).

Definition columns_fields (controls : list string) : query_options :=
  Options None (Some ((λ c, (c, JStr "columns")) <$> controls)).

(** @source plugins/plugin-chart-echarts/src/Graph/buildQuery.ts 21-30 buildQuery *)
Definition graph_buildQuery (formData : jsobj) : result jsobj :=
  buildQueryContext formData (columns_fields ["source"; "target"; "source_category"; "target_category"]).

(** @source plugins/plugin-chart-echarts/src/Tree/buildQuery.ts 21-29 buildQuery *)
Definition tree_buildQuery (formData : jsobj) : result jsobj :=
  buildQueryContext formData (columns_fields ["id"; "parent"; "name"]).

(** ** Tables *)

Inductive QueryMode := Aggregate | Raw.

(** @source plugins/plugin-chart-table/src/buildQuery.ts 47-55 getQueryMode *)
Definition getQueryMode (formData : jsobj) : QueryMode :=
  let mode := ofield "query_mode" formData in
  if is_str mode "aggregate" then Aggregate
  else if is_str mode "raw" then Raw
  else if has_length (ofield "all_columns" formData) then Raw else Aggregate.

(** The metrics each with its shifted ones.

    @source plugins/plugin-chart-table/src/buildQuery.ts 79-83 addComparisonPercentMetrics *)
Definition addComparisonPercentMetrics (metrics suffixes : list jsval) : list jsval :=
  flat_map (λ metric,
    metric :: ((λ suffix, JStr (to_string metric +:+ "__" +:+ to_string suffix)) <$> suffixes)) metrics.

(** @source plugins/plugin-chart-table/src/buildQuery.ts 89-124 buildQuery (offsets) *)
Definition table_offsets (formData : jsobj) (comparison : bool) : list jsval :=
  let own := if comparison then time_shifts formData else [] in
  let extra := opt_field "time_compare" (ofield "extra_form_data" formData) in
  if truthy extra && negb (js_includes own extra) then [extra] else own.

(** The first temporal column becomes the time axis and comes first.

    @source plugins/plugin-chart-table/src/buildQuery.ts 189-215 buildQuery (columns) *)
Definition table_columns (formData : jsobj) (columns : list jsval) : list jsval :=
  let grain :=
    js_or (opt_field "time_grain_sqla" (ofield "extra_form_data" formData)) (ofield "time_grain_sqla" formData) in
  let is_time col := isPhysicalColumn col && truthy grain && temporal formData col in
  match find_index is_time columns with
  | Some i => base_axis grain (default JUndef (columns !! i)) :: take i columns ++ drop (S i) columns
  | None => columns
  end.

Definition percent_metrics (formData : jsobj) : jsval := ofield "percent_metrics" formData.

(** The rule that adds the percentages, and the metrics with those of it.

    @source plugins/plugin-chart-table/src/buildQuery.ts 146-182 buildQuery (percent metrics) *)
Definition table_percentages (formData : jsobj) (comparison : bool) (offsets metrics : list jsval)
    : result (list jsval * list jsval) :=
  if has_length (percent_metrics formData) then
    given ← map_items (percent_metrics formData);
    labels ← map_result getMetricLabel given;
    labels ← removeDuplicates (if comparison then addComparisonPercentMetrics labels offsets else labels) None;
    metrics ← removeDuplicates (metrics ++ given) (Some getMetricLabel);
    Ok (metrics,
        [rule "contribution"
           [("columns", JArr labels);
            ("rename_columns", JArr ((λ m, JStr ("%" +:+ to_string m)) <$> (labels : list jsval)))]])
  else Ok (metrics, []).

(** The order of the rows of an aggregated table.

    @source plugins/plugin-chart-table/src/buildQuery.ts 131-138 buildQuery (order) *)
Definition table_order (formData : jsobj) (metrics : list jsval) (orderby : jsval) : jsval :=
  let sortByMetric := default JUndef (head (ensureIsArray (ofield "timeseries_limit_metric" formData))) in
  if truthy sortByMetric then
    JArr [pair sortByMetric (negation (with_default (ofield "order_desc" formData) (JBool false)))]
  else match metrics with
       | m :: _ => JArr [pair m (JBool false)]
       | [] => orderby
       end.

(** Metrics, columns, order and rules of the query.

    @source plugins/plugin-chart-table/src/buildQuery.ts 129-216 buildQuery (aggregation) *)
Definition table_parts (formData base : jsobj) (offsets : list jsval) (comparison : bool)
    : result (jsval * jsval * jsval * list jsval) :=
  let orderby := with_default (ofield "orderby" base) (JArr []) in
  let columns := with_default (ofield "columns" base) (JArr []) in
  match getQueryMode formData with
  | Raw => Ok (ofield "metrics" base, columns, orderby, [])
  | Aggregate =>
      metrics ← map_items (js_or (ofield "metrics" base) (JArr []));
      let orderby := table_order formData metrics orderby in
      percent ← table_percentages formData comparison offsets metrics;
      compare ← (if bool_decide (offsets = []) then Ok [] else
                   rule ← timeCompareOperator formData base; Ok [rule]);
      columns ← map_items columns;
      Ok (JArr (percent : list jsval * list jsval).1, JArr (table_columns formData columns), orderby,
          (percent : list jsval * list jsval).2 ++ (compare : list jsval))
  end.

Definition is_download (formData : jsobj) : bool :=
  let format := ofield "result_format" formData in
  is_str format "csv" || is_str format "xlsx" ||
  (is_str format "json" && is_str (ofield "result_type" formData) "results").

Definition paginated (formData : jsobj) : bool := truthy (ofield "server_pagination" formData).

(** [Number(v) || 0] *)
Definition number_or_zero (v : jsval) : jsval :=
  if truthy (JNum (to_number v)) then JNum (to_number v) else JNum (num_of_Z 0).

(** A download has all the rows, a page of the table those of the page.

    @source plugins/plugin-chart-table/src/buildQuery.ts 218-237 buildQuery (rows) *)
Definition table_rows (formData ownState : jsobj) (query : jsobj) : jsobj :=
  if is_download formData then
    oset "row_offset" (JNum (num_of_Z 0)) (oset "row_limit" (number_or_zero (ofield "row_limit" formData)) query)
  else if paginated formData then
    let pageSize := js_nullish (ofield "pageSize" ownState) (ofield "server_page_length" formData) in
    let currentPage := js_nullish (ofield "currentPage" ownState) (JNum (num_of_Z 0)) in
    oset "row_offset" (JNum (num_mul (to_number currentPage) (to_number pageSize)))
      (oset "row_limit" pageSize query)
  else query.

(** @source plugins/plugin-chart-table/src/buildQuery.ts 239-244 buildQuery (sort) *)
Definition own_order (ownState : jsobj) : option jsval :=
  match ofield "sortBy" ownState with
  | JArr (item :: _) => Some (JArr [pair (opt_field "key" item) (negation (opt_field "desc" item))])
  | _ => None
  end.

(** The filters have changed since the last query of the table.

    @source plugins/plugin-chart-table/src/buildQuery.ts 260-266 buildQuery (changed) *)
Definition filters_changed (formData : jsobj) (cachedChanges : jsobj) (filters : jsval) : bool :=
  let cached := ofield (to_string (ofield "slice_id" formData)) cachedChanges in
  paginated formData && truthy cached && negb (bool_decide (JSON_stringify cached = JSON_stringify filters)).

Definition zero_rows (query : jsobj) : jsobj :=
  oset "row_offset" (JNum (num_of_Z 0)) (oset "row_limit" (JNum (num_of_Z 0)) query).

(** The query for the percentages of all records, and the one for the totals.

    @source plugins/plugin-chart-table/src/buildQuery.ts 279-314 buildQuery (extra) *)
Definition table_extra_queries (formData : jsobj) (metrics : jsval) (query : jsobj) : list jsobj :=
  (if is_str (ofield "percent_metric_calculation" formData) "all_records" &&
      has_length (percent_metrics formData)
   then [oset "is_timeseries" (JBool false)
           (oset "orderby" (JArr [])
           (zero_rows
           (oset "post_processing" (JArr [])
           (oset "metrics" (percent_metrics formData) (oset "columns" (JArr []) query)))))]
   else []) ++
  (if has_length metrics && truthy (ofield "show_totals" formData) &&
      match getQueryMode formData with Aggregate => true | Raw => false end
   then [oset "orderby" JUndef
           (oset "order_desc" JUndef
           (oset "post_processing" (JArr []) (zero_rows (oset "columns" (JArr []) query))))]
   else []).

(** The columns the user groups by in the chart, and the text searched for.

    @source plugins/plugin-chart-table/src/buildQuery.ts 316-339 buildQuery (own state) *)
Definition table_own_state (formData ownState : jsobj) (query : jsobj) : result jsobj :=
  let interactive := opt_field "interactive_groupby" (ofield "extra_form_data" formData) in
  query ← (if truthy interactive && truthy (ofield "columns" query) then
             columns ← spread_items (ofield "columns" query);
             added ← spread_items interactive;
             Ok (oset "columns" (JArr (value_set ((columns : list jsval) ++ added))) query)
           else Ok query);
  if paginated formData && truthy (ofield "searchText" ownState) && truthy (ofield "searchColumn" ownState) then
    filters ← spread_items (js_or (ofield "filters" query) (JArr []));
    let search := JObj [("col", ofield "searchColumn" ownState); ("op", JStr "ILIKE");
                        ("val", JStr (to_string (ofield "searchText" ownState) +:+ "%"))] in
    Ok (oset "filters" (JArr ((filters : list jsval) ++ [search])) query)
  else Ok query.

(** The query that counts the rows; a missing limit becomes NaN, which the
    operator after it does not replace.

    @source plugins/plugin-chart-table/src/buildQuery.ts 341-356 buildQuery (row count) *)
Definition row_count_query (formData query : jsobj) : jsobj :=
  oset "is_rowcount" (JBool true)
    (oset "post_processing" (JArr [])
    (oset "row_offset" (JNum (num_of_Z 0))
    (oset "row_limit" (JNum (to_number (ofield "row_limit" formData)))
    (oset "time_offsets" (JArr []) query)))).

(** The query, and its metrics.

    @source plugins/plugin-chart-table/src/buildQuery.ts 85-258 buildQuery (query object) *)
Definition table_object (formData ownState base : jsobj) : result (jsobj * jsval) :=
  comparison ← isTimeComparison formData base;
  let offsets := table_offsets formData comparison in
  parts ← table_parts formData base offsets comparison;
  let '(metrics, columns, orderby, rules) := parts in
  let order := match own_order ownState with
               | Some own => if paginated formData then own else orderby
               | None => orderby
               end in
  Ok (table_rows formData ownState
        (oset "time_offsets" (JArr offsets)
        (oset "post_processing" (JArr rules)
        (oset "metrics" metrics
        (oset "orderby" order
        (oset "extras" (with_default (ofield "extras" base) (JObj []))
        (oset "columns" columns base)))))), metrics).

(** Other filters than those of the last query take the table back to its
    first page.

    @source plugins/plugin-chart-table/src/buildQuery.ts 260-273 buildQuery (first page) *)
Definition table_page (formData cachedChanges query : jsobj) : jsobj :=
  if filters_changed formData cachedChanges (ofield "filters" query)
  then oset "row_offset" (JNum (num_of_Z 0)) query else query.

(** @source plugins/plugin-chart-table/src/buildQuery.ts 85-359 buildQuery (builder) *)
Definition table_query (formData ownState cachedChanges base : jsobj) : result (list jsobj) :=
  object ← table_object formData ownState base;
  let query := table_page formData cachedChanges (object : jsobj * jsval).1 in
  let extra := table_extra_queries formData (object : jsobj * jsval).2 query in
  query ← table_own_state formData ownState query;
  Ok (query :: (if paginated formData && negb (is_download formData)
                then [row_count_query formData query] else []) ++ extra).

(** The form data without time, for raw records.

    @source plugins/plugin-chart-table/src/buildQuery.ts 70-77 buildQuery (copy) *)
Definition table_form_data (formData : jsobj) : jsobj :=
  match getQueryMode formData with
  | Raw => oset "include_time" (JBool false) formData
  | Aggregate => formData
  end.

(** The filters the builder keeps, when it gets as far.

    @source plugins/plugin-chart-table/src/buildQuery.ts 274-277 buildQuery (cache) *)
Definition kept_filters (formData ownState : jsobj) : result jsval :=
  base ← buildQueryObject (table_form_data formData) [];
  object ← table_object formData ownState base;
  Ok (ofield "filters" (object : jsobj * jsval).1).

(** One call of the closure: the context, and the cache afterwards.

    @source plugins/plugin-chart-table/src/buildQuery.ts 364-383 cachedBuildQuery *)
Definition cachedBuildQuery (cachedChanges formData ownState : jsobj) : result jsobj * jsobj :=
  (buildQueryContext (table_form_data formData)
     (BuildFunction (table_query formData ownState cachedChanges)),
   match kept_filters formData ownState with
   | Ok filters => oset (to_string (ofield "slice_id" formData)) filters cachedChanges
   | Throw _ => cachedChanges
   end).
End queries.
