(* ===== verification/ChartQueriesFacts.v ===== *)
(** * What the queries of the charts ask for

    The mixed chart asks for what two charts would ask for, the second with the
    controls that carry its suffix.  The table shows the page the user turned to,
    until the filters change. *)

From Stdlib Require Import Ascii String Lia.
From stdpp Require Import base strings option numbers list sets.
From S2P Require Import Prelude JsObject JsNumber JsValue JsJson Lodash QueryTypes Query QueryNormalFacts.
From S2P Require Import PostProcessing DashboardState ChartQueries.

(** ** Suffixes *)

Lemma length_string_app (s r : string) : String.length (s +:+ r) = String.length s + String.length r.
Proof. induction s as [|c s IH]; [done|]. change (S (String.length (s +:+ r)) = S (String.length s + String.length r)). by rewrite IH. Qed.

Lemma strip_suffix_spec suffix s p : strip_suffix suffix s = Some p ↔ s = p +:+ suffix.
Proof.
  revert p. induction s as [|c s IH]; intros p; cbn [strip_suffix]; case_bool_decide as Hs.
  - subst suffix. split; [by intros [= <-]|]. by destruct p.
  - split; [done|]. destruct p as [|c p]; [|done]. intros Hp. by destruct Hs.
  - subst suffix. split; [by intros [= <-]|]. intros Hp. f_equal.
    destruct p as [|c' p]; [done|]. exfalso.
    assert (String.length (String c s) = String.length (String c' p +:+ String c s)) as Hl by by rewrite <- Hp.
    rewrite length_string_app in Hl. simpl in Hl. lia.
  - destruct (strip_suffix suffix s) as [p'|] eqn:E; simpl; split; try done.
    + intros [= <-]. change (String c s = String c (p' +:+ suffix)). f_equal. by apply IH.
    + destruct p as [|c' p]; [intros Hp; by destruct Hs|]. intros [= <- Hp]. apply IH in Hp. by simplify_eq.
    + destruct p as [|c' p]; [intros Hp; by destruct Hs|]. intros [= <- Hp]. apply IH in Hp. done.
Qed.

Lemma ends_with_spec suffix s : ends_with suffix s = true ↔ ∃ p, s = p +:+ suffix.
Proof.
  unfold ends_with. rewrite bool_decide_eq_true. split.
  - intros [p Hp]. exists p. by apply strip_suffix_spec.
  - intros [p Hp]. exists p. by apply strip_suffix_spec.
Qed.

Lemma without_suffix_app suffix p : suffix ≠ EmptyString → without_suffix suffix (p +:+ suffix) = p.
Proof.
  intros Hs. unfold without_suffix. rewrite bool_decide_eq_false_2 by done.
  by rewrite (proj2 (strip_suffix_spec suffix (p +:+ suffix) p)).
Qed.

Lemma aget_filter_key (P : string → bool) (o : jsobj) b k :
  NoDup (akeys o) →
  aget k (filter (λ kv, P kv.1 = b) o) = if bool_decide (P k = b) then aget k o else None.
Proof.
  intros Hnd. induction o as [|[k' v] o IH]; [by case_bool_decide|].
  apply NoDup_cons in Hnd as [Hk Hnd]. rewrite filter_cons. simpl in *.
  destruct (decide (P k' = b)) as [Hb|Hb]; simpl; destruct (decide (k = k')) as [-> |Hne].
  - by rewrite bool_decide_eq_true_2.
  - by apply IH.
  - rewrite IH by done. by rewrite bool_decide_eq_false_2.
  - by apply IH.
Qed.

Lemma NoDup_akeys_filter (P : string * jsval → Prop) `{∀ x, Decision (P x)} (o : jsobj) :
  NoDup (akeys o) → NoDup (akeys (filter P o)).
Proof. intros Hnd. eapply sublist_NoDup; [apply Hnd|]. apply fmap_sublist, sublist_filter. Qed.

Lemma removeFormDataSuffix_get (fd : jsobj) suffix k :
  NoDup (akeys fd) →
  aget k (removeFormDataSuffix fd suffix) = if ends_with suffix k then None else aget k fd.
Proof.
  intros Hnd. unfold removeFormDataSuffix. rewrite aget_from_entries by by apply NoDup_akeys_filter.
  rewrite (aget_filter_key (ends_with suffix)) by done. by destruct (ends_with suffix k).
Qed.

Definition suffixed (suffix : string) (fd : jsobj) : jsobj :=
  prod_map (without_suffix suffix) id <$> filter (λ kv, ends_with suffix kv.1 = true) fd.

Lemma suffixed_cons suffix k v fd :
  suffixed suffix ((k, v) :: fd) =
  if ends_with suffix k then (without_suffix suffix k, v) :: suffixed suffix fd else suffixed suffix fd.
Proof. unfold suffixed. rewrite filter_cons. simpl. by destruct (ends_with suffix k). Qed.

Lemma suffixed_keys suffix fd p :
  suffix ≠ EmptyString → p ∈ akeys (suffixed suffix fd) → (p +:+ suffix) ∈ akeys fd.
Proof.
  intros Hs. induction fd as [|[k v] fd IH]; [by intros ?%elem_of_nil|]. rewrite suffixed_cons.
  destruct (ends_with suffix k) eqn:Hk; [|intros ?; right; by apply IH].
  apply ends_with_spec in Hk as [q ->]. rewrite without_suffix_app by done.
  intros [-> |Hp]%elem_of_cons; [left|right; by apply IH].
Qed.

Lemma aget_suffixed suffix (fd : jsobj) k :
  suffix ≠ EmptyString → NoDup (akeys fd) →
  NoDup (akeys (suffixed suffix fd)) ∧ aget k (suffixed suffix fd) = aget (k +:+ suffix) fd.
Proof.
  intros Hs. induction fd as [|[k' v] fd IH]; [split; [constructor|done]|].
  intros [Hk Hnd]%NoDup_cons. destruct (IH Hnd) as [IH1 IH2]. rewrite suffixed_cons.
  cbn [aget]. destruct (ends_with suffix k') eqn:Hend.
  - apply ends_with_spec in Hend as [p ->]. rewrite without_suffix_app by done. cbn [aget]. split.
    + apply NoDup_cons. split; [|done]. by intros ?%suffixed_keys.
    + rewrite IH2. destruct (decide (k = p)) as [-> |Hne]; [by rewrite decide_True|].
      rewrite decide_False; [done|]. intros Heq. apply Hne. apply (f_equal (without_suffix suffix)) in Heq.
      by rewrite !without_suffix_app in Heq.
  - split; [done|]. rewrite IH2. rewrite decide_False; [done|]. intros <-.
    apply not_true_iff_false in Hend. apply Hend, ends_with_spec. by eexists.
Qed.

Lemma aget_add_missing (l o : jsobj) k :
  NoDup (akeys l) →
  aget k (foldl (λ o kv, if ahas kv.1 o then o else oset kv.1 kv.2 o) o l) =
  match aget k o with Some v => Some v | None => aget k l end.
Proof.
  revert o. induction l as [|[k' v] l IH]; intros o Hnd; simpl; [by destruct (aget k o)|].
  apply NoDup_cons in Hnd as [Hk Hnd]. rewrite IH by done.
  destruct (decide (k = k')) as [-> |Hne].
  - destruct (ahas k' o) eqn:Hhas.
    + apply ahas_spec, aget_is_Some in Hhas as [w Hw]. by rewrite Hw.
    + rewrite aget_oset_eq. destruct (aget k' o) eqn:E; [|done].
      assert (ahas k' o = true); [|congruence]. apply ahas_spec, aget_is_Some. by eexists.
  - destruct (ahas k' o); [done|]. by rewrite aget_oset_ne.
Qed.

(** A control with the suffix takes the place of the one without. *)
Lemma retainFormDataSuffix_get (fd : jsobj) suffix k :
  suffix ≠ EmptyString → NoDup (akeys fd) →
  aget k (retainFormDataSuffix fd suffix) =
  match aget (k +:+ suffix) fd with
  | Some v => Some v
  | None => if ends_with suffix k then None else aget k fd
  end.
Proof.
  intros Hs Hnd. unfold retainFormDataSuffix. rewrite aget_add_missing by by apply NoDup_akeys_filter.
  destruct (aget_suffixed suffix fd k Hs Hnd) as [Hl Hk].
  fold (suffixed suffix fd).
  rewrite aget_from_entries, Hk by done. destruct (aget (k +:+ suffix) fd); [done|].
  rewrite (aget_filter_key (ends_with suffix)) by done. by destruct (ends_with suffix k).
Qed.

Lemma oset_if_get b k v o k' :
  ofield k' (oset_if b k v o) = if decide (k' = k) then (if b then v else ofield k' o) else ofield k' o.
Proof. unfold oset_if. destruct b; [|by case_decide]. by rewrite ofield_oset. Qed.

(** ** The queries of the mixed chart *)

Section queries.
Context `{Lodash}.

Lemma normalizeOrderBy_other (q : jsobj) k : k ∉ orderby_keys → ofield k (normalizeOrderBy q) = ofield k q.
Proof.
  intros Hk. rewrite normalizeOrderBy_cases. destruct (valid_orderby _); [done|].
  assert (aget k (stripped q) = aget k q) as Hs by (by rewrite aget_stripped, decide_False).
  unfold ofield. destruct (orderby_candidate q); [|by rewrite Hs].
  rewrite aget_oset, decide_False by (intros ->; apply Hk; unfold orderby_keys; set_solver). by rewrite Hs.
Qed.

(** A builder that returns one query for the base query object. *)
Lemma buildQueryContext_one fd f ctx :
  buildQueryContext fd (BuildFunction f) = Ok ctx →
  ∃ base built queries,
    buildQueryObject fd [] = Ok base ∧ f base = Ok built ∧
    ofield "queries" ctx = JArr (JObj <$> queries) ∧ length queries = length built ∧
    ofield "form_data" ctx = JObj fd ∧
    (∀ i q0, built !! i = Some q0 → ∃ q, queries !! i = Some q ∧
       ofield "is_timeseries" q ∈ [ofield "is_timeseries" q0; JUndef] ∧ ∀ k,
       isXAxisSet fd = false ∨ k ≠ "columns" ∧ k ≠ "is_timeseries" → k ≠ "post_processing" →
       ofield k q = ofield k q0).
Proof.
  intros (base & built & qs & Hb & Hf & Hq & Hl & _ & Hk & Hfd & _)%buildQueryContext_queries.
  exists base, built, qs. do 5 (split; [done|]). intros i q0 Hi.
  destruct (lookup_lt_is_Some_2 qs i) as [q Hqi]; [rewrite Hl; by eapply lookup_lt_Some|].
  exists q. split; [done|]. by eapply Hk.
Qed.

(** What the query of one half of the mixed chart asks for.  Without an axis on the
    whole form or on the half, it is a time series over the dimensions of the
    half. *)
Definition half_query (formData fd q : jsobj) : Prop :=
  ∃ base, buildQueryObject fd [] = Ok base ∧
    ofield "series_columns" q = ofield "groupby" fd ∧
    (isXAxisSet formData = false → isXAxisSet fd = false →
       ofield "is_timeseries" q = JBool true ∧ ofield "columns" q = JArr (ensureIsArray (ofield "groupby" fd))) ∧
    (isXAxisSet formData = true → ofield "is_timeseries" q ∈ [ofield "is_timeseries" base; JUndef]) ∧
    ∀ k, k ∉ orderby_keys →
      k ∉ ["columns"; "is_timeseries"; "post_processing"; "series_columns"; "time_offsets"] →
      ofield k q = ofield k base.

Lemma mixed_query_one formData fd base built :
  mixed_query formData fd base = Ok built →
  ∃ q, built = [q] ∧ ofield "series_columns" q = ofield "groupby" fd ∧
    ofield "columns" q = JArr (x_axis_columns formData ++ ensureIsArray (ofield "groupby" fd)) ∧
    ofield "is_timeseries" q = (if isXAxisSet formData then ofield "is_timeseries" base else JBool true) ∧
    ∀ k, k ∉ orderby_keys →
      k ∉ ["columns"; "is_timeseries"; "post_processing"; "series_columns"; "time_offsets"] →
      ofield k q = ofield k base.
Proof.
  unfold mixed_query. intros Hq. cbv zeta in Hq. repeat (apply bind_Ok_inv in Hq as (? & _ & Hq)).
  injection Hq as <-. eexists. split; [reflexivity|]. split; [|split; [|split]].
  - rewrite normalizeOrderBy_other by (by unfold orderby_keys; set_solver).
    by rewrite !ofield_oset, oset_if_get, !ofield_oset.
  - rewrite normalizeOrderBy_other by (by unfold orderby_keys; set_solver).
    by rewrite !ofield_oset, oset_if_get, !ofield_oset.
  - rewrite normalizeOrderBy_other by (by unfold orderby_keys; set_solver).
    rewrite !ofield_oset, oset_if_get, !ofield_oset. by destruct (isXAxisSet formData).
  - intros k Hk Hk'. rewrite normalizeOrderBy_other by done.
    rewrite !ofield_oset, oset_if_get, !ofield_oset. rewrite !decide_False by set_solver. done.
Qed.

Lemma mixed_half formData fd ctx :
  buildQueryContext fd (BuildFunction (mixed_query formData fd)) = Ok ctx →
  ∃ q, ofield "queries" ctx = JArr [JObj q] ∧ half_query formData fd q ∧ ofield "form_data" ctx = JObj fd.
Proof.
  intros (base & built & qs & Hb & Hf & Hq & Hl & Hfd & Hk)%buildQueryContext_one.
  apply mixed_query_one in Hf as (q0 & -> & Hs & Hc & Hts & Hq0). destruct (Hk 0 q0 eq_refl) as (q & Hqi & Hqt & Hqk).
  destruct qs as [|q' [|]]; simplify_eq/=. exists q. split; [done|]. split; [|done].
  exists base. split; [done|]. split; [rewrite Hqk; [done|by right|done]|]. split; [|split].
  - intros Hx Hxf. rewrite !Hqk by (done || by left). rewrite Hc, Hts. unfold x_axis_columns. by rewrite Hx.
  - intros Hx. by rewrite Hts, Hx in Hqt.
  - intros k Hk1 Hk2. rewrite Hqk by first [set_solver|right; set_solver]. by apply Hq0.
Qed.

(** C22. The mixed chart sends the queries two charts would send: the first with
    the controls whose names do not end with the suffix, the second with those
    that do, under their plain names, and the plain ones it has no counterpart
    for.  Apart from their columns, order, offsets, post-processing and the mark of
    a time series, the queries are the base query objects of the two form data,
    each split by its own dimensions.  The mark is set when neither the form nor
    the half has an axis, and then the columns are the dimensions alone; with an
    axis on the form it is what the base query object has, or left out.  The form
    data of the context is the first one's. *)
Theorem mixed_queries (fd ctx : jsobj) :
  NoDup (akeys fd) →
  mixed_buildQuery fd = Ok ctx →
  ∃ fd1 fd2 q1 q2,
    (∀ k, aget k fd1 = if ends_with "_b" k then None else aget k fd) ∧
    (∀ k, aget k fd2 = match aget (k +:+ "_b") fd with
                       | Some v => Some v
                       | None => if ends_with "_b" k then None else aget k fd
                       end) ∧
    ofield "queries" ctx = JArr [JObj q1; JObj q2] ∧ half_query fd fd1 q1 ∧ half_query fd fd2 q2 ∧
    ofield "form_data" ctx = JObj fd1.
Proof.
  intros Hnd Hctx. unfold mixed_buildQuery in Hctx.
  apply bind_Ok_inv in Hctx as (c1 & (q1 & Hq1 & Hh1 & Hf1)%mixed_half & Hctx).
  apply bind_Ok_inv in Hctx as (c2 & (q2 & Hq2 & Hh2 & _)%mixed_half & Hctx). injection Hctx as <-.
  exists (removeFormDataSuffix fd "_b"), (retainFormDataSuffix fd "_b"), q1, q2.
  split; [intros k; by apply removeFormDataSuffix_get|].
  split; [intros k; by apply retainFormDataSuffix_get|].
  rewrite !ofield_oset, Hq1, Hq2. done.
Qed.

(** ** The pages of the table *)

(** The calls of the closure, in order. *)
Definition run_calls (calls : list (jsobj * jsobj)) (cache : jsobj) : jsobj :=
  foldl (λ cache call, (cachedBuildQuery cache call.1 call.2).2) cache calls.

Definition slice_key (fd : jsobj) : string := to_string (ofield "slice_id" fd).

(** The filters of the last of the calls for the same table that had any. *)
Definition last_filters (s : string) (calls : list (jsobj * jsobj)) : option jsval :=
  last (omap (λ call, if bool_decide (slice_key call.1 = s)
                      then match kept_filters call.1 call.2 with Ok f => Some f | Throw _ => None end
                      else None) calls).

Lemma last_app_one {A} (l : list A) o : last (l ++ option_list o) = match o with Some x => Some x | None => last l end.
Proof. destruct o; simpl; [by rewrite last_snoc|by rewrite app_nil_r]. Qed.

(** The cache holds, of each table, the filters of its last query. *)
Lemma run_calls_last calls s : aget s (run_calls calls []) = last_filters s calls.
Proof.
  induction calls as [|[fd own] calls IH] using rev_ind; [done|].
  unfold run_calls, last_filters in *. rewrite foldl_app, omap_app. simpl.
  assert (∀ o : option jsval, match o with Some y => [y] | None => [] end = option_list o) as Ho by by intros [].
  rewrite Ho, last_app_one. fold (slice_key fd).
  destruct (kept_filters fd own) as [f|e]; simpl.
  - rewrite aget_oset. destruct (decide (s = slice_key fd)) as [-> |Hne].
    + by rewrite bool_decide_eq_true_2.
    + by rewrite bool_decide_eq_false_2.
  - etrans; [apply IH|]. by case_bool_decide.
Qed.

(** The first page is asked for when the last query had other filters. *)
Definition starts_over (calls : list (jsobj * jsobj)) (fd : jsobj) (filters : jsval) : bool :=
  match last_filters (slice_key fd) calls with
  | Some cached => truthy cached && negb (bool_decide (JSON_stringify cached = JSON_stringify filters))
  | None => false
  end.

Definition page_size (fd own : jsobj) : jsval :=
  js_nullish (ofield "pageSize" own) (ofield "server_page_length" fd).

Definition current_page (own : jsobj) : jsval := js_nullish (ofield "currentPage" own) (JNum (num_of_Z 0)).

Lemma table_object_page fd own base q metrics :
  table_object fd own base = Ok (q, metrics) →
  paginated fd = true → is_download fd = false →
  ofield "row_limit" q = page_size fd own ∧
  ofield "row_offset" q = JNum (num_mul (to_number (current_page own)) (to_number (page_size fd own))).
Proof.
  intros Hq Hp Hd. unfold table_object in Hq.
  apply bind_Ok_inv in Hq as (c & _ & Hq). cbv zeta in Hq.
  apply bind_Ok_inv in Hq as ([[[ms cols] ord] rules] & _ & Hq). injection Hq as <- _.
  unfold table_rows. rewrite Hd, Hp. split; by rewrite !ofield_oset.
Qed.

Lemma filters_changed_last calls fd filters :
  paginated fd = true →
  filters_changed fd (run_calls calls []) filters = starts_over calls fd filters.
Proof.
  intros Hp. unfold filters_changed, starts_over. rewrite Hp. fold (slice_key fd).
  assert (ofield (slice_key fd) (run_calls calls []) = default JUndef (last_filters (slice_key fd) calls)) as ->
    by (unfold ofield; by rewrite run_calls_last).
  by destruct (last_filters _ _).
Qed.

Lemma table_own_state_other fd own q q' k :
  table_own_state fd own q = Ok q' → k ≠ "columns" → k ≠ "filters" → ofield k q' = ofield k q.
Proof.
  intros Hq Hc Hf. unfold table_own_state in Hq. cbv zeta in Hq.
  apply bind_Ok_inv in Hq as (q1 & Hq1 & Hq).
  assert (ofield k q1 = ofield k q) as <-.
  { destruct (_ && _); [|by simplify_eq].
    apply bind_Ok_inv in Hq1 as (? & _ & Hq1). apply bind_Ok_inv in Hq1 as (? & _ & Hq1).
    simplify_eq. by rewrite ofield_oset, decide_False. }
  destruct (_ && _ && _); [|by simplify_eq].
  apply bind_Ok_inv in Hq as (? & _ & Hq). simplify_eq. by rewrite ofield_oset, decide_False.
Qed.

(** C19. After any calls of the table's closure, a call for a page the server
    cuts out asks for the rows of the page the user is on, a page long, and
    for the first page instead when the last call for the same table had
    filters, and others than this one.  The query that follows it counts the
    rows from the start. *)
Theorem table_pages calls fd own ctx cache :
  cachedBuildQuery (run_calls calls []) fd own = (Ok ctx, cache) →
  paginated fd = true → is_download fd = false →
  ∃ filters q count extra,
    kept_filters fd own = Ok filters ∧
    last_filters (slice_key fd) (calls ++ [(fd, own)]) = Some filters ∧
    ofield "queries" ctx = JArr (JObj <$> q :: count :: extra) ∧
    ofield "row_limit" q = page_size fd own ∧
    ofield "row_offset" q =
      JNum (if starts_over calls fd filters then num_of_Z 0
            else num_mul (to_number (current_page own)) (to_number (page_size fd own))) ∧
    ofield "is_rowcount" count = JBool true ∧ ofield "row_offset" count = JNum (num_of_Z 0).
Proof.
  intros Hc Hp Hd. unfold cachedBuildQuery in Hc. injection Hc as Hctx _.
  apply buildQueryContext_one in Hctx as (base & built & qs & Hb & Hf & Hq & Hl & _ & Hk).
  unfold table_query in Hf. apply bind_Ok_inv in Hf as ([q0 ms] & Hobj & Hf). cbv zeta in Hf.
  apply bind_Ok_inv in Hf as (q1 & Hown & Hf). rewrite Hp, Hd in Hf. simpl in Hf. injection Hf as <-.
  assert (kept_filters fd own = Ok (ofield "filters" q0)) as Hkept
    by (unfold kept_filters; rewrite Hb; simpl; by rewrite Hobj).
  destruct (Hk 0 _ eq_refl) as (q & Hqi & _ & Hqk), (Hk 1 _ eq_refl) as (count & Hci & _ & Hck).
  destruct qs as [|q' [|c' extra]]; simplify_eq/=.
  destruct (table_object_page _ _ _ _ _ Hobj Hp Hd) as [Hlim Hoff].
  exists (ofield "filters" q0), q, count, extra. split; [done|]. split.
  { unfold last_filters. rewrite omap_app. simpl. rewrite bool_decide_eq_true_2, Hkept by done.
    apply last_snoc. }
  split; [done|].
  assert (∀ k, k ≠ "columns" → k ≠ "filters" → k ≠ "post_processing" → k ≠ "is_timeseries" →
    ofield k q = ofield k (table_page fd (run_calls calls []) q0)) as Hpage.
  { intros k ????. rewrite Hqk by (done || by right). by eapply table_own_state_other. }
  rewrite !Hpage by done. unfold table_page. rewrite filters_changed_last by done.
  split; [by destruct (starts_over _ _ _); rewrite ?ofield_oset|].
  split; [by destruct (starts_over _ _ _); rewrite ?ofield_oset|].
  rewrite !Hck by (done || by right). unfold row_count_query. by rewrite !ofield_oset.
Qed.
End queries.

Definition mixed_form : jsobj :=
  [("datasource", JStr "5__table"); ("viz_type", JStr "mixed_timeseries");
   ("metrics", JArr [JStr "n"]); ("groupby", JArr [JStr "country"]); ("metrics_b", JArr [JStr "m"]);
   ("groupby_b", JArr [])].

Lemma mixed_queries_witness :
  match mixed_buildQuery mixed_form with
  | Ok ctx => ∃ q1 q2, ofield "queries" ctx = JArr [JObj q1; JObj q2] ∧
                       ofield "series_columns" q1 = JArr [JStr "country"] ∧
                       ofield "series_columns" q2 = JArr []
  | Throw _ => False
  end.
Proof.
  destruct (mixed_buildQuery mixed_form) as [ctx|e] eqn:E; [|vm_compute in E; discriminate E].
  destruct (mixed_queries mixed_form ctx) as (fd1 & fd2 & q1 & q2 & H1 & H2 & Hq & (b1 & _ & Hs1 & _) & (b2 & _ & Hs2 & _) & _).
  - apply (bool_decide_unpack _). vm_compute. exact I.
  - exact E.
  - exists q1, q2. split; [exact Hq|]. rewrite Hs1, Hs2. unfold ofield. rewrite H1, H2. split; reflexivity.
Defined.

Definition table_form (filters : list jsval) : jsobj :=
  [("datasource", JStr "5__table"); ("viz_type", JStr "table"); ("slice_id", JNum (num_of_Z 7));
   ("query_mode", JStr "raw"); ("all_columns", JArr [JStr "name"]); ("server_pagination", JBool true);
   ("server_page_length", JNum (num_of_Z 10)); ("adhoc_filters", JArr filters)].

Definition name_filter (v : string) : jsval :=
  JObj [("expressionType", JStr "SIMPLE"); ("clause", JStr "WHERE"); ("subject", JStr "name");
        ("operator", JStr "=="); ("comparator", JStr v)].

Definition on_page (n : Z) : jsobj := [("currentPage", JNum (num_of_Z n))].

(** The third page, then the third page with another filter. *)
Lemma table_pages_witness :
  let calls := [(table_form [name_filter "a"], on_page 2)] in
  match cachedBuildQuery (run_calls calls []) (table_form [name_filter "b"]) (on_page 2) with
  | (Ok ctx, cache) => ∃ q rest, ofield "queries" ctx = JArr (JObj q :: rest) ∧
                       ofield "row_limit" q = JNum (num_of_Z 10) ∧
                       ofield "row_offset" q = JNum (num_of_Z 0)
  | _ => False
  end ∧
  starts_over calls (table_form [name_filter "a"])
    (JArr [JObj [("col", JStr "name"); ("op", JStr "=="); ("val", JStr "a")]]) = false.
Proof.
  intros calls. split; [|vm_compute; reflexivity].
  destruct (cachedBuildQuery (run_calls calls []) (table_form [name_filter "b"]) (on_page 2))
    as [[ctx|e] cache] eqn:E; [|vm_compute in E; discriminate E].
  destruct (table_pages calls (table_form [name_filter "b"]) (on_page 2) ctx cache E)
    as (filters & q & count & extra & Hk & _ & Hq & Hlim & Hoff & _).
  - vm_compute. reflexivity.
  - vm_compute. reflexivity.
  - exists q, (JObj count :: (JObj <$> extra)). split; [exact Hq|]. split.
    + rewrite Hlim. vm_compute. reflexivity.
    + assert (starts_over calls (table_form [name_filter "b"]) filters = true) as Hs.
      { vm_compute in Hk. injection Hk as <-. vm_compute. reflexivity. }
      rewrite Hoff, Hs. reflexivity.
Defined.
