(* ===== verification/Scope.v ===== *)
(** * Which charts a filter applies to

    The scope of a filter is given by root components of the layout and by the
    charts excluded below them, possibly refined to layers of a chart:
    [getChartIdsInFilterScope.ts], [activeAllDashboardFilters.ts],
    [crossFilters.ts] and [getRelatedCharts.ts] of [app/dashboard/util], and the
    computation of a scope from the components checked in the configuration
    dialog ([FilterScope/utils.ts]).

    Chart ids and layer indices are integers that a double represents exactly;
    a key with more digits is outside of the model. *)

From Stdlib Require Import Ascii String.
From stdpp Require Import base strings option numbers list sets.
From S2P Require Import Prelude JsObject JsNumber JsValue QueryTypes Query ExtraFormData Layout.

(** @source core/query/types/Dashboard.ts 27-30 NativeFilterScope *)
Record NativeFilterScope := {
  rootPath : list string;
  excluded : list Z;
}.

(** @source app/dashboard/util/getChartIdsInFilterScope.ts 23-25 ExtendedNativeFilterScope *)
Record ExtendedNativeFilterScope := {
  base_scope : NativeFilterScope;
  selectedLayers : option (list string);
}.

(** [parseInt(digits, 10)] *)
Definition digits_Z (s : string) : Z := Z.of_N (default 0%N (digits_value 0 s)).

(** The chart and the layer that a layer key names. *)
Definition layer_of_key (key : string) : option (Z * Z) :=
  (λ cl, (digits_Z cl.1, digits_Z cl.2)) <$> match_layer_key key.

(** [if (!xs.includes(x)) xs.push(x)], and [set.add(x)] *)
Definition add_new {A} `{EqDecision A} (xs : list A) (x : A) : list A :=
  if bool_decide (x ∈ xs) then xs else xs ++ [x].

(** ** Charts in the scope of a filter *)

(** @source app/dashboard/util/getChartIdsInFilterScope.ts 75-85 getChartIdsInFilterScope (by root path) *)
Definition in_root_path (scope : NativeFilterScope) (layoutItems : list LayoutItem) (chartId : Z)
    : bool :=
  negb (bool_decide (chartId ∈ excluded scope)) &&
  match head (filter (λ item, li_type item = CHART_TYPE ∧ li_chartId item = Some chartId)
                layoutItems) with
  | Some item =>
      existsb (λ elementId, bool_decide (elementId ∈ rootPath scope)) (default [] (li_parents item))
  | None => false
  end.

(** @source app/dashboard/util/getChartIdsInFilterScope.ts 27-88 getChartIdsInFilterScope *)
Definition getChartIdsInFilterScope (filterScope : ExtendedNativeFilterScope) (chartIds : list Z)
    (layoutItems : list LayoutItem) : list Z :=
  let scope := base_scope filterScope in
  match selectedLayers filterScope with
  | Some ((_ :: _) as layers) =>
      let targetChartIds :=
        foldl (λ acc key,
          match layer_of_key key with
          | Some (chartId, _) => if bool_decide (chartId ∈ chartIds) then add_new acc chartId else acc
          | None => acc
          end) [] layers in
      let chartsWithLayerSelections := fst <$> omap layer_of_key layers in
      let regularChartIds :=
        filter (λ chartId,
          negb (bool_decide (chartId ∈ chartsWithLayerSelections)) &&
          in_root_path scope layoutItems chartId = true) chartIds in
      foldl add_new targetChartIds regularChartIds
  | _ => filter (λ chartId, in_root_path scope layoutItems chartId = true) chartIds
  end.

(** ** Active filters *)

(** @source app/dashboard/util/activeAllDashboardFilters.ts 27-35 getRelevantDataMask *)
Definition getRelevantDataMask (dataMask : jsobj) (prop : string) : jsobj :=
  from_entries
    ((λ item, (to_string (opt_field "id" item), opt_field prop item)) <$>
       filter (λ item, truthy (opt_field prop item) = true) (avalues dataMask)).

(** @source app/dashboard/util/activeAllDashboardFilters.ts 37-40 LayerInfo *)
Record LayerInfo := {
  layerMap : list (string * list Z);
  layerChartIds : list Z;
}.

(** @source app/dashboard/util/activeAllDashboardFilters.ts 42-60 extractLayerIndicesFromKeys *)
Definition extractLayerIndicesFromKeys (layers : list string) : LayerInfo :=
  foldl (λ info layerKey,
    match layer_of_key layerKey with
    | Some (chartId, layerIndex) =>
        let key := string_of_Z chartId in
        {| layerMap :=
             oset key (default [] (aget key (layerMap info)) ++ [layerIndex]) (layerMap info);
           layerChartIds := add_new (layerChartIds info) chartId |}
    | None => info
    end) {| layerMap := []; layerChartIds := [] |} layers.

(** The members of a native filter the computation reads; each is optional. *)
Record PartialFilter := {
  pf_chartsInScope : option (list Z);
  pf_filterType : jsval;
  pf_targets : jsval;
  pf_scope : option ExtendedNativeFilterScope;
}.

(** @source app/dashboard/types.ts 219-227 ActiveFilter *)
Record ActiveFilter := {
  af_scope : list Z;
  af_targets : jsval;
  af_values : jsval;
  af_filterType : jsval;
  af_layerScope : option (list (string * list Z));
}.

Section active.
Context (chartConfiguration : list (string * list Z)).
Context (nativeFilters : list (string * PartialFilter)).
Context (allSliceIds : list Z).

(** The selected layers of a filter, when there is at least one. *)
Definition layers_of (filterId : string) : option (list string) :=
  f ← aget filterId nativeFilters; scope ← pf_scope f; layers ← selectedLayers scope;
  if bool_decide (layers = []) then None else Some layers.

Definition excluded_of (filterId : string) : list Z :=
  default [] (f ← aget filterId nativeFilters; scope ← pf_scope f; Some (excluded (base_scope scope))).

(** @source app/dashboard/util/activeAllDashboardFilters.ts 83-96 getAllActiveFilters (master selection) *)
Definition master_selection (filterIds : list string) : option (list string * list Z) :=
  foldl (λ master filterId,
    match layers_of filterId with
    | Some layers => Some (layers, excluded_of filterId)
    | None => master
    end) None filterIds.

(** @source app/dashboard/util/activeAllDashboardFilters.ts 99-104 getAllActiveFilters (scope) *)
Definition configured_scope (filterId : string) : list Z :=
  match aget filterId nativeFilters ≫= pf_chartsInScope with
  | Some scope => scope
  | None =>
      match aget (num_to_string (parseInt filterId)) chartConfiguration with
      | Some scope => scope
      | None => allSliceIds
      end
  end.

(** The selection a filter uses: its own layers and excluded charts, or the
    master selection when it has no layers and some filter has.

    @source app/dashboard/util/activeAllDashboardFilters.ts 108-119 getAllActiveFilters (selection) *)
Definition selection (master : option (list string * list Z)) (filterId : string)
    : option (list string) * list Z :=
  match layers_of filterId with
  | Some layers => (Some layers, excluded_of filterId)
  | None =>
      match master with
      | Some (layers, excludedCharts) => (Some layers, excludedCharts)
      | None => (None, excluded_of filterId)
      end
  end.

(** @source app/dashboard/util/activeAllDashboardFilters.ts 121-146 getAllActiveFilters (layers) *)
Definition active_scope (master : option (list string * list Z)) (filterId : string)
    : list Z * option (list (string * list Z)) :=
  let scope := configured_scope filterId in
  match selection master filterId with
  | (Some layers, excludedCharts) =>
      let info := extractLayerIndicesFromKeys layers in
      let has_layers chartId :=
        existsb (starts_with ("chart-" +:+ string_of_Z chartId +:+ "-layer-")) layers in
      (foldl (λ targeted chartId,
         if bool_decide (chartId ∈ excludedCharts) || has_layers chartId then targeted
         else add_new targeted chartId) (layerChartIds info) scope,
       Some (layerMap info))
  | (None, excludedCharts) =>
      (filter (λ chartId, chartId ∉ excludedCharts) scope, None)
  end.

(** @source app/dashboard/util/activeAllDashboardFilters.ts 98-155 getAllActiveFilters (one mask) *)
Definition active_filter (master : option (list string * list Z)) (mask : jsval) : ActiveFilter :=
  let filterId := to_string (opt_field "id" mask) in
  let '(scope, layerScope) := active_scope master filterId in
  {| af_scope := scope;
     af_targets :=
       js_or (default JUndef (pf_targets <$> aget filterId nativeFilters)) (JArr []);
     af_values := with_default (opt_field "extraFormData" mask) (JObj []);
     af_filterType := default JUndef (pf_filterType <$> aget filterId nativeFilters);
     af_layerScope := layerScope |}.

(** @source app/dashboard/util/activeAllDashboardFilters.ts 62-158 getAllActiveFilters *)
Definition getAllActiveFilters (dataMask : jsobj) : list (string * ActiveFilter) :=
  let ids := (λ mask, to_string (opt_field "id" mask)) <$> avalues dataMask in
  let master := master_selection ids in
  foldl (λ active mask,
    oset (to_string (opt_field "id" mask)) (active_filter master mask) active) []
    (avalues dataMask).
End active.

(** ** Cross filters *)

(** @source app/dashboard/types.ts 72-84 ChartCrossFiltersConfig *)
Inductive CrossFilterScope :=
| GlobalScopePointer
| CustomScope (scope : NativeFilterScope).

Record ChartConfigurationItem := {
  cc_id : Z;
  cc_scope : CrossFilterScope;
  cc_chartsInScope : list Z;
}.

Record ChartState := {
  chart_id : Z;
  chart_viz_type : option string;
}.

(** @source app/dashboard/util/crossFilters.ts 38-41 isCrossFiltersEnabled *)
Definition isCrossFiltersEnabled (metadataCrossFiltersEnabled : option bool) : bool :=
  match metadataCrossFiltersEnabled with None => true | Some b => b end.

Definition no_layers (scope : NativeFilterScope) : ExtendedNativeFilterScope :=
  {| base_scope := scope; selectedLayers := None |}.

(** @source app/dashboard/constants.ts 47-50 DEFAULT_CROSS_FILTER_SCOPING *)
Definition DEFAULT_CROSS_FILTER_SCOPING : NativeFilterScope :=
  {| rootPath := [DASHBOARD_ROOT_ID]; excluded := [] |}.

Section cross.
(** The behaviours the registry of chart metadata lists for a chart type. *)
Context (behaviors : option string → list string).
Context (dashboardLayout : layout_map).
Context (chart_configuration : list (string * ChartConfigurationItem)).
Context (global_scope : option NativeFilterScope).
Context (charts : list (string * ChartState)).

Definition chartLayoutItems : list LayoutItem :=
  filter (λ item, li_type item = CHART_TYPE) (avalues dashboardLayout).

Definition all_chart_ids : list Z := chart_id <$> avalues charts.

(** @source app/dashboard/util/crossFilters.ts 55-67 getCrossFiltersConfiguration (global) *)
Definition globalChartConfiguration : NativeFilterScope * list Z :=
  match global_scope with
  | Some scope =>
      (scope, getChartIdsInFilterScope (no_layers scope) all_chart_ids chartLayoutItems)
  | None => (DEFAULT_CROSS_FILTER_SCOPING, all_chart_ids)
  end.

(** @source app/dashboard/util/crossFilters.ts 72-113 getCrossFiltersConfiguration (one chart) *)
Definition cross_filter_item (chartConfiguration : list (string * ChartConfigurationItem))
    (layoutItem : LayoutItem) : list (string * ChartConfigurationItem) :=
  match li_chartId layoutItem with
  | None => chartConfiguration
  | Some chartId =>
      let key := string_of_Z chartId in
      let viz_type := aget key charts ≫= chart_viz_type in
      if bool_decide ("INTERACTIVE_CHART" ∈ behaviors viz_type) then
        let item :=
          match aget key chart_configuration with
          | Some item => item
          | None =>
              default {| cc_id := chartId; cc_scope := GlobalScopePointer; cc_chartsInScope := [] |}
                (aget key chartConfiguration)
          end in
        let chartsInScope :=
          match cc_scope item with
          | GlobalScopePointer =>
              filter (λ id, id ≠ chartId) (snd globalChartConfiguration)
          | CustomScope scope =>
              getChartIdsInFilterScope (no_layers scope) all_chart_ids chartLayoutItems
          end in
        oset key {| cc_id := cc_id item; cc_scope := cc_scope item;
                    cc_chartsInScope := chartsInScope |} chartConfiguration
      else chartConfiguration
  end.

(** @source app/dashboard/util/crossFilters.ts 43-116 getCrossFiltersConfiguration *)
Definition getCrossFiltersConfiguration : list (string * ChartConfigurationItem) :=
  foldl cross_filter_item [] chartLayoutItems.
End cross.

(** ** Related charts *)

(** The slices by id; only the id of a slice is read. *)
Abbreviation slice_map := (list (string * Z)).

(** @source app/dashboard/util/getRelatedCharts.ts 30-32 isGlobalScope *)
Definition isGlobalScope (scope : list Z) (slices : slice_map) : bool :=
  bool_decide (length scope = length (akeys slices)).

(** The keys of [slices] are decimal slice ids, so [Number] reads them as
    [digits_Z] does.

    @source app/dashboard/util/getRelatedCharts.ts 34-51 getRelatedChartsForSelectFilter *)
Definition getRelatedChartsForSelectFilter (slices : slice_map) (chartsInScope : list Z) : list Z :=
  if isGlobalScope chartsInScope slices then digits_Z <$> akeys slices
  else filter (λ slice_id, slice_id ∈ chartsInScope) (avalues slices).

(** @source app/dashboard/util/getRelatedCharts.ts 52-82 getRelatedChartsForCrossFilter *)
Definition getRelatedChartsForCrossFilter (filterKey : string) (slices : slice_map) (scope : list Z)
    : list Z :=
  match aget filterKey slices with
  | None => []
  | Some _ =>
      let source := digits_Z filterKey in
      let fullScope := filter (λ s, string_of_Z s ≠ filterKey) scope ++ [source] in
      filter (λ slice_id,
        slice_id ≠ source ∧ (isGlobalScope fullScope slices = true ∨ slice_id ∈ scope))
        (avalues slices)
  end.

(** The three kinds of filter: an applied cross filter, an applied native
    filter, and the configuration of a native filter. *)
Inductive any_filter :=
| AppliedCrossFilter (scope : list Z)
| AppliedNativeFilter (scope : list Z)
| ConfiguredFilter (chartsInScope : option (list Z)).

(** @source app/dashboard/util/getRelatedCharts.ts 84-113 getRelatedCharts *)
Definition getRelatedCharts (filterKey : string) (filter : any_filter) (slices : slice_map)
    : list Z :=
  let chartsInScope :=
    match filter with
    | AppliedCrossFilter scope | AppliedNativeFilter scope => scope
    | ConfiguredFilter charts => default [] charts
    end in
  match filter with
  | AppliedCrossFilter _ =>
      if ahas filterKey slices then getRelatedChartsForCrossFilter filterKey slices chartsInScope
      else getRelatedChartsForSelectFilter slices chartsInScope
  | _ => getRelatedChartsForSelectFilter slices chartsInScope
  end.

(** ** Scopes from the configuration dialog *)

Section find_scope.
Context (layout : layout_map).

(** Destructuring an item that is missing throws.

    @source app/dashboard/components/nativeFilters/FiltersConfigModal/FiltersConfigForm/FilterScope/utils.ts 29-30 isShowTypeInTree *)
Definition isShowTypeInTree (item : option LayoutItem) : result bool :=
  match item with
  | Some item =>
      Ok (bool_decide (li_type item = TAB_TYPE) || bool_decide (li_type item = CHART_TYPE) ||
          bool_decide (li_type item = DASHBOARD_ROOT_TYPE))
  | None => Throw (TypeError "Cannot destructure property 'type'")
  end.

Definition is_chart_key (key : string) : bool :=
  match aget key layout with
  | Some item => bool_decide (li_type item = CHART_TYPE)
  | None => false
  end.

(** [xs.sort((a, b) => a.length - b.length)], which is stable *)
Fixpoint insert_by_length {A} (x : list A) (xs : list (list A)) : list (list A) :=
  match xs with
  | [] => [x]
  | y :: ys => if bool_decide (length x ≤ length y) then x :: xs else y :: insert_by_length x ys
  end.

Definition sort_by_length {A} (xs : list (list A)) : list (list A) := foldr insert_by_length [] xs.

(** The layout key of the first item that shows a chart. *)
Definition chart_layout_key (chartId : Z) : option string :=
  head ((filter (λ kv : string * LayoutItem, li_chartId kv.2 = Some chartId) layout).*1).

(** @source app/dashboard/components/nativeFilters/FiltersConfigModal/FiltersConfigForm/FilterScope/utils.ts 258-280 findFilterScope (checked charts) *)
Definition checked_chart_keys (checkedKeys : list string) : list string :=
  let layerKeys := filter (λ key, includes "-layer-" key = true) checkedKeys in
  let chartKeys :=
    filter (λ key, is_chart_key key = true ∨ includes "-layer-" key = false) checkedKeys in
  foldl (λ chartKeys layerKey,
    match layer_of_key layerKey with
    | Some (chartId, _) =>
        match chart_layout_key chartId with
        | Some key => if bool_decide (key = EmptyString) then chartKeys else add_new chartKeys key
        | None => chartKeys
        end
    | None => chartKeys
    end) chartKeys layerKeys.

(** The ancestors of a chart that the tree shows, outermost first.

    @source app/dashboard/components/nativeFilters/FiltersConfigModal/FiltersConfigForm/FilterScope/utils.ts 283-288 findFilterScope (parents) *)
Definition shown_parents (key : string) : result (list string) :=
  let parents := DASHBOARD_ROOT_ID :: default [] (aget key layout ≫= li_parents) in
  filter_result (λ parent, isShowTypeInTree (aget parent layout)) parents.

(** @source app/dashboard/components/nativeFilters/FiltersConfigModal/FiltersConfigForm/FilterScope/utils.ts 296-309 findFilterScope (excluded) *)
Definition excluded_charts (rootPath chartKeys : list string) : list Z :=
  omap (λ kv : string * LayoutItem,
    if bool_decide (li_type kv.2 = CHART_TYPE) &&
       existsb (λ parent, bool_decide (parent ∈ rootPath) && negb (bool_decide (kv.1 ∈ chartKeys)))
         (DASHBOARD_ROOT_ID :: default [] (li_parents kv.2))
    then li_chartId kv.2 else None) layout.

(** Every chart has its chart id; a level that a chart does not have cannot be
    asked for, as the level is that of the shallowest one.

    @source app/dashboard/components/nativeFilters/FiltersConfigModal/FiltersConfigForm/FilterScope/utils.ts 246-315 findFilterScope *)
Definition findFilterScope (checkedKeys : list string) : result NativeFilterScope :=
  match checkedKeys with
  | [] => Ok {| rootPath := []; excluded := [] |}
  | _ =>
      let chartKeys := checked_chart_keys checkedKeys in
      parents ← map_result shown_parents (filter (λ key, is_chart_key key = true) chartKeys);
      let sorted := sort_by_length parents in
      let level := pred (length (default [] (head sorted))) in
      let roots := omap (λ ps : list string, ps !! level) sorted in
      Ok {| rootPath := foldl add_new [] roots;
            excluded := excluded_charts roots chartKeys |}
  end.

(** @source app/dashboard/components/nativeFilters/FiltersConfigModal/FiltersConfigForm/FilterScope/utils.ts 317-325 getDefaultScopeValue *)
Definition getDefaultScopeValue (chartId : option Z) (initiallyExcludedCharts : list Z)
    : NativeFilterScope :=
  {| rootPath := [DASHBOARD_ROOT_ID];
     excluded :=
       match chartId with
       | Some chartId =>
           if bool_decide (chartId = 0%Z) then initiallyExcludedCharts
           else chartId :: initiallyExcludedCharts
       | None => initiallyExcludedCharts
       end |}.
End find_scope.
