(* ===== verification/ScopeFacts.v ===== *)
(** * Properties of filter scopes

    The charts in scope by membership, the scope of the active filters, the
    charts related to a filter, and the round trip between a scope and the
    components checked in the dialog. *)

From Stdlib Require Import Ascii String.
From stdpp Require Import base strings option numbers list sets.
From S2P Require Import Prelude JsObject JsNumber JsValue QueryTypes Query ExtraFormData Layout Scope.

(** ** Collecting without repetition *)

Section add_new.
Context {A : Type} `{EqDecision A}.
Implicit Types (xs ys : list A).

Lemma elem_of_add_new xs x y : y ∈ add_new xs x ↔ y ∈ xs ∨ y = x.
Proof.
  unfold add_new. case_bool_decide; [set_solver|].
  rewrite elem_of_app, list_elem_of_singleton. done.
Qed.

Lemma NoDup_add_new xs x : NoDup xs → NoDup (add_new xs x).
Proof.
  intros H. unfold add_new. case_bool_decide as Hx; [done|].
  apply NoDup_app. split; [done|]. split; [|apply NoDup_singleton].
  intros y Hy ->%list_elem_of_singleton. done.
Qed.

Lemma elem_of_foldl_add_new xs ys y : y ∈ foldl add_new xs ys ↔ y ∈ xs ∨ y ∈ ys.
Proof.
  revert xs. induction ys as [|x ys IH]; intros xs; simpl; [set_solver|].
  rewrite IH, elem_of_add_new, elem_of_cons. tauto.
Qed.

Lemma NoDup_foldl_add_new xs ys : NoDup xs → NoDup (foldl add_new xs ys).
Proof.
  revert xs. induction ys as [|x ys IH]; intros xs H; simpl; [done|]. by apply IH, NoDup_add_new.
Qed.
End add_new.

#[export] Hint Resolve NoDup_add_new NoDup_foldl_add_new : liteset.

(** ** Charts in scope *)

(** A key of the selected layers names the chart. *)
Definition targeted (layers : list string) (c : Z) : Prop := c ∈ (omap layer_of_key layers).*1.

Lemma layer_targets_fold layers (chartIds acc : list Z) :
  let result := foldl (λ acc key,
    match layer_of_key key with
    | Some (chartId, _) => if bool_decide (chartId ∈ chartIds) then add_new acc chartId else acc
    | None => acc
    end) acc layers in
  (∀ c, c ∈ result ↔ c ∈ acc ∨ (c ∈ chartIds ∧ targeted layers c)) ∧ (NoDup acc → NoDup result).
Proof.
  revert acc. induction layers as [|key layers IH]; intros acc; cbn [foldl].
  { split; [|done]. intros c. unfold targeted. simpl. set_solver. }
  unfold targeted. cbn [omap list_omap]. destruct (layer_of_key key) as [[c0 l0]|] eqn:E.
  - case_bool_decide as Hc0.
    + destruct (IH (add_new acc c0)) as [Hm Hn]. split; [|auto using NoDup_add_new].
      intros c. rewrite Hm, elem_of_add_new. simpl. rewrite elem_of_cons.
      unfold targeted. naive_solver.
    + destruct (IH acc) as [Hm Hn]. split; [|done]. intros c. rewrite Hm. simpl.
      rewrite elem_of_cons. unfold targeted. naive_solver.
  - apply IH.
Qed.

(** The charts in the scope of a filter are the charts of the dashboard
    that a selected layer names, or that are not excluded and lie below one of
    the root components; none is listed twice when the charts are distinct. *)
Theorem getChartIdsInFilterScope_spec scope chartIds items :
  let result := getChartIdsInFilterScope scope chartIds items in
  (∀ c, c ∈ result ↔
        c ∈ chartIds ∧ (targeted (default [] (selectedLayers scope)) c ∨
                        in_root_path (base_scope scope) items c = true)) ∧
  (NoDup chartIds → NoDup result).
Proof.
  intros result. subst result. unfold getChartIdsInFilterScope.
  assert (Hplain : ∀ c, c ∈ filter (λ c, in_root_path (base_scope scope) items c = true) chartIds ↔
    c ∈ chartIds ∧ (targeted [] c ∨ in_root_path (base_scope scope) items c = true)).
  { intros c. rewrite list_elem_of_filter. unfold targeted. simpl.
    split; [naive_solver|]. intros [? [H|?]]; [by apply elem_of_nil in H|done]. }
  destruct (selectedLayers scope) as [[|key layers]|]; cbn [default from_option id];
    [split; [done|by apply NoDup_filter]| |split; [done|by apply NoDup_filter]].
  destruct (layer_targets_fold (key :: layers) chartIds []) as [Hm Hn]. split.
  - intros c. rewrite elem_of_foldl_add_new, Hm, list_elem_of_filter.
    rewrite andb_true_iff, negb_true_iff, bool_decide_eq_false.
    fold (targeted (key :: layers) c).
    destruct (decide (c ∈ (omap layer_of_key (key :: layers)).*1)) as [Ht|Ht].
    + fold (targeted (key :: layers) c) in Ht. split.
      * intros [[?|?]|?]; [by exfalso; eapply not_elem_of_nil|naive_solver|naive_solver].
      * naive_solver.
    + split.
      * intros [[?|?]|?]; [by exfalso; eapply not_elem_of_nil|naive_solver|naive_solver].
      * intros [? [?|?]]; [naive_solver|]. right. done.
  - intros _. apply NoDup_foldl_add_new, Hn, NoDup_nil_2.
Qed.

(** ** Active filters *)

Lemma extractLayerIndicesFromKeys_charts layers c :
  c ∈ layerChartIds (extractLayerIndicesFromKeys layers) ↔ targeted layers c.
Proof.
  unfold extractLayerIndicesFromKeys.
  assert (Hgen : ∀ info, c ∈ layerChartIds (foldl (λ info layerKey,
    match layer_of_key layerKey with
    | Some (chartId, layerIndex) =>
        let key := string_of_Z chartId in
        {| layerMap :=
             oset key (default [] (aget key (layerMap info)) ++ [layerIndex]) (layerMap info);
           layerChartIds := add_new (layerChartIds info) chartId |}
    | None => info
    end) info layers) ↔ c ∈ layerChartIds info ∨ targeted layers c).
  { unfold targeted. induction layers as [|key layers IH]; intros info; cbn [foldl omap list_omap].
    { simpl. set_solver. }
    rewrite IH. destruct (layer_of_key key) as [[c0 l0]|]; simpl; [|done].
    rewrite elem_of_add_new, elem_of_cons. tauto. }
  rewrite Hgen. simpl. split; [|by right]. intros [H|H]; [by apply elem_of_nil in H|done].
Qed.

(** The scope of an active filter, as a set. *)
Definition in_active_scope (configured : list Z) (sel : option (list string) * list Z) (c : Z) : Prop :=
  match sel with
  | (None, ex) => c ∈ configured ∧ c ∉ ex
  | (Some layers, ex) =>
      targeted layers c ∨
      (c ∈ configured ∧ (c ∉ ex) ∧
       ∀ key, key ∈ layers → starts_with ("chart-" +:+ string_of_Z c +:+ "-layer-") key = false)
  end.

Section active_facts.
Context (conf : list (string * list Z)) (nf : list (string * PartialFilter)) (all : list Z).

Lemma active_scope_fold (skip : Z → bool) (ex scope acc : list Z) c :
  c ∈ foldl (λ targeted chartId,
        if bool_decide (chartId ∈ ex) || skip chartId then targeted
        else add_new targeted chartId) acc scope ↔
  c ∈ acc ∨ (c ∈ scope ∧ (c ∉ ex) ∧ skip c = false).
Proof.
  revert acc. induction scope as [|c0 scope IH]; intros acc; cbn [foldl]; [set_solver|].
  rewrite IH, elem_of_cons. case_bool_decide as Hex; cbn [orb].
  - split; [naive_solver|]. intros [?|[[->|?] [? ?]]]; naive_solver.
  - destruct (skip c0) eqn:Hs.
    + split; [naive_solver|]. intros [?|[[->|?] [? ?]]]; [naive_solver|congruence|naive_solver].
    + rewrite elem_of_add_new. split; [|naive_solver]. intros [[?| ->]|?]; naive_solver.
Qed.

Lemma active_scope_spec master id c :
  c ∈ fst (active_scope conf nf all master id) ↔
  in_active_scope (configured_scope conf nf all id) (selection nf master id) c.
Proof.
  unfold active_scope, in_active_scope. destruct (selection nf master id) as [[layers|] ex]; simpl.
  - rewrite active_scope_fold, extractLayerIndicesFromKeys_charts.
    assert (Hs : existsb (starts_with ("chart-" +:+ string_of_Z c +:+ "-layer-")) layers = false ↔
      ∀ key, key ∈ layers → starts_with ("chart-" +:+ string_of_Z c +:+ "-layer-") key = false).
    { rewrite <- not_true_iff_false, existsb_exists. setoid_rewrite <- list_elem_of_In.
      split.
      - intros Hn key Hkey. apply not_true_iff_false. intros Ht. apply Hn. by exists key.
      - intros Hall (key & Hkey & Ht). by rewrite (Hall key Hkey) in Ht. }
    by rewrite Hs.
  - rewrite list_elem_of_filter. tauto.
Qed.

(** There is one active filter per mask of the dashboard, under the id of
    the mask; its scope is the configured one (of the filter, else of the cross
    filter, else all charts) less the excluded charts when no layers are
    selected on the dashboard; when some are, it is the charts the selected
    layers name and those configured charts that are neither excluded nor
    refined to layers. *)
Theorem getAllActiveFilters_scope dataMask id mask :
  NoDup (akeys dataMask) →
  (∀ k v, (k, v) ∈ dataMask → to_string (opt_field "id" v) = k) →
  (id, mask) ∈ dataMask →
  let master := master_selection nf (akeys dataMask) in
  let active := getAllActiveFilters conf nf all dataMask in
  (∀ k, k ∈ akeys active ↔ k ∈ akeys dataMask) ∧
  ∃ af, aget id active = Some af ∧
        af_values af = with_default (opt_field "extraFormData" mask) (JObj []) ∧
        ∀ c, c ∈ af_scope af ↔
             in_active_scope (configured_scope conf nf all id) (selection nf master id) c.
Proof.
  intros Hnd Hid Hin master active. subst active. unfold getAllActiveFilters. cbv zeta.
  assert (Hids : (λ mask, to_string (opt_field "id" mask)) <$> avalues dataMask = akeys dataMask).
  { unfold avalues, akeys. rewrite <- list_fmap_compose. clear Hin Hnd master.
    induction dataMask as [|[k v] dm IH]; [done|]. rewrite !fmap_cons.
    f_equal; [simpl; apply (Hid k v); left|]. apply IH. intros; apply Hid. by right. }
  rewrite Hids. fold master.
  assert (Hfold : ∀ acc k,
    aget k (foldl (λ active mask, oset (to_string (opt_field "id" mask))
              (active_filter conf nf all master mask) active) acc (avalues dataMask)) =
    match aget k dataMask with
    | Some m => Some (active_filter conf nf all master m)
    | None => aget k acc
    end).
  { clear Hin Hids. clearbody master. induction dataMask as [|[k0 v0] dm IH]; intros acc k; [done|].
    apply NoDup_cons in Hnd as [Hk0 Hnd].
    change (avalues ((k0, v0) :: dm)) with (v0 :: avalues dm). cbn [foldl aget].
    rewrite IH by (done || (intros; apply Hid; by right)). rewrite (Hid k0 v0) by left.
    rewrite aget_oset. destruct (decide (k = k0)) as [->|]; [|done].
    by rewrite (proj2 (aget_None k0 dm) Hk0). }
  split.
  - intros k. rewrite <- !aget_is_Some, Hfold. destruct (aget k dataMask); [naive_solver eauto|].
    simpl. split; [by intros [??]|by intros [??]].
  - eexists. rewrite Hfold, (elem_aget id mask) by done. split; [done|].
    unfold active_filter. rewrite (Hid id mask Hin).
    pose proof (active_scope_spec master id) as Hspec.
    destruct (active_scope conf nf all master id) as [scope layerScope]. by split.
Qed.
End active_facts.

Lemma getAllActiveFilters_scope_witness :
  let nf := [("F", {| pf_chartsInScope := Some [1%Z; 2%Z]; pf_filterType := JUndef;
                      pf_targets := JUndef;
                      pf_scope := Some {| base_scope := {| rootPath := []; excluded := [2%Z] |};
                                          selectedLayers := None |} |})] in
  ∃ af, aget "F" (getAllActiveFilters [] nf [] [("F", JObj [("id", JStr "F")])]) = Some af ∧
        (1%Z ∈ af_scope af ↔ in_active_scope [1%Z; 2%Z] (None, [2%Z]) 1%Z).
Proof.
  intros nf.
  destruct (getAllActiveFilters_scope [] nf [] [("F", JObj [("id", JStr "F")])] "F"
    (JObj [("id", JStr "F")])) as [_ (af & Haf & _ & Hs)].
  - apply NoDup_singleton.
  - intros k v Hkv. apply list_elem_of_singleton in Hkv. injection Hkv as -> ->. reflexivity.
  - left.
  - exists af. split; [exact Haf|exact (Hs 1%Z)].
Defined.

(** ** Related charts *)

(** Slices stored under their decimal id. *)
Definition slices_ok (slices : slice_map) : Prop :=
  NoDup (avalues slices) ∧ ∀ k s, (k, s) ∈ slices → digits_Z k = s.

Lemma slices_keys slices : slices_ok slices → digits_Z <$> akeys slices = avalues slices.
Proof.
  intros [_ H]. unfold akeys, avalues. rewrite <- list_fmap_compose.
  induction slices as [|[k s] slices IH]; [done|]. rewrite !fmap_cons.
  f_equal; [simpl; apply (H k s); left|]. apply IH. intros. apply H. by right.
Qed.

(** The charts related to a native filter are the slices in its scope
    whenever the scope lists existing slices once each; but a scope that has as
    many entries as there are slices counts as the whole dashboard whatever it
    lists, stale chart ids included. *)
Theorem getRelatedCharts_native filterKey slices scope :
  slices_ok slices →
  (NoDup scope → (∀ c, c ∈ scope → c ∈ avalues slices) →
     ∀ c, c ∈ getRelatedCharts filterKey (AppliedNativeFilter scope) slices ↔ c ∈ scope) ∧
  (length scope = length slices →
     getRelatedCharts filterKey (AppliedNativeFilter scope) slices = avalues slices).
Proof.
  intros Hok. unfold getRelatedCharts, getRelatedChartsForSelectFilter, isGlobalScope.
  rewrite slices_keys by done.
  assert (Hlen : length (akeys slices) = length (avalues slices)).
  { unfold akeys, avalues. by rewrite !length_fmap. }
  split.
  - intros Hnd Hsub c. case_bool_decide as Hl.
    + split; [|apply Hsub]. intros Hc.
      assert (scope ≡ₚ avalues slices) as ->; [|done].
      apply submseteq_length_Permutation; [by apply NoDup_submseteq|lia].
    + rewrite list_elem_of_filter. naive_solver.
  - intros Hl. rewrite bool_decide_eq_true_2; [done|].
    unfold akeys. by rewrite length_fmap.
Qed.

Lemma getRelatedCharts_native_witness :
  getRelatedCharts "F" (AppliedNativeFilter [1%Z; 99%Z]) [("1", 1%Z); ("2", 2%Z)] = [1%Z; 2%Z].
Proof.
  apply (getRelatedCharts_native "F" [("1", 1%Z); ("2", 2%Z)] [1%Z; 99%Z]); [|reflexivity].
  split; [apply (bool_decide_unpack _); vm_compute; exact I|].
  intros k s Hks. repeat (apply elem_of_cons in Hks as [Hks|Hks]; [injection Hks as -> ->; reflexivity|]).
  by apply elem_of_nil in Hks.
Defined.

(** ** Scopes from the configuration dialog *)

Section sorting.
Context {A : Type}.
Implicit Types (xs : list (list A)) (x y : list A).

Lemma insert_by_length_Permutation x xs : insert_by_length x xs ≡ₚ x :: xs.
Proof.
  induction xs as [|y xs IH]; simpl; [done|]. case_bool_decide; [done|].
  rewrite IH. apply Permutation_swap.
Qed.

Lemma sort_by_length_Permutation xs : sort_by_length xs ≡ₚ xs.
Proof.
  induction xs as [|x xs IH]; simpl; [done|]. by rewrite insert_by_length_Permutation, IH.
Qed.

Lemma insert_by_length_head x xs :
  (∀ y, y ∈ xs → length (default [] (head xs)) ≤ length y) →
  ∀ y, y ∈ insert_by_length x xs → length (default [] (head (insert_by_length x xs))) ≤ length y.
Proof.
  destruct xs as [|z xs]; simpl; intros Hmin y Hy.
  { by apply list_elem_of_singleton in Hy as ->. }
  case_bool_decide as Hle; simpl in *.
  - apply elem_of_cons in Hy as [->|Hy]; [done|]. specialize (Hmin y Hy). lia.
  - apply elem_of_cons in Hy as [->|Hy]; [done|].
    rewrite insert_by_length_Permutation in Hy. apply elem_of_cons in Hy as [->|Hy]; [lia|].
    apply Hmin. by right.
Qed.

Lemma sort_by_length_head xs y :
  y ∈ sort_by_length xs → length (default [] (head (sort_by_length xs))) ≤ length y.
Proof.
  revert y. induction xs as [|x xs IH]; simpl; intros y Hy; [by apply elem_of_nil in Hy|].
  by apply insert_by_length_head.
Qed.
End sorting.

(** A dashboard layout: the root is there; every chart has its own chart id,
    lies below the root, and all its parents are items of the layout. *)
Record dashboard_layout (layout : layout_map) : Prop := {
  dl_keys : NoDup (akeys layout);
  dl_root : ∃ item, (DASHBOARD_ROOT_ID, item) ∈ layout ∧ li_type item = DASHBOARD_ROOT_TYPE;
  dl_chart : ∀ k item, (k, item) ∈ layout → li_type item = CHART_TYPE →
    ∃ c ps, li_chartId item = Some c ∧ li_parents item = Some ps ∧ DASHBOARD_ROOT_ID ∈ ps ∧
            ∀ p, p ∈ ps → p ∈ akeys layout;
  dl_unique : ∀ k k' a b, (k, a) ∈ layout → (k', b) ∈ layout →
    li_type a = CHART_TYPE → li_type b = CHART_TYPE → li_chartId a = li_chartId b → k = k';
}.

Section dialog.
Context (layout : layout_map) (Hok : dashboard_layout layout).

Lemma checked_chart_keys_plain checked :
  (∀ k, k ∈ checked → includes "-layer-" k = false) → checked_chart_keys layout checked = checked.
Proof.
  intros Hc. unfold checked_chart_keys.
  assert (filter (λ key, includes "-layer-" key = true) checked = []) as ->.
  { clear -Hc. induction checked as [|k ks IH]; [done|]. rewrite filter_cons.
    rewrite decide_False by (rewrite Hc by left; done). apply IH. intros. apply Hc. by right. }
  cbn [foldl]. clear -Hc. induction checked as [|k ks IH]; [done|]. rewrite filter_cons.
  rewrite decide_True by (right; apply Hc; left). f_equal. apply IH. intros. apply Hc. by right.
Qed.

Definition shown (p : string) : bool :=
  match aget p layout with
  | Some item => bool_decide (li_type item = TAB_TYPE) || bool_decide (li_type item = CHART_TYPE) ||
                 bool_decide (li_type item = DASHBOARD_ROOT_TYPE)
  | None => false
  end.

Lemma shown_root : shown DASHBOARD_ROOT_ID = true.
Proof.
  destruct (dl_root _ Hok) as (item & Hin & Ht). unfold shown.
  rewrite (elem_aget _ item) by (apply Hok || done). rewrite Ht. done.
Qed.

Lemma shown_parents_chart k item ps :
  (k, item) ∈ layout → li_type item = CHART_TYPE → li_parents item = Some ps →
  shown_parents layout k = Ok (filter (λ p, shown p = true) (DASHBOARD_ROOT_ID :: ps)).
Proof.
  intros Hin Ht Hps. unfold shown_parents.
  rewrite (elem_aget k item) by (apply Hok || done). cbn [mbind option_bind]. rewrite Hps.
  cbn [default from_option id]. apply filter_result_ok. intros p Hp.
  destruct (dl_chart _ Hok _ _ Hin Ht) as (c & ps' & _ & Hps' & _ & Hall). simplify_eq.
  assert (p ∈ akeys layout) as [it Hit]%aget_is_Some.
  { apply elem_of_cons in Hp as [->|Hp]; [|by apply Hall].
    destruct (dl_root _ Hok) as (r & Hr & _). apply list_elem_of_fmap. by exists (DASHBOARD_ROOT_ID, r). }
  unfold shown. by rewrite Hit.
Qed.

Lemma is_chart_key_spec k :
  is_chart_key layout k = true ↔ ∃ item, (k, item) ∈ layout ∧ li_type item = CHART_TYPE.
Proof.
  unfold is_chart_key. split.
  - destruct (aget k layout) as [item|] eqn:E; [|done]. intros H%bool_decide_eq_true.
    exists item. split; [by apply aget_Some_elem|done].
  - intros (item & Hin & Ht). rewrite (elem_aget k item) by (apply Hok || done).
    by apply bool_decide_eq_true.
Qed.

Lemma excluded_charts_spec roots keys c :
  c ∈ excluded_charts layout roots keys ↔
  ∃ k item, (k, item) ∈ layout ∧ li_type item = CHART_TYPE ∧ li_chartId item = Some c ∧ (k ∉ keys) ∧
            ∃ p, p ∈ DASHBOARD_ROOT_ID :: default [] (li_parents item) ∧ p ∈ roots.
Proof.
  unfold excluded_charts. rewrite list_elem_of_omap. split.
  - intros ([k item] & Hin & Hc). cbn [fst snd] in Hc.
    destruct (_ && _) eqn:E; [|done]. apply andb_true_iff in E as [Ht%bool_decide_eq_true E].
    apply existsb_exists in E as (p & Hp & E). apply list_elem_of_In in Hp.
    apply andb_true_iff in E as [Hr%bool_decide_eq_true Hk].
    apply negb_true_iff, bool_decide_eq_false in Hk. exists k, item. eauto 10.
  - intros (k & item & Hin & Ht & Hc & Hk & p & Hp & Hr). exists (k, item). split; [done|].
    cbn [fst snd]. rewrite bool_decide_eq_true_2 by done. cbn [andb].
    assert (existsb (λ parent, bool_decide (parent ∈ roots) && negb (bool_decide (k ∈ keys)))
      (DASHBOARD_ROOT_ID :: default [] (li_parents item)) = true) as ->; [|done].
    apply existsb_exists. exists p. split; [by apply list_elem_of_In|].
    rewrite bool_decide_eq_true_2 by done. by rewrite bool_decide_eq_false_2 by done.
Qed.

(** Among the chart items, the first that shows a chart is the only one. *)
Lemma chart_item_unique k item c :
  (k, item) ∈ layout → li_type item = CHART_TYPE → li_chartId item = Some c →
  head (filter (λ it, li_type it = CHART_TYPE ∧ li_chartId it = Some c)
          (chartLayoutItems layout)) = Some item.
Proof.
  intros Hin Ht Hc.
  assert (Hmem : item ∈ filter (λ it, li_type it = CHART_TYPE ∧ li_chartId it = Some c)
                          (chartLayoutItems layout)).
  { apply list_elem_of_filter. split; [done|]. unfold chartLayoutItems.
    apply list_elem_of_filter. split; [done|]. apply elem_of_avalues. by exists k. }
  assert (Hall : ∀ it, it ∈ filter (λ it, li_type it = CHART_TYPE ∧ li_chartId it = Some c)
                          (chartLayoutItems layout) → it = item).
  { intros it [[Ht' Hc'] Hit]%list_elem_of_filter. unfold chartLayoutItems in Hit.
    apply list_elem_of_filter in Hit as [_ (k' & Hk')%elem_of_avalues].
    assert (k = k') as <- by (eapply (dl_unique _ Hok); eauto; congruence).
    apply (elem_aget k) in Hk'; [|apply Hok]. apply (elem_aget k) in Hin; [|apply Hok]. congruence. }
  destruct (filter _ _) as [|it its]; [by apply elem_of_nil in Hmem|].
  simpl. f_equal. apply Hall. left.
Qed.

(** The roots of the scope reach every checked chart. *)
Lemma roots_cover parents ps :
  ps ∈ parents → ps ≠ [] → (∀ qs, qs ∈ parents → qs ≠ []) →
  let sorted := sort_by_length parents in
  let level := pred (length (default [] (head sorted))) in
  ∃ r, r ∈ ps ∧ r ∈ omap (λ qs : list string, qs !! level) sorted.
Proof.
  intros Hps Hne Hall sorted level.
  assert (Hin : ps ∈ sorted) by (subst sorted; by rewrite sort_by_length_Permutation).
  pose proof (sort_by_length_head parents ps Hin) as Hlen. fold sorted in Hlen.
  destruct (ps !! level) as [r|] eqn:E.
  - exists r. split; [by eapply list_elem_of_lookup_2|]. apply list_elem_of_omap. by exists ps.
  - apply lookup_ge_None in E. destruct ps; [done|]. simpl in *. lia.
Qed.

Lemma shown_root_nonempty ps : filter (λ p, shown p = true) (DASHBOARD_ROOT_ID :: ps) ≠ [].
Proof. rewrite filter_cons, decide_True by apply shown_root. done. Qed.

Lemma map_shown_parents keys :
  ∃ parents,
    map_result (shown_parents layout) (filter (λ key, is_chart_key layout key = true) keys) = Ok parents ∧
    (∀ qs, qs ∈ parents → qs ≠ []) ∧
    (∀ k item ps, k ∈ keys → (k, item) ∈ layout → li_type item = CHART_TYPE →
       li_parents item = Some ps →
       filter (λ p, shown p = true) (DASHBOARD_ROOT_ID :: ps) ∈ parents).
Proof.
  set (f k := filter (λ p, shown p = true)
                (DASHBOARD_ROOT_ID :: default [] (aget k layout ≫= li_parents))).
  exists (f <$> filter (λ key, is_chart_key layout key = true) keys). split; [|split].
  - apply map_result_ok. intros k [(item & Hin & Ht)%is_chart_key_spec _]%list_elem_of_filter.
    destruct (dl_chart _ Hok _ _ Hin Ht) as (c & ps & _ & Hps & _ & _).
    rewrite (shown_parents_chart k item ps) by done. unfold f.
    rewrite (elem_aget k item) by (apply Hok || done). cbn [mbind option_bind]. by rewrite Hps.
  - intros qs (k & -> & _)%list_elem_of_fmap. apply shown_root_nonempty.
  - intros k item ps Hk Hin Ht Hps. apply list_elem_of_fmap. exists k. split.
    + unfold f. rewrite (elem_aget k item) by (apply Hok || done). cbn [mbind option_bind].
      by rewrite Hps.
    + apply list_elem_of_filter. split; [|done]. apply is_chart_key_spec. by exists item.
Qed.

(** The scope computed from the checked components selects exactly the
    checked charts: a chart of the dashboard is in the scope that is saved if
    and only if it was checked in the tree of the dialog. *)
Theorem findFilterScope_roundtrip checked chartIds :
  checked ≠ [] → (∀ k, k ∈ checked → includes "-layer-" k = false) →
  ∃ scope,
    findFilterScope layout checked = Ok scope ∧
    ∀ k item c, (k, item) ∈ layout → li_type item = CHART_TYPE → li_chartId item = Some c →
      c ∈ chartIds →
      (c ∈ getChartIdsInFilterScope (no_layers scope) chartIds (chartLayoutItems layout) ↔
       k ∈ checked).
Proof.
  intros Hne Hlayer. unfold findFilterScope.
  destruct checked as [|k0 checked0]; [done|]. set (checked := k0 :: checked0) in *.
  cbv zeta. rewrite (checked_chart_keys_plain checked Hlayer).
  destruct (map_shown_parents checked) as (parents & -> & Hnonempty & Hcover).
  rewrite bind_Ok. eexists. split; [done|]. intros k item c Hin Ht Hc Hids.
  destruct (dl_chart _ Hok _ _ Hin Ht) as (c' & ps & Hc' & Hps & Hroot & _). simplify_eq.
  unfold getChartIdsInFilterScope. cbn [no_layers selectedLayers base_scope].
  rewrite list_elem_of_filter. unfold in_root_path.
  rewrite (chart_item_unique k item c) by done. cbn [excluded rootPath]. rewrite Hps.
  cbn [default from_option id]. rewrite andb_true_iff, negb_true_iff, bool_decide_eq_false.
  rewrite excluded_charts_spec, existsb_exists.
  set (roots := omap _ _). split.
  - intros [[Hnex (p & Hp & Hr)] _]. apply list_elem_of_In in Hp.
    apply bool_decide_eq_true in Hr. rewrite elem_of_foldl_add_new in Hr.
    destruct Hr as [Hr|Hr]; [by apply elem_of_nil in Hr|].
    apply dec_stable. intros Hk. apply Hnex. exists k, item. rewrite Hps. cbn [default from_option id].
    repeat split; try done. exists p. split; [by right|done].
  - intros Hk. split; [|done]. split.
    + intros (k' & item' & Hin' & Ht' & Hc' & Hk' & _). apply Hk'.
      assert (k' = k) as -> by (eapply (dl_unique _ Hok); eauto; congruence). done.
    + destruct (roots_cover parents _ (Hcover k item ps Hk Hin Ht Hps) (shown_root_nonempty ps)
        Hnonempty) as (r & Hr & Hroots). fold roots in Hroots.
      exists r. split.
      * apply list_elem_of_In. apply list_elem_of_filter in Hr as [_ Hr].
        apply elem_of_cons in Hr as [->|Hr]; done.
      * apply bool_decide_eq_true. rewrite elem_of_foldl_add_new. by right.
Qed.
End dialog.

Lemma findFilterScope_roundtrip_witness :
  let item id type parents c := {| li_id := id; li_type := type; li_children := [];
                                   li_parents := Some parents; li_chartId := c |} in
  let layout := [("ROOT_ID", item "ROOT_ID" DASHBOARD_ROOT_TYPE [] None);
                 ("C1", item "C1" CHART_TYPE ["ROOT_ID"] (Some 1%Z));
                 ("C2", item "C2" CHART_TYPE ["ROOT_ID"] (Some 2%Z))] in
  ∃ scope, findFilterScope layout ["C1"] = Ok scope ∧
    (2%Z ∈ getChartIdsInFilterScope (no_layers scope) [1%Z; 2%Z] (chartLayoutItems layout) ↔
     "C2" ∈ ["C1"]).
Proof.
  intros item layout.
  assert (Hok : dashboard_layout layout).
  { split.
    - apply (bool_decide_unpack _). vm_compute. exact I.
    - eexists. split; [left|reflexivity].
    - intros k i Hi Ht.
      repeat (apply elem_of_cons in Hi as [[= -> ->]|Hi]; [try discriminate Ht;
        (eexists _, _; split; [reflexivity|]; split; [reflexivity|]; split; [left|];
         intros p Hp; apply list_elem_of_singleton in Hp as ->; left)|]).
      by apply elem_of_nil in Hi.
    - intros k k' a b Ha Hb Hta Htb Hab.
      repeat (apply elem_of_cons in Ha as [[= -> ->]|Ha]; [try discriminate Hta;
        (repeat (apply elem_of_cons in Hb as [[= -> ->]|Hb];
           [first [discriminate Htb|reflexivity|discriminate Hab]|]); by apply elem_of_nil in Hb)|]).
      by apply elem_of_nil in Ha. }
  destruct (findFilterScope_roundtrip layout Hok ["C1"] [1%Z; 2%Z]) as (scope & Hs & Hiff).
  - discriminate.
  - intros k Hk. apply list_elem_of_singleton in Hk as ->. reflexivity.
  - exists scope. split; [exact Hs|].
    apply (Hiff "C2" (item "C2" CHART_TYPE ["ROOT_ID"] (Some 2%Z)) 2%Z); try reflexivity.
    + right. right. left.
    + right. left.
Defined.
