(* ===== verification/Registry.v ===== *)
(** * Registries

    [core/models/Registry.ts] and [RegistryWithDefaultKey.ts]: the tables under
    which chart plugins, colour schemes, formatters and the like are
    registered, by value or by a loader that is called on demand.

    Values are compared by [===], here equality on [V]; [None] is [undefined].
    A loader is a reference (a number); calling it is an effect: what it returns
    may depend on how many loader calls were made before, which the state
    counts.  A promise is a reference too, with the value it resolves to.
    Listeners and console warnings are recorded in a log; a listener that
    changes the registry while it is notified is not modelled. *)

From Stdlib Require Import String.
From stdpp Require Import base strings option numbers list sets.
From S2P Require Import Prelude JsObject Scope ScopeFacts.

(** @source core/models/Registry.ts 19-23 OverwritePolicy *)
Inductive OverwritePolicy := Allow | Prohibit | Warn.

#[export] Instance OverwritePolicy_eq_dec : EqDecision OverwritePolicy.
Proof. solve_decision. Defined.

(** A key between double quotes, as it appears in messages. *)
Definition quoted_key (key : string) : string :=
  let q := String (Ascii.ascii_of_N 34) EmptyString in q +:+ key +:+ q.

Section registry.
Context {V : Type} `{EqDecision V}.
(** [run loader n]: what the loader returns as the [n]-th loader call. *)
Context (run : nat → nat → option V).

(** @source core/models/Registry.ts 25-31 ItemWithValue, ItemWithLoader *)
Inductive item :=
| ItemWithValue (value : option V)
| ItemWithLoader (loader : nat).

#[export] Instance item_eq_dec : EqDecision item.
Proof. solve_decision. Defined.

Inductive event :=
| Notified (listener : nat) (keys : list string)
| Warned (key : string).

(** @source core/models/Registry.ts 77-89 Registry (fields) *)
Record registry := {
  overwritePolicy : OverwritePolicy;
  items : list (string * item);
  promises : list (string * (nat * V));
  listeners : list nat;
  (** the number of loader calls and of promises made so far, and the log *)
  calls : nat;
  next_promise : nat;
  log : list event;
}.

(** @source core/models/Registry.ts 91-98 Registry.constructor *)
Definition new_Registry (policy : OverwritePolicy) : registry :=
  {| overwritePolicy := policy; items := []; promises := []; listeners := [];
     calls := 0; next_promise := 0; log := [] |}.

Definition with_items (its : list (string * item)) (ps : list (string * (nat * V))) (st : registry)
    : registry :=
  {| overwritePolicy := overwritePolicy st; items := its; promises := ps;
     listeners := listeners st; calls := calls st; next_promise := next_promise st;
     log := log st |}.

Definition with_log (evs : list event) (st : registry) : registry :=
  {| overwritePolicy := overwritePolicy st; items := items st; promises := promises st;
     listeners := listeners st; calls := calls st; next_promise := next_promise st;
     log := log st ++ evs |}.

(** A listener that throws does not keep the others from being called.

    @source core/models/Registry.ts 275-284 Registry.notifyListeners *)
Definition notifyListeners (keys : list string) (st : registry) : registry :=
  with_log ((λ l, Notified l keys) <$> listeners st) st.

(** @source core/models/Registry.ts 226-228 Registry.keys *)
Definition keys (st : registry) : list string := akeys (items st).

(** @source core/models/Registry.ts 100-108 Registry.clear *)
Definition clear (st : registry) : registry :=
  notifyListeners (keys st) (with_items [] [] st).

(** @source core/models/Registry.ts 110-114 Registry.has *)
Definition has (key : string) (st : registry) : bool := ahas key (items st).

(** The overwrite check that both register operations share.

    @source core/models/Registry.ts 121-132 Registry.registerValue (policy) *)
Definition check_policy (willOverwrite : bool) (key : string) (st : registry) : result registry :=
  if willOverwrite then
    match overwritePolicy st with
    | Warn => Ok (with_log [Warned key] st)
    | Prohibit =>
        Throw (GenericError ("Item with key " +:+ quoted_key key +:+ " already exists. Cannot overwrite."))
    | Allow => Ok st
    end
  else Ok st.

(** @source core/models/Registry.ts 133-137 Registry.registerValue (assignment) *)
Definition store_item (willOverwrite : bool) (key : string) (new : item) (st : registry) : registry :=
  if negb (has key st) || willOverwrite then
    notifyListeners [key] (with_items (oset key new (items st)) (adel key (promises st)) st)
  else st.

(** @source core/models/Registry.ts 116-140 Registry.registerValue *)
Definition registerValue (key : string) (value : option V) (st : registry) : result registry :=
  let willOverwrite :=
    match aget key (items st) with
    | Some (ItemWithValue old) => bool_decide (old ≠ value)
    | Some (ItemWithLoader _) => true
    | None => false
    end in
  st ← check_policy willOverwrite key st;
  Ok (store_item willOverwrite key (ItemWithValue value) st).

(** @source core/models/Registry.ts 142-166 Registry.registerLoader *)
Definition registerLoader (key : string) (loader : nat) (st : registry) : result registry :=
  let willOverwrite :=
    match aget key (items st) with
    | Some (ItemWithLoader old) => bool_decide (old ≠ loader)
    | Some (ItemWithValue _) => true
    | None => false
    end in
  st ← check_policy willOverwrite key st;
  Ok (store_item willOverwrite key (ItemWithLoader loader) st).

(** @source core/models/Registry.ts 168-179 Registry.get *)
Definition get (key : string) (st : registry) : option V * registry :=
  match aget key (items st) with
  | Some (ItemWithLoader loader) =>
      (run loader (calls st),
       {| overwritePolicy := overwritePolicy st; items := items st; promises := promises st;
          listeners := listeners st; calls := S (calls st); next_promise := next_promise st;
          log := log st |})
  | Some (ItemWithValue value) => (value, st)
  | None => (None, st)
  end.

Definition keep_promise (key : string) (v : V) (st : registry) : registry :=
  {| overwritePolicy := overwritePolicy st; items := items st;
     promises := oset key (next_promise st, v) (promises st);
     listeners := listeners st; calls := calls st; next_promise := S (next_promise st);
     log := log st |}.

(** The promise and the value it resolves to; [Throw] is a rejected promise.

    @source core/models/Registry.ts 181-198 Registry.getAsPromise *)
Definition getAsPromise (key : string) (st : registry) : result (nat * V) * registry :=
  match aget key (promises st) with
  | Some promise => (Ok promise, st)
  | None =>
      let '(value, st) := get key st in
      match value with
      | Some v => (Ok (next_promise st, v), keep_promise key v st)
      | None =>
          (Throw (GenericError ("Item with key " +:+ quoted_key key +:+ " is not registered.")), st)
      end
  end.

(** @source core/models/Registry.ts 256-265 Registry.remove *)
Definition remove (key : string) (st : registry) : registry :=
  let isChange := has key st in
  let st := with_items (adel key (items st)) (adel key (promises st)) st in
  if isChange then notifyListeners [key] st else st.

(** @source core/models/Registry.ts 267-269 Registry.addListener *)
Definition addListener (listener : nat) (st : registry) : registry :=
  {| overwritePolicy := overwritePolicy st; items := items st; promises := promises st;
     listeners := add_new (listeners st) listener; calls := calls st;
     next_promise := next_promise st; log := log st |}.

(** @source core/models/Registry.ts 271-273 Registry.removeListener *)
Definition removeListener (listener : nat) (st : registry) : registry :=
  {| overwritePolicy := overwritePolicy st; items := items st; promises := promises st;
     listeners := filter (λ l, l ≠ listener) (listeners st); calls := calls st;
     next_promise := next_promise st; log := log st |}.

(** [keys.map(f)] with an effect on the registry *)
Fixpoint map_keys {A} (f : string → registry → A * registry) (ks : list string) (st : registry)
    : list A * registry :=
  match ks with
  | [] => ([], st)
  | k :: ks =>
      let '(x, st) := f k st in
      let '(xs, st) := map_keys f ks st in
      (x :: xs, st)
  end.

(** @source core/models/Registry.ts 230-232 Registry.values *)
Definition values (st : registry) : list (option V) * registry := map_keys get (keys st) st.

(** @source core/models/Registry.ts 238-243 Registry.entries *)
Definition entries (st : registry) : list (string * option V) * registry :=
  let '(vs, st') := map_keys get (keys st) st in (zip (keys st) vs, st').

(** @source core/models/Registry.ts 200-209 Registry.getMap *)
Definition getMap (st : registry) : list (string * option V) * registry :=
  let '(vs, st') := map_keys get (keys st) st in (from_entries (zip (keys st) vs), st').

(** [Promise.all]: the values, or the first rejection. *)
Definition promise_all (ps : list (result (nat * V))) : result (list V) :=
  map_result (λ p, pv ← p; Ok pv.2) ps.

(** @source core/models/Registry.ts 234-236 Registry.valuesAsPromise *)
Definition valuesAsPromise (st : registry) : result (list V) * registry :=
  let '(ps, st') := map_keys getAsPromise (keys st) st in (promise_all ps, st').

(** @source core/models/Registry.ts 245-254 Registry.entriesAsPromise *)
Definition entriesAsPromise (st : registry) : result (list (string * V)) * registry :=
  let '(vs, st') := valuesAsPromise st in (zip (keys st) <$> vs, st').

(** @source core/models/Registry.ts 211-224 Registry.getMapAsPromise *)
Definition getMapAsPromise (st : registry) : result (list (string * V)) * registry :=
  let '(vs, st') := valuesAsPromise st in
  ((λ vs, from_entries (zip (keys st) vs)) <$> vs, st').

(** ** With a default key *)

(** @source core/models/RegistryWithDefaultKey.ts 27-35 RegistryWithDefaultKey *)
Record registry_default := {
  base : registry;
  initialDefaultKey : option string;
  defaultKey : option string;
  setFirstItemAsDefault : bool;
}.

Definition with_base (b : registry) (d : option string) (st : registry_default) : registry_default :=
  {| base := b; initialDefaultKey := initialDefaultKey st; defaultKey := d;
     setFirstItemAsDefault := setFirstItemAsDefault st |}.

(** @source core/models/RegistryWithDefaultKey.ts 37-44 RegistryWithDefaultKey.constructor *)
Definition new_RegistryWithDefaultKey (policy : OverwritePolicy) (initial : option string)
    (setFirst : bool) : registry_default :=
  {| base := new_Registry policy; initialDefaultKey := initial; defaultKey := initial;
     setFirstItemAsDefault := setFirst |}.

(** A default key that is missing or empty. *)
Definition no_default (d : option string) : bool :=
  match d with None | Some EmptyString => true | Some _ => false end.

(** @source core/models/RegistryWithDefaultKey.ts 46-51 RegistryWithDefaultKey.clear *)
Definition clear_default (st : registry_default) : registry_default :=
  with_base (clear (base st)) (initialDefaultKey st) st.

(** @source core/models/RegistryWithDefaultKey.ts 53-57 RegistryWithDefaultKey.get *)
Definition get_default (key : option string) (st : registry_default) : option V * registry_default :=
  let targetKey := match key with Some k => Some k | None => defaultKey st end in
  match targetKey with
  | None | Some EmptyString => (None, st)
  | Some k => let '(v, b) := get k (base st) in (v, with_base b (defaultKey st) st)
  end.

(** @source core/models/RegistryWithDefaultKey.ts 61-64 RegistryWithDefaultKey.registerValue (first item) *)
Definition first_default (key : string) (st : registry_default) : option string :=
  if setFirstItemAsDefault st && no_default (defaultKey st) then Some key else defaultKey st.

(** @source core/models/RegistryWithDefaultKey.ts 59-67 RegistryWithDefaultKey.registerValue *)
Definition registerValue_default (key : string) (value : option V) (st : registry_default)
    : result registry_default :=
  b ← registerValue key value (base st);
  Ok (with_base b (first_default key st) st).

(** @source core/models/RegistryWithDefaultKey.ts 69-77 RegistryWithDefaultKey.registerLoader *)
Definition registerLoader_default (key : string) (loader : nat) (st : registry_default)
    : result registry_default :=
  b ← registerLoader key loader (base st);
  Ok (with_base b (first_default key st) st).

(** @source core/models/RegistryWithDefaultKey.ts 79-81 RegistryWithDefaultKey.getDefaultKey *)
Definition getDefaultKey (st : registry_default) : option string := defaultKey st.

(** @source core/models/RegistryWithDefaultKey.ts 83-87 RegistryWithDefaultKey.setDefaultKey *)
Definition setDefaultKey (key : string) (st : registry_default) : registry_default :=
  with_base (base st) (Some key) st.

(** @source core/models/RegistryWithDefaultKey.ts 89-93 RegistryWithDefaultKey.clearDefaultKey *)
Definition clearDefaultKey (st : registry_default) : registry_default :=
  with_base (base st) None st.

(** ** Operations as steps *)

Inductive op :=
| Clear
| RegisterValue (key : string) (value : option V)
| RegisterLoader (key : string) (loader : nat)
| Get (key : string)
| GetAsPromise (key : string)
| ValuesAsPromise
| Remove (key : string)
| AddListener (listener : nat)
| RemoveListener (listener : nat).

(** The registry after an operation; [Throw] when the operation throws. *)
Definition exec (o : op) (st : registry) : result registry :=
  match o with
  | Clear => Ok (clear st)
  | RegisterValue key value => registerValue key value st
  | RegisterLoader key loader => registerLoader key loader st
  | Get key => Ok (get key st).2
  | GetAsPromise key => Ok (getAsPromise key st).2
  | ValuesAsPromise => Ok (valuesAsPromise st).2
  | Remove key => Ok (remove key st)
  | AddListener listener => Ok (addListener listener st)
  | RemoveListener listener => Ok (removeListener listener st)
  end.

Definition exec_all (ops : list op) (st : registry) : result registry :=
  fold_result (λ st o, exec o st) st ops.

(** ** The invariant *)

(** A value that an item gives. *)
Definition provides (it : item) (v : V) : Prop :=
  match it with
  | ItemWithValue value => value = Some v
  | ItemWithLoader loader => ∃ n, run loader n = Some v
  end.

Definition promise_ok (its : list (string * item)) (next : nat) (k : string) (p : nat) (v : V) : Prop :=
  p < next ∧ ∃ it, aget k its = Some it ∧ provides it v.

Record registry_ok (st : registry) : Prop := {
  ok_items : NoDup (akeys (items st));
  ok_promises : ∀ k p v, aget k (promises st) = Some (p, v) →
    promise_ok (items st) (next_promise st) k p v;
  ok_distinct : ∀ k k' p v v', aget k (promises st) = Some (p, v) →
    aget k' (promises st) = Some (p, v') → k = k';
}.

Lemma registry_ok_same st st' :
  items st' = items st → promises st' = promises st → next_promise st' = next_promise st →
  registry_ok st → registry_ok st'.
Proof. intros Hi Hp Hn [H1 H2 H3]. split; by rewrite ?Hi, ?Hp, ?Hn. Qed.

Lemma check_policy_same w key st st' :
  check_policy w key st = Ok st' →
  items st' = items st ∧ promises st' = promises st ∧ next_promise st' = next_promise st ∧
  listeners st' = listeners st ∧ overwritePolicy st' = overwritePolicy st.
Proof.
  unfold check_policy. intros H. destruct w; [destruct (overwritePolicy st) eqn:E|];
    try discriminate H; injection H as <-; done.
Qed.

Lemma store_item_ok w key new st : registry_ok st → registry_ok (store_item w key new st).
Proof.
  intros Hst. unfold store_item. destruct (_ || _); [|done]. destruct Hst as [H1 H2 H3]. split; simpl.
  - by apply NoDup_akeys_oset.
  - intros k p v. rewrite aget_adel. destruct (decide (k = key)) as [->|Hne]; [done|].
    intros Hk. destruct (H2 k p v Hk) as (Hp & it & Hit & Hv). split; [done|]. exists it.
    by rewrite aget_oset_ne.
  - intros k k' p v v'. rewrite !aget_adel. repeat (case_decide; [done|]). apply H3.
Qed.

Lemma get_same key st :
  items (get key st).2 = items st ∧ promises (get key st).2 = promises st ∧
  next_promise (get key st).2 = next_promise st.
Proof. unfold get. destruct (aget key (items st)) as [[]|]; done. Qed.

Lemma get_provides key st v :
  (get key st).1 = Some v → ∃ it, aget key (items st) = Some it ∧ provides it v.
Proof.
  unfold get. destruct (aget key (items st)) as [[x|l]|] eqn:E; simpl; [| |done].
  - intros ->. by exists (ItemWithValue (Some v)).
  - intros Hr. exists (ItemWithLoader l). split; [done|]. by eexists.
Qed.

Lemma getAsPromise_ok key st : registry_ok st → registry_ok (getAsPromise key st).2.
Proof.
  intros Hst. unfold getAsPromise. destruct (aget key (promises st)) as [[p v]|] eqn:E; [done|].
  destruct (get_same key st) as (Hi & Hp & Hn). pose proof (get_provides key st) as Hv.
  destruct (get key st) as [[v|] st']; cbn [fst snd] in *.
  2: { by eapply registry_ok_same. }
  destruct (Hv v eq_refl) as (it & Hit & Hprov). destruct Hst as [H1 H2 H3]. split; simpl.
  - by rewrite Hi.
  - rewrite Hi, Hp, Hn. intros k p w. rewrite aget_oset. destruct (decide (k = key)) as [->|].
    + intros [= <- <-]. split; [lia|]. by exists it.
    + intros Hk. destruct (H2 k p w Hk) as [Hlt Hex]. split; [lia|done].
  - rewrite Hp, Hn. intros k k' p w w'. rewrite !aget_oset.
    destruct (decide (k = key)) as [->|], (decide (k' = key)) as [->|]; [done| | |apply H3].
    + intros [= <- <-] Hk'. destruct (H2 _ _ _ Hk'). lia.
    + intros Hk [= <- <-]. destruct (H2 _ _ _ Hk). lia.
Qed.

Lemma map_keys_ok {A} (f : string → registry → A * registry) ks st :
  (∀ k st, registry_ok st → registry_ok (f k st).2) → registry_ok st →
  registry_ok (map_keys f ks st).2.
Proof.
  intros Hf. revert st. induction ks as [|k ks IH]; intros st Hst; [done|]. simpl.
  specialize (Hf k st Hst). destruct (f k st) as [x st1]. simpl in Hf.
  specialize (IH st1 Hf). by destruct (map_keys f ks st1).
Qed.

Lemma valuesAsPromise_ok st : registry_ok st → registry_ok (valuesAsPromise st).2.
Proof.
  intros Hst. unfold valuesAsPromise.
  pose proof (map_keys_ok getAsPromise (keys st) st getAsPromise_ok Hst) as H.
  by destruct (map_keys getAsPromise (keys st) st).
Qed.

Lemma register_ok w key new st st' :
  registry_ok st → (st1 ← check_policy w key st; Ok (store_item w key new st1)) = Ok st' →
  registry_ok st'.
Proof.
  intros Hst H. apply bind_Ok_inv in H as (st1 & H1 & H). injection H as <-.
  apply check_policy_same in H1 as (Hi & Hp & Hn & _). apply store_item_ok.
  by eapply registry_ok_same.
Qed.

Lemma exec_ok o st st' : registry_ok st → exec o st = Ok st' → registry_ok st'.
Proof.
  intros Hst Hex. destruct o; simpl in Hex; try (injection Hex as <-).
  - split; simpl; [apply NoDup_nil_2|done|done].
  - by eapply register_ok.
  - by eapply register_ok.
  - destruct (get_same key st) as (? & ? & ?). by eapply registry_ok_same.
  - by apply getAsPromise_ok.
  - by apply valuesAsPromise_ok.
  - assert (registry_ok (with_items (adel key (items st)) (adel key (promises st)) st)) as Hr.
    { destruct Hst as [H1 H2 H3]. split; simpl.
      - by apply NoDup_akeys_adel.
      - intros k p v. rewrite aget_adel. case_decide; [done|]. intros Hk.
        destruct (H2 k p v Hk) as (Hp & it & Hit & Hv). split; [done|]. exists it.
        by rewrite aget_adel_ne.
      - intros k k' p v v'. rewrite !aget_adel. repeat (case_decide; [done|]). apply H3. }
    unfold remove. destruct (has key st); [|done].
    revert Hr. by apply registry_ok_same.
  - revert Hst. by apply registry_ok_same.
  - revert Hst. by apply registry_ok_same.
Qed.

Lemma exec_all_ok ops st st' : registry_ok st → exec_all ops st = Ok st' → registry_ok st'.
Proof.
  revert st. induction ops as [|o ops IH]; intros st Hst H; simpl in H; [by injection H as <-|].
  apply bind_Ok_inv in H as (st1 & H1 & H). eapply IH; [|done]. by eapply exec_ok.
Qed.

(** In every registry that is reached, keys are distinct, no promise is
    shared by two keys, and each cached promise resolves to a value that the
    item now registered under its key gives: registering over a key, removing
    it and clearing never leave a stale promise behind. *)
Theorem registry_promises_fresh policy ops st :
  exec_all ops (new_Registry policy) = Ok st → registry_ok st.
Proof.
  apply exec_all_ok. split; simpl; [apply NoDup_nil_2|done|done].
Qed.

(** ** Caching of promises *)

(** The operation may replace the item of the key. *)
Definition touches (k : string) (o : op) : bool :=
  match o with
  | Clear => true
  | RegisterValue key _ | RegisterLoader key _ | Remove key => bool_decide (key = k)
  | _ => false
  end.

Lemma store_item_promise w key new st k :
  key ≠ k → aget k (promises (store_item w key new st)) = aget k (promises st).
Proof.
  intros Hk. unfold store_item. destruct (_ || _); [|done]. simpl. by rewrite aget_adel_ne.
Qed.

Lemma getAsPromise_keeps key st k pv :
  aget k (promises st) = Some pv → aget k (promises (getAsPromise key st).2) = Some pv.
Proof.
  intros Hk. unfold getAsPromise. destruct (aget key (promises st)) as [q|] eqn:E; [done|].
  destruct (get_same key st) as (_ & Hp & _).
  destruct (get key st) as [[v|] st']; cbn [fst snd] in *; simpl; rewrite ?Hp; [|done].
  rewrite aget_oset_ne by congruence. done.
Qed.

Lemma map_keys_keeps ks st k pv :
  aget k (promises st) = Some pv →
  aget k (promises (map_keys getAsPromise ks st).2) = Some pv.
Proof.
  revert st. induction ks as [|k' ks IH]; intros st Hk; [done|]. simpl.
  pose proof (getAsPromise_keeps k' st k pv Hk) as H1. destruct (getAsPromise k' st) as [x st1].
  specialize (IH st1 H1). by destruct (map_keys getAsPromise ks st1).
Qed.

Lemma exec_keeps o st st' k pv :
  touches k o = false → exec o st = Ok st' →
  aget k (promises st) = Some pv → aget k (promises st') = Some pv.
Proof.
  intros Ht Hex Hk. destruct o; simpl in Hex, Ht; try done; try (injection Hex as <-).
  - apply bind_Ok_inv in Hex as (st1 & H1 & Hex). injection Hex as <-.
    apply check_policy_same in H1 as (_ & Hp & _). apply bool_decide_eq_false in Ht.
    by rewrite store_item_promise, Hp.
  - apply bind_Ok_inv in Hex as (st1 & H1 & Hex). injection Hex as <-.
    apply check_policy_same in H1 as (_ & Hp & _). apply bool_decide_eq_false in Ht.
    by rewrite store_item_promise, Hp.
  - destruct (get_same key st) as (_ & -> & _). done.
  - by apply getAsPromise_keeps.
  - unfold valuesAsPromise. pose proof (map_keys_keeps (keys st) st k pv Hk) as H1.
    by destruct (map_keys getAsPromise (keys st) st).
  - apply bool_decide_eq_false in Ht. unfold remove.
    destruct (has key st); simpl; by rewrite aget_adel_ne.
  - done.
  - done.
Qed.

(** A promise is cached: once it was made for a key, asking again gives
    the same promise without calling a loader, after any operations that do
    not register, remove or clear the key. *)
Theorem getAsPromise_cached key st p st1 ops st2 :
  getAsPromise key st = (Ok p, st1) →
  Forall (λ o, touches key o = false) ops →
  exec_all ops st1 = Ok st2 →
  getAsPromise key st2 = (Ok p, st2).
Proof.
  intros Hget Hops Hex.
  assert (Hk : aget key (promises st1) = Some p).
  { unfold getAsPromise in Hget. destruct (aget key (promises st)) as [q|] eqn:E; [congruence|].
    destruct (get key st) as [[v|] st']; [|congruence]. injection Hget as <- <-. simpl.
    by rewrite aget_oset_eq. }
  clear Hget. revert st1 Hk Hex. induction Hops as [|o ops Ho _ IH]; intros st1 Hk Hex; simpl in Hex.
  - injection Hex as <-. unfold getAsPromise. by rewrite Hk.
  - apply bind_Ok_inv in Hex as (st' & H1 & Hex). eapply IH; [|done]. by eapply exec_keeps.
Qed.

(** ** Overwriting *)

(** The item that an operation registers. *)
Definition registers (o : op) : option (string * item) :=
  match o with
  | RegisterValue key value => Some (key, ItemWithValue value)
  | RegisterLoader key loader => Some (key, ItemWithLoader loader)
  | _ => None
  end.

Definition conflicts (new : item) (old : option item) : bool :=
  match old, new with
  | Some (ItemWithValue a), ItemWithValue b => bool_decide (a ≠ b)
  | Some (ItemWithLoader a), ItemWithLoader b => bool_decide (a ≠ b)
  | Some _, _ => true
  | None, _ => false
  end.

Lemma exec_register o key new st :
  registers o = Some (key, new) →
  exec o st =
  (st1 ← check_policy (conflicts new (aget key (items st))) key st;
   Ok (store_item (conflicts new (aget key (items st))) key new st1)).
Proof. destruct o; simpl; intros [= <- <-]; [unfold registerValue|unfold registerLoader]; done. Qed.

Lemma no_conflict_same new old : conflicts new (Some old) = false → old = new.
Proof.
  destruct new, old; simpl; try done; intros H%bool_decide_eq_false; apply dec_stable in H; congruence.
Qed.

(** Registration follows the overwrite policy: a registry that prohibits
    overwriting throws on a conflicting item and never changes an item that is
    registered; otherwise the new item is the registered one afterwards.  The
    listeners are notified of the key exactly when the item under it changed. *)
Theorem register_policy o key new st :
  registers o = Some (key, new) →
  let old := aget key (items st) in
  if conflicts new old && bool_decide (overwritePolicy st = Prohibit)
  then ∃ e, exec o st = Throw e
  else ∃ st', exec o st = Ok st' ∧
    aget key (items st') = Some new ∧
    (∀ k, k ≠ key → aget k (items st') = aget k (items st)) ∧
    (overwritePolicy st = Prohibit → old ≠ None → items st' = items st) ∧
    log st' = log st ++
      (if conflicts new old && bool_decide (overwritePolicy st = Warn) then [Warned key] else []) ++
      (if decide (old = Some new) then [] else (λ l, Notified l [key]) <$> listeners st).
Proof.
  intros Ho old. rewrite (exec_register o key new st Ho). fold old.
  assert (Hstored : ∀ st1 w, items st1 = items st → listeners st1 = listeners st →
    w = conflicts new old →
    let st' := store_item w key new st1 in
    aget key (items st') = Some new ∧
    (∀ k, k ≠ key → aget k (items st') = aget k (items st)) ∧
    (w = false → old ≠ None → items st' = items st) ∧
    log st' = log st1 ++
      (if decide (old = Some new) then [] else (λ l, Notified l [key]) <$> listeners st)).
  { intros st1 w Hi Hl Hw. unfold store_item, has, ahas. rewrite Hi. fold old.
    destruct old as [it|] eqn:Eold; simpl.
    - destruct w; simpl.
      + rewrite decide_False by (intros [= ->]; destruct new; simpl in Hw;
          by rewrite bool_decide_eq_false_2 in Hw by tauto).
        rewrite aget_oset_eq, Hl. repeat split; try done. intros k Hk. by rewrite aget_oset_ne.
      + symmetry in Hw. apply no_conflict_same in Hw as ->. rewrite decide_True by done.
        rewrite Hi, app_nil_r. by repeat split.
    - rewrite aget_oset_eq, Hl. repeat split; try done.
      intros k Hk. by rewrite aget_oset_ne. }
  unfold check_policy. destruct (conflicts new old) eqn:Ec; cbn [andb].
  - destruct (overwritePolicy st) eqn:Ep; cbn [bool_decide decide].
    + rewrite bind_Ok. eexists. split; [done|].
      destruct (Hstored st true) as (H1 & H2 & H3 & H4); [done..|]. repeat split; try done.
    + rewrite bind_Throw. by eexists.
    + rewrite bind_Ok. eexists. split; [done|].
      destruct (Hstored (with_log [Warned key] st) true) as (H1 & H2 & H3 & H4); [done..|].
      repeat split; try done. rewrite H4. simpl. by rewrite <- app_assoc.
  - rewrite bind_Ok. eexists. split; [done|].
    destruct (Hstored st false) as (H1 & H2 & H3 & H4); [done..|]. repeat split; try done.
    intros _. by apply H3.
Qed.
End registry.

Lemma registry_promises_fresh_witness :
  match exec_all (λ _ n, Some n) [RegisterValue "a" (Some 1); GetAsPromise "a"; RegisterLoader "a" 7;
                                  GetAsPromise "a"] (new_Registry Allow) with
  | Ok st => registry_ok (λ _ n, Some n) st ∧ promises st = [("a", (1, 0))]
  | Throw _ => False
  end.
Proof.
  destruct (exec_all _ _ _) as [st|e] eqn:E; [|vm_compute in E; discriminate E]. split.
  - exact (registry_promises_fresh _ _ _ st E).
  - vm_compute in E. injection E as <-. reflexivity.
Defined.

Lemma getAsPromise_cached_witness :
  let run := λ _ n : nat, Some n in
  let st0 := store_item false "a" (ItemWithLoader 7) (new_Registry Allow) in
  match getAsPromise run "a" st0 with
  | (Ok p, st1) => getAsPromise run "a" (get run "a" st1).2 = (Ok p, (get run "a" st1).2)
  | _ => False
  end.
Proof.
  intros run st0. destruct (getAsPromise run "a" st0) as [[p|e] st1] eqn:E.
  - apply (getAsPromise_cached run "a" st0 p st1 [Get "a"] _ E); [|reflexivity].
    apply Forall_singleton. reflexivity.
  - vm_compute in E. discriminate E.
Defined.

Lemma register_policy_witness :
  let st := new_Registry (V := nat) Prohibit in
  ∃ st', exec (λ _ _, None) (RegisterValue "a" (Some 1)) st = Ok st' ∧
         aget "a" (items st') = Some (ItemWithValue (Some 1)).
Proof.
  intros st.
  destruct (register_policy (λ _ _, None) (RegisterValue "a" (Some 1)) "a"
    (ItemWithValue (Some 1)) st eq_refl) as (st' & Hx & Hi & _).
  exists st'. split; [exact Hx|exact Hi].
Defined.
