(* ===== verification/Lru.v ===== *)
(** * The LRU cache

    [core/utils/lruCache.ts]: a bounded cache on top of a [Map], whose
    insertion order is the order of use, least recent first.  The capacity is an
    integer.  A key that is not a string makes a lookup or an update throw and
    leaves the cache alone. *)

From Stdlib Require Import String.
From stdpp Require Import base strings option numbers list.
From S2P Require Import Prelude JsObject JsValue.

Section lru.
Context {T : Type}.

(** @source core/utils/lruCache.ts 20-23 LRUCache *)
Record LRUCache := {
  cache : list (string * T);
  capacity : Z;
}.

(** @source core/utils/lruCache.ts 25-31 LRUCache.constructor *)
Definition new_LRUCache (cap : Z) : result LRUCache :=
  if (cap <? 1)%Z then Throw (GenericError "The capacity in LRU must be greater than 0.")
  else Ok {| cache := []; capacity := cap |}.

(** @source core/utils/lruCache.ts 67-69 LRUCache.size *)
Definition size (c : LRUCache) : nat := length (cache c).

(** @source core/utils/lruCache.ts 33-35 LRUCache.has *)
Definition lru_has (key : string) (c : LRUCache) : bool := ahas key (cache c).

(** A hit moves the entry to the end.

    @source core/utils/lruCache.ts 43-49 LRUCache.get *)
Definition lru_get (key : string) (c : LRUCache) : option T * LRUCache :=
  match aget key (cache c) with
  | Some tmp =>
      (Some tmp, {| cache := aset key tmp (adel key (cache c)); capacity := capacity c |})
  | None => (None, c)
  end.

Definition key_error : jserror := TypeError "The LRUCache key must be string.".

(** The lookup with the guard on the key.

    @source core/utils/lruCache.ts 37-50 LRUCache.get *)
Definition lru_get_guarded (key : jsval) (c : LRUCache) : result (option T * LRUCache) :=
  match key with JStr key => Ok (lru_get key c) | _ => Throw key_error end.

(** The oldest key; deleting the key [undefined] of an empty map does nothing. *)
Definition oldest (c : LRUCache) : option string := head (akeys (cache c)).

(** @source core/utils/lruCache.ts 57-60 LRUCache.set *)
Definition lru_set (key : string) (value : T) (c : LRUCache) : LRUCache :=
  let entries :=
    if (capacity c <=? Z.of_nat (size c))%Z then
      match oldest c with
      | Some old => adel old (cache c)
      | None => cache c
      end
    else cache c in
  {| cache := aset key value entries; capacity := capacity c |}.

(** The update with the guard on the key.

    @source core/utils/lruCache.ts 52-61 LRUCache.set *)
Definition lru_set_guarded (key : jsval) (value : T) (c : LRUCache) : result LRUCache :=
  match key with JStr key => Ok (lru_set key value c) | _ => Throw key_error end.

(** @source core/utils/lruCache.ts 63-65 LRUCache.clear *)
Definition lru_clear (c : LRUCache) : LRUCache := {| cache := []; capacity := capacity c |}.

(** @source core/utils/lruCache.ts 71-73 LRUCache.values *)
Definition lru_values (c : LRUCache) : list T := avalues (cache c).

(** @source core/utils/lruCache.ts 76-78 lruCache *)
Definition lruCache (cap : option Z) : result LRUCache := new_LRUCache (default 100%Z cap).

Inductive lru_op := GetKey (key : jsval) | SetKey (key : jsval) (value : T) | ClearAll.

(** The cache after a call, also after one that throws. *)
Definition lru_exec (c : LRUCache) (o : lru_op) : LRUCache :=
  match o with
  | GetKey key => match lru_get_guarded key c with Ok r => r.2 | Throw _ => c end
  | SetKey key value => match lru_set_guarded key value c with Ok c' => c' | Throw _ => c end
  | ClearAll => lru_clear c
  end.

(** ** The bound *)

Record lru_ok (c : LRUCache) : Prop := {
  lru_positive : (1 ≤ capacity c)%Z;
  lru_keys : NoDup (akeys (cache c));
  lru_bound : (Z.of_nat (size c) ≤ capacity c)%Z;
}.

Lemma length_aset k v (o : list (string * T)) : length (aset k v o) ≤ S (length o).
Proof. induction o as [|[k0 v0] o IH]; simpl; [lia|]. case_decide; simpl; lia. Qed.

Lemma oldest_in c old : oldest c = Some old → old ∈ akeys (cache c).
Proof. unfold oldest. destruct (akeys (cache c)); simpl; [done|]. intros [= ->]. left. Qed.

Lemma lru_set_ok key value c : lru_ok c → lru_ok (lru_set key value c).
Proof.
  intros [Hp Hk Hb]. unfold lru_set. split; cbn [capacity cache]; [done| |].
  - apply NoDup_akeys_aset. destruct (_ <=? _)%Z; [|done].
    destruct (oldest c); [by apply NoDup_akeys_adel|done].
  - unfold size in *. cbn [cache]. destruct (Z.leb_spec (capacity c) (Z.of_nat (length (cache c)))).
    + destruct (oldest c) as [old|] eqn:E.
      * pose proof (length_adel_in old (cache c) Hk (oldest_in c old E)).
        pose proof (length_aset key value (adel old (cache c))). lia.
      * unfold oldest, akeys in E. destruct (cache c); [simpl in *; lia|done].
    + pose proof (length_aset key value (cache c)). lia.
Qed.

Lemma lru_get_ok key c : lru_ok c → lru_ok (lru_get key c).2.
Proof.
  intros [Hp Hk Hb]. unfold lru_get. destruct (aget key (cache c)) as [v|] eqn:E; [|done].
  assert (Hin : key ∈ akeys (cache c)) by (apply aget_is_Some; by eexists).
  split; simpl; [done|by apply NoDup_akeys_aset, NoDup_akeys_adel|].
  unfold size in *. simpl. pose proof (length_adel_in key _ Hk Hin).
  pose proof (length_aset key v (adel key (cache c))). lia.
Qed.

(** A cache never holds more entries than its capacity, nor a key twice,
    after any sequence of operations on a new cache, calls with a key that is not
    a string included. *)
Theorem lru_bounded cap c ops :
  new_LRUCache cap = Ok c → lru_ok (foldl lru_exec c ops).
Proof.
  intros Hnew.
  assert (Hok : lru_ok c).
  { unfold new_LRUCache in Hnew. destruct (Z.ltb_spec cap 1); [done|]. injection Hnew as <-.
    split; simpl; [lia|apply NoDup_nil_2|unfold size; simpl; lia]. }
  clear Hnew. revert c Hok. induction ops as [|o ops IH]; intros c Hok; [done|]. simpl. apply IH.
  destruct o as [[]|[]|]; try done; [by apply lru_get_ok|by apply lru_set_ok|].
  destruct Hok as [Hp _ _]. split; simpl; [done|apply NoDup_nil_2|unfold size; simpl; lia].
Qed.

(** What a lookup and an update do: a hit makes the key the most recent
    one and changes no entry; an update stores the value and, when the cache is
    full, drops the oldest entry, also when the updated key was in the cache
    already and no room was needed. *)
Theorem lru_get_set_effect c key value :
  lru_ok c →
  (∀ k, aget k (cache (lru_get key c).2) = aget k (cache c)) ∧
  (key ∈ akeys (cache c) → last (akeys (cache (lru_get key c).2)) = Some key) ∧
  (∀ k, aget k (cache (lru_set key value c)) =
        if decide (k = key) then Some value
        else if decide (Z.of_nat (size c) = capacity c ∧ oldest c = Some k) then None
        else aget k (cache c)).
Proof.
  intros [Hp Hk Hb]. split; [|split].
  - intros k. unfold lru_get. destruct (aget key (cache c)) as [v|] eqn:E; [|done]. simpl.
    rewrite aget_aset, aget_adel. by case_decide; subst.
  - intros Hin. unfold lru_get. pose proof Hin as [v Hv]%aget_is_Some. rewrite Hv. simpl.
    rewrite aset_fresh by (rewrite elem_of_akeys_adel; naive_solver).
    unfold akeys. rewrite fmap_app. apply last_snoc.
  - intros k. unfold lru_set. simpl. rewrite aget_aset.
    destruct (decide (k = key)) as [->|Hne]; [done|].
    destruct (Z.leb_spec (capacity c) (Z.of_nat (size c))) as [Hf|Hf].
    + destruct (oldest c) as [old|] eqn:E.
      * rewrite aget_adel. destruct (decide (k = old)) as [->|].
        -- rewrite decide_True; [done|]. split; [lia|done].
        -- by rewrite decide_False by naive_solver.
      * by rewrite decide_False by naive_solver.
    + rewrite decide_False; [done|]. lia.
Qed.
End lru.

Lemma lru_bounded_witness :
  match new_LRUCache (T := nat) 1 with
  | Ok c => size (foldl lru_exec c [SetKey (JStr "a") 1; SetKey JNull 3; SetKey (JStr "b") 2]) = 1 ∧
            lru_ok (foldl lru_exec c [SetKey (JStr "a") 1; SetKey JNull 3; SetKey (JStr "b") 2])
  | Throw _ => False
  end.
Proof.
  destruct (new_LRUCache (T := nat) 1) as [c|e] eqn:E; [|discriminate E].
  split; [injection E as <-; reflexivity|exact (lru_bounded 1 c _ E)].
Defined.

Lemma lru_get_set_effect_witness :
  let c := {| cache := [("a", 1); ("b", 2)]; capacity := 2 |} in
  aget "a" (cache (lru_set "b" 3 c)) = None.
Proof.
  intros c.
  destruct (lru_get_set_effect c "b" 3) as (_ & _ & H).
  - split; [vm_compute; discriminate| |vm_compute; discriminate].
    apply (bool_decide_unpack _). vm_compute. exact I.
  - rewrite H. reflexivity.
Defined.
