(* ===== verification/Folders.v ===== *)
(** * Folders of the datasource panel

    [app/explore/components/DatasourcePanel/transformDatasourceFolders.ts]: the
    metrics and columns of a dataset are shown in the folders of its
    configuration; what no folder takes goes to two default folders. *)

From Stdlib Require Import String.
From stdpp Require Import base strings option numbers list.
From S2P Require Import Prelude JsObject JsNumber JsValue.

(** A metric or a column to display. *)
Record folder_item := {
  it_uuid : string;
  it_type : string;
  it_data : jsobj;
}.

(** The folder configuration: a child is a folder, or refers to a metric or to
    a column. *)
Inductive folder_child :=
| ChildFolder (uuid name : string) (description : option string) (children : list folder_child)
| ChildMetric (uuid : string)
| ChildColumn (uuid : string).

Section child_ind.
Context (P : folder_child → Prop).
Hypothesis HF : ∀ u n d cs, Forall P cs → P (ChildFolder u n d cs).
Hypothesis HM : ∀ u, P (ChildMetric u).
Hypothesis HC : ∀ u, P (ChildColumn u).

Fixpoint folder_child_nested_ind (c : folder_child) : P c :=
  match c with
  | ChildFolder u n d cs =>
      HF u n d cs
        ((fix go cs : Forall P cs :=
            match cs with
            | [] => Forall_nil_2 P
            | c :: cs => Forall_cons_2 P c cs (folder_child_nested_ind c) (go cs)
            end) cs)
  | ChildMetric u => HM u
  | ChildColumn u => HC u
  end.
End child_ind.

Inductive folder :=
| Folder (id name : string) (description : option string) (isCollapsed : bool)
    (items : list folder_item) (totalItems showingItems : Z) (parentId : option string)
    (subFolders : option (list folder)).

Definition f_total (f : folder) : Z := match f with Folder _ _ _ _ _ n _ _ _ => n end.
Definition f_showing (f : folder) : Z := match f with Folder _ _ _ _ _ _ n _ _ => n end.

(** The maps of items that no folder has taken yet, and the counters. *)
Record folder_state := {
  metricsMap : list (string * folder_item);
  columnsMap : list (string * folder_item);
  metricsInFolders : Z;
  columnsInFolders : Z;
}.

(** The parts of the folder under construction. *)
Record folder_build := {
  fb_items : list folder_item;
  fb_total : Z;
  fb_showing : Z;
  fb_sub : list folder;
}.

(** @source app/explore/components/DatasourcePanel/transformDatasourceFolders.ts 74-82 processFolder (a metric) *)
Definition take_metric (uuid : string) (st : folder_state) (b : folder_build)
    : folder_build * folder_state :=
  let total := (fb_total b + 1)%Z in
  match aget uuid (metricsMap st) with
  | Some metric =>
      ({| fb_items := fb_items b ++ [metric]; fb_total := total;
          fb_showing := fb_showing b + 1; fb_sub := fb_sub b |},
       {| metricsMap := adel (it_uuid metric) (metricsMap st); columnsMap := columnsMap st;
          metricsInFolders := metricsInFolders st + 1; columnsInFolders := columnsInFolders st |})
  | None =>
      ({| fb_items := fb_items b; fb_total := total; fb_showing := fb_showing b;
          fb_sub := fb_sub b |},
       {| metricsMap := metricsMap st; columnsMap := columnsMap st;
          metricsInFolders := metricsInFolders st + 1; columnsInFolders := columnsInFolders st |})
  end.

(** @source app/explore/components/DatasourcePanel/transformDatasourceFolders.ts 83-92 processFolder (a column) *)
Definition take_column (uuid : string) (st : folder_state) (b : folder_build)
    : folder_build * folder_state :=
  let total := (fb_total b + 1)%Z in
  match aget uuid (columnsMap st) with
  | Some column =>
      ({| fb_items := fb_items b ++ [column]; fb_total := total;
          fb_showing := fb_showing b + 1; fb_sub := fb_sub b |},
       {| metricsMap := metricsMap st; columnsMap := adel (it_uuid column) (columnsMap st);
          metricsInFolders := metricsInFolders st; columnsInFolders := columnsInFolders st + 1 |})
  | None =>
      ({| fb_items := fb_items b; fb_total := total; fb_showing := fb_showing b;
          fb_sub := fb_sub b |},
       {| metricsMap := metricsMap st; columnsMap := columnsMap st;
          metricsInFolders := metricsInFolders st; columnsInFolders := columnsInFolders st + 1 |})
  end.

(** @source app/explore/components/DatasourcePanel/transformDatasourceFolders.ts 69-73 processFolder (a folder) *)
Definition take_folder (sub : folder) (b : folder_build) : folder_build :=
  {| fb_items := fb_items b; fb_total := fb_total b + f_total sub;
     fb_showing := fb_showing b + f_showing sub; fb_sub := fb_sub b ++ [sub] |}.

Definition empty_build : folder_build :=
  {| fb_items := []; fb_total := 0; fb_showing := 0; fb_sub := [] |}.

(** Processes a child in the folder [id]: the whole of [processFolder] when it
    is a folder.

    @source app/explore/components/DatasourcePanel/transformDatasourceFolders.ts 48-97 processFolder *)
Fixpoint process_child (id : option string) (child : folder_child) (st : folder_state)
    (b : folder_build) {struct child} : folder_build * folder_state :=
  match child with
  | ChildMetric uuid => take_metric uuid st b
  | ChildColumn uuid => take_column uuid st b
  | ChildFolder uuid name description children =>
      let '(inner, st) :=
        (fix go children st inner :=
           match children with
           | [] => (inner, st)
           | c :: children =>
               let '(inner, st) := process_child (Some uuid) c st inner in go children st inner
           end) children st empty_build in
      (take_folder
         (Folder uuid name description false (fb_items inner) (fb_total inner) (fb_showing inner) id
            (if bool_decide (children = []) then None else Some (fb_sub inner))) b,
       st)
  end.

Definition process_children (id : option string) : list folder_child → folder_state →
    folder_build → folder_build * folder_state :=
  fix go children st inner :=
    match children with
    | [] => (inner, st)
    | c :: children => let '(inner, st) := process_child id c st inner in go children st inner
    end.

Section transform.
(** Translated texts *)
Context (t : string → string).

(** @source app/explore/components/DatasourcePanel/transformDatasourceFolders.ts 101-116 transformToFolderStructure (default folder) *)
Definition default_folder (id name : string) (items : list folder_item) (total : Z) : folder :=
  Folder id (t name) None false items total (Z.of_nat (length items)) None None.

(** The configuration, when there is one, is a list of folders.

    @source app/explore/components/DatasourcePanel/transformDatasourceFolders.ts 28-152 transformToFolderStructure *)
Definition transformToFolderStructure (metricsToDisplay columnsToDisplay : list folder_item)
    (folderConfig : option (list folder_child)) (allMetrics allColumns : nat) : list folder :=
  let st :=
    {| metricsMap := map_of ((λ m, (it_uuid m, m)) <$> metricsToDisplay);
       columnsMap := map_of ((λ c, (it_uuid c, c)) <$> columnsToDisplay);
       metricsInFolders := 0; columnsInFolders := 0 |} in
  match folderConfig with
  | None =>
      [default_folder "metrics-default" "Metrics" metricsToDisplay (Z.of_nat allMetrics);
       default_folder "columns-default" "Columns" columnsToDisplay (Z.of_nat allColumns)]
  | Some config =>
      let '(top, st) := process_children None config st empty_build in
      let unassignedMetrics :=
        filter (λ m, ahas (it_uuid m) (metricsMap st) = true) metricsToDisplay in
      let unassignedColumns :=
        filter (λ c, ahas (it_uuid c) (columnsMap st) = true) columnsToDisplay in
      fb_sub top ++
      (if bool_decide (unassignedMetrics = []) then []
       else [default_folder "metrics-default" "Metrics" unassignedMetrics
               (Z.of_nat allMetrics - metricsInFolders st)]) ++
      (if bool_decide (unassignedColumns = []) then []
       else [default_folder "columns-default" "Columns" unassignedColumns
               (Z.of_nat allColumns - columnsInFolders st)])
  end.

(** @source app/explore/components/DatasourcePanel/transformDatasourceFolders.ts 154-177 transformDatasourceWithFolders *)
Definition transformDatasourceWithFolders (metricsToDisplay columnsToDisplay : list folder_item)
    (folderConfig : option (list folder_child)) (allMetrics allColumns : nat) : list folder :=
  let with_type type i := {| it_uuid := it_uuid i; it_type := type; it_data := it_data i |} in
  transformToFolderStructure (with_type "metric" <$> metricsToDisplay)
    (with_type "column" <$> columnsToDisplay) folderConfig allMetrics allColumns.
End transform.
