(* ===== verification/FoldersFacts.v ===== *)
(** * The folders show every item once

    Building the folder tree hands each metric and each column to exactly one
    folder, and the counts the folders announce are the numbers of items they
    show. *)

From Stdlib Require Import String.
From stdpp Require Import base strings option numbers list sets.
From S2P Require Import Prelude JsObject JsNumber JsValue Folders.

(** The items shown in a folder and in the folders below it. *)
Fixpoint folder_items (f : folder) : list folder_item :=
  match f with
  | Folder _ _ _ _ items _ _ _ sub =>
      items ++
      match sub with
      | None => []
      | Some fs =>
          (fix go fs := match fs with [] => [] | f :: fs => folder_items f ++ go fs end) fs
      end
  end.

Definition items_of (fs : list folder) : list folder_item := flat_map folder_items fs.

Lemma folder_items_unfold id name d c items n m p sub :
  folder_items (Folder id name d c items n m p sub) = items ++ items_of (default [] sub).
Proof. destruct sub as [fs|]; simpl; [|done]. f_equal. Qed.

Definition build_items (b : folder_build) : list folder_item := fb_items b ++ items_of (fb_sub b).

(** The items that are still to be placed. *)
Definition pending (st : folder_state) : list folder_item :=
  avalues (metricsMap st) ++ avalues (columnsMap st).

(** The number a folder announces is the number of items it shows. *)
Definition counts (f : folder) : Prop := f_showing f = Z.of_nat (length (folder_items f)).

Definition keyed (m : list (string * folder_item)) : Prop :=
  NoDup (akeys m) ∧ ∀ k i, aget k m = Some i → it_uuid i = k.

Definition submap (m' m : list (string * folder_item)) : Prop :=
  ∀ k i, aget k m' = Some i → aget k m = Some i.

(** What processing a child does: it moves pending items to the folder. *)
Record moves (st : folder_state) (b : folder_build) (st' : folder_state) (b' : folder_build) : Prop := {
  moves_items : build_items b' ++ pending st' ≡ₚ build_items b ++ pending st;
  moves_showing : (fb_showing b' - Z.of_nat (length (build_items b')) =
                   fb_showing b - Z.of_nat (length (build_items b)))%Z;
  moves_counts : Forall counts (fb_sub b) → Forall counts (fb_sub b');
  moves_metrics : keyed (metricsMap st') ∧ submap (metricsMap st') (metricsMap st);
  moves_columns : keyed (columnsMap st') ∧ submap (columnsMap st') (columnsMap st);
}.

Lemma submap_trans a b c : submap a b → submap b c → submap a c.
Proof. unfold submap. auto. Qed.

Lemma moves_trans st b st1 b1 st2 b2 :
  moves st b st1 b1 → moves st1 b1 st2 b2 → moves st b st2 b2.
Proof.
  intros [H1 H2 H0 [H3 H4] [H5 H6]] [G1 G2 G0 [G3 G4] [G5 G6]]. split.
  - by rewrite G1.
  - lia.
  - auto.
  - split; [done|]. by eapply submap_trans.
  - split; [done|]. by eapply submap_trans.
Qed.

Lemma keyed_adel k m : keyed m → keyed (adel k m) ∧ submap (adel k m) m.
Proof.
  intros [Hnd Hk]. split; [split; [by apply NoDup_akeys_adel|]|].
  - intros k' i. rewrite aget_adel. case_decide; [done|]. apply Hk.
  - intros k' i. rewrite aget_adel. by case_decide.
Qed.

Lemma avalues_adel k i (m : list (string * folder_item)) :
  NoDup (akeys m) → aget k m = Some i → avalues m ≡ₚ i :: avalues (adel k m).
Proof.
  unfold avalues. induction m as [|[k0 i0] m IH]; simpl; intros Hnd H; [done|].
  apply NoDup_cons in Hnd as [Hk0 Hnd]. case_decide; subst.
  - injection H as ->. by rewrite adel_fresh.
  - rewrite (IH Hnd H). simpl. apply Permutation_swap.
Qed.

Lemma keyed_refl m : keyed m → keyed m ∧ submap m m.
Proof. intros. split; [done|]. by intros k i. Qed.

Lemma take_metric_moves uuid st b :
  keyed (metricsMap st) → keyed (columnsMap st) →
  moves st b (take_metric uuid st b).2 (take_metric uuid st b).1.
Proof.
  intros Hm Hc. unfold take_metric. destruct (aget uuid (metricsMap st)) as [i|] eqn:E; simpl.
  - pose proof (proj2 Hm _ _ E) as Hu. rewrite Hu. split; simpl.
    + unfold build_items, pending. simpl. rewrite (avalues_adel uuid i _ (proj1 Hm) E).
      rewrite <- !app_assoc. simpl. apply Permutation_app_head. by rewrite Permutation_middle.
    + unfold build_items. simpl. rewrite !length_app. simpl. lia.
    + done.
    + by apply keyed_adel.
    + by apply keyed_refl.
  - split; [done|done|done|by apply keyed_refl|by apply keyed_refl].
Qed.

Lemma take_column_moves uuid st b :
  keyed (metricsMap st) → keyed (columnsMap st) →
  moves st b (take_column uuid st b).2 (take_column uuid st b).1.
Proof.
  intros Hm Hc. unfold take_column. destruct (aget uuid (columnsMap st)) as [i|] eqn:E; simpl.
  - pose proof (proj2 Hc _ _ E) as Hu. rewrite Hu. split; simpl.
    + unfold build_items, pending. simpl. rewrite (avalues_adel uuid i _ (proj1 Hc) E).
      rewrite <- !app_assoc. simpl. apply Permutation_app_head.
      rewrite !Permutation_middle. done.
    + unfold build_items. simpl. rewrite !length_app. simpl. lia.
    + done.
    + by apply keyed_refl.
    + by apply keyed_adel.
  - split; [done|done|done|by apply keyed_refl|by apply keyed_refl].
Qed.

Lemma process_children_moves id cs :
  Forall (λ c, ∀ id st b, keyed (metricsMap st) → keyed (columnsMap st) →
    moves st b (process_child id c st b).2 (process_child id c st b).1) cs →
  ∀ st b, keyed (metricsMap st) → keyed (columnsMap st) →
    moves st b (process_children id cs st b).2 (process_children id cs st b).1.
Proof.
  induction 1 as [|c cs Hc _ IH]; intros st b Hm Hcol.
  { split; [done|done|done|by apply keyed_refl|by apply keyed_refl]. }
  cbn [process_children]. specialize (Hc id st b Hm Hcol).
  destruct (process_child id c st b) as [b1 st1]. cbn [fst snd] in Hc.
  eapply moves_trans; [exact Hc|]. apply IH; apply Hc.
Qed.

Lemma process_child_folder id uuid name d cs st b :
  process_child id (ChildFolder uuid name d cs) st b =
  let '(inner, st) := process_children (Some uuid) cs st empty_build in
  (take_folder (Folder uuid name d false (fb_items inner) (fb_total inner) (fb_showing inner) id
     (if bool_decide (cs = []) then None else Some (fb_sub inner))) b, st).
Proof. done. Qed.

Lemma process_child_moves c : ∀ id st b,
  keyed (metricsMap st) → keyed (columnsMap st) →
  moves st b (process_child id c st b).2 (process_child id c st b).1.
Proof.
  induction c as [uuid name d cs IH|u|u] using folder_child_nested_ind; intros id st b Hm Hc;
    [|by apply take_metric_moves|by apply take_column_moves].
  rewrite process_child_folder.
  pose proof (process_children_moves (Some uuid) cs IH st empty_build Hm Hc) as Hin.
  destruct (process_children (Some uuid) cs st empty_build) as [inner st1] eqn:Einner.
  cbn [fst snd] in *. destruct Hin as [H1 H2 _ H3 H4].
  set (f := Folder _ _ _ _ _ _ _ _ _).
  assert (Hf : folder_items f = build_items inner).
  { unfold f. rewrite folder_items_unfold. unfold build_items. f_equal.
    case_bool_decide as Hcs; [|done]. subst cs. injection Einner as <- _. done. }
  assert (Hs : f_showing f = fb_showing inner) by done. clearbody f.
  assert (Hb : build_items (take_folder f b) = build_items b ++ build_items inner).
  { unfold build_items at 1. simpl. unfold items_of. rewrite flat_map_app. simpl.
    rewrite app_nil_r, Hf. unfold build_items at 2. by rewrite app_assoc. }
  split; [| | |done|done].
  - rewrite Hb, <- app_assoc, H1. done.
  - rewrite Hb, length_app. simpl in *. rewrite Hs. lia.
  - intros Hall. simpl. apply Forall_app. split; [done|]. apply Forall_singleton.
    unfold counts. rewrite Hs, Hf. simpl in H2. lia.
Qed.

(** ** The whole panel *)

Lemma map_of_fresh (l acc : list (string * folder_item)) :
  NoDup (akeys l) → (∀ k, k ∈ akeys l → k ∉ akeys acc) →
  foldl (λ acc kv, aset kv.1 kv.2 acc) acc l = acc ++ l.
Proof.
  revert acc. induction l as [|[k i] l IH]; intros acc Hnd Hf; [by rewrite app_nil_r|].
  apply NoDup_cons in Hnd as [Hk Hnd]. cbn [foldl fst snd].
  rewrite aset_fresh by (apply Hf; left). rewrite IH; [by rewrite <- app_assoc|done|].
  intros k' Hk'. unfold akeys. rewrite fmap_app, elem_of_app. simpl.
  rewrite list_elem_of_singleton. intros [?| ->]; [by eapply Hf; [by right|]|done].
Qed.

Definition by_uuid (xs : list folder_item) : list (string * folder_item) :=
  (λ i, (it_uuid i, i)) <$> xs.

Lemma akeys_by_uuid xs : akeys (by_uuid xs) = it_uuid <$> xs.
Proof. unfold akeys, by_uuid. by rewrite <- list_fmap_compose. Qed.

Lemma avalues_by_uuid xs : avalues (by_uuid xs) = xs.
Proof.
  unfold avalues, by_uuid. rewrite <- list_fmap_compose. by induction xs; f_equal/=.
Qed.

Lemma by_uuid_keyed xs : NoDup (it_uuid <$> xs) → keyed (by_uuid xs).
Proof.
  intros Hnd. split; [by rewrite akeys_by_uuid|].
  intros k i Hi%aget_Some_elem. apply list_elem_of_fmap in Hi as (j & Hj & _). by injection Hj as -> ->.
Qed.

Lemma map_of_by_uuid xs : NoDup (it_uuid <$> xs) → map_of (by_uuid xs) = by_uuid xs.
Proof.
  intros Hnd. unfold map_of. rewrite map_of_fresh; [done|by rewrite akeys_by_uuid|].
  intros k _ Hk. by apply elem_of_nil in Hk.
Qed.

(** The items left for the default folder are those still in the map. *)
Lemma unassigned xs m :
  NoDup (it_uuid <$> xs) → keyed m → submap m (by_uuid xs) →
  filter (λ i, ahas (it_uuid i) m = true) xs ≡ₚ avalues m.
Proof.
  intros Hnd [Hk Hu] Hsub.
  assert (Hvals : NoDup (avalues m)).
  { apply (NoDup_fmap_1 it_uuid). assert (it_uuid <$> avalues m = akeys m) as ->; [|done].
    unfold avalues, akeys. rewrite <- list_fmap_compose. apply list_fmap_ext.
    intros n [k i] Hn. simpl. apply Hu. apply elem_aget; [done|]. by eapply list_elem_of_lookup_2. }
  apply NoDup_Permutation; [|done|].
  { apply NoDup_filter. by eapply NoDup_fmap_1. }
  intros i. rewrite list_elem_of_filter, ahas_spec, elem_of_avalues. split.
  - intros [[j Hj]%aget_is_Some Hi]. exists (it_uuid i).
    assert (j = i) as ->; [|by apply aget_Some_elem].
    assert (Hi' : aget (it_uuid i) (by_uuid xs) = Some i).
    { apply elem_aget; [by rewrite akeys_by_uuid|]. apply list_elem_of_fmap. by exists i. }
    apply Hsub in Hj. congruence.
  - intros [k Hki]. pose proof Hki as Hget. apply elem_aget in Hget; [|done].
    pose proof (Hu _ _ Hget) as <-. split.
    + apply aget_is_Some. by eexists.
    + apply Hsub, aget_Some_elem, list_elem_of_fmap in Hget as (j & Hj & ?).
      by injection Hj as _ ->.
Qed.

Definition is_folder (c : folder_child) : bool :=
  match c with ChildFolder _ _ _ _ => true | _ => false end.

Lemma process_children_folders cs st b :
  Forall (λ c, is_folder c = true) cs → fb_items b = [] →
  fb_items (process_children None cs st b).1 = [].
Proof.
  intros Hcs. revert st b. induction Hcs as [|c cs Hc _ IH]; intros st b Hb; [done|].
  destruct c as [uuid name d children|u|u]; try done. cbn [process_children].
  rewrite process_child_folder.
  destruct (process_children (Some uuid) children st empty_build) as [inner st1]. by apply IH.
Qed.

(** The panel shows every metric and every column exactly once, in a
    configured folder or in a default one, when their identifiers are distinct
    and whatever the folder configuration refers to; and each folder announces
    the number of items that it and the folders below it show. *)
Theorem transformToFolderStructure_conserves t metrics columns config allMetrics allColumns :
  NoDup (it_uuid <$> metrics) → NoDup (it_uuid <$> columns) →
  Forall (λ c, is_folder c = true) (default [] config) →
  let folders := transformToFolderStructure t metrics columns config allMetrics allColumns in
  items_of folders ≡ₚ metrics ++ columns ∧ Forall counts folders.
Proof.
  intros Hm Hc Hconf folders. subst folders. unfold transformToFolderStructure.
  assert (Hdefault : ∀ id name us n, counts (default_folder t id name us n)).
  { intros id name us n. unfold counts. simpl. by rewrite app_nil_r. }
  destruct config as [config|]; cbn [default from_option id] in *.
  2: { split; [simpl; by rewrite !app_nil_r|]. by repeat constructor. }
  fold (by_uuid metrics) (by_uuid columns). rewrite !map_of_by_uuid by done.
  set (st0 := {| metricsMap := _ |}).
  pose proof (process_children_moves None config) as Hmv.
  specialize (Hmv ltac:(apply Forall_forall; intros; by apply process_child_moves) st0 empty_build
    (by_uuid_keyed _ Hm) (by_uuid_keyed _ Hc)).
  pose proof (process_children_folders config st0 empty_build Hconf eq_refl) as Htop.
  destruct (process_children None config st0 empty_build) as [top st]. cbn [fst snd] in *.
  destruct Hmv as [H1 _ H0 [H3 H4] [H5 H6]].
  pose proof (unassigned metrics (metricsMap st) Hm H3 H4) as Hum.
  pose proof (unassigned columns (columnsMap st) Hc H5 H6) as Huc.
  set (um := filter _ metrics) in *. set (uc := filter _ columns) in *. clearbody um uc.
  assert (Hdef : ∀ id name n us,
    items_of (if bool_decide (us = []) then [] else [default_folder t id name us n]) = us).
  { intros id name n us. case_bool_decide; [by subst|]. simpl. by rewrite !app_nil_r. }
  split.
  - unfold items_of in *. rewrite !flat_map_app, !Hdef, Hum, Huc.
    unfold build_items, pending in H1. rewrite Htop in H1. simpl in H1.
    rewrite !avalues_by_uuid in H1. exact H1.
  - apply Forall_app. split; [apply H0, Forall_nil_2|]. apply Forall_app.
    split; case_bool_decide; try apply Forall_nil_2; by apply Forall_singleton.
Qed.

Lemma transformToFolderStructure_conserves_witness :
  let item u := {| it_uuid := u; it_type := "metric"; it_data := [] |} in
  items_of (transformToFolderStructure id [item "a"; item "b"] []
    (Some [ChildFolder "f" "F" None [ChildMetric "b"; ChildMetric "b"]]) 2 0) ≡ₚ
  [item "a"; item "b"] ++ [].
Proof.
  intros item. apply (transformToFolderStructure_conserves id [item "a"; item "b"] []
    (Some [ChildFolder "f" "F" None [ChildMetric "b"; ChildMetric "b"]]) 2 0).
  - apply (bool_decide_unpack _). vm_compute. exact I.
  - apply NoDup_nil_2.
  - apply Forall_singleton. reflexivity.
Defined.
