(* ===== verification/ChartReducer.v ===== *)
(** * The chart reducer

    [app/components/Chart/chartReducer.ts]: the redux state of the charts of a
    page, an object from chart keys to chart states.  The clock and the
    translation function are parameters.  The reducer is modelled with its
    effects: the state it returns, what the object it was given holds
    afterwards (a reducer must not change it), and the controllers of annotation
    queries it aborts. *)

From Stdlib Require Import String.
From stdpp Require Import base strings option numbers list sets.
From S2P Require Import Prelude JsObject JsNumber JsValue Lodash QueryTypes Query.

(** @source app/components/Chart/chartReducer.ts 30-43 chart *)
Definition chart : jsobj :=
  [("id", JNum (num_of_Z 0)); ("chartAlert", JNull); ("chartStatus", JStr "loading");
   ("chartStackTrace", JNull); ("chartUpdateEndTime", JNull);
   ("chartUpdateStartTime", JNum (num_of_Z 0)); ("latestQueryFormData", JObj []);
   ("sliceFormData", JNull); ("queryController", JNull); ("queriesResponse", JNull);
   ("triggerQuery", JBool true); ("lastRendered", JNum (num_of_Z 0))].

(** @source app/explore/controlUtils/getFormDataFromControls.ts 22-31 getFormDataFromControls *)
Definition getFormDataFromControls (controlsState : jsobj) : result jsobj :=
  fold_result (λ formData kv,
    value ← field "value" kv.2;
    Ok (oset kv.1 value formData)) [] controlsState.

Inductive chart_event :=
| ADD_CHART (c : jsobj)
| CHART_UPDATE_SUCCEEDED (queriesResponse : jsval)
| CHART_UPDATE_STARTED (queryController : jsval)
| CHART_UPDATE_STOPPED
| CHART_RENDERING_SUCCEEDED
| CHART_RENDERING_FAILED (error stackTrace : jsval)
| CHART_UPDATE_FAILED (queriesResponse : jsval)
| DYNAMIC_PLUGIN_CONTROLS_READY (controlsState : jsobj)
| TRIGGER_QUERY (value : jsval)
| RENDER_TRIGGERED (value : jsval)
| UPDATE_QUERY_FORM_DATA (value : jsval)
| ANNOTATION_QUERY_STARTED (name : string) (queryController : jsval)
| ANNOTATION_QUERY_SUCCESS (name : string) (data : jsval)
| ANNOTATION_QUERY_FAILED (name : string) (queryResponse : jsval).

Inductive chart_action :=
| ChartEvent (key : string) (e : chart_event)
| REMOVE_CHART (key : string)
| UPDATE_CHART_ID (key : string) (newId : jsval)
| HYDRATE (charts : jsobj)
| SET_DATASOURCES
| OTHER_CHART_ACTION.

Record chart_result := {
  returned : jsobj;
  argument : jsobj;
  aborted : list jsval;
}.

Section reducer.
Context (now : jsval) (t : string → list jsval → jsval).

(** [queriesResponse?.[0]?.k] *)
Definition first_response (k : string) (queriesResponse : jsval) : jsval :=
  match queriesResponse with JArr (r :: _) => opt_field k r | _ => JUndef end.

(** [{...state, k1: v1, ...}] *)
Definition updated (state : jsval) (changes : jsobj) : jsobj :=
  ospread (object_entries state) changes.

(** @source app/components/Chart/chartReducer.ts 53-115 actionHandlers (queries and rendering) *)
Definition handle_query (e : chart_event) (state : jsval) : jsobj :=
  match e with
  | ADD_CHART c => ospread chart c
  | CHART_UPDATE_SUCCEEDED queriesResponse =>
      updated state [("chartStatus", JStr "success"); ("chartAlert", JNull);
                     ("queriesResponse", queriesResponse); ("chartUpdateEndTime", now)]
  | CHART_UPDATE_STARTED queryController =>
      updated state [("chartStatus", JStr "loading"); ("chartStackTrace", JNull);
                     ("chartAlert", JNull); ("chartUpdateEndTime", JNull);
                     ("chartUpdateStartTime", now); ("queryController", queryController)]
  | CHART_UPDATE_STOPPED =>
      updated state [("chartStatus", JStr "stopped");
                     ("chartAlert", t "Updating chart was stopped" []);
                     ("chartUpdateEndTime", now)]
  | CHART_RENDERING_SUCCEEDED =>
      updated state [("chartStatus", JStr "rendered"); ("chartUpdateEndTime", now)]
  | CHART_RENDERING_FAILED error stackTrace =>
      updated state
        [("chartStatus", JStr "failed"); ("chartStackTrace", stackTrace);
         ("chartAlert", t "An error occurred while rendering the visualization: %s" [error])]
  | CHART_UPDATE_FAILED queriesResponse =>
      updated state
        [("chartStatus", JStr "failed");
         ("chartAlert", if truthy queriesResponse then first_response "error" queriesResponse
                        else t "Network error." []);
         ("chartUpdateEndTime", now);
         ("queriesResponse", queriesResponse);
         ("chartStackTrace", if truthy queriesResponse
                             then first_response "stacktrace" queriesResponse else JNull)]
  | TRIGGER_QUERY value =>
      updated state [("triggerQuery", value); ("chartStatus", JStr "loading")]
  | RENDER_TRIGGERED value => updated state [("lastRendered", value)]
  | UPDATE_QUERY_FORM_DATA value => updated state [("latestQueryFormData", value)]
  | _ => object_entries state
  end.

(** The chart state an event gives, and the controller it aborts.  The
    annotation handlers read the state, which throws when there is none.

    @source app/components/Chart/chartReducer.ts 116-180 actionHandlers (controls and annotations) *)
Definition handle (e : chart_event) (state : jsval) : result (jsobj * list jsval) :=
  match e with
  | DYNAMIC_PLUGIN_CONTROLS_READY controlsState =>
      sliceFormData ← getFormDataFromControls controlsState;
      Ok (updated state [("sliceFormData", JObj sliceFormData)], [])
  | ANNOTATION_QUERY_STARTED name queryController =>
      annotationQuery ← field "annotationQuery" state;
      let running := opt_field name annotationQuery in
      Ok (updated state
            [("annotationQuery", JObj (oset name queryController (object_entries annotationQuery)))],
          if truthy running then [running] else [])
  | ANNOTATION_QUERY_SUCCESS name data =>
      annotationData ← field "annotationData" state;
      annotationError ← field "annotationError" state;
      annotationQuery ← field "annotationQuery" state;
      Ok (updated state
            [("annotationData", JObj (oset name data (object_entries annotationData)));
             ("annotationError", JObj (adel name (object_entries annotationError)));
             ("annotationQuery", JObj (adel name (object_entries annotationQuery)))], [])
  | ANNOTATION_QUERY_FAILED name queryResponse =>
      annotationData ← field "annotationData" state;
      annotationError ← field "annotationError" state;
      annotationQuery ← field "annotationQuery" state;
      let error := if truthy queryResponse then opt_field "error" queryResponse
                   else t "Network error." [] in
      Ok (updated state
            [("annotationData", JObj (adel name (object_entries annotationData)));
             ("annotationError", JObj (oset name error (object_entries annotationError)));
             ("annotationQuery", JObj (adel name (object_entries annotationQuery)))], [])
  | e => Ok (handle_query e state, [])
  end.

(** @source app/components/Chart/chartReducer.ts 199-214 chartReducer (datasources) *)
Definition reset_failed (c : jsval) : jsval :=
  if is_str (opt_field "chartStatus" c) "failed" && truthy (opt_field "chartStackTrace" c)
  then JObj (updated c [("chartStatus", JStr EmptyString); ("chartStackTrace", JNull);
                        ("chartAlert", JNull)])
  else c.

(** A result that leaves the argument alone. *)
Definition pure (charts charts' : jsobj) : chart_result :=
  {| returned := charts'; argument := charts; aborted := [] |}.

(** @source app/components/Chart/chartReducer.ts 49-225 chartReducer *)
Definition chartReducer `{Lodash} (charts : jsobj) (action : chart_action) : result chart_result :=
  match action with
  | REMOVE_CHART key => Ok (pure charts (omit charts [key]))
  | UPDATE_CHART_ID key newId =>
      let charts' :=
        adel key
          (oset (to_string newId)
             (JObj (oset "id" newId (object_entries (ofield key charts)))) charts) in
      Ok {| returned := charts'; argument := charts'; aborted := [] |}
  | HYDRATE data => Ok (pure charts data)
  | SET_DATASOURCES => Ok (pure charts ((λ kv, (kv.1, reset_failed kv.2)) <$> charts))
  | ChartEvent key e =>
      '(state, controllers) ← handle e (ofield key charts);
      Ok {| returned := oset key (JObj state) charts; argument := charts; aborted := controllers |}
  | OTHER_CHART_ACTION => Ok (pure charts charts)
  end.
End reducer.

(** ** Properties *)

Section facts.
Context `{Lodash} (now : jsval) (t : string → list jsval → jsval).

(** The annotations of a chart: an annotation has data or an error, not both. *)
Definition annotations_ok (c : jsval) : Prop :=
  ∀ name, name ∈ akeys (object_entries (opt_field "annotationData" c)) →
          name ∉ akeys (object_entries (opt_field "annotationError" c)).

Definition keeps_annotations (changes : jsobj) : Prop :=
  NoDup (akeys changes) ∧ ("annotationData" ∉ akeys changes) ∧ ("annotationError" ∉ akeys changes).

Lemma updated_annotations c changes :
  keeps_annotations changes → annotations_ok c → annotations_ok (JObj (updated c changes)).
Proof.
  intros (Hnd & Hd & He) Hok name. simpl. unfold updated.
  rewrite !ofield_ospread by done. rewrite !decide_False by done.
  by destruct c; simpl; first [apply Hok|intros ?%elem_of_nil].
Qed.

Lemma handle_annotations e c c' ab :
  (∀ d, e ≠ ADD_CHART d) → annotations_ok c →
  handle now t e c = Ok (c', ab) → annotations_ok (JObj c').
Proof.
  intros Hadd Hok Hrun.
  assert (Hdata : ∀ k v, field k c = Ok v → opt_field k c = v).
  { intros k v Hf. destruct c; simpl in *; congruence. }
  destruct e; simpl in Hrun; try (injection Hrun as <- _; apply updated_annotations; [|done];
    split; [solve_decided|split; solve_decided]).
  - by destruct (Hadd c0).
  - apply bind_Ok_inv in Hrun as (fd & _ & Hrun). injection Hrun as <- _.
    apply updated_annotations; [|done]. split; [apply NoDup_singleton|]. simpl. set_solver.
  - apply bind_Ok_inv in Hrun as (q & _ & Hrun). injection Hrun as <- _.
    apply updated_annotations; [|done]. split; [apply NoDup_singleton|]. simpl. set_solver.
  - apply bind_Ok_inv in Hrun as (d & Hd%Hdata & Hrun).
    apply bind_Ok_inv in Hrun as (er & Her%Hdata & Hrun).
    apply bind_Ok_inv in Hrun as (q & _ & Hrun). injection Hrun as <- _.
    intros n. simpl. unfold updated. rewrite !ofield_ospread by solve_decided.
    simpl. unfold ofield. simpl. rewrite elem_of_akeys_oset, elem_of_akeys_adel.
    intros [->|Hn]; [naive_solver|]. intros [_ Hn']. eapply Hok; [|by rewrite Her]. by rewrite Hd.
  - apply bind_Ok_inv in Hrun as (d & Hd%Hdata & Hrun).
    apply bind_Ok_inv in Hrun as (er & Her%Hdata & Hrun).
    apply bind_Ok_inv in Hrun as (q & _ & Hrun). injection Hrun as <- _.
    intros n. simpl. unfold updated. rewrite !ofield_ospread by solve_decided.
    simpl. unfold ofield. simpl. rewrite elem_of_akeys_oset, elem_of_akeys_adel.
    intros [Hne Hn] [->|Hn']; [done|]. eapply Hok; [|by rewrite Her]. by rewrite Hd.
Qed.

(** An event changes the state of its chart only, does not touch the state
    object it was given, and keeps an annotation from having both data and an
    error; renaming a chart, by contrast, changes the given state object in
    place and returns it, and loses the chart when the new id is the old
    key. *)
Theorem chartReducer_effects charts a r :
  chartReducer now t charts a = Ok r →
  match a with
  | UPDATE_CHART_ID key newId =>
      argument r = returned r ∧ ahas key (returned r) = false ∧
      (to_string newId ≠ key →
         ofield (to_string newId) (returned r) =
         JObj (oset "id" newId (object_entries (ofield key charts))))
  | ChartEvent key e =>
      argument r = charts ∧
      (∀ k, k ≠ key → aget k (returned r) = aget k charts) ∧
      ((∀ c, e ≠ ADD_CHART c) → annotations_ok (ofield key charts) →
       annotations_ok (ofield key (returned r)))
  | _ => argument r = charts ∧ aborted r = []
  end.
Proof.
  intros Hrun. destruct a as [key e|key|key newId|data| |]; simpl in Hrun;
    try (injection Hrun as <-; done).
  - apply bind_Ok_inv in Hrun as ([c' ab] & Hh & Hrun). injection Hrun as <-. simpl.
    split; [done|]. split; [intros k Hk; by rewrite aget_oset_ne|].
    intros Hadd Hok. rewrite ofield_oset, decide_True by done. by eapply handle_annotations.
  - injection Hrun as <-. simpl. split; [done|]. split.
    + unfold ahas. by rewrite aget_adel_eq.
    + intros Hne. rewrite ofield_adel, decide_False by done.
      by rewrite ofield_oset, decide_True.
Qed.
End facts.

Lemma chartReducer_effects_witness :
  let charts := [("1", JObj [("id", JNum (num_of_Z 1))])] in
  match chartReducer JNull (λ _ _, JNull) charts (UPDATE_CHART_ID "1" (JStr "2")) with
  | Ok r => argument r = returned r ∧ argument r ≠ charts
  | Throw _ => False
  end.
Proof.
  intros charts. destruct (chartReducer _ _ _ _) as [r|e] eqn:E; [|discriminate E].
  pose proof (chartReducer_effects JNull (λ _ _, JNull) charts _ r E) as (Ha & Hk & _).
  split; [exact Ha|]. rewrite Ha. intros Heq. rewrite Heq in Hk. discriminate Hk.
Defined.
