(* ===== verification/FormData.v ===== *)
(** * The form data of a chart on a dashboard

    [app/dashboard/util/charts/getFormDataWithExtraFilters.ts]: the form data a
    chart queries with are its own, the colours of the dashboard and the extra
    form data of the active filters whose scope holds the chart.  The module
    keeps the last result per slice; the two caches are the state the calls
    thread.  Filters are compared by reference, so they carry one. *)

From Stdlib Require Import Ascii String.
From stdpp Require Import base strings option numbers list sets.
From S2P Require Import Prelude JsObject JsNumber JsValue Lodash QueryTypes Query.
From S2P Require Import ExtraFormData ReduxUtils Layout Scope.

(** @source app/dashboard/util/charts/getEffectiveExtraFilters.ts 21-29 getEffectiveExtraFilters *)
Definition getEffectiveExtraFilters (filters : jsobj) : list jsval :=
  (λ kv, JObj [("col", JStr kv.1); ("op", JStr (if is_array kv.2 then "IN" else "==")); ("val", kv.2)]) <$>
  filter (λ kv, strict_eq kv.2 JNull = false) filters.

(** @source app/dashboard/util/charts/getFormDataWithExtraFilters.ts 73-89 GetFormDataWithExtraFiltersArguments *)
Record form_data_args := {
  chart_id : Z;
  chart_form_data : jsobj;
  filters_ref : nat;
  filters : jsobj;
  colorScheme : jsval;
  ownColorScheme : jsval;
  colorNamespace : jsval;
  sliceId : Z;
  dataMask : jsobj;
  nativeFilters : list (string * PartialFilter);
  chartConfiguration : list (string * list Z);
  extraControls : jsobj;
  labelsColor : jsval;
  labelsColorMap : jsval;
  sharedLabelsColors : jsval;
  allSliceIds : list Z;
  passedActiveFilters : option (list (string * ActiveFilter));
}.

(** What is kept for a slice: the reference of the filters and the form data
    with the data mask and the extra controls.

    @source app/dashboard/util/charts/getFormDataWithExtraFilters.ts 64-71 cachedFiltersByChart, cachedFormdataByChart *)
Definition form_data_cache : Type := list (string * (nat * jsobj)).

(** @source app/dashboard/util/charts/getFormDataWithExtraFilters.ts 91-105 createFilterDataMapping *)
Definition createFilterDataMapping (dm : jsobj) (ids : list string) : jsobj :=
  foldl (λ mapping filterId,
    match ofield "filters" (getExtraFormData dm [filterId]) with
    | JArr ((_ :: _) as fs) => oset filterId (JArr fs) mapping
    | _ => mapping
    end) [] ids.

Section form_data.
Context `{Lodash}.
Implicit Types (a : form_data_args) (cache : form_data_cache).

Definition slice_key a : string := string_of_Z (sliceId a).

(** @source app/dashboard/util/charts/getFormDataWithExtraFilters.ts 124-148 getFormDataWithExtraFilters (cache) *)
Definition cache_hit a cache : option jsobj :=
  match aget (slice_key a) cache with
  | None => None
  | Some (ref, cached) =>
      let get k := ofield k cached in
      if bool_decide (ref = filters_ref a) &&
         areObjectsEqual (get "own_color_scheme") (ownColorScheme a) default_opts &&
         areObjectsEqual (get "color_scheme") (colorScheme a) default_opts &&
         areObjectsEqual (get "color_namespace") (colorNamespace a) ignoring_undefined &&
         areObjectsEqual (get "label_colors") (labelsColor a) ignoring_undefined &&
         areObjectsEqual (get "map_label_colors") (labelsColorMap a) ignoring_undefined &&
         isEqual (get "shared_label_colors") (sharedLabelsColors a) &&
         areObjectsEqual (get "dataMask") (JObj (dataMask a)) ignoring_undefined &&
         areObjectsEqual (get "extraControls") (JObj (extraControls a)) ignoring_undefined
      then Some cached else None
  end.

(** @source app/dashboard/util/charts/getFormDataWithExtraFilters.ts 150-157 getFormDataWithExtraFilters (active filters) *)
Definition activeFilters a : list (string * ActiveFilter) :=
  default (getAllActiveFilters (chartConfiguration a) (nativeFilters a) (allSliceIds a) (dataMask a))
    (passedActiveFilters a).

(** @source app/dashboard/util/charts/getFormDataWithExtraFilters.ts 160-162 filterIdsAppliedOnChart *)
Definition filterIdsAppliedOnChart a : list string :=
  (filter (λ kv : string * ActiveFilter, chart_id a ∈ af_scope kv.2) (activeFilters a)).*1.

(** @source app/dashboard/util/charts/getFormDataWithExtraFilters.ts 173-178 getFormDataWithExtraFilters (layers) *)
Definition has_layer_scope a : bool :=
  is_str (ofield "viz_type" (chart_form_data a)) "deck_multi" ||
  match passedActiveFilters a with
  | Some active => existsb (λ f, bool_decide (is_Some (af_layerScope f))) (avalues active)
  | None => false
  end.

(** @source app/dashboard/util/charts/getFormDataWithExtraFilters.ts 159-185 getFormDataWithExtraFilters (extra data) *)
Definition extraData a : jsobj :=
  let ids := filterIdsAppliedOnChart a in
  if bool_decide (ids = []) then []
  else
    ("extra_form_data", JObj (getExtraFormData (dataMask a) ids)) ::
    (if has_layer_scope a
     then [("filter_data_mapping", JObj (createFilterDataMapping (dataMask a) ids))] else []).

(** @source app/dashboard/util/charts/getFormDataWithExtraFilters.ts 187-206 getFormDataWithExtraFilters (layer scope) *)
Definition layerFilterScope a : jsobj :=
  if has_layer_scope a then
    foldl (λ scope (kv : string * ActiveFilter),
      match layers ← af_layerScope kv.2; aget (string_of_Z (chart_id a)) layers with
      | Some indices => oset kv.1 (JArr ((λ i, JNum (num_of_Z i)) <$> indices)) scope
      | None => scope
      end) [] (activeFilters a)
  else [].

(** @source app/dashboard/util/charts/getFormDataWithExtraFilters.ts 208-222 getFormDataWithExtraFilters (form data) *)
Definition fresh_form_data a : jsobj :=
  let when_truthy v k : jsobj := if truthy v then [(k, v)] else [] in
  foldl ospread (chart_form_data a)
    [[("chart_id", JNum (num_of_Z (chart_id a))); ("label_colors", labelsColor a);
      ("shared_label_colors", sharedLabelsColors a); ("map_label_colors", labelsColorMap a)];
     when_truthy (colorScheme a) "color_scheme";
     when_truthy (ownColorScheme a) "own_color_scheme";
     [("extra_filters", JArr (getEffectiveExtraFilters (filters a)))];
     extraData a;
     extraControls a;
     if bool_decide (layerFilterScope a = []) then []
     else [("layer_filter_scope", JObj (layerFilterScope a))]].

(** @source app/dashboard/util/charts/getFormDataWithExtraFilters.ts 107-228 getFormDataWithExtraFilters *)
Definition getFormDataWithExtraFilters a cache : jsobj * form_data_cache :=
  match cache_hit a cache with
  | Some cached => (cached, cache)
  | None =>
      let formData := fresh_form_data a in
      (formData,
       oset (slice_key a)
         (filters_ref a,
          ospread formData [("dataMask", JObj (dataMask a)); ("extraControls", JObj (extraControls a))])
         cache)
  end.
End form_data.

(** ** Properties *)

Section form_data_facts.
Context `{Lodash}.
Implicit Types (a : form_data_args) (cache : form_data_cache).

Lemma NoDup_when (b : bool) (k : string) (v : jsval) : NoDup (akeys (if b then [(k, v)] else [])).
Proof. destruct b; [apply NoDup_singleton|apply NoDup_nil_2]. Qed.

Lemma when_other (b : bool) (k k' : string) (v : jsval) :
  k ≠ k' → k ∉ akeys (if b then [(k', v)] else []).
Proof. intros Hk. destruct b; simpl; set_solver. Qed.

Lemma extraData_NoDup a : NoDup (akeys (extraData a)).
Proof.
  unfold extraData. case_bool_decide; [apply NoDup_nil_2|].
  destruct (has_layer_scope a); solve_decided.
Qed.

Lemma layer_part_NoDup a :
  NoDup (akeys (if bool_decide (layerFilterScope a = []) then []
                else [("layer_filter_scope", JObj (layerFilterScope a))])).
Proof. case_bool_decide; [apply NoDup_nil_2|apply NoDup_singleton]. Qed.

(** The field of a fresh result that only the extra data can set after the
    chart's own form data. *)
Lemma fresh_extra_form_data a :
  NoDup (akeys (extraControls a)) → "extra_form_data" ∉ akeys (extraControls a) →
  ofield "extra_form_data" (fresh_form_data a) =
  if decide (filterIdsAppliedOnChart a = []) then ofield "extra_form_data" (chart_form_data a)
  else JObj (getExtraFormData (dataMask a) (filterIdsAppliedOnChart a)).
Proof.
  intros Hnd Hec. unfold fresh_form_data. cbn [foldl].
  rewrite (ofield_ospread _ _ _ (layer_part_NoDup a)), decide_False by (case_bool_decide; simpl; set_solver).
  rewrite ofield_ospread, decide_False by done.
  rewrite (ofield_ospread _ _ _ (extraData_NoDup a)).
  destruct (decide (filterIdsAppliedOnChart a = [])) as [Hids|Hids].
  - assert (extraData a = []) as -> by (unfold extraData; by rewrite bool_decide_eq_true_2).
    rewrite decide_False by (simpl; set_solver).
    rewrite ofield_ospread, decide_False by (apply NoDup_singleton || (simpl; set_solver)).
    rewrite (ofield_ospread _ _ _ (NoDup_when _ _ _)), decide_False by (by apply when_other).
    rewrite (ofield_ospread _ _ _ (NoDup_when _ _ _)), decide_False by (by apply when_other).
    rewrite ofield_ospread, decide_False by solve_decided. done.
  - assert (∃ rest, extraData a =
      ("extra_form_data", JObj (getExtraFormData (dataMask a) (filterIdsAppliedOnChart a))) :: rest)
      as [rest ->] by (unfold extraData; rewrite bool_decide_eq_false_2 by done; by eexists).
    rewrite decide_True by (simpl; left). done.
Qed.

(** When there is no cached result, the form data of a chart carry the
    aggregated extra form data of exactly the active filters that have the
    chart in scope, in the order of the active filters, or keep the chart's own
    when no filter applies. *)
Theorem getFormDataWithExtraFilters_scope a cache :
  cache_hit a cache = None →
  NoDup (akeys (extraControls a)) → "extra_form_data" ∉ akeys (extraControls a) →
  let fd := (getFormDataWithExtraFilters a cache).1 in
  (∀ id, id ∈ filterIdsAppliedOnChart a ↔
         ∃ af, (id, af) ∈ activeFilters a ∧ chart_id a ∈ af_scope af) ∧
  ofield "extra_form_data" fd =
  (if decide (filterIdsAppliedOnChart a = []) then ofield "extra_form_data" (chart_form_data a)
   else JObj (getExtraFormData (dataMask a) (filterIdsAppliedOnChart a))).
Proof.
  intros Hmiss Hnd Hec fd. split.
  - intros id. unfold filterIdsAppliedOnChart. rewrite list_elem_of_fmap. split.
    + intros ([k af] & -> & [Hs Hin]%list_elem_of_filter). by exists af.
    + intros (af & Hin & Hs). exists (id, af). split; [done|]. by apply list_elem_of_filter.
  - subst fd. unfold getFormDataWithExtraFilters. rewrite Hmiss. by apply fresh_extra_form_data.
Qed.

(** The arguments that the cache check compares. *)
Definition same_checked a a' : Prop :=
  sliceId a = sliceId a' ∧ filters_ref a = filters_ref a' ∧ colorScheme a = colorScheme a' ∧
  ownColorScheme a = ownColorScheme a' ∧ colorNamespace a = colorNamespace a' ∧
  dataMask a = dataMask a' ∧ extraControls a = extraControls a' ∧ labelsColor a = labelsColor a' ∧
  labelsColorMap a = labelsColorMap a' ∧ sharedLabelsColors a = sharedLabelsColors a'.

(** A cached result is returned whatever the chart's own form data and the
    scopes of the filters have become, because the check does not look at them;
    and it is never returned to a dashboard with a colour namespace that the
    form data do not carry, because the namespace is not stored in the cache. *)
Theorem getFormDataWithExtraFilters_cache a a' cache cached :
  (cache_hit a cache = Some cached → same_checked a a' →
     getFormDataWithExtraFilters a' cache = (cached, cache)) ∧
  (∀ ref s, aget (slice_key a) cache = Some (ref, cached) →
     ofield "color_namespace" cached = JUndef → colorNamespace a = JStr s → s ≠ EmptyString →
     cache_hit a cache = None).
Proof.
  split.
  - intros Hhit (H1 & H2 & H3 & H4 & H5 & H6 & H7 & H8 & H9 & H10).
    assert (cache_hit a' cache = cache_hit a cache) as Heq.
    { unfold cache_hit, slice_key. by rewrite <- H1, <- H2, <- H3, <- H4, <- H5, <- H6, <- H7, <- H8, <- H9, <- H10. }
    unfold getFormDataWithExtraFilters. by rewrite Heq, Hhit.
  - intros ref s Hk Hns Hs Hne. unfold cache_hit. rewrite Hk, Hns, Hs.
    assert (areObjectsEqual JUndef (JStr s) ignoring_undefined = false) as ->.
    { unfold areObjectsEqual. simpl. rewrite isEqual_deep, omitBy_undef.
      pose proof (omitBy_str s is_undefined Hne eq_refl) as Hl.
      destruct (omitBy (JStr s) is_undefined); done. }
    by rewrite !andb_false_r.
Qed.
End form_data_facts.

Definition example_args (scope : list Z) : form_data_args :=
  {| chart_id := 1; chart_form_data := []; filters_ref := 0; filters := []; colorScheme := JUndef;
     ownColorScheme := JUndef; colorNamespace := JUndef; sliceId := 1;
     dataMask := [("F", JObj [("id", JStr "F");
                              ("extraFormData", JObj [("time_range", JStr "Last week")])])];
     nativeFilters := []; chartConfiguration := []; extraControls := []; labelsColor := JUndef;
     labelsColorMap := JUndef; sharedLabelsColors := JUndef; allSliceIds := scope;
     passedActiveFilters := None |}.

Lemma getFormDataWithExtraFilters_scope_witness :
  ofield "extra_form_data" (getFormDataWithExtraFilters (example_args [1%Z]) []).1 =
  JObj [("time_range", JStr "Last week")].
Proof.
  destruct (getFormDataWithExtraFilters_scope (example_args [1%Z]) []) as [_ H].
  - reflexivity.
  - apply NoDup_nil_2.
  - apply not_elem_of_nil.
  - rewrite H. vm_compute. reflexivity.
Defined.

(** A chart that has left the scope of the filter still gets the filter. *)
Lemma getFormDataWithExtraFilters_cache_witness :
  let cache := (getFormDataWithExtraFilters (example_args [1%Z]) []).2 in
  ofield "extra_form_data" (getFormDataWithExtraFilters (example_args []) cache).1 =
    JObj [("time_range", JStr "Last week")] ∧
  filterIdsAppliedOnChart (example_args []) = [].
Proof.
  intros cache. split; [|vm_compute; reflexivity].
  destruct (cache_hit (example_args [1%Z]) cache) as [cached|] eqn:E;
    [|vm_compute in E; discriminate E].
  destruct (getFormDataWithExtraFilters_cache (example_args [1%Z]) (example_args []) cache cached)
    as [H _].
  rewrite (H E); [|repeat split].
  vm_compute in E. injection E as <-. vm_compute. reflexivity.
Defined.
