(* ===== verification/AdhocFilter.v ===== *)
(** * Filters and metrics that users write

    In the chart editor a filter is an instance of [AdhocFilter] and a metric an
    instance of [AdhocMetric], both either simple (a column, an operator or
    aggregate, a value) or a piece of SQL.  [translateToSql] writes a simple one
    as SQL; [simpleFilterToAdhoc] makes an adhoc filter of a filter clause of a
    dashboard.

    An instance is an object with the fields that its constructor sets.  The
    name of a new filter or metric is random in the source and an argument here.
    Upper-casing knows ASCII letters.  [equals] and the truncation of labels are
    left out: the first compares arrays by identity, the second is display. *)

From Stdlib Require Import Ascii String.
From stdpp Require Import base strings option numbers list.
From S2P Require Import Prelude JsObject JsNumber JsValue JsJson QueryTypes.

(** [s.toUpperCase()] *)
Definition upper_char (c : ascii) : ascii :=
  let n := N_of_ascii c in
  if ((97 <=? n) && (n <=? 122))%N then ascii_of_N (n - 32) else c.

Fixpoint js_upper (s : string) : string :=
  match s with
  | EmptyString => EmptyString
  | String c s => String (upper_char c) (js_upper s)
  end.

(** ** Operators *)

(** @source app/explore/constants.ts 31-48 Operators *)
Inductive Operators :=
| Equals | NotEquals | LessThan | LessThanOrEqual | GreaterThan | GreaterThanOrEqual
| In | NotIn | Like | CaseInsensitiveLike | IsNotNull | IsNull | LatestPartition
| IsTrue | IsFalse | TemporalRange.

Definition operator_id (o : Operators) : string :=
  match o with
  | Equals => "EQUALS" | NotEquals => "NOT_EQUALS" | LessThan => "LESS_THAN"
  | LessThanOrEqual => "LESS_THAN_OR_EQUAL" | GreaterThan => "GREATER_THAN"
  | GreaterThanOrEqual => "GREATER_THAN_OR_EQUAL" | In => "IN" | NotIn => "NOT_IN"
  | Like => "LIKE" | CaseInsensitiveLike => "ILIKE" | IsNotNull => "IS_NOT_NULL"
  | IsNull => "IS_NULL" | LatestPartition => "LATEST_PARTITION" | IsTrue => "IS_TRUE"
  | IsFalse => "IS_FALSE" | TemporalRange => "TEMPORAL_RANGE"
  end.

(** The translated labels are left out.

    @source app/explore/constants.ts 55-92 OPERATOR_ENUM_TO_OPERATOR_TYPE (operation) *)
Definition operation (o : Operators) : string :=
  match o with
  | Equals => "==" | NotEquals => "!=" | LessThan => "<" | LessThanOrEqual => "<="
  | GreaterThan => ">" | GreaterThanOrEqual => ">=" | In => "IN" | NotIn => "NOT IN"
  | Like => "LIKE" | CaseInsensitiveLike => "ILIKE" | IsNotNull => "IS NOT NULL"
  | IsNull => "IS NULL" | LatestPartition => "LATEST PARTITION" | IsTrue => "IS TRUE"
  | IsFalse => "IS FALSE" | TemporalRange => "TEMPORAL_RANGE"
  end.

Definition all_operators : list Operators :=
  [Equals; NotEquals; LessThan; LessThanOrEqual; GreaterThan; GreaterThanOrEqual; In; NotIn;
   Like; CaseInsensitiveLike; IsNotNull; IsNull; LatestPartition; IsTrue; IsFalse; TemporalRange].

(** @source app/explore/constants.ts 108-123 MULTI_OPERATORS, CUSTOM_OPERATORS, DISABLE_INPUT_OPERATORS *)
Definition MULTI_OPERATORS : list Operators := [In; NotIn].
Definition CUSTOM_OPERATORS : list Operators := [LatestPartition; TemporalRange].
Definition DISABLE_INPUT_OPERATORS : list Operators :=
  [IsNotNull; IsNull; LatestPartition; IsTrue; IsFalse].

(** The operation of one of the operators. *)
Definition is_operation (ops : list Operators) (v : jsval) : bool :=
  existsb (λ o, is_str v (operation o)) ops.

(** ** SQL text *)

(** @source app/utils/common.js 50-67 optionLabel *)
Definition optionLabel (opt : jsval) : result string :=
  match opt with
  | JNull => Ok "<NULL>"
  | JStr EmptyString => Ok "<empty string>"
  | JBool true => Ok "TRUE"
  | JBool false => Ok "FALSE"
  | JStr s => Ok s
  | JUndef => Throw (TypeError "Cannot read properties of undefined (reading 'toString')")
  | v => Ok (to_string v)
  end.

Definition sq : ascii := "'".

(** [s.replace(/'/g, "''")] *)
Fixpoint double_quotes (s : string) : string :=
  match s with
  | EmptyString => EmptyString
  | String c s =>
      if decide (c = sq) then String sq (String sq (double_quotes s)) else String c (double_quotes s)
  end.

Definition sql_quoted (s : string) : string :=
  String sq (double_quotes s +:+ String sq EmptyString).

(** @source app/explore/exploreUtils/index.js 317-319 getSimpleSQLExpression (isString) *)
Definition quotes_values (isMulti : bool) (comparator : jsval) : bool :=
  let firstValue :=
    if isMulti && is_array comparator then default JUndef (head (array_items comparator))
    else comparator in
  negb (is_undefined firstValue) && isNaN (to_number firstValue).

(** @source app/explore/exploreUtils/index.js 323-334 getSimpleSQLExpression (comparators) *)
Definition sql_comparators (isMulti : bool) (comparator : jsval) : result string :=
  let isString := quotes_values isMulti comparator in
  labels ← map_result optionLabel (ensureIsArray comparator);
  let formattedComparators := (if isString then sql_quoted else id) <$> labels in
  Ok (" " +:+ (if isMulti then "(" else "") +:+ join ", " formattedComparators +:+
      (if isMulti then ")" else "")).

(** @source app/explore/exploreUtils/index.js 303-337 getSimpleSQLExpression *)
Definition getSimpleSQLExpression (subject operator comparator : jsval) : result jsval :=
  let isMulti := is_operation MULTI_OPERATORS operator in
  let showComparator := negb (is_operation DISABLE_INPUT_OPERATORS operator) in
  let expression :=
    if typeof_object subject then js_nullish (opt_field "column_name" subject) (JStr EmptyString)
    else js_nullish subject (JStr EmptyString) in
  if truthy subject && truthy operator then
    let expression := to_string expression +:+ " " +:+ to_string operator in
    if negb (bool_decide (ensureIsArray comparator = [])) && showComparator then
      comparators ← sql_comparators isMulti comparator;
      Ok (JStr (expression +:+ comparators))
    else Ok (JStr expression)
  else Ok expression.

(** @source app/explore/components/controls/FilterControl/utils/translateToSQL.ts 31-53 OPERATORS_TO_SQL *)
Definition OPERATORS_TO_SQL : list (string * string) :=
  [("==", "="); ("!=", "<>"); (">", ">"); ("<", "<"); (">=", ">="); ("<=", "<="); ("IN", "IN");
   ("NOT IN", "NOT IN"); ("LIKE", "LIKE"); ("ILIKE", "ILIKE"); ("REGEX", "REGEX");
   ("IS NOT NULL", "IS NOT NULL"); ("IS NULL", "IS NULL"); ("IS TRUE", "IS TRUE");
   ("IS FALSE", "IS FALSE")].

(** The callback of the latest partition. *)
Definition latest_partition (adhocFilter : jsobj) : result jsval :=
  let datasource := ofield "datasource" adhocFilter in
  schema ← field "schema" datasource;
  name ← field "datasource_name" datasource;
  Ok (JStr ("= '{{ presto.latest_partition('" +:+ to_string schema +:+ "." +:+ to_string name +:+
            "') }}'")).

(** @source app/explore/components/controls/FilterControl/utils/translateToSQL.ts 55-80 translateToSql *)
Definition translateToSql (adhocFilter : jsobj) (useSimple : bool) : result jsval :=
  simple ← isSimpleAdhocFilter (JObj adhocFilter);
  free ← isFreeFormAdhocFilter (JObj adhocFilter);
  if (simple : bool) || useSimple then
    let operator := ofield "operator" adhocFilter in
    op ← if is_str operator (operation LatestPartition) then latest_partition adhocFilter
         else Ok (from_option JStr JUndef (aget (to_string operator) OPERATORS_TO_SQL));
    getSimpleSQLExpression (ofield "subject" adhocFilter) op (ofield "comparator" adhocFilter)
  else if (free : bool) then Ok (ofield "sqlExpression" adhocFilter)
  else Ok (JStr EmptyString).

(** ** Adhoc filters *)

(** [v?.toUpperCase()] *)
Definition upper_value (v : jsval) : result jsval :=
  match v with
  | JUndef | JNull => Ok JUndef
  | JStr s => Ok (JStr (js_upper s))
  | _ => Throw (TypeError "toUpperCase is not a function")
  end.

(** @source app/explore/components/controls/FilterControl/AdhocFilter/index.js 33-61 AdhocFilter (type-dependent fields) *)
Definition filter_fields (a : jsobj) : result jsobj :=
  let get k := ofield k a in
  let expressionType := js_or (get "expressionType") (JStr "SIMPLE") in
  if is_str expressionType "SIMPLE" then
    operator ← upper_value (get "operator");
    Ok [("expressionType", expressionType);
        ("subject", get "subject");
        ("operator", operator);
        ("operatorId", get "operatorId");
        ("comparator",
          if existsb (λ o, is_str (get "operatorId") (operator_id o)) DISABLE_INPUT_OPERATORS
          then JUndef else get "comparator");
        ("clause", js_or (get "clause") (JStr "WHERE"));
        ("sqlExpression", JNull)]
  else if is_str expressionType "SQL" then
    sqlExpression ← if is_string (get "sqlExpression") then Ok (get "sqlExpression")
                    else translateToSql a true;
    let custom := truthy (get "operator") && is_operation CUSTOM_OPERATORS (get "operator") in
    Ok ([("expressionType", expressionType);
         ("sqlExpression", sqlExpression);
         ("clause", get "clause")] ++
        (if custom
         then [("subject", get "subject"); ("operator", get "operator");
               ("operatorId", get "operatorId")]
         else [("subject", JNull); ("operator", JNull)]) ++
        [("comparator", JNull)])
  else Ok [("expressionType", expressionType)].

(** @source app/explore/components/controls/FilterControl/AdhocFilter/index.js 32-74 AdhocFilter *)
Definition new_AdhocFilter (random : string) (a : jsobj) : result jsobj :=
  let get k := ofield k a in
  fields ← filter_fields a;
  Ok (fields ++
      [("isExtra", JBool (truthy (get "isExtra")));
       ("isNew", JBool (truthy (get "isNew")));
       ("datasourceWarning", JBool (truthy (get "datasourceWarning")));
       ("deck_slices", get "deck_slices");
       ("layerFilterScope", get "layerFilterScope");
       ("filterOptionName", js_or (get "filterOptionName") (JStr random))]).

(** @source app/explore/components/controls/FilterControl/AdhocFilter/index.js 76-83 duplicateWith *)
Definition duplicateWith (random : string) (this nextFields : jsobj) : result jsobj :=
  new_AdhocFilter random (ospread (oset "isNew" (JBool false) this) nextFields).

(** @source app/explore/components/controls/FilterControl/AdhocFilter/index.js 97-122 isValid *)
Definition isValid (this : jsobj) : bool :=
  let get k := ofield k this in
  let rest :=
    is_str (get "expressionType") "SQL" && truthy (get "sqlExpression") && truthy (get "clause") in
  if is_str (get "expressionType") "SIMPLE" then
    if is_operation DISABLE_INPUT_OPERATORS (get "operator") then truthy (get "subject")
    else if truthy (get "operator") && truthy (get "subject") && truthy (get "clause") then
      match get "comparator" with
      | JArr l => negb (bool_decide (l = []))
      | JNull => false
      | _ => true
      end
    else rest
  else rest.

(** ** From filter clauses to adhoc filters *)

(** The loop over the filters of one key.  A filter that is not an object throws
    when it is [null] or [undefined]; objects that come from stored JSON are
    never identical to others. *)
Fixpoint find_filter (filterClause : jsobj) (filters : list jsval) : result bool :=
  match filters with
  | [] => Ok false
  | filter :: filters =>
      col ← field "col" filter;
      let op := opt_field "op" filter in
      if strict_eq col (ofield "col" filterClause) && strict_eq op (ofield "op" filterClause) &&
         bool_decide (JSON_stringify (opt_field "val" filter) = JSON_stringify (ofield "val" filterClause))
      then Ok true else find_filter filterClause filters
  end.

Fixpoint find_filter_key (filterClause : jsobj) (mapping : jsobj) : result (option string) :=
  match mapping with
  | [] => Ok None
  | (key, filters) :: mapping =>
      found ← match filters with JArr l => find_filter filterClause l | _ => Ok false end;
      if (found : bool) then Ok (Some key) else find_filter_key filterClause mapping
  end.

(** @source app/utils/simpleFilterToAdhoc.ts 32-61 findMatchingFilterKey *)
Definition findMatchingFilterKey (filterClause : jsobj) : result (option string) :=
  let mapping := ofield "filterDataMapping" filterClause in
  if truthy mapping then find_filter_key filterClause (object_entries mapping) else Ok None.

(** @source app/utils/simpleFilterToAdhoc.ts 63-110 simpleFilterToAdhoc *)
Definition simpleFilterToAdhoc (random : string) (filterClause : jsobj) (clause : string)
    : result jsobj :=
  let get k := ofield k filterClause in
  matchingFilterKey ← findMatchingFilterKey filterClause;
  let filterScope :=
    match matchingFilterKey with
    | Some (String _ _ as key) => opt_field key (get "layerFilterScope")
    | _ => JUndef
    end in
  result ←
    if isAdhocColumn (get "col") then
      sqlExpression ←
        translateToSql
          [("expressionType", JStr "SIMPLE");
           ("subject", JStr ("(" +:+ to_string (opt_field "sqlExpression" (get "col")) +:+ ")"));
           ("operator", get "op");
           ("comparator", get "val")] false;
      Ok [("expressionType", JStr "SQL"); ("clause", JStr clause); ("sqlExpression", sqlExpression)]
    else
      Ok [("expressionType", JStr "SIMPLE"); ("clause", JStr clause);
          ("operator", get "op");
          ("operatorId",
            from_option (JStr ∘ operator_id) JUndef
              (List.find (λ o, is_str (get "op") (operation o)) all_operators));
          ("subject", get "col");
          ("comparator", get "val")];
  if truthy (get "isExtra") then
    Ok (result ++ [("isExtra", JBool true); ("layerFilterScope", filterScope);
                   ("filterOptionName", JStr random)])
  else Ok result.
