(* ===== verification/AdhocFilterFacts.v ===== *)
(** * Properties of filters and metrics that users write

    Values that are quoted in the SQL of a filter read back as the same values,
    whatever they contain; instances are fixed points of their constructor; a
    filter clause of a dashboard that becomes an adhoc filter asks the server
    for the same clause. *)

From Stdlib Require Import Ascii String.
From stdpp Require Import base strings option numbers list.
From S2P Require Import Prelude JsObject JsNumber JsValue JsJson QueryTypes Query AdhocFilter.

(** ** A reader of SQL string literals *)

(** A literal without its opening quote, and what follows it. *)
Fixpoint read_sql_string (s : string) : option (string * string) :=
  match s with
  | EmptyString => None
  | String c r =>
      if decide (c = sq) then
        match r with
        | String d r' =>
            if decide (d = sq) then '(t, rest) ← read_sql_string r'; Some (String sq t, rest)
            else Some (EmptyString, r)
        | EmptyString => Some (EmptyString, EmptyString)
        end
      else '(t, rest) ← read_sql_string r; Some (String c t, rest)
  end.

(** Literals that are separated by commas, to the end of the text; there are at
    most [fuel]. *)
Fixpoint read_sql_strings (fuel : nat) (s : string) : option (list string) :=
  match fuel, s with
  | S fuel, String c r =>
      if decide (c = sq) then
        '(t, rest) ← read_sql_string r;
        match rest with
        | EmptyString => Some [t]
        | String ","%char (String " "%char rest) => ts ← read_sql_strings fuel rest; Some (t :: ts)
        | _ => None
        end
      else None
  | _, _ => None
  end.

Definition no_quote_first (s : string) : Prop :=
  match s with String c _ => c ≠ sq | EmptyString => True end.

Lemma read_quoted s rest :
  no_quote_first rest →
  read_sql_string (double_quotes s +:+ String sq rest) = Some (s, rest).
Proof.
  intros Hr. induction s as [|c s IH].
  - cbn [double_quotes]. rewrite append_empty_l. cbn [read_sql_string]. rewrite decide_True by done.
    destruct rest as [|d r]; [done|]. by rewrite decide_False.
  - cbn [double_quotes]. destruct (decide (c = sq)) as [->|Hc]; rewrite !append_cons;
      cbn [read_sql_string].
    + rewrite !decide_True by done. by rewrite IH.
    + rewrite decide_False by done. by rewrite IH.
Qed.

Lemma read_quoted_list labels n :
  labels ≠ [] → length labels ≤ n →
  read_sql_strings n (join ", " (sql_quoted <$> labels)) = Some labels.
Proof.
  revert n. induction labels as [|l labels IH]; intros n Hne Hn; [done|].
  destruct n as [|n]; [cbn in Hn; lia|]. destruct labels as [|l' labels].
  - cbn -[append]. by rewrite read_quoted.
  - change (join ", " (sql_quoted <$> l :: l' :: labels)) with
      (sql_quoted l +:+ ", " +:+ join ", " (sql_quoted <$> l' :: labels)).
    unfold sql_quoted at 1. rewrite append_cons, <- string_app_assoc. cbn [read_sql_strings].
    rewrite decide_True by done. rewrite append_cons, append_empty_l, read_quoted by done.
    cbn [mbind option_bind]. rewrite !append_cons, append_empty_l. rewrite IH; [done|done|].
    cbn [length] in *. lia.
Qed.

(** The value that decides about quotes: the first one of several, or the only one. *)
Lemma quotes_values_first (multi : bool) (comparator : jsval) :
  comparator ≠ JArr [] →
  let first := match comparator with JArr (v :: _) => if multi then v else comparator | _ => comparator end in
  quotes_values multi comparator = negb (is_undefined first) && isNaN (to_number first).
Proof. unfold quotes_values. destruct multi; [|by destruct comparator as [| | | | |[|]|]]. by destruct comparator as [| | | | |[|]|]. Qed.

(** C29. Whether the values of a filter can break out of its SQL is decided by the
    first one alone, for a filter with a column, an operator that takes values, and
    at least one value, all of which have labels.  When the conversion of the first value to a number fails, as
    for a text that is no number, each value is written as a literal, and reading
    the literals gives the labels of all values back, whatever characters they
    contain.  When the conversion gives a number, as for a number, a text that is
    one or is blank, null and booleans, all values are written without quotes, as
    they are, joined by commas.  For an operator that takes one value the whole
    comparator is converted in place of the first value; for one that takes several
    the values are put in parentheses. *)
Theorem filter_sql_values col op comparator labels :
  col ≠ EmptyString → op ≠ EmptyString → is_operation DISABLE_INPUT_OPERATORS (JStr op) = false →
  labels ≠ [] → map_result optionLabel (ensureIsArray comparator) = Ok labels →
  let multi := is_operation MULTI_OPERATORS (JStr op) in
  let first := match comparator with JArr (v :: _) => if multi then v else comparator | _ => comparator end in
  ∃ text,
    getSimpleSQLExpression (JStr col) (JStr op) comparator =
      Ok (JStr ((col +:+ " " +:+ op) +:+ " " +:+
                if multi then "(" +:+ text +:+ ")" else text)) ∧
    if negb (is_undefined first) && isNaN (to_number first) then read_sql_strings (length labels) text = Some labels
    else text = join ", " labels.
Proof.
  intros Hc Ho Hd Hl Hm multi first.
  assert (ensureIsArray comparator ≠ []) as Hne by (intros E; rewrite E in Hm; by injection Hm as <-).
  pose proof (quotes_values_first multi comparator) as Hq. cbv zeta in Hq. fold first in Hq.
  rewrite <- Hq by (by intros ->). clear Hq.
  exists (join ", " ((if quotes_values multi comparator then sql_quoted else id) <$> labels)). split.
  - unfold getSimpleSQLExpression. cbn [typeof_object js_nullish is_nullish to_string truthy].
    rewrite !bool_decide_eq_true_2 by done. cbn [andb]. rewrite Hd.
    rewrite bool_decide_eq_false_2 by done. cbn [negb andb]. unfold sql_comparators.
    rewrite Hm, !bind_Ok. do 2 f_equal. unfold multi.
    destruct (is_operation MULTI_OPERATORS (JStr op)); [done|]. by rewrite append_empty_l, string_app_nil_r.
  - destruct (quotes_values multi comparator); [by apply read_quoted_list|]. by rewrite list_fmap_id.
Qed.

(** A value with a quote, and values that follow a number or a blank text. *)
Lemma filter_sql_values_witness :
  getSimpleSQLExpression (JStr "name") (JStr "IN") (JArr [JStr "it's"; JStr "b"]) =
    Ok (JStr "name IN ('it''s', 'b')") ∧
  (∃ text, getSimpleSQLExpression (JStr "name") (JStr "IN") (JArr [JStr "it's"; JStr "b"]) =
     Ok (JStr (("name" +:+ " " +:+ "IN") +:+ " " +:+ "(" +:+ text +:+ ")")) ∧
   read_sql_strings 2 text = Some ["it's"; "b"]) ∧
  (∃ text, getSimpleSQLExpression (JStr "name") (JStr "IN") (JArr [JNum (num_of_Z 1); JStr "b)--"]) =
     Ok (JStr (("name" +:+ " " +:+ "IN") +:+ " " +:+ "(" +:+ text +:+ ")")) ∧ text = "1, b)--") ∧
  ∃ text, getSimpleSQLExpression (JStr "name") (JStr "IN") (JArr [JStr " "; JStr "b)--"]) =
     Ok (JStr (("name" +:+ " " +:+ "IN") +:+ " " +:+ "(" +:+ text +:+ ")")) ∧ text = " , b)--".
Proof.
  split; [reflexivity|]. split_and!.
  - by apply (filter_sql_values "name" "IN" (JArr [JStr "it's"; JStr "b"]) ["it's"; "b"]).
  - by apply (filter_sql_values "name" "IN" (JArr [JNum (num_of_Z 1); JStr "b)--"]) ["1"; "b)--"]).
  - by apply (filter_sql_values "name" "IN" (JArr [JStr " "; JStr "b)--"]) [" "; "b)--"]).
Defined.

(** ** Instances *)

Lemma js_upper_idempotent s : js_upper (js_upper s) = js_upper s.
Proof.
  induction s as [|c s IH]; [done|]. cbn [js_upper]. rewrite IH. f_equal.
  unfold upper_char at 2 3. destruct ((97 <=? _)%N && _) eqn:E; [|by unfold upper_char; rewrite E].
  apply andb_true_iff in E as [H1%N.leb_le H2%N.leb_le]. unfold upper_char.
  rewrite N_ascii_embedding by lia. replace (97 <=? N_of_ascii c - 32)%N with false; [done|].
  symmetry. apply N.leb_gt. lia.
Qed.

Lemma upper_value_idempotent v w : upper_value v = Ok w → upper_value w = Ok w.
Proof. destruct v; intros [= <-]; cbn; by rewrite ?js_upper_idempotent. Qed.

Lemma js_or_idempotent a b c : truthy b = true → js_or (js_or a b) c = js_or a b.
Proof. unfold js_or. intros Hb. destruct (truthy a) eqn:E; [by rewrite E|by rewrite Hb]. Qed.

Lemma truthy_bool b : truthy (JBool b) = b.
Proof. done. Qed.

(** The fields that every instance ends with. *)
Definition common_fields (isExtra isNew warning : bool) (deck layer name : jsval) : jsobj :=
  [("isExtra", JBool isExtra); ("isNew", JBool isNew); ("datasourceWarning", JBool warning);
   ("deck_slices", deck); ("layerFilterScope", layer); ("filterOptionName", name)].

Definition has_fields (f : jsobj) (kvs : jsobj) : Prop := Forall (λ kv, ofield kv.1 f = kv.2) kvs.

(** An object whose fields are those of an instance is rebuilt as it is. *)
Lemma rebuild r' f fields e n w d l name :
  filter_fields f = Ok fields → has_fields f (common_fields e n w d l name) →
  js_or name (JStr r') = name → new_AdhocFilter r' f = Ok (fields ++ common_fields e n w d l name).
Proof.
  intros Hf Hc Hn. unfold new_AdhocFilter. rewrite Hf, bind_Ok.
  repeat (apply Forall_cons in Hc as [E Hc]; cbn [fst snd] in E; rewrite E; clear E).
  by rewrite Hn, !truthy_bool.
Qed.

Lemma ofield_app_l k a b v : aget k a = Some v → ofield k (a ++ b) = v.
Proof. intros H. unfold ofield. by rewrite aget_app, H. Qed.

(** Reads the fields of an object that are known. *)
Ltac read_fields :=
  repeat match goal with
  | |- context [ofield ?k (?a ++ ?b)] => erewrite (ofield_app_l k a b) by reflexivity
  end.

Lemma disabled_stable (b : bool) (v : jsval) : (if b then JUndef else if b then JUndef else v) = if b then JUndef else v.
Proof. by destruct b. Qed.

(** The fields that depend on the type. *)
Lemma filter_fields_stable a fields common :
  filter_fields a = Ok fields →
  (is_str (ofield "expressionType" fields) "SQL" = true → is_string (ofield "sqlExpression" fields) = true) →
  filter_fields (fields ++ common) = Ok fields.
Proof.
  intros Hf Hs. unfold filter_fields in Hf.
  set (et := js_or (ofield "expressionType" a) (JStr "SIMPLE")) in *.
  assert (js_or et (JStr "SIMPLE") = et) as Het by (by apply js_or_idempotent).
  destruct (is_str et "SIMPLE") eqn:Esimple.
  - apply bind_Ok_inv in Hf as (op & Hop & [= <-]). apply upper_value_idempotent in Hop.
    unfold filter_fields. read_fields.
    rewrite Het, Esimple, Hop, bind_Ok, disabled_stable, js_or_idempotent by done. done.
  - destruct (is_str et "SQL") eqn:Esql.
    + apply bind_Ok_inv in Hf as (sql & _ & Hf).
      assert (is_string sql = true) as Hsql.
      { destruct (truthy _ && _); injection Hf as <-; by apply Hs. }
      destruct (truthy (ofield "operator" a) && _) eqn:Ecustom; injection Hf as <-;
        unfold filter_fields; read_fields;
        rewrite Het, Esimple, Esql, Hsql, bind_Ok, ?Ecustom; done.
    + injection Hf as <-. unfold filter_fields. read_fields.
      by rewrite Het, Esimple, Esql.
Qed.

(** The shapes of the fields. *)
Lemma filter_fields_apart a fields common :
  filter_fields a = Ok fields →
  ofield "expressionType" (fields ++ common) = ofield "expressionType" fields ∧
  (is_str (ofield "expressionType" fields) "SQL" = true →
   ofield "sqlExpression" (fields ++ common) = ofield "sqlExpression" fields) ∧
  ∀ k, k ∈ ["isExtra"; "isNew"; "datasourceWarning"; "deck_slices"; "layerFilterScope";
    "filterOptionName"] → ofield k (fields ++ common) = ofield k common.
Proof.
  intros Hf. unfold filter_fields in Hf.
  assert (∀ fields, Forall (λ k, k ∉ akeys fields) ["isExtra"; "isNew"; "datasourceWarning";
    "deck_slices"; "layerFilterScope"; "filterOptionName"] → ∀ k, k ∈ ["isExtra"; "isNew";
    "datasourceWarning"; "deck_slices"; "layerFilterScope"; "filterOptionName"] →
    ofield k (fields ++ common) = ofield k common) as Hk.
  { intros g Hg k Hin. rewrite Forall_forall in Hg. unfold ofield. rewrite aget_app.
    by rewrite (proj2 (aget_None k g)) by (by apply Hg). }
  destruct (is_str (js_or _ _) "SIMPLE") eqn:Esimple;
    [|destruct (is_str (js_or _ _) "SQL") eqn:Esql];
    [apply bind_Ok_inv in Hf as (? & _ & [= <-])
    |apply bind_Ok_inv in Hf as (? & _ & Hf); destruct (truthy _ && _); injection Hf as <-
    |injection Hf as <-].
  all: split; [done|]; split; [try done|apply Hk; repeat constructor; solve_decided].
  intros H. discriminate (eq_trans (eq_sym Esql) H).
Qed.

Lemma filter_fields_fresh a fields : filter_fields a = Ok fields → "isNew" ∉ akeys fields.
Proof.
  intros Hf. unfold filter_fields in Hf. repeat case_match; invert_ok; solve_decided.
Qed.

Lemma instance_stable r' a fields e n w d l name :
  filter_fields a = Ok fields → js_or name (JStr r') = name →
  (is_str (ofield "expressionType" fields) "SQL" = true → is_string (ofield "sqlExpression" fields) = true) →
  new_AdhocFilter r' (fields ++ common_fields e n w d l name) =
    Ok (fields ++ common_fields e n w d l name).
Proof.
  intros Hf Hn Hs. apply rebuild; [by eapply filter_fields_stable| |done].
  destruct (filter_fields_apart a fields (common_fields e n w d l name) Hf) as (_ & _ & Hk).
  repeat (apply Forall_cons; split; [cbn [fst snd]; rewrite Hk by solve_decided; done|]).
  by apply Forall_nil.
Qed.

(** An instance is a fixed point of its constructor: a filter that is built
    from an instance is equal to it, and a duplicate differs only in that it is
    not new.  The only exception are filters in SQL that were translated from a
    column that is not a string. *)
Theorem new_AdhocFilter_idempotent r r' a f :
  r ≠ EmptyString → new_AdhocFilter r a = Ok f →
  (is_str (ofield "expressionType" f) "SQL" = true → is_string (ofield "sqlExpression" f) = true) →
  new_AdhocFilter r' f = Ok f ∧ duplicateWith r' f [] = Ok (oset "isNew" (JBool false) f).
Proof.
  intros Hr Hf Hs. unfold new_AdhocFilter in Hf. apply bind_Ok_inv in Hf as (fields & Hg & [= <-]).
  match type of Hs with context [fields ++ ?c] =>
    destruct (filter_fields_apart a fields c Hg) as (Et & Es & _) end.
  rewrite Et in Hs.
  assert (is_str (ofield "expressionType" fields) "SQL" = true →
    is_string (ofield "sqlExpression" fields) = true) as Hsql.
  { intros H. rewrite <- (Es H). by apply Hs. }
  assert (js_or (js_or (ofield "filterOptionName" a) (JStr r)) (JStr r') =
    js_or (ofield "filterOptionName" a) (JStr r)) as Hname
    by (apply js_or_idempotent; cbn; by apply bool_decide_eq_true_2).
  split; [by apply (instance_stable r' a)|]. unfold duplicateWith. cbn [ospread foldl].
  pose proof (filter_fields_fresh a fields Hg) as Hfresh.
  rewrite oset_app_r by (done || solve_decided). by apply (instance_stable r' a).
Qed.

(** A filter on a column, written in lower case, with a disabled value. *)
Lemma new_AdhocFilter_idempotent_witness :
  let a := [("subject", JStr "ds"); ("operator", JStr "is null"); ("operatorId", JStr "IS_NULL");
            ("comparator", JStr "5"); ("isNew", JBool true)] in
  ∃ f, new_AdhocFilter "filter_1" a = Ok f ∧ ofield "operator" f = JStr "IS NULL" ∧
    ofield "comparator" f = JUndef ∧ new_AdhocFilter "filter_2" f = Ok f ∧
    duplicateWith "filter_2" f [] = Ok (oset "isNew" (JBool false) f).
Proof.
  intros a. eexists. split; [reflexivity|]. split; [reflexivity|]. split; [reflexivity|].
  by apply (new_AdhocFilter_idempotent "filter_1" "filter_2" a).
Defined.

(** ** From a dashboard's filter clause to the query *)

(** The filter that a dashboard adds to a chart is the filter that the chart
    asks for: when a filter clause is turned into an adhoc filter and the query
    is built from it, the clause comes back, with its column, operator and
    value; only the value of an operator that takes none is dropped.  A clause on an
    expression becomes a condition of the query in SQL. *)
Theorem simpleFilterToAdhoc_query r c a st :
  simpleFilterToAdhoc r c "WHERE" = Ok a →
  processFilters_step st (JObj a) = Ok
    (if isAdhocColumn (ofield "col" c) then
       {| fs_simpleWhere := fs_simpleWhere st;
          fs_freeformWhere := fs_freeformWhere st ++ [ofield "sqlExpression" a];
          fs_freeformHaving := fs_freeformHaving st |}
     else
       {| fs_simpleWhere := fs_simpleWhere st ++
            [JObj ([("col", ofield "col" c); ("op", ofield "op" c)] ++
               (if isUnaryOperator (ofield "op" c) then [] else [("val", ofield "val" c)]))];
          fs_freeformWhere := fs_freeformWhere st;
          fs_freeformHaving := fs_freeformHaving st |}) ∧
  (isAdhocColumn (ofield "col" c) = true →
   translateToSql
     [("expressionType", JStr "SIMPLE");
      ("subject", JStr ("(" +:+ to_string (opt_field "sqlExpression" (ofield "col" c)) +:+ ")"));
      ("operator", ofield "op" c); ("comparator", ofield "val" c)] false =
   Ok (ofield "sqlExpression" a)).
Proof.
  intros Ha. unfold simpleFilterToAdhoc in Ha. apply bind_Ok_inv in Ha as (key & _ & Ha).
  apply bind_Ok_inv in Ha as (base & Hb & Ha).
  assert (∃ common, a = base ++ common) as [common ->].
  { destruct (truthy _); injection Ha as <-; [by eexists|]. exists []. by rewrite app_nil_r. }
  clear Ha. destruct (isAdhocColumn (ofield "col" c)) eqn:Ecol.
  - apply bind_Ok_inv in Hb as (sql & Hsql & [= <-]). rewrite Hsql. by split.
  - injection Hb as <-. split; [|done]. unfold processFilters_step. cbn [field opt_field].
    unfold isSimpleAdhocFilter, convertFilter, isUnaryAdhocFilter, isBinaryAdhocFilter.
    cbn [field opt_field]. read_fields. rewrite !bind_Ok.
    destruct (isUnaryOperator (ofield "op" c)); [done|]. by destruct (isBinaryOperator (ofield "op" c)).
Qed.

Lemma simpleFilterToAdhoc_query_witness :
  let c := [("col", JStr "gender"); ("op", JStr "IN"); ("val", JArr [JStr "boy"]); ("isExtra", JBool true)] in
  let st := {| fs_simpleWhere := []; fs_freeformWhere := []; fs_freeformHaving := [] |} in
  ∃ a, simpleFilterToAdhoc "filter_1" c "WHERE" = Ok a ∧
    processFilters_step st (JObj a) = Ok
      {| fs_simpleWhere := [JObj [("col", JStr "gender"); ("op", JStr "IN"); ("val", JArr [JStr "boy"])]];
         fs_freeformWhere := []; fs_freeformHaving := [] |}.
Proof.
  intros c st. eexists. split; [reflexivity|].
  exact (proj1 (simpleFilterToAdhoc_query "filter_1" c _ st eq_refl)).
Defined.
