(* ===== verification/TimeRange.v ===== *)
(** * Time ranges

    A time range is a text: the two ends with a separator between them, each a
    date, a constant or an expression that adds to one.  The dialog for custom
    ranges reads the text into a record and writes the record back.  The regular
    expressions of the source are functions on texts here: each of their parts
    can match in one way only, so that they never backtrack.

    Dates are text as far as this file goes.  What the third-party date library
    makes of a date ([dayjs_format]) and the dates at the time the module was
    loaded are parameters. *)

From Stdlib Require Import SpecFloat Ascii String.
From stdpp Require Import base strings option numbers list.
From S2P Require Import Prelude JsObject JsNumber JsValue Query AdhocFilter.

(** @source core/time-comparison/fetchTimeRange.ts 27-27 SEPARATOR *)
Definition SEPARATOR : string := " : ".

(** @source core/time-comparison/fetchTimeRange.ts 29-30 buildTimeRangeString *)
Definition buildTimeRangeString (since until : string) : string := since +:+ SEPARATOR +:+ until.

(** ** Texts for the user *)

(** [s.replace(p, '')]: the first occurrence goes. *)
Fixpoint remove_first (p s : string) : string :=
  match strip_prefix p s with
  | Some rest => rest
  | None => match s with EmptyString => EmptyString | String c s => String c (remove_first p s) end
  end.

(** @source core/time-comparison/fetchTimeRange.ts 32-33 formatDateEndpoint *)
Definition formatDateEndpoint (dttm : string) (isStart : bool) : string :=
  match remove_first "T00:00:00" dttm with
  | EmptyString => if isStart then "-∞" else "∞"
  | s => s
  end.

(** @source core/time-comparison/fetchTimeRange.ts 35-45 formatTimeRange *)
Definition formatTimeRange (timeRange columnPlaceholder : string) : string :=
  match split SEPARATOR timeRange with
  | since :: until :: _ =>
      formatDateEndpoint since true +:+ " ≤ " +:+ columnPlaceholder +:+ " < " +:+ formatDateEndpoint until false
  | _ => timeRange
  end.

(** A range without a separator has no end: reading it throws.

    @source core/time-comparison/fetchTimeRange.ts 47-61 formatTimeRangeComparison *)
Definition formatTimeRangeComparison (initialTimeRange shiftedTimeRange columnPlaceholder : string)
    : result string :=
  match split SEPARATOR initialTimeRange, split SEPARATOR shiftedTimeRange with
  | since :: until :: _, since' :: until' :: _ =>
      Ok (columnPlaceholder +:+ ": " +:+ formatDateEndpoint since true +:+ " to " +:+
          formatDateEndpoint until false +:+ " vs" +:+ String "010" "  " +:+
          formatDateEndpoint since' true +:+ " to " +:+ formatDateEndpoint until' false)
  | _, _ => Throw (TypeError "Cannot read properties of undefined (reading 'replace')")
  end.

(** ** Regular expressions *)

Definition is_char (c d : ascii) : bool := bool_decide (c = d).

(** The characters match the classes one by one: the rest. *)
Fixpoint match_chars (ps : list (ascii → bool)) (s : string) : option string :=
  match ps, s with
  | [], _ => Some s
  | p :: ps, String c s => if p c then match_chars ps s else None
  | _ :: _, EmptyString => None
  end.

Fixpoint skip_digits (s : string) : string :=
  match s with
  | String c r => if is_digit c then skip_digits r else s
  | EmptyString => EmptyString
  end.

Definition digits (n : nat) : list (ascii → bool) := repeat is_digit n.

Definition date_classes : list (ascii → bool) :=
  digits 4 ++ [is_char "-"] ++ digits 2 ++ [is_char "-"] ++ digits 2 ++ [λ c, is_char "T" (upper_char c)] ++
  digits 2 ++ [is_char ":"] ++ digits 2 ++ [is_char ":"] ++ digits 2.

Definition zone_classes : list (ascii → bool) := digits 2 ++ [is_char ":"] ++ digits 2.

(** The optional fraction of a second. *)
Definition fraction_rest (s : string) : string :=
  match s with
  | String "." (String d r) => if is_digit d then skip_digits r else s
  | _ => s
  end.

(** The optional time zone. *)
Definition zone_rest (s : string) : string :=
  match s with
  | String c r =>
      if is_char "Z" (upper_char c) then r
      else if is_char "+" c || is_char "-" c then default s (match_chars zone_classes r)
      else s
  | EmptyString => EmptyString
  end.

(** @source core/time-comparison/customTimeRangeDecode.ts 28-28 iso8601 *)
Definition iso8601_rest (s : string) : option string :=
  rest ← match_chars date_classes s; Some (zone_rest (fraction_rest rest)).

(** A word at the start, in either case. *)
Fixpoint strip_word (p s : string) : option string :=
  match p, s with
  | EmptyString, _ => Some s
  | String a p, String b s => if bool_decide (upper_char a = upper_char b) then strip_word p s else None
  | String _ _, EmptyString => None
  end.

(** The first of the words that matches. *)
Fixpoint strip_words (words : list string) (s : string) : option string :=
  match words with
  | [] => None
  | w :: words => match strip_word w s with Some rest => Some rest | None => strip_words words s end
  end.

(** @source core/time-comparison/customTimeRangeDecode.ts 29-29 datetimeConstant *)
Definition constant_rest (s : string) : option string := strip_words ["TODAY"; "NOW"] s.

(** [[+-]?[1-9][0-9]*]

    @source core/time-comparison/customTimeRangeDecode.ts 30-30 grainValue *)
Definition grain_value_rest (s : string) : option string :=
  match (read_sign s).2 with
  | String c r => if is_digit c && negb (is_char "0" c) then Some (skip_digits r) else None
  | EmptyString => None
  end.

(** @source core/time-comparison/customTimeRangeDecode.ts 31-31 grain *)
Definition grain_rest (s : string) : option string :=
  strip_words ["YEAR"; "QUARTER"; "MONTH"; "WEEK"; "DAY"; "HOUR"; "MINUTE"; "SECOND"] s.

Definition datetime_rest (s : string) : option string :=
  match iso8601_rest s with Some rest => Some rest | None => constant_rest s end.

(** What was matched: the text without the rest. *)
Definition captured (s rest : string) : string := string_take (String.length s - String.length rest) s.

(** A group: the matched text, and the rest. *)
Definition group (m : string → option string) (s : string) : option (string * string) :=
  rest ← m s; Some (captured s rest, rest).

Definition quote : string := String "034" EmptyString.

(** The three groups of the expression: the date, the value and the grain.

    @source core/time-comparison/customTimeRangeDecode.ts 32-35 CUSTOM_RANGE_EXPRESSION *)
Definition custom_match (s : string) : option (string * string * string) :=
  s ← strip_word ("DATEADD(DATETIME(" +:+ quote) s;
  dttm ← group datetime_rest s;
  s ← strip_word (quote +:+ "),") dttm.2;
  s ← match_chars [is_space] s;
  value ← group grain_value_rest s;
  s ← strip_word "," value.2;
  s ← match_chars [is_space] s;
  grain ← group grain_rest s;
  s ← strip_word ")" grain.2;
  if bool_decide (s = EmptyString) then Some (dttm.1, value.1, grain.1) else None.

(** @source core/time-comparison/customTimeRangeDecode.ts 36-39 ISO8601_AND_CONSTANT *)
Definition iso8601_and_constant (s : string) : bool :=
  bool_decide (iso8601_rest s = Some EmptyString) || bool_decide (constant_rest s = Some EmptyString).

(** ** Custom ranges *)

(** @source core/time-comparison/types.ts 56-67 CustomRangeType *)
Record CustomRange := {
  sinceMode : string;
  sinceDatetime : string;
  sinceGrain : string;
  sinceGrainValue : jsnum;
  untilMode : string;
  untilDatetime : string;
  untilGrain : string;
  untilGrainValue : jsnum;
  anchorMode : string;
  anchorValue : string;
}.

(** [DATETIME_CONSTANT.includes(dttm) ? dttm : 'specific'] *)
Definition mode_of (dttm : string) : string :=
  if bool_decide (dttm ∈ ["now"; "today"]) then dttm else "specific".

Section decode.
Variables default_since default_until : string.

(** @source core/time-comparison/customTimeRangeDecode.ts 41-60 defaultCustomRange *)
Definition defaultCustomRange : CustomRange :=
  {| sinceDatetime := default_since; sinceMode := "relative"; sinceGrain := "day";
     sinceGrainValue := num_of_Z (-7);
     untilDatetime := default_until; untilMode := "specific"; untilGrain := "day";
     untilGrainValue := num_of_Z 7;
     anchorMode := "now"; anchorValue := "now" |}.

(** @source core/time-comparison/customTimeRangeDecode.ts 70-88 customTimeRangeDecode (specific : specific) *)
Definition specific_range (since until : string) : CustomRange :=
  {| sinceDatetime := since; sinceMode := mode_of since; sinceGrain := "day";
     sinceGrainValue := num_of_Z (-7);
     untilDatetime := until; untilMode := mode_of until; untilGrain := "day";
     untilGrainValue := num_of_Z 7;
     anchorMode := "now"; anchorValue := "now" |}.

(** @source core/time-comparison/customTimeRangeDecode.ts 90-113 customTimeRangeDecode (relative : specific) *)
Definition relative_since (dttm value grain until : string) : CustomRange :=
  {| sinceDatetime := dttm; sinceMode := "relative"; sinceGrain := grain;
     sinceGrainValue := parseInt value;
     untilDatetime := dttm; untilMode := mode_of until; untilGrain := "day";
     untilGrainValue := num_of_Z 7;
     anchorMode := "now"; anchorValue := "now" |}.

(** @source core/time-comparison/customTimeRangeDecode.ts 115-138 customTimeRangeDecode (specific : relative) *)
Definition relative_until (since dttm value grain : string) : CustomRange :=
  {| sinceDatetime := dttm; sinceMode := mode_of since; sinceGrain := "day";
     sinceGrainValue := num_of_Z (-7);
     untilDatetime := dttm; untilMode := "relative"; untilGrain := grain;
     untilGrainValue := parseInt value;
     anchorMode := "now"; anchorValue := "now" |}.

(** @source core/time-comparison/customTimeRangeDecode.ts 140-166 customTimeRangeDecode (relative : relative) *)
Definition relative_both (s u : string * string * string) : CustomRange :=
  {| sinceDatetime := s.1.1; sinceMode := "relative"; sinceGrain := s.2;
     sinceGrainValue := parseInt s.1.2;
     untilDatetime := u.1.1; untilMode := "relative"; untilGrain := u.2;
     untilGrainValue := parseInt u.1.2;
     anchorMode := if bool_decide (s.1.1 = "now") then "now" else "specific"; anchorValue := s.1.1 |}.

(** The range a text stands for, and whether it stands for one.

    @source core/time-comparison/customTimeRangeDecode.ts 62-173 customTimeRangeDecode *)
Definition customTimeRangeDecode (timeRange : string) : CustomRange * bool :=
  match split SEPARATOR timeRange with
  | [since; until] =>
      let sinceGroups := custom_match since in
      let untilGroups := custom_match until in
      let sinceSpecific := iso8601_and_constant since in
      let untilSpecific := iso8601_and_constant until in
      if sinceSpecific && untilSpecific then (specific_range since until, true)
      else
        match (if untilSpecific && includes until since then sinceGroups else None),
              (if sinceSpecific && includes since until then untilGroups else None),
              sinceGroups, untilGroups with
        | Some (dttm, value, grain), _, _, _ => (relative_since dttm value grain until, true)
        | None, Some (dttm, value, grain), _, _ => (relative_until since dttm value grain, true)
        | None, None, Some s, Some u =>
            if bool_decide (s.1.1 = u.1.1) then (relative_both s u, true) else (defaultCustomRange, false)
        | None, None, _, _ => (defaultCustomRange, false)
        end
  | _ => (defaultCustomRange, false)
  end.

(** ** The frame of the dialog *)

(** @source app/explore/components/controls/DateFilterControl/types.ts 24-30 FrameType *)
Inductive FrameType := Common | Calendar | Current | Custom | Advanced | NoFilter.

(** @source app/explore/components/controls/DateFilterControl/utils/constants.ts 47-53 COMMON_RANGE_OPTIONS *)
Definition COMMON_RANGE_VALUES : list string :=
  ["Last day"; "Last week"; "Last month"; "Last quarter"; "Last year"].

(** @source app/explore/components/controls/DateFilterControl/utils/constants.ts 58-63 CALENDAR_RANGE_OPTIONS *)
Definition CALENDAR_RANGE_VALUES : list string :=
  ["previous calendar week"; "previous calendar month"; "previous calendar quarter"; "previous calendar year"].

(** @source app/explore/components/controls/DateFilterControl/utils/constants.ts 68-74 CURRENT_RANGE_OPTIONS *)
Definition CURRENT_RANGE_VALUES : list string :=
  ["Current day"; "Current week"; "Current month"; "Current quarter"; "Current year"].

(** @source app/explore/components/controls/DateFilterControl/utils/dateFilterUtils.ts 32-49 guessFrame *)
Definition guessFrame (timeRange : string) : FrameType :=
  if bool_decide (timeRange ∈ COMMON_RANGE_VALUES) then Common
  else if bool_decide (timeRange ∈ CALENDAR_RANGE_VALUES) then Calendar
  else if bool_decide (timeRange ∈ CURRENT_RANGE_VALUES) then Current
  else if bool_decide (timeRange = "No filter") then NoFilter
  else if (customTimeRangeDecode timeRange).2 then Custom
  else Advanced.
End decode.

(** ** Writing a range *)

Section encode.
(** A date in the fixed format, this second and the start of the day in it. *)
Variable dayjs_format : string → string.
Variables utc_second utc_day : string.

(** @source app/explore/components/controls/DateFilterControl/utils/dateParser.ts 42-53 dttmToString *)
Definition dttmToString (dttm : string) : string :=
  if bool_decide (dttm = "now") then utc_second
  else if bool_decide (dttm = "today") then utc_day
  else dayjs_format dttm.

(** @source app/explore/components/controls/DateFilterControl/utils/dateParser.ts 40-40 SPECIFIC_MODE *)
Definition specific_mode (mode : string) : bool := bool_decide (mode ∈ ["specific"; "today"; "now"]).

Definition end_text (mode dttm : string) : string :=
  if bool_decide (mode = "specific") then dttmToString dttm else mode.

(** [DATEADD(DATETIME("dttm"), value, grain)] *)
Definition date_add (dttm : string) (value : jsnum) (grain : string) : string :=
  ("DATEADD(DATETIME(" +:+ quote) +:+ dttm +:+ (quote +:+ "),") +:+ " " +:+ num_to_string value +:+ "," +:+
  " " +:+ grain +:+ ")".

(** [-Math.abs(value)] *)
Definition before (value : jsnum) : jsnum := num_opp (SFabs value).

(** @source app/explore/components/controls/DateFilterControl/utils/dateParser.ts 55-100 customTimeRangeEncode *)
Definition customTimeRangeEncode (r : CustomRange) : string :=
  if specific_mode (sinceMode r) && specific_mode (untilMode r) then
    end_text (sinceMode r) (sinceDatetime r) +:+ SEPARATOR +:+ end_text (untilMode r) (untilDatetime r)
  else if specific_mode (sinceMode r) && bool_decide (untilMode r = "relative") then
    let since := end_text (sinceMode r) (sinceDatetime r) in
    since +:+ SEPARATOR +:+ date_add since (untilGrainValue r) (untilGrain r)
  else if bool_decide (sinceMode r = "relative") && specific_mode (untilMode r) then
    let until := end_text (untilMode r) (untilDatetime r) in
    date_add until (before (sinceGrainValue r)) (sinceGrain r) +:+ SEPARATOR +:+ until
  else
    date_add (anchorValue r) (before (sinceGrainValue r)) (sinceGrain r) +:+ SEPARATOR +:+
    date_add (anchorValue r) (untilGrainValue r) (untilGrain r).
End encode.

(** ** The filters of a comparison *)

(** ['operator' in filter && filter.operator === 'TEMPORAL_RANGE'] *)
Definition is_temporal_range (filter : jsval) : result bool :=
  match filter with
  | JObj o => Ok (is_str (ofield "operator" o) "TEMPORAL_RANGE")
  | JArr _ => Ok false
  | _ => Throw (TypeError "Cannot use 'in' operator to search for 'operator'")
  end.

Fixpoint find_index_result {A} (p : A → result bool) (l : list A) : result (option nat) :=
  match l with
  | [] => Ok None
  | x :: l =>
      found ← p x;
      if (found : bool) then Ok (Some 0) else
        i ← find_index_result p l; Ok (S <$> (i : option nat))
  end.

(** The time filter with the time range of the dashboard. *)
Definition override_range (extraFormData filter : jsval) : jsval :=
  match filter with
  | JObj o =>
      if is_string (ofield "comparator" o) && truthy (opt_field "time_range" extraFormData)
      then JObj (oset "comparator" (opt_field "time_range" extraFormData) o) else filter
  | _ => filter
  end.

(** The time filter comes first; it is changed in place, so that the form data
    have it too afterwards.

    @source core/time-comparison/getComparisonFilters.ts 31-65 getComparisonFilters *)
Definition getComparisonFilters (formData : jsobj) (extraFormData : jsval) : result (list jsval * jsobj) :=
  match ofield "adhoc_filters" formData with
  | JUndef | JNull => Ok ([], formData)
  | JArr filters =>
      i ← find_index_result is_temporal_range filters;
      match (i : option nat) with
      | None => Ok (filters, formData)
      | Some i =>
          let timeFilter := override_range extraFormData (default JUndef (filters !! i)) in
          Ok (timeFilter :: take i filters ++ drop (S i) filters,
              oset "adhoc_filters" (JArr (<[i := timeFilter]> filters)) formData)
      end
  | _ => Throw (TypeError "findIndex is not a function")
  end.

(** The form data of the comparison, and the form data it was given afterwards.

    @source core/time-comparison/getComparisonInfo.ts 34-63 getComparisonInfo *)
Definition getComparisonInfo (formData : jsobj) (timeComparison : string) (extraFormData : jsval)
    : result (jsobj * jsobj) :=
  let extra := JObj (oset "time_range" JUndef (object_entries extraFormData)) in
  if bool_decide (timeComparison = "c") then
    Ok (oset "extra_form_data" extra (oset "adhoc_filters" (ofield "adhoc_custom" formData) formData), formData)
  else
    filters ← getComparisonFilters formData extraFormData;
    Ok (oset "extra_form_data" extra
          (oset "adhoc_filters" (JArr (filters : list jsval * jsobj).1) formData), filters.2).

(** ** Offsets in days *)

(** [Math.round(x)]; minus zero comes out as zero, which reads the same. *)
Definition math_round (x : jsnum) : jsnum :=
  match x with
  | S754_finite neg m e =>
      if (0 <=? e)%Z then x
      else num_of_Z ((2 * (if neg then Z.neg m else Z.pos m) + 2 ^ (- e)) / (2 * 2 ^ (- e)))
  | _ => x
  end.

(** @source core/time-comparison/getTimeOffset.ts 23-23 DAY_IN_MS *)
Definition DAY_IN_MS : jsnum := num_of_Z (24 * 60 * 60 * 1000).

Definition num_truthy (x : jsnum) : bool := truthy (JNum x).

(** [a && b && Math.round((from - to) / DAY_IN_MS)] *)
Definition days_between (a b from to : jsnum) : jsnum :=
  if num_truthy a then
    if num_truthy b then math_round (num_div (num_sub from to) DAY_IN_MS) else b
  else a.

Definition days_after (days : jsnum) : string := num_to_string (num_mul days (num_of_Z (-1))) +:+ " days after".
Definition days_ago (days : jsnum) : string := num_to_string days +:+ " days ago".

(** The text of a shift: a custom one is the number of days from its start to
    that of the range, an inherited one the length of the range.

    @source core/time-comparison/getTimeOffset.ts 282-314 getTimeOffset (shift) *)
Definition shift_text (includeFutureOffsets : bool) (customStart : option jsnum) (filterStart filterEnd : jsnum)
    (shift : string) : string :=
  let zero := num_of_Z 0 in
  if bool_decide (shift = "custom") then
    match (λ start, days_between start filterStart filterStart start) <$> customStart with
    | Some days =>
        if isNaN days then shift
        else if includeFutureOffsets && num_ltb days zero then days_after days
        else if num_leb zero days && num_truthy filterStart then days_ago days
        else shift
    | None => shift
    end
  else if bool_decide (shift = "inherit") then
    let days := days_between filterEnd filterStart filterEnd filterStart in
    if num_truthy days then
      if includeFutureOffsets && num_ltb days zero then days_after days
      else if num_ltb zero days then days_ago days else shift
    else shift
  else shift.

(** The times of the custom start, and of the ends of the range, are read from
    dates before; a shift that cannot be computed is left out.

    @source core/time-comparison/getTimeOffset.ts 292-318 getTimeOffset (offsets) *)
Definition offsets_of (includeFutureOffsets : bool) (customStart : option jsnum) (filterStart filterEnd : jsnum)
    (shifts : list string) : list string :=
  filter (λ s, s ≠ "custom" ∧ s ≠ "inherit")
    (shift_text includeFutureOffsets customStart filterStart filterEnd <$> shifts).
