(* ===== verification/TimeRangeFacts.v ===== *)
(** * Writing and reading custom time ranges

    What the dialog writes for a range it reads back as that range. *)

From Stdlib Require Import SpecFloat ZArith Ascii String Lia.
From stdpp Require Import base strings option numbers list.
From S2P Require Import Prelude JsObject JsNumber JsNumberFacts JsValue Query AdhocFilter TimeRange.

(** ** Splitting at the separator *)

(** No separator begins in the text, whatever follows it. *)
Fixpoint sep_free (s : string) : bool :=
  match s with
  | EmptyString => true
  | String c r =>
      negb (is_char " " c && match r with String d _ => is_char ":" d | EmptyString => true end) && sep_free r
  end.

Lemma sep_free_app s t : sep_free s = true → sep_free t = true → sep_free (s +:+ t) = true.
Proof.
  intros Hs Ht. induction s as [|c s IH]; [done|].
  change (String c s +:+ t) with (String c (s +:+ t)). cbn [sep_free] in *.
  apply andb_true_iff in Hs as [Hc Hs]. rewrite IH, andb_true_r by done.
  destruct s as [|d s]; [|exact Hc]. rewrite andb_true_r in Hc.
  apply negb_true_iff in Hc. by rewrite Hc.
Qed.

Lemma sep_free_chars s : all_chars (λ c, negb (is_char " " c)) s = true → sep_free s = true.
Proof.
  induction s as [|c s IH]; [done|]. simpl. intros [Hc Hs]%andb_true_iff.
  apply negb_true_iff in Hc. by rewrite Hc, IH.
Qed.

Lemma split_go_free f s t cur :
  sep_free s = true → String.length s ≤ f →
  split_go f SEPARATOR (s +:+ SEPARATOR +:+ t) cur =
  split_go (f - String.length s) SEPARATOR (SEPARATOR +:+ t) (string_rev_app s cur).
Proof.
  revert f cur. induction s as [|c s IH]; intros f cur Hs Hf; [simpl; by rewrite Nat.sub_0_r|].
  destruct f as [|f]; [simpl in Hf; lia|]. cbn [sep_free] in Hs. apply andb_true_iff in Hs as [Hc Hs].
  change (String c s +:+ SEPARATOR +:+ t) with (String c (s +:+ SEPARATOR +:+ t)). cbn [split_go String.length].
  assert (strip_prefix SEPARATOR (String c (s +:+ SEPARATOR +:+ t)) = None) as ->.
  { change (strip_prefix SEPARATOR (String c (s +:+ SEPARATOR +:+ t))) with
      (if decide (" "%char = c) then strip_prefix ": " (s +:+ SEPARATOR +:+ t) else None).
    case_decide as Hsp; [|done]. subst c. destruct s as [|d s]; [done|].
    change (String d s +:+ SEPARATOR +:+ t) with (String d (s +:+ SEPARATOR +:+ t)).
    change (strip_prefix ": " (String d (s +:+ SEPARATOR +:+ t))) with
      (if decide (":"%char = d) then strip_prefix " " (s +:+ SEPARATOR +:+ t) else None).
    case_decide as Hcol; [|done]. by subst d. }
  apply IH; [done|]. simpl in Hf. lia.
Qed.

Lemma split_go_last f s cur :
  sep_free s = true → String.length s ≤ f → split_go f SEPARATOR s cur = [string_rev_app (string_rev_app s cur) EmptyString].
Proof.
  revert f cur. induction s as [|c s IH]; intros f cur Hs Hf; [by destruct f|].
  destruct f as [|f]; [simpl in Hf; lia|]. cbn [sep_free] in Hs. apply andb_true_iff in Hs as [Hc Hs].
  cbn [split_go].
  assert (strip_prefix SEPARATOR (String c s) = None) as ->.
  { change (strip_prefix SEPARATOR (String c s)) with
      (if decide (" "%char = c) then strip_prefix ": " s else None).
    case_decide as Hsp; [|done]. subst c. destruct s as [|d s]; [done|].
    change (strip_prefix ": " (String d s)) with (if decide (":"%char = d) then strip_prefix " " s else None).
    case_decide as Hcol; [|done]. by subst d. }
  apply IH; [done|]. simpl in Hf. lia.
Qed.

Lemma split_two s t :
  sep_free s = true → sep_free t = true → split SEPARATOR (s +:+ SEPARATOR +:+ t) = [s; t].
Proof.
  intros Hs Ht. unfold split. rewrite !string_length_app. change (String.length SEPARATOR) with 3.
  rewrite split_go_free by (try done; lia).
  replace (S (String.length s + (3 + String.length t)) - String.length s) with (S (3 + String.length t)) by lia.
  remember (3 + String.length t) as f eqn:Hf. cbn [split_go]. rewrite strip_prefix_app, string_rev_app_twice.
  rewrite split_go_last by (try done; lia). by rewrite string_rev_app_twice.
Qed.

(** ** What the expressions match *)

(** A text that cannot continue a date or a number. *)
Definition ends_token (t : string) : Prop :=
  match t with
  | EmptyString => True
  | String c _ => is_digit c = false ∧ c ≠ "."%char ∧ c ≠ "+"%char ∧ c ≠ "-"%char ∧ upper_char c ≠ "Z"%char
  end.

Lemma match_chars_app ps s r t : match_chars ps s = Some r → match_chars ps (s +:+ t) = Some (r +:+ t).
Proof.
  revert s. induction ps as [|p ps IH]; intros s Hs; [by injection Hs as ->|].
  destruct s as [|c s]; [done|]. change (String c s +:+ t) with (String c (s +:+ t)). cbn [match_chars] in *.
  destruct (p c); [by apply IH|done].
Qed.

Lemma skip_digits_app s t : ends_token t → skip_digits s = EmptyString → skip_digits (s +:+ t) = t.
Proof.
  intros Ht. induction s as [|c s IH].
  - intros _. destruct t as [|c t]; [done|]. destruct Ht as [Hc _].
    change (skip_digits (String c t) = String c t). simpl. by rewrite Hc.
  - change (String c s +:+ t) with (String c (s +:+ t)). cbn [skip_digits]. destruct (is_digit c); [apply IH|done].
Qed.

Lemma skip_digits_all s : all_chars is_digit s = true → skip_digits s = EmptyString.
Proof. induction s as [|c s IH]; [done|]. simpl. intros [-> Hs]%andb_true_iff. by apply IH. Qed.

Lemma skip_digits_more s r t :
  ends_token t → skip_digits s = r → skip_digits (s +:+ t) = r +:+ t.
Proof.
  intros Ht <-. induction s as [|c s IH]; [by apply (skip_digits_app EmptyString)|].
  change (String c s +:+ t) with (String c (s +:+ t)). cbn [skip_digits]. by destruct (is_digit c).
Qed.

Lemma fraction_rest_app s t : ends_token t → fraction_rest (s +:+ t) = fraction_rest s +:+ t.
Proof.
  intros Ht. destruct s as [|c s].
  - destruct t as [|c t]; [done|]. destruct Ht as (_ & Hc & _).
    change (EmptyString +:+ String c t) with (String c t). unfold fraction_rest. by repeat (case_match; try done).
  - change (String c s +:+ t) with (String c (s +:+ t)).
    destruct (decide (c = "."%char)) as [-> |Hc].
    + destruct s as [|d s].
      * change (fraction_rest (String "." t) = String "." t). destruct t as [|d t]; [done|].
        destruct Ht as [Hd _]. simpl. by rewrite Hd.
      * change (String "." (String d s +:+ t)) with (String "." (String d (s +:+ t))). cbn [fraction_rest].
        destruct (is_digit d); [by apply skip_digits_more|done].
    + unfold fraction_rest. by repeat (case_match; try done).
Qed.

Lemma zone_rest_app s t : ends_token t → zone_rest s = EmptyString → zone_rest (s +:+ t) = t.
Proof.
  intros Ht Hs. destruct s as [|c s].
  - destruct t as [|c t]; [done|]. destruct Ht as (_ & _ & Hp & Hm & Hz).
    change (zone_rest (String c t) = String c t). unfold zone_rest, is_char.
    by rewrite !bool_decide_eq_false_2 by done.
  - change (String c s +:+ t) with (String c (s +:+ t)). unfold zone_rest in *.
    destruct (is_char "Z" (upper_char c)); [by subst s|].
    destruct (is_char "+" c || is_char "-" c); [|done].
    destruct (match_chars zone_classes s) as [r|] eqn:E; [|done]. simpl in Hs. subst r.
    by rewrite (match_chars_app _ _ _ _ E).
Qed.

Lemma iso8601_rest_app s t :
  ends_token t → iso8601_rest s = Some EmptyString → iso8601_rest (s +:+ t) = Some t.
Proof.
  intros Ht Hs. unfold iso8601_rest in *. apply bind_Some in Hs as (r & Hr & Hz). injection Hz as Hz.
  rewrite (match_chars_app _ _ _ _ Hr). simpl. f_equal. rewrite fraction_rest_app by done. by apply zone_rest_app.
Qed.

Lemma upper_char_idemp_match a b : upper_char a = upper_char b → bool_decide (upper_char a = upper_char b) = true.
Proof. apply bool_decide_eq_true_2. Qed.

Lemma strip_word_app w s : strip_word w (w +:+ s) = Some s.
Proof.
  induction w as [|c w IH]; [done|]. change (String c w +:+ s) with (String c (w +:+ s)). cbn [strip_word].
  by rewrite bool_decide_eq_true_2.
Qed.

Lemma captured_app s r : captured (s +:+ r) r = s.
Proof.
  unfold captured. rewrite string_length_app. replace (String.length s + String.length r - String.length r)
    with (String.length s) by lia. induction s as [|c s IH]; [by destruct r|].
  change (String c s +:+ r) with (String c (s +:+ r)). cbn [String.length string_take]. by rewrite IH.
Qed.

Lemma group_app m s r : m (s +:+ r) = Some r → group m (s +:+ r) = Some (s, r).
Proof. intros Hm. unfold group. rewrite Hm. simpl. by rewrite captured_app. Qed.

(** A date or a constant, as the dialog writes them. *)
Definition a_date (s : string) : Prop :=
  s = "now" ∨ s = "today" ∨ iso8601_rest s = Some EmptyString.

Lemma a_date_constant s : a_date s → iso8601_and_constant s = true.
Proof.
  intros [-> | [-> | Hs]]; [done|done|]. unfold iso8601_and_constant. by rewrite Hs, bool_decide_eq_true_2.
Qed.

Lemma a_date_rest s t : ends_token t → a_date s → datetime_rest (s +:+ t) = Some t.
Proof.
  intros Ht [-> | [-> | Hs]]; [done|done|]. unfold datetime_rest. by rewrite iso8601_rest_app.
Qed.

Lemma string_of_N_nonzero n : (0 < n)%N → ∃ c s, string_of_N n = String c s ∧ is_digit c = true ∧ c ≠ "0"%char.
Proof.
  intros Hn. unfold string_of_N.
  assert (∀ f m acc, (0 < m)%N → (m < 2 ^ N.of_nat f)%N →
    ∃ c s, N_digits f m acc = String c s ∧ is_digit c = true ∧ c ≠ "0"%char) as Hex.
  { induction f as [|f IH]; intros m acc Hm Hf; [simpl in Hf; lia|]. cbn [N_digits].
    rewrite Nat2N.inj_succ, N.pow_succ_r' in Hf. destruct (N.ltb_spec m 10) as [Hs|Hs].
    - eexists _, _. split; [reflexivity|]. rewrite N.mod_small by done. unfold is_digit.
      rewrite digit_value_char by done. split; [by apply bool_decide_eq_true|].
      unfold digit_char. intros Heq. apply (f_equal Ascii.N_of_ascii) in Heq.
      rewrite Ascii.N_ascii_embedding in Heq by lia. change (Ascii.N_of_ascii "0") with 48%N in Heq. lia.
    - apply IH; [apply N.div_str_pos; lia|apply N.Div0.div_lt_upper_bound; lia]. }
  apply Hex; [done|]. rewrite Nat2N.inj_succ, N.pow_succ_r'. pose proof (N_size_bound n). lia.
Qed.

Lemma no_sign c s : is_digit c = true → read_sign (String c s) = (false, String c s).
Proof.
  intros Hb%is_digit_bounds. assert (c ≠ "+"%char ∧ c ≠ "-"%char) as [H1 H2].
  { split; intros ->; vm_compute in Hb; naive_solver. }
  unfold read_sign. by repeat (case_match; try done).
Qed.

Lemma grain_value_N n t : ends_token t → (0 < n)%N → ∃ c s, string_of_N n +:+ t = String c s ∧ is_digit c = true ∧
  is_char "0" c = false ∧ skip_digits s = t.
Proof.
  intros Ht Hn. destruct (string_of_N_nonzero n Hn) as (c & s & Hs & Hc & H0).
  pose proof (string_of_N_digits n) as Hd. rewrite Hs in *. simpl in Hd. rewrite Hc in Hd.
  exists c, (s +:+ t). split; [done|]. split; [done|]. split; [by apply bool_decide_eq_false|].
  apply skip_digits_app; [done|]. by apply skip_digits_all.
Qed.

Lemma grain_value_rest_Z z t : ends_token t → z ≠ 0%Z → grain_value_rest (string_of_Z z +:+ t) = Some t.
Proof.
  intros Ht Hz. unfold string_of_Z. destruct (grain_value_N (Z.abs_N z) t Ht ltac:(lia)) as (c & s & Hs & Hc & H0 & Hsk).
  destruct (z <? 0)%Z.
  - change (String "-" (string_of_N (Z.abs_N z)) +:+ t) with (String "-" (string_of_N (Z.abs_N z) +:+ t)).
    rewrite Hs. unfold grain_value_rest. cbn [read_sign snd]. by rewrite Hc, H0, Hsk.
  - rewrite Hs. unfold grain_value_rest. rewrite no_sign by done. cbn [snd]. by rewrite Hc, H0, Hsk.
Qed.

Definition GRAINS : list string := ["second"; "minute"; "hour"; "day"; "week"; "month"; "quarter"; "year"].

Lemma grain_rest_app g t : g ∈ GRAINS → grain_rest (g +:+ t) = Some t.
Proof.
  unfold GRAINS. intros Hg. repeat (apply elem_of_cons in Hg as [-> |Hg]; [reflexivity|]).
  by apply elem_of_nil in Hg.
Qed.

Lemma ends_token_char c s : is_digit c = false → c ≠ "."%char → c ≠ "+"%char → c ≠ "-"%char →
  upper_char c ≠ "Z"%char → ends_token (String c s).
Proof. by intros. Qed.

Lemma custom_match_date_add dttm value z grain :
  a_date dttm → num_to_string value = string_of_Z z → z ≠ 0%Z → grain ∈ GRAINS →
  custom_match (date_add dttm value grain) = Some (dttm, string_of_Z z, grain).
Proof.
  intros Hd Hv Hz Hg. unfold date_add, custom_match. rewrite Hv, strip_word_app. cbn [mbind option_bind].
  rewrite group_app by (apply a_date_rest; [by vm_compute; naive_solver|done]). cbn [mbind option_bind snd fst].
  rewrite strip_word_app. cbn [mbind option_bind].
  change (match_chars [is_space] (" " +:+ string_of_Z z +:+ "," +:+ " " +:+ grain +:+ ")"))
    with (Some (string_of_Z z +:+ "," +:+ " " +:+ grain +:+ ")")). cbn [mbind option_bind].
  rewrite group_app by (apply grain_value_rest_Z; [by vm_compute; naive_solver|done]). cbn [mbind option_bind snd fst].
  change (strip_word "," ("," +:+ " " +:+ grain +:+ ")")) with (Some (" " +:+ grain +:+ ")")).
  cbn [mbind option_bind].
  change (match_chars [is_space] (" " +:+ grain +:+ ")")) with (Some (grain +:+ ")")). cbn [mbind option_bind].
  rewrite group_app by by apply grain_rest_app. done.
Qed.

(** ** The two ends of a range *)

Definition no_space (s : string) : bool := all_chars (λ c, negb (is_char " " c)) s.

Lemma match_chars_no_space ps s r :
  Forall (λ p : ascii → bool, p " "%char = false) ps → match_chars ps s = Some r → no_space r = true → no_space s = true.
Proof.
  intros Hps. revert s. induction Hps as [|p ps Hp Hps IH]; intros s Hs Hr; [by injection Hs as ->|].
  destruct s as [|c s]; [done|]. cbn [match_chars] in Hs. destruct (p c) eqn:Hc; [|done].
  unfold no_space in *. simpl. rewrite (IH s Hs Hr), andb_true_r. apply negb_true_iff, bool_decide_eq_false.
  intros <-. by rewrite Hp in Hc.
Qed.

Lemma skip_digits_no_space s : no_space (skip_digits s) = true → no_space s = true.
Proof.
  induction s as [|c s IH]; [done|]. cbn [skip_digits]. destruct (is_digit c) eqn:Hc; [|done].
  intros Hs. unfold no_space in *. simpl. rewrite IH, andb_true_r by done.
  apply negb_true_iff, bool_decide_eq_false. intros <-. done.
Qed.

Lemma fraction_no_space s : no_space (fraction_rest s) = true → no_space s = true.
Proof.
  unfold fraction_rest. repeat (case_match; try done). subst. intros Hr%skip_digits_no_space.
  unfold no_space in *. simpl. rewrite Hr, andb_true_r.
  match goal with Hd : is_digit ?c = true |- _ => rename Hd into Hdig end.
  apply negb_true_iff, bool_decide_eq_false. intros <-. done.
Qed.

Lemma zone_no_space s : zone_rest s = EmptyString → no_space s = true.
Proof.
  destruct s as [|c s]; [done|]. unfold zone_rest.
  destruct (is_char "Z" (upper_char c)) eqn:Hz.
  - intros ->. apply bool_decide_eq_true in Hz. unfold no_space. simpl. rewrite andb_true_r.
    apply negb_true_iff, bool_decide_eq_false. intros <-. done.
  - destruct (is_char "+" c || is_char "-" c) eqn:Hc; [|done].
    destruct (match_chars zone_classes s) as [r|] eqn:E; [|done]. simpl. intros ->.
    assert (no_space s = true) as Hs.
    { eapply match_chars_no_space; [|exact E|done]. repeat constructor. }
    unfold no_space in *. simpl. rewrite Hs, andb_true_r. apply negb_true_iff, bool_decide_eq_false. intros <-. done.
Qed.

Lemma a_date_sep_free s : a_date s → sep_free s = true.
Proof.
  intros [-> | [-> | Hs]]; [done|done|]. apply sep_free_chars. unfold iso8601_rest in Hs.
  apply bind_Some in Hs as (r & Hr & Hz). injection Hz as Hz.
  eapply match_chars_no_space; [|exact Hr|by apply fraction_no_space, zone_no_space]. repeat constructor.
Qed.

Lemma digits_sep_free z : sep_free (string_of_Z z) = true.
Proof.
  apply sep_free_chars. unfold string_of_Z.
  assert (all_chars (λ c, negb (is_char " " c)) (string_of_N (Z.abs_N z)) = true) as Hd.
  { eapply all_chars_impl, string_of_N_digits. intros c Hc. apply negb_true_iff, bool_decide_eq_false. by intros <-. }
  by destruct (z <? 0)%Z.
Qed.

Lemma sep_free_space s :
  sep_free s = true → match s with String c _ => is_char ":" c = false | EmptyString => False end →
  sep_free (" " +:+ s) = true.
Proof.
  intros Hs Hc. destruct s as [|c s]; [done|]. change (" " +:+ String c s) with (String " " (String c s)).
  cbn [sep_free] in *. by rewrite Hc.
Qed.

Lemma date_add_sep_free dttm value z grain :
  a_date dttm → num_to_string value = string_of_Z z → z ≠ 0%Z → grain ∈ GRAINS →
  sep_free (date_add dttm value grain) = true.
Proof.
  intros Hd Hv Hz Hg. unfold date_add. rewrite Hv.
  apply sep_free_app; [done|]. apply sep_free_app; [by apply a_date_sep_free|]. apply sep_free_app; [done|].
  apply sep_free_space.
  - apply sep_free_app; [apply digits_sep_free|]. apply sep_free_app; [done|].
    unfold GRAINS in Hg. repeat (apply elem_of_cons in Hg as [-> |Hg]; [reflexivity|]). by apply elem_of_nil in Hg.
  - unfold string_of_Z.
    destruct (string_of_N_nonzero (Z.abs_N z) ltac:(lia)) as (c & s & Hs & Hc & _).
    destruct (z <? 0)%Z; [done|]. rewrite Hs. change ((String c s) +:+ ?t) with (String c (s +:+ t)). cbv beta iota.
    apply bool_decide_eq_false. by intros <-.
Qed.

Lemma date_add_not_specific dttm value grain : iso8601_and_constant (date_add dttm value grain) = false.
Proof. reflexivity. Qed.

Lemma includes_middle p a b : includes p (a +:+ p +:+ b) = true.
Proof.
  induction a as [|c a IH].
  - change (EmptyString +:+ p +:+ b) with (p +:+ b). pose proof (starts_with_app p b) as Hs.
    destruct (p +:+ b); cbn [includes]; by rewrite Hs.
  - change (String c a +:+ p +:+ b) with (String c (a +:+ p +:+ b)). cbn [includes]. by rewrite IH, orb_true_r.
Qed.

(** ** The round trip *)

Lemma SFabs_num_of_Z z : (Z.abs z < 2 ^ 53)%Z → SFabs (num_of_Z z) = num_of_Z (Z.abs z).
Proof.
  intros Hz. destruct z as [|p|p]; [done| |].
  - destruct (num_of_Z_exact p Hz) as (m & Hm & _). simpl Z.abs. by rewrite Hm.
  - change (Z.neg p) with (- Z.pos p)%Z. rewrite num_of_Z_opp by done. simpl Z.abs.
    destruct (num_of_Z_exact p Hz) as (m & Hm & _). by rewrite Hm.
Qed.

(** The value of a grain that the dialog can have: a whole number but zero. *)
Definition whole (x : jsnum) : Prop := ∃ z, x = num_of_Z z ∧ z ≠ 0%Z ∧ (Z.abs z < 2 ^ 53)%Z.

Lemma whole_text x : whole x → ∃ z, num_to_string x = string_of_Z z ∧ z ≠ 0%Z ∧ parseInt (string_of_Z z) = x.
Proof.
  intros (z & -> & Hz & Hb). exists z. split; [by apply num_to_string_integer|]. split; [done|].
  pose proof (parseInt_string_of_Z z EmptyString I) as Hp. by rewrite string_app_nil_r in Hp.
Qed.

Lemma before_whole x : whole x → whole (before x) ∧ before (before x) = before x.
Proof.
  intros (z & -> & Hz & Hb). unfold before. rewrite SFabs_num_of_Z, <- num_of_Z_opp by lia.
  split; [exists (- Z.abs z)%Z; split; [done|lia]|].
  rewrite SFabs_num_of_Z by lia. rewrite <- num_of_Z_opp by lia. f_equal. lia.
Qed.

Section roundtrip.
Variables default_since default_until : string.
Variable dayjs_format : string → string.
Variables utc_second utc_day : string.

Abbreviation decode := (customTimeRangeDecode default_since default_until).
Abbreviation encode := (customTimeRangeEncode dayjs_format utc_second utc_day).
Abbreviation end_text := (end_text dayjs_format utc_second utc_day).
Abbreviation dttmToString := (dttmToString dayjs_format utc_second utc_day).

(** The text of a date, which the date library writes as it is. *)
Definition date_text (s : string) : Prop := iso8601_rest s = Some EmptyString ∧ dayjs_format s = s.

Definition end_ok (mode dttm grain : string) (value : jsnum) : Prop :=
  (mode = "specific" ∧ date_text (dttmToString dttm)) ∨ mode = "now" ∨ mode = "today" ∨
  (mode = "relative" ∧ grain ∈ GRAINS ∧ whole value).

(** What the controls of the dialog allow. *)
Definition range_ok (r : CustomRange) : Prop :=
  end_ok (sinceMode r) (sinceDatetime r) (sinceGrain r) (sinceGrainValue r) ∧
  end_ok (untilMode r) (untilDatetime r) (untilGrain r) (untilGrainValue r) ∧
  (sinceMode r = "relative" → untilMode r = "relative" → a_date (anchorValue r)).

(** The parts of a range that count, with the past of its start. *)
Definition reads_as (r r' : CustomRange) : Prop :=
  sinceMode r' = sinceMode r ∧ untilMode r' = untilMode r ∧
  (sinceMode r = "relative" → sinceGrain r' = sinceGrain r ∧ sinceGrainValue r' = before (sinceGrainValue r)) ∧
  (untilMode r = "relative" → untilGrain r' = untilGrain r ∧ untilGrainValue r' = untilGrainValue r) ∧
  (sinceMode r = "specific" → sinceDatetime r' = dttmToString (sinceDatetime r)) ∧
  (untilMode r = "specific" → untilDatetime r' = dttmToString (untilDatetime r)) ∧
  (sinceMode r = "relative" → untilMode r = "relative" → anchorValue r' = anchorValue r).

Lemma date_text_a_date s : date_text s → a_date s.
Proof. intros [? _]. by right; right. Qed.

Lemma date_text_mode s : date_text s → mode_of s = "specific".
Proof.
  intros [Hs _]. unfold mode_of. rewrite bool_decide_eq_false_2; [done|].
  intros Hin. repeat (apply elem_of_cons in Hin as [-> |Hin]; [done|]). by apply elem_of_nil in Hin.
Qed.

Lemma date_text_fixed s : date_text s → dttmToString s = s.
Proof.
  intros [Hs Hf]. unfold TimeRange.dttmToString. rewrite !bool_decide_eq_false_2; [done| |]; by intros ->.
Qed.

(** An end at a date or a constant: its text, and the mode the text stands for. *)
Lemma end_ok_cases mode dttm grain value :
  end_ok mode dttm grain value →
  (specific_mode mode = true ∧ mode ≠ "relative" ∧ a_date (end_text mode dttm) ∧ mode_of (end_text mode dttm) = mode ∧
   end_text mode (end_text mode dttm) = end_text mode dttm ∧
   (mode = "specific" → end_text mode dttm = dttmToString dttm)) ∨
  (mode = "relative" ∧ grain ∈ GRAINS ∧ whole value).
Proof.
  intros [[-> Hd]|[-> |[-> |Hr]]]; [left|left|left|by right].
  - split; [done|]. split; [done|]. unfold TimeRange.end_text. rewrite bool_decide_eq_true_2 by done.
    split; [by apply date_text_a_date|]. split; [by apply date_text_mode|]. split; [by apply date_text_fixed|done].
  - do 2 (split; [done|]). split; [by left|done].
  - do 2 (split; [done|]). split; [by right; left|done].
Qed.

Lemma encode_specific r :
  specific_mode (sinceMode r) = true → specific_mode (untilMode r) = true →
  encode r = end_text (sinceMode r) (sinceDatetime r) +:+ SEPARATOR +:+ end_text (untilMode r) (untilDatetime r).
Proof. intros Hs Hu. unfold customTimeRangeEncode. by rewrite Hs, Hu. Qed.

Lemma encode_until r :
  specific_mode (sinceMode r) = true → untilMode r = "relative" →
  encode r = end_text (sinceMode r) (sinceDatetime r) +:+ SEPARATOR +:+
             date_add (end_text (sinceMode r) (sinceDatetime r)) (untilGrainValue r) (untilGrain r).
Proof. intros Hs Hu. unfold customTimeRangeEncode. by rewrite Hs, Hu. Qed.

Lemma encode_since r :
  sinceMode r = "relative" → specific_mode (untilMode r) = true →
  encode r = date_add (end_text (untilMode r) (untilDatetime r)) (before (sinceGrainValue r)) (sinceGrain r) +:+
             SEPARATOR +:+ end_text (untilMode r) (untilDatetime r).
Proof. intros Hs Hu. unfold customTimeRangeEncode. by rewrite Hs, Hu. Qed.

Lemma encode_both r :
  sinceMode r = "relative" → untilMode r = "relative" →
  encode r = date_add (anchorValue r) (before (sinceGrainValue r)) (sinceGrain r) +:+ SEPARATOR +:+
             date_add (anchorValue r) (untilGrainValue r) (untilGrain r).
Proof. intros Hs Hu. unfold customTimeRangeEncode. by rewrite Hs, Hu. Qed.

Lemma includes_date_add dttm value grain : includes dttm (date_add dttm value grain) = true.
Proof. apply includes_middle. Qed.
End roundtrip.

(** What a text of two ends decodes to. *)
Section decode.
Variables default_since default_until : string.
Abbreviation decode := (customTimeRangeDecode default_since default_until).

Lemma decode_specific s u :
  a_date s → a_date u → decode (s +:+ SEPARATOR +:+ u) = (specific_range s u, true).
Proof.
  intros Hs Hu. unfold customTimeRangeDecode. rewrite split_two by by apply a_date_sep_free.
  by rewrite !a_date_constant.
Qed.

Lemma decode_until s value z grain :
  a_date s → num_to_string value = string_of_Z z → z ≠ 0%Z → grain ∈ GRAINS →
  decode (s +:+ SEPARATOR +:+ date_add s value grain) = (relative_until s s (string_of_Z z) grain, true).
Proof.
  intros Hs Hv Hz Hg. unfold customTimeRangeDecode.
  rewrite split_two by (first [by apply a_date_sep_free|by eapply date_add_sep_free]).
  rewrite date_add_not_specific, a_date_constant, includes_date_add by done.
  by rewrite (custom_match_date_add s value z grain).
Qed.

Lemma decode_since u value z grain :
  a_date u → num_to_string value = string_of_Z z → z ≠ 0%Z → grain ∈ GRAINS →
  decode (date_add u value grain +:+ SEPARATOR +:+ u) = (relative_since u (string_of_Z z) grain u, true).
Proof.
  intros Hu Hv Hz Hg. unfold customTimeRangeDecode.
  rewrite split_two by (first [by apply a_date_sep_free|by eapply date_add_sep_free]).
  rewrite date_add_not_specific, a_date_constant, includes_date_add by done.
  by rewrite (custom_match_date_add u value z grain).
Qed.

Lemma decode_both a value z grain value' z' grain' :
  a_date a → num_to_string value = string_of_Z z → z ≠ 0%Z → grain ∈ GRAINS →
  num_to_string value' = string_of_Z z' → z' ≠ 0%Z → grain' ∈ GRAINS →
  decode (date_add a value grain +:+ SEPARATOR +:+ date_add a value' grain') =
  (relative_both (a, string_of_Z z, grain) (a, string_of_Z z', grain'), true).
Proof.
  intros Ha Hv Hz Hg Hv' Hz' Hg'. unfold customTimeRangeDecode.
  rewrite split_two by by eapply date_add_sep_free.
  rewrite !date_add_not_specific. cbn [andb].
  rewrite (custom_match_date_add a value z grain), (custom_match_date_add a value' z' grain') by done.
  by rewrite bool_decide_eq_true_2.
Qed.
End decode.

(** Each part of the decoded range is one of the given range. *)
#[local] Ltac reads := unfold reads_as; simpl; repeat split; intros; first [done|congruence|auto].

Section theorem.
Variables default_since default_until : string.
Variable dayjs_format : string → string.
Variables utc_second utc_day : string.

(** C12. The dialog for custom ranges reads back what it writes.  For every
    range its controls allow, the text is recognised, and decodes to a range
    with the same modes, dates, constants, anchor and grains, the same value
    after the end, and the value before the start as a negative number; writing
    that range again gives the same text. *)
Theorem custom_range_roundtrip r :
  range_ok dayjs_format utc_second utc_day r →
  ∃ r', customTimeRangeDecode default_since default_until
          (customTimeRangeEncode dayjs_format utc_second utc_day r) = (r', true) ∧
        reads_as dayjs_format utc_second utc_day r r' ∧
        customTimeRangeEncode dayjs_format utc_second utc_day r' =
        customTimeRangeEncode dayjs_format utc_second utc_day r.
Proof.
  intros (Hs & Hu & Ha).
  apply end_ok_cases in Hs as [(Hsm & Hsr & Hsd & Hmode & Hagain & Hsdate)|(Hsm & Hsg & Hsv)];
  apply end_ok_cases in Hu as [(Hum & Hur & Hud & Humode & Huagain & Hudate)|(Hum & Hug & Huv)].
  - rewrite (encode_specific _ _ _ r), decode_specific by done. eexists. split; [reflexivity|].
    split; [reads|].
    rewrite encode_specific by by (simpl; rewrite ?Hmode, ?Humode). simpl. by rewrite Hmode, Humode, Hagain, Huagain.
  - destruct (whole_text _ Huv) as (z & Hz & Hz0 & Hp).
    rewrite (encode_until _ _ _ r), (decode_until _ _ _ _ z) by done. eexists. split; [reflexivity|].
    split; [reads|].
    rewrite encode_until by by (simpl; rewrite ?Hmode). simpl. by rewrite Hmode, Hagain, Hp.
  - destruct (before_whole _ Hsv) as [Hbw Hbb]. destruct (whole_text _ Hbw) as (z & Hz & Hz0 & Hp).
    rewrite (encode_since _ _ _ r), (decode_since _ _ _ _ z) by done. eexists. split; [reflexivity|].
    split; [reads|].
    rewrite encode_since by by (simpl; rewrite ?Humode). simpl. by rewrite Humode, Huagain, Hp, Hbb.
  - destruct (before_whole _ Hsv) as [Hbw Hbb]. destruct (whole_text _ Hbw) as (z & Hz & Hz0 & Hp).
    destruct (whole_text _ Huv) as (z' & Hz' & Hz0' & Hp'). specialize (Ha Hsm Hum).
    rewrite (encode_both _ _ _ r), (decode_both _ _ _ _ z _ _ z') by done. eexists. split; [reflexivity|].
    split; [reads|].
    rewrite encode_both by done. simpl. by rewrite Hp, Hp', Hbb.
Qed.
End theorem.

(** A week before a date up to the next month after it, then the default dialog. *)
Definition some_range : CustomRange :=
  {| sinceMode := "relative"; sinceDatetime := "2021-01-27T00:00:00"; sinceGrain := "day";
     sinceGrainValue := num_of_Z 7;
     untilMode := "relative"; untilDatetime := "2021-01-27T00:00:00"; untilGrain := "month";
     untilGrainValue := num_of_Z 1; anchorMode := "specific"; anchorValue := "2021-01-27T00:00:00" |}.

Example some_range_text :
  customTimeRangeEncode id "2021-01-27T12:30:01" "2021-01-27T00:00:00" some_range =
  "DATEADD(DATETIME(" +:+ quote +:+ "2021-01-27T00:00:00" +:+ quote +:+ "), -7, day) : DATEADD(DATETIME(" +:+
  quote +:+ "2021-01-27T00:00:00" +:+ quote +:+ "), 1, month)".
Proof. vm_compute. reflexivity. Qed.

Lemma custom_range_roundtrip_witness :
  (∃ r', customTimeRangeDecode EmptyString EmptyString
     (customTimeRangeEncode id "2021-01-27T12:30:01" "2021-01-27T00:00:00" some_range) = (r', true) ∧
     sinceGrainValue r' = num_of_Z (-7) ∧ untilGrain r' = "month") ∧
  (∃ r', customTimeRangeDecode EmptyString EmptyString
     (customTimeRangeEncode id "2021-01-27T12:30:01" "2021-01-27T00:00:00"
        (defaultCustomRange EmptyString "2021-01-27T00:00:00")) = (r', true) ∧
     untilDatetime r' = "2021-01-27T00:00:00").
Proof.
  split.
  - destruct (custom_range_roundtrip EmptyString EmptyString id "2021-01-27T12:30:01" "2021-01-27T00:00:00" some_range)
      as (r' & Hd & (_ & _ & Hs & Hu & _) & _).
    + split; [|split].
      * right. right. right. split; [reflexivity|]. split; [apply (bool_decide_unpack _); vm_compute; exact I|].
        exists 7%Z. split; [reflexivity|]. lia.
      * right. right. right. split; [reflexivity|]. split; [apply (bool_decide_unpack _); vm_compute; exact I|].
        exists 1%Z. split; [reflexivity|]. lia.
      * intros _ _. right. right. vm_compute. reflexivity.
    + exists r'. split; [exact Hd|]. split.
      * destruct (Hs eq_refl) as [_ Hv]. rewrite Hv. vm_compute. reflexivity.
      * exact (proj1 (Hu eq_refl)).
  - destruct (custom_range_roundtrip EmptyString EmptyString id "2021-01-27T12:30:01" "2021-01-27T00:00:00"
      (defaultCustomRange EmptyString "2021-01-27T00:00:00")) as (r' & Hd & (_ & _ & _ & _ & _ & Hu & _) & _).
    + split; [|split].
      * right. right. right. split; [reflexivity|]. split; [apply (bool_decide_unpack _); vm_compute; exact I|].
        exists (-7)%Z. split; [reflexivity|]. lia.
      * left. split; [reflexivity|]. split; vm_compute; reflexivity.
      * discriminate.
    + exists r'. split; [exact Hd|]. rewrite (Hu eq_refl). vm_compute. reflexivity.
Defined.

(** Words are matched in either case, but taken as they are: a constant in
    capitals becomes a date, and a grain in capitals none the dialog knows. *)
Example capital_constant :
  sinceMode (customTimeRangeDecode EmptyString EmptyString "NOW : 2021-01-27T00:00:00").1 = "specific".
Proof. vm_compute. reflexivity. Qed.
