(* ===== verification/AdhocMetric.v ===== *)
(** * Metrics that users write

    An instance of [AdhocMetric] is a column with an aggregate, or a piece of
    SQL.  When a metric in SQL becomes simple again, the column and the
    aggregate are read from the SQL, if it looks like one that was generated.

    An instance is an object with the fields that its constructor sets; the
    random name of a new metric is an argument.  Texts that the regular
    expressions of the source accept are described by functions. *)

From Stdlib Require Import Ascii String.
From stdpp Require Import base strings option numbers list.
From S2P Require Import Prelude JsObject JsNumber JsValue JsJson QueryTypes AdhocFilter.

(** ** Text *)

(** [s.indexOf(c)] and [s.lastIndexOf(c)] for a character, [None] for -1. *)
Fixpoint index_of (c : ascii) (s : string) : option nat :=
  match s with
  | EmptyString => None
  | String d s => if decide (d = c) then Some 0 else S <$> index_of c s
  end.

Fixpoint last_index_of (c : ascii) (s : string) : option nat :=
  match s with
  | EmptyString => None
  | String d s =>
      match last_index_of c s with
      | Some n => Some (S n)
      | None => if decide (d = c) then Some 0 else None
      end
  end.

(** [s.substring(i, j)] *)
Definition substring_between (i j : nat) (s : string) : string := string_drop i (string_take j s).

(** Letters in upper case, digits, underscores, points and double quotes, and a
    closing parenthesis at the end. *)
Definition name_char (c : ascii) : bool :=
  let n := N_of_ascii c in
  is_digit c || ((65 <=? n) && (n <=? 90))%N || bool_decide (c ∈ ["_"; "."; "034"]%char).

Fixpoint closing_name (s : string) : bool :=
  match s with
  | EmptyString => false
  | String ")"%char EmptyString => true
  | String c s => name_char c && closing_name s
  end.

(** The case of letters does not matter.

    @source app/explore/constants.ts 127-128 sqlaAutoGeneratedMetricRegex *)
Definition sqlaAutoGeneratedMetricRegex (s : string) : bool :=
  existsb (λ p, existsb (λ a,
    match strip_prefix (p +:+ a +:+ "(") (js_upper s) with
    | Some rest => closing_name rest
    | None => false
    end) ["SUM"; "AVG"; "MAX"; "MIN"; "COUNT"]) ["LONG"; "DOUBLE"; "FLOAT"; EmptyString].

(** [/^\(.*\)$/.test(s)]: no line break between the parentheses. *)
Definition in_parens (s : string) : bool :=
  match strip_prefix "(" s, last_index_of ")" s with
  | Some _, Some n =>
      bool_decide (S n = String.length s ∧ 1 ≤ n) &&
      negb (existsb (λ b, includes b s) [String "010" EmptyString; String "013" EmptyString;
        String "226" (String "128" (String "168" EmptyString));
        String "226" (String "128" (String "169" EmptyString))])
  | _, _ => false
  end.

(** ** Reading a metric from its SQL *)

(** The SQL of a metric that looks like a generated one. *)
Definition generated_sql (adhocMetric : jsobj) : result (option string) :=
  let sql := ofield "sqlExpression" adhocMetric in
  if truthy sql && sqlaAutoGeneratedMetricRegex (to_string sql) then
    match sql with
    | JStr s => Ok (Some s)
    | _ => Throw (TypeError "substring is not a function")
    end
  else Ok None.

(** @source app/explore/components/controls/MetricControl/AdhocMetric.js 29-46 inferSqlExpressionColumn *)
Definition inferSqlExpressionColumn (adhocMetric : jsobj) : result jsval :=
  sql ← generated_sql adhocMetric;
  Ok match sql with
     | None => JNull
     | Some s =>
         match index_of ")" s with
         | Some indexFirstCloseParen =>
             match last_index_of "(" (string_take indexFirstCloseParen s) with
             | Some indexPairedOpenParen =>
                 if bool_decide (0 < indexFirstCloseParen ∧ 0 < indexPairedOpenParen)
                 then JStr (substring_between (S indexPairedOpenParen) indexFirstCloseParen s)
                 else JNull
             | None => JNull
             end
         | None => JNull
         end
     end.

(** @source app/explore/components/controls/MetricControl/AdhocMetric.js 48-59 inferSqlExpressionAggregate *)
Definition inferSqlExpressionAggregate (adhocMetric : jsobj) : result jsval :=
  sql ← generated_sql adhocMetric;
  Ok match sql with
     | None => JNull
     | Some s =>
         match index_of "(" s with
         | Some indexFirstOpenParen =>
             if bool_decide (0 < indexFirstOpenParen) then JStr (string_take indexFirstOpenParen s)
             else JNull
         | None => JNull
         end
     end.

(** ** The class *)

(** @source app/explore/components/controls/MetricControl/AdhocMetric.js 95-121 translateToSql *)
Definition metric_sql (this : jsobj) (useVerboseName transformCountDistinct : bool) : jsval :=
  let get k := ofield k this in
  if is_str (get "expressionType") "SIMPLE" then
    let aggregate := to_string (js_or (get "aggregate") (JStr EmptyString)) in
    let verbose := opt_field "verbose_name" (get "column") in
    let name := opt_field "column_name" (get "column") in
    let column :=
      if useVerboseName && truthy verbose then "(" +:+ to_string verbose +:+ ")"
      else if truthy name then "(" +:+ to_string name +:+ ")" else EmptyString in
    if transformCountDistinct && bool_decide (aggregate = "COUNT_DISTINCT") && in_parens column then
      JStr ("COUNT(DISTINCT " +:+ substring_between 1 (String.length column - 1) column +:+ ")")
    else JStr (aggregate +:+ column)
  else if is_str (get "expressionType") "SQL" then get "sqlExpression"
  else JStr EmptyString.

(** @source app/explore/components/controls/MetricControl/AdhocMetric.js 63-77 AdhocMetric (type-dependent fields) *)
Definition metric_fields (a : jsobj) : result jsobj :=
  let get k := ofield k a in
  let expressionType := js_or (get "expressionType") (JStr "SIMPLE") in
  if is_str expressionType "SIMPLE" then
    inferredColumn ← inferSqlExpressionColumn a;
    inferredAggregate ← inferSqlExpressionAggregate a;
    let column :=
      js_or (get "column")
        (if truthy inferredColumn then JObj [("column_name", inferredColumn)] else inferredColumn) in
    Ok [("expressionType", expressionType); ("column", column);
        ("aggregate", js_or (get "aggregate") inferredAggregate); ("sqlExpression", JNull)]
  else if is_str expressionType "SQL" then
    Ok [("expressionType", expressionType); ("sqlExpression", get "sqlExpression");
        ("column", JNull); ("aggregate", JNull)]
  else Ok [("expressionType", expressionType)].

(** @source app/explore/components/controls/MetricControl/AdhocMetric.js 62-93 AdhocMetric *)
Definition new_AdhocMetric (random : string) (a : jsobj) : result jsobj :=
  let get k := ofield k a in
  fields ← metric_fields a;
  let hasCustomLabel := truthy (get "hasCustomLabel") && truthy (get "label") in
  Ok (fields ++
      [("datasourceWarning", JBool (truthy (get "datasourceWarning")));
       ("hasCustomLabel", JBool hasCustomLabel);
       ("label", if hasCustomLabel then get "label" else metric_sql fields true false);
       ("optionName", js_or (get "optionName") (JStr random))]).

(** @source app/explore/components/controls/MetricControl/AdhocMetric.js 123-128 duplicateWith *)
Definition metric_duplicateWith (random : string) (this nextFields : jsobj) : result jsobj :=
  new_AdhocMetric random (ospread this nextFields).

(** The name of the column; a missing column stands for itself. *)
Definition column_of (m : jsobj) : jsval :=
  let column := ofield "column" m in
  if truthy column then opt_field "column_name" column else column.

(** @source app/explore/components/controls/MetricControl/AdhocMetric.js 130-139 equals *)
Definition metric_equals (this adhocMetric : jsobj) : bool :=
  let same k := strict_eq (ofield k adhocMetric) (ofield k this) in
  same "label" && same "expressionType" && same "sqlExpression" && same "aggregate" &&
  strict_eq (column_of adhocMetric) (column_of this).

(** @source app/explore/components/controls/MetricControl/AdhocMetric.js 141-149 isValid *)
Definition metric_isValid (this : jsobj) : bool :=
  let get k := ofield k this in
  if is_str (get "expressionType") "SIMPLE" then truthy (get "column") && truthy (get "aggregate")
  else if is_str (get "expressionType") "SQL" then truthy (get "sqlExpression")
  else false.

(** ** Laws of text *)

Lemma js_upper_app s r : js_upper (s +:+ r) = js_upper s +:+ js_upper r.
Proof. induction s as [|c s IH]; [done|]. rewrite append_cons. cbn [js_upper]. by rewrite IH, append_cons. Qed.

Lemma string_take_app s r : string_take (String.length s) (s +:+ r) = s.
Proof. induction s as [|c s IH]; [by destruct r|]. rewrite append_cons. cbn. by rewrite IH. Qed.

Lemma string_drop_app s r : string_drop (String.length s) (s +:+ r) = r.
Proof. induction s as [|c s IH]; [by destruct r|]. rewrite append_cons. cbn. by rewrite IH. Qed.

(** A character that the text does not have. *)
Definition avoids (c : ascii) : string → bool := all_chars (λ d, bool_decide (d ≠ c)).

Lemma avoids_cons c d s : avoids c (String d s) = true ↔ d ≠ c ∧ avoids c s = true.
Proof. unfold avoids. cbn [all_chars]. by rewrite andb_true_iff, bool_decide_eq_true. Qed.

Lemma index_of_app c s r : avoids c s = true → index_of c (s +:+ String c r) = Some (String.length s).
Proof.
  induction s as [|d s IH]; intros Hs; [rewrite append_empty_l; cbn [index_of]; by rewrite decide_True|].
  apply avoids_cons in Hs as [Hd Hs]. rewrite append_cons. cbn [index_of String.length].
  rewrite decide_False by done. by rewrite IH.
Qed.

Lemma last_index_of_avoids c s : avoids c s = true → last_index_of c s = None.
Proof.
  induction s as [|d s IH]; [done|]. intros [Hd Hs]%avoids_cons. cbn [last_index_of]. rewrite IH by done.
  by rewrite decide_False.
Qed.

Lemma last_index_of_app c s r :
  avoids c r = true → last_index_of c (s +:+ String c r) = Some (String.length s).
Proof.
  intros Hr. induction s as [|d s IH].
  - rewrite append_empty_l. cbn [last_index_of]. rewrite last_index_of_avoids by done. by rewrite decide_True.
  - rewrite append_cons. cbn [last_index_of]. by rewrite IH.
Qed.

(** ** From a simple metric to SQL and back *)

(** A name that the generated SQL can be read back from. *)
Definition readable (name : string) : bool := all_chars (λ c, name_char (upper_char c)) name.

Lemma readable_cons c name : readable (String c name) = true → name_char (upper_char c) = true ∧ readable name = true.
Proof. unfold readable. cbn [all_chars]. apply andb_true_iff. Qed.

Lemma readable_avoids c name :
  readable name = true → name_char (upper_char c) = false → avoids c name = true.
Proof.
  intros Hn Hc. induction name as [|d name IH]; [done|]. apply readable_cons in Hn as [Hd Hn].
  apply avoids_cons. split; [|by apply IH]. intros ->. congruence.
Qed.

Lemma readable_closing name : readable name = true → closing_name (js_upper (name +:+ ")")) = true.
Proof.
  induction name as [|c name IH]; [done|]. intros [Hc Hn]%readable_cons. rewrite append_cons.
  cbn [js_upper]. specialize (IH Hn). revert Hc. generalize (upper_char c) as d. intros d Hd.
  destruct (js_upper (name +:+ ")")) as [|e rest]; [done|].
  assert (closing_name (String d (String e rest)) = name_char d && closing_name (String e rest)) as ->.
  { by destruct d as [[] [] [] [] [] [] [] []]. }
  by rewrite Hd, IH.
Qed.

Definition simple_aggregates : list string := ["SUM"; "AVG"; "MAX"; "MIN"; "COUNT"].

Lemma generated_sql_read a name m :
  a ∈ simple_aggregates → readable name = true →
  ofield "sqlExpression" m = JStr (a +:+ "(" +:+ name +:+ ")") →
  generated_sql m = Ok (Some (a +:+ "(" +:+ name +:+ ")")).
Proof.
  intros Ha Hn Hm. unfold generated_sql. rewrite Hm. cbn [to_string].
  assert (sqlaAutoGeneratedMetricRegex (a +:+ "(" +:+ name +:+ ")") = true) as ->; [|].
  2: { unfold simple_aggregates in Ha. repeat (apply elem_of_cons in Ha as [->|Ha]; [done|]).
       by apply elem_of_nil in Ha. }
  unfold sqlaAutoGeneratedMetricRegex. apply existsb_exists. exists EmptyString.
  split; [by do 3 right; left|]. apply existsb_exists. exists a.
  split; [by apply list_elem_of_In|].
  assert (js_upper a = a) as Hu.
  { unfold simple_aggregates in Ha. repeat (apply elem_of_cons in Ha as [->|Ha]; [done|]).
    by apply elem_of_nil in Ha. }
  rewrite js_upper_app, Hu, append_empty_l, append_cons, append_empty_l. cbn [js_upper].
  change (String (upper_char "(") (js_upper (name +:+ ")"))) with ("(" +:+ js_upper (name +:+ ")")).
  rewrite string_app_assoc, strip_prefix_app. by apply readable_closing.
Qed.

(** The aggregates and names in the text. *)
Lemma read_generated a name m :
  a ∈ simple_aggregates → readable name = true →
  ofield "sqlExpression" m = JStr (a +:+ "(" +:+ name +:+ ")") →
  inferSqlExpressionColumn m = Ok (JStr name) ∧ inferSqlExpressionAggregate m = Ok (JStr a).
Proof.
  intros Ha Hn Hm. unfold inferSqlExpressionColumn, inferSqlExpressionAggregate.
  rewrite (generated_sql_read a name m Ha Hn Hm), !bind_Ok.
  assert (avoids ")" a = true ∧ avoids "(" a = true ∧ 0 < String.length a) as (Hc & Ho & Hl).
  { unfold simple_aggregates in Ha. repeat (apply elem_of_cons in Ha as [->|Ha];
      [split; [done|split; [done|cbn; lia]]|]). by apply elem_of_nil in Ha. }
  pose proof (readable_avoids ")" name Hn eq_refl) as Hnc.
  pose proof (readable_avoids "(" name Hn eq_refl) as Hno.
  rewrite append_cons, append_empty_l. split.
  - set (s := a +:+ String "(" name).
    assert (a +:+ String "(" (name +:+ ")") = s +:+ String ")" EmptyString) as ->.
    { unfold s. by rewrite <- string_app_assoc, append_cons. }
    assert (avoids ")" s = true) as Hs.
    { unfold s. clear -Hc Hnc. induction a as [|d a IH]; [rewrite append_empty_l; by apply avoids_cons|].
      apply avoids_cons in Hc as [Hd Hc]. rewrite append_cons. apply avoids_cons. auto. }
    rewrite index_of_app by done. rewrite string_take_app. unfold s at 1. rewrite last_index_of_app by done.
    rewrite bool_decide_eq_true_2 by (unfold s; rewrite string_length_app; cbn; lia).
    unfold substring_between. rewrite string_take_app. unfold s.
    replace (S (String.length a)) with (String.length (a +:+ "(")) by (rewrite string_length_app; cbn; lia).
    replace (a +:+ String "(" name) with ((a +:+ "(") +:+ name) by (by rewrite <- string_app_assoc).
    by rewrite string_drop_app.
  - rewrite index_of_app by done. rewrite bool_decide_eq_true_2 by done. by rewrite string_take_app.
Qed.

(** The name that stands for a column in a text: its verbose name, where that is
    asked for and the column has one, or its name. *)
Definition shown_name (useVerboseName : bool) (column : jsobj) (name : string) : string :=
  if useVerboseName && truthy (ofield "verbose_name" column) then to_string (ofield "verbose_name" column)
  else name.

Lemma aggregate_truthy a : a ∈ simple_aggregates → truthy (JStr a) = true.
Proof.
  intros Ha. unfold simple_aggregates in Ha.
  repeat (apply elem_of_cons in Ha as [->|Ha]; [done|]). by apply elem_of_nil in Ha.
Qed.

Lemma js_or_truthy v w : truthy v = true → js_or v w = v.
Proof. unfold js_or. by intros ->. Qed.

Lemma simple_metric_sql f column name a v :
  a ∈ simple_aggregates → name ≠ EmptyString → ofield "column_name" column = JStr name →
  ofield "expressionType" f = JStr "SIMPLE" → ofield "aggregate" f = JStr a →
  ofield "column" f = JObj column →
  metric_sql f v false = JStr (a +:+ "(" +:+ shown_name v column name +:+ ")").
Proof.
  intros Ha Hne Hname Hf Hfa Hfc. unfold metric_sql, shown_name. rewrite Hf, Hfa, Hfc. unfold js_or.
  rewrite (aggregate_truthy a Ha). cbn [andb is_str opt_field]. rewrite Hname.
  assert (truthy (JStr name) = true) as -> by (cbn; by apply bool_decide_eq_true_2).
  by destruct (v && truthy (ofield "verbose_name" column)).
Qed.

(** The instance of a simple metric without a label of its own. *)
Lemma new_simple_metric r i column name a ic ia :
  a ∈ simple_aggregates → name ≠ EmptyString → ofield "column_name" column = JStr name →
  ofield "expressionType" i = JStr "SIMPLE" →
  inferSqlExpressionColumn i = Ok ic → inferSqlExpressionAggregate i = Ok ia →
  js_or (ofield "column" i) (if truthy ic then JObj [("column_name", ic)] else ic) = JObj column →
  js_or (ofield "aggregate" i) ia = JStr a → truthy (ofield "hasCustomLabel" i) = false →
  new_AdhocMetric r i = Ok
    [("expressionType", JStr "SIMPLE"); ("column", JObj column); ("aggregate", JStr a);
     ("sqlExpression", JNull); ("datasourceWarning", JBool (truthy (ofield "datasourceWarning" i)));
     ("hasCustomLabel", JBool false); ("label", JStr (a +:+ "(" +:+ shown_name true column name +:+ ")"));
     ("optionName", js_or (ofield "optionName" i) (JStr r))].
Proof.
  intros Ha Hne Hc Ht Hic Hia Hcol Hagg Hlabel. unfold new_AdhocMetric, metric_fields. rewrite Ht.
  cbn [js_or truthy]. rewrite Hic, Hia, !bind_Ok, Hcol, Hagg, Hlabel. cbn [andb].
  change (js_or (JStr "SIMPLE") (JStr "SIMPLE")) with (JStr "SIMPLE").
  cbn [is_str strict_eq]. rewrite bool_decide_eq_true_2, bind_Ok by done.
  by rewrite (simple_metric_sql _ column name a).
Qed.

(** C35. Writing a simple metric as SQL and making it simple again gives the
    metric back, for a metric that has no label of its own, each aggregate but
    the count of distinct values, and every name of a column that has letters,
    digits, underscores, points and quotes only: the SQL is the aggregate of the
    name, and the name and the aggregate are read from it.  Of the column only
    the name comes back.  The generated label is the aggregate of the verbose
    name of the column where it has one, and of its name where it has none; in
    between and after it is the SQL, so that it is the same all along for a
    column without a verbose name. *)
Theorem metric_sql_roundtrip r r' r'' a name column m :
  a ∈ simple_aggregates → name ≠ EmptyString → readable name = true →
  ofield "column_name" column = JStr name →
  new_AdhocMetric r [("expressionType", JStr "SIMPLE"); ("column", JObj column); ("aggregate", JStr a)] = Ok m →
  let sql := JStr (a +:+ "(" +:+ name +:+ ")") in
  let verbose := ofield "verbose_name" column in
  ∃ m_sql m_simple,
    metric_sql m false false = sql ∧
    metric_duplicateWith r' m
      [("expressionType", JStr "SQL"); ("sqlExpression", metric_sql m false false)] = Ok m_sql ∧
    metric_duplicateWith r'' m_sql [("expressionType", JStr "SIMPLE")] = Ok m_simple ∧
    ofield "expressionType" m_simple = JStr "SIMPLE" ∧
    ofield "column" m_simple = JObj [("column_name", JStr name)] ∧
    ofield "aggregate" m_simple = JStr a ∧ metric_isValid m_simple = true ∧
    ofield "label" m_sql = sql ∧ ofield "label" m_simple = sql ∧
    ofield "label" m = if truthy verbose then JStr (a +:+ "(" +:+ to_string verbose +:+ ")") else sql.
Proof.
  intros Ha Hne Hn Hc Hm. cbv zeta. pose proof (aggregate_truthy a Ha) as Hat.
  rewrite (new_simple_metric r _ column name a JNull JNull) in Hm; [|done..|exact (js_or_truthy (JStr a) JNull Hat)|done].
  injection Hm as <-. rewrite (simple_metric_sql _ column name a) by done. cbn [shown_name andb].
  set (sql := a +:+ "(" +:+ name +:+ ")"). eexists. eexists. split; [reflexivity|]. split; [reflexivity|].
  match goal with |- metric_duplicateWith _ ?i _ = _ ∧ _ => set (m_sql := i) end.
  unfold metric_duplicateWith.
  destruct (read_generated a name (ospread m_sql [("expressionType", JStr "SIMPLE")]) Ha Hn eq_refl) as [Hic Hia].
  assert (truthy (JStr name) = true) as Hnt by (cbn; by apply bool_decide_eq_true_2).
  rewrite (new_simple_metric r'' _ [("column_name", JStr name)] name a (JStr name) (JStr a));
    [|done..|by rewrite Hnt|done|done].
  split; [reflexivity|]. repeat (split; [reflexivity|]). split; [exact Hat|].
  split; [reflexivity|]. split; [reflexivity|]. unfold ofield at 1. cbn [aget default].
  unfold shown_name. cbn [andb]. by destruct (truthy (ofield "verbose_name" column)).
Qed.

(** A column with a verbose name: the label changes, the metric does not. *)
Lemma metric_sql_roundtrip_witness :
  ∃ m m_sql m_simple,
    new_AdhocMetric "metric_1" [("expressionType", JStr "SIMPLE");
      ("column", JObj [("column_name", JStr "num_boys"); ("verbose_name", JStr "Boys")]);
      ("aggregate", JStr "SUM")] = Ok m ∧
    metric_duplicateWith "metric_2" m
      [("expressionType", JStr "SQL"); ("sqlExpression", metric_sql m false false)] = Ok m_sql ∧
    metric_duplicateWith "metric_3" m_sql [("expressionType", JStr "SIMPLE")] = Ok m_simple ∧
    ofield "label" m = JStr "SUM(Boys)" ∧ ofield "label" m_simple = JStr "SUM(num_boys)".
Proof.
  eexists. destruct (metric_sql_roundtrip "metric_1" "metric_2" "metric_3" "SUM" "num_boys"
    [("column_name", JStr "num_boys"); ("verbose_name", JStr "Boys")] _
    ltac:(by left) ltac:(done) eq_refl eq_refl eq_refl)
    as (m_sql & m_simple & _ & H1 & H2 & _ & _ & _ & _ & _ & H3 & H4).
  exists m_sql, m_simple. split; [reflexivity|]. split; [exact H1|]. split; [exact H2|].
  split; [exact H4|exact H3].
Defined.
