(* ===== verification/DashboardContext.v ===== *)
(** * A chart that is opened from a dashboard

    When a chart of a dashboard is opened in the chart editor, its own form data
    are merged with those it has on the dashboard:
    [app/explore/controlUtils/getFormDataWithDashboardContext.ts] adds the
    filters of the dashboard to the adhoc filters of the chart, without those
    that are there already, and marks them.

    Both form data are parsed from JSON.  The names of the new filters are
    random; [random n] is the name of the [n]-th filter that is made.  The source
    writes the overrides into the object [extras] of the form data of the
    dashboard; the result is the same as if it wrote to a copy. *)

From Stdlib Require Import Ascii String.
From stdpp Require Import base strings option numbers list.
From S2P Require Import Prelude JsObject JsNumber JsValue Lodash QueryTypes Query AdhocFilter.

Section context.
Context `{Lodash}.
Context (random : nat → string).

(** [{...v}] *)
Definition spread_of (v : jsval) : jsobj := object_entries v.

(** ** Duplicate filters *)

(** @source app/explore/controlUtils/getFormDataWithDashboardContext.ts 48-67 removeAdhocFilterDuplicates (existing filter) *)
Definition same_filter (adhocFilter existingFilter : jsval) : result bool :=
  let same k := strict_eq (opt_field k existingFilter) (opt_field k adhocFilter) in
  free ← isFreeFormAdhocFilter existingFilter;
  free ← if (free : bool) then isFreeFormAdhocFilter adhocFilter else Ok false;
  if (free : bool) && same "clause" && same "sqlExpression" then Ok true
  else
    simple ← isSimpleAdhocFilter existingFilter;
    simple ← if (simple : bool) then isSimpleAdhocFilter adhocFilter else Ok false;
    let has f := ahas "comparator" (object_entries f) in
    Ok ((simple : bool) && same "operator" && same "subject" &&
        ((negb (has existingFilter) && negb (has adhocFilter)) ||
         (has existingFilter && has adhocFilter &&
          isEqual (opt_field "comparator" existingFilter) (opt_field "comparator" adhocFilter)))).

(** [existingFilters.some(...)] *)
Fixpoint isDuplicate (adhocFilter : jsval) (existingFilters : list jsval) : result bool :=
  match existingFilters with
  | [] => Ok false
  | existing :: existingFilters =>
      same ← same_filter adhocFilter existing;
      if (same : bool) then Ok true else isDuplicate adhocFilter existingFilters
  end.

(** @source app/explore/controlUtils/getFormDataWithDashboardContext.ts 47-75 removeAdhocFilterDuplicates *)
Definition removeAdhocFilterDuplicates (filters : list jsval) : result (list jsval) :=
  fold_result (λ acc filter,
    duplicate ← isDuplicate filter acc;
    Ok (if (duplicate : bool) then acc else acc ++ [filter])) [] filters.

(** @source app/explore/controlUtils/getFormDataWithDashboardContext.ts 36-45 removeExtraFieldForNewCharts *)
Definition removeExtraFieldForNewCharts (filters : list jsval) (isNewChart : bool)
    : result (list jsval) :=
  map_result (λ filter,
    isExtra ← field "isExtra" filter;
    Ok (if truthy isExtra then JObj (oset "isExtra" (JBool (negb isNewChart)) (spread_of filter))
        else filter)) filters.

(** ** What the dashboard adds *)

Definition NO_TIME_RANGE : string := "No filter".

(** @source app/explore/controlUtils/getFormDataWithDashboardContext.ts 81-86 mergeFilterBoxToFormData (dateColumns) *)
Definition dateColumns : list (string * string) :=
  [("__time_range", "time_range"); ("__time_col", "granularity_sqla");
   ("__time_grain", "time_grain_sqla"); ("__granularity", "granularity")].

(** The data, the extras that were applied and the number of names used. *)
Record filter_box := {
  fb_data : jsobj;
  fb_applied : jsobj;
  fb_names : nat;
}.

(** @source app/explore/controlUtils/getFormDataWithDashboardContext.ts 90-107 mergeFilterBoxToFormData (one filter) *)
Definition merge_box_filter (st : filter_box) (filter : jsval) : result filter_box :=
  col ← field "col" filter;
  let val := opt_field "val" filter in
  match aget (to_string col) dateColumns with
  | Some target =>
      Ok (if is_str val NO_TIME_RANGE then st
          else {| fb_data := oset target val (fb_data st);
                  fb_applied := oset (to_string col) val (fb_applied st);
                  fb_names := fb_names st |})
  | None =>
      adhocFilter ←
        simpleFilterToAdhoc (random (fb_names st))
          (oset "isExtra" (JBool true) (spread_of filter)) "WHERE";
      Ok {| fb_data :=
              oset "adhoc_filters"
                (JArr (ensureIsArray (ofield "adhoc_filters" (fb_data st)) ++ [JObj adhocFilter]))
                (fb_data st);
            fb_applied := fb_applied st;
            fb_names := S (fb_names st) |}
  end.

(** @source app/explore/controlUtils/getFormDataWithDashboardContext.ts 77-110 mergeFilterBoxToFormData *)
Definition mergeFilterBoxToFormData (dashboardFormData : jsobj) : result (jsobj * nat) :=
  st ← fold_result merge_box_filter {| fb_data := []; fb_applied := []; fb_names := 0 |}
         (ensureIsArray (ofield "extra_filters" dashboardFormData));
  Ok (oset "applied_time_extras" (JObj (fb_applied st)) (fb_data st), fb_names st).

(** [key.match(/adhoc_filter.*/)] *)
Definition is_adhoc_key (key : string) : bool := includes "adhoc_filter" key.

(** @source app/explore/controlUtils/getFormDataWithDashboardContext.ts 120-134 mergeNativeFiltersToFormData (overrides) *)
Definition native_overrides (extraFormData : jsobj) : jsobj :=
  let data :=
    foldl (λ data kt, let val := ofield kt.1 extraFormData in
      if isDefined val then oset kt.2 val data else data)
      [] EXTRA_FORM_DATA_OVERRIDE_REGULAR_MAPPINGS in
  let data :=
    if ahas "time_grain_sqla" extraFormData
    then oset "time_grain_sqla" (ofield "time_grain_sqla" extraFormData) data else data in
  if ahas "granularity_sqla" extraFormData
  then oset "granularity_sqla" (ofield "granularity_sqla" extraFormData) data else data.

(** @source app/explore/controlUtils/getFormDataWithDashboardContext.ts 136-142 mergeNativeFiltersToFormData (extras) *)
Definition native_extras (extraFormData extras : jsobj) : jsobj :=
  foldl (λ extras key, let val := ofield key extraFormData in
    if isDefined val then oset key val extras else extras)
    extras EXTRA_FORM_DATA_OVERRIDE_EXTRA_KEYS.

(** The clauses as adhoc filters; [n] names are used already.

    @source app/explore/controlUtils/getFormDataWithDashboardContext.ts 154-161 mergeNativeFiltersToFormData (appendFilters) *)
Fixpoint append_filters (n : nat) (mapping scope : jsval) (filters : list jsval)
    : result (list jsval) :=
  match filters with
  | [] => Ok []
  | extraFilter :: filters =>
      adhocFilter ←
        simpleFilterToAdhoc (random n)
          (oset "layerFilterScope" scope (oset "filterDataMapping" mapping
             (oset "isExtra" (JBool true) (spread_of extraFilter)))) "WHERE";
      rest ← append_filters (S n) mapping scope filters;
      Ok (JObj adhocFilter :: rest)
  end.

(** @source app/explore/controlUtils/getFormDataWithDashboardContext.ts 112-172 mergeNativeFiltersToFormData *)
Definition mergeNativeFiltersToFormData (n : nat) (exploreFormData dashboardFormData : jsobj)
    : result jsobj :=
  extraFormData ← as_object (js_or (ofield "extra_form_data" dashboardFormData) (JObj []));
  dashboardExtras ← as_object (js_or (ofield "extras" dashboardFormData) (JObj []));
  let data := native_overrides extraFormData in
  let extras := native_extras extraFormData dashboardExtras in
  let data := if bool_decide (extras = []) then data else oset "extras" (JObj extras) data in
  let data :=
    oset "adhoc_filters"
      (JArr ((λ filter, JObj (oset "isExtra" (JBool true) (spread_of filter))) <$>
         ensureIsArray (ofield "adhoc_filters" extraFormData))) data in
  appendFilters ←
    append_filters n (ofield "filter_data_mapping" dashboardFormData)
      (ofield "layer_filter_scope" dashboardFormData)
      (ensureIsArray (ofield "filters" extraFormData));
  Ok (foldl (λ data key,
        if is_adhoc_key key
        then oset key (JArr (ensureIsArray (ofield key data) ++ appendFilters)) data else data)
        data (akeys exploreFormData)).

(** @source app/explore/controlUtils/getFormDataWithDashboardContext.ts 174-192 applyTimeRangeFilters *)
Definition applyTimeRangeFilters (dashboardFormData : jsobj) (adhocFilters : list jsval)
    : result (list jsval) :=
  extraFormData ← as_object (js_or (ofield "extra_form_data" dashboardFormData) (JObj []));
  if ahas "time_range" extraFormData then
    map_result (λ filter,
      operator ← field "operator" filter;
      Ok (if is_str operator "TEMPORAL_RANGE" then
            JObj (oset "isExtra" (JBool true)
              (oset "comparator" (ofield "time_range" extraFormData) (spread_of filter)))
          else filter)) adhocFilters
  else Ok adhocFilters.

(** ** The merged form data *)

(** The adhoc filters under one key.

    @source app/explore/controlUtils/getFormDataWithDashboardContext.ts 223-238 getFormDataWithDashboardContext (one key) *)
Definition merged_filters (exploreFormData dashboard filterBoxData nativeFiltersData : jsobj)
    (key : string) : result (list jsval) :=
  let beforeDuplicates :=
    ensureIsArray (ofield key exploreFormData) ++ ensureIsArray (ofield key filterBoxData) ++
    ensureIsArray (ofield key nativeFiltersData) in
  afterDuplicates ← removeAdhocFilterDuplicates beforeDuplicates;
  filters ← applyTimeRangeFilters dashboard afterDuplicates;
  removeExtraFieldForNewCharts filters
    (strict_eq (ofield "slice_id" exploreFormData) (JNum (num_of_Z 0))).

(** @source app/explore/controlUtils/getFormDataWithDashboardContext.ts 214-241 getFormDataWithDashboardContext (adhocFilters) *)
Definition merged_adhoc (exploreFormData dashboard filterBoxData nativeFiltersData : jsobj)
    : result jsobj :=
  fold_result (λ acc key,
    filters ← merged_filters exploreFormData dashboard filterBoxData nativeFiltersData key;
    Ok (oset key (JArr filters) acc)) []
    (filter (λ key, is_adhoc_key key = true)
      (akeys exploreFormData ++ akeys filterBoxData ++ akeys nativeFiltersData)).

(** The slices of a chart of layers are added to the filters of the dashboard.

    @source app/explore/controlUtils/getFormDataWithDashboardContext.ts 248-265 getFormDataWithDashboardContext (deck slices) *)
Definition with_deck_slices (isDeckGLChart : bool) (deckSlices : jsval) (adhocFilters : jsobj) : jsobj :=
  match ofield "adhoc_filters" adhocFilters with
  | JArr filters =>
      if isDeckGLChart && isDefined deckSlices then
        oset "adhoc_filters"
          (JArr ((λ filter, JObj
             (if is_array deckSlices && negb (bool_decide (array_items deckSlices = [])) &&
                 truthy (opt_field "isExtra" filter)
              then oset "deck_slices" deckSlices (spread_of filter) else spread_of filter)) <$> filters))
          adhocFilters
      else adhocFilters
  | _ => adhocFilters
  end.

(** @source app/explore/controlUtils/getFormDataWithDashboardContext.ts 267-276 getFormDataWithDashboardContext (deckGLProperties) *)
Definition deckGLProperties (isDeckGLChart : bool) (dashboard : jsobj) : jsobj :=
  let take key o := if truthy (ofield key dashboard) then oset key (ofield key dashboard) o else o in
  if isDeckGLChart then take "filter_data_mapping" (take "layer_filter_scope" []) else [].

(** @source app/explore/controlUtils/getFormDataWithDashboardContext.ts 194-305 getFormDataWithDashboardContext *)
Definition getFormDataWithDashboardContext (exploreFormData dashboard : jsobj) (saveAction : jsval)
    : result jsobj :=
  box ← mergeFilterBoxToFormData dashboard;
  nativeFiltersData ← mergeNativeFiltersToFormData box.2 exploreFormData dashboard;
  let filterBoxData := box.1 in
  let isDeckGLChart :=
    is_str (ofield "viz_type" exploreFormData) "deck_multi" ||
    is_str (ofield "viz_type" dashboard) "deck_multi" in
  adhocFilters ← merged_adhoc exploreFormData dashboard filterBoxData nativeFiltersData;
  let adhocFilters :=
    with_deck_slices isDeckGLChart (ofield "deck_slices" exploreFormData) adhocFilters in
  let own := ofield "color_scheme" exploreFormData in
  let colors :=
    [("own_color_scheme", own);
     ("color_scheme", js_or (ofield "color_scheme" dashboard) own);
     ("dashboard_color_scheme", ofield "color_scheme" dashboard)] in
  let parts :=
    if is_str saveAction "overwrite"
    then [dashboard; filterBoxData; nativeFiltersData; adhocFilters; exploreFormData]
    else [exploreFormData; dashboard; filterBoxData; nativeFiltersData; adhocFilters] in
  Ok (foldl ospread [] (parts ++ [colors; deckGLProperties isDeckGLChart dashboard])).
End context.
