(* ===== verification/DashboardContextFacts.v ===== *)
(** * Properties of charts that are opened from a dashboard

    Removing duplicates keeps a representative of each filter and no two that
    are the same.  The editor shows the chart with its own filters and with the
    filters of the dashboard; a chart that is overwritten keeps its own form
    data. *)

From Stdlib Require Import Ascii String.
From stdpp Require Import base strings option numbers list sets.
From S2P Require Import Prelude JsObject JsNumber JsValue Lodash QueryTypes Query AdhocFilter DashboardContext.

Section facts.
Context `{Lodash}.
Context (random : nat → string).

(** ** Duplicate filters *)

Lemma isDuplicate_spec f acc b :
  isDuplicate f acc = Ok b →
  if b then ∃ g, g ∈ acc ∧ same_filter f g = Ok true else ∀ g, g ∈ acc → same_filter f g = Ok false.
Proof.
  induction acc as [|g acc IH]; cbn [isDuplicate]; intros Hb.
  { injection Hb as <-. by intros g ?%elem_of_nil. }
  apply bind_Ok_inv in Hb as ([] & Hs & Hb).
  - injection Hb as <-. exists g. split; [by left|done].
  - specialize (IH Hb). destruct b.
    + destruct IH as (g' & Hg' & Hs'). exists g'. split; [by right|done].
    + intros g' [->|Hg']%elem_of_cons; [done|by apply IH].
Qed.

(** No filter of the list is the same as an earlier one. *)
Definition distinct (filters : list jsval) : Prop :=
  ∀ i j f g, i < j → filters !! i = Some g → filters !! j = Some f → same_filter f g = Ok false.

Lemma distinct_snoc filters f :
  distinct filters → (∀ g, g ∈ filters → same_filter f g = Ok false) → distinct (filters ++ [f]).
Proof.
  intros Hd Hf i j f' g Hij Hi Hj.
  apply lookup_app_Some in Hj as [Hj|[Hl Hj]].
  - eapply Hd; [exact Hij| |exact Hj]. apply lookup_lt_Some in Hj. by rewrite lookup_app_l in Hi by lia.
  - destruct (j - length filters) as [|n] eqn:En; [|done]. injection Hj as <-.
    rewrite lookup_app_l in Hi by lia. apply Hf. by eapply list_elem_of_lookup_2.
Qed.

Lemma dedup_spec filters out :
  removeAdhocFilterDuplicates filters = Ok out →
  out `sublist_of` filters ∧ distinct out ∧
  ∀ f, f ∈ filters → f ∈ out ∨ ∃ g, g ∈ out ∧ same_filter f g = Ok true.
Proof.
  unfold removeAdhocFilterDuplicates.
  assert (∀ seen acc, acc `sublist_of` seen → distinct acc →
    (∀ f, f ∈ seen → f ∈ acc ∨ ∃ g, g ∈ acc ∧ same_filter f g = Ok true) →
    fold_result (λ acc filter, duplicate ← isDuplicate filter acc;
      Ok (if (duplicate : bool) then acc else acc ++ [filter])) acc filters = Ok out →
    out `sublist_of` seen ++ filters ∧ distinct out ∧
    ∀ f, f ∈ seen ++ filters → f ∈ out ∨ ∃ g, g ∈ out ∧ same_filter f g = Ok true) as Hgen.
  { induction filters as [|f filters IH]; intros seen acc Hsub Hd Hrep Hfold.
    { injection Hfold as <-. by rewrite app_nil_r. }
    cbn [fold_result] in Hfold. apply bind_Ok_inv in Hfold as (acc' & Hacc & Hfold).
    apply bind_Ok_inv in Hacc as (dup & Hdup & [= <-]). apply isDuplicate_spec in Hdup.
    assert (seen ++ f :: filters = (seen ++ [f]) ++ filters) as -> by (by rewrite <- app_assoc).
    refine (IH (seen ++ [f]) _ _ _ _ Hfold); destruct dup.
    - by apply sublist_inserts_r.
    - by apply sublist_app.
    - done.
    - by apply distinct_snoc.
    - intros g [Hg|Hg%list_elem_of_singleton]%elem_of_app; [by apply Hrep|]. subst g. by right.
    - intros g [Hg|Hg%list_elem_of_singleton]%elem_of_app.
      + destruct (Hrep g Hg) as [?|(g' & ? & ?)]; [left; apply elem_of_app; by left|].
        right. exists g'. split; [apply elem_of_app; by left|done].
      + subst g. left. apply elem_of_app. right. by left. }
  intros Hfold. apply (Hgen [] []); [done|by intros ? ? ? ? ? ?|by intros f ?%elem_of_nil|exact Hfold].
Qed.

(** Removing duplicate filters keeps the first of the filters that are the
    same: the result is a part of the list in its order, no filter in it is
    the same as an earlier one, and each filter of the list is in it or is the
    same as a filter in it. *)
Theorem removeAdhocFilterDuplicates_spec filters out :
  removeAdhocFilterDuplicates filters = Ok out →
  out `sublist_of` filters ∧ distinct out ∧
  ∀ f, f ∈ filters → f ∈ out ∨ ∃ g, g ∈ out ∧ same_filter f g = Ok true.
Proof. apply dedup_spec. Qed.
(** ** The filters of the merged form data *)

(** The time range that the dashboard sets. *)
Definition dashboard_time_range (dashboard : jsobj) : option jsval :=
  match ofield "extra_form_data" dashboard with JObj o => aget "time_range" o | _ => None end.

(** The filter [g] asks for the column, the operator and the value; a time range
    of the dashboard replaces the value of a temporal filter. *)
Definition asks (time_range : option jsval) (g : jsval) (col op : string) (val : jsval) : Prop :=
  opt_field "subject" g = JStr col ∧ opt_field "operator" g = JStr op ∧
  match time_range with
  | Some range =>
      if decide (op = "TEMPORAL_RANGE") then opt_field "comparator" g = range
      else opt_field "comparator" g = val ∨ isEqual (opt_field "comparator" g) val = true
  | None => opt_field "comparator" g = val ∨ isEqual (opt_field "comparator" g) val = true
  end.

Definition simple_filter (f : jsval) (col op : string) (val : jsval) : Prop :=
  opt_field "expressionType" f = JStr "SIMPLE" ∧ opt_field "subject" f = JStr col ∧
  opt_field "operator" f = JStr op ∧ opt_field "comparator" f = val.

Lemma ofield_spread_of k f : ofield k (spread_of f) = opt_field k f.
Proof. by destruct f. Qed.

Lemma opt_field_spread k k' v f :
  k ≠ k' → opt_field k (JObj (oset k' v (spread_of f))) = opt_field k f.
Proof. intros Hk. cbn [opt_field]. rewrite ofield_oset, decide_False by done. by destruct f. Qed.

Lemma same_filter_simple f g col op val :
  simple_filter f col op val → same_filter f g = Ok true → asks None g col op val.
Proof.
  intros (Ht & Hs & Ho & Hc) Hsame. unfold same_filter in Hsame.
  apply bind_Ok_inv in Hsame as (b1 & Hfree & Hsame). apply bind_Ok_inv in Hsame as (b2 & Hfree2 & Hsame).
  assert (b2 = false) as ->.
  { destruct b1; [|by injection Hfree2 as <-]. unfold isFreeFormAdhocFilter in Hfree2.
    apply bind_Ok_inv in Hfree2 as (t & Htt & [= <-]).
    apply field_Ok in Htt as ->. by rewrite Ht. }
  cbn [andb] in Hsame. apply bind_Ok_inv in Hsame as (b3 & Hsimple & Hsame).
  apply bind_Ok_inv in Hsame as (b4 & _ & [= Hsame]). rewrite Hs, Ho, Hc in Hsame.
  apply andb_true_iff in Hsame as [Hsame Hcomp]. apply andb_true_iff in Hsame as [Hsame Hsub].
  apply andb_true_iff in Hsame as [_ Hop]. apply strict_eq_str in Hsub, Hop.
  split; [done|]. split; [done|]. apply orb_true_iff in Hcomp as [Hcomp|Hcomp].
  - apply andb_true_iff in Hcomp as [Hg Hf]. left.
    assert (∀ h, negb (ahas "comparator" (object_entries h)) = true → opt_field "comparator" h = JUndef) as Hno.
    { intros [| | | | | |o] Hh; try done. cbn in Hh |- *. unfold ahas in Hh. apply negb_true_iff, bool_decide_eq_false in Hh.
      unfold ofield. by destruct (aget "comparator" o); [destruct Hh; eexists|]. }
    by rewrite (Hno g Hg), <- Hc, (Hno f Hf).
  - right. by apply andb_true_iff in Hcomp as [_ Hcomp].
Qed.

Lemma map_result_elem {A B} (f : A → result B) xs ys x :
  map_result f xs = Ok ys → x ∈ xs → ∃ y, f x = Ok y ∧ y ∈ ys.
Proof.
  revert ys. induction xs as [|x' xs IH]; intros ys Hf Hx; [by apply elem_of_nil in Hx|].
  cbn [map_result] in Hf. apply bind_Ok_inv in Hf as (y & Hy & Hf).
  apply bind_Ok_inv in Hf as (ys' & Hys & [= <-]). apply elem_of_cons in Hx as [->|Hx].
  - exists y. split; [done|by left].
  - destruct (IH ys' Hys Hx) as (y' & ? & ?). exists y'. split; [done|by right].
Qed.

(** Marking filters does not change what they ask for. *)
Lemma asks_marked tr g col op val k v :
  k ∈ ["isExtra"; "deck_slices"] → asks tr g col op val → asks tr (JObj (oset k v (spread_of g))) col op val.
Proof.
  intros Hk. unfold asks. assert (k ≠ "subject" ∧ k ≠ "operator" ∧ k ≠ "comparator") as (? & ? & ?).
  { repeat (apply elem_of_cons in Hk as [->|Hk]; [done|]). by apply elem_of_nil in Hk. }
  by rewrite !opt_field_spread.
Qed.

(** The extra form data of a dashboard, an empty object where there are none. *)
Lemma as_extra_form_data v o :
  as_object (js_or v (JObj [])) = Ok o → v = JObj o ∨ o = [] ∧ ∀ o', v ≠ JObj o'.
Proof.
  unfold js_or. destruct (truthy v) eqn:Ev; intros Ho.
  - left. destruct v; try discriminate Ho. by injection Ho as <-.
  - injection Ho as <-. right. split; [done|]. by intros o' ->.
Qed.

Lemma asks_time_range dashboard filters out g col op val :
  applyTimeRangeFilters dashboard filters = Ok out → g ∈ filters → asks None g col op val →
  ∃ g', g' ∈ out ∧ asks (dashboard_time_range dashboard) g' col op val.
Proof.
  unfold applyTimeRangeFilters. intros Hout Hg Ha. apply bind_Ok_inv in Hout as (o & Ho & Hout).
  assert (dashboard_time_range dashboard = aget "time_range" o) as ->.
  { unfold dashboard_time_range. apply as_extra_form_data in Ho as [-> | [-> Hno]]; [done|].
    destruct (ofield "extra_form_data" dashboard) as [| | | | | |o']; try done. by destruct (Hno o'). }
  unfold ahas in Hout. destruct (aget "time_range" o) as [range|] eqn:Er; cbn in Hout.
  - apply (map_result_elem _ _ _ g) in Hout as (g' & Hg' & Hin); [|done].
    apply bind_Ok_inv in Hg' as (operator & Hop & [= <-]). destruct Ha as (Hs & Ho' & Hc).
    apply field_Ok in Hop as ->. rewrite Ho' in Hin.
    eexists. split; [exact Hin|]. cbn [is_str strict_eq]. unfold asks.
    destruct (decide (op = "TEMPORAL_RANGE")) as [->|Hne].
    + rewrite bool_decide_eq_true_2 by done. cbn [opt_field].
      assert (∀ k v w, k ≠ "isExtra" → k ≠ "comparator" →
        ofield k (oset "isExtra" v (oset "comparator" w (spread_of g))) = opt_field k g) as Hk.
      { intros k v w H1 H2. rewrite ofield_oset, decide_False, ofield_oset, decide_False by done.
        apply ofield_spread_of. }
      rewrite !Hk by done. split; [done|]. split; [done|].
      rewrite ofield_oset, decide_False, ofield_oset, decide_True by done. unfold ofield. by rewrite Er.
    + by rewrite bool_decide_eq_false_2.
  - injection Hout as <-. by exists g.
Qed.

Lemma asks_new_chart filters out b tr g col op val :
  removeExtraFieldForNewCharts filters b = Ok out → g ∈ filters → asks tr g col op val →
  ∃ g', g' ∈ out ∧ asks tr g' col op val.
Proof.
  intros Hout Hg Ha. apply (map_result_elem _ _ _ g) in Hout as (g' & Hg' & Hin); [|done].
  apply bind_Ok_inv in Hg' as (e & _ & [= <-]). eexists. split; [exact Hin|].
  destruct (truthy e); [|done]. apply asks_marked; [by left|done].
Qed.

(** Each filter that goes into a list is asked for by a filter that comes out. *)
Lemma merged_filters_asks explore dashboard box native key out f col op val :
  merged_filters explore dashboard box native key = Ok out →
  f ∈ ensureIsArray (ofield key explore) ++ ensureIsArray (ofield key box) ++ ensureIsArray (ofield key native) →
  simple_filter f col op val →
  ∃ g, g ∈ out ∧ asks (dashboard_time_range dashboard) g col op val.
Proof.
  intros Hout Hf Hs. unfold merged_filters in Hout.
  apply bind_Ok_inv in Hout as (l1 & H1 & Hout). apply bind_Ok_inv in Hout as (l2 & H2 & H3).
  assert (∃ g, g ∈ l1 ∧ asks None g col op val) as (g1 & Hg1 & Ha1).
  { destruct (dedup_spec _ _ H1) as (_ & _ & Hrep). destruct (Hrep f Hf) as [Hin|(g & Hin & Hsame)].
    - exists f. split; [done|]. destruct Hs as (_ & ? & ? & ?). by repeat split; [..|left].
    - exists g. split; [done|]. by eapply same_filter_simple. }
  destruct (asks_time_range _ _ _ _ _ _ _ H2 Hg1 Ha1) as (g2 & Hg2 & Ha2).
  exact (asks_new_chart _ _ _ _ _ _ _ _ H3 Hg2 Ha2).
Qed.

Lemma merged_adhoc_get explore dashboard box native adhoc key :
  merged_adhoc explore dashboard box native = Ok adhoc →
  key ∈ akeys explore → is_adhoc_key key = true →
  ∃ filters, aget key adhoc = Some (JArr filters) ∧
    merged_filters explore dashboard box native key = Ok filters.
Proof.
  unfold merged_adhoc. intros Hfold Hkey Hadhoc.
  assert (key ∈ filter (λ key, is_adhoc_key key = true) (akeys explore ++ akeys box ++ akeys native)) as Hin.
  { apply list_elem_of_filter. split; [done|]. apply elem_of_app. by left. }
  clear Hkey Hadhoc. revert Hin Hfold. generalize (filter (λ key, is_adhoc_key key = true)
    (akeys explore ++ akeys box ++ akeys native)) as keys. intros keys.
  set (step := λ (acc : jsobj) (key : string), filters ← merged_filters explore dashboard box native key;
    Ok (oset key (JArr filters) acc)).
  assert (∀ keys acc, fold_result step acc keys = Ok adhoc →
    (∃ filters, aget key acc = Some (JArr filters) ∧
       merged_filters explore dashboard box native key = Ok filters) ∨ key ∈ keys →
    ∃ filters, aget key adhoc = Some (JArr filters) ∧
       merged_filters explore dashboard box native key = Ok filters) as Hgen.
  { clear keys. intros keys. induction keys as [|k keys IH]; intros acc Hf Hor.
    { injection Hf as <-. by destruct Hor as [?|?%elem_of_nil]. }
    cbn [fold_result] in Hf. apply bind_Ok_inv in Hf as (acc' & Hstep & Hf).
    apply bind_Ok_inv in Hstep as (filters & Hm & [= <-]). apply (IH _ Hf).
    destruct (decide (key = k)) as [->|Hne].
    - left. exists filters. by rewrite aget_oset_eq.
    - rewrite aget_oset_ne by done. destruct Hor as [?|[?|?]%elem_of_cons]; by auto. }
  intros Hin Hf. apply (Hgen keys []); auto.
Qed.

(** The clauses of the dashboard as filters. *)
Lemma append_filters_elem n mapping scope clauses out c col op :
  append_filters random n mapping scope clauses = Ok out → c ∈ clauses →
  opt_field "col" c = JStr col → opt_field "op" c = JStr op →
  ∃ f, f ∈ out ∧ simple_filter f col op (opt_field "val" c).
Proof.
  revert n out. induction clauses as [|c' clauses IH]; intros n out Hout Hc Hcol Hop; [by apply elem_of_nil in Hc|].
  cbn [append_filters] in Hout. apply bind_Ok_inv in Hout as (a & Ha & Hout).
  apply bind_Ok_inv in Hout as (rest & Hrest & [= <-]). apply elem_of_cons in Hc as [->|Hc].
  2: { destruct (IH _ _ Hrest Hc Hcol Hop) as (f & ? & ?). exists f. split; [by right|done]. }
  exists (JObj a). split; [by left|]. unfold simpleFilterToAdhoc in Ha.
  apply bind_Ok_inv in Ha as (mk & _ & Ha).
  assert (∀ k, k ∉ ["layerFilterScope"; "filterDataMapping"; "isExtra"] →
    ofield k (oset "layerFilterScope" scope (oset "filterDataMapping" mapping
      (oset "isExtra" (JBool true) (spread_of c')))) = opt_field k c') as Hk.
  { intros k Hk. apply not_elem_of_cons in Hk as [? Hk]. apply not_elem_of_cons in Hk as [? Hk].
    apply not_elem_of_cons in Hk as [? _].
    rewrite ofield_oset, decide_False, ofield_oset, decide_False, ofield_oset, decide_False by done.
    apply ofield_spread_of. }
  rewrite !(Hk "col"), !(Hk "op"), !(Hk "val"), Hcol, Hop in Ha by solve_decided.
  cbn [isAdhocColumn is_string negb andb] in Ha. rewrite bind_Ok in Ha.
  destruct (truthy _) in Ha; injection Ha as <-; by repeat split.
Qed.

Lemma native_filters_elem n explore dashboard native key c col op :
  mergeNativeFiltersToFormData random n explore dashboard = Ok native →
  key ∈ akeys explore → is_adhoc_key key = true →
  c ∈ ensureIsArray (opt_field "filters" (ofield "extra_form_data" dashboard)) →
  opt_field "col" c = JStr col → opt_field "op" c = JStr op →
  ∃ f, f ∈ ensureIsArray (ofield key native) ∧ simple_filter f col op (opt_field "val" c).
Proof.
  unfold mergeNativeFiltersToFormData. intros Hn Hkey Hadhoc Hc Hcol Hop.
  apply bind_Ok_inv in Hn as (o & Ho & Hn). apply bind_Ok_inv in Hn as (extras & _ & Hn).
  apply bind_Ok_inv in Hn as (appended & Happ & [= <-]).
  assert (ofield "filters" o = opt_field "filters" (ofield "extra_form_data" dashboard)) as Hfilters.
  { apply as_extra_form_data in Ho as [-> | [-> Hno]]; [done|].
    destruct (ofield "extra_form_data" dashboard) as [| | | | | |o']; try done. by destruct (Hno o'). }
  rewrite Hfilters in Happ.
  destruct (append_filters_elem _ _ _ _ _ _ _ _ Happ Hc Hcol Hop) as (f & Hf & Hs). exists f. split; [|done].
  clear -Hf Hkey Hadhoc. match goal with |- context [foldl _ ?d _] => generalize d end. revert Hkey.
  induction (akeys explore) as [|k keys IH] using rev_ind; intros Hkey data; [by apply elem_of_nil in Hkey|].
  rewrite foldl_app. cbn [foldl]. destruct (decide (key = k)) as [<-|Hne].
  - rewrite Hadhoc, ofield_oset, decide_True by done. cbn [ensureIsArray]. apply elem_of_app. by right.
  - assert (key ∈ keys) as Hin by (apply elem_of_app in Hkey as [?|?%list_elem_of_singleton]; [done|by subst]).
    destruct (is_adhoc_key k); [rewrite ofield_oset, decide_False by done|]; by apply IH.
Qed.

Lemma with_deck_slices_asks deck slices adhoc key filters tr :
  aget key adhoc = Some (JArr filters) →
  ∃ filters', aget key (with_deck_slices deck slices adhoc) = Some (JArr filters') ∧
    (∀ g col op val, g ∈ filters → asks tr g col op val → ∃ g', g' ∈ filters' ∧ asks tr g' col op val).
Proof.
  intros Hkey. unfold with_deck_slices.
  assert (∃ filters', aget key adhoc = Some (JArr filters') ∧
    (∀ g col op val, g ∈ filters → asks tr g col op val → ∃ g', g' ∈ filters' ∧ asks tr g' col op val)) as Hsame.
  { exists filters. split; [done|]. intros g' ? ? ? ? ?. by exists g'. }
  destruct (ofield "adhoc_filters" adhoc) as [| | | | |fs|] eqn:Ef; try exact Hsame.
  destruct (deck && isDefined slices); [|exact Hsame].
  destruct (decide (key = "adhoc_filters")) as [->|Hne]; [|by rewrite aget_oset_ne].
  assert (fs = filters) as -> by (unfold ofield in Ef; rewrite Hkey in Ef; by injection Ef).
  rewrite aget_oset_eq. eexists. split; [done|]. intros g' c o v Hg' Ha. eexists. split.
  - apply list_elem_of_fmap. by exists g'.
  - destruct (_ && _); [apply asks_marked; [by right; left|done]|].
    unfold asks in Ha |- *. cbn [opt_field]. by rewrite !ofield_spread_of.
Qed.

Lemma with_deck_slices_NoDup deck slices adhoc :
  NoDup (akeys adhoc) → NoDup (akeys (with_deck_slices deck slices adhoc)).
Proof.
  intros Hn. unfold with_deck_slices. repeat case_match; try done. by apply NoDup_akeys_oset.
Qed.

Lemma merged_adhoc_NoDup explore dashboard box native adhoc :
  merged_adhoc explore dashboard box native = Ok adhoc → NoDup (akeys adhoc).
Proof.
  unfold merged_adhoc. generalize (filter (λ key, is_adhoc_key key = true)
    (akeys explore ++ akeys box ++ akeys native)) as keys.
  assert (NoDup (akeys ([] : jsobj))) as Hn by apply NoDup_nil_2. revert Hn.
  generalize ([] : jsobj) as acc. intros acc Hn keys. revert acc Hn.
  induction keys as [|k keys IH]; intros acc Hn Hf; [by injection Hf as <-|].
  cbn [fold_result] in Hf. apply bind_Ok_inv in Hf as (acc' & Hstep & Hf).
  apply bind_Ok_inv in Hstep as (filters & _ & [= <-]). by eapply IH, Hf; apply NoDup_akeys_oset.
Qed.

Lemma deckGLProperties_keys deck dashboard key :
  key ∈ akeys (deckGLProperties deck dashboard) → key ∈ ["filter_data_mapping"; "layer_filter_scope"].
Proof.
  unfold deckGLProperties. destruct deck; [|by intros ?%elem_of_nil].
  destruct (truthy _), (truthy _); cbn; set_solver.
Qed.

(** The keys of the merged form data that are neither colours nor layers. *)
Lemma aget_context key (a b c d last : jsobj) own color dash deck dashboard :
  NoDup (akeys last) →
  key ∉ ["own_color_scheme"; "color_scheme"; "dashboard_color_scheme"; "filter_data_mapping";
    "layer_filter_scope"] →
  aget key (foldl ospread [] ([a; b; c; d; last] ++ [[("own_color_scheme", own);
    ("color_scheme", color); ("dashboard_color_scheme", dash)]; deckGLProperties deck dashboard])) =
  match aget key last with Some v => Some v | None => aget key (foldl ospread [] [a; b; c; d]) end.
Proof.
  intros Hn Hk. set (colors := [("own_color_scheme", own); ("color_scheme", color);
    ("dashboard_color_scheme", dash)]). cbn [app foldl]. rewrite !aget_ospread_rev.
  assert (aget key (reverse (deckGLProperties deck dashboard)) = None) as ->.
  { apply aget_None. rewrite akeys_reverse, elem_of_reverse. intros Hin%deckGLProperties_keys. set_solver. }
  assert (aget key (reverse colors) = None) as ->.
  { apply aget_None. rewrite akeys_reverse, elem_of_reverse. cbn. set_solver. }
  by rewrite aget_reverse.
Qed.

(** The part of the result under the key of adhoc filters. *)
Lemma context_key explore dashboard save r key :
  getFormDataWithDashboardContext random explore dashboard save = Ok r →
  is_str save "overwrite" = false → key ∈ akeys explore → is_adhoc_key key = true →
  ∃ box native filters out,
    mergeFilterBoxToFormData random dashboard = Ok box ∧
    mergeNativeFiltersToFormData random box.2 explore dashboard = Ok native ∧
    merged_filters explore dashboard box.1 native key = Ok filters ∧
    ofield key r = JArr out ∧
    ∀ g col op val, g ∈ filters → asks (dashboard_time_range dashboard) g col op val →
      ∃ g', g' ∈ out ∧ asks (dashboard_time_range dashboard) g' col op val.
Proof.
  unfold getFormDataWithDashboardContext. intros Hr Hsave Hkey Hadhoc.
  apply bind_Ok_inv in Hr as (box & Hbox & Hr). apply bind_Ok_inv in Hr as (native & Hnative & Hr).
  cbv zeta in Hr. apply bind_Ok_inv in Hr as (adhoc & Hmerged & Hr). rewrite Hsave in Hr.
  destruct (merged_adhoc_get _ _ _ _ _ _ Hmerged Hkey Hadhoc) as (filters & Hget & Hfilters).
  set (deck := is_str _ _ || is_str _ _) in Hr. apply Ok_inj in Hr as <-.
  destruct (with_deck_slices_asks deck (ofield "deck_slices" explore) _ _ _
    (dashboard_time_range dashboard) Hget) as (out & Hout & Hasks).
  exists box, native, filters, out. repeat (split; [done|]). split; [|done].
  unfold ofield at 1. rewrite aget_context, Hout; [done| |].
  - by eapply with_deck_slices_NoDup, merged_adhoc_NoDup.
  - intros Hin. repeat (apply elem_of_cons in Hin as [->|Hin]; [done|]). by apply elem_of_nil in Hin.
Qed.

(** C15. A chart that is opened from a dashboard asks for its own filters and for
    those of the dashboard: under each key of adhoc filters of the chart, each
    simple filter of the chart and each clause on a column that the dashboard
    adds is asked for by a filter of the result, with the same column and
    operator and an equal value.  Temporal filters take the time range of the
    dashboard where it sets one. *)
Theorem context_filters_kept explore dashboard save r key :
  getFormDataWithDashboardContext random explore dashboard save = Ok r →
  is_str save "overwrite" = false → key ∈ akeys explore → is_adhoc_key key = true →
  ∃ filters, ofield key r = JArr filters ∧
    (∀ f col op val, f ∈ ensureIsArray (ofield key explore) → simple_filter f col op val →
       ∃ g, g ∈ filters ∧ asks (dashboard_time_range dashboard) g col op val) ∧
    (∀ c col op, c ∈ ensureIsArray (opt_field "filters" (ofield "extra_form_data" dashboard)) →
       opt_field "col" c = JStr col → opt_field "op" c = JStr op →
       ∃ g, g ∈ filters ∧ asks (dashboard_time_range dashboard) g col op (opt_field "val" c)).
Proof.
  intros Hr Hsave Hkey Hadhoc.
  destruct (context_key _ _ _ _ _ Hr Hsave Hkey Hadhoc)
    as (box & native & filters & out & _ & Hnative & Hfilters & Hout & Hasks).
  exists out. split; [done|].
  assert (∀ f col op val, f ∈ ensureIsArray (ofield key explore) ++ ensureIsArray (ofield key box.1) ++
    ensureIsArray (ofield key native) → simple_filter f col op val →
    ∃ g, g ∈ out ∧ asks (dashboard_time_range dashboard) g col op val) as Hall.
  { intros f col op val Hf Hs. destruct (merged_filters_asks _ _ _ _ _ _ _ _ _ _ Hfilters Hf Hs) as (g & Hg & Ha).
    exact (Hasks g col op val Hg Ha). }
  split.
  - intros f col op val Hf Hs. apply (Hall f); [|done]. apply elem_of_app. by left.
  - intros c col op Hc Hcol Hop.
    destruct (native_filters_elem _ _ _ _ _ _ _ _ Hnative Hkey Hadhoc Hc Hcol Hop) as (f & Hf & Hs).
    apply (Hall f); [|done]. rewrite !elem_of_app. auto.
Qed.

(** Saving over a chart keeps its own form data: every value of the chart is
    in the result as it is, whatever the dashboard sets, except the colour
    schemes and the scopes of layers. *)
Theorem context_overwrite explore dashboard r key :
  getFormDataWithDashboardContext random explore dashboard (JStr "overwrite") = Ok r →
  NoDup (akeys explore) → key ∈ akeys explore →
  key ∉ ["own_color_scheme"; "color_scheme"; "dashboard_color_scheme"; "filter_data_mapping";
    "layer_filter_scope"] →
  ofield key r = ofield key explore.
Proof.
  unfold getFormDataWithDashboardContext. intros Hr Hn Hkey Hk.
  apply bind_Ok_inv in Hr as (box & Hbox & Hr). apply bind_Ok_inv in Hr as (native & Hnative & Hr).
  cbv zeta in Hr. apply bind_Ok_inv in Hr as (adhoc & Hmerged & Hr).
  assert (is_str (JStr "overwrite") "overwrite" = true) as E by done. rewrite E in Hr.
  set (deck := is_str _ _ || is_str _ _) in Hr. apply Ok_inj in Hr as <-.
  unfold ofield at 1. rewrite aget_context by done. unfold ofield.
  destruct (aget key explore) as [v|] eqn:Ev; [done|]. by apply aget_None in Ev.
Qed.
End facts.

(** ** A chart with a filter, on a dashboard with two *)

Definition own_filter : jsval :=
  JObj [("expressionType", JStr "SIMPLE"); ("clause", JStr "WHERE"); ("subject", JStr "gender");
        ("operator", JStr "IN"); ("comparator", JArr [JStr "boy"])].

Definition chart_form : jsobj :=
  [("slice_id", JNum (num_of_Z 46)); ("viz_type", JStr "pie"); ("adhoc_filters", JArr [own_filter]);
   ("color_scheme", JStr "own")].

Definition dashboard_form : jsobj :=
  [("color_scheme", JStr "dashboard");
   ("extra_form_data", JObj [("time_range", JStr "Last month");
      ("filters", JArr [JObj [("col", JStr "gender"); ("op", JStr "IN"); ("val", JArr [JStr "boy"])];
                        JObj [("col", JStr "name"); ("op", JStr "IN"); ("val", JArr [JStr "Aaron"])]])])].

Definition sample_random (n : nat) : string := "filter_" +:+ string_of_N (N.of_nat n).

Definition opened (save : jsval) : jsobj :=
  match getFormDataWithDashboardContext sample_random chart_form dashboard_form save with
  | Ok r => r
  | Throw _ => []
  end.

Lemma removeAdhocFilterDuplicates_witness :
  removeAdhocFilterDuplicates [own_filter; own_filter; JObj [("expressionType", JStr "SQL")]] =
    Ok [own_filter; JObj [("expressionType", JStr "SQL")]] ∧
  [own_filter; JObj [("expressionType", JStr "SQL")]] `sublist_of`
    [own_filter; own_filter; JObj [("expressionType", JStr "SQL")]].
Proof.
  split; [reflexivity|].
  exact (proj1 (removeAdhocFilterDuplicates_spec
    [own_filter; own_filter; JObj [("expressionType", JStr "SQL")]] _ eq_refl)).
Defined.

Lemma context_filters_kept_witness :
  length (array_items (ofield "adhoc_filters" (opened JNull))) = 2 ∧
  ∃ filters g, ofield "adhoc_filters" (opened JNull) = JArr filters ∧ g ∈ filters ∧
    asks (Some (JStr "Last month")) g "name" "IN" (JArr [JStr "Aaron"]).
Proof.
  split; [vm_compute; reflexivity|].
  destruct (context_filters_kept sample_random chart_form dashboard_form JNull (opened JNull) "adhoc_filters")
    as (filters & Hf & _ & Hd); [vm_compute; reflexivity|reflexivity|by do 2 right; left|reflexivity|].
  destruct (Hd (JObj [("col", JStr "name"); ("op", JStr "IN"); ("val", JArr [JStr "Aaron"])]) "name" "IN")
    as (g & Hg & Ha); [by right; left|reflexivity|reflexivity|].
  exists filters, g. split; [exact Hf|]. split; [exact Hg|exact Ha].
Defined.

Lemma context_overwrite_witness :
  ofield "adhoc_filters" (opened (JStr "overwrite")) = JArr [own_filter].
Proof.
  apply (context_overwrite sample_random chart_form dashboard_form (opened (JStr "overwrite")) "adhoc_filters").
  - vm_compute. reflexivity.
  - apply (bool_decide_unpack _). vm_compute. exact I.
  - by do 2 right; left.
  - apply (bool_decide_unpack _). vm_compute. exact I.
Defined.
