(* ===== verification/Explore.v ===== *)
(** * The controls of the chart editor

    The chart editor computes the state of the controls of a chart from the
    control panel of its visualisation and the form data ([app/explore/store.js],
    [app/explore/controlUtils]).  When the user changes the visualisation, the
    form data are carried over: [StandardizedFormData] remembers the last form
    data of each visualisation and collects metrics and columns that the next
    one can use.

    A control has fields that hold values and fields that may hold functions of
    its plugin: the default and initial values, the validators and
    [mapStateToProps].  Functions are given the fields that hold values.  The
    control panels are registered by plugins; the sections to render, the hook
    [onInit] and the overrides of form data are arguments here, for any panel. *)

From Stdlib Require Import Ascii String.
From stdpp Require Import base strings option numbers list.
From S2P Require Import Prelude JsObject JsNumber JsValue QueryTypes ChartReducer.

(** ** Controls *)

(** A function that computes a value from the control and the state of the
    panel; [None] when it returns another function. *)
Definition dynamic : Type := jsobj → option jsobj → option jsval.

Record control := {
  props : jsobj;
  default_fn : option dynamic;
  initial_fn : option dynamic;
  validators : list (jsobj → jsval → jsobj → jsval);
  mapStateToProps : option (jsobj → jsobj → jsobj);
}.

Definition with_props (p : jsobj) (c : control) : control :=
  {| props := p; default_fn := default_fn c; initial_fn := initial_fn c;
     validators := validators c; mapStateToProps := mapStateToProps c |}.

Definition without_default_fn (c : control) : control :=
  {| props := props c; default_fn := None; initial_fn := initial_fn c;
     validators := validators c; mapStateToProps := mapStateToProps c |}.

Definition without_initial_fn (c : control) : control :=
  {| props := props c; default_fn := default_fn c; initial_fn := None;
     validators := validators c; mapStateToProps := mapStateToProps c |}.

(** [{...control, ...o}]; a value in [o] replaces a function. *)
Definition spread_props (o : jsobj) (c : control) : control :=
  {| props := ospread (props c) o;
     default_fn := if ahas "default" o then None else default_fn c;
     initial_fn := if ahas "initialValue" o then None else initial_fn c;
     validators := validators c; mapStateToProps := mapStateToProps c |}.

Definition value_of (c : control) : jsval := ofield "value" (props c).

Definition array_items (v : jsval) : list jsval := match v with JArr l => l | _ => [] end.

(** The external errors are an array where they are given.

    @source app/explore/controlUtils/getControlState.ts 39-57 execControlValidator *)
Definition execControlValidator (c : control) (processedState : jsobj) : control :=
  let external := array_items (ofield "externalValidationErrors" (props c)) in
  let errors :=
    filter (λ error, truthy error = true)
      ((λ validator, validator (props c) (value_of c) processedState) <$> validators c) in
  with_props (oset "validationErrors" (JArr (errors ++ external)) (props c)) c.

(** [choices.map(c => c[0])] *)
Definition choice_values (choices : jsval) : list jsval :=
  (λ c, default JUndef (head (array_items c))) <$> array_items choices.

(** @source app/explore/controlUtils/getControlState.ts 62-84 handleMissingChoice *)
Definition handleMissingChoice (c : control) : control :=
  let get k := ofield k (props c) in
  if is_str (get "type") "SelectControl" && negb (truthy (get "freeForm")) &&
     truthy (get "choices") && truthy (get "value")
  then
    let value := ensureIsArray (get "value") in
    let choiceValues := choice_values (get "choices") in
    if truthy (get "multi") && negb (bool_decide (value = [])) then
      with_props (oset "value" (JArr (filter (λ el, js_includes choiceValues el = true) value))
                    (props c)) c
    else if negb (truthy (get "multi")) && negb (js_includes choiceValues (default JUndef (head value)))
    then with_props (oset "value" JNull (props c)) c
    else c
  else c.

(** The function of a field is evaluated and replaced by its value; a function
    it returns is dropped. *)
Definition evaluate (k : string) (f : option dynamic) (clear : control → control)
    (st : option jsobj) (c : control) : control :=
  match f with
  | None => c
  | Some f =>
      match f (props c) st with
      | Some v => clear (with_props (oset k v (props c)) c)
      | None => clear (with_props (adel k (props c)) c)
      end
  end.

(** The value is stored, in an array if the control takes several.

    @source app/explore/controlUtils/getControlState.ts 128-133 applyMapStateToPropsToControl (value) *)
Definition finish_control (value : jsval) (state : control) : control :=
  let value :=
    if truthy value && truthy (ofield "multi" (props state)) && negb (is_array value)
    then JArr [value] else value in
  let state := with_props (oset "value" value (props state)) state in
  execControlValidator (handleMissingChoice state) (props state).

(** @source app/explore/controlUtils/getControlState.ts 86-134 applyMapStateToPropsToControl *)
Definition applyMapStateToPropsToControl (controlState : control) (panel : option jsobj) : control :=
  let value := value_of controlState in
  let '(state, value) :=
    match mapStateToProps controlState, panel with
    | Some f, Some p =>
        let state := spread_props (f p (props controlState)) controlState in
        (state, js_or value (value_of state))
    | _, _ => (controlState, value)
    end in
  let state := evaluate "initialValue" (initial_fn state) without_initial_fn panel state in
  let initialValue := ofield "initialValue" (props state) in
  let '(state, value) :=
    if truthy initialValue then (with_props (adel "initialValue" (props state)) state, initialValue)
    else (state, value) in
  let state := evaluate "default" (default_fn state) without_default_fn panel state in
  let default_ := ofield "default" (props state) in
  let value := if truthy default_ && is_undefined value then default_ else value in
  finish_control value state.

(** @source app/explore/controlUtils/getControlState.ts 136-152 getControlStateFromControlConfig *)
Definition getControlStateFromControlConfig (controlConfig : control) (panel : option jsobj)
    (value : jsval) : control :=
  let controlState := with_props (oset "value" value (props controlConfig)) controlConfig in
  match panel with
  | None => applyMapStateToPropsToControl controlState None
  | Some p =>
      if truthy (ofield "controls" p) then applyMapStateToPropsToControl controlState panel
      else controlState
  end.

(** ** The controls of a panel *)

Definition controls : Type := list (string * control).

(** Where a function sees the controls, it sees their values. *)
Definition controls_json (cs : controls) : jsobj := prod_map id (JObj ∘ props) <$> cs.

(** The memory of form data: a [Map] from visualisations to form data, in the
    order of insertion.  The keys are strings, or [undefined]. *)
Notation memory := (list (jsval * jsval)) (only parsing).

Section panels.
Context (getSectionsToRender : jsval → jsval → controls).
Context (onInit : jsval → option (controls → controls)).

(** @source app/explore/controlUtils/getControlState.ts 167-189 getAllControlsState *)
Definition getAllControlsState (vizType datasourceType : jsval) (state : option jsobj)
    (formData : jsobj) : controls :=
  foldl (λ controlsState nc,
    oset nc.1 (getControlStateFromControlConfig nc.2 state (ofield nc.1 formData)) controlsState)
    [] (getSectionsToRender vizType datasourceType).

(** @source app/explore/store.js 24-32 handleDeprecatedControls *)
Definition handleDeprecatedControls (formData : jsobj) : jsobj :=
  if truthy (ofield "y_axis_zero" formData)
  then oset "y_axis_bounds" (JArr [JNum (num_of_Z 0); JNull]) formData else formData.

(** @source app/explore/store.js 34-61 getControlsState *)
Definition getControlsState (state inputFormData : jsobj) : result controls :=
  let default_viz :=
    opt_field "DEFAULT_VIZ_TYPE" (opt_field "conf" (ofield "common" state)) in
  let vizType := js_or (js_or (ofield "viz_type" inputFormData) default_viz) (JStr "table") in
  let formData := handleDeprecatedControls inputFormData in
  datasourceType ← field "type" (ofield "datasource" state);
  let controlsState := getAllControlsState vizType datasourceType (Some state) formData in
  Ok match onInit vizType with
     | Some f => f controlsState
     | None => controlsState
     end.

(** A value that is given wins over the one of the control.

    @source app/explore/store.js 63-86 applyDefaultFormData *)
Definition applyDefaultFormData (datasourceType : jsval) (inputFormData : jsobj) : result jsobj :=
  let controlsState :=
    getAllControlsState (ofield "viz_type" inputFormData) datasourceType None inputFormData in
  controlFormData ← getFormDataFromControls (controls_json controlsState);
  Ok (foldl (λ formData controlName,
        oset controlName
          (if is_undefined (ofield controlName inputFormData) then ofield controlName controlFormData
           else ofield controlName inputFormData) formData)
        [] (akeys controlsState ++ akeys inputFormData)).

(** ** Shared metrics and columns *)

Record StandardizedControls := {
  sc_metrics : list jsval;
  sc_columns : list jsval;
}.

Definition no_controls : StandardizedControls := {| sc_metrics := []; sc_columns := [] |}.

(** @source app/explore/controlUtils/standardizedFormData.ts 37-54 sharedMetricsKey, sharedColumnsKey *)
Definition sharedMetricsKey : list string :=
  ["metric"; "metrics"; "metric_2"; "size"; "x"; "y"; "secondary_metric"].
Definition sharedColumnsKey : list string :=
  ["groupby"; "columns"; "groupbyColumns"; "groupbyRows"; "entity"; "series"; "series_columns"].

(** @source app/explore/controlUtils/standardizedFormData.ts 56-86 publicControls *)
Definition publicControls : list string :=
  ["granularity_sqla"; "time_grain_sqla"; "time_range"; "adhoc_filters"; "limit";
   "timeseries_limit_metric"; "series_limit_metric"; "order_desc"; "row_limit"; "x_axis";
   "rolling_type"; "rolling_periods"; "min_periods"; "time_compare"; "comparison_type";
   "resample_rule"; "resample_method"; "dashboardId"].

(** The controls that standardized form data carry.

    @source controls/types.ts 423-429 isStandardizedFormData *)
Definition standardized (formData : jsobj) : option StandardizedControls :=
  let sfd := ofield "standardizedFormData" formData in
  let controls := opt_field "controls" sfd in
  if truthy controls && truthy (opt_field "memorizedFormData" sfd) then
    match opt_field "metrics" controls, opt_field "columns" controls with
    | JArr metrics, JArr columns => Some {| sc_metrics := metrics; sc_columns := columns |}
    | _, _ => None
    end
  else None.

(** The loop over the entries of the form data, in order.

    @source app/explore/controlUtils/standardizedFormData.ts 140-148 getStandardizedControls (collect) *)
Definition collect_control (controls : StandardizedControls) (kv : string * jsval)
    : StandardizedControls :=
  {| sc_metrics := sc_metrics controls ++
       (if bool_decide (kv.1 ∈ sharedMetricsKey) then ensureIsArray kv.2 else []);
     sc_columns := sc_columns controls ++
       (if bool_decide (kv.1 ∈ sharedColumnsKey) then ensureIsArray kv.2 else []) |}.

(** @source app/explore/controlUtils/standardizedFormData.ts 131-158 getStandardizedControls *)
Definition getStandardizedControls (formData : jsobj) : StandardizedControls :=
  let controls := foldl collect_control no_controls formData in
  match standardized formData with
  | Some inherited =>
      {| sc_metrics := sc_metrics controls ++ sc_metrics inherited;
         sc_columns := sc_columns controls ++ sc_columns inherited |}
  | None => controls
  end.

(** ** The memory of form data *)

Definition memory_get (viz : jsval) (m : memory) : option jsval :=
  snd <$> List.find (λ kv, strict_eq kv.1 viz) m.

Definition memory_delete (viz : jsval) (m : memory) : memory :=
  filter (λ kv, strict_eq kv.1 viz = false) m.

(** [map.set(viz, formData)] *)
Definition memory_set (viz formData : jsval) (m : memory) : memory :=
  if existsb (λ kv, strict_eq kv.1 viz) m
  then (λ kv, if strict_eq kv.1 viz then (kv.1, formData) else kv) <$> m
  else m ++ [(viz, formData)].

(** An entry that is given to the constructor of [Map]. *)
Definition map_entry (v : jsval) : result (jsval * jsval) :=
  match v with
  | JArr l => Ok (default JUndef (l !! 0), default JUndef (l !! 1))
  | JObj o => Ok (ofield "0" o, ofield "1" o)
  | _ => Throw (TypeError "Iterator value is not an entry object")
  end.

Definition new_map (entries : list jsval) : result memory :=
  fold_result (λ m v, e ← map_entry v; Ok (memory_set e.1 e.2 m)) [] entries.

Record StandardizedFormData := {
  sfd_controls : StandardizedControls;
  sfd_memory : memory;
}.

(** [mfd.slice(-1)[0][1]?.datasource] *)
Definition last_datasource (mfd : list jsval) : result jsval :=
  match default JUndef (last mfd) with
  | JUndef | JNull => Throw (TypeError "Cannot read properties of undefined (reading '1')")
  | JArr l => Ok (opt_field "datasource" (default JUndef (l !! 1)))
  | JObj o => Ok (opt_field "datasource" (ofield "1" o))
  | _ => Ok JUndef
  end.

(** @source app/explore/controlUtils/standardizedFormData.ts 91-129 constructor *)
Definition new_StandardizedFormData (formData : jsobj) : result StandardizedFormData :=
  let mfd := opt_field "memorizedFormData" (ofield "standardizedFormData" formData) in
  let vizType := ofield "viz_type" formData in
  same ← match mfd with
         | JArr ((_ :: _) as entries) =>
             datasource ← last_datasource entries;
             Ok (strict_eq (ofield "datasource" formData) datasource)
         | _ => Ok false
         end;
  if (same : bool) then
    m ← new_map (array_items mfd);
    Ok {| sfd_controls := getStandardizedControls formData;
          sfd_memory := memory_set vizType (JObj formData) (memory_delete vizType m) |}
  else
    let restFormData := adel "standardizedFormData" formData in
    Ok {| sfd_controls := getStandardizedControls restFormData;
          sfd_memory := memory_set vizType (JObj restFormData) [] |}.

(** @source app/explore/controlUtils/standardizedFormData.ts 160-165 getLatestFormData *)
Definition getLatestFormData (vizType : jsval) (sfd : StandardizedFormData) : result jsval :=
  match memory_get vizType (sfd_memory sfd) with
  | Some formData => Ok formData
  | None =>
      match last (sfd_memory sfd) with
      | Some kv => Ok kv.2
      | None => Throw (TypeError "Cannot read properties of undefined (reading '1')")
      end
  end.

Definition controls_value (c : StandardizedControls) : jsval :=
  JObj [("metrics", JArr (sc_metrics c)); ("columns", JArr (sc_columns c))].

Definition memory_value (m : memory) : jsval := JArr ((λ kv, JArr [kv.1; kv.2]) <$> m).

(** @source app/explore/controlUtils/standardizedFormData.ts 167-180 serialize *)
Definition serialize (sfd : StandardizedFormData) : jsval :=
  JObj [("controls", controls_value (sfd_controls sfd));
        ("memorizedFormData", memory_value (sfd_memory sfd))].

(** [{...v}] of a value that is read from the memory *)
Definition spread_value (v : jsval) : jsobj := match v with JObj o => o | _ => [] end.

(** The overrides of a plugin take metrics and columns from the shared ones. *)
Context (formDataOverrides : jsval → option (jsobj → StandardizedControls → jsobj * StandardizedControls)).

(** @source app/explore/controlUtils/standardizedFormData.ts 207-213 transform (public controls) *)
Definition public_form_data (form_data : jsobj) : jsobj :=
  foldl (λ acc key, match aget key form_data with Some v => oset key v acc | None => acc end)
    [] publicControls.

(** The controls that the target gets.

    @source app/explore/controlUtils/standardizedFormData.ts 206-226 transform (target) *)
Definition target_form_data (targetVizType : jsval) (exploreState form_data : jsobj)
    (sfd : StandardizedFormData) : result (jsobj * controls) :=
  latestFormData ← getLatestFormData targetVizType sfd;
  let publicFormData := public_form_data form_data in
  targetControlsState ←
    getControlsState exploreState
      (oset "viz_type" targetVizType (ospread (spread_value latestFormData) publicFormData));
  values ← getFormDataFromControls (controls_json targetControlsState);
  let dashboardId := ofield "dashboardId" publicFormData in
  Ok (oset "standardizedFormData" (serialize sfd)
        (if truthy dashboardId then oset "dashboardId" dashboardId values else values),
      targetControlsState).

(** @source app/explore/controlUtils/standardizedFormData.ts 190-256 transform *)
Definition transform (targetVizType : jsval) (exploreState form_data : jsobj)
    (sfd : StandardizedFormData) : result (jsobj * controls) :=
  target ← target_form_data targetVizType exploreState form_data sfd;
  rv ← match formDataOverrides targetVizType with
       | None => Ok target
       | Some overrides =>
           let '(formData, used) :=
             overrides target.1 (default no_controls (standardized target.1)) in
           let transformed :=
             oset "standardizedFormData"
               (JObj [("controls", controls_value used);
                      ("memorizedFormData", memory_value (sfd_memory sfd))]) formData in
           controlsState ← getControlsState exploreState transformed;
           Ok (transformed, controlsState)
       end;
  controlsState ←
    getControlsState (oset "controls" (JObj (controls_json rv.2)) exploreState) rv.1;
  Ok (rv.1, controlsState).
End panels.
