(* ===== verification/ExploreFacts.v ===== *)
(** * Properties of the chart editor's controls

    A select control drops the values that are not among its choices, and no
    other ones.  The
    memory of form data gives back the last form data of each visualisation;
    it also keeps every earlier memory, so that the form data grow with each
    change of the visualisation. *)

From Stdlib Require Import Ascii String.
From stdpp Require Import base strings option numbers list list_numbers.
From S2P Require Import Prelude JsObject JsNumber JsValue QueryTypes ChartReducer Explore.

(** ** Values of controls *)

Lemma handleMissingChoice_props c k :
  k ≠ "value" → ofield k (props (handleMissingChoice c)) = ofield k (props c).
Proof.
  intros Hk. unfold handleMissingChoice.
  repeat case_match; cbn [props with_props]; rewrite ?ofield_oset, ?decide_False by done; done.
Qed.

Lemma execControlValidator_props c p k :
  k ≠ "validationErrors" → ofield k (props (execControlValidator c p)) = ofield k (props c).
Proof.
  intros Hk. unfold execControlValidator. cbn [props with_props]. by rewrite ofield_oset, decide_False.
Qed.

Lemma ensureIsArray_array v : is_array v = true → ensureIsArray v = array_items v.
Proof. by destruct v. Qed.

(** The value is a choice. *)
Definition is_choice (choices v : jsval) : bool := js_includes (choice_values choices) v.

(** What a select control that is not free-form, and has choices, shows for a
    value. *)
Definition shown_choice (choices : jsval) (multi : bool) (v : jsval) : jsval :=
  if multi then JArr (filter (λ x, is_choice choices x = true) (ensureIsArray v))
  else if is_choice choices (default JUndef (head (ensureIsArray v))) then v else JNull.

Lemma finish_control_props v s k :
  k ≠ "validationErrors" → k ≠ "value" → ofield k (props (finish_control v s)) = ofield k (props s).
Proof.
  intros Hk Hv. unfold finish_control. rewrite execControlValidator_props, handleMissingChoice_props by done.
  cbn [props with_props]. by rewrite ofield_oset, decide_False.
Qed.

Lemma finish_control_empty v s : truthy v = false → value_of (finish_control v s) = v.
Proof.
  intros Hv. unfold finish_control, value_of. rewrite execControlValidator_props, Hv by done. cbn [andb].
  unfold handleMissingChoice. cbn [props with_props].
  rewrite (ofield_oset "value"), decide_True, Hv, andb_false_r by done. cbn [props with_props].
  by rewrite ofield_oset, decide_True.
Qed.

Lemma ensureIsArray_wrapped v : truthy v = true → is_array v = false → ensureIsArray v = [v].
Proof. by destruct v. Qed.

Lemma finish_control_value v s :
  let get k := ofield k (props s) in
  is_str (get "type") "SelectControl" = true → truthy (get "freeForm") = false →
  truthy (get "choices") = true → truthy v = true →
  value_of (finish_control v s) = shown_choice (get "choices") (truthy (get "multi")) v.
Proof.
  cbv zeta. intros Ht Hf Hc Hv. unfold finish_control, value_of, shown_choice, is_choice.
  rewrite execControlValidator_props, Hv by done. cbn [andb].
  set (w := if _ && _ then _ else _).
  assert (truthy w = true ∧ ensureIsArray w = ensureIsArray v ∧
    (truthy (ofield "multi" (props s)) = true → w = JArr (ensureIsArray v)) ∧
    (truthy (ofield "multi" (props s)) = false → w = v)) as (Hw & Hi & Hmulti & Hsingle).
  { unfold w. destruct (truthy (ofield "multi" (props s))); cbn [andb]; [|by split_and!].
    destruct (is_array v) eqn:Ea; cbn [negb]; [by destruct v|].
    rewrite (ensureIsArray_wrapped v) by done. by split_and!. }
  assert (∀ k x, k ≠ "value" → ofield k (oset "value" x (props s)) = ofield k (props s)) as Hne
    by (intros; by rewrite ofield_oset, decide_False).
  assert (∀ x o, ofield "value" (oset "value" x o) = x) as Heq by (intros; by rewrite ofield_oset, decide_True).
  clearbody w. unfold handleMissingChoice. cbn [props with_props].
  rewrite Heq, !Hne, Ht, Hf, Hc, Hw, Hi by done. cbn [negb andb].
  destruct (truthy (ofield "multi" (props s))); cbn [negb andb].
  - rewrite Hmulti by done. case_bool_decide as Hl; cbn [negb andb props with_props]; rewrite Heq; [by rewrite Hl|done].
  - rewrite Hsingle by done. destruct (js_includes _ _); cbn [negb props with_props]; by rewrite Heq.
Qed.

(** The value a control is finished with is the one it was given, when that one
    is not empty and no initial value takes its place. *)
Lemma applyMapState_value c panel :
  (∃ s v, applyMapStateToPropsToControl c panel = finish_control v s) ∧
  (truthy (value_of c) = true → initial_fn c = None → truthy (ofield "initialValue" (props c)) = false →
   (∀ f p, mapStateToProps c = Some f → panel = Some p → "initialValue" ∉ akeys (f p (props c))) →
   ∃ s, applyMapStateToPropsToControl c panel = finish_control (value_of c) s).
Proof.
  split.
  - unfold applyMapStateToPropsToControl.
    destruct (match mapStateToProps c with Some _ => _ | None => _ end) as [s1 v1].
    destruct (if truthy _ then _ else _) as [s2 v2]. by eexists _, _.
  - intros Hv Hfn Hi Hmap. unfold applyMapStateToPropsToControl.
    cbv zeta. set (q := match mapStateToProps c with Some _ => _ | None => _ end).
    assert (∃ s, q = (s, value_of c) ∧ initial_fn s = None ∧
      truthy (ofield "initialValue" (props s)) = false) as (s & -> & Hs & Hsi).
    { unfold q. destruct (mapStateToProps c) as [f|]; [|by exists c]. destruct panel as [p|]; [|by exists c].
      exists (spread_props (f p (props c)) c). unfold js_or. rewrite Hv. split; [done|].
      cbn [initial_fn spread_props props]. rewrite Hfn. split; [by destruct (ahas _ _)|].
      unfold ofield. rewrite aget_ospread_rev.
      assert (aget "initialValue" (reverse (f p (props c))) = None) as ->; [|exact Hi].
      apply aget_None. rewrite akeys_reverse, elem_of_reverse. by apply Hmap. }
    assert (is_undefined (value_of c) = false) as Hu by (clear -Hv; by destruct (value_of c)).
    rewrite Hs. cbn [evaluate]. rewrite Hsi, Hu, andb_false_r. by eexists.
Qed.

(** C33. A select control shows a choice.  Take a select control that is not
    free-form and has choices once its plugin has computed its properties.  With
    several values, either its value is empty, or it is a list of which all
    elements are choices.  With one value, either its value is empty (nothing,
    or a value that JavaScript takes for false, which is not looked at), or it
    is a choice; of a list only the first element is looked at.  And no choice is
    lost: unless the control has an initial value, a value that is not empty
    becomes, with several values, the list of its elements that are choices, in
    their order, and with one value, it stays as it is if it is a choice and
    becomes null if it is not. *)
Theorem select_value_valid c panel :
  let r := applyMapStateToPropsToControl c panel in
  let get k := ofield k (props r) in
  let choice v := js_includes (choice_values (get "choices")) v in
  let first v := default JUndef (head (ensureIsArray v)) in
  is_str (get "type") "SelectControl" = true → truthy (get "freeForm") = false →
  truthy (get "choices") = true →
  (truthy (value_of r) = true →
     if truthy (get "multi") then ∃ l, value_of r = JArr l ∧ ∀ x, x ∈ l → choice x = true
     else choice (first (value_of r)) = true) ∧
  (truthy (value_of c) = true → initial_fn c = None → truthy (ofield "initialValue" (props c)) = false →
   (∀ f p, mapStateToProps c = Some f → panel = Some p → "initialValue" ∉ akeys (f p (props c))) →
     value_of r =
       if truthy (get "multi") then JArr (filter (λ x, choice x = true) (ensureIsArray (value_of c)))
       else if choice (first (value_of c)) then value_of c else JNull).
Proof.
  cbv zeta. destruct (applyMapState_value c panel) as [(s & v & Hr) Hkept]. intros Ht Hf Hc. split.
  - clear Hkept. rewrite Hr in *. rewrite !finish_control_props in * by done.
    destruct (truthy v) eqn:Hv; [|rewrite finish_control_empty by done; congruence].
    rewrite finish_control_value by done. unfold shown_choice, is_choice.
    destruct (truthy (ofield "multi" (props s))).
    + intros _. eexists. split; [done|]. by intros x [? _]%list_elem_of_filter.
    + by destruct (js_includes _ _) eqn:Hi.
  - intros Hv Hi Hin Hm. clear Hr. destruct (Hkept Hv Hi Hin Hm) as [s' Hr]. rewrite Hr in *.
    rewrite !finish_control_props in * by done. by apply finish_control_value.
Qed.

(** ** The memory of form data *)

Lemma strict_eq_str_r v w : strict_eq (JStr v) (JStr w) = bool_decide (v = w).
Proof. done. Qed.

(** The memory as a map from the names of visualisations to form data. *)
Definition as_memory (m : list (string * jsobj)) : memory := prod_map JStr JObj <$> m.

Lemma memory_get_as v m : memory_get (JStr v) (as_memory m) = JObj <$> aget v m.
Proof.
  unfold memory_get, as_memory. induction m as [|[k o] m IH]; [done|]. cbn.
  rewrite (bool_decide_ext (k = v) (v = k)) by done. case_bool_decide as E; cbn.
  - by rewrite decide_True.
  - rewrite decide_False by done. exact IH.
Qed.

Lemma memory_delete_as v m : memory_delete (JStr v) (as_memory m) = as_memory (adel v m).
Proof.
  unfold memory_delete, as_memory. induction m as [|[k o] m IH]; [done|].
  rewrite fmap_cons. cbn [adel]. destruct (decide (v = k)) as [->|Hk].
  - rewrite filter_cons_False by (cbn; by rewrite bool_decide_eq_true_2). exact IH.
  - rewrite filter_cons_True by (cbn; by rewrite bool_decide_eq_false_2). rewrite fmap_cons. by f_equal.
Qed.

Lemma memory_set_as v o m :
  aget v m = None → memory_set (JStr v) (JObj o) (as_memory m) = as_memory (m ++ [(v, o)]).
Proof.
  intros Hv. unfold memory_set. replace (existsb _ _) with false.
  - unfold as_memory. by rewrite fmap_app.
  - symmetry. apply not_true_iff_false. intros H. apply existsb_exists in H as ([k w] & Hin & Hk).
    apply list_elem_of_In, list_elem_of_fmap in Hin as ([k' o'] & [= -> ->] & Hin). cbn in Hk.
    apply bool_decide_eq_true in Hk. subst k'. apply aget_None in Hv. apply Hv.
    apply list_elem_of_fmap. by exists (v, o').
Qed.

Lemma new_map_as m : NoDup (akeys m) →
  new_map (array_items (memory_value (as_memory m))) = Ok (as_memory m).
Proof.
  unfold new_map, memory_value. cbn [array_items].
  assert (∀ m' m, NoDup (akeys (m' ++ m)) → fold_result (λ m v, e ← map_entry v; Ok (memory_set e.1 e.2 m))
    (as_memory m') ((λ kv, JArr [kv.1; kv.2]) <$> as_memory m) = Ok (as_memory (m' ++ m))) as H.
  { intros m' m0. revert m'. induction m0 as [|[k o] m0 IH]; intros m' Hn; [by rewrite app_nil_r|].
    cbn [as_memory fmap list_fmap fold_result]. cbn [map_entry prod_map fst snd lookup list_lookup default].
    rewrite bind_Ok. cbn [fst snd]. rewrite bind_Ok. unfold id. rewrite memory_set_as.
    - fold (as_memory m0). rewrite (IH (m' ++ [(k, o)])); rewrite <- app_assoc; done.
    - apply aget_None. unfold akeys in *. rewrite fmap_app in Hn. apply NoDup_app in Hn as (_ & Hd & _).
      intros Hk. apply (Hd k Hk). by left. }
  exact (H [] m).
Qed.

(** A session: the user edits form data and changes the visualisation; the form
    data of each visit carry the memory that the last visit left. *)
Inductive session : list (string * jsobj) → StandardizedFormData → Prop :=
| session_start v d f s :
    ofield "viz_type" f = JStr v → ofield "datasource" f = JStr d →
    aget "standardizedFormData" f = None → new_StandardizedFormData f = Ok s →
    session [(v, f)] s
| session_next visits v0 f0 s0 v d f o s :
    session (visits ++ [(v0, f0)]) s0 →
    ofield "viz_type" f = JStr v →
    ofield "datasource" f = JStr d → ofield "datasource" f0 = JStr d →
    ofield "standardizedFormData" f = JObj o →
    ofield "memorizedFormData" o = memory_value (sfd_memory s0) →
    new_StandardizedFormData f = Ok s →
    session ((visits ++ [(v0, f0)]) ++ [(v, f)]) s.

Lemma new_first v f :
  ofield "viz_type" f = JStr v → aget "standardizedFormData" f = None →
  ∃ s, new_StandardizedFormData f = Ok s ∧ sfd_memory s = as_memory [(v, f)].
Proof.
  intros Hv Hs. unfold new_StandardizedFormData.
  assert (ofield "standardizedFormData" f = JUndef) as -> by (unfold ofield; by rewrite Hs). cbn [opt_field].
  rewrite bind_Ok. eexists. split; [done|]. cbn [sfd_memory]. rewrite Hv.
  rewrite adel_fresh by (by apply aget_None). by apply (memory_set_as v f []).
Qed.

Lemma new_next m v0 f0 v d f o :
  NoDup (akeys (m ++ [(v0, f0)])) → ofield "viz_type" f = JStr v →
  ofield "datasource" f = JStr d → ofield "datasource" f0 = JStr d →
  ofield "standardizedFormData" f = JObj o →
  ofield "memorizedFormData" o = memory_value (as_memory (m ++ [(v0, f0)])) →
  ∃ s, new_StandardizedFormData f = Ok s ∧
       sfd_memory s = as_memory (adel v (m ++ [(v0, f0)]) ++ [(v, f)]).
Proof.
  intros Hn Hv Hd Hd0 Hs Hm. pose proof (new_map_as (m ++ [(v0, f0)]) Hn) as Hnew.
  assert (∃ e es, memory_value (as_memory (m ++ [(v0, f0)])) = JArr (e :: es) ∧
            last_datasource (e :: es) = Ok (JStr d)) as (e & es & E & Hl).
  { unfold memory_value, as_memory. rewrite !fmap_app. cbn [fmap list_fmap prod_map fst snd].
    set (l := _ <$> (_ <$> m)). set (x := JArr [JStr v0; JObj f0]).
    assert (last_datasource (l ++ [x]) = Ok (JStr d)) as Hl.
    { unfold last_datasource. rewrite last_snoc. cbn. unfold id. f_equal. exact Hd0. }
    destruct l as [|e es]; [by exists x, []|by exists e, (es ++ [x])]. }
  unfold new_StandardizedFormData. rewrite Hs. cbn [opt_field]. rewrite Hm, Hv, E. rewrite E in Hnew.
  rewrite Hl, !bind_Ok, Hd, Hnew, bind_Ok. rewrite strict_eq_str_r, bool_decide_eq_true_2 by done.
  eexists. split; [done|]. cbn [sfd_memory]. rewrite memory_delete_as, memory_set_as; [done|].
  apply aget_adel_eq.
Qed.

Lemma session_memory visits s :
  session visits s → ∃ m, sfd_memory s = as_memory m ∧ NoDup (akeys m) ∧ last m = last visits ∧
    ∀ v, aget v m = aget v (reverse visits).
Proof.
  induction 1 as [v d f s Hv Hd Hs Hnew|visits v0 f0 s0 v d f o s Hsess IH Hv Hd Hd0 Hs Hm Hnew].
  - destruct (new_first v f Hv Hs) as (s' & Hs' & Hmem). rewrite Hnew in Hs'. injection Hs' as <-.
    exists [(v, f)]. split; [done|]. split; [apply NoDup_singleton|done].
  - destruct IH as (m & Hmem & Hn & Hlast & Hget). rewrite last_snoc in Hlast.
    apply last_Some in Hlast as [m0 ->]. rewrite Hmem in Hm.
    destruct (new_next m0 v0 f0 v d f o Hn Hv Hd Hd0 Hs Hm) as (s' & Hs' & Hmem').
    rewrite Hnew in Hs'. injection Hs' as <-. eexists. split; [exact Hmem'|].
    assert (aget v (adel v (m0 ++ [(v0, f0)])) = None) as Hnone by apply aget_adel_eq.
    split; [|split; [by rewrite !last_snoc|]].
    + unfold akeys. rewrite fmap_app. apply NoDup_app. split; [by apply NoDup_akeys_adel|]. split.
      * intros k Hk Hk'. apply list_elem_of_singleton in Hk' as ->. by apply aget_None in Hnone.
      * apply NoDup_singleton.
    + intros k. rewrite (reverse_app (visits ++ _)). cbn [reverse]. rewrite aget_app, aget_adel, Hget.
      cbn. destruct (decide (k = v)) as [->|]; [done|]. by destruct (aget k _).
Qed.

Lemma aget_public k form_data :
  aget k (public_form_data form_data) = if decide (k ∈ publicControls) then aget k form_data else None.
Proof.
  unfold public_form_data.
  assert (∀ keys acc, aget k (foldl (λ acc key, match aget key form_data with Some v => oset key v acc
    | None => acc end) acc keys) = match (if decide (k ∈ keys) then aget k form_data else None) with
    | Some v => Some v | None => aget k acc end) as H.
  { intros keys. induction keys as [|key keys IH]; intros acc.
    - rewrite decide_False; [done|apply not_elem_of_nil].
    - cbn [foldl]. rewrite IH. destruct (aget key form_data) as [w|] eqn:E.
      + rewrite aget_oset. destruct (decide (k = key)) as [->|Hk].
        * rewrite (decide_True (P := key ∈ key :: keys)) by (by left). rewrite E. by case_decide.
        * destruct (decide (k ∈ keys)); [rewrite decide_True by (by right)|
            rewrite decide_False by (by intros [?|?]%elem_of_cons)]; done.
      + destruct (decide (k ∈ keys)); [rewrite decide_True by (by right); done|].
        case_decide as Hk; [|done]. apply elem_of_cons in Hk as [->|?]; [|done]. by rewrite E. }
  rewrite H. by destruct (if decide _ then _ else _).
Qed.

Lemma NoDup_public form_data : NoDup (akeys (public_form_data form_data)).
Proof.
  unfold public_form_data.
  assert (∀ keys acc, NoDup (akeys acc) → NoDup (akeys (foldl (λ acc key,
    match aget key form_data with Some v => oset key v acc | None => acc end) acc keys))) as H.
  { intros keys. induction keys as [|key keys IH]; intros acc Ha; [done|]. cbn. apply IH.
    destruct (aget key form_data); [by apply NoDup_akeys_oset|done]. }
  apply H, NoDup_nil_2.
Qed.

(** The state of a session is that of its last visit. *)
Lemma session_new visits v f s : session (visits ++ [(v, f)]) s → new_StandardizedFormData f = Ok s.
Proof.
  intros Hs. remember (visits ++ [(v, f)]) as vs eqn:E.
  destruct Hs as [v' d f' s' _ _ _ Hnew|vs v0 f0 s0 v' d f' o s' _ _ _ _ _ _ Hnew].
  - destruct visits as [|x [|y visits]]; try done. injection E as -> ->. done.
  - apply app_inj_2 in E as [_ E]; [|done]. by injection E as -> ->.
Qed.

Lemma session_last visits v f s :
  session (visits ++ [(v, f)]) s → memory_get (JStr v) (sfd_memory s) = Some (JObj f).
Proof.
  intros Hs. destruct (session_memory _ _ Hs) as (m & -> & _ & _ & Hget).
  rewrite memory_get_as, Hget, reverse_app. cbn. by rewrite decide_True.
Qed.

(** A session goes on with form data that carry its memory. *)
Lemma session_continue visits w g s v next d o :
  session (visits ++ [(w, g)]) s → ofield "viz_type" next = JStr v →
  ofield "datasource" next = JStr d → ofield "datasource" g = JStr d →
  ofield "standardizedFormData" next = JObj o →
  ofield "memorizedFormData" o = memory_value (sfd_memory s) →
  ∃ s', session ((visits ++ [(w, g)]) ++ [(v, next)]) s' ∧
        memory_get (JStr v) (sfd_memory s') = Some (JObj next) ∧
        ∀ x, x ≠ v → memory_get (JStr x) (sfd_memory s') = memory_get (JStr x) (sfd_memory s).
Proof.
  intros Hsess Hv Hd Hdg Hs Ho. destruct (session_memory _ _ Hsess) as (m & Hm & Hn & Hlast & Hget).
  rewrite last_snoc in Hlast. apply last_Some in Hlast as [m0 ->]. rewrite Hm in Ho.
  destruct (new_next m0 w g v d next o Hn Hv Hd Hdg Hs Ho) as (s' & Hs' & Hmem').
  exists s'. split; [eapply session_next; try done; by rewrite Hm|].
  rewrite Hmem', Hm. split; [|intros x Hx]; rewrite !memory_get_as, aget_app, aget_adel.
  - rewrite decide_True by done. cbn. by rewrite decide_True.
  - rewrite decide_False by done. cbn [aget]. rewrite decide_False by done. by destruct (aget x _).
Qed.

(** The form data that a visualisation starts from. *)
Lemma session_latest visits w g v s :
  session (visits ++ [(w, g)]) s →
  getLatestFormData (JStr v) s = Ok (JObj (default g (aget v (reverse (visits ++ [(w, g)]))))).
Proof.
  intros Hsess. destruct (session_memory _ _ Hsess) as (m & Hm & Hn & Hlast & Hget). rewrite last_snoc in Hlast.
  unfold getLatestFormData. rewrite Hm, memory_get_as, Hget.
  destruct (aget v (reverse (visits ++ [(w, g)]))) as [f|]; [done|]. cbn [fmap option_fmap option_map default].
  apply last_Some in Hlast as [m0 ->]. unfold as_memory. rewrite fmap_app. cbn [fmap list_fmap].
  by rewrite last_snoc.
Qed.

(** C32. Changing the visualisation and coming back restores the controls.  The
    form data after a change to a visualisation whose plugin has no overrides of
    its own are read from the controls of its panel, and these are computed from
    the last form data that it had in the session, or from the last form data of
    all when it is new, except that the public controls that are set now are
    carried over and the visualisation is the new one; the form data carry the
    memory, and the dashboard when there is one.  Going on with such form data, on
    the same datasource, never fails and never forgets a visualisation. *)
Theorem viz_switch_restores getSectionsToRender onInit formDataOverrides visits s v w f g exploreState form_data rv :
  session (visits ++ [(w, g)]) s →
  f = default g (aget v (reverse (visits ++ [(w, g)]))) →
  formDataOverrides (JStr v) = None →
  transform getSectionsToRender onInit formDataOverrides (JStr v) exploreState form_data s = Ok rv →
  getLatestFormData (JStr v) s = Ok (JObj f) ∧
  (∃ source panel values,
    (∀ k, aget k source =
       if decide (k = "viz_type") then Some (JStr v)
       else if decide (k ∈ publicControls ∧ is_Some (aget k form_data)) then aget k form_data
       else aget k f) ∧
    getControlsState getSectionsToRender onInit exploreState source = Ok panel ∧
    getFormDataFromControls (controls_json panel) = Ok values ∧
    ∀ k, aget k rv.1 =
      if decide (k = "standardizedFormData") then Some (serialize s)
      else if decide (k = "dashboardId" ∧ truthy (ofield "dashboardId" form_data) = true)
      then Some (ofield "dashboardId" form_data) else aget k values) ∧
  ∀ next d o, ofield "viz_type" next = JStr v → ofield "datasource" next = JStr d →
    ofield "datasource" g = JStr d → ofield "standardizedFormData" next = JObj o →
    ofield "memorizedFormData" o = memory_value (sfd_memory s) →
    ∃ s', session ((visits ++ [(w, g)]) ++ [(v, next)]) s' ∧
          memory_get (JStr v) (sfd_memory s') = Some (JObj next) ∧
          ∀ x, x ≠ v → memory_get (JStr x) (sfd_memory s') = memory_get (JStr x) (sfd_memory s).
Proof.
  intros Hsess -> Hov Hrv. pose proof (session_latest _ _ _ v _ Hsess) as Hlatest.
  split; [done|]. split.
  - unfold transform in Hrv. apply bind_Ok_inv in Hrv as (target & Ht & Hrv). rewrite Hov, bind_Ok in Hrv.
    apply bind_Ok_inv in Hrv as (cs & _ & Hrv). apply Ok_inj in Hrv as <-. cbn [fst].
    unfold target_form_data in Ht. rewrite Hlatest, bind_Ok in Ht.
    apply bind_Ok_inv in Ht as (panel & Hp & Ht). apply bind_Ok_inv in Ht as (values & Hv & Ht).
    apply Ok_inj in Ht as <-. cbn [fst]. cbn [spread_value] in Hp. eexists _, panel, values.
    split; [|split; [exact Hp|split; [exact Hv|]]]; intros k.
    + rewrite aget_oset. case_decide; [done|]. rewrite aget_ospread by apply NoDup_public.
      rewrite aget_public. destruct (decide (k ∈ publicControls)) as [Hk|Hk].
      * destruct (aget k form_data) eqn:E; [rewrite decide_True by (split; [done|by eexists])|
          rewrite decide_False by (by intros [_ [? ?]])]; done.
      * rewrite decide_False by tauto. done.
    + assert (ofield "dashboardId" (public_form_data form_data) = ofield "dashboardId" form_data) as Hd.
      { unfold ofield. rewrite aget_public, decide_True; [done|].
        apply (bool_decide_unpack _). vm_compute. exact I. }
      rewrite Hd, aget_oset. case_decide; [done|].
      destruct (truthy (ofield "dashboardId" form_data)); [|by rewrite decide_False by naive_solver].
      rewrite aget_oset. destruct (decide (k = "dashboardId")) as [->|];
        [by rewrite decide_True|by rewrite decide_False by naive_solver].
  - intros next d o Hv Hd Hdg Hs Ho. by eapply session_continue.
Qed.

(** ** The size of the form data *)

(** The number of values in a value, as a text of it has them. *)
Fixpoint jsize (v : jsval) : nat :=
  S match v with
    | JArr l => sum_list_with jsize l
    | JObj o => sum_list_with (λ kv, jsize kv.2) o
    | _ => 0
    end.

Fixpoint fib (n : nat) : nat :=
  match n with
  | 0 => 0
  | S n' => match n' with 0 => 1 | S n'' => fib n' + fib n'' end
  end.

Lemma fib_SS n : fib (S (S n)) = fib (S n) + fib n.
Proof. done. Qed.

Lemma jsize_field k o v : aget k o = Some v → jsize v < jsize (JObj o).
Proof.
  cbn [jsize]. induction o as [|[k' w] o IH]; [done|]. cbn [aget sum_list_with snd].
  case_decide; [intros [= ->]; lia|]. intros Hv%IH. lia.
Qed.

Lemma ofield_aget k f v : ofield k f = v → v ≠ JUndef → aget k f = Some v.
Proof. unfold ofield. by destruct (aget k f) as [w|]; cbn; [intros ->|intros <-]. Qed.

Lemma sum_list_with_app' {A} (f : A → nat) l l' :
  sum_list_with f (l ++ l') = sum_list_with f l + sum_list_with f l'.
Proof. induction l as [|x l IH]; [done|]. cbn. rewrite IH. lia. Qed.

Lemma memory_size_app m m' :
  jsize (memory_value (as_memory m)) + sum_list_with (λ kv, jsize (JObj kv.2)) m' ≤
  jsize (memory_value (as_memory (m ++ m'))).
Proof.
  unfold memory_value, as_memory. rewrite !fmap_app.
  assert (∀ l l' : list jsval, jsize (JArr (l ++ l')) = jsize (JArr l) + sum_list_with jsize l') as Happ.
  { intros l l'. change (jsize (JArr (l ++ l'))) with (S (sum_list_with jsize (l ++ l'))).
    rewrite sum_list_with_app'. done. }
  rewrite Happ. apply Nat.add_le_mono_l. induction m' as [|[k o] m' IH]; [done|].
  rewrite !fmap_cons. cbn [sum_list_with prod_map fst snd].
  assert (jsize (JObj o) ≤ jsize (JArr [JStr k; JObj o])); [|lia].
  change (jsize (JArr [JStr k; JObj o])) with (S (1 + (jsize (JObj o) + 0))). lia.
Qed.

Lemma adel_app {V} k (a b : list (string * V)) : adel k (a ++ b) = adel k a ++ adel k b.
Proof. induction a as [|[k' v] a IH]; [done|]. cbn. case_decide; [done|]. cbn. by rewrite IH. Qed.

(** Consecutive visits have different visualisations. *)
Definition switching (visits : list (string * jsobj)) : Prop :=
  ∀ i a b, visits !! i = Some a → visits !! S i = Some b → a.1 ≠ b.1.

Lemma session_size visits s :
  session visits s → switching visits →
  fib (S (length visits)) ≤ jsize (memory_value (sfd_memory s)) ∧
  ∀ i x, visits !! i = Some x → fib (S i) ≤ jsize (JObj x.2).
Proof.
  induction 1 as [v d f s Hv Hd Hs Hnew|visits v0 f0 s0 v d f o s Hsess IH Hv Hd Hd0 Hs Hm Hnew]; intros Hsw.
  - split; [cbn; lia|]. intros [|i] x Hx; [cbn; lia|done].
  - destruct IH as [IHm IHv].
    { intros i a b Ha Hb. by eapply Hsw; apply lookup_app_l_Some. }
    assert (v0 ≠ v) as Hne.
    { apply (Hsw (length visits) (v0, f0) (v, f)).
      - apply lookup_app_l_Some. by apply list_lookup_middle.
      - apply list_lookup_middle. rewrite length_app. cbn. lia. }
    assert (fib (S (length (visits ++ [(v0, f0)]))) ≤ jsize (JObj f)) as Hf.
    { etrans; [exact IHm|]. apply ofield_aget in Hs, Hm; [|done..].
      apply jsize_field in Hs, Hm. lia. }
    destruct (session_memory _ _ Hsess) as (m & Hmem & Hn & Hlast & _). rewrite last_snoc in Hlast.
    apply last_Some in Hlast as [m0 ->]. rewrite Hmem in Hm.
    destruct (new_next m0 v0 f0 v d f o Hn Hv Hd Hd0 Hs Hm) as (s' & Hs' & Hmem').
    rewrite Hnew in Hs'. injection Hs' as <-.
    assert (fib (S (length visits)) ≤ jsize (JObj f0)) as Hf0.
    { apply (IHv (length visits) (v0, f0)). by apply list_lookup_middle. }
    split.
    + rewrite Hmem', adel_app. cbn [adel]. rewrite decide_False by done.
      rewrite <- (app_assoc (adel v m0)). cbn [app]. pose proof (memory_size_app (adel v m0) [(v0, f0); (v, f)]) as Hsz.
      cbn [sum_list_with snd] in Hsz.
      assert (length ((visits ++ [(v0, f0)]) ++ [(v, f)]) = S (S (length visits))) as -> by (rewrite !length_app; cbn; lia).
      rewrite length_app, Nat.add_1_r in Hf. rewrite fib_SS. lia.
    + intros i x Hx. apply lookup_app_Some in Hx as [Hx|[Hi Hx]]; [by eapply IHv|].
      destruct (i - length (visits ++ [(v0, f0)])) as [|k] eqn:Ei; [|done]. injection Hx as <-.
      replace i with (length (visits ++ [(v0, f0)])) by lia. exact Hf.
Qed.

(** Form data grow with each change of the visualisation: the memory stores
    the form data of a visit together with the memory that they carry, so that
    the size of the form data after [n] changes is at least the Fibonacci
    number of [n], even when two visualisations take turns. *)
Theorem viz_switch_growth visits v f s :
  session (visits ++ [(v, f)]) s → switching (visits ++ [(v, f)]) →
  fib (S (length visits)) ≤ jsize (JObj f) ∧
  fib (S (S (length visits))) ≤ jsize (serialize s).
Proof.
  intros Hsess Hsw. destruct (session_size _ _ Hsess Hsw) as [Hm Hv]. split.
  - apply (Hv (length visits) (v, f)). by apply list_lookup_middle.
  - rewrite length_app, Nat.add_1_r in Hm. etrans; [exact Hm|]. apply Nat.lt_le_incl.
    by apply (jsize_field "memorizedFormData").
Qed.

(** ** A session with two visualisations *)

(** The form data of a visit, with the memory that is carried. *)
Definition visit_form (viz : string) (carried : list (string * jsval)) : jsobj :=
  [("datasource", JStr "7__table"); ("viz_type", JStr viz); ("metric", JStr "count")] ++ carried.

Definition carried_memory (s : result StandardizedFormData) : list (string * jsval) :=
  match s with Ok s => [("standardizedFormData", serialize s)] | Throw _ => [] end.

Definition visit1 : jsobj := visit_form "bar" [].
Definition visit2 : jsobj := visit_form "pie" (carried_memory (new_StandardizedFormData visit1)).
Definition visit3 : jsobj := visit_form "bar" (carried_memory (new_StandardizedFormData visit2)).

Definition state_after (f : jsobj) : StandardizedFormData :=
  match new_StandardizedFormData f with
  | Ok s => s
  | Throw _ => {| sfd_controls := no_controls; sfd_memory := [] |}
  end.

Lemma sample_session : session [("bar", visit1); ("pie", visit2)] (state_after visit2).
Proof.
  apply (session_next [] "bar" visit1 (state_after visit1) "pie" "7__table" visit2
    (spread_value (serialize (state_after visit1)))); try by vm_compute.
  by apply (session_start "bar" "7__table").
Defined.

Lemma viz_switch_growth_witness :
  session [("bar", visit1); ("pie", visit2)] (state_after visit2) ∧
  fib 2 ≤ jsize (JObj visit2) ∧ fib 3 ≤ jsize (serialize (state_after visit2)).
Proof.
  split; [exact sample_session|].
  apply (viz_switch_growth [("bar", visit1)] "pie" visit2 (state_after visit2) sample_session).
  intros [|[|i]] a b Ha Hb; try done. injection Ha as <-. injection Hb as <-. done.
Defined.

(** A control with the choices [day] and [week] is given the value [year]. *)
Definition select_control (value : jsval) (multi : bool) : control :=
  {| props := [("type", JStr "SelectControl"); ("multi", JBool multi); ("value", value);
               ("choices", JArr [JArr [JStr "day"; JStr "Day"]; JArr [JStr "week"; JStr "Week"]])];
     default_fn := None; initial_fn := None; validators := []; mapStateToProps := None |}.

Lemma select_value_valid_witness :
  let r := applyMapStateToPropsToControl
             (select_control (JArr [JStr "week"; JStr "year"]) true) None in
  let one value := value_of (applyMapStateToPropsToControl (select_control value false) None) in
  value_of r = JArr [JStr "week"] ∧ one (JStr "year") = JNull ∧
  (∃ l, value_of r = JArr l ∧
    ∀ x, x ∈ l → js_includes (choice_values (ofield "choices" (props r))) x = true).
Proof.
  intros r one.
  destruct (select_value_valid (select_control (JArr [JStr "week"; JStr "year"]) true) None
    eq_refl eq_refl eq_refl) as [Hvalid Hkept].
  destruct (select_value_valid (select_control (JStr "year") false) None eq_refl eq_refl eq_refl) as [_ Hone].
  split; [etransitivity; [by apply Hkept|reflexivity]|].
  split; [etransitivity; [by apply Hone|reflexivity]|].
  exact (Hvalid eq_refl).
Defined.

Example missing_choice_cleared :
  value_of (applyMapStateToPropsToControl (select_control (JStr "year") false) None) = JNull.
Proof. reflexivity. Qed.
