(* ===== verification/ExploreReducer.v ===== *)
(** * The reducer of the chart editor

    [app/explore/reducers/exploreReducer.js] keeps the form data and the state
    of the controls of the chart that is edited.  The user sets a control,
    changes the visualisation or the datasource, and controls that are not shown
    take their form data away until they are shown again.

    The parts of the state that the reducer reads are fields of a record, the
    other ones an object.  Two effects on the previous state are not
    represented: the configuration of columns is changed in place when a metric
    is renamed, and metrics in SQL are marked in place when the datasource
    changes; the next state holds what they become.  A value that is an object
    counts as the default of its control when it is equal to it. *)

From Stdlib Require Import Ascii String.
From stdpp Require Import base strings option numbers list.
From S2P Require Import Prelude JsObject JsNumber JsValue Lodash QueryTypes Query ChartReducer Explore.

Record explore_state := {
  es_controls : controls;
  form_data : jsobj;
  hiddenFormData : jsval;
  es_rest : jsobj;
}.

(** The state as a plain object, which is what the functions of plugins see. *)
Definition explore_json (st : explore_state) : jsobj :=
  oset "controls" (JObj (controls_json (es_controls st)))
    (oset "form_data" (JObj (form_data st)) (oset "hiddenFormData" (hiddenFormData st) (es_rest st))).

Definition set_rest (k : string) (v : jsval) (st : explore_state) : explore_state :=
  {| es_controls := es_controls st; form_data := form_data st; hiddenFormData := hiddenFormData st;
     es_rest := oset k v (es_rest st) |}.

Definition set_controls (cs : controls) (st : explore_state) : explore_state :=
  {| es_controls := cs; form_data := form_data st; hiddenFormData := hiddenFormData st;
     es_rest := es_rest st |}.

Definition set_form_data (f : jsobj) (st : explore_state) : explore_state :=
  {| es_controls := es_controls st; form_data := f; hiddenFormData := hiddenFormData st;
     es_rest := es_rest st |}.

Definition set_hidden (h : jsval) (st : explore_state) : explore_state :=
  {| es_controls := es_controls st; form_data := form_data st; hiddenFormData := h;
     es_rest := es_rest st |}.

(** [xs.some(f)] on a value, which must be an array. *)
Fixpoint some_result (f : jsval → result bool) (xs : list jsval) : result bool :=
  match xs with
  | [] => Ok false
  | x :: xs => b ← f x; if (b : bool) then Ok true else some_result f xs
  end.

Definition some_of (f : jsval → result bool) (v : jsval) : result bool :=
  match v with
  | JArr xs => some_result f xs
  | JUndef | JNull => Throw (TypeError "Cannot read properties of undefined (reading 'some')")
  | _ => Throw (TypeError "some is not a function")
  end.

Section reducer.
Context `{Lodash}.

(** ** A new datasource *)

(** Whether a value fits a datasource: the value, marked if it is a metric in
    SQL, or nothing.

    @source app/explore/controlUtils/getControlValuesCompatibleWithDatasource.ts 33-91 isControlValueCompatibleWithDatasource *)
Definition isControlValueCompatibleWithDatasource (datasource : jsval) (controlState : jsobj)
    (value : jsval) : result (option jsval) :=
  let get k := ofield k controlState in
  let named k x := v ← field k x; Ok (strict_eq v value) in
  let keep b := if (b : bool) then Some value else None in
  let has_columns := negb (isEmpty (opt_field "columns" datasource)) in
  let columns := field "columns" datasource in
  by_option ←
    if truthy (get "options") && is_string value then
      listed ←
        if isEmpty (get "options") then Ok false
        else some_of (λ option,
               match option with
               | JArr l => Ok (strict_eq (default JUndef (head l)) value)
               | option => named "column_name" option
               end) (get "options");
      Ok (listed || has_columns)
    else Ok false;
  if (by_option : bool) then
    columns ← columns; found ← some_of (named "column_name") columns; Ok (keep found)
  else
    by_metric ←
      if truthy (get "savedMetrics") && isSavedMetric value then
        listed ← some_of (named "metric_name") (get "savedMetrics");
        Ok (listed || negb (isEmpty (opt_field "metrics" datasource)))
      else Ok false;
    if (by_metric : bool) then
      metrics ← field "metrics" datasource; found ← some_of (named "metric_name") metrics;
      Ok (keep found)
    else
      let of_value x :=
        name ← field "column_name" x;
        Ok (strict_eq name (opt_field "column_name" (opt_field "column" value)) ||
            strict_eq name (opt_field "subject" value)) in
      by_column ←
        if truthy (get "columns") then
          simple ← if isAdhocMetricSimple value then Ok true else isSimpleAdhocFilter value;
          if (simple : bool) then
            listed ← if isEmpty (get "columns") then Ok false else some_of of_value (get "columns");
            Ok (listed || has_columns)
          else Ok false
        else Ok false;
      if (by_column : bool) then
        columns ← columns; found ← some_of of_value columns; Ok (keep found)
      else if isAdhocMetricSQL value then
        Ok (Some (JObj (oset "datasourceWarning" (JBool true) (object_entries value))))
      else Ok None.

(** @source app/explore/controlUtils/getControlValuesCompatibleWithDatasource.ts 93-112 getControlValuesCompatibleWithDatasource *)
Definition getControlValuesCompatibleWithDatasource (datasource : jsval) (controlState : jsobj)
    (value : jsval) : result jsval :=
  let default_ := ofield "default" controlState in
  match value with
  | JUndef | JNull => Ok JUndef
  | JArr values =>
      checked ← map_result (isControlValueCompatibleWithDatasource datasource controlState) values;
      Ok match omap id checked with [] => default_ | compatible => JArr compatible end
  | value =>
      checked ← isControlValueCompatibleWithDatasource datasource controlState value;
      Ok (default default_ checked)
  end.

(** The controls whose values are taken from the datasource.

    @source app/explore/reducers/exploreReducer.js 85-92 exploreReducer (controls of a datasource) *)
Definition depends_on_datasource (controlState : jsobj) : bool :=
  is_str (ofield "valueKey" controlState) "column_name" || ahas "savedMetrics" controlState ||
  ahas "columns" controlState ||
  (ahas "options" controlState && negb (is_array (ofield "options" controlState))).

(** [a !== b] for a value and the default of its control. *)
Definition differs_from_default (v d : jsval) : bool :=
  match v, d with
  | JNum x, JNum y => negb (num_eqb x y)
  | _, _ => negb (bool_decide (v = d))
  end.

(** @source app/explore/reducers/exploreReducer.js 84-105 exploreReducer (reset of a control) *)
Definition reset_control (newDatasource : jsval) (acc : jsobj * list jsval) (nc : string * control)
    : result (jsobj * list jsval) :=
  let controlState := props nc.2 in
  if depends_on_datasource controlState then
    value ← getControlValuesCompatibleWithDatasource newDatasource controlState
              (ofield "value" controlState);
    Ok (oset nc.1 value acc.1,
        if negb (bool_decide (ensureIsArray value = [])) &&
           differs_from_default value (ofield "default" controlState)
        then acc.2 ++ [JStr nc.1] else acc.2)
  else Ok acc.

(** ** A new value *)

(** The configuration of a column follows its metric when it is renamed.

    @source app/explore/reducers/exploreReducer.js 136-151 exploreReducer (renamed metric) *)
Definition rename_column (old_metrics : list jsval) (acc : nat * jsval) (item : jsval)
    : result (nat * jsval) :=
  let '(index, config) := acc in
  let label v := opt_field "label" v in
  let itemExist := existsb (λ oldItem, strict_eq (label oldItem) (label item)) old_metrics in
  let old_label := label (default JUndef (old_metrics !! index)) in
  if negb itemExist && negb (strict_eq (label item) old_label) &&
     truthy (opt_field (to_string old_label) config)
  then
    name ← field "label" item;
    let entries := object_entries config in
    Ok (S index,
        JObj (adel (to_string old_label)
          (oset (to_string name) (ofield (to_string old_label) entries) entries)))
  else Ok (S index, config).

(** @source app/explore/reducers/exploreReducer.js 127-153 exploreReducer (column config) *)
Definition renamed_config (controlName : string) (value : jsval) (formData : jsobj) : result jsval :=
  let old_metrics := ofield "metrics" formData in
  let config := ofield "column_config" formData in
  if bool_decide (controlName = "metrics") && truthy old_metrics && truthy config then
    items ← for_each_items value;
    olds ← if bool_decide (items = []) then Ok [] else for_each_items old_metrics;
    acc ← fold_result (rename_column olds) (0, config) items;
    Ok acc.2
  else Ok config.

Context (getSectionsToRender : jsval → jsval → controls).
Context (onInit : jsval → option (controls → controls)).
Context (formDataOverrides : jsval → option (jsobj → StandardizedControls → jsobj * StandardizedControls)).
(** The configuration of a control of a visualisation. *)
Context (getControlConfig : string → jsval → option control).

(** [errors], with the errors that are not among them.

    @source app/explore/reducers/exploreReducer.js 194-203 exploreReducer (errors) *)
Definition combined_errors (control : option control) (validationErrors : list jsval) : list jsval :=
  let errors := match control with
                | Some c => array_items (js_or (ofield "validationErrors" (props c)) (JArr []))
                | None => []
                end in
  foldl (λ errors err, if js_includes errors err then errors else errors ++ [err])
    errors validationErrors.

(** @source app/explore/reducers/exploreReducer.js 181-192 exploreReducer (rerendered controls) *)
Definition rerendered_controls (control : option control) (newState : explore_state)
    : result controls :=
  let names := match control with
               | Some c => array_items (ofield "rerender" (props c))
               | None => []
               end in
  fold_result (λ acc name,
    match aget (to_string name) (es_controls newState) with
    | None => Throw (TypeError "Cannot read properties of undefined (reading 'value')")
    | Some c =>
        Ok (oset (to_string name)
              (getControlStateFromControlConfig c (Some (explore_json newState)) (value_of c)) acc)
    end) [] names.

(** @source app/explore/reducers/exploreReducer.js 217-261 exploreReducer (dependent controls) *)
Definition dependant_controls (controlName : string) (value : jsval) (st : explore_state) : controls :=
  let overWrittenState := set_form_data (oset controlName value (form_data st)) st in
  foldl (λ acc nc,
    if js_includes (array_items (ofield "validationDependancies" (props nc.2))) (JStr controlName) then
      oset nc.1
        (getControlStateFromControlConfig nc.2 (Some (explore_json overWrittenState)) (value_of nc.2)) acc
    else acc) [] (es_controls st).

Definition no_control : control :=
  {| props := []; default_fn := None; initial_fn := None; validators := []; mapStateToProps := None |}.

(** The control that is set, with the controls as they are with it.

    @source app/explore/reducers/exploreReducer.js 155-179 exploreReducer (control) *)
Definition set_control (controlName : string) (value config : jsval) (st : explore_state)
    : option control * explore_state :=
  let vizType := ofield "viz_type" (oset controlName value (form_data st)) in
  let controlConfig :=
    match aget controlName (es_controls st) with
    | Some c => Some c
    | None => getControlConfig controlName vizType
    end in
  let control :=
    (λ c, getControlStateFromControlConfig c (Some (explore_json st)) value) <$> controlConfig in
  let column_config :=
    let c := default no_control (aget "column_config" (es_controls st)) in
    if truthy config then with_props (oset "value" config (props c)) c else c in
  let cs := match control with Some c => oset controlName c (es_controls st) | None => es_controls st end in
  let cs := if bool_decide (controlName = "metrics") then oset "column_config" column_config cs else cs in
  (control, set_controls cs st).

(** @source app/explore/reducers/exploreReducer.js 205-215 exploreReducer (change of the visualisation) *)
Definition switched (controlName : string) (value : jsval) (new_form_data : jsobj) (st : explore_state)
    : result (jsobj * controls) :=
  isVizSwitch ←
    if bool_decide (controlName = "viz_type") then
      match aget "viz_type" (es_controls st) with
      | Some c => Ok (negb (strict_eq value (value_of c)))
      | None => Throw (TypeError "Cannot read properties of undefined (reading 'value')")
      end
    else Ok false;
  if (isVizSwitch : bool) then
    sfd ← new_StandardizedFormData (form_data st);
    transform getSectionsToRender onInit formDataOverrides value (explore_json st) (form_data st) sfd
  else Ok (new_form_data, es_controls st).

(** @source app/explore/reducers/exploreReducer.js 125-279 exploreReducer (SET_FIELD_VALUE) *)
Definition set_field_value (controlName : string) (value : jsval) (validationErrors : list jsval)
    (st : explore_state) : result explore_state :=
  config ← renamed_config controlName value (form_data st);
  let new_form_data := oset controlName value (form_data st) in
  let new_form_data :=
    if bool_decide (controlName = "metrics") && truthy (ofield "metrics" (form_data st)) && truthy config
    then oset "column_config" config new_form_data else new_form_data in
  let '(control, newState) := set_control controlName value config st in
  rerendered ← rerendered_controls control newState;
  let errors := combined_errors control validationErrors in
  rv ← switched controlName value new_form_data st;
  let updated := dependant_controls controlName value st in
  let renderTrigger := match control with Some c => ofield "renderTrigger" (props c) | None => JUndef end in
  let cs := rv.2 in
  let cs := match control with
            | Some c => oset controlName (with_props (oset "validationErrors" (JArr errors) (props c)) c) cs
            | None => cs
            end in
  Ok (set_rest "triggerRender"
        (if truthy renderTrigger then JBool (bool_decide (errors = [])) else renderTrigger)
        (set_controls (ospread (ospread cs rerendered) updated) (set_form_data rv.1 st))).

(** ** The reducer *)

Inductive explore_action :=
| DYNAMIC_PLUGIN_CONTROLS_READY (controlsState : controls)
| TOGGLE_FAVE_STAR (isStarred : jsval)
| POST_DATASOURCE_STARTED
| START_METADATA_LOADING
| STOP_METADATA_LOADING
| SYNC_DATASOURCE_METADATA (datasource : jsval)
| UPDATE_FORM_DATA_BY_DATASOURCE (prevDatasource newDatasource : jsval)
| FETCH_DATASOURCES_STARTED
| SET_FIELD_VALUE (controlName : string) (value : jsval) (validationErrors : list jsval)
| SET_EXPLORE_CONTROLS (formData : jsobj)
| SET_FORM_DATA (formData : jsobj)
| UPDATE_CHART_TITLE (sliceName : jsval)
| SET_SAVE_ACTION (saveAction : jsval)
| CREATE_NEW_SLICE (can_add can_download can_overwrite slice : jsval) (formData : jsobj)
| SET_STASH_FORM_DATA (isHidden : bool) (fieldNames : list string)
| SLICE_UPDATED (slice : jsobj)
| SET_FORCE_QUERY (force : jsval)
| HYDRATE_EXPLORE (explore : explore_state)
| OTHER_ACTION.

(** @source app/explore/reducers/exploreReducer.js 314-339 exploreReducer (SET_STASH_FORM_DATA) *)
Definition stash_form_data (isHidden : bool) (fieldNames : list string) (st : explore_state)
    : explore_state :=
  let hidden := object_entries (hiddenFormData st) in
  if isHidden then
    set_hidden (JObj (ospread hidden (pick (form_data st) fieldNames)))
      (set_form_data (omit (form_data st) fieldNames) st)
  else
    let restoredField := pick hidden fieldNames in
    if bool_decide (restoredField = []) then st
    else set_hidden (JObj (omit hidden fieldNames))
           (set_form_data (ospread (form_data st) restoredField) st).

(** [owners.map(owner => owner[k])], [null] without owners *)
Definition owner_fields (k : string) (owners : jsval) : result jsval :=
  if truthy owners then
    items ← for_each_items owners; fields ← map_result (field k) items; Ok (JArr fields)
  else Ok JNull.

(** @source app/explore/reducers/exploreReducer.js 340-358 exploreReducer (SLICE_UPDATED) *)
Definition slice_updated (slice : jsobj) (st : explore_state) : result explore_state :=
  let get k := ofield k (es_rest st) in
  ids ← owner_fields "value" (ofield "owners" slice);
  names ← owner_fields "label" (ofield "owners" slice);
  Ok (set_rest "metadata" (JObj (oset "owners" names (object_entries (get "metadata"))))
       (set_rest "sliceName" (js_nullish (ofield "slice_name" slice) (get "sliceName"))
         (set_rest "slice" (JObj (oset "owners" ids (ospread (object_entries (get "slice")) slice))) st))).

(** @source app/explore/reducers/exploreReducer.js 71-118 exploreReducer (UPDATE_FORM_DATA_BY_DATASOURCE) *)
Definition update_by_datasource (prevDatasource newDatasource : jsval) (st : explore_state)
    : result explore_state :=
  prev_id ← field "id" prevDatasource;
  new_id ← field "id" newDatasource;
  let changed := negb (strict_eq prev_id new_id) ||
    negb (strict_eq (opt_field "type" prevDatasource) (opt_field "type" newDatasource)) in
  let newFormData :=
    if changed then oset "datasource" (opt_field "uid" newDatasource) (form_data st) else form_data st in
  acc ← fold_result (reset_control newDatasource) (newFormData, []) (es_controls st);
  let newState := set_rest "datasource" newDatasource st in
  cs ← getControlsState getSectionsToRender onInit (explore_json newState) acc.1;
  Ok (set_rest "controlsTransferred" (JArr acc.2) (set_controls cs (set_form_data acc.1 newState))).

(** @source app/explore/reducers/exploreReducer.js 33-375 exploreReducer *)
Definition exploreReducer (st : explore_state) (action : explore_action) : result explore_state :=
  match action with
  | DYNAMIC_PLUGIN_CONTROLS_READY controlsState => Ok (set_controls controlsState st)
  | TOGGLE_FAVE_STAR isStarred => Ok (set_rest "isStarred" isStarred st)
  | POST_DATASOURCE_STARTED | START_METADATA_LOADING =>
      Ok (set_rest "isDatasourceMetaLoading" (JBool true) st)
  | STOP_METADATA_LOADING => Ok (set_rest "isDatasourceMetaLoading" (JBool false) st)
  | SYNC_DATASOURCE_METADATA datasource => Ok (set_rest "datasource" datasource st)
  | UPDATE_FORM_DATA_BY_DATASOURCE prevDatasource newDatasource =>
      update_by_datasource prevDatasource newDatasource st
  | FETCH_DATASOURCES_STARTED => Ok (set_rest "isDatasourcesLoading" (JBool true) st)
  | SET_FIELD_VALUE controlName value validationErrors =>
      set_field_value controlName value validationErrors st
  | SET_EXPLORE_CONTROLS formData =>
      cs ← getControlsState getSectionsToRender onInit (explore_json st) formData;
      Ok (set_controls cs st)
  | SET_FORM_DATA formData => Ok (set_form_data formData st)
  | UPDATE_CHART_TITLE sliceName => Ok (set_rest "sliceName" sliceName st)
  | SET_SAVE_ACTION saveAction => Ok (set_rest "saveAction" saveAction st)
  | CREATE_NEW_SLICE can_add can_download can_overwrite slice formData =>
      cs ← getControlsState getSectionsToRender onInit (explore_json st) formData;
      Ok (set_rest "can_overwrite" can_overwrite (set_rest "can_download" can_download
            (set_rest "can_add" can_add (set_controls cs (set_rest "slice" slice st)))))
  | SET_STASH_FORM_DATA isHidden fieldNames => Ok (stash_form_data isHidden fieldNames st)
  | SLICE_UPDATED slice => slice_updated slice st
  | SET_FORCE_QUERY force => Ok (set_rest "force" force st)
  | HYDRATE_EXPLORE explore => Ok explore
  | OTHER_ACTION => Ok st
  end.
End reducer.
