(* ===== verification/ExploreReducerFacts.v ===== *)
(** * Properties of the reducer of the chart editor

    Fields of hidden controls are taken away and given back; a control that is
    set changes its own field only; a change of the visualisation goes on with
    the session of form data; renamed metrics keep the configuration of their
    columns; values that a new datasource does not have are dropped. *)

From Stdlib Require Import Ascii String.
From stdpp Require Import base strings option numbers list relations.
From S2P Require Import Prelude JsObject JsNumber JsValue Lodash QueryTypes Query ChartReducer.
From S2P Require Import Explore ExploreFacts ExploreReducer.

Section facts.
Context `{Lodash}.

(** ** Hidden fields *)

(** Fields of controls that are hidden leave the form data, and come back
    when the controls are shown: whatever the form data became meanwhile, each
    field has the value it had when it was hidden, or else the value of an
    earlier stash.  Other fields keep their values, and nothing stays behind in
    the stash. *)
Theorem stash_roundtrip names st f :
  let hidden := object_entries (hiddenFormData st) in
  let st1 := stash_form_data true names st in
  let st2 := stash_form_data false names (set_form_data f st1) in
  (∀ k, aget k (form_data st1) = if decide (k ∈ names) then None else aget k (form_data st)) ∧
  (∀ k, aget k (form_data st2) =
    if decide (k ∈ names) then
      match aget k (form_data st) with
      | Some v => Some v
      | None => match aget k hidden with Some v => Some v | None => aget k f end
      end
    else aget k f) ∧
  ∀ k, k ∈ names → aget k (object_entries (hiddenFormData st2)) = None.
Proof.
  intros hidden st1 st2. split; [intros k; apply omit_aget|].
  set (stash := ospread hidden (pick (form_data st) names)).
  assert (∀ k, aget k stash = if decide (k ∈ names) then match aget k (form_data st) with
    | Some v => Some v | None => aget k hidden end else aget k hidden) as Hstash.
  { intros k. unfold stash. rewrite aget_ospread by apply pick_NoDup. rewrite pick_aget. by case_decide. }
  unfold st2, stash_form_data. cbn [st1 stash_form_data set_hidden set_form_data hiddenFormData form_data object_entries].
  fold hidden stash. split.
  - intros k. case_bool_decide as Hempty; cbn [form_data set_hidden set_form_data].
    + case_decide as Hk; [|done]. pose proof (pick_aget stash names k) as Hp. rewrite Hempty, decide_True in Hp by done.
      rewrite Hstash, decide_True in Hp by done. by destruct (aget k (form_data st)), (aget k hidden).
    + rewrite aget_ospread by apply pick_NoDup. rewrite pick_aget. case_decide as Hk; [|done].
      rewrite Hstash, decide_True by done. by destruct (aget k (form_data st)), (aget k hidden).
  - intros k Hk. case_bool_decide as Hempty; cbn [hiddenFormData set_hidden set_form_data object_entries].
    + pose proof (pick_aget stash names k) as Hp. by rewrite Hempty, decide_True in Hp.
    + by rewrite omit_aget, decide_True.
Qed.

(** ** A control that is set *)

Lemma combined_errors_nil c errors : combined_errors c errors = [] → errors = [].
Proof.
  unfold combined_errors. set (e0 := match c with Some _ => _ | None => _ end).
  assert (∀ errs acc, acc ≠ [] → foldl (λ errors err, if js_includes errors err then errors
    else errors ++ [err]) acc errs ≠ []) as Hgrow.
  { intros errs. induction errs as [|e errs IH]; intros acc Hacc; [done|]. cbn. apply IH.
    destruct (js_includes acc e); [done|]. by destruct acc. }
  destruct errors as [|e errors]; [done|]. cbn. intros Hf. exfalso. revert Hf. apply Hgrow.
  destruct e0 as [|x e0]; [done|]. by destruct (js_includes _ _).
Qed.

Context (getSectionsToRender : jsval → jsval → controls).
Context (onInit : jsval → option (controls → controls)).
Context (formDataOverrides : jsval → option (jsobj → StandardizedControls → jsobj * StandardizedControls)).
Context (getControlConfig : string → jsval → option control).

Notation set_field := (set_field_value getSectionsToRender onInit formDataOverrides getControlConfig).

(** The parts of a successful change of a control. *)
Lemma set_field_Ok name value errors st st' :
  set_field name value errors st = Ok st' →
  ∃ config rv, renamed_config name value (form_data st) = Ok config ∧
    switched getSectionsToRender onInit formDataOverrides name value
      (if bool_decide (name = "metrics") && truthy (ofield "metrics" (form_data st)) && truthy config
       then oset "column_config" config (oset name value (form_data st))
       else oset name value (form_data st)) st = Ok rv ∧
    form_data st' = rv.1 ∧
    (truthy (ofield "triggerRender" (es_rest st')) = true →
     combined_errors (set_control getControlConfig name value config st).1 errors = []).
Proof.
  unfold set_field_value. intros Hst. apply bind_Ok_inv in Hst as (config & Hconfig & Hst).
  cbv zeta in Hst. destruct (set_control getControlConfig name value config st) as [c newState] eqn:Ec.
  apply bind_Ok_inv in Hst as (rerendered & _ & Hst). apply bind_Ok_inv in Hst as (rv & Hrv & Hst).
  apply Ok_inj in Hst as <-. exists config, rv. split; [done|]. split; [done|]. split; [done|].
  cbn [set_rest es_rest set_controls set_form_data fst]. rewrite ofield_oset, decide_True by done.
  destruct (truthy (match c with Some _ => _ | None => _ end)) eqn:Et; [|congruence].
  intros Hb. apply bool_decide_eq_true in Hb. by rewrite ?Ec.
Qed.

Lemma set_field_others name value errors st st' k :
  set_field name value errors st = Ok st' → name ≠ "viz_type" → k ≠ name → k ≠ "column_config" →
  aget k (form_data st') = aget k (form_data st).
Proof.
  intros Hst Hv Hk Hk'. destruct (set_field_Ok _ _ _ _ _ Hst) as (config & rv & _ & Hrv & Hform & _).
  unfold switched in Hrv. rewrite (bool_decide_eq_false_2 (name = "viz_type")), bind_Ok in Hrv by done.
  apply Ok_inj in Hrv as <-. rewrite Hform. cbn [fst]. destruct (_ && _); by rewrite ?aget_oset_ne.
Qed.

(** Setting a control changes its field of the form data and no other one,
    except that renamed metrics carry the configuration of their columns along;
    and the chart is rendered at once only when neither the validators of the
    control nor the component that sets it report an error. *)
Theorem set_field_value_form name value errors st st' :
  set_field name value errors st = Ok st' → name ≠ "viz_type" →
  (name ≠ "column_config" → ofield name (form_data st') = value) ∧
  (∀ k, k ≠ name → k ≠ "column_config" → aget k (form_data st') = aget k (form_data st)) ∧
  (name ≠ "metrics" → form_data st' = oset name value (form_data st)) ∧
  (truthy (ofield "triggerRender" (es_rest st')) = true → errors = [] ∧
   ∀ config c, renamed_config name value (form_data st) = Ok config →
     (set_control getControlConfig name value config st).1 = Some c →
     array_items (ofield "validationErrors" (props c)) = []).
Proof.
  intros Hst Hv. destruct (set_field_Ok _ _ _ _ _ Hst) as (config & rv & Hc & Hrv & Hform & Herr).
  unfold switched in Hrv. rewrite (bool_decide_eq_false_2 (name = "viz_type")), bind_Ok in Hrv by done.
  apply Ok_inj in Hrv as <-. cbn [fst] in Hform. rewrite Hform. split; [|split; [|split]].
  - intros Hn. destruct (_ && _); [rewrite ofield_oset, decide_False by done|];
      by rewrite ofield_oset, decide_True.
  - intros k Hk Hk'. rewrite <- Hform. by eapply set_field_others.
  - intros Hn. by rewrite bool_decide_eq_false_2.
  - intros Ht. specialize (Herr Ht). split; [by eapply combined_errors_nil|].
    intros config' c Hc' Hcontrol. rewrite Hc in Hc'. injection Hc' as <-. rewrite Hcontrol in Herr.
    pose proof (combined_errors_nil _ _ Herr) as ->.
    unfold combined_errors in Herr. cbn [foldl] in Herr. unfold js_or in Herr.
    destruct (ofield "validationErrors" (props c)); try reflexivity; exact Herr.
Qed.

(** ** Changes of the visualisation *)

(** Controls are set that are not part of what identifies a visit. *)
Definition edit (st st' : explore_state) : Prop :=
  ∃ name value errors, name ∉ ["viz_type"; "datasource"; "standardizedFormData"] ∧
    set_field name value errors st = Ok st'.

Lemma edits_keep st st' k :
  rtc edit st st' → k ∈ ["viz_type"; "datasource"; "standardizedFormData"] →
  ofield k (form_data st') = ofield k (form_data st).
Proof.
  intros Hedits Hk. induction Hedits as [|st1 st2 st3 (name & value & errors & Hname & Hst) _ IH]; [done|].
  rewrite IH. unfold ofield. f_equal. eapply set_field_others; [exact Hst|..].
  - intros ->. apply Hname. by left.
  - by intros ->.
  - intros ->. revert Hk. solve_decided.
Qed.

(** What the form data carry after a change of the visualisation. *)
Lemma switch_carries visits v w c s st st1 errors :
  session (visits ++ [(v, form_data st)]) s →
  aget "viz_type" (es_controls st) = Some c → value_of c ≠ JStr w → formDataOverrides (JStr w) = None →
  set_field "viz_type" (JStr w) errors st = Ok st1 →
  ofield "standardizedFormData" (form_data st1) = serialize s.
Proof.
  intros Hsess Hc Hval Hov Hst. destruct (set_field_Ok _ _ _ _ _ Hst) as (config & rv & _ & Hrv & -> & _).
  unfold switched in Hrv. rewrite (bool_decide_eq_true_2 ("viz_type" = "viz_type")), Hc, bind_Ok in Hrv by done.
  assert (strict_eq (JStr w) (value_of c) = false) as E.
  { apply not_true_iff_false. intros Ht. apply Hval. destruct (value_of c); try done. cbn in Ht.
    by apply bool_decide_eq_true in Ht as ->. }
  rewrite E in Hrv. cbn [negb] in Hrv. rewrite (session_new _ _ _ _ Hsess), bind_Ok in Hrv.
  unfold transform in Hrv. apply bind_Ok_inv in Hrv as (target & Ht & Hrv). rewrite Hov, bind_Ok in Hrv.
  apply bind_Ok_inv in Hrv as (cs & _ & Hrv). apply Ok_inj in Hrv as <-. cbn [fst].
  unfold target_form_data in Ht. apply bind_Ok_inv in Ht as (latest & _ & Ht).
  apply bind_Ok_inv in Ht as (tcs & _ & Ht). apply bind_Ok_inv in Ht as (values & _ & Ht).
  apply Ok_inj in Ht as <-. cbn [fst]. by rewrite ofield_oset, decide_True.
Qed.

(** C28. The reducer keeps up a session: when the user changes the visualisation
    and then sets any other controls, the form data carry the memory of the
    visits before, so that the next change continues the session that was
    there, for a plugin that does not override form data. *)
Theorem switch_extends_session visits v w d c s st st1 st2 errors :
  session (visits ++ [(v, form_data st)]) s →
  aget "viz_type" (es_controls st) = Some c → value_of c ≠ JStr w →
  formDataOverrides (JStr w) = None →
  set_field "viz_type" (JStr w) errors st = Ok st1 → rtc edit st1 st2 →
  ofield "viz_type" (form_data st1) = JStr w →
  ofield "datasource" (form_data st1) = JStr d → ofield "datasource" (form_data st) = JStr d →
  ∃ s', session ((visits ++ [(v, form_data st)]) ++ [(w, form_data st2)]) s' ∧
        memory_get (JStr w) (sfd_memory s') = Some (JObj (form_data st2)) ∧
        (v ≠ w → memory_get (JStr v) (sfd_memory s') = Some (JObj (form_data st))).
Proof.
  intros Hsess Hc Hval Hov Hst Hedits Hviz Hds Hds0.
  assert (ofield "standardizedFormData" (form_data st1) = serialize s) as Hsfd
    by (by eapply switch_carries).
  assert (∀ k, k ∈ ["viz_type"; "datasource"; "standardizedFormData"] →
    ofield k (form_data st2) = ofield k (form_data st1)) as Hkeep by (intros k; by apply edits_keep).
  destruct (session_continue visits v (form_data st) s w (form_data st2) d
    [("controls", controls_value (sfd_controls s)); ("memorizedFormData", memory_value (sfd_memory s))])
    as (s' & Hs' & Hget & Hothers); [done|rewrite Hkeep; [done|solve_decided]
    |rewrite Hkeep; [done|solve_decided]|done|rewrite Hkeep; [done|solve_decided]|done|].
  exists s'. split; [done|]. split; [done|]. intros Hne. rewrite Hothers by done.
  by apply (session_last visits).
Qed.

End facts.

(** ** Renamed metrics *)

Definition labelled (l : string) (v : jsval) : Prop := opt_field "label" v = JStr l.

Lemma rename_same olds n config x l :
  x ∈ olds → labelled l x → rename_column olds (n, config) x = Ok (S n, config).
Proof.
  intros Hin Hl. unfold rename_column. cbv beta iota zeta.
  assert (existsb (λ oldItem, strict_eq (opt_field "label" oldItem) (opt_field "label" x)) olds = true) as ->.
  { apply existsb_exists. exists x. split; [by apply list_elem_of_In|]. rewrite Hl. cbn.
    by apply bool_decide_eq_true_2. }
  done.
Qed.

Lemma rename_kept olds n config items :
  (∀ x, x ∈ items → x ∈ olds ∧ ∃ l, labelled l x) →
  fold_result (rename_column olds) (n, config) items = Ok (n + length items, config).
Proof.
  revert n. induction items as [|x items IH]; intros n Hx; [cbn; by rewrite Nat.add_0_r|].
  cbn [fold_result]. destruct (Hx x) as [Hin [l Hl]]; [by left|].
  rewrite (rename_same _ _ _ _ l), bind_Ok, IH by (done || (intros y Hy; apply Hx; by right)).
  cbn [length]. do 2 f_equal. lia.
Qed.

Lemma rename_moved olds i old item cfg o n :
  olds !! i = Some old → labelled o old → labelled n item →
  (∀ x, x ∈ olds → ∃ l, labelled l x ∧ l ≠ n) → o ≠ n → truthy (ofield o cfg) = true →
  rename_column olds (i, JObj cfg) item = Ok (S i, JObj (adel o (oset n (ofield o cfg) cfg))).
Proof.
  intros Hold Ho Hn Hl Hne Ht. unfold rename_column. cbv beta iota zeta. rewrite Hold. cbn [default from_option id].
  unfold labelled in Ho, Hn. rewrite Ho, Hn. cbn [to_string opt_field object_entries].
  assert (existsb (λ oldItem, strict_eq (opt_field "label" oldItem) (JStr n)) olds = false) as ->.
  { apply not_true_iff_false. intros (x & Hx & Hs)%existsb_exists. apply list_elem_of_In in Hx.
    destruct (Hl x Hx) as (l & Hll & Hln). rewrite Hll in Hs. cbn in Hs.
    by apply bool_decide_eq_true in Hs. }
  assert (strict_eq (JStr n) (JStr o) = false) as -> by (cbn; by apply bool_decide_eq_false_2).
  assert (field "label" item = Ok (JStr n)) as -> by (destruct item; try done; cbn in Hn |- *; by rewrite Hn).
  by rewrite Ht.
Qed.

(** The configuration of a column follows its metric: when one metric of the
    list gets a label that none had, the configuration under its old label is
    found under the new one and no longer under the old one; the configuration
    of other columns is as it was. *)
Theorem rename_moves_config olds i old item cfg fd o n :
  olds !! i = Some old → labelled o old → labelled n item →
  (∀ x, x ∈ olds → ∃ l, labelled l x ∧ l ≠ n) →
  ofield "metrics" fd = JArr olds → ofield "column_config" fd = JObj cfg →
  truthy (ofield o cfg) = true →
  ∃ cfg', renamed_config "metrics" (JArr (<[i:=item]> olds)) fd = Ok (JObj cfg') ∧
    aget n cfg' = aget o cfg ∧ aget o cfg' = None ∧
    ∀ k, k ≠ n → k ≠ o → aget k cfg' = aget k cfg.
Proof.
  intros Hold Ho Hn Hl Hm Hc Ht. exists (adel o (oset n (ofield o cfg) cfg)).
  assert (o ≠ n) as Hne.
  { destruct (Hl old) as (l & Hll & ?); [by eapply list_elem_of_lookup_2|]. unfold labelled in *. congruence. }
  split; [|split; [|split]].
  - unfold renamed_config. rewrite Hm, Hc, bool_decide_eq_true_2 by done. cbn [truthy andb for_each_items].
    rewrite bind_Ok. rewrite bool_decide_eq_false_2, bind_Ok.
    2: { intros E%(f_equal length). rewrite length_insert in E. apply lookup_lt_Some in Hold. cbn in E. lia. }
    assert (i < length olds) as Hi by (by eapply lookup_lt_Some).
    rewrite insert_take_drop by done.
    assert (fold_result (rename_column olds) (0, JObj cfg) (take i olds ++ item :: drop (S i) olds) =
      Ok (length olds, JObj (adel o (oset n (ofield o cfg) cfg)))) as ->; [|done].
    rewrite fold_result_app, rename_kept, bind_Ok.
    2: { intros x Hx. assert (x ∈ olds) as Hin by (by eapply subseteq_take).
      split; [done|]. destruct (Hl x Hin) as (l & ? & _). by exists l. }
    cbn [fold_result]. rewrite length_take, Nat.min_l by lia. change (0 + i) with i.
    rewrite (rename_moved olds i old item cfg o n), bind_Ok, rename_kept by
      (done || (intros x Hx; assert (x ∈ olds) as Hin by (by eapply subseteq_drop);
        split; [done|]; destruct (Hl x Hin) as (l & ? & _); by exists l)).
    rewrite length_drop. do 2 f_equal. lia.
  - rewrite aget_adel_ne, aget_oset_eq by done. unfold ofield in *. by destruct (aget o cfg).
  - apply aget_adel_eq.
  - intros k Hk Hk'. by rewrite aget_adel_ne, aget_oset_ne.
Qed.

(** ** A new datasource *)

Section datasource.
Context `{Lodash}.
Context (getSectionsToRender : jsval → jsval → controls).
Context (onInit : jsval → option (controls → controls)).

(** The datasource has the column. *)
Definition has_column (datasource column : jsval) : bool :=
  existsb (λ x, strict_eq (opt_field "column_name" x) column) (array_items (opt_field "columns" datasource)).

(** A value of a control of columns: the name of a column, or an expression in
    SQL. *)
Definition column_value (v : jsval) : bool := is_string v || isAdhocMetricSQL v.

(** What a datasource leaves of such a value: a column that it has, and an
    expression with a warning. *)
Definition fitted (datasource v : jsval) : option jsval :=
  if is_string v then if has_column datasource v then Some v else None
  else Some (JObj (oset "datasourceWarning" (JBool true) (object_entries v))).

Lemma some_named k v items b :
  some_of (λ x, w ← field k x; Ok (strict_eq w v)) items = Ok b →
  b = existsb (λ x, strict_eq (opt_field k x) v) (array_items items).
Proof.
  unfold some_of. destruct items as [| | | | |l|]; try done. cbn [array_items].
  revert b. induction l as [|x l IH]; intros b Hb; cbn [some_result] in Hb; [by injection Hb as <-|].
  apply bind_Ok_inv in Hb as (b' & Hx & Hb). apply bind_Ok_inv in Hx as (w & Hw%field_Ok & [= <-]).
  subst w. cbn [existsb]. destruct (strict_eq (opt_field k x) v); [by injection Hb as <-|]. by apply IH.
Qed.

Lemma compatible_column datasource controlState v w :
  truthy (ofield "options" controlState) = true → isEmpty (opt_field "columns" datasource) = false →
  column_value v = true →
  isControlValueCompatibleWithDatasource datasource controlState v = Ok w → w = fitted datasource v.
Proof.
  intros Ho Hc Hv. unfold isControlValueCompatibleWithDatasource, fitted. cbv zeta.
  rewrite Ho, Hc. cbn [andb negb]. intros Hw. destruct (is_string v) eqn:Hs.
  - apply bind_Ok_inv in Hw as (b & Hb & Hw).
    assert (b = true) as -> by (apply bind_Ok_inv in Hb as (l & _ & [= <-]); by rewrite orb_true_r).
    apply bind_Ok_inv in Hw as (columns & Hcol%field_Ok & Hw). subst columns.
    apply bind_Ok_inv in Hw as (found & Hf & [= <-]). apply some_named in Hf as ->. done.
  - unfold column_value in Hv. rewrite Hs in Hv. cbn [orb] in Hv. rewrite bind_Ok in Hw.
    unfold isSavedMetric in Hw. rewrite Hs, andb_false_r, bind_Ok in Hw.
    assert (Ht := Hv). unfold isAdhocMetricSQL in Ht. rewrite Hs in Ht. cbn [negb andb] in Ht.
    apply strict_eq_str in Ht.
    apply bind_Ok_inv in Hw as (b & Hb & Hw).
    assert (b = false) as ->; [|by rewrite Hv in Hw; injection Hw as <-].
    destruct (truthy (ofield "columns" controlState)); [|by injection Hb].
    apply bind_Ok_inv in Hb as (simple & Hsimple & Hb). assert (simple = false) as ->; [|by injection Hb].
    unfold isAdhocMetricSimple in Hsimple. rewrite Ht, andb_false_r in Hsimple.
    unfold isSimpleAdhocFilter in Hsimple. apply bind_Ok_inv in Hsimple as (t & Hf%field_Ok & [= <-]).
    subst t. by rewrite Ht.
Qed.

Lemma compatible_columns datasource controlState values r :
  truthy (ofield "options" controlState) = true → isEmpty (opt_field "columns" datasource) = false →
  Forall (λ v, column_value v = true) values →
  getControlValuesCompatibleWithDatasource datasource controlState (JArr values) = Ok r →
  r = match omap (fitted datasource) values with [] => ofield "default" controlState | kept => JArr kept end.
Proof.
  intros Ho Hc Hv Hr. cbn [getControlValuesCompatibleWithDatasource] in Hr.
  apply bind_Ok_inv in Hr as (checked & Hchecked & [= <-]).
  assert (omap id checked = omap (fitted datasource) values) as ->; [|done].
  revert checked Hchecked. induction Hv as [|v values Hv1 Hv IH]; intros checked Hchecked; [by injection Hchecked as <-|].
  cbn [map_result] in Hchecked. apply bind_Ok_inv in Hchecked as (w & Hw & Hchecked).
  apply bind_Ok_inv in Hchecked as (rest & Hrest & [= <-]).
  apply compatible_column in Hw as ->; [|done..]. cbn [omap list_omap id].
  destruct (fitted datasource v); [f_equal|]; by apply IH.
Qed.

Lemma compatible_single datasource controlState v r :
  truthy (ofield "options" controlState) = true → isEmpty (opt_field "columns" datasource) = false →
  column_value v = true →
  getControlValuesCompatibleWithDatasource datasource controlState v = Ok r →
  r = default (ofield "default" controlState) (fitted datasource v).
Proof.
  intros Ho Hc Hv Hr.
  assert ((checked ← isControlValueCompatibleWithDatasource datasource controlState v;
    Ok (default (ofield "default" controlState) checked)) = Ok r) as Hr'.
  { unfold getControlValuesCompatibleWithDatasource in Hr. by destruct v. }
  apply bind_Ok_inv in Hr' as (w & Hw & [= <-]). by apply compatible_column in Hw as ->.
Qed.

Lemma reset_controls_get datasource cs acc acc' name :
  fold_result (reset_control datasource) acc cs = Ok acc' → NoDup (akeys cs) →
  match aget name cs with
  | Some c =>
      if depends_on_datasource (props c) then
        ∃ value, getControlValuesCompatibleWithDatasource datasource (props c) (value_of c) = Ok value ∧
                 aget name acc'.1 = Some value
      else aget name acc'.1 = aget name acc.1
  | None => aget name acc'.1 = aget name acc.1
  end.
Proof.
  revert acc. induction cs as [|[k c] cs IH]; intros acc Hf Hn; [by injection Hf as <-|].
  cbn [fold_result] in Hf. apply bind_Ok_inv in Hf as (acc1 & Hr & Hf). apply NoDup_cons in Hn as [Hk Hn].
  specialize (IH acc1 Hf Hn). cbn [aget]. unfold reset_control in Hr. cbn [fst snd] in Hr.
  destruct (decide (name = k)) as [->|Hne].
  - rewrite (proj2 (aget_None k cs) Hk) in IH. rewrite IH.
    destruct (depends_on_datasource (props c)).
    + apply bind_Ok_inv in Hr as (value & Hv & [= <-]). exists value. cbn [fst]. by rewrite aget_oset_eq.
    + by injection Hr as <-.
  - assert (aget name acc1.1 = aget name acc.1) as E.
    { destruct (depends_on_datasource (props c)); [|by injection Hr as <-].
      apply bind_Ok_inv in Hr as (value & _ & [= <-]). cbn [fst]. by rewrite aget_oset_ne. }
    destruct (aget name cs) as [c'|]; [|by rewrite IH]. destruct (depends_on_datasource (props c')); [done|].
    by rewrite IH.
Qed.

(** C34. When the datasource changes to one that has columns, a control that
    chooses columns (it depends on the datasource and has options) keeps of a
    list of names of columns and expressions in SQL exactly the names that the
    new datasource has, in their order, and every expression, which it marks
    with a warning; when nothing is left of the list it goes back to its
    default.  A single name or expression is treated the same way, and no value
    stays no value.  Fields of controls that do not depend on the datasource are
    as they were, but for the datasource itself. *)
Theorem datasource_change_values prev new st st' name c :
  update_by_datasource getSectionsToRender onInit prev new st = Ok st' →
  NoDup (akeys (es_controls st)) → aget name (es_controls st) = Some c →
  isEmpty (opt_field "columns" new) = false →
  let has_column v := existsb (λ x, strict_eq (opt_field "column_name" x) v) (array_items (opt_field "columns" new)) in
  let marked v := JObj (oset "datasourceWarning" (JBool true) (object_entries v)) in
  let kept v := if is_string v then if has_column v then Some v else None else Some (marked v) in
  (depends_on_datasource (props c) = false → name ≠ "datasource" →
     aget name (form_data st') = aget name (form_data st)) ∧
  (depends_on_datasource (props c) = true → truthy (ofield "options" (props c)) = true →
     (∀ values, value_of c = JArr values → Forall (λ v, is_string v || isAdhocMetricSQL v = true) values →
        ofield name (form_data st') =
          match omap kept values with [] => ofield "default" (props c) | values' => JArr values' end) ∧
     (is_string (value_of c) || isAdhocMetricSQL (value_of c) = true →
        ofield name (form_data st') = default (ofield "default" (props c)) (kept (value_of c))) ∧
     (is_nullish (value_of c) = true → ofield name (form_data st') = JUndef)).
Proof.
  intros Hst Hn Hc Hcol. cbv zeta. unfold update_by_datasource in Hst.
  apply bind_Ok_inv in Hst as (i1 & _ & Hst). apply bind_Ok_inv in Hst as (i2 & _ & Hst).
  cbv zeta in Hst. apply bind_Ok_inv in Hst as (acc & Hacc & Hst).
  apply bind_Ok_inv in Hst as (cs & _ & Hst). apply Ok_inj in Hst as <-.
  cbn [form_data set_rest set_controls set_form_data].
  pose proof (reset_controls_get _ _ _ _ name Hacc Hn) as Hget. rewrite Hc in Hget. split.
  - intros Hd Hname. rewrite Hd in Hget. rewrite Hget. cbn [fst].
    destruct (_ || _); [by rewrite aget_oset_ne|done].
  - intros Hd Ho. rewrite Hd in Hget. destruct Hget as (value & Hval & Hget). unfold ofield at 1 3 5.
    rewrite Hget. cbn [default]. split_and!.
    + intros values Hv Hs. rewrite Hv in Hval. by apply compatible_columns in Hval.
    + intros Hs. by apply compatible_single in Hval.
    + intros Hnull. destruct (value_of c); try done; by injection Hval as <-.
Qed.
End datasource.

(** ** A chart in the editor *)

Definition plain_control (p : jsobj) : control :=
  {| props := p; default_fn := None; initial_fn := None; validators := []; mapStateToProps := None |}.

Definition sample_panel (viz datasource : jsval) : controls :=
  [("viz_type", plain_control []); ("datasource", plain_control []); ("metric", plain_control [])].

Definition editor : explore_state :=
  {| es_controls := [("viz_type", plain_control [("value", JStr "bar")]);
                     ("groupby", plain_control [("options", JArr [JObj [("column_name", JStr "gender")]]);
                        ("valueKey", JStr "column_name"); ("value", JArr [JStr "gender"; JStr "name"])])];
     form_data := visit1; hiddenFormData := JUndef;
     es_rest := [("datasource", JObj [("type", JStr "table"); ("id", JNum (num_of_Z 7))])] |}.

(** The change back to the first visualisation, with a limit that is set now. *)
Definition switch_back : result (jsobj * controls) :=
  transform sample_panel (λ _, None) (λ _, None) (JStr "bar") (explore_json editor)
    [("row_limit", JNum (num_of_Z 10)); ("metric", JStr "sum")] (state_after visit2).

Lemma viz_switch_restores_witness :
  match switch_back with
  | Ok rv =>
      ofield "metric" rv.1 = JStr "count" ∧ ofield "standardizedFormData" rv.1 = serialize (state_after visit2) ∧
      ∃ s', session [("bar", visit1); ("pie", visit2); ("bar", rv.1)] s'
  | Throw _ => False
  end.
Proof.
  destruct switch_back as [rv|e] eqn:E; [|vm_compute in E; discriminate E].
  destruct (viz_switch_restores sample_panel (λ _, None) (λ _, None) [("bar", visit1)] (state_after visit2)
    "bar" "pie" visit1 visit2 (explore_json editor) [("row_limit", JNum (num_of_Z 10)); ("metric", JStr "sum")] rv sample_session eq_refl eq_refl E) as (_ & (source & panel & values & _ & _ & _ & Hrv) & H).
  split; [vm_compute in E; injection E as <-; reflexivity|].
  split; [unfold ofield; rewrite Hrv; reflexivity|].
  destruct (H rv.1 "7__table" (spread_value (serialize (state_after visit2)))) as (s' & Hs' & _).
  - vm_compute in E. injection E as <-. reflexivity.
  - vm_compute in E. injection E as <-. reflexivity.
  - vm_compute. reflexivity.
  - unfold ofield. rewrite Hrv. vm_compute. reflexivity.
  - vm_compute. reflexivity.
  - exists s'. exact Hs'.
Defined.

Definition sample_set (name : string) (value : jsval) (st : explore_state) : explore_state :=
  match set_field_value sample_panel (λ _, None) (λ _, None) (λ _ _, None) name value [] st with
  | Ok st => st
  | Throw _ => st
  end.

Lemma set_field_value_form_witness :
  ofield "metric" (form_data (sample_set "metric" (JStr "sum") editor)) = JStr "sum".
Proof.
  by apply (set_field_value_form sample_panel (λ _, None) (λ _, None) (λ _ _, None) "metric" (JStr "sum") []
    editor (sample_set "metric" (JStr "sum") editor)).
Defined.

Lemma switch_extends_session_witness :
  let st1 := sample_set "viz_type" (JStr "pie") editor in
  let st2 := sample_set "metric" (JStr "sum") st1 in
  ∃ s', session [("bar", visit1); ("pie", form_data st2)] s' ∧
    memory_get (JStr "bar") (sfd_memory s') = Some (JObj visit1).
Proof.
  intros st1 st2.
  destruct (switch_extends_session sample_panel (λ _, None) (λ _, None) (λ _ _, None) [] "bar" "pie" "7__table"
    (plain_control [("value", JStr "bar")]) (state_after visit1) editor st1 st2 [])
    as (s' & Hs' & _ & Hbar).
  - by apply (session_start "bar" "7__table").
  - reflexivity.
  - discriminate.
  - reflexivity.
  - vm_compute. reflexivity.
  - apply rtc_once. exists "metric", (JStr "sum"), []. split; [solve_decided|vm_compute; reflexivity].
  - vm_compute. reflexivity.
  - vm_compute. reflexivity.
  - reflexivity.
  - exists s'. split; [exact Hs'|]. by apply Hbar.
Defined.

Lemma rename_moves_config_witness :
  let m l := JObj [("label", JStr l)] in
  ∃ cfg', renamed_config "metrics" (JArr [m "a"; m "c"])
    [("metrics", JArr [m "a"; m "b"]); ("column_config", JObj [("b", JObj [("width", JStr "wide")])])] =
      Ok (JObj cfg') ∧ aget "c" cfg' = Some (JObj [("width", JStr "wide")]) ∧ aget "b" cfg' = None.
Proof.
  intros m. destruct (rename_moves_config [m "a"; m "b"] 1 (m "b") (m "c")
    [("b", JObj [("width", JStr "wide")])]
    [("metrics", JArr [m "a"; m "b"]); ("column_config", JObj [("b", JObj [("width", JStr "wide")])])]
    "b" "c" eq_refl eq_refl eq_refl) as (cfg' & H1 & H2 & H3 & _); try reflexivity.
  - intros x [->|[->|?%elem_of_nil]%elem_of_cons]%elem_of_cons; [by exists "a"|by exists "b"|done].
  - exists cfg'. split; [exact H1|]. split; [exact H2|exact H3].
Defined.

Definition new_table : jsval :=
  JObj [("type", JStr "table"); ("id", JNum (num_of_Z 8)); ("uid", JStr "8__table");
        ("columns", JArr [JObj [("column_name", JStr "name")]])].

Definition moved_editor : explore_state :=
  match update_by_datasource sample_panel (λ _, None) (ofield "datasource" (es_rest editor)) new_table editor with
  | Ok st => st
  | Throw _ => editor
  end.

Lemma datasource_change_values_witness :
  ofield "groupby" (form_data moved_editor) = JArr [JStr "name"] ∧
  ofield "groupby" (form_data moved_editor) =
    match omap (fitted new_table) [JStr "gender"; JStr "name"] with [] => JUndef | kept => JArr kept end.
Proof.
  split; [vm_compute; reflexivity|].
  destruct (datasource_change_values sample_panel (λ _, None) (ofield "datasource" (es_rest editor)) new_table
    editor moved_editor "groupby" (plain_control [("options", JArr [JObj [("column_name", JStr "gender")]]);
      ("valueKey", JStr "column_name"); ("value", JArr [JStr "gender"; JStr "name"])])) as [_ Hd].
  - vm_compute. reflexivity.
  - apply (bool_decide_unpack _). vm_compute. exact I.
  - reflexivity.
  - reflexivity.
  - destruct (Hd eq_refl eq_refl) as (Hlist & _ & _).
    apply (Hlist [JStr "gender"; JStr "name"]); [reflexivity|by repeat constructor].
Defined.
