(* ===== verification/SqlLab.v ===== *)
(** * The SQL Lab reducer

    [app/SqlLab/reducers/sqlLab.js]: the state of SQL Lab and every action on
    it, with the action creators of [app/SqlLab/actions/sqlLab.js] that read
    the state.  Query editors, tables and queries are objects; the lists and
    maps that hold them are fields of a record.

    The clock ([new Date().getTime()], [Date.now()] and [now()] of dayjs), the
    generator of ids, [Date.parse] of the engine, the translation [t] and
    [shallowEqual] of react-redux are parameters.  The item that the browser
    keeps in its local storage is given as the value it parses to. *)

From Stdlib Require Import Ascii String.
From stdpp Require Import base strings option numbers list.
From S2P Require Import Prelude JsObject JsNumber JsValue JsJson Lodash QueryTypes Query ReduxUtils.

(** ** Updates of lists of objects

    The helpers of [ReduxUtils] on a field that is known to be a list of
    objects, or an object of objects. *)

Definition same_field (k : string) (a b : jsobj) : bool := strict_eq (ofield k a) (ofield k b).

(** @source app/reduxUtils.ts 51-69 alterInArr *)
Definition alter_arr (items : list jsobj) (obj alterations : jsobj) (idKey : string) : list jsobj :=
  (λ item, if same_field idKey obj item then ospread item alterations else item) <$> items.

(** @source app/reduxUtils.ts 71-84 removeFromArr *)
Definition remove_arr (items : list jsobj) (obj : jsobj) (idKey : string) : list jsobj :=
  filter (λ item, same_field idKey obj item = false) items.

(** @source app/reduxUtils.ts 86-98 getFromArr *)
Definition get_arr (items : list jsobj) (id : jsval) (idKey : string) : option jsobj :=
  last (filter (λ item, strict_eq (ofield idKey item) id = true) items).

(** @source app/reduxUtils.ts 100-117 addToArr *)
Definition add_arr (nanoid : string) (items : list jsobj) (obj : jsobj) (prepend : bool)
    : list jsobj :=
  if prepend then with_id nanoid obj :: items else items ++ [with_id nanoid obj].

(** @source app/reduxUtils.ts 25-38 addToObject *)
Definition add_obj (nanoid : string) (m : list (string * jsobj)) (obj : jsobj)
    : list (string * jsobj) :=
  let copied := with_id nanoid obj in oset (to_string (ofield "id" copied)) copied m.

(** @source app/reduxUtils.ts 40-49 alterInObject *)
Definition alter_obj (m : list (string * jsobj)) (obj alterations : jsobj) : list (string * jsobj) :=
  let id := to_string (ofield "id" obj) in
  oset id (ospread (default [] (aget id m)) alterations) m.

(** [array.indexOf(v) > -1] *)
Definition has_index (l : list jsval) (v : jsval) : bool := existsb (λ w, strict_eq w v) l.

(** [{...(condition && obj)}] *)
Definition spread_if (b : bool) (o : jsobj) : jsobj := if b then o else [].

(** [list.find(item => item[k] === v)] *)
Definition find_by (k : string) (v : jsval) (items : list jsobj) : option jsobj :=
  List.find (λ item, strict_eq (ofield k item) v) items.

(** ** Timestamps *)

(** Reads one character of each class. *)
Fixpoint read_classes (classes : list (ascii → bool)) (s : string) : option (string * string) :=
  match classes with
  | [] => Some (EmptyString, s)
  | p :: classes =>
      match s with
      | String c s =>
          if p c then '(read, rest) ← read_classes classes s; Some (String c read, rest) else None
      | EmptyString => None
      end
  end.

Fixpoint read_digits_text (s : string) : string :=
  match s with
  | String c s' => if is_digit c then String c (read_digits_text s') else EmptyString
  | EmptyString => EmptyString
  end.

Definition is_char (c c' : ascii) : bool := bool_decide (c' = c).

Definition date_classes : list (ascii → bool) :=
  [is_digit; is_digit; is_digit; is_digit; is_char "-"; is_digit; is_digit; is_char "-";
   is_digit; is_digit].

Definition time_classes : list (ascii → bool) :=
  [is_digit; is_digit; is_char ":"; is_digit; is_digit; is_char ":"; is_digit; is_digit].

Definition is_ts_separator (c : ascii) : bool := is_space c || is_char "T" c.

(** [\.?\d*] *)
Definition read_fraction (s : string) : string :=
  match s with
  | String c s' => if is_char "." c then String c (read_digits_text s') else read_digits_text s
  | EmptyString => EmptyString
  end.

(** The groups of the expression, matched at the start of [s].

    @source core/time-format/utils/normalizeTimestamp.ts 20-20 TS_REGEX *)
Definition ts_match_here (s : string) : option (string * string) :=
  '(date, s) ← read_classes date_classes s;
  '(_, s) ← read_classes [is_ts_separator] s;
  '(time, s) ← read_classes time_classes s;
  Some (date, time +:+ read_fraction s).

(** @source core/time-format/utils/normalizeTimestamp.ts 20-20 TS_REGEX *)
Fixpoint ts_match (s : string) : option (string * string) :=
  match ts_match_here s with
  | Some m => Some m
  | None => match s with String _ s => ts_match s | EmptyString => None end
  end.

(** @source core/time-format/utils/normalizeTimestamp.ts 22-28 normalizeTimestamp *)
Definition normalizeTimestamp (value : string) : string :=
  match ts_match value with
  | Some (date, time) => date +:+ "T" +:+ time +:+ "Z"
  | None => value
  end.

(** @source core/time-format/utils/denormalizeTimestamp.ts 22-28 denormalizeTimestamp *)
Definition denormalizeTimestamp (value : string) : string :=
  match ts_match value with
  | Some (date, time) => date +:+ "T" +:+ time
  | None => value
  end.

(** ** The state *)

(** The fields that only one action sets and no handler reads are the entries
    of [misc].

    @source app/SqlLab/types.ts 101-119 SqlLabRootState *)
Record sqlLab := {
  queryEditors : list jsobj;
  tabHistory : list jsval;
  tables : list jsobj;
  queries : list (string * jsobj);
  unsavedQueryEditor : jsobj;
  destroyedQueryEditors : jsobj;
  activeSouthPaneTab : jsval;
  queryCostEstimates : jsobj;
  queriesLastUpdate : jsnum;
  databases : jsobj;
  misc : jsobj;
}.

Definition set_queryEditors (v : list jsobj) (s : sqlLab) : sqlLab :=
  {| queryEditors := v; tabHistory := tabHistory s; tables := tables s; queries := queries s;
     unsavedQueryEditor := unsavedQueryEditor s; destroyedQueryEditors := destroyedQueryEditors s;
     activeSouthPaneTab := activeSouthPaneTab s; queryCostEstimates := queryCostEstimates s;
     queriesLastUpdate := queriesLastUpdate s; databases := databases s; misc := misc s |}.

Definition set_tabHistory (v : list jsval) (s : sqlLab) : sqlLab :=
  {| queryEditors := queryEditors s; tabHistory := v; tables := tables s; queries := queries s;
     unsavedQueryEditor := unsavedQueryEditor s; destroyedQueryEditors := destroyedQueryEditors s;
     activeSouthPaneTab := activeSouthPaneTab s; queryCostEstimates := queryCostEstimates s;
     queriesLastUpdate := queriesLastUpdate s; databases := databases s; misc := misc s |}.

Definition set_tables (v : list jsobj) (s : sqlLab) : sqlLab :=
  {| queryEditors := queryEditors s; tabHistory := tabHistory s; tables := v; queries := queries s;
     unsavedQueryEditor := unsavedQueryEditor s; destroyedQueryEditors := destroyedQueryEditors s;
     activeSouthPaneTab := activeSouthPaneTab s; queryCostEstimates := queryCostEstimates s;
     queriesLastUpdate := queriesLastUpdate s; databases := databases s; misc := misc s |}.

Definition set_queries (v : list (string * jsobj)) (s : sqlLab) : sqlLab :=
  {| queryEditors := queryEditors s; tabHistory := tabHistory s; tables := tables s; queries := v;
     unsavedQueryEditor := unsavedQueryEditor s; destroyedQueryEditors := destroyedQueryEditors s;
     activeSouthPaneTab := activeSouthPaneTab s; queryCostEstimates := queryCostEstimates s;
     queriesLastUpdate := queriesLastUpdate s; databases := databases s; misc := misc s |}.

Definition set_unsaved (v : jsobj) (s : sqlLab) : sqlLab :=
  {| queryEditors := queryEditors s; tabHistory := tabHistory s; tables := tables s;
     queries := queries s; unsavedQueryEditor := v;
     destroyedQueryEditors := destroyedQueryEditors s;
     activeSouthPaneTab := activeSouthPaneTab s; queryCostEstimates := queryCostEstimates s;
     queriesLastUpdate := queriesLastUpdate s; databases := databases s; misc := misc s |}.

Definition set_destroyed (v : jsobj) (s : sqlLab) : sqlLab :=
  {| queryEditors := queryEditors s; tabHistory := tabHistory s; tables := tables s;
     queries := queries s; unsavedQueryEditor := unsavedQueryEditor s; destroyedQueryEditors := v;
     activeSouthPaneTab := activeSouthPaneTab s; queryCostEstimates := queryCostEstimates s;
     queriesLastUpdate := queriesLastUpdate s; databases := databases s; misc := misc s |}.

Definition set_southPane (v : jsval) (s : sqlLab) : sqlLab :=
  {| queryEditors := queryEditors s; tabHistory := tabHistory s; tables := tables s;
     queries := queries s; unsavedQueryEditor := unsavedQueryEditor s;
     destroyedQueryEditors := destroyedQueryEditors s;
     activeSouthPaneTab := v; queryCostEstimates := queryCostEstimates s;
     queriesLastUpdate := queriesLastUpdate s; databases := databases s; misc := misc s |}.

Definition set_estimates (v : jsobj) (s : sqlLab) : sqlLab :=
  {| queryEditors := queryEditors s; tabHistory := tabHistory s; tables := tables s;
     queries := queries s; unsavedQueryEditor := unsavedQueryEditor s;
     destroyedQueryEditors := destroyedQueryEditors s;
     activeSouthPaneTab := activeSouthPaneTab s; queryCostEstimates := v;
     queriesLastUpdate := queriesLastUpdate s; databases := databases s; misc := misc s |}.

Definition set_lastUpdate (v : jsnum) (s : sqlLab) : sqlLab :=
  {| queryEditors := queryEditors s; tabHistory := tabHistory s; tables := tables s;
     queries := queries s; unsavedQueryEditor := unsavedQueryEditor s;
     destroyedQueryEditors := destroyedQueryEditors s;
     activeSouthPaneTab := activeSouthPaneTab s; queryCostEstimates := queryCostEstimates s;
     queriesLastUpdate := v; databases := databases s; misc := misc s |}.

Definition set_databases (v : jsobj) (s : sqlLab) : sqlLab :=
  {| queryEditors := queryEditors s; tabHistory := tabHistory s; tables := tables s;
     queries := queries s; unsavedQueryEditor := unsavedQueryEditor s;
     destroyedQueryEditors := destroyedQueryEditors s;
     activeSouthPaneTab := activeSouthPaneTab s; queryCostEstimates := queryCostEstimates s;
     queriesLastUpdate := queriesLastUpdate s; databases := v; misc := misc s |}.

Definition set_misc (v : jsobj) (s : sqlLab) : sqlLab :=
  {| queryEditors := queryEditors s; tabHistory := tabHistory s; tables := tables s;
     queries := queries s; unsavedQueryEditor := unsavedQueryEditor s;
     destroyedQueryEditors := destroyedQueryEditors s;
     activeSouthPaneTab := activeSouthPaneTab s; queryCostEstimates := queryCostEstimates s;
     queriesLastUpdate := queriesLastUpdate s; databases := databases s; misc := v |}.

(** @source core/query/types/Query.ts 277-287 QueryState *)
Inductive QueryState :=
| Started | Stopped | Failed | Pending | Running | Scheduled | Success | Fetching | TimedOut.

Definition query_state (q : QueryState) : jsval :=
  JStr match q with
  | Started => "started" | Stopped => "stopped" | Failed => "failed" | Pending => "pending"
  | Running => "running" | Scheduled => "scheduled" | Success => "success"
  | Fetching => "fetching" | TimedOut => "timed_out"
  end.

(** [state.tabHistory[state.tabHistory.length - 1]] *)
Definition active_tab (state : sqlLab) : jsval := default JUndef (last (tabHistory state)).

(** ** Actions *)

Inductive sqllab_action :=
| ADD_QUERY_EDITOR (queryEditor : jsobj)
| QUERY_EDITOR_SAVED (query result : jsobj) (clientId : jsval)
| UPDATE_QUERY_EDITOR (alterations : jsobj)
| CLONE_QUERY_TO_NEW_TAB (query : jsobj)
| REMOVE_QUERY_EDITOR (queryEditor : jsobj)
| CLEAR_DESTROYED_QUERY_EDITOR (queryEditorId : jsval)
| REMOVE_QUERY (query : jsobj)
| RESET_STATE (sqlLabInitialState : sqlLab)
| MERGE_TABLE (table : jsobj) (query : option jsobj) (prepend : jsval)
| EXPAND_TABLE (table : jsobj)
| REMOVE_DATA_PREVIEW (table : jsobj)
| CHANGE_DATA_PREVIEW_ID (oldQueryId : jsval) (newQuery : jsobj)
| COLLAPSE_TABLE (table : jsobj)
| REMOVE_TABLES (tables : list jsobj)
| COST_ESTIMATE_STARTED (query : jsobj)
| COST_ESTIMATE_RETURNED (query json : jsobj)
| COST_ESTIMATE_FAILED (query : jsobj) (error : jsval)
| START_QUERY (query : jsobj)
| STOP_QUERY (query : jsobj)
| CLEAR_QUERY_RESULTS (query : jsobj)
| REQUEST_QUERY_RESULTS (query : jsobj)
| QUERY_SUCCESS (query : jsobj) (results : jsval)
| QUERY_FAILED (query : jsobj) (msg link errors : jsval)
| SET_ACTIVE_QUERY_EDITOR (queryEditor : option jsobj)
| LOAD_QUERY_EDITOR (queryEditor : jsobj)
| SET_TABLES (tables : list jsobj)
| SET_ACTIVE_SOUTHPANE_TAB (tabId : jsval)
| MIGRATE_QUERY_EDITOR (oldQueryEditor newQueryEditor : jsobj)
| MIGRATE_TABLE (oldTable newTable : jsobj)
| MIGRATE_QUERY (queryId queryEditorId : jsval)
| QUERY_EDITOR_SETDB (queryEditor : jsobj) (dbId : jsval)
| QUERY_EDITOR_SET_CATALOG (queryEditor : jsobj) (catalog : jsval)
| QUERY_EDITOR_SET_SCHEMA (queryEditor : jsobj) (schema : jsval)
| QUERY_EDITOR_SET_TITLE (queryEditor : jsobj) (name : jsval)
| QUERY_EDITOR_SET_SQL (queryEditor : jsobj) (sql queryId : jsval)
| QUERY_EDITOR_SET_CURSOR_POSITION (queryEditor : jsobj) (position : jsval)
| QUERY_EDITOR_SET_QUERY_LIMIT (queryEditor : jsobj) (queryLimit : jsval)
| QUERY_EDITOR_SET_TEMPLATE_PARAMS (queryEditor : jsobj) (templateParams : jsval)
| QUERY_EDITOR_SET_SELECTED_TEXT (queryEditor : jsobj) (sql : jsval)
| QUERY_EDITOR_SET_AUTORUN (queryEditor : jsobj) (autorun : jsval)
| QUERY_EDITOR_PERSIST_HEIGHT (queryEditor : jsobj) (northPercent southPercent : jsval)
| QUERY_EDITOR_TOGGLE_LEFT_BAR (queryEditor : jsobj) (hideLeftBar : jsval)
| SET_DATABASES (databases : list jsobj)
| REFRESH_QUERIES (alteredQueries : list (string * jsobj))
| CLEAR_INACTIVE_QUERIES (interval : jsval)
| SET_USER_OFFLINE (offline : jsval)
| CREATE_DATASOURCE_STARTED
| CREATE_DATASOURCE_SUCCESS (datasource : jsval)
| CREATE_DATASOURCE_FAILED (err : jsval)
| SET_EDITOR_TAB_LAST_UPDATE (timestamp : jsval)
| SET_LAST_UPDATED_ACTIVE_TAB (queryEditorId : jsval)
| OTHER_SQLLAB_ACTION (type : string).

Section reducer.
Context `{Lodash}.
Context (nanoid : nat → string) (time now : jsval) (Date_parse : string → jsnum).
Context (t : string → list jsval → string) (shallowEqual : jsobj → jsobj → bool).

(** What an edit returns, to be spread into the state. *)
Inductive altered :=
| AlteredEditors (editors : list jsobj)
| AlteredUnsaved (unsaved : jsobj).

Definition spread_altered (a : altered) (state : sqlLab) : sqlLab :=
  match a with
  | AlteredEditors editors => set_queryEditors editors state
  | AlteredUnsaved unsaved => set_unsaved unsaved state
  end.

(** @source app/SqlLab/reducers/sqlLab.js 34-53 alterUnsavedQueryEditorState *)
Definition alterUnsavedQueryEditorState (state : sqlLab) (updatedState : jsobj) (id : jsval)
    (silent : bool) : altered :=
  if negb (strict_eq (active_tab state) id) then
    AlteredEditors (alter_arr (queryEditors state) [("id", id)] updatedState "id")
  else
    let unsaved := unsavedQueryEditor state in
    let base := spread_if (strict_eq (ofield "id" unsaved) id) unsaved in
    let next := if truthy id then ospread [("id", id)] updatedState else unsaved in
    AlteredUnsaved (ospread (ospread base next) (spread_if (negb silent) [("updatedAt", time)])).

Definition edit (state : sqlLab) (updatedState queryEditor : jsobj) (silent : bool) : sqlLab :=
  spread_altered (alterUnsavedQueryEditorState state updatedState (ofield "id" queryEditor) silent)
    state.

(** [alterInArr(state, 'queryEditors', state.unsavedQueryEditor, {...state.unsavedQueryEditor})]

    @source app/SqlLab/reducers/sqlLab.js 58-65 ADD_QUERY_EDITOR (merge) *)
Definition merge_unsaved (state : sqlLab) : sqlLab :=
  set_queryEditors
    (alter_arr (queryEditors state) (unsavedQueryEditor state) (unsavedQueryEditor state) "id") state.

(** @source app/SqlLab/reducers/sqlLab.js 57-74 ADD_QUERY_EDITOR *)
Definition add_query_editor (queryEditor : jsobj) (state : sqlLab) : sqlLab :=
  let newState :=
    set_tabHistory (tabHistory state ++ [ofield "id" queryEditor]) (merge_unsaved state) in
  set_queryEditors
    (add_arr (nanoid 2) (queryEditors newState) (oset "updatedAt" time queryEditor) false) newState.

(** @source app/SqlLab/reducers/sqlLab.js 75-88 QUERY_EDITOR_SAVED *)
Definition query_editor_saved (query res : jsobj) (clientId : jsval) (state : sqlLab)
    : result sqlLab :=
  match find_by "id" clientId (queryEditors state), queryEditors state with
  | Some existing, editors =>
      Ok (set_queryEditors
            (alter_arr editors existing
               [("remoteId", ofield "remoteId" res); ("name", ofield "name" query)] "id") state)
  | None, [] => Ok state
  | None, _ => Throw (TypeError "Cannot read properties of undefined (reading 'id')")
  end.

(** @source app/SqlLab/reducers/sqlLab.js 89-100 UPDATE_QUERY_EDITOR *)
Definition update_query_editor (alterations : jsobj) (state : sqlLab) : sqlLab :=
  match find_by "remoteId" (ofield "remoteId" alterations) (queryEditors state) with
  | None => state
  | Some existing =>
      set_queryEditors (alter_arr (queryEditors state) existing alterations "remoteId") state
  end.

(** @source app/SqlLab/actions/sqlLab.js 533-545 addQueryEditor *)
Definition addQueryEditor (queryEditor : jsobj) : sqllab_action :=
  ADD_QUERY_EDITOR
    (ospread queryEditor
       [("id", JStr (nanoid 0)); ("immutableId", JStr (nanoid 1)); ("loaded", JBool true);
        ("inLocalStorage", JBool true)]).

Definition truthy_or_null (v : jsval) : jsval := if truthy v then v else JNull.

(** @source app/SqlLab/reducers/sqlLab.js 101-129 CLONE_QUERY_TO_NEW_TAB *)
Definition clone_query_to_new_tab (query : jsobj) (state : sqlLab) : result sqlLab :=
  match find_by "id" (active_tab state) (queryEditors state) with
  | None => Throw (TypeError "Cannot read properties of undefined (reading 'id')")
  | Some queryEditor =>
      let unsaved := unsavedQueryEditor state in
      let progenitor := ospread queryEditor (spread_if (same_field "id" unsaved queryEditor) unsaved) in
      let qe :=
        [("remoteId", ofield "remoteId" progenitor);
         ("name", JStr (t "Copy of %s" [ofield "name" progenitor]));
         ("dbId", truthy_or_null (ofield "dbId" query));
         ("catalog", truthy_or_null (ofield "catalog" query));
         ("schema", truthy_or_null (ofield "schema" query));
         ("autorun", JBool true); ("sql", ofield "sql" query);
         ("queryLimit", ofield "queryLimit" query); ("maxRow", ofield "maxRow" query)] in
      match addQueryEditor qe with
      | ADD_QUERY_EDITOR newQueryEditor => Ok (add_query_editor newQueryEditor (set_unsaved [] state))
      | _ => Ok state
      end
  end.

(** [qe.tabViewId ?? qe.id]

    @source app/SqlLab/reducers/sqlLab.js 138-138 REMOVE_QUERY_EDITOR (ids) *)
Definition view_id (qe : jsobj) : jsval := js_nullish (ofield "tabViewId" qe) (ofield "id" qe).

(** @source app/SqlLab/reducers/sqlLab.js 130-177 REMOVE_QUERY_EDITOR *)
Definition remove_query_editor (removed : jsobj) (state : sqlLab) : sqlLab :=
  let unsaved := unsavedQueryEditor state in
  let queryEditor := ospread removed (spread_if (same_field "id" removed unsaved) unsaved) in
  let editors := remove_arr (queryEditors state) queryEditor "id" in
  let qeIds := view_id <$> editors in
  let queries' := filter (λ kq, has_index qeIds (ofield "sqlEditorId" kq.2) = true) (queries state) in
  let history := filter (λ id, has_index qeIds id = true) (tabHistory state) in
  let tables' :=
    filter (λ table, strict_eq (ofield "queryEditorId" table) (view_id queryEditor) = false)
      (tables state) in
  let history :=
    match history, last editors with [], Some qe => [ofield "id" qe] | _, _ => history end in
  let destroyed :=
    ospread (destroyedQueryEditors state)
      (spread_if (negb (truthy (ofield "inLocalStorage" queryEditor)))
         [(to_string (view_id queryEditor), time)]) in
  set_destroyed destroyed
    (set_unsaved (spread_if (negb (same_field "id" removed unsaved)) unsaved)
       (set_queries queries'
          (set_tables tables' (set_tabHistory history (set_queryEditors editors state))))).

(** [(a.k === b.k && ...)] over the fields that identify a table

    @source app/SqlLab/reducers/sqlLab.js 193-200 MERGE_TABLE (lookup) *)
Definition same_table (xt at_ : jsobj) : bool :=
  forallb (λ k, same_field k xt at_) ["dbId"; "queryEditorId"; "catalog"; "schema"; "name"].

Fixpoint find_index (p : jsobj → bool) (items : list jsobj) : option nat :=
  match items with
  | [] => None
  | x :: items => if p x then Some 0 else S <$> find_index p items
  end.

(** @source app/SqlLab/reducers/sqlLab.js 191-235 MERGE_TABLE *)
Definition merge_table (at_ : jsobj) (query : option jsobj) (prepend : jsval) (state : sqlLab)
    : sqlLab :=
  let show at_ s :=
    if truthy (ofield "expanded" at_) then set_southPane (ofield "id" at_) s else s in
  let preview at_ := match query with
                     | Some q => oset "dataPreviewQueryId" (ofield "id" q) at_
                     | None => at_
                     end in
  match find_index (λ xt, same_table xt at_) (tables state) with
  | Some i =>
      let at_ := preview at_ in
      let existing := default [] (tables state !! i) in
      let merged :=
        ospread (ospread existing at_)
          (spread_if (truthy (ofield "initialized" existing)) [("id", ofield "id" existing)]) in
      show at_ (set_tables (<[i := merged]> (tables state)) state)
  | None =>
      let at_ := oset "dataPreviewQueryId" JNull at_ in
      let newState :=
        show at_ (set_tables (add_arr (nanoid 0) (tables state) at_ (truthy prepend)) state) in
      match query with
      | Some q =>
          set_tables (alter_arr (tables newState) at_ [("dataPreviewQueryId", ofield "id" q)] "id")
            newState
      | None => newState
      end
  end.

Definition alter_table (table alterations : jsobj) (state : sqlLab) : sqlLab :=
  set_tables (alter_arr (tables state) table alterations "id") state.

(** @source app/SqlLab/reducers/sqlLab.js 239-246 REMOVE_DATA_PREVIEW *)
Definition remove_data_preview (table : jsobj) (state : sqlLab) : sqlLab :=
  set_queries (adel (to_string (ofield "dataPreviewQueryId" table)) (queries state))
    (alter_table table [("dataPreviewQueryId", JNull)] state).

(** @source app/SqlLab/reducers/sqlLab.js 247-264 CHANGE_DATA_PREVIEW_ID *)
Definition change_data_preview_id (oldQueryId : jsval) (newQuery : jsobj) (state : sqlLab) : sqlLab :=
  set_tables
    ((λ xt, if strict_eq (ofield "dataPreviewQueryId" xt) oldQueryId
            then oset "dataPreviewQueryId" (ofield "id" newQuery) xt else xt) <$> tables state)
    (set_queries (adel (to_string oldQueryId) (queries state)) state).

(** @source app/SqlLab/reducers/sqlLab.js 268-283 REMOVE_TABLES *)
Definition remove_tables (removed : list jsobj) (state : sqlLab) : sqlLab :=
  let tableIds := ofield "id" <$> removed in
  let tables' := filter (λ table, js_includes tableIds (ofield "id" table) = false) (tables state) in
  let newState := set_tables tables' state in
  if js_includes tableIds (activeSouthPaneTab state) then
    let editorId := ofield "queryEditorId" (default [] (head removed)) in
    let next := match find_by "queryEditorId" editorId tables' with
                | Some table => ofield "id" table
                | None => JUndef
                end in
    set_southPane (js_nullish next (JStr "Results")) newState
  else newState.

(** @source app/SqlLab/reducers/sqlLab.js 284-322 COST_ESTIMATE_STARTED, COST_ESTIMATE_RETURNED,
    COST_ESTIMATE_FAILED *)
Definition set_estimate (query : jsobj) (completed : bool) (cost error : jsval) (state : sqlLab)
    : sqlLab :=
  set_estimates
    (oset (to_string (ofield "id" query))
       (JObj [("completed", JBool completed); ("cost", cost); ("error", error)])
       (queryCostEstimates state)) state.

(** The results of the last query of an editor are dropped when it runs again.

    @source app/SqlLab/reducers/sqlLab.js 338-347 START_QUERY (results) *)
Definition clear_latest (state : sqlLab) (qe : jsobj) : sqlLab :=
  let latest := ofield "latestQueryId" qe in
  if truthy latest then
    match aget (to_string latest) (queries state) with
    | Some query =>
        let newResults :=
          ospread (object_entries (ofield "results" query)) [("data", JArr []); ("query", JNull)] in
        let q := oset "results" (JObj newResults) query in
        set_queries (oset (to_string (ofield "id" q)) q (queries state)) state
    | None => state
    end
  else state.

(** @source app/SqlLab/reducers/sqlLab.js 323-362 START_QUERY *)
Definition start_query (query : jsobj) (state : sqlLab) : sqlLab :=
  let editorId := ofield "sqlEditorId" query in
  let '(newState, sqlEditorId) :=
    if truthy editorId then
      let byTabId := get_arr (queryEditors state) editorId "tabViewId" in
      let sqlEditorId := js_nullish (default JUndef (ofield "id" <$> byTabId)) editorId in
      let unsaved := unsavedQueryEditor state in
      let qe :=
        ospread (default [] (get_arr (queryEditors state) sqlEditorId "id"))
          (spread_if (strict_eq sqlEditorId (ofield "id" unsaved)) unsaved) in
      (clear_latest state qe, sqlEditorId)
    else (state, JUndef) in
  let newState := set_queries (add_obj (nanoid 0) (queries newState) query) newState in
  spread_altered
    (alterUnsavedQueryEditorState state [("latestQueryId", ofield "id" query)] sqlEditorId
       (truthy (ofield "isDataPreview" query))) newState.

Definition alter_query (query alterations : jsobj) (state : sqlLab) : sqlLab :=
  set_queries (alter_obj (queries state) query alterations) state.

(** [QueryState.STOPPED] is no member of the enumeration.

    @source app/SqlLab/reducers/sqlLab.js 382-411 QUERY_SUCCESS *)
Definition query_success (query : jsobj) (results : jsval) (state : sqlLab) : result sqlLab :=
  let QueryState_STOPPED := JUndef in
  status ← (if strict_eq (ofield "state" query) QueryState_STOPPED then Ok JUndef
            else field "status" results);
  if strict_eq (ofield "state" query) QueryState_STOPPED ||
     negb (strict_eq status (query_state Success))
  then Ok state
  else
    let q k := opt_field k (opt_field "query" results) in
    let alts :=
      [("endDttm", now); ("progress", JNum (num_of_Z 100)); ("results", results);
       ("rows", js_or (q "rows") (JNum (num_of_Z 0))); ("state", query_state Success);
       ("executedSql", q "executedSql"); ("limitingFactor", q "limitingFactor");
       ("tempSchema", q "tempSchema"); ("tempTable", q "tempTable");
       ("errorMessage", JNull); ("cached", JBool false)] in
    Ok (alter_query query (ospread alts (spread_if (truthy (q "resultsKey")) [("resultsKey", q "resultsKey")]))
          state).

(** @source app/SqlLab/reducers/sqlLab.js 412-424 QUERY_FAILED *)
Definition query_failed (query : jsobj) (msg link errors : jsval) (state : sqlLab) : sqlLab :=
  if strict_eq (ofield "state" query) (query_state Stopped) then state
  else
    alter_query query
      [("state", query_state Failed); ("errors", errors); ("errorMessage", msg); ("endDttm", now);
       ("link", link)] state.

(** @source app/SqlLab/reducers/sqlLab.js 425-453 SET_ACTIVE_QUERY_EDITOR *)
Definition set_active_query_editor (queryEditor : option jsobj) (state : sqlLab) : sqlLab :=
  let id := default JUndef (ofield "id" <$> queryEditor) in
  if has_index (ofield "id" <$> queryEditors state) id && negb (strict_eq (active_tab state) id) then
    let qe := default [] queryEditor in
    let unsaved := unsavedQueryEditor state in
    let merged := set_unsaved [] (merge_unsaved state) in
    set_tabHistory (tabHistory state ++ [id])
      (if strict_eq id (ofield "id" unsaved) then
         set_queryEditors (alter_arr (queryEditors merged) qe (ospread qe unsaved) "id") merged
       else merged)
  else state.

(** @source app/SqlLab/reducers/sqlLab.js 454-466 LOAD_QUERY_EDITOR *)
Definition load_query_editor (queryEditor : jsobj) (state : sqlLab) : sqlLab :=
  let merged := merge_unsaved state in
  set_queryEditors (alter_arr (queryEditors merged) queryEditor queryEditor "id") merged.

(** @source app/SqlLab/reducers/sqlLab.js 511-519 MIGRATE_QUERY *)
Definition migrate_query (queryId queryEditorId : jsval) (state : sqlLab) : sqlLab :=
  let query :=
    oset "sqlEditorId" queryEditorId (default [] (aget (to_string queryId) (queries state))) in
  set_queries (oset (to_string (ofield "id" query)) query (queries state)) state.

(** The state of a query that the server reports, given the one in the store.

    @source app/SqlLab/reducers/sqlLab.js 714-722 REFRESH_QUERIES (state) *)
Definition reported_state (prevState currentState : jsval) : jsval :=
  if strict_eq currentState (query_state Success) &&
     js_includes [query_state Fetching; query_state Success; query_state Running] prevState
  then prevState else currentState.

Definition number_if (k : string) (q : jsobj) : jsobj :=
  spread_if (truthy (ofield k q)) [(k, JNum (to_number (ofield k q)))].

(** @source app/SqlLab/reducers/sqlLab.js 702-723 REFRESH_QUERIES (merge) *)
Definition refreshed (stored : option jsobj) (changed : jsobj) : jsobj :=
  oset "state"
    (reported_state (default JUndef (ofield "state" <$> stored)) (ofield "state" changed))
    (ospread (ospread (ospread (default [] stored) changed) (number_if "startDttm" changed))
       (number_if "endDttm" changed)).

(** Whether the merged query is the stored one.

    @source app/SqlLab/reducers/sqlLab.js 724-730 REFRESH_QUERIES (comparison) *)
Definition unchanged (stored : option jsobj) (query : jsobj) : result bool :=
  if shallowEqual (omit query ["extra"]) (omit (default [] stored) ["extra"]) then
    match stored with
    | Some s => Ok (isEqual (ofield "extra" query) (ofield "extra" s))
    | None => Throw (TypeError "Cannot read properties of undefined (reading 'extra')")
    end
  else Ok false.

(** @source app/SqlLab/reducers/sqlLab.js 690-694 REFRESH_QUERIES (guard) *)
Definition settled (stored : option jsobj) : bool :=
  match stored with
  | Some q => strict_eq (ofield "state" q) (query_state Stopped) ||
              strict_eq (ofield "state" q) (query_state Failed)
  | None => false
  end.

(** @source app/SqlLab/reducers/sqlLab.js 695-696 REFRESH_QUERIES (time) *)
Definition changed_on (changed : jsobj) : result jsnum :=
  match ofield "changed_on" changed with
  | JStr s => Ok (Date_parse (normalizeTimestamp s))
  | _ => Throw (TypeError "value.match is not a function")
  end.

Record refresh := {
  rf_queries : list (string * jsobj);
  rf_change : bool;
  rf_last : jsnum;
}.

(** @source app/SqlLab/reducers/sqlLab.js 689-736 REFRESH_QUERIES (loop) *)
Definition refresh_query (stored : list (string * jsobj)) (r : refresh) (entry : string * jsobj)
    : result refresh :=
  let '(id, changedQuery) := entry in
  if settled (aget id stored) then Ok r
  else
    timestamp ← changed_on changedQuery;
    let last := if num_ltb (rf_last r) timestamp then timestamp else rf_last r in
    let query := refreshed (aget id stored) changedQuery in
    same ← unchanged (aget id stored) query;
    Ok {| rf_queries := oset id (if (same : bool) then default query (aget id stored) else query) (rf_queries r);
          rf_change := rf_change r || negb same;
          rf_last := last |}.

(** @source app/SqlLab/reducers/sqlLab.js 684-741 REFRESH_QUERIES *)
Definition refresh_queries (alteredQueries : list (string * jsobj)) (state : sqlLab) : result sqlLab :=
  r ← fold_result (refresh_query (queries state))
        {| rf_queries := queries state; rf_change := false; rf_last := queriesLastUpdate state |}
        alteredQueries;
  Ok (set_lastUpdate (rf_last r)
        (set_queries (if rf_change r then rf_queries r else queries state) state)).

(** @source app/SqlLab/reducers/sqlLab.js 742-768 CLEAR_INACTIVE_QUERIES *)
Definition clear_inactive_queries (interval : jsval) (state : sqlLab) : sqlLab :=
  let inactive (query : jsobj) :=
    js_includes [query_state Running; query_state Pending] (ofield "state" query) &&
    num_ltb (to_number interval)
      (num_sub (to_number time) (to_number (ofield "startDttm" query))) &&
    strict_eq (ofield "progress" query) (JNum (num_of_Z 0)) in
  let status (query : jsobj) := opt_field "status" (ofield "results" query) in
  set_queries
    (from_entries
       ((λ kq : string * jsobj,
           (kq.1,
            oset "state"
              (if truthy (ofield "resultsKey" kq.2) && truthy (status kq.2)
               then status kq.2 else ofield "state" kq.2) kq.2)) <$>
        filter (λ kq : string * jsobj, inactive kq.2 = false) (queries state))) state.

(** @source app/SqlLab/reducers/sqlLab.js 674-683 SET_DATABASES *)
Definition set_databases_action (dbs : list jsobj) (state : sqlLab) : result sqlLab :=
  databases' ← fold_result (λ m db,
    extra ← JSON_parse (to_string (js_or (ofield "extra" db) (JStr EmptyString)));
    Ok (oset (to_string (ofield "id" db)) (JObj (oset "extra_json" extra db)) m)) [] dbs;
  Ok (set_databases databases' state).

(** @source app/SqlLab/reducers/sqlLab.js 568-587 QUERY_EDITOR_SET_SQL *)
Definition query_editor_set_sql (queryEditor : jsobj) (sql queryId : jsval) (state : sqlLab) : sqlLab :=
  let unsaved := unsavedQueryEditor state in
  if same_field "id" unsaved queryEditor && strict_eq (ofield "sql" unsaved) sql then state
  else
    edit state (("sql", sql) :: spread_if (truthy queryId) [("latestQueryId", queryId)]) queryEditor
      false.

(** The handlers without a definition of their own are given here.

    @source app/SqlLab/reducers/sqlLab.js 55-797 sqlLabReducer *)
Definition sqlLabReducer (state : sqlLab) (action : sqllab_action) : result sqlLab :=
  match action with
  | ADD_QUERY_EDITOR queryEditor => Ok (add_query_editor queryEditor state)
  | QUERY_EDITOR_SAVED query res clientId => query_editor_saved query res clientId state
  | UPDATE_QUERY_EDITOR alterations => Ok (update_query_editor alterations state)
  | CLONE_QUERY_TO_NEW_TAB query => clone_query_to_new_tab query state
  | REMOVE_QUERY_EDITOR queryEditor => Ok (remove_query_editor queryEditor state)
  | CLEAR_DESTROYED_QUERY_EDITOR queryEditorId =>
      Ok (set_destroyed (adel (to_string queryEditorId) (destroyedQueryEditors state)) state)
  | REMOVE_QUERY query =>
      Ok (set_queries (adel (to_string (ofield "id" query)) (queries state)) state)
  | RESET_STATE sqlLabInitialState => Ok sqlLabInitialState
  | MERGE_TABLE table query prepend => Ok (merge_table table query prepend state)
  | EXPAND_TABLE table => Ok (alter_table table [("expanded", JBool true)] state)
  | REMOVE_DATA_PREVIEW table => Ok (remove_data_preview table state)
  | CHANGE_DATA_PREVIEW_ID oldQueryId newQuery =>
      Ok (change_data_preview_id oldQueryId newQuery state)
  | COLLAPSE_TABLE table => Ok (alter_table table [("expanded", JBool false)] state)
  | REMOVE_TABLES removed => Ok (remove_tables removed state)
  | COST_ESTIMATE_STARTED query => Ok (set_estimate query false JNull JNull state)
  | COST_ESTIMATE_RETURNED query json =>
      Ok (set_estimate query true (ofield "result" json) JNull state)
  | COST_ESTIMATE_FAILED query error => Ok (set_estimate query false JNull error state)
  | START_QUERY query => Ok (start_query query state)
  | STOP_QUERY query =>
      Ok (alter_query query [("state", query_state Stopped); ("results", JArr [])] state)
  | CLEAR_QUERY_RESULTS query =>
      let newResults := oset "data" (JArr []) (object_entries (ofield "results" query)) in
      Ok (alter_query query [("results", JObj newResults); ("cached", JBool true)] state)
  | REQUEST_QUERY_RESULTS query => Ok (alter_query query [("state", query_state Fetching)] state)
  | QUERY_SUCCESS query results => query_success query results state
  | QUERY_FAILED query msg link errors => Ok (query_failed query msg link errors state)
  | SET_ACTIVE_QUERY_EDITOR queryEditor => Ok (set_active_query_editor queryEditor state)
  | LOAD_QUERY_EDITOR queryEditor => Ok (load_query_editor queryEditor state)
  | SET_TABLES tables' =>
      Ok (set_tables (tables state ++ imap (λ i table, with_id (nanoid i) table) tables') state)
  | SET_ACTIVE_SOUTHPANE_TAB tabId => Ok (set_southPane tabId state)
  | MIGRATE_QUERY_EDITOR oldQueryEditor newQueryEditor =>
      Ok (set_queryEditors (alter_arr (queryEditors state) oldQueryEditor newQueryEditor "id") state)
  | MIGRATE_TABLE oldTable newTable =>
      Ok (set_tables (add_arr (nanoid 0) (remove_arr (tables state) oldTable "id") newTable false) state)
  | MIGRATE_QUERY queryId queryEditorId => Ok (migrate_query queryId queryEditorId state)
  | QUERY_EDITOR_SETDB qe dbId => Ok (edit state [("dbId", dbId)] qe false)
  | QUERY_EDITOR_SET_CATALOG qe catalog => Ok (edit state [("catalog", catalog)] qe false)
  | QUERY_EDITOR_SET_SCHEMA qe schema => Ok (edit state [("schema", schema)] qe false)
  | QUERY_EDITOR_SET_TITLE qe name => Ok (edit state [("name", name)] qe false)
  | QUERY_EDITOR_SET_SQL qe sql queryId => Ok (query_editor_set_sql qe sql queryId state)
  | QUERY_EDITOR_SET_CURSOR_POSITION qe position =>
      Ok (edit state [("cursorPosition", position)] qe false)
  | QUERY_EDITOR_SET_QUERY_LIMIT qe queryLimit => Ok (edit state [("queryLimit", queryLimit)] qe false)
  | QUERY_EDITOR_SET_TEMPLATE_PARAMS qe templateParams =>
      Ok (edit state [("templateParams", templateParams)] qe false)
  | QUERY_EDITOR_SET_SELECTED_TEXT qe sql => Ok (edit state [("selectedText", sql)] qe true)
  | QUERY_EDITOR_SET_AUTORUN qe autorun => Ok (edit state [("autorun", autorun)] qe false)
  | QUERY_EDITOR_PERSIST_HEIGHT qe northPercent southPercent =>
      Ok (edit state [("northPercent", northPercent); ("southPercent", southPercent)] qe false)
  | QUERY_EDITOR_TOGGLE_LEFT_BAR qe hideLeftBar => Ok (edit state [("hideLeftBar", hideLeftBar)] qe false)
  | SET_DATABASES dbs => set_databases_action dbs state
  | REFRESH_QUERIES alteredQueries => refresh_queries alteredQueries state
  | CLEAR_INACTIVE_QUERIES interval => Ok (clear_inactive_queries interval state)
  | SET_USER_OFFLINE offline => Ok (set_misc (oset "offline" offline (misc state)) state)
  | CREATE_DATASOURCE_STARTED =>
      Ok (set_misc (ospread (misc state) [("isDatasourceLoading", JBool true); ("errorMessage", JNull)])
            state)
  | CREATE_DATASOURCE_SUCCESS datasource =>
      Ok (set_misc (ospread (misc state)
                      [("isDatasourceLoading", JBool false); ("errorMessage", JNull);
                       ("datasource", datasource)]) state)
  | CREATE_DATASOURCE_FAILED err =>
      Ok (set_misc (ospread (misc state) [("isDatasourceLoading", JBool false); ("errorMessage", err)])
            state)
  | SET_EDITOR_TAB_LAST_UPDATE timestamp =>
      Ok (set_misc (oset "editorTabLastUpdatedAt" timestamp (misc state)) state)
  | SET_LAST_UPDATED_ACTIVE_TAB queryEditorId =>
      Ok (set_misc (oset "lastUpdatedActiveTab" queryEditorId (misc state)) state)
  | OTHER_SQLLAB_ACTION _ => Ok state
  end.

(** ** The local storage

    The value of the item ["redux"]; an exception leaves it as it is.

    @source app/SqlLab/reducers/sqlLab.js 474-483 MIGRATE_QUERY_EDITOR (storage) *)
Definition drop_stored (arrKey : string) (old : jsobj) (stored : jsval) : jsval :=
  match opt_field "sqlLab" stored with
  | JObj s =>
      match ofield arrKey s with
      | JArr items =>
          if existsb is_nullish items then stored
          else
            JObj [("sqlLab",
                   JObj (oset arrKey
                           (JArr (filter (λ item, strict_eq (opt_field "id" item) (ofield "id" old) = false)
                                    items)) s))]
      | _ => stored
      end
  | _ => stored
  end.

(** @source app/SqlLab/reducers/sqlLab.js 492-503 MIGRATE_TABLE (storage) *)
Definition sqlLab_storage (stored : jsval) (action : sqllab_action) : jsval :=
  match action with
  | MIGRATE_QUERY_EDITOR oldQueryEditor _ => drop_stored "queryEditors" oldQueryEditor stored
  | MIGRATE_TABLE oldTable _ => drop_stored "tables" oldTable stored
  | _ => stored
  end.

(** ** Reading the state *)

(** @source app/SqlLab/actions/sqlLab.js 136-146 getUpToDateQuery *)
Definition getUpToDateQuery (state : sqlLab) (queryEditor : jsobj) (key : jsval) : jsobj :=
  let unsaved := unsavedQueryEditor state in
  let id := js_nullish key (ofield "id" queryEditor) in
  ospread (ospread [("id", id)] (default [] (find_by "id" id (queryEditors state))))
    (spread_if (strict_eq id (ofield "id" unsaved)) unsaved).

(** @source app/SqlLab/actions/sqlLab.js 239-248 startQuery *)
Definition startQuery (query : jsobj) : sqllab_action :=
  START_QUERY
    (ospread query
       [("id", js_or (ofield "id" query) (JStr (nanoid 0))); ("progress", JNum (num_of_Z 0));
        ("startDttm", now);
        ("state", JStr (if truthy (ofield "runAsync" query) then "pending" else "running"));
        ("cached", JBool false)]).

(** The number in the name of an untitled tab.

    @source app/SqlLab/utils/newQueryTabName.ts 33-38 newQueryTabName (numbers) *)
Definition untitled_number (name : jsval) : option jsnum :=
  match name with
  | JStr s =>
      digits ← strip_prefix "Untitled Query " s;
      if bool_decide (digits ≠ EmptyString) && all_chars is_digit digits
      then Some (Number_of_string digits) else None
  | _ => None
  end.

(** @source app/SqlLab/utils/newQueryTabName.ts 23-49 newQueryTabName *)
Definition newQueryTabName (editors : list jsobj) : string :=
  let untitledQueryNumbers := omap (λ qe, untitled_number (ofield "name" qe)) editors in
  match untitledQueryNumbers with
  | [] => t "Untitled Query 1" []
  | n :: ns =>
      let largestNumber := foldl num_max n ns in
      t "%s%s" [JStr "Untitled Query "; JNum (num_add largestNumber (num_of_Z 1))]
  end.

(** [Math.min(a, b)] *)
Definition num_min (x y : jsnum) : jsnum :=
  if isNaN x || isNaN y then NaN else if num_ltb y x then y else x.

(** [qe] with the edits that are not merged yet

    @source app/SqlLab/actions/sqlLab.js 572-575 addNewQueryEditor (editors) *)
Definition with_unsaved (state : sqlLab) (qe : jsobj) : jsobj :=
  let unsaved := unsavedQueryEditor state in
  ospread qe (spread_if (same_field "id" qe unsaved) unsaved).

(** @source app/SqlLab/actions/sqlLab.js 547-590 addNewQueryEditor *)
Definition addNewQueryEditor (persistence : bool) (conf : jsobj) (state : sqlLab) : sqllab_action :=
  let activeQueryEditor := find_by "id" (active_tab state) (queryEditors state) in
  let dbIds := (λ db, to_number (opt_field "id" db)) <$> avalues (databases state) in
  let firstDbId :=
    match dbIds with [] => JUndef | n :: ns => JNum (foldl num_min n ns) end in
  let unsaved := unsavedQueryEditor state in
  let base :=
    ospread
      (ospread (default [] (head (queryEditors state))) (default [] activeQueryEditor))
      (spread_if
         (strict_eq (ofield "id" unsaved) (default JUndef (ofield "id" <$> activeQueryEditor)))
         unsaved) in
  let warning :=
    if persistence then EmptyString
    else t ("-- Note: Unless you save your query, these tabs will NOT persist if you clear your cookies or change browsers."
            +:+ String "010" (String "010" EmptyString)) [] in
  let name := newQueryTabName (with_unsaved state <$> queryEditors state) in
  addQueryEditor
    [("dbId", js_or (js_or (ofield "dbId" base) (ofield "SQLLAB_DEFAULT_DBID" conf)) firstDbId);
     ("catalog", js_nullish (ofield "catalog" base) JNull);
     ("schema", js_nullish (ofield "schema" base) JNull);
     ("autorun", js_nullish (ofield "autorun" base) (JBool false));
     ("sql", JStr (warning +:+ "SELECT ..."));
     ("queryLimit", js_or (ofield "queryLimit" base) (ofield "DEFAULT_SQLLAB_LIMIT" conf));
     ("name", JStr name)].

(** @source app/SqlLab/actions/sqlLab.js 592-614 cloneQueryToNewTab *)
Definition cloneQueryToNewTab (query : jsobj) (autorun : jsval) (state : sqlLab) : sqllab_action :=
  let unsaved := unsavedQueryEditor state in
  let sourceQueryEditor :=
    ospread (default [] (find_by "id" (active_tab state) (queryEditors state)))
      (spread_if (strict_eq (active_tab state) (ofield "id" unsaved)) unsaved) in
  addQueryEditor
    [("name", JStr (t "Copy of %s" [ofield "name" sourceQueryEditor]));
     ("dbId", truthy_or_null (ofield "dbId" query));
     ("catalog", truthy_or_null (ofield "catalog" query));
     ("schema", truthy_or_null (ofield "schema" query)); ("autorun", autorun);
     ("sql", ofield "sql" query); ("queryLimit", ofield "queryLimit" sourceQueryEditor);
     ("maxRow", ofield "maxRow" sourceQueryEditor);
     ("templateParams", ofield "templateParams" sourceQueryEditor)].

(** @source app/SqlLab/actions/sqlLab.js 630-643 switchQueryEditor *)
Definition switchQueryEditor (goBackward : bool) (state : sqlLab) : sqllab_action :=
  let editors := queryEditors state in
  let currentIndex :=
    match find_index (λ qe, strict_eq (ofield "id" qe) (active_tab state)) editors with
    | Some i => Z.of_nat i
    | None => (-1)%Z
    end in
  let len := Z.of_nat (length editors) in
  let nextIndex := if goBackward then (currentIndex - 1 + len)%Z else (currentIndex + 1)%Z in
  SET_ACTIVE_QUERY_EDITOR
    (if (len =? 0)%Z then None else editors !! Z.to_nat (Z.rem nextIndex len)).

(** @source app/SqlLab/actions/sqlLab.js 743-752 removeAllOtherQueryEditors *)
Definition removeAllOtherQueryEditors (queryEditor : jsobj) (state : sqlLab) : result sqlLab :=
  fold_result (λ s other,
    if same_field "id" other queryEditor then Ok s
    else sqlLabReducer s (REMOVE_QUERY_EDITOR other)) state (queryEditors state).
End reducer.

(** @source app/SqlLab/reducers/getInitialState.ts 32-38 dedupeTabHistory *)
Definition dedupeTabHistory (history : list jsval) : list jsval :=
  foldl (λ result tabId,
    if strict_eq (default JUndef (last result)) tabId then result else result ++ [tabId]) [] history.
