(* ===== verification/SqlLabFacts.v ===== *)
(** * Facts on the SQL Lab reducer: lists of editors, tabs and timestamps *)

From Stdlib Require Import Ascii String.
From stdpp Require Import base strings option numbers list.
From S2P Require Import Prelude JsObject JsNumber JsValue JsJson Lodash QueryTypes Query.
From S2P Require Import ReduxUtils SqlLab.

(** ** The list helpers are the Redux helpers *)

Section helpers.
Context (state : jsobj) (k idKey : string) (items : list jsobj) (obj alterations : jsobj).
Hypothesis Hk : ofield k state = JArr (JObj <$> items).

Lemma alterInArr_alter_arr :
  alterInArr state k obj alterations idKey =
  Ok (oset k (JArr (JObj <$> alter_arr items obj alterations idKey)) state).
Proof using Hk.
  unfold alterInArr, state_array. rewrite Hk. cbn [for_each_items]. rewrite bind_Ok.
  assert (map_result (λ arrItem, itemId ← field idKey arrItem;
    if strict_eq (ofield idKey obj) itemId
    then Ok (JObj (ospread (object_entries arrItem) alterations)) else Ok arrItem) (JObj <$> items) =
    Ok (JObj <$> alter_arr items obj alterations idKey)) as ->; [|done].
  clear Hk. induction items as [|x xs IH]; [done|].
  cbn [fmap list_fmap map_result alter_arr]. rewrite field_object, bind_Ok.
  unfold alter_arr in IH. rewrite IH. unfold same_field. by destruct (strict_eq _ _).
Qed.

Lemma removeFromArr_remove_arr :
  removeFromArr state k obj idKey =
  Ok (oset k (JArr (JObj <$> remove_arr items obj idKey)) state).
Proof using Hk.
  unfold removeFromArr, state_array. rewrite Hk. cbn [for_each_items]. rewrite bind_Ok.
  assert (∀ acc, fold_result (λ newArr arrItem, itemId ← field idKey arrItem;
    if strict_eq (ofield idKey obj) itemId then Ok newArr else Ok (newArr ++ [arrItem]))
    (JObj <$> acc) (JObj <$> items) = Ok (JObj <$> (acc ++ remove_arr items obj idKey))) as H.
  { clear Hk. unfold remove_arr. induction items as [|x xs IH]; intros acc.
    { cbn. by rewrite app_nil_r. }
    cbn [fmap list_fmap fold_result]. rewrite field_object, bind_Ok, filter_cons.
    destruct (strict_eq _ _) eqn:E; rewrite bind_Ok.
    - rewrite decide_False by (unfold same_field; congruence). apply IH.
    - rewrite decide_True by done. specialize (IH (acc ++ [x])). rewrite fmap_app in IH.
      cbn [fmap list_fmap] in IH. rewrite IH. by rewrite <- app_assoc. }
  specialize (H []). cbn [fmap list_fmap app] in H. by rewrite H.
Qed.
End helpers.

(** ** Timestamps *)

Lemma read_classes_again classes s read rest rest' :
  read_classes classes s = Some (read, rest) →
  read_classes classes (read +:+ rest') = Some (read, rest').
Proof.
  revert s read. induction classes as [|p classes IH]; intros s read H; cbn [read_classes] in H.
  { by injection H as <- _. }
  destruct s as [|c s]; [done|]. destruct (p c) eqn:Hp; [|done].
  destruct (read_classes classes s) as [[r rest0]|] eqn:E; [|done]. cbn in H. injection H as <- <-.
  rewrite append_cons. cbn [read_classes]. by rewrite Hp, (IH s r E).
Qed.

(** What follows a number and its fraction. *)
Definition stops (s : string) : bool :=
  match s with
  | EmptyString => true
  | String c _ => negb (is_digit c) && negb (is_char "." c)
  end.

Lemma stops_digits rest : stops rest = true → read_digits_text rest = EmptyString.
Proof.
  destruct rest as [|c rest]; [done|]. cbn. intros [Hd _]%andb_true_iff. by destruct (is_digit c).
Qed.

Lemma stops_fraction rest : stops rest = true → read_fraction rest = EmptyString.
Proof.
  destruct rest as [|c rest]; [done|]. intros Hr. pose proof (stops_digits _ Hr) as H.
  cbn in Hr. apply andb_true_iff in Hr as [_ Hp]. cbn [read_fraction].
  by destruct (is_char "." c).
Qed.

Lemma read_digits_text_again s rest :
  stops rest = true → read_digits_text (read_digits_text s +:+ rest) = read_digits_text s.
Proof.
  intros Hr. induction s as [|c s IH]; cbn [read_digits_text].
  - by rewrite append_empty_l, stops_digits.
  - destruct (is_digit c) eqn:E.
    + rewrite append_cons. cbn [read_digits_text]. by rewrite E, IH.
    + by rewrite append_empty_l, stops_digits.
Qed.

Lemma read_fraction_again s rest :
  stops rest = true → read_fraction (read_fraction s +:+ rest) = read_fraction s.
Proof.
  intros Hr. destruct s as [|c s]; cbn [read_fraction].
  - by rewrite append_empty_l, stops_fraction.
  - destruct (is_char "." c) eqn:E.
    + rewrite append_cons. cbn [read_fraction]. by rewrite E, read_digits_text_again.
    + pose proof (read_digits_text_again (String c s) rest Hr) as H.
      cbn [read_digits_text] in H |- *. destruct (is_digit c) eqn:Ed.
      * rewrite append_cons in H |- *. cbn [read_fraction]. by rewrite E.
      * by rewrite append_empty_l, stops_fraction.
Qed.

Lemma ts_match_here_again s date time rest :
  ts_match_here s = Some (date, time) → stops rest = true →
  ts_match_here (date +:+ ("T" +:+ (time +:+ rest))) = Some (date, time).
Proof.
  unfold ts_match_here. intros H Hr.
  destruct (read_classes date_classes s) as [[d s1]|] eqn:E1; [|done]. cbn [mbind option_bind] in H.
  destruct (read_classes [is_ts_separator] s1) as [[sep s2]|]; [|done]. cbn [mbind option_bind] in H.
  destruct (read_classes time_classes s2) as [[tm s3]|] eqn:E2; [|done]. cbn [mbind option_bind] in H.
  injection H as <- <-. rewrite (read_classes_again _ _ _ _ _ E1). cbn [mbind option_bind].
  change (read_classes [is_ts_separator] ("T" +:+ ((tm +:+ read_fraction s3) +:+ rest)))
    with (Some ("T", (tm +:+ read_fraction s3) +:+ rest)). cbn [mbind option_bind].
  rewrite <- string_app_assoc, (read_classes_again _ _ _ _ _ E2). cbn [mbind option_bind].
  by rewrite read_fraction_again.
Qed.

Lemma ts_match_some s m : ts_match s = Some m → ∃ s', ts_match_here s' = Some m.
Proof.
  induction s as [|c s IH]; cbn [ts_match]; (destruct (ts_match_here _) eqn:E; [intros [= <-]; by eexists|]).
  - done.
  - exact IH.
Qed.

Lemma ts_match_again s date time rest :
  ts_match s = Some (date, time) → stops rest = true →
  ts_match (date +:+ ("T" +:+ (time +:+ rest))) = Some (date, time).
Proof.
  intros (s' & Hs)%ts_match_some Hr. pose proof (ts_match_here_again s' date time rest Hs Hr) as H.
  destruct (date +:+ _) eqn:E; cbn [ts_match]; by rewrite H.
Qed.

(** A normalized timestamp is in normal form: normalizing it again, or
    removing its time zone first, gives the same text, and the other way
    round. *)
Theorem normalizeTimestamp_normal s :
  normalizeTimestamp (normalizeTimestamp s) = normalizeTimestamp s ∧
  denormalizeTimestamp (denormalizeTimestamp s) = denormalizeTimestamp s ∧
  normalizeTimestamp (denormalizeTimestamp s) = normalizeTimestamp s ∧
  denormalizeTimestamp (normalizeTimestamp s) = denormalizeTimestamp s.
Proof.
  unfold normalizeTimestamp at 2 3 5 6, denormalizeTimestamp at 2 3 4 6.
  destruct (ts_match s) as [[date time]|] eqn:E.
  - pose proof (ts_match_again s date time "Z" E eq_refl) as H1.
    pose proof (ts_match_again s date time "" E eq_refl) as H2. rewrite string_app_nil_r in H2.
    unfold normalizeTimestamp, denormalizeTimestamp. by rewrite H1, H2.
  - unfold normalizeTimestamp, denormalizeTimestamp. by rewrite E.
Qed.
