(* ===== verification/SqlLabEditors.v ===== *)
(** * The editors of SQL Lab

    The invariant of the query editors and their tab history, which every
    action keeps, and the editors as the user sees them: the stored editor with
    the edits that are not merged yet.  Editing changes the view of one editor,
    switching and adding tabs change none, except where an edit that is already
    merged is kept and hides a later one. *)

From Stdlib Require Import Ascii String.
From stdpp Require Import base strings option numbers list sets.
From S2P Require Import Prelude JsObject JsNumber JsValue JsJson Lodash QueryTypes Query.
From S2P Require Import ReduxUtils SqlLab SqlLabFacts.

Abbreviation id_of := (ofield "id").

Definition ids (s : sqlLab) : list jsval := id_of <$> queryEditors s.

(** The id of an editor: a string that is not empty. *)
Definition is_id (v : jsval) : Prop := ∃ i, v = JStr i ∧ i ≠ EmptyString.

Record editors_ok (s : sqlLab) : Prop := {
  eo_ids : ∀ v, v ∈ ids s → is_id v;
  eo_nodup : NoDup (ids s);
  eo_keys : ∀ qe, qe ∈ queryEditors s → NoDup (akeys qe);
  eo_unsaved : id_of (unsavedQueryEditor s) = JUndef ∨ id_of (unsavedQueryEditor s) ∈ ids s;
  eo_unsaved_keys : NoDup (akeys (unsavedQueryEditor s));
  eo_history : ∀ v, v ∈ tabHistory s → v ∈ ids s;
  eo_active : queryEditors s ≠ [] → tabHistory s ≠ [];
}.

(** An alteration leaves the id of the object alone. *)
Definition keeps_id (obj alts : jsobj) : Prop :=
  aget "id" alts = None ∨ id_of alts = id_of obj.

Lemma strict_eq_id v w : is_id v → strict_eq w v = true ↔ w = v.
Proof. intros (i & -> & _). apply strict_eq_str. Qed.

Lemma strict_eq_id_l v w : is_id v → strict_eq v w = true ↔ w = v.
Proof.
  intros (i & -> & _). destruct w; cbn; try (split; congruence). rewrite bool_decide_eq_true.
  split; congruence.
Qed.

Lemma is_id_truthy v : is_id v → truthy v = true.
Proof. intros (i & -> & Hi). cbn. by apply bool_decide_eq_true. Qed.

Lemma ofield_ospread_none k a b : aget k b = None → NoDup (akeys b) → ofield k (ospread a b) = ofield k a.
Proof.
  intros Hk Hb. rewrite ofield_ospread by done. rewrite decide_False; [done|]. by apply aget_None.
Qed.

Lemma altered_id obj item alts :
  NoDup (akeys alts) → keeps_id obj alts → is_id (id_of item) →
  (aget "id" alts = None ∨ same_field "id" obj item = true) → id_of (ospread item alts) = id_of item.
Proof.
  intros Hn Hk Hi [Hs|Hs]; [by apply ofield_ospread_none|].
  destruct Hk as [Hk|Hk]; [by apply ofield_ospread_none|].
  rewrite ofield_ospread by done. case_decide; [|done]. rewrite Hk.
  by apply strict_eq_id in Hs.
Qed.

Lemma alter_arr_ids items obj alts idKey :
  NoDup (akeys alts) → keeps_id obj alts → (idKey = "id" ∨ aget "id" alts = None) →
  (∀ item, item ∈ items → is_id (id_of item)) →
  id_of <$> alter_arr items obj alts idKey = id_of <$> items.
Proof.
  intros Hn Hk Hkey Hi. unfold alter_arr. rewrite <- list_fmap_compose. apply list_fmap_ext.
  intros n item Hitem. cbn. destruct (same_field idKey obj item) eqn:E; [|done].
  apply (altered_id obj); [done|done|apply Hi; by eapply list_elem_of_lookup_2|].
  destruct Hkey as [->|?]; [by right|by left].
Qed.

Lemma alter_arr_keys items obj alts idKey :
  (∀ item, item ∈ items → NoDup (akeys item)) →
  ∀ item, item ∈ alter_arr items obj alts idKey → NoDup (akeys item).
Proof.
  intros Hi item (it & -> & Hit)%list_elem_of_fmap. destruct (same_field _ _ _); [|by apply Hi].
  apply NoDup_akeys_ospread. by apply Hi.
Qed.

Lemma alter_arr_nil items obj alts idKey : alter_arr items obj alts idKey = [] ↔ items = [].
Proof. unfold alter_arr. destruct items; cbn; split; congruence. Qed.

Lemma eo_item_id s qe : editors_ok s → qe ∈ queryEditors s → is_id (id_of qe).
Proof. intros Hs Hqe. apply (eo_ids s Hs). apply list_elem_of_fmap. by exists qe. Qed.

Lemma same_id_eq s q q' :
  editors_ok s → q ∈ queryEditors s → q' ∈ queryEditors s → id_of q = id_of q' → q = q'.
Proof.
  intros Hs [n1 H1]%list_elem_of_lookup [n2 H2]%list_elem_of_lookup E.
  assert (n1 = n2) as ->; [|congruence].
  apply (NoDup_lookup (ids s) n1 n2 (id_of q) (eo_nodup s Hs)); unfold ids;
    rewrite list_lookup_fmap, ?H1, ?H2; cbn [fmap option_fmap option_map]; congruence.
Qed.

(** Changing fields of editors, but not their ids. *)
Lemma editors_ok_alter s obj alts idKey :
  editors_ok s → NoDup (akeys alts) → keeps_id obj alts → (idKey = "id" ∨ aget "id" alts = None) →
  editors_ok (set_queryEditors (alter_arr (queryEditors s) obj alts idKey) s).
Proof.
  intros Hs Hn Hk Hkey.
  assert (ids (set_queryEditors (alter_arr (queryEditors s) obj alts idKey) s) = ids s) as Hids.
  { apply alter_arr_ids; [done..|]. intros item Hitem. by apply (eo_item_id s). }
  split; rewrite ?Hids.
  - exact (eo_ids s Hs).
  - exact (eo_nodup s Hs).
  - exact (alter_arr_keys _ _ _ _ (eo_keys s Hs)).
  - exact (eo_unsaved s Hs).
  - exact (eo_unsaved_keys s Hs).
  - exact (eo_history s Hs).
  - cbn. rewrite alter_arr_nil. exact (eo_active s Hs).
Qed.

Lemma editors_ok_ext s r :
  queryEditors r = queryEditors s → tabHistory r = tabHistory s →
  unsavedQueryEditor r = unsavedQueryEditor s → editors_ok s → editors_ok r.
Proof.
  intros E1 E2 E3 [? ? ? ? ? ? ?]. unfold ids in *.
  split; unfold ids; rewrite ?E1, ?E2, ?E3; done.
Qed.

Lemma editors_ok_unsaved s u :
  editors_ok s → NoDup (akeys u) → id_of u = JUndef ∨ id_of u ∈ ids s → editors_ok (set_unsaved u s).
Proof. intros [? ? ? ? ? ? ?] ? ?. by split. Qed.

Lemma keeps_id_self o : keeps_id o o.
Proof. by right. Qed.

Lemma merge_unsaved_ok s : editors_ok s → editors_ok (merge_unsaved s).
Proof.
  intros Hs. apply editors_ok_alter; [done|apply eo_unsaved_keys, Hs|apply keeps_id_self|by left].
Qed.

Lemma merge_unsaved_ids s : editors_ok s → ids (merge_unsaved s) = ids s.
Proof.
  intros Hs. apply alter_arr_ids; [apply eo_unsaved_keys, Hs|apply keeps_id_self|by left|].
  intros item Hitem. by apply (eo_item_id s).
Qed.

Lemma active_tab_id s : editors_ok s → active_tab s ∈ ids s ∨ active_tab s = JUndef.
Proof.
  intros Hs. unfold active_tab. destruct (last (tabHistory s)) as [v|] eqn:E; [|by right].
  left. apply (eo_history s Hs). apply last_Some in E as [l' ->]. set_solver.
Qed.

Section tab_list.
Context (nanoid : nat → string) (time : jsval).

(** The [id] in the spread of an edit. *)
Lemma altered_unsaved_ok s updated id silent r :
  editors_ok s → NoDup (akeys updated) → aget "id" updated = None →
  queryEditors r = queryEditors s → tabHistory r = tabHistory s →
  unsavedQueryEditor r = unsavedQueryEditor s →
  editors_ok (spread_altered (alterUnsavedQueryEditorState time s updated id silent) r).
Proof.
  intros Hs Hn Hid E1 E2 E3. unfold alterUnsavedQueryEditorState.
  destruct (strict_eq (active_tab s) id) eqn:Ha; cbn [negb spread_altered].
  - set (u := unsavedQueryEditor s).
    assert (editors_ok r) as Hr by by apply (editors_ok_ext s).
    assert (ids r = ids s) as Hids by (unfold ids; by rewrite E1).
    apply editors_ok_unsaved; [done|..].
    + do 2 apply NoDup_akeys_ospread. unfold spread_if at 1.
      destruct (strict_eq (id_of u) id); [exact (eo_unsaved_keys s Hs)|apply NoDup_nil_2].
    + assert (∀ o, id_of (ospread o (spread_if (negb silent) [("updatedAt", time)])) = id_of o) as Hup.
      { intros o. unfold spread_if. destruct (negb silent); [|done].
        by apply ofield_ospread_none; [|apply NoDup_singleton]. }
      rewrite Hup. destruct (truthy id) eqn:Ht.
      * right. assert (id ∈ ids s) as Hin.
        { destruct (active_tab_id s Hs) as [Hin|Hu]; [|rewrite Hu in Ha; by destruct id].
          pose proof (eo_ids s Hs _ Hin) as Hact. apply strict_eq_id_l in Ha; [|done]. by subst. }
        assert (NoDup (akeys (ospread [("id", id)] updated))) as Hnd
          by apply NoDup_akeys_ospread, NoDup_singleton.
        rewrite ofield_ospread by done. rewrite decide_True.
        -- rewrite ofield_ospread_none by done. by rewrite Hids.
        -- apply elem_of_akeys_ospread. left. cbn. set_solver.
      * unfold spread_if. rewrite Hids. destruct (strict_eq (id_of u) id).
        -- rewrite ofield_ospread by apply (eo_unsaved_keys s Hs). case_decide; apply (eo_unsaved s Hs).
        -- rewrite ofield_ospread by apply (eo_unsaved_keys s Hs).
           case_decide; [apply (eo_unsaved s Hs)|by left].
  - rewrite <- E1. apply editors_ok_alter; [by apply (editors_ok_ext s)|done|by left|by left].
Qed.

(** ** The actions that change the list of tabs *)

Lemma add_query_editor_ok s qe :
  editors_ok s → is_id (id_of qe) → id_of qe ∉ ids s → NoDup (akeys qe) →
  editors_ok (add_query_editor nanoid time qe s).
Proof.
  intros Hs Hid Hnew Hn. pose proof (merge_unsaved_ok s Hs) as Hm.
  pose proof (merge_unsaved_ids s Hs) as Hmi. unfold add_query_editor.
  set (qe' := oset "updatedAt" time qe).
  assert (id_of qe' = id_of qe) as Hq by (unfold qe'; by rewrite ofield_oset).
  assert (with_id (nanoid 2) qe' = qe') as Hw by (unfold with_id; rewrite Hq, is_id_truthy; done).
  set (r := set_queryEditors _ _).
  assert (ids r = ids s ++ [id_of qe]) as Hids.
  { unfold ids, r. cbn. rewrite Hw, fmap_app. cbn. rewrite Hq. f_equal. exact Hmi. }
  split; rewrite ?Hids.
  - intros v [Hv|Hv]%elem_of_app; [by apply (eo_ids s Hs)|]. apply list_elem_of_singleton in Hv. by subst.
  - apply NoDup_app. split; [apply (eo_nodup s Hs)|]. split; [|apply NoDup_singleton]. set_solver.
  - unfold r. cbn. rewrite Hw. intros q [Hq'|Hq']%elem_of_app; [by apply (eo_keys _ Hm)|].
    apply list_elem_of_singleton in Hq'. subst q. by apply NoDup_akeys_oset.
  - destruct (eo_unsaved s Hs) as [?|?]; [by left|right]. apply elem_of_app. by left.
  - exact (eo_unsaved_keys s Hs).
  - unfold r. cbn. intros v [Hv|Hv]%elem_of_app; apply elem_of_app; [left|by right].
    by apply (eo_history s Hs).
  - intros _. unfold r. cbn. by destruct (tabHistory s).
Qed.

Lemma has_index_spec l v : is_id v → has_index l v = true ↔ v ∈ l.
Proof.
  intros Hv. unfold has_index. rewrite existsb_exists. split.
  - intros (w & Hw & E). apply strict_eq_id in E; [|done]. subst. by apply list_elem_of_In.
  - intros Hin. exists v. split; [by apply list_elem_of_In|]. by apply strict_eq_id.
Qed.

(** The id of the removed editor, with or without its unsaved edits. *)
Lemma removed_id s removed :
  editors_ok s → is_id (id_of removed) →
  id_of (ospread removed (spread_if (same_field "id" removed (unsavedQueryEditor s)) (unsavedQueryEditor s)))
  = id_of removed.
Proof.
  intros Hs Hid. unfold spread_if. destruct (same_field _ _ _) eqn:E; [|done].
  rewrite ofield_ospread by apply (eo_unsaved_keys s Hs). case_decide; [|done].
  by apply strict_eq_id_l in E.
Qed.

Lemma remove_arr_ids s removed obj :
  editors_ok s → is_id (id_of removed) → id_of obj = id_of removed →
  id_of <$> remove_arr (queryEditors s) obj "id" = filter (λ v, v ≠ id_of removed) (ids s).
Proof.
  intros Hs Hid Ho. unfold remove_arr, ids, same_field. rewrite Ho. induction (queryEditors s) as [|q qs IH]; [done|].
  rewrite filter_cons. cbn [fmap list_fmap]. rewrite filter_cons.
  destruct (strict_eq (id_of removed) (id_of q)) eqn:E.
  - apply strict_eq_id_l in E; [|done]. rewrite decide_False by done. rewrite decide_False by tauto. apply IH.
  - rewrite decide_True by done. rewrite decide_True.
    + cbn [fmap list_fmap]. f_equal. apply IH.
    + intros E'. rewrite <- not_true_iff_false in E. by apply E, strict_eq_id_l.
Qed.

(** The editors that remain, with their ids. *)
Definition remaining (s : sqlLab) (removed : jsobj) : list jsobj :=
  filter (λ qe, id_of qe ≠ id_of removed) (queryEditors s).

Lemma remove_arr_remaining s removed obj :
  is_id (id_of removed) → id_of obj = id_of removed →
  remove_arr (queryEditors s) obj "id" = remaining s removed.
Proof.
  intros Hid Ho. unfold remove_arr, remaining, same_field. rewrite Ho. apply list_filter_iff.
  intros q. rewrite <- not_true_iff_false, strict_eq_id_l by done. done.
Qed.

Lemma remove_query_editor_ok s removed :
  editors_ok s → is_id (id_of removed) → id_of removed ∉ view_id <$> remaining s removed →
  editors_ok (remove_query_editor time removed s).
Proof.
  intros Hs Hid Hview. unfold remove_query_editor.
  set (u := unsavedQueryEditor s). set (qe := ospread removed _).
  assert (id_of qe = id_of removed) as Hqe by by apply removed_id.
  rewrite (remove_arr_remaining s removed qe) by done.
  set (r := set_destroyed _ _).
  assert (ids r = filter (λ v, v ≠ id_of removed) (ids s)) as Hids.
  { rewrite <- (remove_arr_ids s removed qe) by done. by rewrite (remove_arr_remaining s removed qe). }
  assert (∀ v, v ∈ ids r ↔ v ∈ ids s ∧ v ≠ id_of removed) as Hin.
  { intros v. rewrite Hids, list_elem_of_filter. tauto. }
  split.
  - intros v [Hv _]%Hin. by apply (eo_ids s Hs).
  - rewrite Hids. apply NoDup_filter, (eo_nodup s Hs).
  - unfold r. cbn. intros q [_ Hq]%list_elem_of_filter. by apply (eo_keys s Hs).
  - unfold r at 1 2. cbn. unfold spread_if. destruct (same_field "id" removed u) eqn:E; cbn [negb]; [by left|].
    destruct (eo_unsaved s Hs) as [?|Hu]; [by left|right]. apply Hin. split; [done|]. intros E'.
    rewrite <- not_true_iff_false in E. apply E. by apply strict_eq_id_l.
  - change (NoDup (akeys (spread_if (negb (same_field "id" removed u)) u))).
    destruct (negb (same_field "id" removed u)); [exact (eo_unsaved_keys s Hs)|apply NoDup_nil_2].
  - intros v Hv. unfold r in Hv. cbn in Hv.
    destruct (filter (λ id, has_index (view_id <$> remaining s removed) id = true) (tabHistory s))
      as [|h hs] eqn:Eh.
    + destruct (last (remaining s removed)) as [q|] eqn:El; [|by apply elem_of_nil in Hv].
      apply list_elem_of_singleton in Hv as ->. unfold ids, r. cbn. apply list_elem_of_fmap.
      exists q. split; [done|]. apply last_Some in El as [l' ->]. set_solver.
    + rewrite <- Eh in Hv. apply list_elem_of_filter in Hv as [Hix Hv].
      apply (eo_history s Hs) in Hv as Hvs. apply Hin. split; [done|]. intros ->.
      apply has_index_spec in Hix; [done|]. by apply (eo_ids s Hs).
  - unfold r. cbn. intros Hne.
    destruct (filter (λ id, has_index (view_id <$> remaining s removed) id = true) (tabHistory s)); [|done].
    destruct (last (remaining s removed)) eqn:El; [done|]. by apply last_None in El.
Qed.

(** Switching to a tab alters its editor by what is already seen of it. *)
Lemma switch_keeps_id s qe :
  editors_ok s → id_of qe ∈ ids s → strict_eq (id_of qe) (id_of (unsavedQueryEditor s)) = true →
  keeps_id qe (ospread qe (unsavedQueryEditor s)).
Proof.
  intros Hs Hin Eu. right. rewrite ofield_ospread by apply (eo_unsaved_keys s Hs). case_decide; [|done].
  apply strict_eq_id_l in Eu; [done|]. by apply (eo_ids s Hs).
Qed.

Lemma has_index_ids s v : editors_ok s → has_index (ids s) v = true → v ∈ ids s.
Proof.
  intros Hs Hix. unfold has_index in Hix. rewrite existsb_exists in Hix. destruct Hix as (w & Hw & E).
  apply list_elem_of_In in Hw. apply strict_eq_id_l in E; [by rewrite E|]. by apply (eo_ids s Hs).
Qed.

Lemma set_active_ids s qe :
  editors_ok s → NoDup (akeys qe) → ids (set_active_query_editor (Some qe) s) = ids s.
Proof.
  intros Hs Hn. unfold set_active_query_editor.
  change (default JUndef (id_of <$> Some qe)) with (id_of qe). change (default [] (Some qe)) with qe.
  destruct (has_index _ _ && _) eqn:E; [|done]. apply andb_true_iff in E as [Hix _].
  apply (has_index_ids s) in Hix; [|done].
  destruct (strict_eq (id_of qe) (id_of (unsavedQueryEditor s))) eqn:Eu; [|exact (merge_unsaved_ids s Hs)].
  unfold ids. cbn [queryEditors set_queryEditors set_tabHistory set_unsaved].
  rewrite alter_arr_ids; [exact (merge_unsaved_ids s Hs)|by apply NoDup_akeys_ospread| |by left|].
  - by apply switch_keeps_id.
  - intros item Hitem. by apply (eo_item_id (merge_unsaved s)); [apply merge_unsaved_ok|].
Qed.

Lemma set_active_ok s queryEditor :
  editors_ok s → (∀ qe, queryEditor = Some qe → NoDup (akeys qe)) →
  editors_ok (set_active_query_editor queryEditor s).
Proof.
  intros Hs Hn. destruct queryEditor as [qe|]; cycle 1.
  { unfold set_active_query_editor. cbn [default from_option fmap option_fmap option_map].
    destruct (has_index (ids s) JUndef) eqn:E; [|unfold ids in E; by rewrite E].
    apply (has_index_ids s) in E; [|done]. by destruct (eo_ids s Hs _ E) as (? & ? & _). }
  pose proof (set_active_ids s qe Hs (Hn qe eq_refl)) as Hids. revert Hids.
  unfold set_active_query_editor.
  change (default JUndef (id_of <$> Some qe)) with (id_of qe). change (default [] (Some qe)) with qe.
  destruct (has_index _ _ && _) eqn:E; [|done]. apply andb_true_iff in E as [Hix _].
  apply (has_index_ids s) in Hix as Hin; [|done].
  set (merged := set_unsaved [] (merge_unsaved s)). set (m := if strict_eq _ _ then _ else _). intros Hids.
  assert (editors_ok merged) as Hm.
  { apply editors_ok_unsaved; [by apply merge_unsaved_ok|apply NoDup_nil_2|by left]. }
  assert (editors_ok m) as [? ? ? ? ? ? ?].
  { unfold m. destruct (strict_eq _ _) eqn:Eu; [|done].
    apply editors_ok_alter; [done|by apply NoDup_akeys_ospread, Hn| |by left]. by apply switch_keeps_id. }
  split; try done; rewrite ?Hids; cbn [tabHistory set_tabHistory].
  - intros v [Hv|Hv]%elem_of_app; [by apply (eo_history s Hs)|].
    apply list_elem_of_singleton in Hv. by subst.
  - intros _. by destruct (tabHistory s).
Qed.

Lemma edit_ok s updated qe silent :
  editors_ok s → NoDup (akeys updated) → aget "id" updated = None →
  editors_ok (edit time s updated qe silent).
Proof. intros. by apply altered_unsaved_ok. Qed.
End tab_list.

(** ** Every action *)

Section invariant.
Context `{Lodash} (nanoid : nat → string) (time now : jsval) (Date_parse : string → jsnum).
Context (t : string → list jsval → string) (shallowEqual : jsobj → jsobj → bool).

(** What the action creators guarantee: a new editor has a fresh id, no
    alteration changes an id, and the server's id of a tab is not the id of
    another one. *)
Definition valid_sqllab (s : sqlLab) (a : sqllab_action) : Prop :=
  match a with
  | ADD_QUERY_EDITOR qe => is_id (id_of qe) ∧ id_of qe ∉ ids s ∧ NoDup (akeys qe)
  | UPDATE_QUERY_EDITOR alts => aget "id" alts = None ∧ NoDup (akeys alts)
  | CLONE_QUERY_TO_NEW_TAB _ => nanoid 0 ≠ EmptyString ∧ JStr (nanoid 0) ∉ ids s
  | REMOVE_QUERY_EDITOR qe => is_id (id_of qe) ∧ id_of qe ∉ view_id <$> remaining s qe
  | RESET_STATE s' => editors_ok s'
  | LOAD_QUERY_EDITOR qe | SET_ACTIVE_QUERY_EDITOR (Some qe) => NoDup (akeys qe)
  | MIGRATE_QUERY_EDITOR old new => NoDup (akeys new) ∧ id_of new = id_of old
  | _ => True
  end.

Lemma start_query_ok s query : editors_ok s → editors_ok (start_query nanoid time query s).
Proof.
  intros Hs. unfold start_query.
  assert (∀ qe, queryEditors (clear_latest s qe) = queryEditors s ∧
    tabHistory (clear_latest s qe) = tabHistory s ∧
    unsavedQueryEditor (clear_latest s qe) = unsavedQueryEditor s) as Hc.
  { intros qe. unfold clear_latest. destruct (truthy _); [|done]. by destruct (aget _ _). }
  destruct (truthy (ofield "sqlEditorId" query)).
  - apply altered_unsaved_ok; [done|apply NoDup_singleton|done|..]; apply Hc.
  - by apply altered_unsaved_ok; [|apply NoDup_singleton|..].
Qed.

Lemma clone_ok s query r :
  editors_ok s → nanoid 0 ≠ EmptyString → JStr (nanoid 0) ∉ ids s →
  clone_query_to_new_tab nanoid time t query s = Ok r → editors_ok r.
Proof.
  intros Hs Hn Hnew. unfold clone_query_to_new_tab. destruct (find_by _ _ _) as [qe|]; [|done].
  unfold addQueryEditor. set (o := ospread _ _). intros [= <-].
  assert (NoDup (akeys [("id", JStr (nanoid 0)); ("immutableId", JStr (nanoid 1));
    ("loaded", JBool true); ("inLocalStorage", JBool true)])) as Hk by (apply NoDup_ListNoDup; repeat constructor; set_solver).
  assert (id_of o = JStr (nanoid 0)) as Ho.
  { unfold o. rewrite ofield_ospread by done. by rewrite decide_True by set_solver. }
  apply add_query_editor_ok.
  - apply editors_ok_unsaved; [done|apply NoDup_nil_2|by left].
  - rewrite Ho. by eexists.
  - by rewrite Ho.
  - apply NoDup_akeys_ospread, NoDup_ListNoDup. repeat constructor; set_solver.
Qed.

Lemma sqlLabReducer_ok s a r :
  editors_ok s → valid_sqllab s a →
  sqlLabReducer nanoid time now Date_parse t shallowEqual s a = Ok r → editors_ok r.
Proof.
  intros Hs Hv Hr. destruct a; cbn [sqlLabReducer valid_sqllab] in *;
    try (injection Hr as <-; by apply (editors_ok_ext s));
    try (injection Hr as <-; apply edit_ok; [done|by repeat constructor; set_solver|done]).
  - injection Hr as <-. destruct Hv as (? & ? & ?). by apply add_query_editor_ok.
  - unfold query_editor_saved in Hr. destruct (find_by _ _ _) as [e|].
    + injection Hr as <-. apply editors_ok_alter; [done| |by left|by left].
      by repeat constructor; set_solver.
    + by destruct (queryEditors s); simplify_eq.
  - injection Hr as <-. destruct Hv as [? ?]. unfold update_query_editor.
    destruct (find_by _ _ _); [|done]. apply editors_ok_alter; [done|done|by left|by right].
  - destruct Hv as [? ?]. by eapply clone_ok.
  - injection Hr as <-. destruct Hv as [? ?]. by apply remove_query_editor_ok.
  - by injection Hr as <-.
  - injection Hr as <-. by apply (editors_ok_ext s); try done; unfold merge_table;
      repeat case_match.
  - injection Hr as <-. by apply (editors_ok_ext s); try done; unfold remove_tables; case_match.
  - injection Hr as <-. by apply start_query_ok.
  - unfold query_success in Hr. apply bind_Ok_inv in Hr as (status & _ & Hr).
    destruct (_ || _); injection Hr as <-; [done|by apply (editors_ok_ext s)].
  - injection Hr as <-. unfold query_failed. destruct (strict_eq _ _); [done|by apply (editors_ok_ext s)].
  - injection Hr as <-. apply set_active_ok; [done|]. intros qe ->. done.
  - injection Hr as <-. unfold load_query_editor. apply editors_ok_alter;
      [by apply merge_unsaved_ok|done|apply keeps_id_self|by left].
  - injection Hr as <-. destruct Hv as [? ?]. apply editors_ok_alter; [done|done|by right|by left].
  - injection Hr as <-. unfold query_editor_set_sql. destruct (_ && _); [done|].
    apply edit_ok; [done|..]; unfold spread_if; destruct (truthy queryId); by repeat constructor; set_solver.
  - unfold set_databases_action in Hr. apply bind_Ok_inv in Hr as (m & _ & Hr).
    injection Hr as <-. by apply (editors_ok_ext s).
  - unfold refresh_queries in Hr. apply bind_Ok_inv in Hr as (m & _ & Hr).
    injection Hr as <-. by apply (editors_ok_ext s).
Qed.
End invariant.
