(* ===== verification/SqlLabViews.v ===== *)
(** * What the user sees of the SQL Lab editors

    The editor that [getUpToDateQuery] returns is the stored one with the
    edits that are not merged yet.  An edit changes this view of one editor as
    asked, and of no other unless edits of another editor were pending under the
    active tab; switching tabs and adding a tab change no view. *)

From Stdlib Require Import Ascii String.
From stdpp Require Import base strings option numbers list sets relations.
From S2P Require Import Prelude JsObject JsNumber JsValue JsJson Lodash QueryTypes Query.
From S2P Require Import ReduxUtils SqlLab SqlLabFacts SqlLabEditors.

(** ** Reachable states *)

(** One action, at some time and with some generated ids. *)
Inductive sqllab_step `{Lodash} (Date_parse : string → jsnum) (t : string → list jsval → string)
    (shallowEqual : jsobj → jsobj → bool) (s r : sqlLab) : Prop :=
| sqllab_step_intro nanoid time now a :
    valid_sqllab nanoid s a →
    sqlLabReducer nanoid time now Date_parse t shallowEqual s a = Ok r →
    sqllab_step Date_parse t shallowEqual s r.

(** C17. The active tab of SQL Lab exists: in every state that is reached from a
    well-formed one, the ids of the query editors are distinct, the tabs of the
    history and the editor with unsaved edits are stored, and whenever there is
    an editor, the active tab is one of them. *)
Theorem sqllab_reachable_ok `{Lodash} Date_parse t shallowEqual s r :
  editors_ok s → rtc (sqllab_step Date_parse t shallowEqual) s r →
  editors_ok r ∧ (queryEditors r ≠ [] → active_tab r ∈ ids r).
Proof.
  intros Hs Hr. assert (editors_ok r) as Hok.
  { induction Hr as [s|s m r [nanoid time now a Ha Hm] _ IH]; [done|]. apply IH.
    by eapply sqlLabReducer_ok. }
  split; [done|]. intros Hne. apply (eo_active r Hok) in Hne. unfold active_tab.
  destruct (last (tabHistory r)) as [v|] eqn:E; [|by apply last_None in E].
  apply (eo_history r Hok). apply last_Some in E as [l' ->]. set_solver.
Qed.

(** ** Views *)

Definition stored (s : sqlLab) (i : string) : option jsobj := find_by "id" (JStr i) (queryEditors s).

Definition view (s : sqlLab) (i : string) : jsobj := getUpToDateQuery s [] (JStr i).

Definition pending (s : sqlLab) (i : string) : jsobj :=
  spread_if (strict_eq (JStr i) (id_of (unsavedQueryEditor s))) (unsavedQueryEditor s).

Lemma find_by_some items v qe :
  find_by "id" v items = Some qe → qe ∈ items ∧ strict_eq (id_of qe) v = true.
Proof. intros H. apply find_some in H as [H ?]. by apply list_elem_of_In in H. Qed.

Lemma stored_some s i qe : editors_ok s → stored s i = Some qe → qe ∈ queryEditors s ∧ id_of qe = JStr i.
Proof. intros Hs [Hin E]%find_by_some. split; [done|]. by apply strict_eq_str in E. Qed.

Lemma stored_ids s i : editors_ok s → JStr i ∈ ids s → is_Some (stored s i).
Proof.
  intros Hs (qe & E & Hin)%list_elem_of_fmap. unfold stored, find_by.
  destruct (List.find _ _) eqn:Ef; [by eexists|].
  apply list_elem_of_In in Hin. apply (find_none _ _ Ef) in Hin. rewrite <- E in Hin.
  by rewrite (proj2 (strict_eq_str _ _) eq_refl) in Hin.
Qed.

Lemma pending_keys s i : editors_ok s → NoDup (akeys (pending s i)).
Proof.
  intros Hs. unfold pending, spread_if. destruct (strict_eq _ _); [exact (eo_unsaved_keys s Hs)|apply NoDup_nil_2].
Qed.

(** A field of a view: from the edits, else from the stored editor. *)
Lemma aget_view s i k :
  editors_ok s →
  aget k (view s i) =
  match aget k (pending s i) with
  | Some v => Some v
  | None => match stored s i with
            | Some qe => match aget k qe with
                         | Some v => Some v
                         | None => if decide (k = "id") then Some (JStr i) else None
                         end
            | None => if decide (k = "id") then Some (JStr i) else None
            end
  end.
Proof.
  intros Hs. unfold view, getUpToDateQuery. cbn [js_nullish is_nullish].
  fold (pending s i). fold (stored s i). rewrite aget_ospread by by apply pending_keys.
  destruct (aget k (pending s i)); [done|].
  assert (aget k [("id", JStr i)] = if decide (k = "id") then Some (JStr i) else None) as Hid.
  { cbn. by repeat case_decide. }
  destruct (stored s i) as [qe|] eqn:E; cbn [default from_option].
  - rewrite aget_ospread; [|by apply (eo_keys s Hs), (stored_some s i)]. by rewrite Hid.
  - unfold id. by rewrite aget_ospread by apply NoDup_nil_2.
Qed.

Lemma view_ext s r i :
  editors_ok s → editors_ok r → stored r i = stored s i → pending r i = pending s i →
  entries_eq (view r i) (view s i).
Proof. intros Hs Hr E1 E2 k. rewrite !aget_view by done. by rewrite E1, E2. Qed.

Lemma find_alter items obj alts key v :
  (∀ it, it ∈ items → same_field key obj it = true → id_of (ospread it alts) = id_of it) →
  find_by "id" v (alter_arr items obj alts key) =
  (λ it, if same_field key obj it then ospread it alts else it) <$> find_by "id" v items.
Proof.
  unfold find_by, alter_arr. induction items as [|x xs IH]; [done|]. intros Hid.
  cbn [fmap list_fmap List.find].
  assert (id_of (if same_field key obj x then ospread x alts else x) = id_of x) as ->.
  { destruct (same_field key obj x) eqn:E; [|done]. apply Hid; [left|done]. }
  destruct (strict_eq _ v); [done|]. apply IH. intros it Hit. apply Hid. by right.
Qed.

(** An alteration by id changes the stored editor with that id. *)
Lemma stored_alter s m obj alts i :
  editors_ok s → NoDup (akeys alts) → keeps_id obj alts →
  queryEditors m = alter_arr (queryEditors s) obj alts "id" →
  stored m i = (λ it, if strict_eq (id_of obj) (JStr i) then ospread it alts else it) <$> stored s i.
Proof.
  intros Hs Hn Hk E. unfold stored. rewrite E, find_alter.
  - destruct (find_by "id" (JStr i) (queryEditors s)) as [it|] eqn:Ef; [|done]. cbn. f_equal.
    apply find_by_some in Ef as [_ Ef]. apply strict_eq_str in Ef. unfold same_field. by rewrite Ef.
  - intros it Hit Hsame. apply (altered_id obj); [done|done|by apply (eo_item_id s)|by right].
Qed.

(** The stored editor has the unsaved edits. *)
Definition merged (s : sqlLab) (i : string) : Prop :=
  ∃ qe, stored s i = Some qe ∧ ∀ k v, aget k (unsavedQueryEditor s) = Some v → aget k qe = Some v.

(** The edits of a tab that is not active are merged. *)
Definition synced (s : sqlLab) : Prop := ∀ i,
  id_of (unsavedQueryEditor s) = JStr i → active_tab s ≠ JStr i → merged s i.

Lemma pending_other s i : id_of (unsavedQueryEditor s) ≠ JStr i → pending s i = [].
Proof.
  intros Hne. unfold pending, spread_if. destruct (strict_eq _ _) eqn:E; [|done]. exfalso. apply Hne.
  destruct (id_of (unsavedQueryEditor s)); try done. cbn in E. apply bool_decide_eq_true in E. by subst.
Qed.

Lemma pending_own s i : id_of (unsavedQueryEditor s) = JStr i → pending s i = unsavedQueryEditor s.
Proof.
  intros E. unfold pending. rewrite E. by rewrite (proj2 (strict_eq_str (JStr i) i) eq_refl).
Qed.

(** Without edits of its own that are not merged, an editor is seen as it is
    stored. *)
Lemma unedited_view s i k :
  editors_ok s → (id_of (unsavedQueryEditor s) = JStr i → merged s i) →
  aget k (view s i) =
  match stored s i ≫= aget k with
  | Some v => Some v
  | None => if decide (k = "id") then Some (JStr i) else None
  end.
Proof.
  intros Hs Hsync. rewrite aget_view by done.
  destruct (decide (id_of (unsavedQueryEditor s) = JStr i)) as [E|E].
  - rewrite (pending_own s i E). destruct (Hsync E) as (qe & -> & Hq). cbn.
    destruct (aget k (unsavedQueryEditor s)) as [v|] eqn:Ek; [|by destruct (aget k qe)].
    by rewrite (Hq k v Ek).
  - rewrite (pending_other s i E). by destruct (stored s i).
Qed.

(** ** Edits *)

Section edits.
Context (time : jsval) (s : sqlLab) (updated qe : jsobj) (i : string) (silent : bool).
Hypothesis Hs : editors_ok s.
Hypothesis Hn : NoDup (akeys updated).
Hypothesis Hid : aget "id" updated = None.
Hypothesis Hqe : id_of qe = JStr i.
Hypothesis Hin : JStr i ∈ ids s.

Let r := edit time s updated qe silent.

Lemma i_not_empty : i ≠ EmptyString.
Proof using All. destruct (eo_ids s Hs _ Hin) as (j & [= ->] & ?). done. Qed.

Lemma edit_result :
  r = if decide (active_tab s = JStr i)
      then set_unsaved
             (ospread (ospread (pending s i) (ospread [("id", JStr i)] updated))
                (spread_if (negb silent) [("updatedAt", time)])) s
      else set_queryEditors (alter_arr (queryEditors s) [("id", JStr i)] updated "id") s.
Proof using All.
  unfold r, edit, alterUnsavedQueryEditorState. rewrite Hqe.
  destruct (strict_eq (active_tab s) (JStr i)) eqn:E; cbn [negb].
  - apply strict_eq_str in E. rewrite decide_True by done. cbn [spread_altered].
    rewrite is_id_truthy by (eexists; split; [done|apply i_not_empty]).
    assert (spread_if (strict_eq (id_of (unsavedQueryEditor s)) (JStr i)) (unsavedQueryEditor s) =
      pending s i) as ->; [|done].
    unfold pending. f_equal. destruct (id_of (unsavedQueryEditor s)); try done. cbn.
    apply bool_decide_ext. split; congruence.
  - rewrite decide_False; [done|]. rewrite <- not_true_iff_false, strict_eq_str in E. done.
Qed.

Lemma edit_editors_ok : editors_ok r.
Proof using All. by apply edit_ok. Qed.

(** The active tab: the edit goes to the unsaved editor. *)
Lemma edit_active_unsaved k :
  active_tab s = JStr i →
  aget k (unsavedQueryEditor r) =
  if decide (k = "updatedAt" ∧ silent = false) then Some time
  else match aget k updated with
       | Some v => Some v
       | None => if decide (k = "id") then Some (JStr i) else aget k (pending s i)
       end.
Proof using All.
  intros Ha. rewrite edit_result, decide_True by done. cbn [set_unsaved unsavedQueryEditor].
  assert (NoDup (akeys (ospread [("id", JStr i)] updated))) by apply NoDup_akeys_ospread, NoDup_singleton.
  assert (∀ o, aget k (ospread o (spread_if (negb silent) [("updatedAt", time)])) =
    if decide (k = "updatedAt" ∧ silent = false) then Some time else aget k o) as Hup.
  { intros o. destruct silent; cbn [negb spread_if].
    - rewrite aget_ospread by apply NoDup_nil_2. rewrite decide_False by naive_solver. done.
    - rewrite aget_ospread by apply NoDup_singleton. cbn [aget].
      repeat case_decide; naive_solver. }
  rewrite Hup. case_decide; [done|]. rewrite !aget_ospread by done.
  destruct (aget k updated); [done|]. cbn [aget]. by repeat case_decide.
Qed.

Lemma edit_stored_active j : active_tab s = JStr i → stored r j = stored s j.
Proof using All. intros Ha. unfold stored. by rewrite edit_result, decide_True. Qed.

Lemma edit_stored_inactive j :
  active_tab s ≠ JStr i →
  stored r j = (λ it, if decide (j = i) then ospread it updated else it) <$> stored s j.
Proof using All.
  intros Ha. rewrite (stored_alter s r [("id", JStr i)] updated j); [|done|done|by left|].
  - change (strict_eq (id_of [("id", JStr i)]) (JStr j)) with (bool_decide (i = j)).
    destruct (stored s j) as [it|]; [|done]. cbn. f_equal. case_bool_decide; case_decide; congruence.
  - by rewrite edit_result, decide_False.
Qed.

Lemma view_id_field : aget "id" (view s i) = Some (JStr i).
Proof using All.
  rewrite aget_view by done. destruct (stored_ids s i Hs Hin) as [q Hq]. rewrite Hq.
  apply (stored_some s i q Hs) in Hq as [_ Hq].
  destruct (decide (id_of (unsavedQueryEditor s) = JStr i)) as [E|E].
  - rewrite (pending_own s i E). unfold ofield in E.
    destruct (aget "id" (unsavedQueryEditor s)); cbn in E; [by subst|done].
  - rewrite (pending_other s i E). cbn [aget]. unfold ofield in Hq.
    by destruct (aget "id" q); cbn in Hq; subst.
Qed.

(** C25. An edit changes the view of one editor.  After an action that sets
    fields, other than the id, of an editor that is there, and that is the active
    one or has no unsaved edits, the
    editor as the user sees it has the new values and its other fields as
    before.  An edit of the active tab that is not silent sets its time of change
    as well.  Every other editor is seen as before, with one exception: when the
    active tab is edited while the unsaved edits are those of another editor and
    differ from what is stored of it, then these edits are lost and that editor is
    seen as it is stored.  That is so when an editor is edited while another tab is
    active and its unsaved edits, kept when a tab was added, have the same field.
    An edit of the active tab or of an editor without unsaved edits does not lead
    into such a state. *)
Theorem edit_changes_view :
  active_tab s = JStr i ∨ id_of (unsavedQueryEditor s) ≠ JStr i →
  (∀ k, aget k (view r i) =
        if decide (k = "updatedAt" ∧ active_tab s = JStr i ∧ silent = false) then Some time
        else match aget k updated with Some v => Some v | None => aget k (view s i) end) ∧
  (∀ j, j ≠ i → (active_tab s = JStr i → id_of (unsavedQueryEditor s) = JStr j → merged s j) →
     entries_eq (view r j) (view s j)) ∧
  (∀ j, j ≠ i → active_tab s = JStr i → ∀ k,
     aget k (view r j) = match stored s j ≫= aget k with
                         | Some v => Some v
                         | None => if decide (k = "id") then Some (JStr j) else None
                         end) ∧
  (synced s → synced r).
Proof using All.
  intros Hcase. pose proof edit_editors_ok as Hr.
  assert (active_tab r = active_tab s) as Hact.
  { unfold active_tab. rewrite edit_result. by case_decide. }
  destruct (decide (active_tab s = JStr i)) as [Ha|Ha].
  - assert (id_of (unsavedQueryEditor r) = JStr i) as Hru.
    { unfold ofield. rewrite edit_active_unsaved, decide_False, Hid, decide_True by naive_solver. done. }
    assert (∀ j, j ≠ i → ∀ k, aget k (view r j) = match stored s j ≫= aget k with
        | Some v => Some v | None => if decide (k = "id") then Some (JStr j) else None end) as Hother.
    { intros j Hj k. rewrite (unedited_view r), edit_stored_active by (done || congruence). done. }
    split; [|split; [|split]].
    + intros k. rewrite aget_view, (pending_own r i Hru), edit_active_unsaved by done.
      destruct (decide (k = "updatedAt" ∧ silent = false)),
        (decide (k = "updatedAt" ∧ active_tab s = JStr i ∧ silent = false));
        [done|exfalso; tauto|exfalso; tauto|].
      destruct (aget k updated); [done|].
      destruct (decide (k = "id")) as [->|Hkid]; [by rewrite view_id_field|].
      rewrite (aget_view s) by done. by rewrite edit_stored_active, decide_False.
    + intros j Hj Hm k. rewrite Hother, (unedited_view s) by auto. done.
    + intros j Hj _. by apply Hother.
    + intros _ j Hj Hnj. rewrite Hru in Hj. injection Hj as <-. congruence.
  - destruct Hcase as [?|Hu]; [done|].
    assert (unsavedQueryEditor r = unsavedQueryEditor s) as Hru by by rewrite edit_result, decide_False.
    assert (∀ j, pending r j = pending s j) as Hp by (intros j; unfold pending; by rewrite Hru).
    split; [|split; [|split; [by intros ? _ ?|]]].
    + intros k. rewrite !aget_view, Hp, edit_stored_inactive, pending_other by done. cbn [aget].
      destruct (decide (k = "updatedAt" ∧ active_tab s = JStr i ∧ silent = false)); [exfalso; tauto|].
      destruct (stored_ids s i Hs Hin) as [q Hq].
      rewrite Hq. cbn [fmap option_fmap option_map]. rewrite decide_True by done.
      rewrite aget_ospread by done. by destruct (aget k updated).
    + intros j Hj _. apply view_ext; [done|done| |apply Hp].
      rewrite edit_stored_inactive by done. destruct (stored s j); [|done]. cbn.
      by rewrite decide_False.
    + intros Hsync j Hj Hnj. rewrite Hru in Hj. rewrite Hact in Hnj.
      destruct (Hsync j Hj Hnj) as (q & Hq & Hm). exists q. rewrite Hru. split; [|done].
      rewrite edit_stored_inactive, Hq by done. cbn. rewrite decide_False; [done|]. intros ->. done.
Qed.
End edits.

(** ** Tabs *)

Lemma stored_merge s i :
  editors_ok s → stored (merge_unsaved s) i = (λ qe, ospread qe (pending s i)) <$> stored s i.
Proof.
  intros Hs. rewrite (stored_alter s (merge_unsaved s) (unsavedQueryEditor s) (unsavedQueryEditor s) i);
    [|done|apply (eo_unsaved_keys s Hs)|apply keeps_id_self|done].
  destruct (stored s i) as [qe|]; [|done]. cbn [fmap option_fmap option_map]. f_equal.
  destruct (strict_eq (id_of (unsavedQueryEditor s)) (JStr i)) eqn:E.
  - apply strict_eq_str in E. by rewrite pending_own.
  - rewrite pending_other; [done|]. rewrite <- not_true_iff_false, strict_eq_str in E. done.
Qed.

(** Merging the edits does not change what is seen. *)
Lemma merged_view s r i :
  editors_ok s → editors_ok r →
  (∀ k, stored r i ≫= aget k = stored (merge_unsaved s) i ≫= aget k) →
  (pending r i = pending s i ∨ pending r i = []) → JStr i ∈ ids s →
  entries_eq (view r i) (view s i).
Proof.
  intros Hs Hr Hst Hp Hin k. rewrite !aget_view by done.
  specialize (Hst k). rewrite (stored_merge s i Hs) in Hst.
  destruct (stored_ids s i Hs Hin) as [q Hq]. rewrite Hq in Hst |- *.
  cbn [fmap option_fmap option_map mbind option_bind] in Hst.
  rewrite aget_ospread in Hst by by apply pending_keys.
  destruct Hp as [-> | ->]; cbn [aget]; destruct (aget k (pending s i)) as [v|]; try done;
    destruct (stored r i) as [q'|]; cbn in Hst; rewrite ?Hst; try done;
    destruct (aget k q); congruence.
Qed.

Section tabs.
Context (s : sqlLab).
Hypothesis Hs : editors_ok s.

Lemma switch_stored qe r i k :
  stored s i = Some qe → r = set_active_query_editor (Some qe) s → active_tab s ≠ JStr i →
  ∀ j, stored r j ≫= aget k = stored (merge_unsaved s) j ≫= aget k.
Proof using All.
  intros Hq -> Ha j. apply (stored_some s i) in Hq as [Hqin Hqid]; [|done].
  unfold set_active_query_editor. change (default JUndef (id_of <$> Some qe)) with (id_of qe).
  rewrite Hqid.
  assert (has_index (id_of <$> queryEditors s) (JStr i) = true) as ->.
  { apply has_index_spec; [rewrite <- Hqid; by apply (eo_item_id s)|].
    apply list_elem_of_fmap. by exists qe. }
  destruct (strict_eq (active_tab s) (JStr i)) eqn:E; [by apply strict_eq_str in E|]. cbn [negb andb].
  destruct (strict_eq (JStr i) (id_of (unsavedQueryEditor s))) eqn:Eu; [|done].
  assert (id_of (unsavedQueryEditor s) = JStr i) as Hu.
  { apply strict_eq_id_l in Eu; [done|]. rewrite <- Hqid. by apply (eo_item_id s). }
  set (merged := set_unsaved [] (merge_unsaved s)).
  assert (editors_ok merged) as Hm
    by (apply editors_ok_unsaved; [by apply merge_unsaved_ok|apply NoDup_nil_2|by left]).
  set (m := set_tabHistory _ _).
  change (default [] (Some qe)) with qe in m.
  assert (NoDup (akeys qe)) as Hqn by by apply (eo_keys s Hs).
  rewrite (stored_alter merged m qe (ospread qe (unsavedQueryEditor s)) j);
    [|done|by apply NoDup_akeys_ospread| |done].
  2: { right. rewrite ofield_ospread by apply (eo_unsaved_keys s Hs). case_decide; [|done]. congruence. }
  change (stored merged j) with (stored (merge_unsaved s) j). rewrite Hqid.
  rewrite (stored_merge s j Hs). destruct (stored s j) as [q|] eqn:Ej; [|done].
  cbn [fmap option_fmap option_map mbind option_bind].
  destruct (strict_eq (JStr i) (JStr j)) eqn:Eij; [|done].
  apply strict_eq_str in Eij. injection Eij as ->.
  rewrite (pending_own s j Hu).
  assert (q = qe) as ->.
  { apply (stored_some s j) in Ej as [Hqj Hidj]; [|done].
    apply (same_id_eq s); [done..|congruence]. }
  pose proof (eo_unsaved_keys s Hs) as Hun.
  rewrite !aget_ospread by (done || by apply NoDup_akeys_ospread).
  destruct (aget k (unsavedQueryEditor s)); [done|]. by destruct (aget k qe).
Qed.

Lemma switch_fields qe i :
  stored s i = Some qe → active_tab s ≠ JStr i →
  let r := set_active_query_editor (Some qe) s in
  active_tab r = JStr i ∧ unsavedQueryEditor r = [].
Proof using All.
  intros Hq Ha. apply (stored_some s i) in Hq as [Hqin Hqid]; [|done].
  unfold set_active_query_editor. change (default JUndef (id_of <$> Some qe)) with (id_of qe).
  rewrite Hqid.
  assert (has_index (id_of <$> queryEditors s) (JStr i) = true) as ->.
  { apply has_index_spec; [rewrite <- Hqid; by apply (eo_item_id s)|].
    apply list_elem_of_fmap. by exists qe. }
  destruct (strict_eq (active_tab s) (JStr i)) eqn:E; [by apply strict_eq_str in E|]. cbn [negb andb].
  unfold active_tab. cbn [tabHistory set_tabHistory]. rewrite last_snoc. split; [done|].
  by destruct (strict_eq (JStr i) (id_of (unsavedQueryEditor s))).
Qed.

Lemma stored_add nanoid time new j :
  JStr j ∈ ids s → stored (add_query_editor nanoid time new s) j = stored (merge_unsaved s) j.
Proof using All.
  intros Hj. unfold stored, add_query_editor, find_by, add_arr. cbn [queryEditors set_queryEditors set_tabHistory].
  pose proof (stored_ids (merge_unsaved s) j (merge_unsaved_ok s Hs)) as Hm.
  rewrite merge_unsaved_ids in Hm by done. destruct (Hm Hj) as [q Hq]. unfold stored, find_by in Hq.
  rewrite Hq. clear Hm. induction (queryEditors (merge_unsaved s)) as [|x xs IH]; [done|].
  cbn [List.find app] in *. destruct (strict_eq (id_of x) (JStr j)); [done|by apply IH].
Qed.

Lemma add_synced nanoid time new :
  (∀ l, id_of (unsavedQueryEditor s) = JStr l → JStr l ∈ ids s) →
  synced (add_query_editor nanoid time new s).
Proof using All.
  intros Hin l Hl Hal. unfold merged. change (id_of (unsavedQueryEditor s) = JStr l) in Hl.
  assert (JStr l ∈ ids s) as Hls by by apply Hin.
  rewrite stored_add, stored_merge by done. destruct (stored_ids s l Hs Hls) as [q Hql]. rewrite Hql.
  eexists. split; [done|]. intros k v Hk. change (aget k (unsavedQueryEditor s) = Some v) in Hk.
  rewrite (pending_own s l Hl), aget_ospread by apply (eo_unsaved_keys s Hs). by rewrite Hk.
Qed.

(** No edit is lost between tabs: switching to another stored editor makes
    it the active tab, merges the edits of the last one, and leaves every
    editor as the user sees it unchanged.  So does adding an editor with a
    fresh id for all editors that were there before. *)
Theorem tabs_keep_views nanoid time qe i new j :
  stored s i = Some qe → active_tab s ≠ JStr i →
  is_id (id_of new) → id_of new ∉ ids s → NoDup (akeys new) → JStr j ∈ ids s →
  let r1 := set_active_query_editor (Some qe) s in
  let r2 := add_query_editor nanoid time new s in
  active_tab r1 = JStr i ∧ unsavedQueryEditor r1 = [] ∧ synced r1 ∧
  entries_eq (view r1 j) (view s j) ∧
  active_tab r2 = id_of new ∧ synced r2 ∧ entries_eq (view r2 j) (view s j).
Proof using All.
  intros Hq Ha Hnid Hnew Hnk Hj r1 r2.
  destruct (switch_fields qe i Hq Ha) as [Ha1 Hu1]. fold r1 in Ha1, Hu1.
  assert (editors_ok r1) as Hr1.
  { apply set_active_ok; [done|]. intros q [= <-]. by apply (eo_keys s Hs), (stored_some s i qe Hs). }
  assert (editors_ok r2) as Hr2 by by apply add_query_editor_ok.
  split; [done|]. split; [done|]. split; [intros l Hl; by rewrite Hu1 in Hl|]. split.
  { apply merged_view; [done|done| | |done].
    - intros k. by apply (switch_stored qe r1 i k).
    - right. apply pending_other. by rewrite Hu1. }
  split; [|split].
  - unfold r2, active_tab, add_query_editor. cbn [tabHistory set_queryEditors set_tabHistory].
    by rewrite last_snoc.
  - apply add_synced. intros l Hl. destruct (eo_unsaved s Hs); congruence.
  - apply merged_view; [done|done| | |done].
    + intros k. unfold r2. by rewrite stored_add.
    + by left.
Qed.
End tabs.
