(* ===== verification/SqlLabQueries.v ===== *)
(** * Queries and the history of tabs

    The race guards of the query actions, what a poll of the server changes,
    the tab that is shown after one is closed, and edits that are hidden by
    older ones. *)

From Stdlib Require Import Ascii String.
From stdpp Require Import base strings option numbers list sets relations.
From S2P Require Import Prelude JsObject JsNumber JsValue JsJson Lodash QueryTypes Query.
From S2P Require Import ReduxUtils SqlLab SqlLabFacts SqlLabEditors SqlLabViews.

(** ** Stopped queries *)

Lemma alter_query_state s q alts id v :
  ofield "id" q = JStr id → NoDup (akeys alts) → aget "state" alts = Some v →
  ∃ stored, aget id (queries (alter_query q alts s)) = Some stored ∧ ofield "state" stored = v.
Proof.
  intros Hid Hn Hv. unfold alter_query, alter_obj. rewrite Hid. cbn [to_string queries set_queries].
  rewrite aget_oset_eq. eexists. split; [done|].
  unfold ofield. rewrite aget_ospread by done. by rewrite Hv.
Qed.

(** A query that was stopped: a failure that is reported afterwards is
    ignored, as the guard of [QUERY_FAILED] asks for.  The same guard of
    [QUERY_SUCCESS] names a state that does not exist, so that a late success
    overwrites the stopped query with the state success and with its results. *)
Theorem stopped_query_races now s (q : jsobj) id (results : jsobj) msg link errors :
  ofield "id" q = JStr id → ofield "state" q = query_state Stopped →
  ofield "status" results = query_state Success →
  query_failed now q msg link errors s = s ∧
  ∃ r stored, query_success now q (JObj results) s = Ok r ∧
              aget id (queries r) = Some stored ∧ ofield "state" stored = query_state Success.
Proof.
  intros Hid Hst Hres. split.
  { unfold query_failed. by rewrite Hst. }
  unfold query_success. rewrite Hst.
  change (strict_eq (query_state Stopped) JUndef) with false. cbn iota beta.
  rewrite field_object, bind_Ok, Hres. change (negb (strict_eq _ _)) with false. cbn [orb].
  set (alts := ospread _ _).
  destruct (alter_query_state s q alts id (query_state Success)) as (stored & H1 & H2); [done|..].
  - apply NoDup_akeys_ospread, NoDup_ListNoDup. repeat constructor; set_solver.
  - unfold alts, spread_if. destruct (truthy _);
      [rewrite aget_ospread by apply NoDup_singleton|rewrite aget_ospread by apply NoDup_nil_2]; done.
  - eexists _, stored. split; [done|]. by split.
Qed.

(** ** Polling *)

(** [shallowEqual] of react-redux: the objects have the same keys, with values
    that are the same. *)
Class ShallowEqual (shallowEqual : jsobj → jsobj → bool) : Prop := {
  shallowEqual_keys : ∀ a b, shallowEqual a b = true → ∀ k, is_Some (aget k a) ↔ is_Some (aget k b);
  shallowEqual_str : ∀ a b k s, shallowEqual a b = true → ofield k a = JStr s ↔ ofield k b = JStr s;
}.

Section poll.
Context `{Lodash} (Date_parse : string → jsnum) (shallowEqual : jsobj → jsobj → bool).
Context `{!ShallowEqual shallowEqual}.
Context (stored : list (string * jsobj)).

(** An update that can be read: the time of change is text. *)
Definition readable (entry : string * jsobj) : Prop :=
  settled (aget entry.1 stored) = true ∨ ∃ s, ofield "changed_on" entry.2 = JStr s.

Lemma refreshed_state q changed :
  ofield "state" (refreshed q changed) =
  reported_state (default JUndef (ofield "state" <$> q)) (ofield "state" changed).
Proof. unfold refreshed. by rewrite ofield_oset, decide_True. Qed.

Lemma unchanged_total q changed : ∃ b, unchanged shallowEqual q (refreshed q changed) = Ok b.
Proof using All.
  unfold unchanged. destruct (shallowEqual _ _) eqn:E; [|by eexists]. destruct q as [q|]; [by eexists|].
  exfalso. pose proof (shallowEqual_keys _ _ E "state") as [Hk _].
  rewrite !omit_aget in Hk. cbn [default from_option aget] in Hk.
  rewrite decide_False in Hk by set_solver. unfold refreshed in Hk. rewrite aget_oset_eq in Hk.
  destruct Hk as [? Hk]; [by eexists|]. cbn in Hk. by case_decide.
Qed.

(** What one update leaves under an id. *)
Definition polled (id : string) (changed : jsobj) (q : option jsobj) : Prop :=
  if settled (aget id stored) then q = aget id stored
  else ∃ r, q = Some r ∧
       ∀ s, ofield "state" r = JStr s ↔
            reported_state (default JUndef (ofield "state" <$> aget id stored))
              (ofield "state" changed) = JStr s.

Lemma refresh_query_ok r id changed :
  readable (id, changed) → aget id (rf_queries r) = aget id stored →
  ∃ r', refresh_query Date_parse shallowEqual stored r (id, changed) = Ok r' ∧
        polled id changed (aget id (rf_queries r')) ∧
        (∀ k, k ≠ id → aget k (rf_queries r') = aget k (rf_queries r)) ∧
        (rf_change r' = false → rf_change r = false ∧ aget id (rf_queries r') = aget id stored).
Proof using All.
  intros Hr Hset. unfold refresh_query, polled. destruct (settled (aget id stored)) eqn:Es.
  { by exists r. }
  destruct Hr as [Hr|[s Hr]]; cbn [fst snd] in Hr; [congruence|].
  unfold changed_on. rewrite Hr, bind_Ok.
  destruct (unchanged_total (aget id stored) changed) as [b Hb]. rewrite Hb, bind_Ok.
  eexists. split; [done|]. cbn [rf_queries rf_change].
  assert (b = true → ∃ q, aget id stored = Some q) as Hq.
  { intros ->. unfold unchanged in Hb. destruct (aget id stored) as [q|]; [by eexists|].
    by destruct (shallowEqual _ _). }
  split; [|split; [intros k Hk; by rewrite aget_oset_ne|]].
  - rewrite aget_oset_eq. eexists. split; [done|]. intros s'.
    rewrite <- refreshed_state. destruct b; [|done].
    destruct Hq as [q Eq]; [done|]. rewrite Eq in Hb |- *. cbn [default from_option].
    unfold unchanged in Hb. destruct (shallowEqual _ _) eqn:E; [|done].
    pose proof (shallowEqual_str _ _ "state" s' E) as Hk. unfold ofield in Hk |- *.
    rewrite !omit_aget, !decide_False in Hk by set_solver. cbn [default from_option] in Hk. tauto.
  - intros [Hc Hb']%orb_false_iff. apply negb_false_iff in Hb'. split; [done|].
    destruct Hq as [q Eq]; [done|]. rewrite aget_oset_eq, Eq, Hb'. done.
Qed.

Lemma refresh_all altered r :
  NoDup (akeys altered) → Forall readable altered →
  (∀ id, id ∈ akeys altered → aget id (rf_queries r) = aget id stored) →
  ∃ r', fold_result (refresh_query Date_parse shallowEqual stored) r altered = Ok r' ∧
        (∀ id c, aget id altered = Some c → polled id c (aget id (rf_queries r'))) ∧
        (∀ id, id ∉ akeys altered → aget id (rf_queries r') = aget id (rf_queries r)) ∧
        (rf_change r' = false → rf_change r = false ∧
           ∀ id, id ∈ akeys altered → aget id (rf_queries r') = aget id stored).
Proof using All.
  revert r. induction altered as [|[id c] altered IH]; intros r Hn Hr Hst; cbn [fold_result].
  { exists r. split; [done|]. split; [done|]. split; [done|]. intros ?. split; [done|].
    by intros id ?%elem_of_nil. }
  apply NoDup_cons in Hn as [Hid Hn]. apply Forall_cons in Hr as [Hr1 Hr].
  destruct (refresh_query_ok r id c Hr1) as (r1 & H1 & Hp & Ho & Hc); [apply Hst; left|].
  destruct (IH r1 Hn Hr) as (r' & H2 & Hp2 & Ho2 & Hc2).
  { intros k Hk. rewrite Ho by (intros ->; done). apply Hst. by right. }
  rewrite H1, bind_Ok. exists r'. split; [done|]. split; [|split].
  - intros k ck. cbn [aget]. case_decide as E; [subst k|apply Hp2].
    intros [= <-]. by rewrite Ho2.
  - intros k Hk. cbn in Hk. apply not_elem_of_cons in Hk as [Hk1 Hk2].
    by rewrite Ho2, Ho by done.
  - intros Hch. destruct (Hc2 Hch) as [Hch1 Hk]. destruct (Hc Hch1) as [? Hi]. split; [done|].
    intros k [->|Hk']%elem_of_cons; [by rewrite Ho2|by apply Hk].
Qed.
End poll.

(** The query was stopped or has failed. *)
Definition ended (q : jsobj) : Prop := ofield "state" q = JStr "stopped" ∨ ofield "state" q = JStr "failed".

Lemma settled_ended stored : settled stored = true ↔ ∃ q, stored = Some q ∧ ended q.
Proof.
  unfold settled, ended. destruct stored as [q|]; [|split; [done|by intros (q & ? & _)]].
  rewrite orb_true_iff. change (query_state Stopped) with (JStr "stopped").
  change (query_state Failed) with (JStr "failed"). rewrite !strict_eq_str. naive_solver.
Qed.

(** A success that is reported late does not undo what the editor shows. *)
Definition shown_states : list jsval := [JStr "fetching"; JStr "success"; JStr "running"].

Lemma reported_state_late prev : prev ∈ shown_states → reported_state prev (JStr "success") = prev.
Proof.
  intros H. unfold shown_states in H.
  repeat (apply elem_of_cons in H as [->|H]; [reflexivity|]). by apply elem_of_nil in H.
Qed.

Lemma reported_state_other prev v :
  ¬ (v = JStr "success" ∧ prev ∈ shown_states) → reported_state prev v = v.
Proof.
  intros H. unfold reported_state. destruct (_ && _) eqn:E; [|done]. destruct H.
  apply andb_true_iff in E as [E1 E2]. apply strict_eq_str in E1. split; [done|].
  unfold js_includes in E2. apply existsb_exists in E2 as (w & Hw & E2). apply list_elem_of_In in Hw.
  enough (w = prev) by (by subst). cbn in Hw.
  assert (∃ str, w = JStr str) as [str ->].
  { repeat (apply elem_of_cons in Hw as [->|Hw]; [by eexists|]). by apply elem_of_nil in Hw. }
  destruct prev; cbn in E2; try done; rewrite ?orb_true_iff, ?bool_decide_eq_true in E2; naive_solver.
Qed.

(** C26. A poll of the server: for updates that carry their time of change as
    text, other than those of queries that are stopped or failed,
    [REFRESH_QUERIES] succeeds.  A query whose state is stopped or failed is left
    as it is, and so is one that was not reported.  Any other reported query gets
    the reported state, except that a success does not take a query out of the
    states fetching, success or running. *)
Theorem refresh_queries_spec `{Lodash} Date_parse shallowEqual `{!ShallowEqual shallowEqual}
    altered s :
  NoDup (akeys altered) →
  (∀ id c, (id, c) ∈ altered →
     (∃ time, ofield "changed_on" c = JStr time) ∨ ∃ q, aget id (queries s) = Some q ∧ ended q) →
  ∃ r, refresh_queries Date_parse shallowEqual altered s = Ok r ∧
    (∀ id q, aget id (queries s) = Some q → ended q → aget id (queries r) = Some q) ∧
    (∀ id, id ∉ akeys altered → aget id (queries r) = aget id (queries s)) ∧
    (∀ id c, aget id altered = Some c → (∀ q, aget id (queries s) = Some q → ¬ ended q) →
       let prev := default JUndef (ofield "state" <$> aget id (queries s)) in
       let late := ofield "state" c = JStr "success" ∧ prev ∈ shown_states in
       ∃ q, aget id (queries r) = Some q ∧ (late → ofield "state" q = prev) ∧
            (¬ late → ∀ st, ofield "state" q = JStr st ↔ ofield "state" c = JStr st)).
Proof.
  intros Hn Hr. unfold refresh_queries.
  destruct (refresh_all Date_parse shallowEqual (queries s) altered
    {| rf_queries := queries s; rf_change := false; rf_last := queriesLastUpdate s |})
    as (r & H1 & Hp & Ho & Hc); [done| |done|].
  { apply Forall_forall. intros [id c] Hin. destruct (Hr id c Hin) as [?|?]; [by right|left].
    by apply settled_ended. }
  rewrite H1, bind_Ok. eexists. split; [done|]. cbn [queries set_queries set_lastUpdate].
  assert (∀ id, aget id (if rf_change r then rf_queries r else queries s) = aget id (rf_queries r)) as Hq.
  { intros id. destruct (rf_change r) eqn:E; [done|]. destruct (Hc eq_refl) as [_ Hk].
    destruct (decide (id ∈ akeys altered)); [by rewrite Hk|by rewrite Ho]. }
  split; [|split].
  - intros id q Hid Hs. rewrite Hq. destruct (aget id altered) as [c|] eqn:E.
    + specialize (Hp id c E). unfold polled in Hp.
      rewrite (proj2 (settled_ended _)) in Hp by by exists q. congruence.
    + rewrite Ho by by apply aget_None. done.
  - intros id Hid. rewrite Hq. by apply Ho.
  - intros id c Hid Hs. set (prev := default JUndef (_ <$> aget id _)). rewrite Hq. specialize (Hp id c Hid). unfold polled in Hp.
    destruct (settled (aget id (queries s))) eqn:E; [apply settled_ended in E as (q & E & ?); by destruct (Hs q)|].
    destruct Hp as (q & -> & Hst). exists q. split; [done|]. fold prev in Hst. split.
    + intros [Hsucc Hin]. rewrite Hsucc, (reported_state_late _ Hin) in Hst.
      assert (∃ st, prev = JStr st) as [st Est].
      { unfold shown_states in Hin. repeat (apply elem_of_cons in Hin as [->|Hin]; [by eexists|]).
        by apply elem_of_nil in Hin. }
      rewrite Est in Hst |- *. by apply Hst.
    + intros Hl st. rewrite Hst. by rewrite (reported_state_other _ _ Hl).
Qed.

(** ** Closing a tab *)

Lemma filter_none {A} (P : A → Prop) `{∀ x, Decision (P x)} l : (∀ x, x ∈ l → ¬ P x) → filter P l = [].
Proof.
  intros Hl. induction l as [|x l IH]; [done|]. rewrite filter_cons, decide_False by (apply Hl; left).
  apply IH. intros y Hy. apply Hl. by right.
Qed.

(** The tab that is shown after one is closed: as long as the tabs go by
    their own ids, closing a tab removes it from the history, so that the tab
    before it becomes active; when no tab of the history is left, the last
    editor becomes active.  For editors that were migrated to the server, whose
    ids in the history differ from the ids they are compared with, the history
    is lost and the last editor becomes active whichever tab was. *)
Theorem closed_tab_history time s removed :
  editors_ok s → is_id (id_of removed) →
  let r := remove_query_editor time removed s in
  let rest := remaining s removed in
  queryEditors r = rest ∧
  (Forall (λ qe, view_id qe = id_of qe) rest →
     tabHistory r =
     match filter (λ v, v ≠ id_of removed) (tabHistory s), last rest with
     | [], Some qe => [id_of qe]
     | h, _ => h
     end) ∧
  ((∀ v, v ∈ tabHistory s → v ∉ view_id <$> rest) →
     tabHistory r = match last rest with Some qe => [id_of qe] | None => [] end).
Proof.
  intros Hs Hid r rest. unfold r, remove_query_editor. cbn [queryEditors tabHistory set_destroyed
    set_unsaved set_queries set_tables set_tabHistory set_queryEditors].
  set (qe := ospread removed _).
  assert (id_of qe = id_of removed) as Hqe by by apply removed_id.
  rewrite (remove_arr_remaining s removed qe) by done. fold rest. split; [done|]. split.
  - intros Hv.
    assert (filter (λ id, has_index (view_id <$> rest) id = true) (tabHistory s) =
            filter (λ v, v ≠ id_of removed) (tabHistory s)) as ->;
      [|by destruct (filter (λ v, v ≠ id_of removed) (tabHistory s)), (last rest)].
    assert (view_id <$> rest = filter (λ v, v ≠ id_of removed) (ids s)) as Hview.
    { rewrite <- (remove_arr_ids s removed qe) by done. rewrite (remove_arr_remaining s removed qe) by done.
      apply list_fmap_ext. intros n q Hq. rewrite Forall_forall in Hv. apply Hv.
      by eapply list_elem_of_lookup_2. }
    pose proof (eo_history s Hs) as Hh. induction (tabHistory s) as [|v vs IH]; [done|].
    assert (v ∈ ids s) as Hvs by (apply Hh; left).
    rewrite !filter_cons, IH by (intros w Hw; apply Hh; by right).
    assert (has_index (view_id <$> rest) v = true ↔ v ≠ id_of removed) as Hix.
    { rewrite has_index_spec by by apply (eo_ids s Hs). rewrite Hview, list_elem_of_filter. tauto. }
    repeat case_decide; tauto.
  - intros Hv. rewrite filter_none; [by destruct (last rest)|]. intros v Hin Hix.
    apply (Hv v Hin). apply has_index_spec in Hix; [done|]. by apply (eo_ids s Hs), (eo_history s Hs).
Qed.

(** ** Hidden edits *)

(** An edit can be hidden by an older one: adding a tab merges the edits of
    the active editor but keeps them as unsaved edits of that editor.  A later
    edit of the same field, made while the new tab is active, is stored but
    not shown: the editor is still seen with the old value. *)
Theorem hidden_edit nanoid time s new qe i k v w silent :
  editors_ok s → active_tab s = JStr i → id_of (unsavedQueryEditor s) = JStr i →
  aget k (unsavedQueryEditor s) = Some v → k ≠ "id" →
  is_id (id_of new) → id_of new ∉ ids s → NoDup (akeys new) → id_of qe = JStr i →
  let r := edit time (add_query_editor nanoid time new s) [(k, w)] qe silent in
  (∃ e, stored r i = Some e ∧ aget k e = Some w) ∧ aget k (view r i) = Some v.
Proof.
  intros Hs Ha Hu Hk Hkid Hnid Hnew Hnk Hqe r. set (s' := add_query_editor nanoid time new s).
  assert (editors_ok s') as Hs' by by apply add_query_editor_ok.
  assert (JStr i ∈ ids s) as Hin by (destruct (eo_unsaved s Hs); congruence).
  assert (active_tab s' = id_of new) as Ha'.
  { unfold s', active_tab, add_query_editor. cbn [tabHistory set_queryEditors set_tabHistory].
    by rewrite last_snoc. }
  assert (JStr i ∈ ids s') as Hin'.
  { unfold ids, s', add_query_editor. cbn [queryEditors set_queryEditors set_tabHistory].
    unfold add_arr. rewrite fmap_app, elem_of_app. left. fold (ids (merge_unsaved s)).
    by rewrite merge_unsaved_ids. }
  assert (aget "id" [(k, w)] = None) as Hno by (cbn; by case_decide).
  assert (active_tab s' ≠ JStr i) as Hna by (rewrite Ha'; intros E; apply Hnew; by rewrite E).
  assert (synced s') as Hsync by (apply add_synced; [done|]; intros l Hl; destruct (eo_unsaved s Hs); congruence).
  pose proof (edit_editors_ok time s' [(k, w)] qe i silent Hs' (NoDup_singleton _) Hno Hqe Hin') as Hr.
  pose proof (edit_stored_inactive time s' [(k, w)] qe i silent Hs' (NoDup_singleton _) Hno Hqe Hin' i Hna)
    as Hst.
  destruct (stored_ids s' i Hs' Hin') as [e He]. rewrite He in Hst. cbn [fmap option_fmap option_map] in Hst.
  rewrite decide_True in Hst by done. split.
  - eexists. split; [exact Hst|]. rewrite aget_ospread by apply NoDup_singleton. cbn [aget]. by case_decide.
  - assert (unsavedQueryEditor r = unsavedQueryEditor s) as Hru.
    { unfold r. fold s'. 
      by rewrite (edit_result time s' [(k, w)] qe i silent Hs' (NoDup_singleton _) Hno Hqe Hin'),
        decide_False by done. }
    rewrite aget_view by done. rewrite pending_own by by rewrite Hru. by rewrite Hru, Hk.
Qed.

(** ** The history of tabs *)

(** No tab follows itself. *)
Fixpoint no_repeat (l : list string) : Prop :=
  match l with
  | x :: (y :: _) as l' => x ≠ y ∧ no_repeat l'
  | _ => True
  end.

Lemma no_repeat_snoc l x : no_repeat l → last l ≠ Some x → no_repeat (l ++ [x]).
Proof.
  induction l as [|y l IH]; [done|]. destruct l as [|z l]; cbn.
  - intros _ Hne. split; [|done]. intros ->. done.
  - intros [Hyz Hl] Hne. split; [done|]. by apply IH.
Qed.

Definition dedupe_step (acc : list jsval) (tabId : jsval) : list jsval :=
  if strict_eq (default JUndef (last acc)) tabId then acc else acc ++ [tabId].

Lemma dedupe_step_str acc x :
  dedupe_step (JStr <$> acc) (JStr x) =
  JStr <$> (if decide (last acc = Some x) then acc else acc ++ [x]).
Proof.
  unfold dedupe_step. rewrite fmap_last. destruct (last acc) as [y|].
  - change (default JUndef (JStr <$> Some y)) with (JStr y).
    destruct (strict_eq (JStr y) (JStr x)) eqn:E.
    + apply strict_eq_str in E. injection E as ->. by rewrite decide_True.
    + rewrite decide_False; [by rewrite fmap_app|]. intros [= ->].
      by rewrite (proj2 (strict_eq_str (JStr x) x) eq_refl) in E.
  - change (strict_eq (default JUndef (JStr <$> None)) (JStr x)) with false.
    rewrite decide_False by done. by rewrite fmap_app.
Qed.

Lemma dedupe_fold xs acc :
  no_repeat acc →
  ∃ ys, foldl dedupe_step (JStr <$> acc) (JStr <$> xs) = JStr <$> ys ∧ no_repeat ys ∧
        acc `prefix_of` ys ∧ (∀ x, x ∈ ys ↔ x ∈ acc ∨ x ∈ xs) ∧
        last ys = (if decide (xs = []) then last acc else last xs) ∧
        (no_repeat (acc ++ xs) → ys = acc ++ xs).
Proof.
  revert acc. induction xs as [|x xs IH]; intros acc Hacc; cbn [foldl fmap list_fmap].
  { exists acc. rewrite app_nil_r. set_solver. }
  rewrite dedupe_step_str. set (acc' := if decide (last acc = Some x) then acc else acc ++ [x]).
  assert (no_repeat acc') as Hacc'.
  { unfold acc'. destruct (decide (last acc = Some x)); [exact Hacc|by apply no_repeat_snoc]. }
  destruct (IH acc' Hacc') as (ys & H1 & H2 & H3 & H4 & H5 & H6). exists ys.
  assert (last acc' = Some x) as Hlast by (unfold acc'; destruct (decide (last acc = Some x)); [done|by rewrite last_snoc]).
  split; [done|]. split; [done|]. split; [|split; [|split]].
  - unfold acc' in H3. destruct (decide (last acc = Some x)); [done|]. etrans; [|done]. by exists [x].
  - intros z. rewrite H4. unfold acc'. destruct (decide (last acc = Some x)) as [E|E]; [|set_solver].
    apply last_Some in E as [l' ->]. set_solver.
  - rewrite H5. case_decide; [subst xs|]; rewrite decide_False by done; [done|]. by destruct xs.
  - intros Hn. assert (acc' = acc ++ [x]) as E.
    { unfold acc'. destruct (decide (last acc = Some x)) as [E|E]; [|done]. exfalso. apply last_Some in E as [l' ->].
      clear -Hn. induction l' as [|y l' IHl]; [cbn in Hn; tauto|].
      destruct l' as [|z l']; cbn in Hn; [tauto|]. apply IHl. cbn. tauto. }
    rewrite H6; [by rewrite E, <- app_assoc|]. by rewrite E, <- app_assoc.
Qed.

(** The stored history of tabs is cleaned when SQL Lab loads: no tab
    follows itself, the same tabs occur and the last one is still active, and a
    history that is clean already is kept. *)
Theorem dedupeTabHistory_spec xs :
  ∃ ys, dedupeTabHistory (JStr <$> xs) = JStr <$> ys ∧ no_repeat ys ∧
        (∀ x, x ∈ ys ↔ x ∈ xs) ∧ last ys = last xs ∧ (no_repeat xs → ys = xs) ∧
        dedupeTabHistory (dedupeTabHistory (JStr <$> xs)) = dedupeTabHistory (JStr <$> xs).
Proof.
  destruct (dedupe_fold xs [] I) as (ys & H1 & H2 & _ & H4 & H5 & H6).
  destruct (dedupe_fold ys [] I) as (zs & H1' & _ & _ & _ & _ & H6').
  assert (dedupeTabHistory (JStr <$> xs) = JStr <$> ys) as E by exact H1.
  exists ys. split; [done|]. split; [done|]. split; [set_solver|]. split; [|split; [done|]].
  - rewrite H5. by case_decide; subst.
  - rewrite E. change (dedupeTabHistory (JStr <$> ys)) with (foldl dedupe_step (JStr <$> []) (JStr <$> ys)).
    rewrite H1'. by rewrite H6'.
Qed.

(** ** Switching back and forth *)

Lemma find_index_ids items v n :
  NoDup (id_of <$> items) → (id_of <$> items) !! n = Some v → is_id v →
  find_index (λ qe, strict_eq (id_of qe) v) items = Some n.
Proof.
  revert n. induction items as [|x items IH]; intros n Hn Hv Hid; [done|].
  cbn [fmap list_fmap] in Hn, Hv. apply NoDup_cons in Hn as [Hx Hn]. cbn [find_index].
  destruct n as [|n]; cbn in Hv.
  - injection Hv as <-. by rewrite (proj2 (strict_eq_id (id_of x) (id_of x) Hid) eq_refl).
  - destruct (strict_eq (id_of x) v) eqn:E.
    + apply strict_eq_id in E; [|done]. subst v. exfalso. apply Hx. by eapply list_elem_of_lookup_2.
    + by rewrite (IH n).
Qed.

Lemma active_index s :
  editors_ok s → queryEditors s ≠ [] → ∃ n, ids s !! n = Some (active_tab s).
Proof.
  intros Hs Hne. apply list_elem_of_lookup, (eo_history s Hs). apply (eo_active s Hs) in Hne.
  unfold active_tab. destruct (last (tabHistory s)) as [v|] eqn:E; [|by apply last_None in E].
  apply last_Some in E as [l' ->]. set_solver.
Qed.

(** The index of the next tab. *)
Definition neighbour (back : bool) (n len : nat) : nat :=
  if back then (n + len - 1) mod len else (n + 1) mod len.

Lemma neighbour_back b n len : n < len → neighbour (negb b) (neighbour b n len) len = n.
Proof.
  intros Hn. destruct b; cbn [negb neighbour]; destruct (decide (n = 0)), (decide (n = len - 1)).
  all: try (replace (n + len - 1) with (len - 1 + n) by lia).
  - subst. replace len with 1 by lia. done.
  - subst n. rewrite Nat.add_0_r, (Nat.mod_small (len - 1)) by lia.
    replace (len - 1 + 1) with len by lia. by rewrite Nat.Div0.mod_same.
  - replace (len - 1 + n) with (n - 1 + 1 * len) by lia. rewrite Nat.Div0.mod_add, (Nat.mod_small (n - 1)) by lia.
    rewrite Nat.mod_small by lia. lia.
  - replace (len - 1 + n) with (n - 1 + 1 * len) by lia. rewrite Nat.Div0.mod_add, (Nat.mod_small (n - 1)) by lia.
    rewrite Nat.mod_small by lia. lia.
  - subst. replace len with 1 by lia. done.
  - subst n. rewrite (Nat.mod_small (0 + 1)) by lia. replace (0 + 1 + len - 1) with (0 + 1 * len) by lia.
    rewrite Nat.Div0.mod_add. by rewrite Nat.mod_small by lia.
  - replace (n + 1) with len by lia. rewrite Nat.Div0.mod_same. rewrite Nat.mod_small by lia. lia.
  - rewrite (Nat.mod_small (n + 1)) by lia. replace (n + 1 + len - 1) with (n + 1 * len) by lia.
    rewrite Nat.Div0.mod_add. by rewrite Nat.mod_small by lia.
Qed.

Lemma switch_target s b n :
  editors_ok s → ids s !! n = Some (active_tab s) →
  ∃ qe, queryEditors s !! neighbour b n (length (queryEditors s)) = Some qe ∧
        switchQueryEditor b s = SET_ACTIVE_QUERY_EDITOR (Some qe).
Proof.
  intros Hs Hn. set (len := length (queryEditors s)).
  assert (n < len) as Hlt by (apply lookup_lt_Some in Hn; unfold ids in Hn; by rewrite length_fmap in Hn).
  assert (neighbour b n len < len) as Hm by (unfold neighbour; destruct b; apply Nat.mod_upper_bound; lia).
  destruct (lookup_lt_is_Some_2 (queryEditors s) _ Hm) as [qe Hqe]. exists qe. split; [done|].
  unfold switchQueryEditor. fold len.
  rewrite (find_index_ids (queryEditors s) (active_tab s) n);
    [|apply (eo_nodup s Hs)|exact Hn|apply (eo_ids s Hs); by eapply list_elem_of_lookup_2].
  destruct (Z.eqb_spec (Z.of_nat len) 0); [lia|]. rewrite <- Hqe. do 2 f_equal.
  unfold neighbour. destruct b.
  - replace (Z.of_nat n - 1 + Z.of_nat len)%Z with (Z.of_nat (n + len - 1)) by lia.
    rewrite Z.rem_mod_nonneg by lia. rewrite <- Nat2Z.inj_mod. lia.
  - replace (Z.of_nat n + 1)%Z with (Z.of_nat (n + 1)) by lia.
    rewrite Z.rem_mod_nonneg by lia. rewrite <- Nat2Z.inj_mod. lia.
Qed.

Lemma set_active_stored s qe :
  editors_ok s → qe ∈ queryEditors s →
  let r := set_active_query_editor (Some qe) s in
  editors_ok r ∧ active_tab r = id_of qe ∧ ids r = ids s.
Proof.
  intros Hs Hin r. assert (editors_ok r) as Hr.
  { apply set_active_ok; [done|]. intros q [= <-]. by apply (eo_keys s Hs). }
  destruct (eo_item_id s qe Hs Hin) as (i & Hi & Hne).
  destruct (decide (active_tab s = JStr i)) as [Ha|Ha].
  { assert (r = s) as ->; [|by rewrite Hi]. unfold r, set_active_query_editor.
    change (default JUndef (id_of <$> Some qe)) with (id_of qe).
    rewrite Hi, Ha, (proj2 (strict_eq_str (JStr i) i) eq_refl), andb_false_r. done. }
  assert (stored s i = Some qe) as Hst.
  { destruct (stored_ids s i Hs) as [q Hq]; [rewrite <- Hi; apply list_elem_of_fmap; by exists qe|].
    rewrite Hq. f_equal. apply (stored_some s i) in Hq as [Hq Hqi]; [|done].
    apply (same_id_eq s); [done..|congruence]. }
  destruct (switch_fields s Hs qe i Hst Ha) as [Hact _]. split; [done|]. split; [by rewrite Hi|].
  apply set_active_ids; [done|by apply (eo_keys s Hs)].
Qed.

(** Switching tabs goes around: the next and the previous tab are
    neighbours in the order of the editors, with the last next to the first, and
    going one tab on and one back, or the other way round, returns to the tab
    that was active. *)
Theorem switch_round_trip `{Lodash} nanoid time now Date_parse t shallowEqual s back :
  editors_ok s → queryEditors s ≠ [] →
  let reduce := sqlLabReducer nanoid time now Date_parse t shallowEqual in
  ∃ r1 r2, reduce s (switchQueryEditor back s) = Ok r1 ∧
           reduce r1 (switchQueryEditor (negb back) r1) = Ok r2 ∧
           ids r2 = ids s ∧ active_tab r2 = active_tab s.
Proof.
  intros Hs Hne reduce. destruct (active_index s Hs Hne) as [n Hn].
  destruct (switch_target s back n Hs Hn) as (qe & Hqe & E1).
  assert (qe ∈ queryEditors s) as Hin by by eapply list_elem_of_lookup_2.
  destruct (set_active_stored s qe Hs Hin) as (Hr1 & Ha1 & Hi1).
  set (r1 := set_active_query_editor (Some qe) s) in *. set (len := length (queryEditors s)) in *.
  assert (length (queryEditors r1) = len) as Hlen.
  { unfold len. rewrite <- (length_fmap id_of), <- (length_fmap id_of (queryEditors s)).
    exact (f_equal length Hi1). }
  assert (ids r1 !! neighbour back n len = Some (active_tab r1)) as Hn1.
  { rewrite Hi1, Ha1. unfold ids. by rewrite list_lookup_fmap, Hqe. }
  destruct (switch_target r1 (negb back) _ Hr1 Hn1) as (qe2 & Hqe2 & E2).
  assert (n < len) as Hlt by (apply lookup_lt_Some in Hn; unfold ids in Hn; by rewrite length_fmap in Hn).
  rewrite Hlen, neighbour_back in Hqe2 by done.
  assert (qe2 ∈ queryEditors r1) as Hin2 by by eapply list_elem_of_lookup_2.
  destruct (set_active_stored r1 qe2 Hr1 Hin2) as (_ & Ha2 & Hi2).
  exists r1, (set_active_query_editor (Some qe2) r1). unfold reduce.
  rewrite E1, E2. split; [done|]. split; [done|]. split; [congruence|].
  rewrite Ha2. assert (ids r1 !! n = Some (id_of qe2)) as H2
    by (unfold ids; by rewrite list_lookup_fmap, Hqe2).
  rewrite Hi1, Hn in H2. congruence.
Qed.
