(* ===== verification/SqlLabExamples.v ===== *)
(** * SQL Lab at a sample state

    Two tabs, the first of them active and renamed, and a query for each; the
    theorems on the reducer at this state.  [shallowEqual] is instantiated by a
    comparison of the entries. *)

From Stdlib Require Import Ascii String.
From stdpp Require Import base strings option numbers list sets relations.
From S2P Require Import Prelude JsObject JsNumber JsValue JsJson Lodash QueryTypes Query.
From S2P Require Import ReduxUtils SqlLab SqlLabFacts SqlLabEditors SqlLabViews.
From S2P Require Import SqlLabQueries.

Definition shallowEqual_ref (a b : jsobj) : bool :=
  forallb (λ k, bool_decide (aget k a = aget k b)) (akeys a ++ akeys b).

Lemma shallowEqual_ref_aget a b k : shallowEqual_ref a b = true → aget k a = aget k b.
Proof.
  unfold shallowEqual_ref. rewrite forallb_forall. intros H.
  destruct (decide (k ∈ akeys a ++ akeys b)) as [Hk|Hk].
  - apply list_elem_of_In, H in Hk. by apply bool_decide_eq_true in Hk.
  - apply not_elem_of_app in Hk as [H1%aget_None H2%aget_None]. by rewrite H1, H2.
Qed.

Instance shallowEqual_ref_ok : ShallowEqual shallowEqual_ref.
Proof.
  split.
  - intros a b H k. by rewrite (shallowEqual_ref_aget a b k H).
  - intros a b k s H. unfold ofield. by rewrite (shallowEqual_ref_aget a b k H).
Qed.

Definition sample_editor (id : string) : jsobj :=
  [("id", JStr id); ("name", JStr "Untitled Query 1"); ("sql", JStr EmptyString)].

Definition sample_query (id st : string) : jsobj := [("id", JStr id); ("state", JStr st)].

Definition sample_lab : sqlLab :=
  {| queryEditors := [sample_editor "A"; sample_editor "B"];
     tabHistory := [JStr "B"; JStr "A"];
     tables := [];
     queries := [("q1", sample_query "q1" "running"); ("q2", sample_query "q2" "stopped")];
     unsavedQueryEditor := [("id", JStr "A"); ("name", JStr "Renamed")];
     destroyedQueryEditors := [];
     activeSouthPaneTab := JStr "Results";
     queryCostEstimates := [];
     queriesLastUpdate := num_of_Z 0;
     databases := [];
     misc := [] |}.

Ltac in_list := apply list_elem_of_In; cbn; tauto.

Lemma nodup_keys (l : list string) : bool_decide (NoDup l) = true → NoDup l.
Proof. by intros ?%bool_decide_eq_true. Qed.

Lemma sample_lab_ok : editors_ok sample_lab.
Proof.
  split.
  - intros v Hv. apply list_elem_of_In in Hv. destruct Hv as [<-|[<-|[]]]; eexists; (split; [reflexivity|discriminate]).
  - apply (bool_decide_unpack (NoDup (ids sample_lab))). reflexivity.
  - intros qe Hqe. apply list_elem_of_In in Hqe. apply nodup_keys.
    destruct Hqe as [<-|[<-|[]]]; reflexivity.
  - right. in_list.
  - apply nodup_keys. reflexivity.
  - intros v Hv. apply list_elem_of_In in Hv. destruct Hv as [<-|[<-|[]]]; in_list.
  - discriminate.
Qed.

Lemma sample_lab_synced : synced sample_lab.
Proof. intros i [= <-] Hna. by destruct Hna. Qed.

Definition sample_ids (n : nat) : string := "C".
Definition sample_t (s : string) (_ : list jsval) : string := s.
Definition sample_Date (_ : string) : jsnum := num_of_Z 1.

Lemma sqllab_reachable_ok_witness :
  let r := set_active_query_editor (Some (sample_editor "B")) sample_lab in
  editors_ok r ∧ (queryEditors r ≠ [] → active_tab r ∈ ids r).
Proof.
  apply (sqllab_reachable_ok sample_Date sample_t shallowEqual_ref sample_lab);
    [exact sample_lab_ok|]. apply rtc_once.
  apply (sqllab_step_intro _ _ _ _ _ sample_ids JUndef JUndef
    (SET_ACTIVE_QUERY_EDITOR (Some (sample_editor "B")))); [|reflexivity].
  apply nodup_keys. reflexivity.
Defined.

Lemma edit_changes_view_witness :
  let r := edit JNull sample_lab [("sql", JStr "SELECT 1")] (sample_editor "A") false in
  aget "sql" (view r "A") = Some (JStr "SELECT 1") ∧ entries_eq (view r "B") (view sample_lab "B") ∧ synced r.
Proof.
  destruct (edit_changes_view JNull sample_lab [("sql", JStr "SELECT 1")] (sample_editor "A") "A" false)
    as (Hi & Hj & _ & Hs).
  - exact sample_lab_ok.
  - apply nodup_keys. reflexivity.
  - reflexivity.
  - reflexivity.
  - in_list.
  - left. reflexivity.
  - split; [rewrite Hi; vm_compute; reflexivity|]. split; [|exact (Hs sample_lab_synced)].
    apply Hj; [discriminate|]. intros _ H. vm_compute in H. discriminate H.
Defined.

Lemma tabs_keep_views_witness :
  let r1 := set_active_query_editor (Some (sample_editor "B")) sample_lab in
  let r2 := add_query_editor sample_ids JNull (sample_editor "C") sample_lab in
  active_tab r1 = JStr "B" ∧ unsavedQueryEditor r1 = [] ∧ synced r1 ∧
  entries_eq (view r1 "A") (view sample_lab "A") ∧
  active_tab r2 = JStr "C" ∧ synced r2 ∧ entries_eq (view r2 "A") (view sample_lab "A").
Proof.
  apply (tabs_keep_views sample_lab sample_lab_ok sample_ids JNull (sample_editor "B") "B"
    (sample_editor "C") "A").
  - reflexivity.
  - discriminate.
  - exists "C". split; [reflexivity|discriminate].
  - apply (bool_decide_unpack (id_of (sample_editor "C") ∉ ids sample_lab)). reflexivity.
  - apply nodup_keys. reflexivity.
  - in_list.
Defined.

Lemma stopped_query_races_witness :
  query_failed JNull (sample_query "q2" "stopped") JNull JNull JNull sample_lab = sample_lab ∧
  ∃ r stored,
    query_success JNull (sample_query "q2" "stopped") (JObj [("status", JStr "success")]) sample_lab
      = Ok r ∧
    aget "q2" (queries r) = Some stored ∧ ofield "state" stored = query_state Success.
Proof. apply stopped_query_races; reflexivity. Defined.

Lemma refresh_queries_spec_witness :
  let altered :=
    [("q1", [("state", JStr "success"); ("changed_on", JStr "2024-01-01T00:00:00")]);
     ("q2", [("state", JStr "success")])] in
  ∃ r, refresh_queries sample_Date shallowEqual_ref altered sample_lab = Ok r ∧
    aget "q2" (queries r) = Some (sample_query "q2" "stopped") ∧
    ∃ q, aget "q1" (queries r) = Some q ∧ ofield "state" q = JStr "running".
Proof.
  intros altered.
  destruct (refresh_queries_spec sample_Date shallowEqual_ref altered sample_lab) as (r & Hr & He & _ & Hc).
  - apply nodup_keys. reflexivity.
  - intros id c Hin. apply list_elem_of_In in Hin. destruct Hin as [[= <- <-]|[[= <- <-]|[]]].
    + left. eexists. reflexivity.
    + right. eexists. split; [reflexivity|]. left. reflexivity.
  - exists r. split; [exact Hr|]. split; [apply He; [reflexivity|left; reflexivity]|].
    destruct (Hc "q1" _ eq_refl) as (q & Hq & Hlate & _).
    { intros q [= <-] [H|H]; discriminate H. }
    exists q. split; [exact Hq|]. apply Hlate. split; [reflexivity|]. in_list.
Defined.

Lemma closed_tab_history_witness :
  let r := remove_query_editor JNull (sample_editor "A") sample_lab in
  let rest := remaining sample_lab (sample_editor "A") in
  queryEditors r = rest ∧
  (Forall (λ qe, view_id qe = id_of qe) rest →
     tabHistory r =
     match filter (λ v, v ≠ id_of (sample_editor "A")) (tabHistory sample_lab), last rest with
     | [], Some qe => [id_of qe]
     | h, _ => h
     end) ∧
  ((∀ v, v ∈ tabHistory sample_lab → v ∉ view_id <$> rest) →
     tabHistory r = match last rest with Some qe => [id_of qe] | None => [] end).
Proof.
  apply (closed_tab_history JNull sample_lab (sample_editor "A") sample_lab_ok).
  exists "A". split; [reflexivity|discriminate].
Defined.

Lemma hidden_edit_witness :
  let r := edit JNull (add_query_editor sample_ids JNull (sample_editor "C") sample_lab)
             [("name", JStr "Renamed again")] (sample_editor "A") false in
  (∃ e, stored r "A" = Some e ∧ aget "name" e = Some (JStr "Renamed again")) ∧
  aget "name" (view r "A") = Some (JStr "Renamed").
Proof.
  apply (hidden_edit sample_ids JNull sample_lab (sample_editor "C") (sample_editor "A") "A" "name"
    (JStr "Renamed") (JStr "Renamed again") false); try reflexivity.
  - exact sample_lab_ok.
  - discriminate.
  - exists "C". split; [reflexivity|discriminate].
  - apply (bool_decide_unpack (id_of (sample_editor "C") ∉ ids sample_lab)). reflexivity.
  - apply nodup_keys. reflexivity.
Defined.

Lemma switch_round_trip_witness :
  let reduce := sqlLabReducer sample_ids JNull JNull sample_Date sample_t shallowEqual_ref in
  ∃ r1 r2, reduce sample_lab (switchQueryEditor false sample_lab) = Ok r1 ∧
           reduce r1 (switchQueryEditor true r1) = Ok r2 ∧
           ids r2 = ids sample_lab ∧ active_tab r2 = active_tab sample_lab.
Proof.
  apply (switch_round_trip sample_ids JNull JNull sample_Date sample_t shallowEqual_ref sample_lab false);
    [exact sample_lab_ok|discriminate].
Defined.
