(* ===== verification/SqlLabStorage.v ===== *)
(** * SQL Lab across a reload of the page

    [persistSqlLabStateEnhancer]
    ([app/SqlLab/middlewares/persistSqlLabStateEnhancer.js]) puts a part of the
    state into the local storage of the browser, and [getInitialState]
    ([app/SqlLab/reducers/getInitialState.ts]) builds the state at the start from
    what the server and the local storage have.

    The item of the local storage is the value its text parses to; what is lost
    by writing a value as text is [json_copy].  The local storage that is read
    inside of [try] is a sequence of steps, of which those before an exception
    have had their effect.  [nanoid] is the generator of ids, by the number of
    its call; the translation is a parameter. *)

From Stdlib Require Import Ascii String.
From stdpp Require Import base strings option numbers list.
From S2P Require Import Prelude JsObject JsNumber JsValue JsJson Lodash SqlLab.

(** ** Writing *)

(** [JSON.parse(JSON.stringify(v))]: fields that are undefined are lost, and
    numbers that are not finite become [null]. *)
Fixpoint json_copy (v : jsval) : jsval :=
  match v with
  | JNum (SpecFloat.S754_nan | SpecFloat.S754_infinity _) => JNull
  | JNum (SpecFloat.S754_zero _) => JNum (num_of_Z 0)
  | JArr l => JArr ((λ x, if is_undefined x then JNull else json_copy x) <$> l)
  | JObj o => JObj (omap (λ kv, if is_undefined kv.2 then None else Some (kv.1, json_copy kv.2)) o)
  | v => v
  end.

(** @source app/SqlLab/utils/reduxStateToLocalStorageHelper.ts 39-57 PERSISTENT_QUERY_EDITOR_KEYS *)
Definition PERSISTENT_QUERY_EDITOR_KEYS : list string :=
  ["version"; "remoteId"; "autorun"; "dbId"; "height"; "id"; "immutableId"; "latestQueryId";
   "northPercent"; "queryLimit"; "schema"; "selectedText"; "southPercent"; "sql"; "templateParams";
   "name"; "hideLeftBar"].

(** @source app/SqlLab/utils/reduxStateToLocalStorageHelper.ts 118-136 clearQueryEditors *)
Definition clear_editor (editor : jsobj) : jsobj :=
  filter (λ kv, kv.1 ∈ PERSISTENT_QUERY_EDITOR_KEYS) editor.

(** @source app/SqlLab/constants.ts 81-87 KB_STORAGE, BYTES_PER_CHAR, LOCALSTORAGE_MAX_QUERY_AGE_MS *)
Definition KB_STORAGE : Z := 1024.
Definition BYTES_PER_CHAR : Z := 2.
Definition LOCALSTORAGE_MAX_QUERY_AGE_MS : Z := 24 * 60 * 60 * 1000.
Definition LOCALSTORAGE_MAX_QUERY_RESULTS_KB : Z := 1024.

Section storage.
Context `{Lodash}.

(** @source app/SqlLab/utils/reduxStateToLocalStorageHelper.ts 59-66 shouldEmptyQueryResults *)
Definition shouldEmptyQueryResults (now : jsnum) (query : jsobj) : bool :=
  let length_ :=
    match JSON_stringify (ofield "results" query) with
    | Some text => Z.of_nat (String.length text)
    | None => 0%Z
    end in
  num_ltb (num_of_Z LOCALSTORAGE_MAX_QUERY_AGE_MS)
    (num_sub now (to_number (ofield "startDttm" query))) ||
  (LOCALSTORAGE_MAX_QUERY_RESULTS_KB * KB_STORAGE <? length_ * BYTES_PER_CHAR)%Z.

(** @source app/SqlLab/utils/reduxStateToLocalStorageHelper.ts 68-81 emptyTablePersistData *)
Definition emptyTablePersistData (tables : list jsobj) : list jsobj :=
  filter (λ table, truthy (ofield "queryEditorId" table) = true)
    ((λ table, pick table ["id"; "name"; "dbId"; "schema"; "dataPreviewQueryId"; "queryEditorId"]) <$> tables).

(** @source app/SqlLab/utils/reduxStateToLocalStorageHelper.ts 98-115 emptyQueryResults *)
Definition emptyQueryResults (now : jsnum) (queries : list (string * jsobj)) : list (string * jsobj) :=
  foldl (λ acc kq,
    oset kq.1
      (oset "results" (if shouldEmptyQueryResults now kq.2 then JObj [] else ofield "results" kq.2) kq.2)
      acc) [] queries.

(** What is stored without the persistence of the server: the whole state, its
    editors, tables and queries reduced.

    @source app/SqlLab/middlewares/persistSqlLabStateEnhancer.js 97-104 slicer (local storage) *)
Definition stored_state (now : jsnum) (s : sqlLab) : jsobj :=
  ospread (misc s)
    [("queryEditors", JArr (JObj <$> (clear_editor <$> queryEditors s)));
     ("tabHistory", JArr (tabHistory s));
     ("tables", JArr (JObj <$> emptyTablePersistData (tables s)));
     ("queries", JObj (prod_map id JObj <$> emptyQueryResults now (queries s)));
     ("unsavedQueryEditor", JObj (clear_editor (unsavedQueryEditor s)));
     ("destroyedQueryEditors", JObj (destroyedQueryEditors s));
     ("activeSouthPaneTab", activeSouthPaneTab s);
     ("queryCostEstimates", JObj (queryCostEstimates s));
     ("queriesLastUpdate", JNum (queriesLastUpdate s));
     ("databases", JObj (databases s))].

(** @source app/SqlLab/components/EditorAutoSync/index.tsx 45-53 hasUnsavedChanges *)
Definition hasUnsavedChanges (queryEditor : jsobj) (lastSavedTimestamp : jsval) : bool :=
  truthy (ofield "inLocalStorage" queryEditor) ||
  (truthy (ofield "updatedAt" queryEditor) && js_lt lastSavedTimestamp (ofield "updatedAt" queryEditor)).

(** @source app/SqlLab/components/EditorAutoSync/index.tsx 55-66 filterUnsavedQueryEditorList *)
Definition filterUnsavedQueryEditorList (editors : list jsobj) (unsaved : jsobj)
    (lastSavedTimestamp : jsval) : list jsobj :=
  filter (λ qe, hasUnsavedChanges qe lastSavedTimestamp = true)
    ((λ qe, ospread qe (spread_if (same_field "id" unsaved qe) unsaved)) <$> editors).

(** What is stored with the persistence of the server: only what it does not
    have yet, nothing when there is nothing.

    @source app/SqlLab/middlewares/persistSqlLabStateEnhancer.js 44-91 slicer (migration) *)
Definition stored_migration (s : sqlLab) : option jsobj :=
  let unsavedQueryEditors :=
    filterUnsavedQueryEditorList (queryEditors s) (unsavedQueryEditor s)
      (ofield "editorTabLastUpdatedAt" (misc s)) in
  let hasUnsavedActiveTabState :=
    negb (strict_eq (active_tab s) (ofield "lastUpdatedActiveTab" (misc s))) in
  let hasUnsavedDeletedQueryEditors := bool_decide (destroyedQueryEditors s ≠ []) in
  let in_storage o := truthy (ofield "inLocalStorage" o) in
  if bool_decide (unsavedQueryEditors ≠ []) || hasUnsavedActiveTabState || hasUnsavedDeletedQueryEditors then
    let hasFinishedMigrationFromLocalStorage := negb (existsb in_storage unsavedQueryEditors) in
    Some (ospread
      (ospread
        (ospread [("queryEditors", JArr (JObj <$> unsavedQueryEditors))]
           (spread_if (negb hasFinishedMigrationFromLocalStorage)
              [("tabHistory", JArr (tabHistory s));
               ("tables", JArr (JObj <$> filter (λ table, in_storage table = true) (tables s)));
               ("queries", JObj (prod_map id JObj <$> filter (λ kq,
                  in_storage kq.2 && negb (truthy (ofield "isDataPreview" kq.2)) = true) (queries s)))]))
        (spread_if hasUnsavedActiveTabState [("tabHistory", JArr (tabHistory s))]))
      [("destroyedQueryEditors", JObj (destroyedQueryEditors s))])
  else None.

(** ** Reading *)

(** The variables of [getInitialState]. *)
Record loading := {
  l_editors : list (string * jsobj);
  l_unsaved : jsobj;
  l_tables : list (string * jsobj);
  l_queries : list (string * jsobj);
  l_history : list jsval;
  l_lastTab : jsval;
  l_destroyed : jsobj;
}.

Context (t : string → string) (nanoid : nat → string) (now : jsnum).

(** [v.toString()] *)
Definition js_toString (v : jsval) : result string :=
  match v with
  | JUndef => Throw (TypeError "Cannot read properties of undefined (reading 'toString')")
  | JNull => Throw (TypeError "Cannot read properties of null (reading 'toString')")
  | v => Ok (to_string v)
  end.

(** @source app/SqlLab/reducers/getInitialState.ts 58-71 getInitialState (defaultQueryEditor) *)
Definition defaultQueryEditor (conf : jsobj) : jsobj :=
  [("version", JNum (num_of_Z 1)); ("immutableId", JStr (nanoid 0)); ("loaded", JBool true);
   ("name", JStr (t "Untitled query")); ("sql", JStr EmptyString); ("latestQueryId", JNull);
   ("autorun", JBool false); ("dbId", ofield "SQLLAB_DEFAULT_DBID" conf);
   ("queryLimit", ofield "DEFAULT_SQLLAB_LIMIT" conf); ("hideLeftBar", JBool false);
   ("remoteId", JNull);
   ("cursorPosition", JObj [("row", JNum (num_of_Z 0)); ("column", JNum (num_of_Z 0))])].

(** The editor of one tab that the server has.

    @source app/SqlLab/reducers/getInitialState.ts 78-118 getInitialState (tabStateIds) *)
Definition tab_editor (conf : jsobj) (activeTab : jsval) (i : nat) (tab : jsval) : result (string * jsobj) :=
  id ← field "id" tab;
  if truthy activeTab && strict_eq (opt_field "id" activeTab) id then
    let a k := opt_field k activeTab in
    key ← js_toString id;
    Ok (key,
        [("version", js_nullish (opt_field "version" (a "extra_json")) (JNum (num_of_Z 1)));
         ("id", JStr key);
         ("immutableId", js_nullish (opt_field "immutableId" (a "extra_json")) (JStr (nanoid (S i))));
         ("loaded", JBool true); ("name", a "label"); ("sql", js_or (a "sql") (JStr EmptyString));
         ("selectedText", JUndef);
         ("latestQueryId", if truthy (a "latest_query") then opt_field "id" (a "latest_query") else JNull);
         ("remoteId", js_or (opt_field "id" (a "saved_query")) JNull);
         ("autorun", JBool (truthy (a "autorun")));
         ("templateParams", js_or (a "template_params") JUndef);
         ("dbId", a "database_id"); ("catalog", a "catalog"); ("schema", a "schema");
         ("queryLimit", a "query_limit"); ("hideLeftBar", a "hide_left_bar");
         ("updatedAt", opt_field "updatedAt" (a "extra_json"))])
  else
    key ← js_toString id;
    Ok (key,
        ospread (defaultQueryEditor conf)
          [("id", JStr key); ("immutableId", JStr (nanoid (S i))); ("loaded", JBool false);
           ("name", opt_field "label" tab); ("dbId", JUndef)]).

(** A table of the active tab.

    @source app/SqlLab/reducers/getInitialState.ts 126-146 getInitialState (table_schemas) *)
Definition tab_table (tableSchema : jsval) : result (string * jsobj) :=
  description ← field "description" tableSchema;
  dataPreviewQueryId ← field "dataPreviewQueryId" description;
  queryEditorId ← js_toString (opt_field "tab_state_id" tableSchema);
  let f k := opt_field k tableSchema in
  Ok (to_string (f "id"),
      [("dbId", js_nullish (f "database_id") (JNum (num_of_Z 0)));
       ("queryEditorId", JStr queryEditorId); ("catalog", f "catalog"); ("schema", f "schema");
       ("name", f "table"); ("expanded", JBool (truthy (f "expanded"))); ("id", f "id");
       ("dataPreviewQueryId", dataPreviewQueryId);
       ("persistData", JObj (adel "dataPreviewQueryId" (object_entries description)));
       ("initialized", JBool true)]).

Definition set_keyed (m : list (string * jsobj)) (kv : string * jsobj) : list (string * jsobj) :=
  oset kv.1 kv.2 m.

(** What the server has.

    @source app/SqlLab/reducers/getInitialState.ts 73-154 getInitialState (backend) *)
Definition from_backend (conf : jsobj) (activeTab : jsval) (tabStateIds : list jsval)
    (queries_ : list (string * jsobj)) : result loading :=
  editors ← map_result (λ it, tab_editor conf activeTab it.1 it.2) (imap pair tabStateIds);
  active ← (if truthy activeTab then
              id ← js_toString (opt_field "id" activeTab);
              schemas ← match opt_field "table_schemas" activeTab with
                        | JArr l => Ok l
                        | _ => Throw (TypeError "Cannot read properties of undefined (reading 'filter')")
                        end;
              described ← map_result (λ ts, d ← field "description" ts; Ok (d, ts)) schemas;
              tables ← map_result tab_table (filter (λ dt, dt.1 ≠ JNull) described).*2;
              Ok ([JStr id], JStr id, tables)
            else Ok ([], JStr EmptyString, []));
  let latest := opt_field "latest_query" activeTab in
  Ok {| l_editors := foldl set_keyed [] editors; l_unsaved := [];
        l_tables := foldl set_keyed [] active.2;
        l_queries := if truthy latest
                     then oset (to_string (opt_field "id" latest)) (object_entries latest) queries_
                     else queries_;
        l_history := active.1.1; l_lastTab := active.1.2; l_destroyed := [] |}.

(** *** The local storage *)

Definition set_l_editors (m : list (string * jsobj)) (st : loading) : loading :=
  {| l_editors := m; l_unsaved := l_unsaved st; l_tables := l_tables st; l_queries := l_queries st;
     l_history := l_history st; l_lastTab := l_lastTab st; l_destroyed := l_destroyed st |}.

(** @source app/SqlLab/reducers/getInitialState.ts 178-178 getInitialState (unsavedQueryEditor) *)
Definition load_unsaved (sqlLab_ : jsobj) (st : loading) : result loading :=
  Ok {| l_editors := l_editors st;
        l_unsaved := if truthy (ofield "unsavedQueryEditor" sqlLab_)
                     then object_entries (ofield "unsavedQueryEditor" sqlLab_) else l_unsaved st;
        l_tables := l_tables st; l_queries := l_queries st; l_history := l_history st;
        l_lastTab := l_lastTab st; l_destroyed := l_destroyed st |}.

(** An editor of the local storage, with the one of the server: it wins when it
    was changed later.

    @source app/SqlLab/reducers/getInitialState.ts 183-205 getInitialState (queryEditors) *)
Definition merge_editor (unsaved : jsobj) (existing : option jsobj) (qe : jsobj) : jsobj :=
  let old k := ofield k (default [] existing) in
  let hasConflictFromBackend := bool_decide (is_Some existing) in
  let hasUnsavedUpdateSinceLastSave :=
    truthy (ofield "updatedAt" qe) &&
    (negb (truthy (old "updatedAt")) || js_lt (old "updatedAt") (ofield "updatedAt" qe)) in
  let cached := if negb hasConflictFromBackend || hasUnsavedUpdateSinceLastSave then qe else [] in
  ospread
    (ospread
      (ospread (ospread (default [] existing) cached)
         [("name", js_or (js_or (ofield "title" cached) (ofield "name" cached)) (old "name"))])
      (spread_if (truthy (ofield "id" cached) && strict_eq (ofield "id" unsaved) (ofield "id" qe)) unsaved))
    [("inLocalStorage", JBool (negb hasConflictFromBackend)); ("loaded", JBool true)].

(** @source app/SqlLab/reducers/getInitialState.ts 181-206 getInitialState (forEach) *)
Definition load_editor (qe : jsval) (st : loading) : result loading :=
  tabViewId ← field "tabViewId" qe;
  let sqlEditorId := to_string (js_nullish tabViewId (opt_field "id" qe)) in
  let editor := merge_editor (l_unsaved st) (aget sqlEditorId (l_editors st)) (object_entries qe) in
  Ok (set_l_editors (oset sqlEditorId editor (l_editors st)) st).

(** The first table of each editor is expanded.

    @source app/SqlLab/reducers/getInitialState.ts 207-226 getInitialState (tables) *)
Definition merge_stored_table (acc : list (string * jsobj) * list jsval) (table : jsval)
    (old : list (string * jsobj)) : result (list (string * jsobj) * list jsval) :=
  queryEditorId ← field "queryEditorId" table;
  let expanded := negb (js_includes acc.2 queryEditorId) in
  let id := to_string (opt_field "id" table) in
  let merged :=
    ospread (ospread (default [] (aget id old)) (object_entries table))
      [("expanded", JBool expanded); ("inLocalStorage", JBool true)] in
  Ok (oset id merged acc.1, if expanded then acc.2 ++ [queryEditorId] else acc.2).

Definition load_tables (sqlLab_ : jsobj) (st : loading) : result loading :=
  match ofield "tables" sqlLab_ with
  | JArr tables =>
      merged ← fold_result (λ acc table, merge_stored_table acc table (l_tables st)) (l_tables st, []) tables;
      Ok {| l_editors := l_editors st; l_unsaved := l_unsaved st; l_tables := merged.1;
            l_queries := l_queries st; l_history := l_history st; l_lastTab := l_lastTab st;
            l_destroyed := l_destroyed st |}
  | v => if truthy v then Throw (TypeError "sqlLab.tables.reduce is not a function") else Ok st
  end.

(** [Object.values(v)] of an object or an array *)
Definition object_values (v : jsval) : list jsval :=
  match v with JObj o => avalues o | JArr l => l | _ => [] end.

(** @source app/SqlLab/reducers/getInitialState.ts 227-231 getInitialState (queries) *)
Definition load_query (query : jsval) (st : loading) : result loading :=
  id ← field "id" query;
  Ok {| l_editors := l_editors st; l_unsaved := l_unsaved st; l_tables := l_tables st;
        l_queries := oset (to_string id) (ospread (object_entries query) [("inLocalStorage", JBool true)])
                       (l_queries st);
        l_history := l_history st; l_lastTab := l_lastTab st; l_destroyed := l_destroyed st |}.

(** @source app/SqlLab/reducers/getInitialState.ts 232-238 getInitialState (tabHistory) *)
Definition load_history (sqlLab_ : jsobj) (st : loading) : result loading :=
  let kept tabId := negb (truthy (opt_field (to_string tabId) (ofield "destroyedQueryEditors" sqlLab_))) in
  match ofield "tabHistory" sqlLab_ with
  | JArr tabs =>
      Ok {| l_editors := l_editors st; l_unsaved := l_unsaved st; l_tables := l_tables st;
            l_queries := l_queries st;
            l_history := l_history st ++ filter (λ tabId, kept tabId = true) tabs;
            l_lastTab := l_lastTab st; l_destroyed := l_destroyed st |}
  | v => if truthy v then Throw (TypeError "sqlLab.tabHistory.filter is not a function") else Ok st
  end.

(** @source app/SqlLab/reducers/getInitialState.ts 239-246 getInitialState (destroyedQueryEditors) *)
Definition load_destroyed (entry : string * jsval) (st : loading) : result loading :=
  Ok {| l_editors := adel entry.1 (l_editors st); l_unsaved := l_unsaved st; l_tables := l_tables st;
        l_queries := l_queries st; l_history := l_history st; l_lastTab := l_lastTab st;
        l_destroyed := oset entry.1 entry.2 (l_destroyed st) |}.

(** @source app/SqlLab/reducers/getInitialState.ts 247-247 getInitialState (lastUpdatedActiveTab) *)
Definition load_lastTab (st : loading) : result loading :=
  Ok {| l_editors := l_editors st; l_unsaved := l_unsaved st; l_tables := l_tables st;
        l_queries := l_queries st; l_history := l_history st;
        l_lastTab := js_or (default JUndef (last (l_history st))) (JStr EmptyString);
        l_destroyed := l_destroyed st |}.

(** Steps inside of [try]: an exception ends them. *)
Fixpoint run_steps (steps : list (loading → result loading)) (st : loading) : loading :=
  match steps with
  | [] => st
  | f :: steps => match f st with Ok st => run_steps steps st | Throw _ => st end
  end.

(** What the local storage has, and whether its item is removed.

    @source app/SqlLab/reducers/getInitialState.ts 156-252 getInitialState (localStorage) *)
Definition from_storage (item : option jsval) (st : loading) : loading * bool :=
  match opt_field "sqlLab" (default JUndef item) with
  | JObj sqlLab_ =>
      let destroyed := object_entries (ofield "destroyedQueryEditors" sqlLab_) in
      match ofield "queryEditors" sqlLab_ with
      | JUndef | JNull => (st, false)
      | JArr editors =>
          if bool_decide (editors = []) && bool_decide (destroyed = []) then (st, true)
          else
            (run_steps
               ([load_unsaved sqlLab_] ++ (load_editor <$> editors) ++ [load_tables sqlLab_] ++
                (load_query <$> object_values (ofield "queries" sqlLab_)) ++ [load_history sqlLab_] ++
                (load_destroyed <$> destroyed) ++ [load_lastTab]) st, false)
      | _ => (run_steps [load_unsaved sqlLab_] st, false)
      end
  | _ => (st, false)
  end.

(** The state at the start, and whether the item of the local storage is
    removed.

    @source app/SqlLab/reducers/getInitialState.ts 40-286 getInitialState *)
Definition getInitialState (conf : jsobj) (activeTab : jsval) (tabStateIds : list jsval) (databases_ : jsobj)
    (queries_ : list (string * jsobj)) (item : option jsval) : result (sqlLab * bool) :=
  backend ← from_backend conf activeTab tabStateIds queries_;
  let '(st, removed) := from_storage item backend in
  let editorTabLastUpdatedAt :=
    if truthy activeTab
    then js_or (opt_field "updatedAt" (opt_field "extra_json" activeTab)) (JNum now)
    else JNum now in
  Ok ({| queryEditors := avalues (l_editors st);
         tabHistory := dedupeTabHistory (l_history st);
         tables := avalues (l_tables st);
         queries := prod_map id (λ q, ospread (ospread q (number_if "startDttm" q)) (number_if "endDttm" q)) <$> l_queries st;
         unsavedQueryEditor := l_unsaved st;
         destroyedQueryEditors := l_destroyed st;
         activeSouthPaneTab := JStr "Results";
         queryCostEstimates := [];
         queriesLastUpdate := now;
         databases := databases_;
         misc := [("alerts", JArr []); ("offline", JBool false);
                  ("editorTabLastUpdatedAt", editorTabLastUpdatedAt);
                  ("lastUpdatedActiveTab", l_lastTab st)] |}, removed).
End storage.
