(* ===== verification/SqlLabStorageFacts.v ===== *)
(** * Facts about SQL Lab across a reload of the page

    Reloading the page gives back the editors as the user sees them, and a
    well-formed state; an editor that both the server and the browser have is
    the one that was changed later. *)

From Stdlib Require Import Ascii String.
From stdpp Require Import base strings option numbers list sets relations.
From S2P Require Import Prelude JsObject JsNumber JsValue JsJson Lodash QueryTypes Query.
From S2P Require Import ReduxUtils SqlLab SqlLabFacts SqlLabEditors SqlLabViews SqlLabQueries SqlLabExamples SqlLabStorage.

(** ** Copies *)

Definition json_obj (o : jsobj) : jsobj :=
  omap (λ kv, if is_undefined kv.2 then None else Some (kv.1, json_copy kv.2)) o.

Lemma json_copy_obj o : json_copy (JObj o) = JObj (json_obj o).
Proof. done. Qed.

Lemma json_copy_arr_obj (os : list jsobj) : json_copy (JArr (JObj <$> os)) = JArr (JObj <$> (json_obj <$> os)).
Proof. cbn [json_copy]. f_equal. rewrite <- !list_fmap_compose. done. Qed.

Lemma is_undefined_true v : is_undefined v = true → v = JUndef.
Proof. by destruct v. Qed.

Lemma elem_of_json_keys k (o : jsobj) : k ∈ akeys (json_obj o) → k ∈ akeys o.
Proof.
  intros (kv & -> & Hkv)%list_elem_of_fmap. apply list_elem_of_omap in Hkv as ([k v] & Hin & Hkv).
  simpl in Hkv. destruct (is_undefined v); [done|]. injection Hkv as <-. simpl.
  by apply (list_elem_of_fmap_2 fst) in Hin.
Qed.

Lemma json_obj_NoDup (o : jsobj) : NoDup (akeys o) → NoDup (akeys (json_obj o)).
Proof.
  induction o as [|[k v] o IH]; [done|]. intros [Hk Hnd]%NoDup_cons. cbn [json_obj omap list_omap].
  simpl. destruct (is_undefined v); [by apply IH|].
  apply NoDup_cons. split; [|by apply IH]. intros H. by apply elem_of_json_keys in H.
Qed.

Lemma ofield_cons k k' v (o : jsobj) :
  ofield k ((k', v) :: o) = if decide (k = k') then v else ofield k o.
Proof. unfold ofield. cbn [aget]. by destruct (decide _). Qed.

Lemma json_obj_cons k v (o : jsobj) :
  json_obj ((k, v) :: o) = if is_undefined v then json_obj o else (k, json_copy v) :: json_obj o.
Proof. unfold json_obj. cbn [omap list_omap fst snd]. by destruct (is_undefined v). Qed.

Lemma ofield_json_obj k (o : jsobj) : NoDup (akeys o) → ofield k (json_obj o) = json_copy (ofield k o).
Proof.
  induction o as [|[k' v] o IH]; [done|]. intros [Hk Hnd]%NoDup_cons.
  rewrite json_obj_cons, ofield_cons. specialize (IH Hnd).
  destruct (decide (k = k')) as [->|Hne], (is_undefined v) eqn:Hu; rewrite ?ofield_cons.
  - apply is_undefined_true in Hu as ->. unfold ofield.
    assert (aget k' (json_obj o) = None) as ->; [|done].
    apply aget_None. intros H. by apply elem_of_json_keys in H.
  - by rewrite decide_True.
  - done.
  - rewrite decide_False by done. exact IH.
Qed.

(** ** Editors in storage *)

Lemma clear_editor_NoDup qe : NoDup (akeys qe) → NoDup (akeys (clear_editor qe)).
Proof. apply filter_akeys_NoDup. Qed.

Lemma aget_clear_editor k qe :
  aget k (clear_editor qe) = if decide (k ∈ PERSISTENT_QUERY_EDITOR_KEYS) then aget k qe else None.
Proof.
  unfold clear_editor. induction qe as [|[k' v] qe IH]; [by destruct (decide _)|].
  rewrite filter_cons. cbn [fst]. destruct (decide (k' ∈ PERSISTENT_QUERY_EDITOR_KEYS)) as [Hk'|Hk'].
  - cbn [aget]. destruct (decide (k = k')) as [->|Hne]; [|done]. by rewrite decide_True.
  - rewrite IH. cbn [aget]. destruct (decide (k = k')) as [->|Hne]; [|done].
    by rewrite !decide_False.
Qed.

(** What is left of an editor in the local storage. *)
Definition kept (qe : jsobj) : jsobj := json_obj (clear_editor qe).

Lemma ofield_kept k qe :
  NoDup (akeys qe) →
  ofield k (kept qe) = if decide (k ∈ PERSISTENT_QUERY_EDITOR_KEYS) then json_copy (ofield k qe) else JUndef.
Proof.
  intros Hnd. unfold kept. rewrite ofield_json_obj by by apply clear_editor_NoDup.
  unfold ofield. rewrite aget_clear_editor. by destruct (decide _).
Qed.

Lemma kept_NoDup qe : NoDup (akeys qe) → NoDup (akeys (kept qe)).
Proof. intros. by apply json_obj_NoDup, clear_editor_NoDup. Qed.

(** ** Steps *)

Definition total (f : loading → result loading) : Prop := ∀ st, ∃ st', f st = Ok st'.

Lemma run_steps_app fs gs st :
  Forall total fs → run_steps (fs ++ gs) st = run_steps gs (run_steps fs st).
Proof.
  intros Hfs. revert st. induction Hfs as [|f fs Hf Hfs IH]; intros st; [done|]. simpl.
  destruct (Hf st) as [st' ->]. apply IH.
Qed.

(** Steps that leave the editors, the edits and the history alone. *)
Definition aside (f : loading → result loading) : Prop :=
  ∀ st, ∃ st', f st = Ok st' ∧ l_editors st' = l_editors st ∧ l_unsaved st' = l_unsaved st ∧
    l_history st' = l_history st ∧ l_destroyed st' = l_destroyed st.

Lemma aside_total f : aside f → total f.
Proof. intros H st. destruct (H st) as (st' & ? & _). by exists st'. Qed.

Lemma run_aside fs st :
  Forall aside fs →
  let st' := run_steps fs st in
  l_editors st' = l_editors st ∧ l_unsaved st' = l_unsaved st ∧ l_history st' = l_history st ∧
  l_destroyed st' = l_destroyed st.
Proof.
  intros Hfs. revert st. induction Hfs as [|f fs Hf Hfs IH]; intros st; [done|]. simpl.
  destruct (Hf st) as (st1 & -> & H1 & H2 & H3 & H4). destruct (IH st1) as (H5 & H6 & H7 & H8).
  split_and!; congruence.
Qed.

Lemma load_tables_aside sqlLab_ os : ofield "tables" sqlLab_ = JArr (JObj <$> os) → aside (load_tables sqlLab_).
Proof.
  intros Ht st. unfold load_tables. rewrite Ht.
  assert (∀ acc, ∃ acc', fold_result (λ acc table, merge_stored_table acc table (l_tables st)) acc
                           (JObj <$> os) = Ok acc') as Hfold.
  { clear Ht. induction os as [|o os IH]; intros acc; simpl; [by eexists|]. apply IH. }
  destruct (Hfold (l_tables st, [])) as [acc' ->]. by eexists.
Qed.

Lemma load_query_aside o : aside (load_query (JObj o)).
Proof. intros st. by eexists. Qed.

(** ** The editors are loaded *)

(** The editor that comes out of the local storage when the server has none. *)
Definition restored (u qe : jsobj) : jsobj := merge_editor u None qe.

Definition restored_entry (u qe : jsobj) : string * jsobj := (to_string (ofield "id" qe), restored u qe).

Lemma load_editor_kept st qe :
  NoDup (akeys qe) →
  let q := kept qe in
  aget (to_string (ofield "id" q)) (l_editors st) = None →
  load_editor (JObj q) st =
  Ok (set_l_editors (oset (to_string (ofield "id" q)) (restored (l_unsaved st) q) (l_editors st)) st).
Proof.
  intros Hnd q Hnone. unfold load_editor. cbn [field opt_field object_entries].
  assert (ofield "tabViewId" q = JUndef) as Hv.
  { unfold q. rewrite ofield_kept, decide_False by (done || solve_decided). done. }
  rewrite Hv. cbn [mbind result_bind js_nullish is_nullish]. by rewrite Hnone.
Qed.

Lemma restored_entry_keys u qes :
  akeys (restored_entry u <$> qes) = (λ qe, to_string (ofield "id" qe)) <$> qes.
Proof. unfold akeys. by rewrite <- list_fmap_compose. Qed.

Lemma load_editors qes st :
  (∀ qe, qe ∈ qes → NoDup (akeys qe)) → l_editors st = [] →
  NoDup ((λ qe, to_string (ofield "id" qe)) <$> (kept <$> qes)) →
  run_steps (load_editor <$> (JObj <$> (kept <$> qes))) st =
  set_l_editors (from_entries (restored_entry (l_unsaved st) <$> (kept <$> qes))) st.
Proof.
  intros Hkeys Hempty Hnd.
  assert (∀ done, NoDup (akeys (done ++ (restored_entry (l_unsaved st) <$> (kept <$> qes)))) →
    run_steps (load_editor <$> (JObj <$> (kept <$> qes))) (set_l_editors (from_entries done) st) =
    set_l_editors (from_entries (done ++ (restored_entry (l_unsaved st) <$> (kept <$> qes)))) st) as H.
  { clear Hempty Hnd. induction qes as [|qe qes IH]; intros dn Hnd; [by rewrite app_nil_r|].
    cbn [fmap list_fmap run_steps] in *.
    rewrite load_editor_kept.
      + cbn [l_editors l_unsaved set_l_editors].
        specialize (IH ltac:(intros; apply Hkeys; by right) (dn ++ [restored_entry (l_unsaved st) (kept qe)])).
        rewrite <- app_assoc in IH. cbn [app] in IH. rewrite <- IH by done. unfold from_entries, ospread.
        rewrite foldl_app. done.
      + apply Hkeys. left.
      + cbn [l_editors set_l_editors]. apply aget_None. unfold from_entries.
        rewrite elem_of_akeys_ospread. intros [Hin|Hin]; [by apply not_elem_of_nil in Hin|].
        unfold akeys in Hnd. rewrite fmap_app in Hnd. apply NoDup_app in Hnd as (_ & Hdis & _).
        apply (Hdis _ Hin). left. }
  specialize (H []). simpl in H. rewrite <- H.
  - f_equal. destruct st. simpl in *. by subst.
  - by rewrite restored_entry_keys.
Qed.

(** *** Looking up by id *)

Lemma find_avalues m i :
  (∀ k v, aget k m = Some v → ofield "id" v = JStr k) → NoDup (akeys m) →
  find_by "id" (JStr i) (avalues m) = aget i m.
Proof.
  intros Hids Hnd. induction m as [|[k v] m IH]; [done|].
  apply NoDup_cons in Hnd as [Hk Hnd]. unfold find_by in *. simpl.
  assert (ofield "id" v = JStr k) as Hid by (apply Hids; simpl; by rewrite decide_True).
  rewrite Hid. simpl. destruct (decide (i = k)) as [->|Hne].
  - by rewrite bool_decide_eq_true_2.
  - rewrite bool_decide_eq_false_2 by congruence. apply IH; [|done].
    intros k' v' Hget. apply Hids. simpl. rewrite decide_False; [done|]. intros ->.
    apply Hk. apply aget_is_Some. by eexists.
Qed.

(** *** The fields of a loaded editor *)

Definition edits_of (u q : jsobj) : jsobj :=
  spread_if (truthy (ofield "id" q) && strict_eq (ofield "id" u) (ofield "id" q)) u.

Lemma edits_NoDup u q : NoDup (akeys u) → NoDup (akeys (edits_of u q)).
Proof. intros H. unfold edits_of, spread_if. destruct (_ && _); [done|apply NoDup_nil_2]. Qed.

Lemma ofield_restored k u q :
  NoDup (akeys u) → NoDup (akeys q) → k ∉ ["inLocalStorage"; "loaded"] →
  ofield k (restored u q) =
  if decide (k ∈ akeys (edits_of u q)) then ofield k (edits_of u q)
  else if decide (k = "name") then js_or (js_or (ofield "title" q) (ofield "name" q)) JUndef
  else ofield k q.
Proof.
  intros Hu Hq Hk. unfold restored, merge_editor.
  rewrite bool_decide_eq_false_2 by by intros [? ?]. cbn [negb orb default from_option].
  fold (edits_of u q). rewrite ofield_ospread by solve_decided.
  rewrite decide_False by done. rewrite ofield_ospread by by apply edits_NoDup.
  destruct (decide (k ∈ akeys (edits_of u q))); [done|].
  rewrite ofield_ospread by solve_decided. unfold id.
  destruct (decide (k = "name")) as [->|Hne].
  - rewrite decide_True by (simpl; left). done.
  - rewrite decide_False by (simpl; rewrite elem_of_cons, elem_of_nil; tauto).
    rewrite ofield_ospread by done. destruct (decide _) as [|Hn]; [done|].
    unfold ofield. by rewrite (proj2 (aget_None k q) Hn).
Qed.

Lemma restored_NoDup u q : NoDup (akeys (restored u q)).
Proof. unfold restored, merge_editor. repeat apply NoDup_akeys_ospread. apply NoDup_nil_2. Qed.

Lemma kept_id qe i : NoDup (akeys qe) → ofield "id" qe = JStr i → ofield "id" (kept qe) = JStr i.
Proof. intros Hnd Hid. rewrite ofield_kept, decide_True, Hid by (done || solve_decided). done. Qed.

Lemma restored_id u qe i :
  NoDup (akeys u) → NoDup (akeys qe) → ofield "id" qe = JStr i →
  ofield "id" (restored u (kept qe)) = JStr i.
Proof.
  intros Hu Hnd Hid. rewrite ofield_restored by (done || by apply kept_NoDup || solve_decided).
  rewrite (decide_False (P := "id" = "name")) by done. rewrite (kept_id qe i) by done.
  destruct (decide _) as [Hin|]; [|done]. unfold edits_of, spread_if in *.
  destruct (truthy _ && strict_eq _ _) eqn:Hc; [|by apply not_elem_of_nil in Hin].
  apply andb_true_iff in Hc as [_ Hc]. rewrite (kept_id qe i) in Hc by done. by apply strict_eq_str in Hc.
Qed.

Lemma aget_restored u qes i :
  (∀ qe, qe ∈ qes → NoDup (akeys qe) ∧ is_id (id_of qe)) →
  aget i (restored_entry u <$> (kept <$> qes)) = (λ qe, restored u (kept qe)) <$> find_by "id" (JStr i) qes.
Proof.
  induction qes as [|qe qes IH]; intros Hq; [done|].
  destruct (Hq qe ltac:(left)) as [Hnd (j & Hj & _)]. cbn [fmap list_fmap]. unfold restored_entry at 1.
  rewrite (kept_id qe j) by done. unfold find_by in *. cbn [aget List.find to_string].
  rewrite Hj. simpl strict_eq. destruct (decide (i = j)) as [->|Hne].
  - by rewrite bool_decide_eq_true_2.
  - rewrite bool_decide_eq_false_2 by congruence. apply IH. intros; apply Hq. by right.
Qed.

Lemma kept_keys k u : k ∈ akeys (kept u) → k ∈ akeys u ∧ k ∈ PERSISTENT_QUERY_EDITOR_KEYS.
Proof.
  intros H%elem_of_json_keys. apply aget_is_Some in H as [v Hv]. rewrite aget_clear_editor in Hv.
  destruct (decide _) as [Hk|]; [|done]. split; [|done]. apply aget_is_Some. by eexists.
Qed.

Lemma json_copy_str v : (∀ i, v = JStr i → json_copy v = v).
Proof. by intros i ->. Qed.

Lemma ofield_in_keys k (o : jsobj) : ofield k o ≠ JUndef → k ∈ akeys o.
Proof.
  intros H. apply aget_is_Some. unfold ofield in H. destruct (aget k o); [by eexists|done].
Qed.

(** ** The whole item *)

Section reload.
Context `{Lodash}.
Implicit Types (s : sqlLab) (st : loading).

(** The item of the local storage. *)
Definition stored_item (time : jsnum) s : jsval := json_copy (JObj [("sqlLab", JObj (stored_state time s))]).

Definition cache time s : jsobj := json_obj (stored_state time s).

Lemma stored_item_cache time s : opt_field "sqlLab" (stored_item time s) = JObj (cache time s).
Proof. done. Qed.

Lemma ofield_cache time s k v :
  NoDup (akeys (misc s)) →
  aget k [("queryEditors", JArr (JObj <$> (clear_editor <$> queryEditors s)));
     ("tabHistory", JArr (tabHistory s));
     ("tables", JArr (JObj <$> emptyTablePersistData (tables s)));
     ("queries", JObj (prod_map id JObj <$> emptyQueryResults time (queries s)));
     ("unsavedQueryEditor", JObj (clear_editor (unsavedQueryEditor s)));
     ("destroyedQueryEditors", JObj (destroyedQueryEditors s))] = Some v →
  ofield k (cache time s) = json_copy v.
Proof.
  intros Hm Hk. unfold cache. rewrite ofield_json_obj by by apply NoDup_akeys_ospread.
  f_equal. unfold stored_state, ofield. rewrite aget_ospread by solve_decided.
  match goal with |- context [aget k (?a :: ?b :: ?c :: ?d :: ?e :: ?f :: ?r)] =>
    change (a :: b :: c :: d :: e :: f :: r) with ([a; b; c; d; e; f] ++ r) end.
  by rewrite aget_app, Hk.
Qed.

Lemma cache_fields time s :
  NoDup (akeys (misc s)) →
  ofield "queryEditors" (cache time s) = JArr (JObj <$> (kept <$> queryEditors s)) ∧
  ofield "tabHistory" (cache time s) = json_copy (JArr (tabHistory s)) ∧
  ofield "tables" (cache time s) = JArr (JObj <$> (json_obj <$> emptyTablePersistData (tables s))) ∧
  ofield "queries" (cache time s) = JObj (json_obj (prod_map id JObj <$> emptyQueryResults time (queries s))) ∧
  ofield "unsavedQueryEditor" (cache time s) = JObj (kept (unsavedQueryEditor s)) ∧
  ofield "destroyedQueryEditors" (cache time s) = JObj (json_obj (destroyedQueryEditors s)).
Proof.
  intros Hm. split_and!; (erewrite ofield_cache by (done || reflexivity)).
  - rewrite json_copy_arr_obj. by rewrite <- (list_fmap_compose clear_editor).
  - done.
  - apply json_copy_arr_obj.
  - done.
  - done.
  - done.
Qed.

(** The steps of the tables and the queries. *)
Lemma cache_aside time s :
  NoDup (akeys (misc s)) →
  Forall aside ([load_tables (cache time s)] ++ (load_query <$> object_values (ofield "queries" (cache time s)))).
Proof.
  intros Hm. apply Forall_app. split.
  - constructor; [|constructor]. eapply load_tables_aside.
    apply (cache_fields time s Hm).
  - destruct (cache_fields time s Hm) as (_ & _ & _ & -> & _). cbn [object_values].
    apply Forall_fmap, Forall_forall. intros v (kv & -> & Hin)%list_elem_of_fmap.
    apply list_elem_of_omap in Hin as ([k w] & Hin & Hkv).
    apply list_elem_of_fmap in Hin as ([k' o] & [= -> ->] & _). simpl in Hkv.
    injection Hkv as <-. apply load_query_aside.
Qed.

Lemma load_destroyed_run (d : jsobj) st :
  (∀ k, k ∈ akeys d → k ∉ akeys (l_editors st)) →
  let st' := run_steps (load_destroyed <$> d) st in
  l_editors st' = l_editors st ∧ l_unsaved st' = l_unsaved st ∧ l_history st' = l_history st.
Proof.
  revert st. induction d as [|[k v] d IH]; intros st Hd; [done|]. cbn [fmap list_fmap run_steps load_destroyed fst snd].
  cbv zeta. match goal with |- context [run_steps _ ?st1] => destruct (IH st1) as (H1 & H2 & H3) end.
  { cbn [l_editors]. rewrite adel_fresh by (apply Hd; left). intros k' Hk'. apply Hd. by right. }
  rewrite H1, H2, H3. cbn [l_editors l_unsaved l_history].
  by rewrite adel_fresh by (apply Hd; left).
Qed.

Definition not_destroyed s : Prop := ∀ i, JStr i ∈ ids s → i ∉ akeys (destroyedQueryEditors s).

Lemma history_strings s : editors_ok s → ∃ xs, tabHistory s = JStr <$> xs.
Proof.
  intros Hs. assert (∀ v, v ∈ tabHistory s → ∃ x, v = JStr x) as Hv.
  { intros v Hin. destruct (eo_ids s Hs v) as (i & -> & _); [|by exists i]. by apply (eo_history s Hs). }
  induction (tabHistory s) as [|v vs IH]; [by exists []|].
  destruct IH as [xs ->]; [intros; apply Hv; by right|]. destruct (Hv v) as [x ->]; [left|].
  by exists (x :: xs).
Qed.

Lemma json_copy_history s : editors_ok s → json_copy (JArr (tabHistory s)) = JArr (tabHistory s).
Proof.
  intros Hs. destruct (history_strings s Hs) as [xs ->]. cbn [json_copy]. f_equal.
  by rewrite <- list_fmap_compose.
Qed.

Lemma history_kept c s :
  editors_ok s → not_destroyed s →
  ofield "destroyedQueryEditors" c = JObj (json_obj (destroyedQueryEditors s)) →
  filter (λ tabId, negb (truthy (opt_field (to_string tabId) (ofield "destroyedQueryEditors" c))) = true)
    (tabHistory s) = tabHistory s.
Proof.
  intros Hs Hd ->.
  assert (∀ v, v ∈ tabHistory s → v ∈ ids s) as Hin by apply (eo_history s Hs).
  induction (tabHistory s) as [|v vs IH]; [done|]. rewrite filter_cons, decide_True.
  - f_equal. apply IH. intros; apply Hin. by right.
  - destruct (eo_ids s Hs v) as (i & -> & _); [apply Hin; left|]. cbn [to_string opt_field].
    unfold ofield. assert (aget i (json_obj (destroyedQueryEditors s)) = None) as ->; [|done].
    apply aget_None. intros Hk%elem_of_json_keys. by apply (Hd i); [apply Hin; left|].
Qed.

Lemma kept_ids s :
  editors_ok s → (λ qe, to_string (ofield "id" qe)) <$> (kept <$> queryEditors s) = to_string <$> ids s.
Proof.
  intros Hs. unfold ids. rewrite <- !list_fmap_compose. apply list_fmap_ext. intros n qe Hin%list_elem_of_lookup_2.
  simpl. destruct (eo_ids s Hs (id_of qe)) as (i & Hi & _); [by apply (list_elem_of_fmap_2 (ofield "id"))|].
  rewrite Hi. by rewrite (kept_id qe i) by (done || by apply (eo_keys s Hs)).
Qed.

Lemma string_ids_NoDup s : editors_ok s → NoDup (to_string <$> ids s).
Proof.
  intros Hs. apply NoDup_fmap_2_strong; [|apply (eo_nodup s Hs)].
  intros v w (i & -> & _)%(eo_ids s Hs) (j & -> & _)%(eo_ids s Hs). simpl. congruence.
Qed.

(** The state after the local storage is read, when the server has no tabs. *)
Lemma from_storage_cache c item s st0 :
  editors_ok s → not_destroyed s →
  l_editors st0 = [] → l_unsaved st0 = [] → l_history st0 = [] →
  opt_field "sqlLab" item = JObj c →
  ofield "queryEditors" c = JArr (JObj <$> (kept <$> queryEditors s)) →
  ofield "tabHistory" c = json_copy (JArr (tabHistory s)) →
  ofield "unsavedQueryEditor" c = JObj (kept (unsavedQueryEditor s)) →
  ofield "destroyedQueryEditors" c = JObj (json_obj (destroyedQueryEditors s)) →
  Forall aside ([load_tables c] ++ (load_query <$> object_values (ofield "queries" c))) →
  let u := kept (unsavedQueryEditor s) in
  ∃ st removed, from_storage (Some item) st0 = (st, removed) ∧
    l_editors st = from_entries (restored_entry u <$> (kept <$> queryEditors s)) ∧
    l_history st = tabHistory s ∧ (l_unsaved st = u ∨ l_unsaved st = [] ∧ queryEditors s = []).
Proof.
  intros Hs Hd He Hu Hh Hitem F1 F2 F5 F6 Haside u.
  pose proof (history_kept c s Hs Hd F6) as Hkept.
  unfold from_storage. change (default JUndef (Some item)) with item.
  rewrite Hitem, F1, F6. cbn [object_entries].
  destruct (bool_decide _ && _) eqn:Hempty.
  { apply andb_true_iff in Hempty as [Hqe _]. apply bool_decide_eq_true in Hqe.
    apply fmap_nil_inv, fmap_nil_inv in Hqe. eexists _, _. split; [done|].
    rewrite He, Hu, Hh, Hqe. split; [done|]. split; [|by right].
    destruct (tabHistory s) as [|v vs] eqn:Hv; [done|].
    assert (v ∈ ids s) as Hin by (apply (eo_history s Hs); rewrite Hv; left).
    unfold ids in Hin. rewrite Hqe in Hin. by apply not_elem_of_nil in Hin. }
  clear Hempty. eexists _, _. split; [done|].
  set (st1 := {| l_editors := []; l_unsaved := u; l_tables := l_tables st0; l_queries := l_queries st0;
                 l_history := []; l_lastTab := l_lastTab st0; l_destroyed := l_destroyed st0 |}).
  assert (load_unsaved c st0 = Ok st1) as Hload.
  { unfold load_unsaved. rewrite F5. cbn. by rewrite He, Hh. }
  cbn [app run_steps]. rewrite Hload. rewrite run_steps_app.
  2: { apply Forall_fmap, Forall_fmap, Forall_forall. intros q (qe & -> & _)%list_elem_of_fmap st.
       by eexists. }
  rewrite load_editors; [|apply (eo_keys s Hs)|done|rewrite kept_ids by done; by apply string_ids_NoDup].
  set (st2 := set_l_editors _ st1).
  cbn [app] in Haside.
  change (run_steps ?fs st2) with (run_steps fs st2). rewrite (app_comm_cons _ _ (load_tables c)).
  rewrite run_steps_app by (eapply Forall_impl; [exact Haside|exact aside_total]).
  destruct (run_aside _ st2 Haside) as (H1 & H2 & H3 & _).
  set (st3 := run_steps (load_tables c :: _) st2) in *.
  set (st4 := {| l_editors := l_editors st3; l_unsaved := l_unsaved st3; l_tables := l_tables st3;
                 l_queries := l_queries st3; l_history := tabHistory s;
                 l_lastTab := l_lastTab st3; l_destroyed := l_destroyed st3 |}).
  assert (load_history c st3 = Ok st4) as Hhist.
  { unfold load_history. by rewrite F2, json_copy_history, Hkept, H3 by done. }
  cbn [app run_steps]. rewrite Hhist.
  rewrite run_steps_app by (apply Forall_fmap, Forall_forall; intros kv _ st; by eexists).
  destruct (load_destroyed_run (json_obj (destroyedQueryEditors s)) st4) as (H4 & H5 & H6).
  { intros k Hk%elem_of_json_keys Hin. cbn [st4 l_editors] in Hin. rewrite H1 in Hin.
    cbn [st2 set_l_editors l_editors st1 l_unsaved] in Hin.
    unfold from_entries in Hin. rewrite elem_of_akeys_ospread, restored_entry_keys, kept_ids in Hin by done.
    destruct Hin as [Hin|(v & -> & Hv)%list_elem_of_fmap]; [by apply not_elem_of_nil in Hin|].
    destruct (eo_ids s Hs v Hv) as (j & -> & _). by apply (Hd j). }
  cbn [run_steps load_lastTab l_editors l_history l_unsaved]. rewrite H4, H5, H6.
  cbn [st4 l_editors l_history l_unsaved]. rewrite H1, H2. split; [done|]. split; [done|]. by left.
Qed.

(** A loaded state: the editors and edits of [s] as far as they are stored. *)
Record reloaded s (r : sqlLab) : Prop := {
  rl_editors : queryEditors r =
    avalues (from_entries (restored_entry (kept (unsavedQueryEditor s)) <$> (kept <$> queryEditors s)));
  rl_history : tabHistory r = dedupeTabHistory (tabHistory s);
  rl_unsaved : unsavedQueryEditor r = kept (unsavedQueryEditor s) ∨
               unsavedQueryEditor r = [] ∧ queryEditors s = [];
}.

Lemma getInitialState_reloaded t nanoid now conf dbs qs time s :
  editors_ok s → NoDup (akeys (misc s)) → not_destroyed s →
  ∃ r removed,
    getInitialState t nanoid now conf JUndef [] dbs qs (Some (stored_item time s)) = Ok (r, removed) ∧
    reloaded s r.
Proof.
  intros Hs Hm Hd. destruct (cache_fields time s Hm) as (F1 & F2 & F3 & F4 & F5 & F6).
  set (st0 := {| l_editors := []; l_unsaved := []; l_tables := []; l_queries := qs; l_history := [];
                 l_lastTab := JStr EmptyString; l_destroyed := [] |}).
  destruct (from_storage_cache (cache time s) (stored_item time s) s st0 Hs Hd eq_refl eq_refl eq_refl
              (stored_item_cache time s) F1 F2 F5 F6 (cache_aside time s Hm)) as (st & removed & Hst & H1 & H2 & H3).
  unfold getInitialState. change (from_backend t nanoid conf JUndef [] qs) with (Ok st0).
  cbn [mbind result_bind]. rewrite Hst. eexists _, _. split; [reflexivity|].
  constructor; cbn [queryEditors tabHistory unsavedQueryEditor]; [by rewrite H1|by rewrite H2|done].
Qed.

Section loaded.
Context s r (Hs : editors_ok s) (Hr : reloaded s r).

Let u : jsobj := kept (unsavedQueryEditor s).
Let entries : list (string * jsobj) := restored_entry u <$> (kept <$> queryEditors s).

Lemma u_NoDup : NoDup (akeys u).
Proof. apply kept_NoDup, (eo_unsaved_keys s Hs). Qed.

Lemma entries_NoDup : NoDup (akeys entries).
Proof. unfold entries. rewrite restored_entry_keys, kept_ids by done. by apply string_ids_NoDup. Qed.

Lemma editor_ok qe : qe ∈ queryEditors s → NoDup (akeys qe) ∧ ∃ i, id_of qe = JStr i ∧ i ≠ EmptyString.
Proof.
  intros Hin. split; [by apply (eo_keys s Hs)|].
  apply (eo_ids s Hs). by apply (list_elem_of_fmap_2 id_of).
Qed.

Lemma reloaded_ids : ids r ≡ₚ ids s.
Proof.
  unfold ids. rewrite (rl_editors s r Hr). fold u. fold entries. unfold avalues.
  rewrite (from_entries_Permutation entries entries_NoDup). unfold entries.
  rewrite <- !list_fmap_compose.
  erewrite list_fmap_ext; [reflexivity|]. intros n qe Hin%list_elem_of_lookup_2. simpl.
  destruct (editor_ok qe Hin) as [Hnd (i & Hi & _)]. rewrite Hi.
  by apply restored_id; [apply u_NoDup| |].
Qed.

Lemma reloaded_stored i :
  stored r i = (λ qe, restored u (kept qe)) <$> stored s i.
Proof.
  unfold stored. rewrite (rl_editors s r Hr). fold u. fold entries.
  assert (∀ k, aget k (from_entries entries) = (λ qe, restored u (kept qe)) <$> find_by "id" (JStr k) (queryEditors s))
    as Haget.
  { intros k. rewrite aget_from_entries by apply entries_NoDup. apply aget_restored.
    intros qe Hin. apply (editor_ok qe Hin). }
  rewrite find_avalues; [apply Haget| |apply NoDup_akeys_from_entries].
  intros k v Hk. rewrite Haget in Hk. apply fmap_Some in Hk as (qe & Hfind & ->).
  apply find_by_some in Hfind as [Hin Hid]. apply strict_eq_str in Hid.
  apply restored_id; [apply u_NoDup|by apply (editor_ok qe)|done].
Qed.

Lemma history_dedupe :
  (∀ v, v ∈ tabHistory r ↔ v ∈ tabHistory s) ∧ last (tabHistory r) = last (tabHistory s).
Proof.
  destruct (history_strings s Hs) as [xs Hxs]. rewrite (rl_history s r Hr), Hxs.
  destruct (dedupeTabHistory_spec xs) as (ys & -> & _ & Hin & Hlast & _).
  split; [|by rewrite !fmap_last, Hlast].
  intros v. rewrite !list_elem_of_fmap. by setoid_rewrite Hin.
Qed.

Lemma kept_unsaved_id : id_of u = JUndef ∧ id_of (unsavedQueryEditor s) = JUndef ∨ id_of u = id_of (unsavedQueryEditor s) ∧ id_of u ∈ ids s.
Proof.
  assert (id_of u = json_copy (id_of (unsavedQueryEditor s))) as Hu.
  { unfold u. rewrite ofield_kept, decide_True by (solve_decided || apply (eo_unsaved_keys s Hs)). done. }
  destruct (eo_unsaved s Hs) as [Hn|Hin]; [left; by rewrite Hu, Hn|right].
  destruct (eo_ids s Hs _ Hin) as (i & Hi & _). rewrite Hu, Hi in *. done.
Qed.

Lemma reloaded_ok : editors_ok r.
Proof.
  destruct history_dedupe as [Hh Hl]. constructor.
  - intros v. rewrite reloaded_ids. apply (eo_ids s Hs).
  - rewrite reloaded_ids. apply (eo_nodup s Hs).
  - rewrite (rl_editors s r Hr). fold u. fold entries. intros qe Hin.
    apply elem_of_avalues in Hin as (k & Hin). rewrite (from_entries_Permutation entries entries_NoDup) in Hin.
    apply list_elem_of_fmap in Hin as (q & [= _ ->] & _). apply restored_NoDup.
  - rewrite reloaded_ids. destruct (rl_unsaved s r Hr) as [->|[-> _]]; [|by left].
    fold u. destruct kept_unsaved_id as [[-> _]|[_ Hin]]; [by left|by right].
  - destruct (rl_unsaved s r Hr) as [->|[-> _]]; [apply u_NoDup|apply NoDup_nil_2].
  - intros v Hv. rewrite reloaded_ids. apply (eo_history s Hs). by apply Hh.
  - intros Hne Hnil. apply (eo_active s Hs).
    + intros Hqe. apply Hne. rewrite (rl_editors s r Hr), Hqe. done.
    + rewrite Hnil in Hl. simpl in Hl. by apply last_None.
Qed.
End loaded.

(** A field of the view of an editor that is there. *)
Lemma ofield_view s i k :
  editors_ok s → JStr i ∈ ids s →
  ∃ qe, stored s i = Some qe ∧ NoDup (akeys qe) ∧ id_of qe = JStr i ∧
    ofield k (view s i) =
    if decide (k ∈ akeys (pending s i)) then ofield k (pending s i) else ofield k qe.
Proof.
  intros Hs Hi. destruct (stored_ids s i Hs Hi) as [qe Hqe]. exists qe.
  destruct (stored_some s i qe Hs Hqe) as [Hin Hid].
  split; [done|]. split; [by apply (eo_keys s Hs)|]. split; [done|].
  unfold ofield at 1. rewrite aget_view, Hqe by done.
  destruct (decide (k ∈ akeys (pending s i))) as [Hk|Hk].
  - apply aget_is_Some in Hk as [v Hv]. unfold ofield. by rewrite Hv.
  - apply aget_None in Hk. rewrite Hk. unfold ofield. destruct (aget k qe) eqn:Hget; [done|].
    destruct (decide (k = "id")) as [->|]; [|done]. unfold ofield in Hid. by rewrite Hget in Hid.
Qed.

Lemma json_copy_undefined v : json_copy v = JUndef → v = JUndef.
Proof. destruct v as [| | |[]| | |]; done. Qed.

Lemma edits_pending s i qe :
  editors_ok s → NoDup (akeys qe) → id_of qe = JStr i → i ≠ EmptyString →
  edits_of (kept (unsavedQueryEditor s)) (kept qe)
  = spread_if (strict_eq (JStr i) (id_of (unsavedQueryEditor s))) (kept (unsavedQueryEditor s)).
Proof.
  intros Hs Hnd Hid Hi. unfold edits_of. rewrite (kept_id qe i) by done.
  assert (truthy (JStr i) = true) as -> by (simpl; by apply bool_decide_eq_true). cbn [andb]. f_equal.
  destruct (kept_unsaved_id s Hs) as [[-> ->]|[Heq Hin]]; [done|].
  rewrite Heq in Hin |- *. destruct (eo_ids s Hs _ Hin) as (j & -> & _).
  simpl. apply bool_decide_ext. naive_solver.
Qed.

Lemma persistent_no_flag k : k ∈ PERSISTENT_QUERY_EDITOR_KEYS → k ∉ ["inLocalStorage"; "loaded"].
Proof.
  assert (Forall (λ k, k ∉ ["inLocalStorage"; "loaded"]) PERSISTENT_QUERY_EDITOR_KEYS) as H' by solve_decided.
  apply (proj1 (Forall_forall _ _) H').
Qed.

Lemma reloaded_view s r i k :
  editors_ok s → reloaded s r → JStr i ∈ ids s → k ∈ PERSISTENT_QUERY_EDITOR_KEYS →
  aget k (unsavedQueryEditor s) ≠ Some JUndef →
  (k = "name" → ∃ n, ofield k (view s i) = JStr n ∧ n ≠ EmptyString) →
  ofield k (view r i) = json_copy (ofield k (view s i)).
Proof.
  intros Hs Hr Hi Hk Hdef Hname. pose proof (reloaded_ok s r Hs Hr) as Hrok.
  assert (JStr i ∈ ids r) as Hir by by rewrite (reloaded_ids s r Hs Hr).
  assert (i ≠ EmptyString) as Hne by (destruct (eo_ids s Hs _ Hi) as (j & [= ->] & ?); done).
  destruct (ofield_view s i k Hs Hi) as (qe & Hqe & Hnd & Hid & Hvs).
  destruct (ofield_view r i k Hrok Hir) as (qr & Hqr & _ & _ & Hvr).
  rewrite (reloaded_stored s r Hs Hr), Hqe in Hqr. injection Hqr as <-.
  assert (unsavedQueryEditor r = kept (unsavedQueryEditor s)) as Hu.
  { destruct (rl_unsaved s r Hr) as [|[_ Hnil]]; [done|]. unfold ids in Hi. rewrite Hnil in Hi.
    by apply not_elem_of_nil in Hi. }
  pose proof (edits_pending s i qe Hs Hnd Hid Hne) as Hedits.
  assert (pending r i = edits_of (kept (unsavedQueryEditor s)) (kept qe)) as Hpr.
  { rewrite Hedits. unfold pending. rewrite Hu. f_equal.
    destruct (kept_unsaved_id s Hs) as [[-> ->]|[-> _]]; done. }
  rewrite Hvr, Hvs, Hpr. rewrite ofield_restored; [|by apply kept_NoDup, (eo_unsaved_keys s Hs)|by apply kept_NoDup|by apply persistent_no_flag].
  rewrite Hedits. unfold pending in *.
  pose proof (eo_unsaved_keys s Hs) as Hund.
  assert (k ∉ akeys (spread_if (strict_eq (JStr i) (id_of (unsavedQueryEditor s))) (unsavedQueryEditor s)) →
    (if decide (k = "name") then js_or (js_or (ofield "title" (kept qe)) (ofield "name" (kept qe))) JUndef
     else ofield k (kept qe)) = json_copy (ofield k qe)) as Hbase.
  { intros Hn. rewrite decide_False in Hvs by done. rewrite (ofield_kept k), (decide_True (P := k ∈ _)) by done.
    destruct (decide (k = "name")) as [->|]; [|done]. rewrite !ofield_kept, decide_False, decide_True by (done || solve_decided).
    destruct (Hname eq_refl) as (n & Hn1 & Hn2). rewrite Hvs in Hn1. rewrite Hn1. cbn [json_copy].
    unfold js_or at 2. cbn [truthy]. rewrite truthy_js_or; [done|]. cbn. by apply bool_decide_eq_true. }
  destruct (strict_eq (JStr i) (id_of (unsavedQueryEditor s))); cbn [spread_if] in *.
  - destruct (decide (k ∈ akeys (unsavedQueryEditor s))) as [Hin|Hin].
    + assert (ofield k (kept (unsavedQueryEditor s)) = json_copy (ofield k (unsavedQueryEditor s))) as Hkv
        by by rewrite ofield_kept, decide_True.
      assert (k ∈ akeys (kept (unsavedQueryEditor s))) as Hink.
      { apply ofield_in_keys. rewrite Hkv. intros Hun%json_copy_undefined. apply Hdef.
        apply aget_is_Some in Hin as [v Hv]. unfold ofield in Hun. rewrite Hv in Hun. simpl in Hun. by subst. }
      by rewrite !decide_True.
    + assert (k ∉ akeys (kept (unsavedQueryEditor s))) as Hnin by (intros Hink; by apply kept_keys in Hink as [? _]).
      rewrite !(decide_False (P := k ∈ akeys (kept (unsavedQueryEditor s)))) by done. by apply Hbase.
  - rewrite !(decide_False (P := k ∈ akeys [])) by apply not_elem_of_nil. by apply Hbase, not_elem_of_nil.
Qed.
End reload.

(** C24. Reloading the page loses nothing the user sees in SQL Lab, when the state
    is kept by the browser: the state at the start is well-formed, with the same
    editors and the same active tab, and each field of an editor that is stored
    has the value the user saw, the edits that were not saved included.  The
    exceptions are edits that set a field to undefined, after which the old value
    comes back, and names that are empty. *)
Theorem reload_keeps_editors `{Lodash} t nanoid now conf dbs qs time s
    (Hs : editors_ok s) (Hmisc : NoDup (akeys (misc s))) (Hdestroyed : not_destroyed s) :
  ∃ r removed,
    getInitialState t nanoid now conf JUndef [] dbs qs (Some (stored_item time s)) = Ok (r, removed) ∧
    editors_ok r ∧ ids r ≡ₚ ids s ∧ active_tab r = active_tab s ∧
    ∀ i k, JStr i ∈ ids s → k ∈ PERSISTENT_QUERY_EDITOR_KEYS →
      aget k (unsavedQueryEditor s) ≠ Some JUndef →
      (k = "name" → ∃ n, ofield k (view s i) = JStr n ∧ n ≠ EmptyString) →
      ofield k (view r i) = json_copy (ofield k (view s i)).
Proof.
  destruct (getInitialState_reloaded t nanoid now conf dbs qs time s Hs Hmisc Hdestroyed)
    as (r & removed & Hinit & Hr).
  exists r, removed. split; [done|]. split; [by apply (reloaded_ok s)|]. split; [by apply reloaded_ids|].
  split.
  - unfold active_tab. by destruct (history_dedupe s r Hs Hr) as [_ ->].
  - intros i k. by apply reloaded_view.
Qed.

Lemma reload_keeps_editors_witness :
  ∃ r removed,
    getInitialState id (λ _, "n") (num_of_Z 5) [] JUndef [] [] [] (Some (stored_item (num_of_Z 4) sample_lab))
      = Ok (r, removed) ∧
    editors_ok r ∧ ids r ≡ₚ ids sample_lab ∧ active_tab r = active_tab sample_lab ∧
    ofield "name" (view r "A") = JStr "Renamed".
Proof.
  destruct (reload_keeps_editors id (λ _, "n") (num_of_Z 5) [] [] [] (num_of_Z 4) sample_lab)
    as (r & removed & H1 & H2 & H3 & H4 & H5).
  - exact sample_lab_ok.
  - apply NoDup_nil_2.
  - intros i _. apply not_elem_of_nil.
  - exists r, removed. split; [exact H1|]. split; [exact H2|]. split; [exact H3|]. split; [exact H4|].
    rewrite (H5 "A" "name"); [vm_compute; reflexivity|left|solve_decided|discriminate|].
    intros _. exists "Renamed". split; [vm_compute; reflexivity|discriminate].
Defined.
