(* ===== verification/Colors.v ===== *)
(** * Colours of labels

    [core/color]: the scale that gives each label of a chart a colour
    ([CategoricalColorScale]), the map of labels that all charts of a dashboard
    share ([LabelsColorMap]) and the namespaces with their custom colours.

    The ordinal scale of d3-scale and the analogous colours of tinycolor2 are
    given by interfaces.  A JavaScript [Map] is a list of entries in the order
    of insertion.  The object of custom colours is shared between a namespace
    and the scales it makes: objects live in a heap and are referred to by
    their position. *)

From Stdlib Require Import Ascii String.
From stdpp Require Import base strings option numbers list.
From S2P Require Import Prelude JsObject JsNumber JsValue.

(** ** The libraries *)

(** [scaleOrdinal] of d3-scale with an implicit domain. *)
Class OrdinalScale := {
  ordinal : Type;
  scaleOrdinal : ordinal;
  sc_domain : ordinal → list string;
  sc_range : ordinal → list string;
  set_range : list string → ordinal → ordinal;
  set_domain : list string → ordinal → ordinal;
  (** [scale(value)], [undefined] for an empty range *)
  scale_call : string → ordinal → option string * ordinal;
  scaleOrdinal_domain : sc_domain scaleOrdinal = [];
  set_range_range : ∀ r s, sc_range (set_range r s) = r;
  set_range_domain : ∀ r s, sc_domain (set_range r s) = sc_domain s;
  set_domain_range : ∀ d s, sc_range (set_domain d s) = sc_range s;
  set_domain_domain : ∀ d s, NoDup d → sc_domain (set_domain d s) = d;
  (** The value at place [i] of the domain has the colour at place [i] of the
      range, which is repeated. *)
  scale_call_known : ∀ v s i, NoDup (sc_domain s) → sc_domain s !! i = Some v →
    scale_call v s = (sc_range s !! (i mod length (sc_range s)), s);
  scale_call_new : ∀ v s, v ∉ sc_domain s →
    (scale_call v s).1 = sc_range s !! (length (sc_domain s) mod length (sc_range s)) ∧
    sc_domain (scale_call v s).2 = sc_domain s ++ [v] ∧
    sc_range (scale_call v s).2 = sc_range s;
}.

(** [tinycolor(color).analogous(results)] as hexadecimal strings. *)
Class TinyColor := {
  analogous : string → nat → list string;
  analogous_length : ∀ color n, n ≠ 0 → length (analogous color n) = n;
}.

Record flags := {
  UseAnalogousColors : bool;
  AvoidColorsCollision : bool;
}.

(** ** Maps with numbers as keys *)

Section zmaps.
Context {V : Type}.

Fixpoint zget (k : Z) (m : list (Z * V)) : option V :=
  match m with
  | [] => None
  | (k', v) :: m => if decide (k = k') then Some v else zget k m
  end.

Fixpoint zset (k : Z) (v : V) (m : list (Z * V)) : list (Z * V) :=
  match m with
  | [] => [(k, v)]
  | (k', v') :: m => if decide (k = k') then (k', v) :: m else (k', v') :: zset k v m
  end.

Definition zdel (k : Z) (m : list (Z * V)) : list (Z * V) := filter (λ kv, kv.1 ≠ k) m.
End zmaps.

(** ** The shared map of labels *)

(** @source core/color/LabelsColorMapSingleton.ts 23-26 LabelsColorMapSource *)
Inductive LabelsColorMapSource := Dashboard | Explore.

#[export] Instance LabelsColorMapSource_eq_dec : EqDecision LabelsColorMapSource.
Proof. solve_decision. Defined.

(** @source core/color/LabelsColorMapSingleton.ts 29-32 chartsLabelsMap *)
Record chart_labels := {
  cl_labels : list string;
  cl_scheme : option string;
  cl_ownScheme : option string;
}.

(** @source core/color/LabelsColorMapSingleton.ts 28-43 LabelsColorMap *)
Record LabelsColorMap := {
  chartsLabelsMap : list (Z * chart_labels);
  colorMap : list (string * option string);
  source : LabelsColorMapSource;
}.

Definition with_charts (charts : list (Z * chart_labels)) (m : LabelsColorMap) : LabelsColorMap :=
  {| chartsLabelsMap := charts; colorMap := colorMap m; source := source m |}.

Definition with_colors (colors : list (string * option string)) (m : LabelsColorMap) : LabelsColorMap :=
  {| chartsLabelsMap := chartsLabelsMap m; colorMap := colors; source := source m |}.

(** @source core/color/LabelsColorMapSingleton.ts 38-43 constructor *)
Definition new_LabelsColorMap : LabelsColorMap :=
  {| chartsLabelsMap := []; colorMap := []; source := Dashboard |}.

(** @source core/color/LabelsColorMapSingleton.ts 102-106 addSlice (default) *)
Definition no_labels : chart_labels := {| cl_labels := []; cl_scheme := None; cl_ownScheme := None |}.

(** @source core/color/LabelsColorMapSingleton.ts 96-120 addSlice *)
Definition addSlice (label : string) (color : option string) (sliceId : Z)
    (colorScheme : option string) (m : LabelsColorMap) : LabelsColorMap :=
  let chartConfig := default no_labels (zget sliceId (chartsLabelsMap m)) in
  let m :=
    if bool_decide (label ∈ cl_labels chartConfig) then m
    else
      with_charts
        (zset sliceId {| cl_labels := cl_labels chartConfig ++ [label]; cl_scheme := colorScheme;
                         cl_ownScheme := cl_ownScheme chartConfig |} (chartsLabelsMap m)) m in
  if bool_decide (source m = Dashboard) then with_colors (aset label color (colorMap m)) m else m.

(** @source core/color/LabelsColorMapSingleton.ts 128-136 setOwnColorScheme *)
Definition setOwnColorScheme (sliceId : Z) (ownScheme : string) (m : LabelsColorMap) : LabelsColorMap :=
  match zget sliceId (chartsLabelsMap m) with
  | Some c =>
      with_charts
        (zset sliceId {| cl_labels := cl_labels c; cl_scheme := cl_scheme c;
                         cl_ownScheme := Some ownScheme |} (chartsLabelsMap m)) m
  | None => m
  end.

(** The colours of the labels of the charts, in order.

    @source core/color/LabelsColorMapSingleton.ts 147-154 removeSlice (colours) *)
Definition colors_of (charts : list (Z * chart_labels)) (colors : list (string * option string))
    : list (string * option string) :=
  foldl (λ new chart,
    foldl (λ new label, aset label (default None (aget label colors)) new) new (cl_labels chart.2))
    [] charts.

(** @source core/color/LabelsColorMapSingleton.ts 143-156 removeSlice *)
Definition removeSlice (sliceId : Z) (m : LabelsColorMap) : LabelsColorMap :=
  if bool_decide (source m ≠ Dashboard) then m
  else
    let charts := zdel sliceId (chartsLabelsMap m) in
    with_colors (colors_of charts (colorMap m)) (with_charts charts m).

(** @source core/color/LabelsColorMapSingleton.ts 161-163 clear *)
Definition clear (m : LabelsColorMap) : LabelsColorMap := with_colors [] m.

(** @source core/color/LabelsColorMapSingleton.ts 168-171 reset *)
Definition reset (m : LabelsColorMap) : LabelsColorMap := with_charts [] (clear m).

(** ** Custom colours *)

(** A custom colour is given by itself or by its place in the scheme. *)
Inductive forced_color :=
| FColor (color : option string)
| FIndex (index : Z).

Abbreviation forced := (list (string * forced_color)).

(** [obj[k] || undefined] for the colour itself *)
Definition forced_get (label : string) (o : forced) : option string :=
  match aget label o with
  | Some (FColor (Some c)) => if bool_decide (c = EmptyString) then None else Some c
  | _ => None
  end.

(** @source core/color/stringifyAndTrim.ts 24-26 stringifyAndTrim *)
Definition stringifyAndTrim (value : jsval) : string := trim (to_string value).

Section scales.
Context `{OrdinalScale, TinyColor} (enabled : flags).

(** One round of the loop takes the first colour of every column.

    @source core/color/utils.ts 67-73 getAnalogousColors (loop) *)
Fixpoint interleave (fuel : nat) (columns : list (list string)) : list string :=
  match fuel with
  | 0 => []
  | S fuel => omap head columns ++ interleave fuel (tail <$> columns)
  end.

(** The columns have the same length, so that the loop ends when the last one
    is empty and no column is shorter.

    @source core/color/utils.ts 56-76 getAnalogousColors *)
Definition getAnalogousColors (colors : list string) (results : nat) : list string :=
  let ext := 3 in
  let analogousColors := (λ color, drop ext (analogous color (results + ext))) <$> colors in
  interleave (length (default [] (last analogousColors))) analogousColors.

(** @source core/color/CategoricalColorScale.ts 38-51 CategoricalColorScale *)
Record CategoricalColorScale := {
  originColors : list string;
  colors : list string;
  scale : ordinal;
  forcedColors : nat;
  chartLabelsColorMap : list (string * option string);
  multiple : nat;
}.

Definition with_scale (s : ordinal) (c : CategoricalColorScale) : CategoricalColorScale :=
  {| originColors := originColors c; colors := colors c; scale := s; forcedColors := forcedColors c;
     chartLabelsColorMap := chartLabelsColorMap c; multiple := multiple c |}.

Definition with_chart_labels (m : list (string * option string)) (c : CategoricalColorScale)
    : CategoricalColorScale :=
  {| originColors := originColors c; colors := colors c; scale := scale c;
     forcedColors := forcedColors c; chartLabelsColorMap := m; multiple := multiple c |}.

(** A reserved place becomes the colour at that place.

    @source core/color/CategoricalColorScale.ts 82-88 constructor (forced colours) *)
Definition resolve_forced (range : list string) (o : forced) : forced :=
  prod_map id (λ f, match f with
    | FIndex i =>
        FColor (if bool_decide (range = []) then None
                else let i := Z.rem i (Z.of_nat (length range)) in
                     if (i <? 0)%Z then None else range !! Z.to_nat i)
    | FColor c => FColor c
    end) <$> o.

(** The object at a place of the heap. *)
Definition object_at (loc : nat) (heap : list forced) : forced := default [] (heap !! loc).

(** @source core/color/CategoricalColorScale.ts 60-93 constructor *)
Definition new_CategoricalColorScale (range : list string) (forcedLoc : nat) (heap : list forced)
    : CategoricalColorScale * list forced :=
  ({| originColors := range; colors := range; scale := set_range range scaleOrdinal;
      forcedColors := forcedLoc; chartLabelsColorMap := []; multiple := 0 |},
   <[forcedLoc := resolve_forced range (object_at forcedLoc heap)]> heap).

(** @source core/color/CategoricalColorScale.ts 343-351 range *)
Definition scale_range (newRange : list string) (c : CategoricalColorScale) : CategoricalColorScale :=
  {| originColors := originColors c; colors := newRange; scale := set_range newRange (scale c);
     forcedColors := forcedColors c; chartLabelsColorMap := chartLabelsColorMap c;
     multiple := multiple c |}.

(** An empty scheme divides by zero: the quotient is not a number for an empty
    domain and infinite otherwise, and the range stays empty.

    @source core/color/CategoricalColorScale.ts 98-112 incrementColorRange *)
Definition incrementColorRange (c : CategoricalColorScale) : CategoricalColorScale :=
  let multiple' := length (sc_domain (scale c)) / length (originColors c) in
  if bool_decide (originColors c = []) then c
  else if multiple c <? multiple' then
    let newRange := getAnalogousColors (originColors c) multiple' in
    let c := scale_range (originColors c ++ newRange) c in
    {| originColors := originColors c; colors := colors c; scale := scale c;
       forcedColors := forcedColors c; chartLabelsColorMap := chartLabelsColorMap c;
       multiple := multiple' |}
  else c.

(** @source core/color/CategoricalColorScale.ts 189-193 getColorUsageCount *)
Definition getColorUsageCount (color : option string) (c : CategoricalColorScale) : nat :=
  length (filter (λ v, v = color) (avalues (chartLabelsColorMap c))).

(** @source core/color/CategoricalColorScale.ts 178-180 isColorUsed *)
Definition isColorUsed (color : option string) (c : CategoricalColorScale) : bool :=
  0 <? getColorUsageCount color c.

Fixpoint index_of (x : string) (l : list string) : option nat :=
  match l with
  | [] => None
  | y :: l => if bool_decide (x = y) then Some 0 else S <$> index_of x l
  end.

(** A label that is not in the list has the place -1, which has a next label.

    @source core/color/CategoricalColorScale.ts 214-232 getAdjacentLabelsColors *)
Definition getAdjacentLabelsColors (currentLabel : string) (c : CategoricalColorScale) : list string :=
  let orderedLabels := akeys (chartLabelsColorMap c) in
  let color_at label :=
    match label with
    | Some l => if bool_decide (l = EmptyString) then None else default None (aget l (chartLabelsColorMap c))
    | None => None
    end in
  let '(previousLabel, nextLabel) :=
    match index_of currentLabel orderedLabels with
    | Some i => (match i with 0 => None | S i => orderedLabels !! i end, orderedLabels !! S i)
    | None => (None, orderedLabels !! 0)
    end in
  omap (λ color, match color with
    | Some s => if bool_decide (s = EmptyString) then None else Some s
    | None => None
    end) [color_at previousLabel; color_at nextLabel].

(** @source core/color/CategoricalColorScale.ts 237-242 calculateScore *)
Definition calculateScore (adjacentColors : list string) (c : CategoricalColorScale)
    (color : option string) : nat :=
  let usageCount :=
    match color with
    | Some s => if bool_decide (s ∈ colors c) then getColorUsageCount color c else 0
    | None => 0
    end in
  let adjacencyPenalty :=
    match color with
    | Some s => if bool_decide (s ∈ adjacentColors) then 100 else 0
    | None => 0
    end in
  usageCount + adjacencyPenalty.

(** @source core/color/CategoricalColorScale.ts 203-259 getNextAvailableColor *)
Definition getNextAvailableColor (currentLabel : string) (currentColor : option string)
    (c : CategoricalColorScale) : option string :=
  let adjacentColors := getAdjacentLabelsColors currentLabel c in
  let score := calculateScore adjacentColors c in
  let best :=
    foldl (λ bestColor color,
      if score color <? score bestColor then color else bestColor)
      currentColor (filter (λ color, color ≠ currentColor) (Some <$> colors c)) in
  match List.find (λ color, getColorUsageCount (Some color) c =? 0) (colors c) with
  | Some unusedColor => if bool_decide (unusedColor = EmptyString) then best else Some unusedColor
  | None => best
  end.

(** The state that scales share: the custom colours and the map of labels. *)
Record shared := {
  heap : list forced;
  labels : LabelsColorMap;
}.

(** The label map that a scale reads.

    @source core/color/CategoricalColorScale.ts 130-134 getColor (map) *)
Definition current_map (c : CategoricalColorScale) (st : shared) : list (string * option string) :=
  match source (labels st) with
  | Dashboard => colorMap (labels st)
  | Explore => chartLabelsColorMap c
  end.

(** The custom colour, the colour that is recorded, or one of the scale.

    @source core/color/CategoricalColorScale.ts 129-155 getColor (colour) *)
Definition pick_color (cleanedValue : string) (c : CategoricalColorScale) (st : shared)
    : option string * CategoricalColorScale :=
  let currentColorMap := current_map c st in
  match forced_get cleanedValue (object_at (forcedColors c) (heap st)) with
  | Some forcedColor => (Some forcedColor, c)
  | None =>
      if ahas cleanedValue currentColorMap then (default None (aget cleanedValue currentColorMap), c)
      else
        let '(color, s) := scale_call cleanedValue (scale c) in
        let c := with_scale s c in
        let c := if UseAnalogousColors enabled then incrementColorRange c else c in
        if AvoidColorsCollision enabled && isColorUsed color c
        then (getNextAvailableColor cleanedValue color c, c) else (color, c)
  end.

(** @source core/color/CategoricalColorScale.ts 160-168 getColor (record) *)
Definition record_slice (label : string) (color : option string) (sliceId : option Z)
    (appliedColorScheme : option string) (st : shared) : shared :=
  match sliceId with
  | Some id =>
      if (id =? 0)%Z then st
      else {| heap := heap st; labels := addSlice label color id appliedColorScheme (labels st) |}
  | None => st
  end.

(** @source core/color/CategoricalColorScale.ts 122-170 getColor *)
Definition getColor (value : jsval) (sliceId : option Z) (appliedColorScheme : option string)
    (c : CategoricalColorScale) (st : shared) : option string * CategoricalColorScale * shared :=
  let cleanedValue := stringifyAndTrim value in
  let '(color, c) := pick_color cleanedValue c st in
  let c := with_chart_labels (aset cleanedValue color (chartLabelsColorMap c)) c in
  (color, c, record_slice cleanedValue color sliceId appliedColorScheme st).

(** @source core/color/CategoricalColorScale.ts 269-272 setColor *)
Definition scale_setColor (value : jsval) (forcedColor : string) (c : CategoricalColorScale)
    (st : shared) : shared :=
  let o := object_at (forcedColors c) (heap st) in
  {| heap := <[forcedColors c := oset (stringifyAndTrim value) (FColor (Some forcedColor)) o]> (heap st);
     labels := labels st |}.

(** @source core/color/CategoricalColorScale.ts 279-289 getColorMap *)
Definition scale_getColorMap (c : CategoricalColorScale) (st : shared) : forced :=
  ospread
    (foldl (λ m value, oset value (FColor (scale_call value (scale c)).1) m) [] (sc_domain (scale c)))
    (object_at (forcedColors c) (heap st)).

(** The copy gets an object of its own at the end of the heap.

    @source core/color/CategoricalColorScale.ts 297-306 copy *)
Definition copy (c : CategoricalColorScale) (st : shared) : CategoricalColorScale * shared :=
  let '(c', heap') := new_CategoricalColorScale (sc_range (scale c)) (forcedColors c) (heap st) in
  let own := object_at (forcedColors c) heap' in
  ({| originColors := originColors c'; colors := colors c';
      scale := set_domain (sc_domain (scale c)) (scale c'); forcedColors := length heap';
      chartLabelsColorMap := chartLabelsColorMap c'; multiple := multiple c' |},
   {| heap := heap' ++ [own]; labels := labels st |}).

(** ** Namespaces *)

(** The registry of colour schemes and its default key. *)
Record schemes := {
  sch_items : list (string * list string);
  sch_default : option string;
}.

(** @source core/color/ColorSchemeRegistry.ts 31-42 get *)
Definition scheme_get (key : string) (reg : schemes) : option (list string) :=
  let target := if bool_decide (key = EmptyString) then None else aget key (sch_items reg) in
  match target with
  | Some colors => Some colors
  | None =>
      match sch_default reg with
      | Some defaultKey => if bool_decide (defaultKey = EmptyString) then None else aget defaultKey (sch_items reg)
      | None => None
      end
  end.

(** @source core/color/CategoricalColorNamespace.ts 26-39 CategoricalColorNamespace *)
Record CategoricalColorNamespace := {
  ns_name : string;
  forcedItems : nat;
}.

(** @source core/color/CategoricalColorNamespace.ts 35-39 constructor *)
Definition new_namespace (name : string) (st : shared) : CategoricalColorNamespace * shared :=
  ({| ns_name := name; forcedItems := length (heap st) |},
   {| heap := heap st ++ [[]]; labels := labels st |}).

(** @source core/color/CategoricalColorNamespace.ts 47-56 getScale *)
Definition ns_getScale (reg : schemes) (colorScheme : option string) (ns : CategoricalColorNamespace)
    (st : shared) : CategoricalColorScale * shared :=
  let id := match colorScheme with
            | Some s => s
            | None => default EmptyString (sch_default reg)
            end in
  let '(c, heap') :=
    new_CategoricalColorScale (default [] (scheme_get id reg)) (forcedItems ns) (heap st) in
  (c, {| heap := heap'; labels := labels st |}).

(** @source core/color/CategoricalColorNamespace.ts 65-69 setColor *)
Definition ns_setColor (value : jsval) (forcedColor : string) (ns : CategoricalColorNamespace)
    (st : shared) : shared :=
  let o := object_at (forcedItems ns) (heap st) in
  {| heap := <[forcedItems ns := oset (stringifyAndTrim value) (FColor (Some forcedColor)) o]> (heap st);
     labels := labels st |}.

(** The namespace gets a new object; scales made before keep the old one.

    @source core/color/CategoricalColorNamespace.ts 71-73 resetColors *)
Definition ns_resetColors (ns : CategoricalColorNamespace) (st : shared)
    : CategoricalColorNamespace * shared :=
  ({| ns_name := ns_name ns; forcedItems := length (heap st) |},
   {| heap := heap st ++ [[]]; labels := labels st |}).

(** @source core/color/CategoricalColorNamespace.ts 75-84 resetColorsForLabels *)
Definition ns_resetColorsForLabels (ls : list string) (ns : CategoricalColorNamespace) (st : shared)
    : CategoricalColorNamespace * shared :=
  let updated := foldl (λ o label, adel label o) (object_at (forcedItems ns) (heap st)) ls in
  ({| ns_name := ns_name ns; forcedItems := length (heap st) |},
   {| heap := heap st ++ [updated]; labels := labels st |}).

(** The labels of one chart get the colours of a new scale.

    @source core/color/LabelsColorMapSingleton.ts 62-78 updateColorMap (chart) *)
Definition update_chart (reg : schemes) (ns : CategoricalColorNamespace) (colorScheme : option string)
    (merge : bool) (st : shared) (chart : Z * chart_labels) : shared :=
  let '(sliceId, chartConfig) := chart in
  let appliedColorScheme :=
    match colorScheme with
    | Some s => if bool_decide (s = EmptyString) then cl_ownScheme chartConfig else Some s
    | None => cl_ownScheme chartConfig
    end in
  let '(colorScale, st) := ns_getScale reg appliedColorScheme ns st in
  (foldl (λ acc label,
     let '(colorScale, st) := acc in
     if negb merge || negb (ahas label (colorMap (labels st))) then
       let '(newColor, colorScale, st) :=
         getColor (JStr label) (Some sliceId) appliedColorScheme colorScale st in
       (colorScale,
        {| heap := heap st;
           labels := with_colors (aset label newColor (colorMap (labels st))) (labels st) |})
     else (colorScale, st)) (colorScale, st) (cl_labels chartConfig)).2.

(** @source core/color/LabelsColorMapSingleton.ts 51-80 updateColorMap *)
Definition updateColorMap (reg : schemes) (ns : CategoricalColorNamespace) (colorScheme : option string)
    (merge : bool) (st : shared) : shared :=
  let st := if merge then st else {| heap := heap st; labels := clear (labels st) |} in
  foldl (update_chart reg ns colorScheme merge) st (chartsLabelsMap (labels st)).
End scales.
