(* ===== verification/ColorsFacts.v ===== *)
(** * Facts on the colours of labels

    In the chart editor the labels of a chart have distinct colours while there
    are enough of them; a forced colour is taken as it is; on a dashboard a label
    keeps the colour it has elsewhere.  At the end a reference instance of the third-party scale, the ordinal scale
    with its domain and range as lists, and of analogous colours as numbered
    variants, with samples and the theorems at small schemes. *)

From Stdlib Require Import Ascii String.
From stdpp Require Import base strings option numbers list sets.
From S2P Require Import Prelude JsObject JsNumber JsValue Colors.

(** ** Analogous colours *)

Lemma interleave_lookup n columns i j col :
  (∀ l, l ∈ columns → length l = n) → columns !! i = Some col → j < n →
  interleave n columns !! (i + j * length columns) = col !! j.
Proof.
  revert columns j col. induction n as [|n IH]; intros columns j col Hlen Hcol Hj; [lia|].
  cbn [interleave].
  assert (length (omap head columns) = length columns ∧ ∀ i c, columns !! i = Some c → omap head columns !! i = head c)
    as [Hl Hh].
  { clear IH Hcol Hj. induction columns as [|c cs IHc]; [done|].
    destruct c as [|x c]; [by specialize (Hlen [] (list_elem_of_here _ _))|].
    destruct IHc as [Hl Hh]; [intros l Hl; apply Hlen; by right|]. cbn. split; [by rewrite Hl|].
    intros [|i'] c' Hc'; cbn in *; [by injection Hc' as <-|by apply Hh]. }
  assert (i < length columns) as Hi by by eapply lookup_lt_Some.
  destruct j as [|j].
  - rewrite Nat.mul_0_l, Nat.add_0_r, lookup_app_l by lia. rewrite (Hh i col Hcol). by destruct col.
  - rewrite lookup_app_r by lia. rewrite Hl.
    replace (i + S j * length columns - length columns) with (i + j * length (tail <$> columns))
      by (rewrite length_fmap; lia).
    rewrite (IH (tail <$> columns) j (tail col)); [by destruct col| |by rewrite list_lookup_fmap, Hcol|lia].
    intros l (c & -> & Hc)%list_elem_of_fmap. apply Hlen in Hc. destruct c; cbn in *; lia.
Qed.

Lemma length_interleave n columns :
  (∀ l, l ∈ columns → length l = n) → length (interleave n columns) = n * length columns.
Proof.
  revert columns. induction n as [|n IH]; intros columns Hlen; [done|]. cbn [interleave].
  rewrite length_app, IH.
  - rewrite length_fmap. assert (length (omap head columns) = length columns) as ->; [|lia].
    clear IH. induction columns as [|c cs IHc]; [done|].
    destruct c as [|x c]; [by specialize (Hlen [] (list_elem_of_here _ _))|]. cbn. f_equal.
    apply IHc. intros l Hl. apply Hlen. by right.
  - intros l (c & -> & Hc)%list_elem_of_fmap. apply Hlen in Hc. destruct c; cbn in *; lia.
Qed.

(** Extending a scheme: with [n] analogous colours for each colour, all
    first analogous colours follow in the order of the scheme, then all second
    ones, and so on; the very close first three of each are left out. *)
Theorem getAnalogousColors_order `{TinyColor} cs n :
  length (getAnalogousColors cs n) = n * length cs ∧
  ∀ i j color, cs !! i = Some color → j < n →
    getAnalogousColors cs n !! (i + j * length cs) = analogous color (n + 3) !! (3 + j).
Proof.
  unfold getAnalogousColors. set (columns := _ <$> cs).
  assert (∀ l, l ∈ columns → length l = n) as Hlen.
  { intros l (c & -> & _)%list_elem_of_fmap. rewrite length_drop, analogous_length; lia. }
  destruct (decide (cs = [])) as [->|Hne]; [split; [cbn; lia|done]|].
  assert (length (default [] (last columns)) = n) as ->.
  { destruct (last columns) as [l|] eqn:E.
    - apply Hlen. apply last_Some in E as [l' ->]. set_solver.
    - apply last_None in E. by destruct cs. }
  assert (length columns = length cs) as Hcol by apply length_fmap.
  split; [by rewrite length_interleave, Hcol|]. intros i j color Hi Hj.
  rewrite <- Hcol, (interleave_lookup n columns i j (drop 3 (analogous color (n + 3)))); [|done| |done].
  - by rewrite lookup_drop.
  - unfold columns. by rewrite list_lookup_fmap, Hi.
Qed.

Section colors.
Context `{OrdinalScale, TinyColor}.
Implicit Types (c : CategoricalColorScale) (st : shared).

Definition forced_of (label : string) c st : option string :=
  forced_get label (object_at (forcedColors c) (heap st)).

(** A call that records the colour where the next call looks for it. *)
Definition recorded (sliceId : option Z) st : Prop :=
  source (labels st) = Explore ∨ ∃ id, sliceId = Some id ∧ id ≠ 0%Z.

Lemma colorMap_addSlice label color id scheme m :
  colorMap (addSlice label color id scheme m) =
  if decide (source m = Dashboard) then aset label color (colorMap m) else colorMap m.
Proof.
  unfold addSlice. by destruct (bool_decide (label ∈ _)); case_bool_decide; case_decide.
Qed.

Lemma source_addSlice label color id scheme m : source (addSlice label color id scheme m) = source m.
Proof. unfold addSlice. by destruct (bool_decide (label ∈ _)); case_bool_decide. Qed.

Lemma with_scale_fields s c :
  forcedColors (with_scale s c) = forcedColors c ∧
  chartLabelsColorMap (with_scale s c) = chartLabelsColorMap c.
Proof. done. Qed.

Lemma incrementColorRange_fields c :
  forcedColors (incrementColorRange c) = forcedColors c ∧
  chartLabelsColorMap (incrementColorRange c) = chartLabelsColorMap c.
Proof. unfold incrementColorRange. case_bool_decide; [done|]. by destruct (_ <? _). Qed.

Lemma pick_color_fields enabled label c st color c' :
  pick_color enabled label c st = (color, c') →
  forcedColors c' = forcedColors c ∧ chartLabelsColorMap c' = chartLabelsColorMap c ∧
  (∀ f, forced_of label c st = Some f → color = Some f).
Proof.
  unfold pick_color, forced_of. destruct (forced_get _ _) as [f|]; [naive_solver|].
  destruct (ahas _ _); [naive_solver|]. destruct (scale_call label (scale c)) as [col s].
  set (c1 := with_scale s c).
  assert (forcedColors (if UseAnalogousColors enabled then incrementColorRange c1 else c1) = forcedColors c ∧
    chartLabelsColorMap (if UseAnalogousColors enabled then incrementColorRange c1 else c1)
      = chartLabelsColorMap c) as [? ?].
  { destruct (UseAnalogousColors enabled); [|done]. exact (incrementColorRange_fields c1). }
  destruct (_ && _); intros [= <- <-]; done.
Qed.

(** What a call leaves behind. *)
Lemma getColor_effect enabled v sliceId scheme c st color c' st' :
  getColor enabled v sliceId scheme c st = (color, c', st') →
  let label := stringifyAndTrim v in
  forcedColors c' = forcedColors c ∧ heap st' = heap st ∧
  source (labels st') = source (labels st) ∧
  chartLabelsColorMap c' = aset label color (chartLabelsColorMap c) ∧
  (recorded sliceId st → aget label (current_map c' st') = Some color) ∧
  (∀ f, forced_of label c st = Some f → color = Some f).
Proof.
  intros Hg label. unfold getColor in Hg. fold label in Hg.
  destruct (pick_color enabled label c st) as [col c1] eqn:Hp.
  destruct (pick_color_fields _ _ _ _ _ _ Hp) as (Hf & Hm & Hforced).
  injection Hg as <- <- <-.
  cbn [with_chart_labels forcedColors chartLabelsColorMap]. rewrite Hf, Hm.
  set (st1 := record_slice label col sliceId scheme st).
  assert (heap st1 = heap st ∧ source (labels st1) = source (labels st)) as [Hh Hs].
  { unfold st1, record_slice. destruct sliceId as [id|]; [|done]. destruct (id =? 0)%Z; [done|].
    split; [done|]. cbn [labels]. apply source_addSlice. }
  split; [done|]. split; [done|]. split; [done|]. split; [done|]. split; [|done].
  intros Hrec. unfold current_map. rewrite Hs. destruct (source (labels st)) eqn:Es.
  - destruct Hrec as [?|(id & -> & Hid)]; [congruence|]. unfold st1, record_slice.
    rewrite (proj2 (Z.eqb_neq id 0) Hid). cbn [labels]. rewrite colorMap_addSlice, decide_True by done.
    apply aget_aset_eq.
  - cbn [with_chart_labels chartLabelsColorMap]. apply aget_aset_eq.
Qed.

Lemma getColor_known enabled v sliceId scheme c st color :
  let label := stringifyAndTrim v in
  forced_of label c st = None → aget label (current_map c st) = Some color →
  (getColor enabled v sliceId scheme c st).1.1 = color.
Proof.
  intros label Hf Hm. unfold getColor, pick_color. fold label.
  change (forced_get label (object_at (forcedColors c) (heap st))) with (forced_of label c st).
  rewrite Hf, (proj2 (ahas_spec label (current_map c st))) by (apply aget_is_Some; by eexists).
  by rewrite Hm.
Qed.

Lemma getColor_forced enabled v sliceId scheme c st f :
  forced_of (stringifyAndTrim v) c st = Some f → (getColor enabled v sliceId scheme c st).1.1 = Some f.
Proof.
  intros Hf. destruct (getColor enabled v sliceId scheme c st) as [[color c'] st'] eqn:E.
  destruct (getColor_effect _ _ _ _ _ _ _ _ _ E) as (_ & _ & _ & _ & _ & Hc). by apply Hc.
Qed.

(** The colour of a label is stable: once a call has recorded a label, any
    later call with that label returns the same colour, from the same chart,
    and on a dashboard from every other chart whose custom colours agree. *)
Theorem getColor_stable enabled enabled' v sliceId sliceId' scheme scheme' c st color c' st' c2 :
  getColor enabled v sliceId scheme c st = (color, c', st') →
  recorded sliceId st →
  (source (labels st) = Explore → c2 = c') →
  forced_of (stringifyAndTrim v) c2 st' = forced_of (stringifyAndTrim v) c st →
  (getColor enabled' v sliceId' scheme' c2 st').1.1 = color.
Proof.
  intros Hg Hrec Hc2 Hforced.
  destruct (getColor_effect _ _ _ _ _ _ _ _ _ Hg) as (Hf & Hh & Hs & Hm & Hr & Hc).
  destruct (forced_of (stringifyAndTrim v) c st) as [f|] eqn:E.
  - rewrite (getColor_forced _ _ _ _ _ _ f) by done. by rewrite (Hc f).
  - apply getColor_known; [done|]. rewrite <- (Hr Hrec). unfold current_map. rewrite Hs.
    destruct (source (labels st)); [done|]. by rewrite Hc2.
Qed.

(** ** Distinct colours *)

Lemma avalues_aset_new k (v : option string) m : k ∉ akeys m → avalues (aset k v m) = avalues m ++ [v].
Proof. intros Hk. rewrite aset_fresh by done. unfold avalues. by rewrite fmap_app. Qed.

Lemma aset_same k (v : option string) m : aget k m = Some v → aset k v m = m.
Proof.
  induction m as [|[k' v'] m IH]; [done|]. cbn [aget aset].
  destruct (decide (k = k')) as [->|]; [by intros [= ->]|]. intros Hm. by rewrite IH.
Qed.

Lemma usage_zero color c : getColorUsageCount color c = 0 ↔ color ∉ avalues (chartLabelsColorMap c).
Proof.
  unfold getColorUsageCount. split.
  - intros Hl Hin. apply nil_length_inv in Hl.
    assert (color ∈ filter (λ v, v = color) (avalues (chartLabelsColorMap c))) as Hf
      by by apply list_elem_of_filter. rewrite Hl in Hf. by apply elem_of_nil in Hf.
  - intros Hn. induction (avalues (chartLabelsColorMap c)) as [|v vs IH]; [done|].
    apply not_elem_of_cons in Hn as [Hv Hn]. rewrite filter_cons, decide_False by congruence. by apply IH.
Qed.

(** Fewer labels than colours leave a colour unused. *)
Lemma unused_exists (cs : list string) (vs : list (option string)) :
  NoDup cs → length vs < length cs → ∃ color, color ∈ cs ∧ Some color ∉ vs.
Proof.
  intros Hn Hlt. destruct (decide (Exists (λ color, Some color ∉ vs) cs)) as [He|He].
  - apply Exists_exists in He as (color & ? & ?). by exists color.
  - exfalso. assert (incl (Some <$> cs) vs) as Hincl.
    { intros x Hx. apply list_elem_of_In, list_elem_of_fmap in Hx as (color & -> & Hc).
      apply list_elem_of_In. destruct (decide (Some color ∈ vs)); [done|]. exfalso. apply He.
      apply Exists_exists. by exists color. }
    apply List.NoDup_incl_length in Hincl; [rewrite length_fmap in Hincl; lia|].
    apply NoDup_ListNoDup, NoDup_fmap; [apply _|done].
Qed.

Lemma next_available label color c :
  color ∈ Some <$> colors c →
  getNextAvailableColor label color c ∈ Some <$> colors c ∧
  (NoDup (colors c) → EmptyString ∉ colors c →
   length (chartLabelsColorMap c) < length (colors c) →
   getNextAvailableColor label color c ∉ avalues (chartLabelsColorMap c)).
Proof.
  intros Hcolor. unfold getNextAvailableColor. set (best := foldl _ _ _).
  assert (best ∈ Some <$> colors c) as Hbest.
  { unfold best. clear best.
    assert (∀ xs b, b ∈ Some <$> colors c → (∀ x, x ∈ xs → x ∈ Some <$> colors c) →
      foldl (λ bestColor color, if calculateScore (getAdjacentLabelsColors label c) c color <?
        calculateScore (getAdjacentLabelsColors label c) c bestColor then color else bestColor) b xs
        ∈ Some <$> colors c) as Hfold.
    { induction xs as [|x xs IH]; intros b Hb Hxs; [done|]. cbn [foldl]. apply IH.
      - destruct (_ <? _); [apply Hxs; left|done].
      - intros y Hy. apply Hxs. by right. }
    apply Hfold; [done|]. by intros x [_ Hx]%list_elem_of_filter. }
  destruct (List.find _ (colors c)) as [u|] eqn:Ef.
  - apply find_some in Ef as [Hu Hz]. apply list_elem_of_In in Hu. apply Nat.eqb_eq in Hz.
    case_bool_decide as Eu.
    + split; [done|]. intros _ Hne _. by subst u.
    + split; [apply list_elem_of_fmap; by exists u|]. intros _ _ _. by apply usage_zero.
  - split; [done|]. intros Hn _ Hlt.
    destruct (unused_exists (colors c) (avalues (chartLabelsColorMap c)) Hn) as (u & Hu & Huv).
    { unfold avalues. by rewrite length_fmap. }
    apply list_elem_of_In in Hu. apply (find_none _ _ Ef) in Hu. apply Nat.eqb_neq in Hu.
    by apply usage_zero in Huv.
Qed.

(** A scale of the scheme [cs] whose labels have distinct colours as long as
    there are enough colours. *)
Record scale_ok (cs : list string) c : Prop := {
  so_colors : colors c = cs;
  so_range : sc_range (scale c) = cs;
  so_domain : NoDup (sc_domain (scale c));
  so_keys : NoDup (akeys (chartLabelsColorMap c));
  so_values : ∀ v, v ∈ avalues (chartLabelsColorMap c) → v ∈ Some <$> cs;
  so_distinct : length (chartLabelsColorMap c) ≤ length cs → NoDup (avalues (chartLabelsColorMap c));
}.

Lemma scale_call_ok label (s : ordinal) cs :
  sc_range s = cs → NoDup (sc_domain s) → cs ≠ [] →
  (scale_call label s).1 ∈ Some <$> cs ∧ sc_range (scale_call label s).2 = cs ∧
  NoDup (sc_domain (scale_call label s).2).
Proof.
  intros Hr Hd Hne.
  assert (∀ i, cs !! (i mod length cs) ∈ Some <$> cs) as Hin.
  { intros i. destruct (lookup_lt_is_Some_2 cs (i mod length cs)) as [x Hx].
    - apply Nat.mod_upper_bound. by destruct cs.
    - rewrite Hx. apply list_elem_of_fmap. exists x. split; [done|]. by eapply list_elem_of_lookup_2. }
  destruct (decide (label ∈ sc_domain s)) as [Hl|Hl].
  - apply list_elem_of_lookup in Hl as [i Hi]. rewrite (scale_call_known label s i Hd Hi), Hr. cbn. auto.
  - destruct (scale_call_new label s Hl) as (-> & -> & ->). rewrite Hr. split; [auto|]. split; [done|].
    apply NoDup_app. split; [done|]. split; [set_solver|apply NoDup_singleton].
Qed.

Lemma scale_ok_step enabled cs v sliceId scheme c st :
  NoDup cs → cs ≠ [] → EmptyString ∉ cs →
  AvoidColorsCollision enabled = true → UseAnalogousColors enabled = false →
  source (labels st) = Explore → (∀ label, forced_of label c st = None) → scale_ok cs c →
  scale_ok cs (getColor enabled v sliceId scheme c st).1.2.
Proof.
  intros Hn Hne Hempty Ha Hu Hsrc Hforced [Hc Hr Hd Hk Hv Hdist].
  unfold getColor, pick_color. set (label := stringifyAndTrim v).
  change (forced_get label (object_at (forcedColors c) (heap st))) with (forced_of label c st).
  rewrite Hforced, Ha, Hu. unfold current_map. rewrite Hsrc.
  destruct (ahas label (chartLabelsColorMap c)) eqn:Eh.
  { apply ahas_spec, aget_is_Some in Eh as [x Hx]. rewrite Hx. cbn [default from_option fst snd].
    split; cbn [with_chart_labels colors scale chartLabelsColorMap]; rewrite ?(aset_same label x) by done; done. }
  assert (label ∉ akeys (chartLabelsColorMap c)) as Hnew.
  { intros Hin. apply ahas_spec in Hin. congruence. }
  destruct (scale_call_ok label (scale c) cs Hr Hd Hne) as (Hcol & Hr' & Hd').
  destruct (scale_call label (scale c)) as [color s']. cbn [fst snd] in Hcol, Hr', Hd'. cbn [andb].
  set (c1 := with_scale s' c).
  assert (colors c1 = cs ∧ chartLabelsColorMap c1 = chartLabelsColorMap c) as [Hc1 Hm1] by done.
  assert (∀ x, x ∈ Some <$> cs →
    (length (chartLabelsColorMap c) < length cs → x ∉ avalues (chartLabelsColorMap c)) →
    scale_ok cs (with_chart_labels (aset label x (chartLabelsColorMap c1)) c1)) as Hok.
  { intros x Hx Hfresh. rewrite Hm1. split; cbn [with_chart_labels colors scale chartLabelsColorMap c1 with_scale]; try done.
    - by apply NoDup_akeys_aset.
    - intros y. rewrite avalues_aset_new by done. intros [Hy|Hy]%elem_of_app; [by apply Hv|].
      apply list_elem_of_singleton in Hy. by subst.
    - rewrite avalues_aset_new by done. rewrite aset_fresh, length_app by done. cbn [length]. intros Hlen.
      apply NoDup_app. split; [apply Hdist; lia|]. split; [|apply NoDup_singleton].
      intros y Hy Hin. apply list_elem_of_singleton in Hin as ->. apply Hfresh; [lia|done]. }
  destruct (isColorUsed color c1) eqn:Eu; cbn [fst snd].
  - destruct (next_available label color c1) as [Hin Hfresh]; [by rewrite Hc1|].
    apply Hok; [by rewrite Hc1 in Hin|]. intros Hlt. rewrite Hm1, Hc1 in Hfresh. by apply Hfresh.
  - apply Hok; [done|]. intros _. unfold isColorUsed in Eu. apply Nat.ltb_ge in Eu.
    rewrite <- Hm1. apply usage_zero. lia.
Qed.

(** The labels of a chart, one after the other. *)
Definition paint enabled sliceId scheme (start : CategoricalColorScale * shared) (vs : list jsval)
    : CategoricalColorScale * shared :=
  foldl (λ acc v, let '(_, c, st) := getColor enabled v sliceId scheme acc.1 acc.2 in (c, st)) start vs.

Lemma paint_ok enabled cs sliceId scheme vs c st :
  NoDup cs → cs ≠ [] → EmptyString ∉ cs →
  AvoidColorsCollision enabled = true → UseAnalogousColors enabled = false →
  source (labels st) = Explore → (∀ label, forced_of label c st = None) → scale_ok cs c →
  scale_ok cs (paint enabled sliceId scheme (c, st) vs).1 ∧
  ∀ label, label ∈ akeys (chartLabelsColorMap (paint enabled sliceId scheme (c, st) vs).1) ↔
           label ∈ akeys (chartLabelsColorMap c) ∨ label ∈ stringifyAndTrim <$> vs.
Proof.
  intros Hn Hne He Ha Hu. revert c st. induction vs as [|v vs IH]; intros c st Hs Hf Hok.
  { split; [done|]. set_solver. }
  pose proof (scale_ok_step enabled cs v sliceId scheme c st Hn Hne He Ha Hu Hs Hf Hok) as Hok'.
  unfold paint. cbn [foldl fst snd].
  destruct (getColor enabled v sliceId scheme c st) as [[color c'] st'] eqn:E.
  destruct (getColor_effect _ _ _ _ _ _ _ _ _ E) as (Hf1 & Hh1 & Hs1 & Hm1 & _). cbn [fst snd] in Hok'.
  destruct (IH c' st') as [H1 H2]; [congruence| |done|].
  { intros label. unfold forced_of. rewrite Hf1, Hh1. apply Hf. }
  split; [exact H1|]. intros label. unfold paint in H2. rewrite H2, Hm1, elem_of_akeys_aset.
  cbn [fmap list_fmap]. set_solver.
Qed.

(** C27. Labels of a chart have distinct colours in the chart editor: when
    collisions are avoided and analogous colours are off, a new scale over a
    scheme of distinct colours, none of them empty, for which no colour is
    forced, paints each label of the chart with a colour of the scheme, and as
    long as there are not more labels than colours, no two labels have the same
    colour.  Outside its conditions two labels can have the same colour: on a
    dashboard labels share the colours of other charts, and a forced colour is
    taken as it is. *)
Theorem label_colors_distinct enabled cs vs sliceId scheme loc h m :
  NoDup cs → cs ≠ [] → EmptyString ∉ cs →
  AvoidColorsCollision enabled = true → UseAnalogousColors enabled = false →
  h !! loc = Some [] → source m = Explore →
  let start := new_CategoricalColorScale cs loc h in
  let painted :=
    chartLabelsColorMap
      (paint enabled sliceId scheme (start.1, {| heap := start.2; labels := m |}) vs).1 in
  NoDup (akeys painted) ∧ (∀ label, label ∈ akeys painted ↔ label ∈ stringifyAndTrim <$> vs) ∧
  (∀ color, color ∈ avalues painted → color ∈ Some <$> cs) ∧
  (length painted ≤ length cs → NoDup (avalues painted)).
Proof.
  intros Hn Hne He Ha Hu Hh Hm start painted.
  assert (scale_ok cs start.1) as Hok.
  { split; cbn; try done.
    - apply set_range_range.
    - rewrite set_range_domain, scaleOrdinal_domain. apply NoDup_nil_2.
    - apply NoDup_nil_2.
    - intros v Hv. by apply elem_of_nil in Hv.
    - intros _. apply NoDup_nil_2. }
  assert (∀ label, forced_of label start.1 {| heap := start.2; labels := m |} = None) as Hf.
  { intros label. unfold forced_of. cbn. unfold object_at. rewrite Hh.
    rewrite list_lookup_insert_eq; [done|]. by eapply lookup_lt_Some. }
  destruct (paint_ok enabled cs sliceId scheme vs start.1 {| heap := start.2; labels := m |}
    Hn Hne He Ha Hu Hm Hf Hok) as [[_ _ _ Hk Hv Hd] Hl].
  split; [done|]. split; [|by split]. intros label. unfold painted. rewrite Hl. cbn. set_solver.
Qed.

(** A label without a chart is not stable on a dashboard: the colour of a
    call without the id of a chart is recorded for the collision test but not in
    the map that is read, so that the label collides with itself and a second
    call returns another colour. *)
Theorem getColor_unstable enabled a b rest v scheme c st :
  let label := stringifyAndTrim v in
  AvoidColorsCollision enabled = true → UseAnalogousColors enabled = false →
  source (labels st) = Dashboard → label ∉ akeys (colorMap (labels st)) →
  forced_of label c st = None → a ≠ b → b ≠ EmptyString →
  colors c = a :: b :: rest → sc_range (scale c) = a :: b :: rest → sc_domain (scale c) = [] →
  chartLabelsColorMap c = [] →
  ∃ c1 c2 st2, getColor enabled v None scheme c st = (Some a, c1, st) ∧
               getColor enabled v None scheme c1 st = (Some b, c2, st2).
Proof.
  intros label Ha Hu Hsrc Hnew Hf Hab Hb Hc Hr Hd Hm.
  assert (∀ c, current_map c st = colorMap (labels st)) as Hcur by (intros; unfold current_map; by rewrite Hsrc).
  assert (ahas label (colorMap (labels st)) = false) as Hno.
  { apply not_true_iff_false. intros Hh. by apply ahas_spec in Hh. }
  destruct (scale_call_new label (scale c)) as (Hcall & Hdom & Hrng).
  { rewrite Hd. by apply not_elem_of_nil. }
  rewrite Hr, Hd in Hcall. cbn [length] in Hcall.
  rewrite Nat.Div0.mod_0_l in Hcall. cbn in Hcall. rewrite Hd in Hdom. cbn in Hdom. rewrite Hr in Hrng.
  destruct (scale_call label (scale c)) as [col s'] eqn:Es. cbn [fst snd] in Hcall, Hdom, Hrng. subst col.
  set (c1 := with_chart_labels (aset label (Some a) (chartLabelsColorMap c)) (with_scale s' c)).
  assert (getColor enabled v None scheme c st = (Some a, c1, st)) as H1.
  { unfold getColor, pick_color. fold label.
    change (forced_get label (object_at (forcedColors c) (heap st))) with (forced_of label c st).
    rewrite Hf, Hcur, Hno, Es, Ha, Hu. cbn [andb].
    assert (isColorUsed (Some a) (with_scale s' c) = false) as ->; [|done].
    unfold isColorUsed, getColorUsageCount. cbn. by rewrite Hm. }
  assert (chartLabelsColorMap c1 = [(label, Some a)]) as Hm1 by (unfold c1; cbn; by rewrite Hm).
  assert (scale_call label (scale c1) = (Some a, s')) as Es1.
  { change (scale c1) with s'. rewrite (scale_call_known label s' 0);
      [by rewrite Hrng, Nat.Div0.mod_0_l| |by rewrite Hdom].
    rewrite Hdom. apply NoDup_singleton. }
  eexists c1, _, _. split; [done|]. unfold getColor, pick_color. fold label.
  change (forced_get label (object_at (forcedColors c1) (heap st))) with (forced_of label c st).
  rewrite Hf, Hcur, Hno, Es1, Ha, Hu. cbn [andb]. set (c2 := with_scale s' c1).
  assert (∀ x, getColorUsageCount x c2 = if decide (Some a = x) then 1 else 0) as Hcount.
  { intros x. unfold getColorUsageCount. change (chartLabelsColorMap c2) with (chartLabelsColorMap c1).
    rewrite Hm1. cbn [avalues fmap list_fmap snd]. rewrite filter_cons. by case_decide. }
  assert (isColorUsed (Some a) c2 = true) as ->
    by (unfold isColorUsed; rewrite Hcount; by rewrite decide_True).
  assert (getNextAvailableColor label (Some a) c2 = Some b) as ->; [|reflexivity].
  unfold getNextAvailableColor. change (colors c2) with (colors c). rewrite Hc. cbn [List.find].
  rewrite !Hcount, decide_True, decide_False by congruence. cbn [Nat.eqb].
  by rewrite bool_decide_eq_false_2.
Qed.

(** A colour that is set on one scale is set on all: the scales of a
    namespace share its custom colours, so that a colour enforced for a label on
    one of them is the colour of that label on every other one. *)
Theorem scale_setColor_shared enabled reg reg' sch sch' ns st v color sliceId scheme :
  forcedItems ns < length (heap st) → color ≠ EmptyString →
  let p1 := ns_getScale reg sch ns st in
  let p2 := ns_getScale reg' sch' ns p1.2 in
  (getColor enabled v sliceId scheme p2.1 (scale_setColor v color p1.1 p2.2)).1.1 = Some color.
Proof.
  intros Hloc Hne p1 p2. apply getColor_forced. unfold forced_of, scale_setColor. cbn [heap].
  change (forcedColors p2.1) with (forcedItems ns). change (forcedColors p1.1) with (forcedItems ns).
  unfold object_at at 1. rewrite list_lookup_insert_eq.
  - unfold forced_get. cbn [from_option id]. rewrite aget_oset_eq. by rewrite bool_decide_eq_false_2.
  - unfold p2, ns_getScale. cbn. rewrite length_insert. by rewrite length_insert.
Qed.
End colors.

(** ** Removing a chart *)

Lemma elem_of_zdel {V} k (m : list (Z * V)) p : p ∈ zdel k m ↔ p ∈ m ∧ p.1 ≠ k.
Proof. unfold zdel. rewrite list_elem_of_filter. tauto. Qed.

Definition add_labels (old new : list (string * option string)) (ls : list string)
    : list (string * option string) :=
  foldl (λ new label, aset label (default None (aget label old)) new) new ls.

Lemma add_labels_aget old new ls label :
  aget label (add_labels old new ls) =
  if decide (label ∈ ls) then Some (default None (aget label old)) else aget label new.
Proof.
  unfold add_labels. revert new. induction ls as [|l ls IH]; intros new; cbn [foldl].
  { by rewrite decide_False by apply not_elem_of_nil. }
  rewrite IH, aget_aset. repeat case_decide; subst; set_solver.
Qed.

Lemma colors_of_aget charts old label :
  aget label (colors_of charts old) =
  if decide (Exists (λ p, label ∈ cl_labels p.2) charts)
  then Some (default None (aget label old)) else None.
Proof.
  unfold colors_of.
  assert (∀ new, aget label (foldl (λ new chart, add_labels old new (cl_labels chart.2)) new charts) =
    if decide (Exists (λ p : Z * chart_labels, label ∈ cl_labels p.2) charts)
    then Some (default None (aget label old)) else aget label new) as H; [|apply H].
  induction charts as [|p charts IH]; intros new; cbn [foldl].
  { rewrite decide_False; [done|]. by intros ?%Exists_nil. }
  rewrite IH, add_labels_aget.
  destruct (decide (Exists _ (p :: charts))) as [E|E]; rewrite Exists_cons in E;
    repeat case_decide; tauto.
Qed.

(** Removing a chart from a dashboard: the shared map keeps exactly the
    labels of the charts that are left, each with the colour it had, and outside
    of a dashboard nothing changes. *)
Theorem removeSlice_labels sliceId m :
  (source m = Explore → removeSlice sliceId m = m) ∧
  (source m = Dashboard →
   let r := removeSlice sliceId m in
   chartsLabelsMap r = zdel sliceId (chartsLabelsMap m) ∧
   (∀ label, is_Some (aget label (colorMap r)) ↔
             ∃ id chart, (id, chart) ∈ chartsLabelsMap m ∧ id ≠ sliceId ∧ label ∈ cl_labels chart) ∧
   (∀ label color, aget label (colorMap m) = Some color → is_Some (aget label (colorMap r)) →
                   aget label (colorMap r) = Some color)).
Proof.
  unfold removeSlice. split; [by intros ->|]. intros Hs. rewrite Hs.
  rewrite bool_decide_eq_false_2 by (intros Hn; by apply Hn). cbn zeta. split; [done|].
  cbn [colorMap with_colors].
  assert (∀ label, Exists (λ p, label ∈ cl_labels p.2) (zdel sliceId (chartsLabelsMap m)) ↔
    ∃ id chart, (id, chart) ∈ chartsLabelsMap m ∧ id ≠ sliceId ∧ label ∈ cl_labels chart) as Hex.
  { intros label. rewrite Exists_exists. split.
    - intros ([id chart] & [Hin Hid]%elem_of_zdel & Hl). exists id, chart. auto.
    - intros (id & chart & Hin & Hid & Hl). exists (id, chart). split; [by apply elem_of_zdel|done]. }
  split; intros label.
  - rewrite colors_of_aget, <- Hex. case_decide; [split; [done|by eexists]|].
    split; [by intros [? ?]|done].
  - intros color Hc. rewrite colors_of_aget, Hc. case_decide; [done|]. by intros [? ?].
Qed.

(** ** Reference instances and samples *)

Record ordinal_ref := {
  or_domain : list string;
  or_range : list string;
}.

(** The implicit domain grows by the values it is asked for. *)
Definition ordinal_call (v : string) (s : ordinal_ref) : option string * ordinal_ref :=
  let place i := or_range s !! (i mod length (or_range s)) in
  match index_of v (or_domain s) with
  | Some i => (place i, s)
  | None => (place (length (or_domain s)),
             {| or_domain := or_domain s ++ [v]; or_range := or_range s |})
  end.

Lemma index_of_known v l i : NoDup l → l !! i = Some v → index_of v l = Some i.
Proof.
  revert i. induction l as [|x l IH]; intros i Hn Hi; [done|]. apply NoDup_cons in Hn as [Hx Hn].
  cbn [index_of]. destruct i as [|i]; cbn in Hi.
  - injection Hi as ->. by rewrite bool_decide_eq_true_2.
  - rewrite bool_decide_eq_false_2; [by rewrite (IH i)|]. intros ->. apply Hx.
    by eapply list_elem_of_lookup_2.
Qed.

Lemma index_of_new v l : v ∉ l → index_of v l = None.
Proof.
  induction l as [|x l IH]; intros Hv; [done|]. apply not_elem_of_cons in Hv as [Hx Hv].
  cbn [index_of]. by rewrite bool_decide_eq_false_2, IH.
Qed.

#[refine] Instance ordinal_reference : OrdinalScale := {
  ordinal := ordinal_ref;
  scaleOrdinal := {| or_domain := []; or_range := [] |};
  sc_domain := or_domain;
  sc_range := or_range;
  set_range r s := {| or_domain := or_domain s; or_range := r |};
  set_domain d s := {| or_domain := d; or_range := or_range s |};
  scale_call := ordinal_call;
}.
Proof.
  - reflexivity.
  - reflexivity.
  - reflexivity.
  - reflexivity.
  - reflexivity.
  - intros v s i Hn Hi. unfold ordinal_call. by rewrite (index_of_known v _ i).
  - intros v s Hv. unfold ordinal_call. by rewrite index_of_new.
Defined.

#[refine] Instance tinycolor_reference : TinyColor := {
  analogous color n := (λ i, color +:+ string_of_N (N.of_nat i)) <$> seq 0 n;
}.
Proof. intros color n _. by rewrite length_fmap, length_seq. Defined.

Definition avoiding : flags := {| UseAnalogousColors := false; AvoidColorsCollision := true |}.

Definition sample_scheme : list string := ["red"; "blue"; "green"].

Definition sample_shared (src : LabelsColorMapSource) : shared :=
  {| heap := [[]]; labels := {| chartsLabelsMap := []; colorMap := []; source := src |} |}.

Definition sample_scale : CategoricalColorScale := (new_CategoricalColorScale sample_scheme 0 [[]]).1.

Lemma not_in_text (x : string) (l : list string) : bool_decide (x ∉ l) = true → x ∉ l.
Proof. by intros ?%bool_decide_eq_true. Qed.

Lemma sample_scheme_nodup : NoDup sample_scheme.
Proof. apply (bool_decide_unpack (NoDup sample_scheme)). reflexivity. Qed.

Lemma getColor_stable_witness :
  (getColor avoiding (JStr "x") (Some 2%Z) None sample_scale
     (getColor avoiding (JStr "x") (Some 1%Z) None sample_scale (sample_shared Dashboard)).2).1.1
  = Some "red".
Proof.
  apply (getColor_stable avoiding avoiding (JStr "x") (Some 1%Z) (Some 2%Z) None None sample_scale
    (sample_shared Dashboard) (Some "red")
    (getColor avoiding (JStr "x") (Some 1%Z) None sample_scale (sample_shared Dashboard)).1.2).
  - reflexivity.
  - right. exists 1%Z. split; [reflexivity|discriminate].
  - discriminate.
  - reflexivity.
Defined.

Lemma label_colors_distinct_witness :
  let start := new_CategoricalColorScale sample_scheme 0 [[]] in
  let painted :=
    chartLabelsColorMap
      (paint avoiding None None (start.1, sample_shared Explore) [JStr "x"; JStr "y"; JStr " x"]).1 in
  NoDup (akeys painted) ∧
  (∀ label, label ∈ akeys painted ↔ label ∈ stringifyAndTrim <$> [JStr "x"; JStr "y"; JStr " x"]) ∧
  (∀ color, color ∈ avalues painted → color ∈ Some <$> sample_scheme) ∧
  (length painted ≤ length sample_scheme → NoDup (avalues painted)).
Proof.
  apply (label_colors_distinct avoiding sample_scheme [JStr "x"; JStr "y"; JStr " x"] None None 0 [[]]
    (labels (sample_shared Explore))); try reflexivity.
  - exact sample_scheme_nodup.
  - discriminate.
  - apply not_in_text. reflexivity.
Defined.

Lemma getColor_unstable_witness :
  ∃ c1 c2 st2,
    getColor avoiding (JStr "x") None None sample_scale (sample_shared Dashboard)
      = (Some "red", c1, sample_shared Dashboard) ∧
    getColor avoiding (JStr "x") None None c1 (sample_shared Dashboard) = (Some "blue", c2, st2).
Proof.
  apply (getColor_unstable avoiding "red" "blue" ["green"] (JStr "x") None sample_scale
    (sample_shared Dashboard)); try reflexivity; try discriminate.
  apply not_in_text. reflexivity.
Defined.

Lemma scale_setColor_shared_witness :
  let reg := {| sch_items := [("s", sample_scheme)]; sch_default := Some "s" |} in
  let ns := {| ns_name := "GLOBAL"; forcedItems := 0 |} in
  let p1 := ns_getScale reg None ns (sample_shared Dashboard) in
  let p2 := ns_getScale reg (Some "s") ns p1.2 in
  (getColor avoiding (JStr "x") None None p2.1 (scale_setColor (JStr "x") "black" p1.1 p2.2)).1.1
  = Some "black".
Proof.
  apply (scale_setColor_shared avoiding {| sch_items := [("s", sample_scheme)]; sch_default := Some "s" |}
    {| sch_items := [("s", sample_scheme)]; sch_default := Some "s" |} None (Some "s")
    {| ns_name := "GLOBAL"; forcedItems := 0 |} (sample_shared Dashboard) (JStr "x") "black");
    [cbn; lia|discriminate].
Defined.
