(* ===== verification/NaturalSort.v ===== *)
(** * The order of the labels of a pivot table

    [naturalSort] of
    [plugins/plugin-chart-pivot-table/src/react-pivottable/utilities.js] orders
    values of any type: [null] first, then numbers and texts that are numbers,
    then texts, in which runs of digits count as numbers.  [sort] is the stable
    sorting of the language.

    A comparison returns a number, of which the sign matters.  Texts are
    compared by their bytes. *)

From Stdlib Require Import Ascii String.
From stdpp Require Import base strings option numbers list sorting.
From S2P Require Import Prelude JsObject JsNumber JsValue.

Definition n0 : jsnum := num_of_Z 0.
Definition n1 : jsnum := num_of_Z 1.
Definition nm1 : jsnum := num_of_Z (-1).

(** ** Runs of digits *)

(** [/\d/.test(s)] *)
Fixpoint has_digit (s : string) : bool :=
  match s with EmptyString => false | String c s => is_digit c || has_digit s end.

(** [s.match(/(\d+)|(\D+)/g)]: the runs of digits and of other characters. *)
Fixpoint chunks (s : string) : list string :=
  match s with
  | EmptyString => []
  | String c s =>
      match chunks s with
      | String d _ as chunk :: rest =>
          if Bool.eqb (is_digit c) (is_digit d) then String c chunk :: rest
          else String c EmptyString :: chunk :: rest
      | _ => [String c EmptyString]
      end
  end.

(** [s.replace(/^0/, '.0')] as a number *)
Definition chunk_number (s : string) : jsnum :=
  Number_of_string match s with String "0"%char r => ".0" +:+ r | s => s end.

(** @source src/superset-frontend/plugins/plugin-chart-pivot-table/src/react-pivottable/utilities.js 116-129 naturalSort (runs) *)
Fixpoint compare_chunks (a b : list string) : jsnum :=
  match a, b with
  | a1 :: a, b1 :: b =>
      if bool_decide (a1 = b1) then compare_chunks a b
      else if has_digit a1 && has_digit b1 then num_sub (chunk_number a1) (chunk_number b1)
      else if str_ltb b1 a1 then n1 else nm1
  | a, b => num_sub (num_of_Z (Z.of_nat (length a))) (num_of_Z (Z.of_nat (length b)))
  end.

Definition is_number (v : jsval) : bool := match v with JNum _ => true | _ => false end.
Definition is_null (v : jsval) : bool := match v with JNull => true | _ => false end.

(** @source src/superset-frontend/plugins/plugin-chart-pivot-table/src/react-pivottable/utilities.js 60-130 naturalSort *)
Definition naturalSort (a b : jsval) : jsnum :=
  let raw_nan v := match v with JNum x => isNaN x | _ => false end in
  let na := to_number a in
  let nb := to_number b in
  if is_null a && negb (is_null b) then nm1
  else if is_null b && negb (is_null a) then n1
  else if raw_nan a then nm1
  else if raw_nan b then n1
  else if num_ltb na nb then nm1
  else if num_ltb nb na then n1
  else if is_number a && negb (is_number b) then nm1
  else if is_number b && negb (is_number a) then n1
  else if is_number a && is_number b then n0
  else if isNaN nb && negb (isNaN na) then nm1
  else if isNaN na && negb (isNaN nb) then n1
  else
    let a := to_string a in
    let b := to_string b in
    if bool_decide (a = b) then n0
    else if negb (has_digit a) || negb (has_digit b) then if str_ltb b a then n1 else nm1
    else compare_chunks (chunks a) (chunks b).

(** ** Sorting *)

(** [xs.sort(compare)]: stable.  For a comparison that is not consistent the
    language leaves the order open. *)
Section sort.
Context {A : Type} (compare : A → A → jsnum).

Definition greater (x y : A) : bool := num_ltb n0 (compare x y).

Fixpoint insert_sorted (x : A) (l : list A) : list A :=
  match l with
  | [] => [x]
  | y :: l => if greater y x then x :: y :: l else y :: insert_sorted x l
  end.

Definition js_sort (l : list A) : list A := foldl (λ acc x, insert_sorted x acc) [] l.
End sort.

(** ** Sorters *)

Definition sorter : Type := jsval → jsval → jsnum.

Definition lower_char (c : ascii) : ascii :=
  let n := N_of_ascii c in
  if ((65 <=? n) && (n <=? 90))%N then ascii_of_N (n + 32) else c.

(** [s.toLowerCase()], for ASCII letters *)
Fixpoint js_lower (s : string) : string :=
  match s with
  | EmptyString => EmptyString
  | String c s => String (lower_char c) (js_lower s)
  end.

(** The positions of the elements, and of the texts in lower case.

    @source src/superset-frontend/plugins/plugin-chart-pivot-table/src/react-pivottable/utilities.js 133-142 sortAs (mappings) *)
Definition sort_mappings (order : list jsval) : list (string * Z) * list (string * Z) :=
  foldl (λ acc ie,
    (oset (to_string ie.2) ie.1 acc.1,
     match ie.2 with JStr s => oset (js_lower s) ie.1 acc.2 | _ => acc.2 end))
    ([], []) (imap (λ i e, (Z.of_nat i, e)) order).

(** @source src/superset-frontend/plugins/plugin-chart-pivot-table/src/react-pivottable/utilities.js 132-164 sortAs *)
Definition sortAs (order : list jsval) : sorter := λ a b,
  let '(mapping, lMapping) := sort_mappings order in
  let position m v := aget (to_string v) m in
  let minus (x y : Z) := num_sub (num_of_Z x) (num_of_Z y) in
  match position mapping a, position mapping b with
  | Some x, Some y => minus x y
  | Some _, None => nm1
  | None, Some _ => n1
  | None, None =>
      match position lMapping a, position lMapping b with
      | Some x, Some y => minus x y
      | Some _, None => nm1
      | None, Some _ => n1
      | None, None => naturalSort a b
      end
  end.

(** ** Sorting keeps the elements *)

Section sort_facts.
Context {A : Type} (compare : A → A → jsnum).

Lemma insert_sorted_Permutation x l : insert_sorted compare x l ≡ₚ x :: l.
Proof.
  induction l as [|y l IH]; simpl; [done|]. destruct (greater _ _ _); [done|].
  rewrite IH. apply Permutation_swap.
Qed.

Lemma js_sort_snoc l x : js_sort compare (l ++ [x]) = insert_sorted compare x (js_sort compare l).
Proof. unfold js_sort. by rewrite foldl_app. Qed.

Lemma js_sort_Permutation l : js_sort compare l ≡ₚ l.
Proof.
  induction l as [|x l IH] using rev_ind; [done|].
  rewrite js_sort_snoc, insert_sorted_Permutation, IH. by rewrite Permutation_app_comm.
Qed.
End sort_facts.
