(* ===== verification/ChartData.v ===== *)
(** * The results of a query as chart data

    The chart plugins turn the records of a result into series, forecasts and
    trees for the chart library.  A record is an object of columns; what the chart
    library reads only is left out.  The functions of lodash on collections and
    the collator of the language are parameters, with the laws the code relies
    on. *)

From Stdlib Require Import Ascii String.
From stdpp Require Import base strings option numbers list.
From S2P Require Import Prelude JsObject JsNumber JsValue Lodash QueryTypes Query ChartQueries NaturalSort.

Class Collections := {
  (** [_.groupBy(collection, iteratee)]: the elements by the text of their key,
      those of a group in their order. *)
  groupBy : (jsobj → string) → list jsobj → list (string * list jsobj);
  groupBy_get : ∀ f xs k,
    aget k (groupBy f xs) = match filter (λ x, f x = k) xs with [] => None | ys => Some ys end;
  groupBy_NoDup : ∀ f xs, NoDup (akeys (groupBy f xs));
  (** [_.orderBy(collection, [key], [order])], ascending or not: the elements in
      another order. *)
  orderBy : ∀ {A : Type}, (A → jsval) → bool → list A → list A;
  orderBy_Permutation : ∀ A (key : A → jsval) asc (xs : list A), orderBy key asc xs ≡ₚ xs;
  (** [_.sumBy], [_.meanBy], and the element [_.minBy] and [_.maxBy] find. *)
  sumBy : list jsobj → string → jsval;
  meanBy : list jsobj → string → jsval;
  minBy : list jsobj → string → option jsobj;
  maxBy : list jsobj → string → option jsobj;
  (** [collator.compare(a, b)] *)
  collate : string → string → jsnum;
}.

Definition isDefined (v : jsval) : bool := negb (is_nullish v).

(** ** Stacks *)

(** The sum of a record without its axis and the series that are hidden.

    @source plugins/plugin-chart-echarts/src/utils/series.ts 75-84 extractDataTotalValues (values) *)
Definition stacked_total (xAxisCol : string) (legendState : option jsobj) (datum : jsobj) : jsval :=
  foldl (λ prev kv,
    if bool_decide (kv.1 = xAxisCol) then prev
    else match legendState with
         | Some legend => if truthy (ofield kv.1 legend) then js_add prev (js_or kv.2 (JNum (num_of_Z 0))) else prev
         | None => js_add prev (js_or kv.2 (JNum (num_of_Z 0)))
         end) (JNum (num_of_Z 0)) datum.

(** @source plugins/plugin-chart-echarts/src/utils/series.ts 58-93 extractDataTotalValues *)
Definition extractDataTotalValues (data : list jsobj) (stack : jsval) (percentageThreshold : jsval)
    (xAxisCol : string) (legendState : option jsobj) : list jsval * list jsnum :=
  if truthy stack then
    let totals := stacked_total xAxisCol legendState <$> data in
    let share := num_div (to_number (js_or percentageThreshold (JNum (num_of_Z 0)))) (num_of_Z 100) in
    (totals, (λ t, num_mul share (to_number t)) <$> totals)
  else ([], []).

(** A series with its points. *)
Record Series := { s_id : jsval; s_data : list (jsval * jsval) }.

(** [xs[i] = v], with holes where nothing was written *)
Fixpoint set_at {A} (i : nat) (v : A) (xs : list (option A)) : list (option A) :=
  match i, xs with
  | 0, _ :: xs => Some v :: xs
  | 0, [] => [Some v]
  | S i, x :: xs => x :: set_at i v xs
  | S i, [] => None :: set_at i v []
  end.

(** The index is there and is not zero. *)
Definition truthy_index (i : option nat) : bool := match i with Some (S _) => true | _ => false end.

(** The last series with a value at a point shows it; for totals, a positive one.

    @source plugins/plugin-chart-echarts/src/utils/series.ts 109-127 extractShowValueIndexes (point) *)
Definition show_value (onlyTotal isHorizontal : bool) (seriesIndex : nat) (indexes : list (option nat))
    (p : nat * (jsval * jsval)) : list (option nat) :=
  let value := if isHorizontal then p.2.1 else p.2.2 in
  let not_null := negb (strict_eq value JNull) in
  if negb onlyTotal then (if not_null then set_at p.1 seriesIndex indexes else indexes)
  else
    let indexes := if js_lt (JNum (num_of_Z 0)) value then set_at p.1 seriesIndex indexes else indexes in
    if negb (truthy_index (default None (indexes !! p.1))) && not_null
    then set_at p.1 seriesIndex indexes else indexes.

(** @source plugins/plugin-chart-echarts/src/utils/series.ts 95-131 extractShowValueIndexes *)
Definition extractShowValueIndexes (series : list Series) (stack : jsval) (onlyTotal isHorizontal : bool)
    (legendState : option jsobj) : list (option nat) :=
  if truthy stack then
    foldl (λ indexes p,
      let '(seriesIndex, entry) := p in
      let hidden := match legendState with
                    | Some legend => truthy (s_id entry) && negb (truthy (ofield (to_string (s_id entry)) legend))
                    | None => false
                    end in
      if hidden then indexes
      else foldl (show_value onlyTotal isHorizontal seriesIndex) indexes (imap (λ i d, (i, d)) (s_data entry)))
      [] (imap (λ i s, (i, s)) series)
  else [].

(** ** Series *)

(** @source controls/types.ts 518-524 SortSeriesType *)
Inductive SortSeriesType := SortName | SortMax | SortMin | SortSum | SortAvg.

Section series.
Context `{Collections}.

(** @source plugins/plugin-chart-echarts/src/utils/series.ts 133-177 sortAndFilterSeries *)
Definition sortAndFilterSeries (rows : list jsobj) (xAxis : string) (extraMetricLabels : list jsval)
    (sortSeriesType : option SortSeriesType) (ascending : bool) : list string :=
  let names := filter (λ k, k ≠ xAxis ∧ js_includes extraMetricLabels (JStr k) = false)
                 (akeys (default [] (head rows))) in
  let by_value f := (orderBy snd ascending ((λ name, (name, f name)) <$> names)).*1 in
  match sortSeriesType with
  | Some SortSum => by_value (sumBy rows)
  | Some SortMin => by_value (λ name, match minBy rows name with Some row => ofield name row | None => JUndef end)
  | Some SortMax => by_value (λ name, match maxBy rows name with Some row => ofield name row | None => JUndef end)
  | Some SortAvg => by_value (meanBy rows)
  | _ => js_sort (λ a b, if ascending then collate a b else collate b a) names
  end.

(** The aggregate of the numbers of a record, with their count.

    @source plugins/plugin-chart-echarts/src/utils/series.ts 188-230 sortRows (aggregate) *)
Definition row_aggregate (sort : SortSeriesType) (row : jsobj) : option jsnum * nat :=
  foldl (λ acc kv,
    match sort, kv.2 with
    | SortName, _ => acc
    | _, JNum x =>
        (match sort, acc.1 with
         | (SortAvg | SortSum), Some a => Some (num_add a x)
         | SortMin, Some a => Some (if num_ltb x a then x else a)
         | SortMax, Some a => Some (if num_ltb a x then x else a)
         | _, _ => Some x
         end, S acc.2)
    | _, _ => acc
    end) (None, 0) row.

(** @source plugins/plugin-chart-echarts/src/utils/series.ts 231-244 sortRows (value) *)
Definition row_value (sort : SortSeriesType) (xAxis : string) (row : jsobj) : jsval :=
  match sort with
  | SortName =>
      match aget xAxis row with
      | Some (JStr s) => JStr (js_lower s)
      | Some v => v
      | None => JStr EmptyString
      end
  | SortAvg =>
      match row_aggregate sort row with
      | (Some a, S n) => JNum (num_div a (num_of_Z (Z.of_nat (S n))))
      | _ => JUndef
      end
  | _ => match (row_aggregate sort row).1 with Some a => JNum a | None => JUndef end
  end.

(** The records with the totals computed for them.

    @source plugins/plugin-chart-echarts/src/utils/series.ts 316-319 extractSeries (totalStackedValue) *)
Definition with_totals (rows : list jsobj) (totalStackedValues : list jsval) : list (jsobj * jsval) :=
  imap (λ idx row, (row, default JUndef (totalStackedValues !! idx))) rows.

(** @source plugins/plugin-chart-echarts/src/utils/series.ts 179-259 sortRows *)
Definition sortRows (rows : list jsobj) (totalStackedValues : list jsval) (xAxis : string)
    (sort : SortSeriesType) (ascending : bool) : list (jsobj * jsval) :=
  orderBy (λ r, row_value sort xAxis r.1) ascending (with_totals rows totalStackedValues).

(** @source plugins/plugin-chart-echarts/src/utils/series.ts 263-276 extractSeries (opts) *)
Record SeriesOptions := {
  fillNeighborValue : option jsval;
  xAxis : string;
  extraMetricLabels : list jsval;
  removeNulls : bool;
  stack : jsval;
  totalStackedValues : list jsval;
  isHorizontal : bool;
  sortSeriesType : option SortSeriesType;
  sortSeriesAscending : bool;
  xAxisSortSeries : option SortSeriesType;
  xAxisSortSeriesAscending : option bool;
  xAxisType : jsval;
}.

(** The axis of a record; a missing category has a name.

    @source plugins/plugin-chart-echarts/src/utils/series.ts 293-299 extractSeries (rows) *)
Definition axis_row (opts : SeriesOptions) (datum : jsobj) : jsobj :=
  oset (xAxis opts)
    (if strict_eq (ofield (xAxis opts) datum) JNull && is_str (xAxisType opts) "category" then JStr "<NULL>"
     else ofield (xAxis opts) datum) datum.

(** @source plugins/plugin-chart-echarts/src/utils/series.ts 307-319 extractSeries (sortedRows) *)
Definition sorted_rows (opts : SeriesOptions) (rows : list jsobj) : list (jsobj * jsval) :=
  match xAxisSortSeries opts, xAxisSortSeriesAscending opts with
  | Some sort, Some ascending => sortRows rows (totalStackedValues opts) (xAxis opts) sort ascending
  | _, _ => with_totals rows (totalStackedValues opts)
  end.

(** The neighbours are those in the order of the data, not of the series.

    @source plugins/plugin-chart-echarts/src/utils/series.ts 335-350 extractSeries (value) *)
Definition point_value (opts : SeriesOptions) (rows : list jsobj) (name : string) (idx : nat)
    (row : jsobj) (totalStackedValue : jsval) : jsval :=
  let defined_at r := match r with Some row => isDefined (ofield name row) | None => false end in
  let currentValue := ofield name row in
  let next_to := (match idx with 0 => false | S i => defined_at (rows !! i) end) || defined_at (rows !! S idx) in
  match fillNeighborValue opts with
  | Some fill =>
      if negb (isDefined currentValue) && next_to then fill
      else if is_str (stack opts) "Expand" && negb (is_undefined totalStackedValue)
      then JNum (num_div (to_number (js_or currentValue (JNum (num_of_Z 0)))) (to_number totalStackedValue))
      else currentValue
  | None =>
      if is_str (stack opts) "Expand" && negb (is_undefined totalStackedValue)
      then JNum (num_div (to_number (js_or currentValue (JNum (num_of_Z 0)))) (to_number totalStackedValue))
      else currentValue
  end.

(** @source plugins/plugin-chart-echarts/src/utils/series.ts 324-353 extractSeries (data) *)
Definition series_points (opts : SeriesOptions) (rows : list jsobj) (sorted : list (jsobj * jsval)) (name : string)
    : list (jsval * jsval) :=
  let points := imap (λ idx r, (ofield (xAxis opts) r.1, point_value opts rows name idx r.1 r.2)) sorted in
  let kept := if removeNulls opts
              then filter (λ p, strict_eq p.1 JNull = false ∧ strict_eq p.2 JNull = false) points else points in
  if isHorizontal opts then (λ p, (p.2, p.1)) <$> kept else kept.

(** The smallest positive number of the series.

    @source plugins/plugin-chart-echarts/src/utils/series.ts 329-334 extractSeries (minPositiveValue) *)
Definition min_positive (values : list jsval) : option jsnum :=
  foldl (λ acc v,
    match v with
    | JNum x =>
        if num_ltb (num_of_Z 0) x && match acc with None => true | Some m => num_ltb x m end then Some x else acc
    | _ => acc
    end) None values.

(** @source plugins/plugin-chart-echarts/src/utils/series.ts 261-360 extractSeries *)
Definition extractSeries (data : list jsobj) (opts : SeriesOptions)
    : list Series * list jsval * option jsnum :=
  match data with
  | [] => ([], [], None)
  | _ =>
      let rows := axis_row opts <$> data in
      let names := sortAndFilterSeries rows (xAxis opts) (extraMetricLabels opts) (sortSeriesType opts)
                     (sortSeriesAscending opts) in
      let sorted := sorted_rows opts rows in
      ((λ name, {| s_id := JStr name; s_data := series_points opts rows sorted name |}) <$> names,
       sorted.*2,
       min_positive (flat_map (λ name, (λ r, ofield name r.1) <$> sorted) names))
  end.
End series.

(** A series whose name was there before gets a number.

    @source plugins/plugin-chart-echarts/src/utils/series.ts 552-566 dedupSeries *)
Definition dedupSeries (series : list Series) : list Series :=
  (foldl (λ st row,
    match s_id row with
    | JUndef => (st.1, st.2 ++ [row])
    | id =>
        let id := to_string id in
        let count := default 0%N (aget id st.1) in
        let suffix := if (0 <? count)%N then " (" +:+ string_of_N count +:+ ")" else EmptyString in
        (aset id (count + 1)%N st.1, st.2 ++ [{| s_id := JStr (id +:+ suffix); s_data := s_data row |}])
    end) ([], []) series).2.

(** @source plugins/plugin-chart-echarts/src/utils/series.ts 703-718 groupData *)
Definition groupData (data : list jsobj) (by_ : jsval) : list (jsval * list jsobj) :=
  if truthy by_ then
    foldl (λ map datum,
      let key := ofield (to_string by_) datum in
      match find_index (λ e, same_value_zero e.1 key) map with
      | Some i => alter (λ e, (e.1, e.2 ++ [datum])) i map
      | None => map ++ [(key, [datum])]
      end) [] data
  else [(JUndef, data)].

(** ** Names of series *)

(** @source core/query/types/QueryResponse.ts 26-31 GenericDataType *)
Inductive GenericDataType := Numeric | StringType | Temporal | BooleanType.

Section names.
(** A date in the format of the axis, and the format of numbers. *)
Variable date_text : jsval → string.
Variable numberFormatter : option (jsnum → string).

(** @source plugins/plugin-chart-echarts/src/utils/series.ts 362-394 formatSeriesName *)
Definition formatSeriesName (name : jsval) (coltype : option GenericDataType) : string :=
  match name, coltype with
  | (JUndef | JNull), _ => "<NULL>"
  | JBool _, _ => to_string name
  | _, Some Temporal => date_text name
  | JNum x, _ => match numberFormatter with Some f => f x | None => num_to_string x end
  | _, _ => to_string name
  end.

(** @source plugins/plugin-chart-echarts/src/utils/series.ts 396-406 getColtypesMapping *)
Definition getColtypesMapping (colnames : list string) (coltypes : list GenericDataType)
    : list (string * option GenericDataType) :=
  foldl (λ acc p, oset p.2 (coltypes !! p.1) acc) [] (imap (λ i n, (i, n)) colnames).

(** A type that is zero is not passed on.

    @source plugins/plugin-chart-echarts/src/utils/series.ts 408-430 extractGroupbyLabel *)
Definition extractGroupbyLabel (datum : jsobj) (groupby : jsval)
    (coltypeMapping : list (string * option GenericDataType)) : string :=
  join ", " ((λ val,
    formatSeriesName (ofield (to_string val) datum)
      (match default None (aget (to_string val) coltypeMapping) with Some Numeric => None | t => t end))
    <$> ensureIsArray groupby).
End names.

(** ** Layout of the chart *)

(** @source plugins/plugin-chart-echarts/src/types.ts 76-81 LegendOrientation *)
Inductive LegendOrientation := LegendTop | LegendBottom | LegendLeft | LegendRight.

#[export] Instance LegendOrientation_eq_dec : EqDecision LegendOrientation.
Proof. solve_decision. Defined.

(** @source plugins/plugin-chart-echarts/src/defaults.ts 35-40 defaultLegendPadding *)
Definition defaultLegendPadding (o : LegendOrientation) : jsnum :=
  match o with LegendTop | LegendBottom => num_of_Z 20 | LegendLeft | LegendRight => num_of_Z 170 end.

Record Padding := { p_bottom : jsnum; p_left : jsnum; p_right : jsnum; p_top : jsnum }.

(** @source plugins/plugin-chart-echarts/src/utils/series.ts 504-550 getChartPadding *)
Definition getChartPadding (show : bool) (orientation : LegendOrientation) (margin : jsval) (padding : Padding)
    (isHorizontal : bool) : Padding :=
  let legendMargin :=
    if negb show then num_of_Z 0
    else match margin with
         | JNull | JUndef | JStr _ => defaultLegendPadding orientation
         | _ => to_number margin
         end in
  let add o x := num_add x (if bool_decide (orientation = o) then legendMargin else num_of_Z 0) in
  if isHorizontal then
    {| p_left := add LegendBottom (p_left padding); p_right := add LegendRight (p_right padding);
       p_top := add LegendTop (p_top padding); p_bottom := add LegendLeft (p_bottom padding) |}
  else
    {| p_left := add LegendLeft (p_left padding); p_right := add LegendRight (p_right padding);
       p_top := add LegendTop (p_top padding); p_bottom := add LegendBottom (p_bottom padding) |}.

(** @source core/chart/types/Base.ts 100-105 AxisType *)
Inductive AxisType := CategoryAxis | ValueAxis | TimeAxis | LogAxis.

(** @source plugins/plugin-chart-echarts/src/utils/series.ts 572-587 getAxisType *)
Definition getAxisType (stack : jsval) (forceCategorical : bool) (dataType : option GenericDataType) : AxisType :=
  if forceCategorical then CategoryAxis
  else match dataType with
       | Some Temporal => TimeAxis
       | Some Numeric => if truthy stack then CategoryAxis else ValueAxis
       | _ => CategoryAxis
       end.

(** @source plugins/plugin-chart-echarts/src/utils/series.ts 621-646 getMinAndMaxFromBounds *)
Definition getMinAndMaxFromBounds (axisType : AxisType) (truncateAxis : bool) (min max : jsval) (is_bar : bool)
    : jsobj :=
  match axisType, truncateAxis with
  | ValueAxis, true =>
      (if is_bar then [("scale", JBool true)] else []) ++
      (if negb (is_undefined min) then [("min", min)] else if is_bar then [] else [("min", JStr "dataMin")]) ++
      (if negb (is_undefined max) then [("max", max)] else if is_bar then [] else [("max", JStr "dataMax")])
  | _, _ => []
  end.

(** @source plugins/plugin-chart-echarts/src/utils/series.ts 660-682 getTimeCompareStackId *)
Definition getTimeCompareStackId (defaultId : string) (timeCompare : list string) (name : jsval) : string :=
  let matches value :=
    match name with
    | JStr name => includes (value +:+ ",") name || includes ("__" +:+ value) name
    | JUndef | JNull => false
    | _ => includes value (to_string name)
    end in
  match find_index matches timeCompare with
  | Some i => match timeCompare !! i with Some (String c s) => String c s | _ => defaultId end
  | None => defaultId
  end.

(** ** Forecasts *)

(** @source plugins/plugin-chart-echarts/src/types.ts 64-69 ForecastSeriesEnum *)
Inductive ForecastSeriesEnum := Observation | ForecastTrend | ForecastUpper | ForecastLower.

#[export] Instance ForecastSeriesEnum_eq_dec : EqDecision ForecastSeriesEnum.
Proof. solve_decision. Defined.

Definition forecast_suffix (t : ForecastSeriesEnum) : string :=
  match t with
  | Observation => EmptyString
  | ForecastTrend => "__yhat"
  | ForecastUpper => "__yhat_upper"
  | ForecastLower => "__yhat_lower"
  end.

Definition is_line_end (c : ascii) : bool := bool_decide (c = "010"%char) || bool_decide (c = "013"%char).

(** What the dots before the suffix match: the text after the last end of a line. *)
Fixpoint last_line (s : string) : string :=
  match s with
  | EmptyString => EmptyString
  | String c r =>
      if existsb is_line_end (list_ascii_of_string s) then last_line r else s
  end.

(** @source plugins/plugin-chart-echarts/src/utils/forecast.ts 29-42 extractForecastSeriesContext *)
Definition extractForecastSeriesContext (name : string) : string * ForecastSeriesEnum :=
  let try_type t :=
    match strip_suffix (forecast_suffix t) name with
    | Some p => match last_line p with EmptyString => None | q => Some (q, t) end
    | None => None
    end in
  match try_type ForecastLower, try_type ForecastTrend, try_type ForecastUpper with
  | Some c, _, _ | None, Some c, _ | None, None, Some c => c
  | None, None, None => (name, Observation)
  end.

(** @source plugins/plugin-chart-echarts/src/utils/forecast.ts 44-55 extractForecastSeriesContexts *)
Definition extractForecastSeriesContexts (seriesNames : list string) : list (string * list ForecastSeriesEnum) :=
  foldl (λ agg name,
    let context := extractForecastSeriesContext name in
    oset context.1 (default [] (aget context.1 agg) ++ [context.2]) agg) [] seriesNames.

(** The upper bound is rebased to the lower one, on which it is stacked.

    @source plugins/plugin-chart-echarts/src/utils/forecast.ts 119-151 rebaseForecastDatum *)
Definition rebaseForecastDatum (data : list jsobj) (verboseMap : jsobj) : list jsobj :=
  let keys := match data with first :: _ => akeys first | [] => [] end in
  (λ row,
    foldl (λ newRow key,
      let context := extractForecastSeriesContext key in
      let verbose := ofield context.1 verboseMap in
      let verboseKey :=
        if negb (bool_decide (key = DTTM_ALIAS)) && truthy verbose
        then to_string verbose +:+ forecast_suffix context.2 else key in
      let lowerForecastKey := context.1 +:+ forecast_suffix ForecastLower in
      let value := ofield key row in
      let lower := ofield lowerForecastKey row in
      oset verboseKey
        (if bool_decide (context.2 = ForecastUpper) && bool_decide (lowerForecastKey ∈ keys) &&
            negb (strict_eq value JNull) && negb (strict_eq lower JNull)
         then JNum (num_sub (to_number value) (to_number lower)) else value) newRow) [] keys) <$> data.

Definition forecast_order (t : ForecastSeriesEnum) : jsnum :=
  num_of_Z (match t with ForecastLower => 1 | ForecastUpper => 2 | ForecastTrend => 3 | Observation => 4 end).

(** @source plugins/plugin-chart-echarts/src/utils/forecast.ts 154-182 reorderForecastSeries *)
Definition reorderForecastSeries (row : list Series) : list Series :=
  let order s := forecast_order (extractForecastSeriesContext (to_string (js_nullish (s_id s) (JStr EmptyString)))).2 in
  if existsb (λ s, truthy (s_id s)) row then js_sort (λ a b, num_sub (order a) (order b)) row else row.

(** A value of the tooltip: the marker and the numbers by their type. *)
Record ForecastValue := { fv_marker : jsval; fv_values : list (ForecastSeriesEnum * jsnum) }.

(** @source plugins/plugin-chart-echarts/src/utils/forecast.ts 57-83 extractForecastValuesFromTooltipParams *)
Definition extractForecastValuesFromTooltipParams (params : list (jsval * string * (jsval * jsval)))
    (isHorizontal : bool) : list (string * ForecastValue) :=
  foldl (λ values param,
    let '(marker, seriesId, value) := param in
    let context := extractForecastSeriesContext seriesId in
    match (if isHorizontal then fst value else snd value) with
    | JNum x =>
        let old := default {| fv_marker := js_or marker (JStr EmptyString); fv_values := [] |}
                     (aget context.1 values) in
        oset context.1
          {| fv_marker := fv_marker old;
             fv_values := filter (λ e, e.1 ≠ context.2) (fv_values old) ++ [(context.2, x)] |} values
    | _ => values
    end) [] params.

(** ** Trees *)

(** A node has its children, or it stands for a record.

    @source plugins/plugin-chart-echarts/src/utils/treeBuilder.ts 22-28 TreeNode *)
Inductive TreeNode := Node (name : jsval) (value secondaryValue : jsnum) (by_ : jsval) (children : option (list TreeNode)).

Definition node_name (n : TreeNode) : jsval := let 'Node name _ _ _ _ := n in name.
Definition node_value (n : TreeNode) : jsnum := let 'Node _ v _ _ _ := n in v.
Definition node_secondary (n : TreeNode) : jsnum := let 'Node _ _ v _ _ := n in v.
Definition node_children (n : TreeNode) : option (list TreeNode) := let 'Node _ _ _ _ c := n in c.

(** @source plugins/plugin-chart-echarts/src/utils/treeBuilder.ts 30-32 getMetricValue *)
Definition getMetricValue (datum : jsobj) (metric : string) : jsnum :=
  match ofield metric datum with JNum x => x | _ => num_of_Z 0 end.

(** @source plugins/plugin-chart-echarts/src/utils/treeBuilder.ts 49-51 treeBuilder (secondaryValue) *)
Definition secondary_of (datum : jsobj) (metric : string) (secondaryMetric : option string) : jsnum :=
  match secondaryMetric with
  | Some (String c s) => getMetricValue datum (String c s)
  | _ => getMetricValue datum metric
  end.

Definition sum_of (xs : list jsnum) : jsnum := foldl num_add (num_of_Z 0) xs.

Section trees.
Context `{Collections}.

(** The text a record is grouped by; without a column every record is in one group. *)
Definition group_key (column : option string) (datum : jsobj) : string :=
  match column with Some c => to_string (ofield c datum) | None => "[object Object]" end.

(** The records of a group as leaves, or a node over the groups inside.

    @source plugins/plugin-chart-echarts/src/utils/treeBuilder.ts 45-84 treeBuilder (group) *)
Definition group_nodes (column : option string) (metric : string) (secondaryMetric : option string)
    (inner : option (list jsobj → list TreeNode)) (group : list jsobj) : list TreeNode :=
  let by_ := match column with Some c => JStr c | None => JUndef end in
  let name := match group with
              | first :: _ => ofield (default "undefined" column) first
              | [] => JUndef
              end in
  match inner with
  | None =>
      (λ datum, Node name (getMetricValue datum metric) (secondary_of datum metric secondaryMetric) by_ None) <$> group
  | Some build =>
      let children := build group in
      let value := sum_of (node_value <$> children) in
      [Node name value
         (match secondaryMetric with Some (String _ _) => sum_of (node_secondary <$> children) | _ => value end)
         by_ (Some children)]
  end.

(** @source plugins/plugin-chart-echarts/src/utils/treeBuilder.ts 34-88 treeBuilder *)
Fixpoint treeBuilder (columns : list string) (metric : string) (secondaryMetric : option string)
    (data : list jsobj) : list TreeNode :=
  match columns with
  | [] => flat_map (λ g, group_nodes None metric secondaryMetric None g.2) (groupBy (group_key None) data)
  | column :: rest =>
      let inner := match rest with [] => None | _ => Some (treeBuilder rest metric secondaryMetric) end in
      flat_map (λ g, group_nodes (Some column) metric secondaryMetric inner g.2) (groupBy (group_key (Some column)) data)
  end.
End trees.
