(* ===== verification/ChartDataFacts.v ===== *)
(** * Facts on the results as chart data

    A tree has one leaf per record, under the values the record has in the columns
    of the tree, and the value of an inner node is the sum of its children.  The
    series have one point per record, with its axis and its value, also when the
    records are sorted; the share of a total is that of the record's own total. *)

From Stdlib Require Import Ascii String.
From stdpp Require Import base strings option numbers list.
From S2P Require Import Prelude JsObject JsNumber JsValue Lodash QueryTypes Query ChartQueries NaturalSort ChartData.

(** ** Groups *)

Lemma filter_all {A} (P : A → Prop) `{∀ x, Decision (P x)} (l : list A) : (∀ x, P x) → filter P l = l.
Proof. intros HP. induction l as [|x l IH]; [done|]. rewrite filter_cons_True by done. by rewrite IH. Qed.

(** The values of an object with distinct keys, each of which holds the elements
    with its key, are the elements. *)
Lemma groups_Permutation {A} (f : A → string) (groups : list (string * list A)) xs :
  NoDup (akeys groups) →
  (∀ k, aget k groups = match filter (λ x, f x = k) xs with [] => None | ys => Some ys end) →
  concat groups.*2 ≡ₚ xs.
Proof.
  revert xs. induction groups as [|[k ys] groups IH]; intros xs Hnd Hget.
  - destruct xs as [|x xs]; [done|]. specialize (Hget (f x)). rewrite filter_cons_True in Hget by done. done.
  - apply NoDup_cons in Hnd as [Hk Hnd].
    assert (Hys : ys = filter (λ x, f x = k) xs).
    { specialize (Hget k). cbn in Hget. rewrite decide_True in Hget by done. by case_match; simplify_eq. }
    cbn. rewrite (IH (filter (λ x, ¬ f x = k) xs)); [|done|].
    + rewrite Hys. apply filter_app_complement.
    + intros k'. rewrite list_filter_filter. destruct (decide (k' = k)) as [->|Hne].
      * replace (filter _ xs) with (@nil A); [by apply aget_None|].
        symmetry. apply no_elements. intros x [[? ?] _]%list_elem_of_filter. done.
      * specialize (Hget k'). cbn in Hget. rewrite decide_False in Hget by done. rewrite Hget.
        rewrite (list_filter_iff (λ x, f x = k' ∧ ¬ f x = k) (λ x, f x = k')); [done|]. naive_solver.
Qed.

Section groups.
Context `{Collections}.

Lemma groupBy_Permutation f xs : concat (groupBy f xs).*2 ≡ₚ xs.
Proof. apply (groups_Permutation f); [apply groupBy_NoDup|intros k; apply groupBy_get]. Qed.

Lemma groupBy_elem f xs k ys : (k, ys) ∈ groupBy f xs → ys ≠ [] ∧ Forall (λ x, f x = k) ys.
Proof.
  intros Hin. apply elem_aget in Hin; [|apply groupBy_NoDup]. rewrite groupBy_get in Hin.
  destruct (filter _ xs) as [|y l] eqn:E; [done|]. simplify_eq. split; [done|]. rewrite <- E.
  apply Forall_forall. intros x Hx. by apply list_elem_of_filter in Hx as [? _].
Qed.
End groups.

(** ** Trees *)

(** The leaves below a node: the names on the way, and the two values. *)
Fixpoint leaves (n : TreeNode) : list (list string * (jsnum * jsnum)) :=
  match n with
  | Node name value secondary _ None => [([to_string name], (value, secondary))]
  | Node name _ _ _ (Some children) => (λ l, (to_string name :: l.1, l.2)) <$> flat_map leaves children
  end.

(** What a record is in the tree. *)
Definition record_leaf (columns : list string) (metric : string) (secondaryMetric : option string)
    (datum : jsobj) : list string * (jsnum * jsnum) :=
  ((λ c, to_string (ofield c datum)) <$> columns,
   (getMetricValue datum metric, secondary_of datum metric secondaryMetric)).

(** The values of every inner node are the sums of those of its children. *)
Inductive sums : TreeNode → Prop :=
  | sums_leaf name value secondary by_ : sums (Node name value secondary by_ None)
  | sums_node name by_ children :
      Forall sums children →
      sums (Node name (sum_of (node_value <$> children)) (sum_of (node_secondary <$> children)) by_ (Some children)).

Lemma flat_map_fmap {A B C} (g : B → C) (f : A → list B) l : g <$> flat_map f l = flat_map (λ x, g <$> f x) l.
Proof. induction l as [|x l IH]; cbn; [done|]. by rewrite fmap_app, <- IH. Qed.

Lemma flat_map_flat_map {A B C} (f : B → list C) (g : A → list B) l :
  flat_map f (flat_map g l) = flat_map (λ x, flat_map f (g x)) l.
Proof. induction l as [|x l IH]; cbn; [done|]. by rewrite flat_map_app, IH. Qed.

Lemma flat_map_groups {A B} (f : A → list B) (g : string * list A → list B) (groups : list (string * list A)) :
  Forall (λ e, g e ≡ₚ flat_map f e.2) groups → flat_map g groups ≡ₚ flat_map f (concat groups.*2).
Proof.
  induction 1 as [|[k ys] groups Hg _ IH]; cbn; [done|]. by rewrite flat_map_app, IH, Hg.
Qed.

Lemma flat_map_single {A B} (f : A → B) l : flat_map (λ x, [f x]) l = f <$> l.
Proof. induction l as [|x l IH]; cbn; [done|]. by rewrite IH. Qed.

Lemma flat_map_list_fmap {A B C} (f : B → list C) (g : A → B) l : flat_map f (g <$> l) = flat_map (λ x, f (g x)) l.
Proof. induction l as [|x l IH]; cbn; [done|]. by rewrite IH. Qed.

Section trees.
Context `{Collections}.
Implicit Types (data : list jsobj).

Lemma leaves_group column metric secondaryMetric rest inner k group :
  group ≠ [] → Forall (λ d, group_key (Some column) d = k) group →
  match inner with
  | None => rest = []
  | Some build => flat_map leaves (build group) ≡ₚ record_leaf rest metric secondaryMetric <$> group
  end →
  flat_map leaves (group_nodes (Some column) metric secondaryMetric inner group)
  ≡ₚ record_leaf (column :: rest) metric secondaryMetric <$> group.
Proof.
  intros Hne Hk Hinner. destruct group as [|d group]; [done|].
  assert (Hname : Forall (λ e, to_string (ofield column e) = to_string (ofield column d)) (d :: group)).
  { eapply Forall_impl; [exact Hk|]. intros e He. apply Forall_inv in Hk. cbn in He, Hk. congruence. }
  assert (Hmap : (λ l, (to_string (ofield column d) :: l.1, l.2)) <$> (record_leaf rest metric secondaryMetric <$> d :: group)
    = record_leaf (column :: rest) metric secondaryMetric <$> d :: group).
  { rewrite <- list_fmap_compose. apply list_fmap_ext. intros i e He. unfold record_leaf. cbn. do 2 f_equal.
    eapply Forall_lookup_1 in He; [|exact Hname]. by symmetry. }
  rewrite <- Hmap. destruct inner as [build|]; unfold group_nodes.
  - cbn [flat_map leaves default from_option]. by rewrite app_nil_r, Hinner.
  - subst rest. rewrite flat_map_list_fmap. cbn [leaves default from_option]. rewrite flat_map_single.
    by rewrite <- list_fmap_compose.
Qed.

Lemma grouped_leaves column (f : jsobj → list (list string * (jsnum * jsnum))) (nodes : list jsobj → list TreeNode) data :
  (∀ k group, group ≠ [] → Forall (λ d, group_key (Some column) d = k) group →
    flat_map leaves (nodes group) ≡ₚ flat_map f group) →
  flat_map leaves (flat_map (λ g, nodes g.2) (groupBy (group_key (Some column)) data)) ≡ₚ flat_map f data.
Proof.
  intros Hgroup. rewrite flat_map_flat_map, (flat_map_groups f); [by rewrite groupBy_Permutation|].
  apply Forall_forall. intros [k group] [Hne Hk]%groupBy_elem. by apply (Hgroup k).
Qed.

Lemma treeBuilder_leaves column columns metric secondaryMetric data :
  flat_map leaves (treeBuilder (column :: columns) metric secondaryMetric data)
  ≡ₚ record_leaf (column :: columns) metric secondaryMetric <$> data.
Proof.
  revert column data. induction columns as [|column' columns IH]; intros column data;
    rewrite <- flat_map_single; apply grouped_leaves; intros k group Hne Hk; rewrite flat_map_single;
    eapply leaves_group; try done. apply IH.
Qed.

(** Without a second metric both values of a node are the same. *)
Definition node_ok (secondaryMetric : option string) (n : TreeNode) : Prop :=
  sums n ∧ (match secondaryMetric with Some (String _ _) => True | _ => node_secondary n = node_value n end).

Lemma sums_group column metric secondaryMetric inner group :
  match inner with None => True | Some build => Forall (node_ok secondaryMetric) (build group) end →
  Forall (node_ok secondaryMetric) (group_nodes column metric secondaryMetric inner group).
Proof.
  intros Hinner. destruct inner as [build|]; unfold group_nodes.
  - apply Forall_cons. split; [|done]. set (children := build group) in *.
    assert (Hsums : Forall sums children) by (eapply Forall_impl; [exact Hinner|]; by intros n [? _]).
    destruct secondaryMetric as [[|c s]|]; [|split; [by constructor|done]|];
      (assert (Hsame : node_secondary <$> children = node_value <$> children)
         by (apply list_fmap_ext; intros i n Hn; by eapply Forall_lookup_1 in Hinner as [_ ?]));
      (split; [|done]); rewrite <- Hsame at 2; by constructor.
  - apply Forall_fmap, Forall_forall. intros d _. split; [constructor|]. by destruct secondaryMetric as [[|]|].
Qed.

Lemma treeBuilder_ok columns metric secondaryMetric data :
  Forall (node_ok secondaryMetric) (treeBuilder columns metric secondaryMetric data).
Proof.
  revert data. induction columns as [|column columns IH]; intros data; cbn [treeBuilder];
    apply Forall_flat_map, Forall_forall; intros g _; apply sums_group; [done|].
  destruct columns; [done|apply IH].
Qed.
End trees.

(** ** Series *)

(** What the chart shows for a record: its value, or its share of the total. *)
Definition shown_value (opts : SeriesOptions) (name : string) (row : jsobj) (total : jsval) : jsval :=
  if is_str (stack opts) "Expand" && negb (is_undefined total)
  then JNum (num_div (to_number (js_or (ofield name row) (JNum (num_of_Z 0)))) (to_number total))
  else ofield name row.

(** The point of a record, where it stands on the axis first. *)
Definition record_point (opts : SeriesOptions) (name : string) (r : jsobj * jsval) : jsval * jsval :=
  (ofield (xAxis opts) r.1, shown_value opts name r.1 r.2).

(** Points without their axis or their value are left out on demand. *)
Definition kept_point (opts : SeriesOptions) (p : jsval * jsval) : bool :=
  negb (removeNulls opts) || (negb (strict_eq p.1 JNull) && negb (strict_eq p.2 JNull)).

(** A horizontal chart has its axes exchanged. *)
Definition oriented (opts : SeriesOptions) (p : jsval * jsval) : jsval * jsval :=
  if isHorizontal opts then (p.2, p.1) else p.

(** The points of a series by the records as they come, each with its total. *)
Definition record_points (opts : SeriesOptions) (name : string) (rows : list (jsobj * jsval)) : list (jsval * jsval) :=
  oriented opts <$> filter (λ p, kept_point opts p = true) (record_point opts name <$> rows).

Section series.
Context `{Collections}.

Lemma imap_const {A B} (f : A → B) (l : list A) : imap (λ _ x, f x) l = f <$> l.
Proof. induction l as [|x l IH]; cbn; [done|]. by f_equal. Qed.

Lemma series_points_spec opts rows sorted name :
  fillNeighborValue opts = None → series_points opts rows sorted name = record_points opts name sorted.
Proof.
  intros Hfill. unfold series_points, record_points.
  rewrite (imap_ext _ (λ _ r, record_point opts name r)); last first.
  { intros i r _. unfold record_point, point_value, shown_value. by rewrite Hfill. }
  rewrite imap_const. unfold kept_point, oriented.
  destruct (removeNulls opts); cbn.
  - rewrite (list_filter_iff _ (λ p, negb (strict_eq p.1 JNull) && negb (strict_eq p.2 JNull) = true)).
    + destruct (isHorizontal opts); [done|]. by rewrite list_fmap_id.
    + intros p. rewrite andb_true_iff, !negb_true_iff. done.
  - rewrite filter_all by done. destruct (isHorizontal opts); [done|]. by rewrite list_fmap_id.
Qed.

Lemma sorted_rows_Permutation opts rows : sorted_rows opts rows ≡ₚ with_totals rows (totalStackedValues opts).
Proof.
  unfold sorted_rows, sortRows. repeat case_match; try done. apply orderBy_Permutation.
Qed.

Lemma sortAndFilterSeries_Permutation rows x labels sort asc :
  sortAndFilterSeries rows x labels sort asc
  ≡ₚ filter (λ k, k ≠ x ∧ js_includes labels (JStr k) = false) (akeys (default [] (head rows))).
Proof.
  unfold sortAndFilterSeries. set (names := filter _ _).
  assert (Hby : ∀ (f : string → jsval), (orderBy snd asc ((λ name, (name, f name)) <$> names)).*1 ≡ₚ names).
  { intros f. rewrite orderBy_Permutation, <- list_fmap_compose. by rewrite list_fmap_id. }
  destruct sort as [[]|]; try apply Hby; apply js_sort_Permutation.
Qed.
End series.

(** ** The functions on collections, written out *)

(** By the first element with each key, as for keys that are not numbers. *)
Definition group_by (f : jsobj → string) (xs : list jsobj) : list (string * list jsobj) :=
  (λ k, (k, filter (λ x, f x = k) xs)) <$> reverse (remove_dups (reverse (f <$> xs))).

Lemma akeys_group_by f xs : akeys (group_by f xs) = reverse (remove_dups (reverse (f <$> xs))).
Proof. unfold akeys, group_by. rewrite <- list_fmap_compose. apply list_fmap_id. Qed.

Lemma group_by_NoDup f xs : NoDup (akeys (group_by f xs)).
Proof. rewrite akeys_group_by, reverse_Permutation. apply NoDup_remove_dups. Qed.

Lemma group_by_get f xs k :
  aget k (group_by f xs) = match filter (λ x, f x = k) xs with [] => None | ys => Some ys end.
Proof.
  destruct (filter (λ x, f x = k) xs) as [|y ys] eqn:E.
  - apply aget_None. rewrite akeys_group_by, elem_of_reverse, elem_of_remove_dups, elem_of_reverse, list_elem_of_fmap. intros (x & -> & Hx).
    assert (x ∈ filter (λ y, f y = f x) xs) as H by by apply list_elem_of_filter. rewrite E in H.
    by apply not_elem_of_nil in H.
  - apply elem_aget; [apply group_by_NoDup|]. rewrite <- E.
    assert (y ∈ filter (λ x, f x = k) xs) as [<- Hy]%list_elem_of_filter by (rewrite E; left).
    apply list_elem_of_fmap. exists (f y). split; [done|].
    apply elem_of_reverse, elem_of_remove_dups, elem_of_reverse, list_elem_of_fmap. by exists y.
Qed.

Definition order_by {A} (key : A → jsval) (ascending : bool) (xs : list A) : list A :=
  js_sort (λ a b, num_of_Z (if js_lt (key b) (key a) then if ascending then 1 else -1
                            else if js_lt (key a) (key b) then if ascending then -1 else 1 else 0)) xs.

Definition sum_by (xs : list jsobj) (k : string) : jsval := foldl js_add JUndef (ofield k <$> xs).

Definition best_by (better : jsval → jsval → bool) (xs : list jsobj) (k : string) : option jsobj :=
  foldl (λ acc x,
    if is_nullish (ofield k x) then acc
    else match acc with Some y => if better (ofield k x) (ofield k y) then Some x else acc | None => Some x end)
    None xs.

Definition reference_collections : Collections := {|
  groupBy := group_by; groupBy_get := group_by_get; groupBy_NoDup := group_by_NoDup;
  orderBy A := order_by; orderBy_Permutation A key asc xs := js_sort_Permutation _ xs;
  sumBy := sum_by;
  meanBy xs k := JNum (num_div (to_number (sum_by xs k)) (num_of_Z (Z.of_nat (length xs))));
  minBy := best_by js_lt;
  maxBy := best_by (λ a b, js_lt b a);
  collate a b := num_of_Z (if str_ltb b a then 1 else if str_ltb a b then -1 else 0);
|}.

(** ** The results *)

(** C21. The tree of a result has one leaf per record: its names on the way from
    the root are the values of the record in the columns of the tree, in their
    order, and its two values are those of the metrics in the record, a value that
    is no number being zero and a missing second metric the first.  No record is
    lost, and none counted twice, also when records agree in all columns.  The
    value and the second value of every inner node are the sums of those of its
    children, in their order. *)
Theorem tree_leaves `{Collections} columns metric secondaryMetric data :
  columns ≠ [] →
  flat_map leaves (treeBuilder columns metric secondaryMetric data)
    ≡ₚ record_leaf columns metric secondaryMetric <$> data ∧
  Forall sums (treeBuilder columns metric secondaryMetric data).
Proof.
  intros Hne. destruct columns as [|column columns]; [done|]. split; [apply treeBuilder_leaves|].
  eapply Forall_impl; [apply (treeBuilder_ok _ _ secondaryMetric)|]. by intros n [? _].
Qed.

(** C20. When missing values are not filled, the series are the columns of the first
    record that are neither the axis nor labels of further metrics.  A
    series has one point per record, less those left out for a missing axis or
    value, exchanged for a horizontal chart: the axis of the record, a missing
    category by its name, with its value, or with its share of the total when the
    stack is expanded.  The total is the one computed for that record, also when the
    records are sorted, and the totals returned are in the same order as the
    points; without sorting the points are in the order of the records. *)
Theorem extractSeries_points `{Collections} first rest opts :
  fillNeighborValue opts = None →
  let data := first :: rest in
  let rows := with_totals (axis_row opts <$> data) (totalStackedValues opts) in
  ∃ sorted, sorted ≡ₚ rows ∧ (xAxisSortSeries opts = None → sorted = rows) ∧
    (extractSeries data opts).1.2 = sorted.*2 ∧
    ∃ names,
      names ≡ₚ filter (λ k, k ≠ xAxis opts ∧ js_includes (extraMetricLabels opts) (JStr k) = false)
                 (akeys (axis_row opts first)) ∧
      (extractSeries data opts).1.1
      = (λ name, {| s_id := JStr name; s_data := record_points opts name sorted |}) <$> names.
Proof.
  intros Hfill data rows. exists (sorted_rows opts (axis_row opts <$> data)).
  split; [apply sorted_rows_Permutation|].
  split; [intros Hno; unfold sorted_rows; by rewrite Hno|]. split; [done|].
  exists (sortAndFilterSeries (axis_row opts <$> data) (xAxis opts) (extraMetricLabels opts) (sortSeriesType opts)
            (sortSeriesAscending opts)).
  split; [apply sortAndFilterSeries_Permutation|]. cbn [extractSeries data fst snd].
  apply list_fmap_ext. intros i name _. by rewrite series_points_spec.
Qed.

(** *** Witnesses *)

Definition whole (z : Z) : jsval := JNum (num_of_Z z).

Definition sales : list jsobj :=
  [ [("country", JStr "DE"); ("city", JStr "Bonn"); ("sales", whole 3); ("cost", whole 2)];
    [("country", JStr "FR"); ("city", JStr "Lyon"); ("sales", whole 5); ("cost", whole 1)];
    [("country", JStr "DE"); ("city", JStr "Bremen"); ("sales", JNull); ("cost", whole 4)];
    [("country", JStr "DE"); ("city", JStr "Bonn"); ("sales", whole 1); ("cost", whole 1)] ].

Lemma tree_leaves_witness :
  flat_map leaves (@treeBuilder reference_collections ["country"; "city"] "sales" (Some "cost") sales)
    ≡ₚ record_leaf ["country"; "city"] "sales" (Some "cost") <$> sales ∧
  node_value <$> @treeBuilder reference_collections ["country"; "city"] "sales" (Some "cost") sales
    = [num_of_Z 4; num_of_Z 5].
Proof.
  split; [|vm_compute; reflexivity].
  apply (@tree_leaves reference_collections). discriminate.
Defined.

Definition stacked : SeriesOptions := {|
  fillNeighborValue := None; xAxis := "city"; extraMetricLabels := [JStr "country"]; removeNulls := true;
  stack := JStr "Expand"; totalStackedValues := [whole 5; whole 6; whole 4; whole 2]; isHorizontal := false;
  sortSeriesType := Some SortSum; sortSeriesAscending := false;
  xAxisSortSeries := Some SortSum; xAxisSortSeriesAscending := Some true; xAxisType := JStr "category" |}.

Lemma extractSeries_points_witness :
  (@extractSeries reference_collections sales stacked).1.2 = [whole 2; whole 4; whole 5; whole 6] ∧
  ∃ sorted, sorted ≡ₚ with_totals (axis_row stacked <$> sales) [whole 5; whole 6; whole 4; whole 2] ∧
    (@extractSeries reference_collections sales stacked).1.2 = sorted.*2.
Proof.
  split; [vm_compute; reflexivity|].
  edestruct (@extractSeries_points reference_collections) as (sorted & Hsorted & _ & Htotals & _);
    [|exists sorted; split; [exact Hsorted|exact Htotals]]. reflexivity.
Defined.

(** *** Where the results are not the ones meant *)

(** A number given to a repeated name may be the name of another series. *)
Example dedup_repeats :
  s_id <$> dedupSeries ((λ s, {| s_id := JStr s; s_data := [] |}) <$> ["a"; "a"; "a (1)"])
  = [JStr "a"; JStr "a (1)"; JStr "a (1)"].
Proof. vm_compute. reflexivity. Qed.

(** The total of a stack is shown by the last series with a positive value; when it
    is the first of all, by the last one with any value, also by one below zero. *)
Example total_below_zero :
  let series (v : Z) := {| s_id := JUndef; s_data := [(JStr "x", whole v)] |} in
  extractShowValueIndexes [series 5%Z; series (-2)%Z] (JStr "Stack") true false None = [Some 1] ∧
  extractShowValueIndexes [series 0%Z; series 5%Z; series (-2)%Z] (JStr "Stack") true false None = [Some 1].
Proof. vm_compute. split; reflexivity. Qed.

(** Which missing values are filled depends on the order the records came in, not
    on the one they are shown in: of the points [1], [2] and [3], of which only [1]
    has a value, [2] should be filled, and [3] is filled when [1] came second. *)
Definition filled : SeriesOptions := {|
  fillNeighborValue := Some (whole 0); xAxis := "x"; extraMetricLabels := []; removeNulls := false;
  stack := JBool false; totalStackedValues := []; isHorizontal := false;
  sortSeriesType := None; sortSeriesAscending := true;
  xAxisSortSeries := Some SortName; xAxisSortSeriesAscending := Some true; xAxisType := JUndef |}.

Example filled_by_arrival :
  let row (x : Z) v : jsobj := [("x", whole x); ("v", v)] in
  let points data := s_data <$> (@extractSeries reference_collections data filled).1.1 in
  points [row 1%Z (whole 7); row 2%Z JNull; row 3%Z JNull] = [[(whole 1, whole 7); (whole 2, whole 0); (whole 3, JNull)]] ∧
  points [row 3%Z JNull; row 1%Z (whole 7); row 2%Z JNull] = [[(whole 1, whole 7); (whole 2, JNull); (whole 3, whole 0)]].
Proof. vm_compute. split; reflexivity. Qed.
