(* ===== verification/Pivot.v ===== *)
(** * The data of a pivot table

    [PivotData] of
    [plugins/plugin-chart-pivot-table/src/react-pivottable/utilities.js] groups
    the records of a query by the values of the row and the column attributes.
    Each cell, each total of a row or a column and the total of all has an
    aggregator, to which the records of the group are pushed one after the
    other.

    An aggregator is a value of [agg]; pushing a record gives the next one.  The
    value of a fraction depends on the totals of the table, so that it is read
    with the table.  Cells are kept in objects under the flat form of their keys.
    Formatters, which have no influence on the values, are left out. *)

From Stdlib Require Import Ascii String.
From stdpp Require Import base strings option numbers list.
From S2P Require Import Prelude JsObject JsNumber JsValue NaturalSort.

(** ** Aggregators *)

Inductive extreme := Min | Max | First | Last.
Inductive stat := Mean | Var | Stdev.
Inductive fraction := Total | Row | Col.

(** The state of an aggregator that does not look at the table. *)
Inductive base_agg :=
| Count (count : nat)
| Uniques (attr : string) (separator : option string) (uniq : list jsval)
| Sum (attr : string) (sum : jsval)
| Extremes (mode : extreme) (attr : string) (val : jsval)
| Quantile (q : jsnum) (attr : string) (vals : list jsnum) (strMap : list (string * nat))
| RunningStat (mode : stat) (ddof : jsnum) (attr : string) (n m s : jsnum) (strValue : jsval)
| SumOverSum (num denom : string) (sumNum sumDenom : jsnum).

(** @source src/superset-frontend/plugins/plugin-chart-pivot-table/src/react-pivottable/utilities.js 235-241 sum (push) *)
Definition push_sum (v sum : jsval) : jsval :=
  if isNaN (to_number v) then v else js_add sum (JNum (parseFloat (to_string v))).

(** The sorter of the first and last value is the natural one: the object it is
    looked for in is the table, which has no sorters.

    @source src/superset-frontend/plugins/plugin-chart-pivot-table/src/react-pivottable/utilities.js 260-289 extremes (push) *)
Definition push_extreme (mode : extreme) (x val : jsval) : jsval :=
  let seen := match val with JNull => x | v => v end in
  let number (f : jsnum → jsnum → jsnum) (better : bool) :=
    let coercedValue := to_number x in
    if isNaN coercedValue then
      if negb (truthy val) || better then x else val
    else JNum (f coercedValue (match val with JNull => coercedValue | v => to_number v end)) in
  match mode with
  | Min => number num_min (js_lt x val)
  | Max => number num_max (js_lt val x)
  | First => if num_leb (naturalSort x seen) n0 then x else val
  | Last => if num_leb n0 (naturalSort x seen) then x else val
  end.

(** @source src/superset-frontend/plugins/plugin-chart-pivot-table/src/react-pivottable/utilities.js 193-454 baseAggregatorTemplates (push) *)
Definition push_base (record : jsobj) (a : base_agg) : base_agg :=
  match a with
  | Count count => Count (S count)
  | Uniques attr sep uniq =>
      let v := ofield attr record in
      Uniques attr sep (if js_includes uniq v then uniq else uniq ++ [v])
  | Sum attr sum => Sum attr (push_sum (ofield attr record) sum)
  | Extremes mode attr val => Extremes mode attr (push_extreme mode (ofield attr record) val)
  | Quantile q attr vals strMap =>
      let v := ofield attr record in
      let x := to_number v in
      if isNaN x
      then Quantile q attr vals (oset (to_string v) (S (default 0 (aget (to_string v) strMap))) strMap)
      else Quantile q attr (vals ++ [x]) strMap
  | RunningStat mode ddof attr n m s strValue =>
      let v := ofield attr record in
      let x := to_number v in
      if isNaN x then RunningStat mode ddof attr n m s (if is_string v then v else strValue)
      else
        let n := num_add n n1 in
        let m := if num_eqb n n1 then x else m in
        let mNew := num_add m (num_div (num_sub x m) n) in
        RunningStat mode ddof attr n mNew
          (num_add s (num_mul (num_sub x m) (num_sub x mNew))) strValue
  | SumOverSum num denom sumNum sumDenom =>
      let add k sum :=
        let v := ofield k record in
        if isNaN (to_number v) then sum else num_add sum (parseFloat (to_string v)) in
      SumOverSum num denom (add num sumNum) (add denom sumDenom)
  end.

Definition num_compare (a b : jsnum) : jsnum := num_sub a b.

(** @source src/superset-frontend/plugins/plugin-chart-pivot-table/src/react-pivottable/utilities.js 319-342 quantile (value) *)
Definition quantile_value (q : jsnum) (vals : list jsnum) (strMap : list (string * nat)) : jsval :=
  match vals, strMap with
  | [], [] => JNull
  | _, _ :: _ =>
      let keys := akeys strMap in
      let middle := length keys / 2 in
      if Nat.odd (length keys) then from_option JStr JUndef (keys !! middle)
      else
        JNum (num_div (Number_of_string (default EmptyString (keys !! (middle - 1)) +:+
                                         default EmptyString (keys !! middle))) (num_of_Z 2))
  | _, [] =>
      let sorted := js_sort num_compare vals in
      let i := num_mul (num_of_Z (Z.of_nat (length vals) - 1)) q in
      let at_ j := default NaN (sorted !! Z.to_nat j) in
      JNum (num_div (num_add (at_ (floor_Z i)) (at_ (ceil_Z i))) (num_of_Z 2))
  end.

(** @source src/superset-frontend/plugins/plugin-chart-pivot-table/src/react-pivottable/utilities.js 373-395 runningStat (value) *)
Definition stat_value (mode : stat) (ddof n m s : jsnum) (strValue : jsval) : jsval :=
  if truthy strValue then strValue
  else match mode with
       | Mean => JNum (if num_eqb n n0 then NaN else m)
       | Var => JNum (if num_leb n ddof then n0 else num_div s (num_sub n ddof))
       | Stdev => JNum (if num_leb n ddof then n0 else num_sqrt (num_div s (num_sub n ddof)))
       end.

Definition base_value (a : base_agg) : jsval :=
  match a with
  | Count count => JNum (num_of_Z (Z.of_nat count))
  | Uniques _ None uniq => JNum (num_of_Z (Z.of_nat (length uniq)))
  | Uniques _ (Some sep) uniq =>
      JStr (join sep ((λ v, if is_nullish v then EmptyString else to_string v) <$> uniq))
  | Sum _ sum => sum
  | Extremes _ _ val => val
  | Quantile q _ vals strMap => quantile_value q vals strMap
  | RunningStat mode ddof _ n m s strValue => stat_value mode ddof n m s strValue
  | SumOverSum _ _ sumNum sumDenom => JNum (num_div sumNum sumDenom)
  end.

(** An aggregator that looks at the totals keeps its selector. *)
Inductive agg :=
| Base (a : base_agg)
| FractionOf (selector : list jsval * list jsval) (inner : base_agg).

Definition push (record : jsobj) (a : agg) : agg :=
  match a with
  | Base a => Base (push_base record a)
  | FractionOf selector inner => FractionOf selector (push_base record inner)
  end.

(** @source src/superset-frontend/plugins/plugin-chart-pivot-table/src/react-pivottable/utilities.js 427-453 fractionOf *)
Definition fractionOf (type : fraction) (wrapped : base_agg) (rowKey colKey : list jsval) : agg :=
  FractionOf match type with
             | Total => ([], [])
             | Row => (rowKey, [])
             | Col => ([], colKey)
             end wrapped.

(** The attribute of an aggregator that takes one; a missing one is read as
    [undefined]. *)
Definition attr_of (vals : list string) (i : nat) : string := default "undefined" (vals !! i).

(** The aggregators by their names.

    @source src/superset-frontend/plugins/plugin-chart-pivot-table/src/react-pivottable/utilities.js 495-516 aggregators *)
Definition aggregators (name : string) (vals : list string)
    : option (list jsval → list jsval → agg) :=
  let attr := attr_of vals 0 in
  let q50 := num_div n1 (num_of_Z 2) in
  let running mode := RunningStat mode n1 attr n0 n0 n0 JNull in
  aget name
    [("Count", λ _ _, Base (Count 0));
     ("Count Unique Values", λ _ _, Base (Uniques attr None []));
     ("List Unique Values", λ _ _, Base (Uniques attr (Some ", ") []));
     ("Sum", λ _ _, Base (Sum attr (JNum n0)));
     ("Integer Sum", λ _ _, Base (Sum attr (JNum n0)));
     ("Average", λ _ _, Base (running Mean));
     ("Median", λ _ _, Base (Quantile q50 attr [] []));
     ("Sample Variance", λ _ _, Base (running Var));
     ("Sample Standard Deviation", λ _ _, Base (running Stdev));
     ("Minimum", λ _ _, Base (Extremes Min attr JNull));
     ("Maximum", λ _ _, Base (Extremes Max attr JNull));
     ("First", λ _ _, Base (Extremes First attr JNull));
     ("Last", λ _ _, Base (Extremes Last attr JNull));
     ("Sum over Sum", λ _ _, Base (SumOverSum attr (attr_of vals 1) n0 n0));
     ("Sum as Fraction of Total", fractionOf Total (Sum attr (JNum n0)));
     ("Sum as Fraction of Rows", fractionOf Row (Sum attr (JNum n0)));
     ("Sum as Fraction of Columns", fractionOf Col (Sum attr (JNum n0)));
     ("Count as Fraction of Total", fractionOf Total (Count 0));
     ("Count as Fraction of Rows", fractionOf Row (Count 0));
     ("Count as Fraction of Columns", fractionOf Col (Count 0))].

(** ** The table *)

(** @source src/superset-frontend/plugins/plugin-chart-pivot-table/src/react-pivottable/utilities.js 603-603 flatKey *)
Definition flatKey (attrVals : list jsval) : string :=
  join (String "000" EmptyString)
    ((λ v, if is_nullish v then EmptyString else to_string v) <$> attrVals).

Inductive order := key_a_to_z | key_z_to_a | value_a_to_z | value_z_to_a.

Record pivot_props := {
  rows : list string;
  cols : list string;
  aggregator : list jsval → list jsval → agg;
  sorters : string → option sorter;
  rowOrder : order;
  colOrder : order;
  rowEnabled : bool;
  colEnabled : bool;
  rowPartialOnTop : bool;
  colPartialOnTop : bool;
}.

(** A cell: its aggregator and whether it is the subtotal of its row or column. *)
Record cell := {
  c_agg : agg;
  isRowSubtotal : bool;
  isColSubtotal : bool;
}.

Record pivot := {
  tree : list (string * list (string * cell));
  rowKeys : list (list jsval);
  colKeys : list (list jsval);
  rowTotals : list (string * cell);
  colTotals : list (string * cell);
  allTotal : agg;
  sorted : bool;
}.

Section table.
Context (p : pivot_props).

(** The values of the attributes of a record.

    @source src/superset-frontend/plugins/plugin-chart-pivot-table/src/react-pivottable/utilities.js 738-745 processRecord (keys) *)
Definition key_of (attrs : list string) (record : jsobj) : list jsval :=
  (λ attr, default (JStr "null") (aget attr record)) <$> attrs.

(** The prefixes of a key that have totals: with subtotals, all that are not
    empty, otherwise the key itself.

    @source src/superset-frontend/plugins/plugin-chart-pivot-table/src/react-pivottable/utilities.js 749-757 processRecord (prefixes) *)
Definition prefixes (enabled : bool) (key : list jsval) : list (list jsval) :=
  let start := if enabled then 1 else Nat.max 1 (length key) in
  (λ n, take n key) <$> seq start (S (length key) - start).

(** The record is pushed to the aggregator of the cell, which is made first when
    there is none. *)
Definition push_cell (record : jsobj) (fresh : agg) (isRow isCol : bool) (k : string)
    (cells : list (string * cell)) : list (string * cell) :=
  let a := match aget k cells with Some c => c_agg c | None => fresh end in
  oset k {| c_agg := push record a; isRowSubtotal := isRow; isColSubtotal := isCol |} cells.

(** A key that has no total yet is added to the keys.

    @source src/superset-frontend/plugins/plugin-chart-pivot-table/src/react-pivottable/utilities.js 754-769 processRecord (row totals) *)
Definition push_row_total (record : jsobj) (len : nat) (st : pivot) (key : list jsval) : pivot :=
  let flat := flatKey key in
  {| tree := tree st;
     rowKeys := if ahas flat (rowTotals st) then rowKeys st else rowKeys st ++ [key];
     colKeys := colKeys st;
     rowTotals := push_cell record (aggregator p key []) (length key <? len) false flat (rowTotals st);
     colTotals := colTotals st; allTotal := allTotal st; sorted := sorted st |}.

(** @source src/superset-frontend/plugins/plugin-chart-pivot-table/src/react-pivottable/utilities.js 771-784 processRecord (column totals) *)
Definition push_col_total (record : jsobj) (len : nat) (st : pivot) (key : list jsval) : pivot :=
  let flat := flatKey key in
  {| tree := tree st; rowKeys := rowKeys st;
     colKeys := if ahas flat (colTotals st) then colKeys st else colKeys st ++ [key];
     rowTotals := rowTotals st;
     colTotals := push_cell record (aggregator p [] key) false (length key <? len) flat (colTotals st);
     allTotal := allTotal st; sorted := sorted st |}.

(** @source src/superset-frontend/plugins/plugin-chart-pivot-table/src/react-pivottable/utilities.js 786-808 processRecord (cells) *)
Definition push_row_cells (record : jsobj) (rowLen colLen : nat) (colPrefixes : list (list jsval))
    (st : pivot) (rowKey : list jsval) : pivot :=
  let cells := default [] (aget (flatKey rowKey) (tree st)) in
  let cells :=
    foldl (λ cells colKey,
      push_cell record (aggregator p rowKey colKey) (length rowKey <? rowLen)
        (length colKey <? colLen) (flatKey colKey) cells) cells colPrefixes in
  {| tree := oset (flatKey rowKey) cells (tree st); rowKeys := rowKeys st; colKeys := colKeys st;
     rowTotals := rowTotals st; colTotals := colTotals st; allTotal := allTotal st;
     sorted := sorted st |}.

(** @source src/superset-frontend/plugins/plugin-chart-pivot-table/src/react-pivottable/utilities.js 736-809 processRecord *)
Definition processRecord (st : pivot) (record : jsobj) : pivot :=
  let colKey := key_of (cols p) record in
  let rowKey := key_of (rows p) record in
  let st :=
    {| tree := tree st; rowKeys := rowKeys st; colKeys := colKeys st; rowTotals := rowTotals st;
       colTotals := colTotals st; allTotal := push record (allTotal st); sorted := sorted st |} in
  let rowPrefixes := prefixes (rowEnabled p) rowKey in
  let colPrefixes := prefixes (colEnabled p) colKey in
  let st := foldl (push_row_total record (length rowKey)) st rowPrefixes in
  let st := foldl (push_col_total record (length colKey)) st colPrefixes in
  foldl (push_row_cells record (length rowKey) (length colKey) colPrefixes) st rowPrefixes.

Definition empty_pivot : pivot :=
  {| tree := []; rowKeys := []; colKeys := []; rowTotals := []; colTotals := [];
     allTotal := aggregator p [] []; sorted := false |}.

(** @source src/superset-frontend/plugins/plugin-chart-pivot-table/src/react-pivottable/utilities.js 610-648 PivotData *)
Definition new_PivotData (data : list jsobj) : pivot := foldl processRecord empty_pivot data.

(** ** Reading the table *)

(** The aggregator of a cell; [None] stands for the one without a value.

    @source src/superset-frontend/plugins/plugin-chart-pivot-table/src/react-pivottable/utilities.js 811-834 getAggregator *)
Definition getAggregator (st : pivot) (rowKey colKey : list jsval) : result (option agg) :=
  match rowKey, colKey with
  | [], [] => Ok (Some (allTotal st))
  | [], _ => Ok (c_agg <$> aget (flatKey colKey) (colTotals st))
  | _, [] => Ok (c_agg <$> aget (flatKey rowKey) (rowTotals st))
  | _, _ =>
      match aget (flatKey rowKey) (tree st) with
      | Some cells => Ok (c_agg <$> aget (flatKey colKey) cells)
      | None => Throw (TypeError "Cannot read properties of undefined")
      end
  end.

(** The value of an aggregator in a table.

    @source src/superset-frontend/plugins/plugin-chart-pivot-table/src/react-pivottable/utilities.js 440-450 fractionOf (value) *)
Definition agg_value (st : pivot) (a : agg) : result jsval :=
  match a with
  | Base a => Ok (base_value a)
  | FractionOf selector inner =>
      total ← getAggregator st selector.1 selector.2;
      match total with
      | Some (FractionOf _ total) =>
          match base_value total with
          | JStr s => Ok (JStr s)
          | acc => Ok (JNum (num_div (to_number (base_value inner)) (to_number acc)))
          end
      | _ => Throw (TypeError "Cannot read properties of undefined (reading 'value')")
      end
  end.

(** [this.getAggregator(r, c).value()] *)
Definition cell_value (st : pivot) (rowKey colKey : list jsval) : result jsval :=
  a ← getAggregator st rowKey colKey;
  match a with
  | Some a => agg_value st a
  | None => Ok JNull
  end.

(** @source src/superset-frontend/plugins/plugin-chart-pivot-table/src/react-pivottable/utilities.js 166-178 getSort *)
Definition getSort (attr : string) : sorter := default naturalSort (sorters p attr).

(** @source src/superset-frontend/plugins/plugin-chart-pivot-table/src/react-pivottable/utilities.js 672-682 arrSort (loop) *)
Fixpoint compare_keys (sorters : list sorter) (reverse : bool) (a b : list jsval) : option jsnum :=
  match sorters, a, b with
  | s :: sorters, x :: a, y :: b =>
      let comparison := if reverse then s y x else s x y in
      if num_eqb comparison n0 then compare_keys sorters reverse a b else Some comparison
  | _, _, _ => None
  end.

(** @source src/superset-frontend/plugins/plugin-chart-pivot-table/src/react-pivottable/utilities.js 670-683 arrSort *)
Definition arrSort (attrs : list string) (partialOnTop reverse : bool) (a b : list jsval) : jsnum :=
  match compare_keys (getSort <$> attrs) reverse a b with
  | Some comparison => comparison
  | None =>
      let len (l : list jsval) := num_of_Z (Z.of_nat (length l)) in
      if partialOnTop then num_sub (len a) (len b) else num_sub (len b) (len a)
  end.

(** Values that a comparison reads; a table that throws there is left out of the
    order. *)
Definition value_or_null (v : result jsval) : jsval := match v with Ok v => v | Throw _ => JNull end.

(** @source src/superset-frontend/plugins/plugin-chart-pivot-table/src/react-pivottable/utilities.js 689-704 sortKeys (rows) *)
Definition compare_by (o : order) (attrs : list string) (partialOnTop : bool)
    (value : list jsval → result jsval) (a b : list jsval) : jsnum :=
  let v k := value_or_null (value k) in
  match o with
  | key_z_to_a => arrSort attrs partialOnTop true a b
  | value_a_to_z => naturalSort (v a) (v b)
  | value_z_to_a => num_opp (naturalSort (v a) (v b))
  | key_a_to_z => arrSort attrs partialOnTop false a b
  end.

(** @source src/superset-frontend/plugins/plugin-chart-pivot-table/src/react-pivottable/utilities.js 685-724 sortKeys *)
Definition sortKeys (st : pivot) : pivot :=
  if sorted st then st
  else
    {| tree := tree st;
       rowKeys := js_sort (compare_by (rowOrder p) (rows p) (rowPartialOnTop p)
                             (λ k, cell_value st k [])) (rowKeys st);
       colKeys := js_sort (compare_by (colOrder p) (cols p) (colPartialOnTop p)
                             (λ k, cell_value st [] k)) (colKeys st);
       rowTotals := rowTotals st; colTotals := colTotals st; allTotal := allTotal st;
       sorted := true |}.

(** @source src/superset-frontend/plugins/plugin-chart-pivot-table/src/react-pivottable/utilities.js 726-734 getColKeys, getRowKeys *)
Definition getRowKeys (st : pivot) : list (list jsval) * pivot := (rowKeys (sortKeys st), sortKeys st).
Definition getColKeys (st : pivot) : list (list jsval) * pivot := (colKeys (sortKeys st), sortKeys st).
End table.
