(* ===== verification/PivotFacts.v ===== *)
(** * Facts about the data of a pivot table

    Every cell and every total holds what its aggregator gives for exactly the
    records of its group, in their order; the keys are the groups that occur,
    each once, in the order of their first records; the counts of a row add up
    to its total and the totals of the rows to the total of all. *)

From Stdlib Require Import Ascii String.
From stdpp Require Import base strings option numbers list sorting.
From S2P Require Import Prelude JsObject JsNumber JsValue NaturalSort Pivot.

(** ** Groups of records *)

Section table.
Context (p : pivot_props).

Implicit Types (r : jsobj) (data : list jsobj) (st : pivot) (k l : string).

(** The flat keys of the rows and of the columns a record belongs to. *)
Definition row_prefixes r := prefixes (rowEnabled p) (key_of (rows p) r).
Definition col_prefixes r := prefixes (colEnabled p) (key_of (cols p) r).
Definition in_row k r : bool := bool_decide (k ∈ flatKey <$> row_prefixes r).
Definition in_col k r : bool := bool_decide (k ∈ flatKey <$> col_prefixes r).

(** An aggregator of a group is there when the group has records; it was made
    for a key with the flat form of the group, and got its records. *)
Definition grouped (fresh : agg → Prop) (group : list jsobj) (a : option agg) : Prop :=
  match group with
  | [] => a = None
  | _ => ∃ a0, fresh a0 ∧ a = Some (foldl (λ a r, push r a) a0 group)
  end.

Lemma grouped_snoc fresh group r a a0 :
  grouped fresh group a → fresh a0 →
  grouped fresh (group ++ [r]) (Some (push r (default a0 a))).
Proof.
  destruct group as [|r' group]; simpl.
  - intros -> Hf. exists a0. done.
  - intros (a1 & H1 & ->) _. exists a1. split; [done|]. by rewrite foldl_app.
Qed.

(** ** Prefixes *)

Lemma flatKey_cons v key :
  key ≠ [] →
  flatKey (v :: key) =
  (if is_nullish v then EmptyString else to_string v) +:+ String "000" (flatKey key).
Proof. destruct key; [done|]. intros _. by unfold flatKey. Qed.

Lemma flatKey_app key key' :
  key ≠ [] → key' ≠ [] → flatKey (key ++ key') = flatKey key +:+ String "000" (flatKey key').
Proof.
  induction key as [|v [|w key] IH]; [done| |]; intros _ H'.
  - change ([v] ++ key') with (v :: key'). by rewrite flatKey_cons.
  - change ((v :: w :: key) ++ key') with (v :: ((w :: key) ++ key')).
    rewrite !flatKey_cons, IH by done. by rewrite <- string_app_assoc.
Qed.

Lemma flatKey_longer key key' :
  key ≠ [] → key' ≠ [] → String.length (flatKey key) < String.length (flatKey (key ++ key')).
Proof. intros H H'. rewrite flatKey_app, string_length_app by done. simpl. lia. Qed.

Lemma flatKey_take_inj key n m :
  1 ≤ n ≤ length key → 1 ≤ m ≤ length key → flatKey (take n key) = flatKey (take m key) → n = m.
Proof.
  assert (∀ n m, 1 ≤ n → n < m → m ≤ length key →
            String.length (flatKey (take n key)) < String.length (flatKey (take m key))) as Hlt.
  { intros i j Hi Hj Hl. rewrite <- (take_drop i (take j key)), take_take, Nat.min_l by lia.
    apply flatKey_longer; intros H%(f_equal length); revert H;
      rewrite ?length_drop, !length_take; simpl; lia. }
  intros Hn Hm Heq. destruct (Nat.lt_trichotomy n m) as [H|[H|H]]; [|done|];
    (apply Hlt in H; [rewrite Heq in H|..]; lia).
Qed.

Lemma elem_of_prefixes enabled key key' :
  key' ∈ prefixes enabled key →
  ∃ n, key' = take n key ∧ 1 ≤ n ≤ length key ∧ (enabled = false → n = length key).
Proof.
  unfold prefixes. intros (n & -> & Hn)%list_elem_of_fmap. apply elem_of_seq in Hn.
  exists n. split; [done|]. destruct enabled; repeat split; try done; lia.
Qed.

Lemma prefixes_NoDup enabled key : NoDup (flatKey <$> prefixes enabled key).
Proof.
  unfold prefixes. rewrite <- list_fmap_compose. apply NoDup_fmap_2_strong; [|apply NoDup_seq].
  intros n m Hn%elem_of_seq Hm%elem_of_seq Heq. apply flatKey_take_inj in Heq; [done|..];
    destruct enabled; lia.
Qed.

(** ** Cells *)

Definition agg_at k (cells : list (string * cell)) : option agg := c_agg <$> aget k cells.

Lemma agg_at_push_cell r fresh b c k k' cells :
  agg_at k (push_cell r fresh b c k' cells) =
  if decide (k = k') then Some (push r (default fresh (agg_at k cells))) else agg_at k cells.
Proof.
  unfold agg_at, push_cell. rewrite aget_oset. destruct (decide (k = k')) as [<-|Hk]; [|done].
  simpl. by destruct (aget k cells).
Qed.

(** The record is pushed to the cells of all its prefixes, to each once. *)
Definition push_totals r (fresh : list jsval → agg) (b c : list jsval → bool)
    (keys : list (list jsval)) (cells : list (string * cell)) : list (string * cell) :=
  foldl (λ cells key, push_cell r (fresh key) (b key) (c key) (flatKey key) cells) cells keys.

Lemma agg_at_push_cells r (fresh : list jsval → agg) (b c : list jsval → bool) k keys cells :
  NoDup (flatKey <$> keys) →
  (k ∉ flatKey <$> keys →
     agg_at k (push_totals r fresh b c keys cells) = agg_at k cells) ∧
  (∀ key, key ∈ keys → flatKey key = k →
     agg_at k (push_totals r fresh b c keys cells) = Some (push r (default (fresh key) (agg_at k cells)))).
Proof.
  revert cells. induction keys as [|key keys IH]; intros cells Hnd; simpl push_totals.
  - split; [done|]. intros key H. by apply not_elem_of_nil in H.
  - apply NoDup_cons in Hnd as [Hk Hnd].
    destruct (IH (push_cell r (fresh key) (b key) (c key) (flatKey key) cells) Hnd) as [IH1 IH2].
    split.
    + intros Hn. apply not_elem_of_cons in Hn as [Hne Hn]. rewrite IH1 by done.
      rewrite agg_at_push_cell. by rewrite decide_False.
    + intros key' H Hf. apply elem_of_cons in H as [->|H].
      * subst k. rewrite IH1 by done. rewrite agg_at_push_cell. by rewrite decide_True.
      * rewrite (IH2 key') by done. rewrite agg_at_push_cell, decide_False; [done|].
        intros ->. apply Hk. rewrite <- Hf. by apply list_elem_of_fmap_2.
Qed.

(** ** One record *)

(** The new keys, in their order. *)
Definition new_keys (keys : list (list jsval)) (cells : list (string * cell)) : list (list jsval) :=
  filter (λ key, ahas (flatKey key) cells = false) keys.

Lemma ahas_push_cell r fresh b c k k' cells :
  ahas k (push_cell r fresh b c k' cells) = bool_decide (k = k') || ahas k cells.
Proof.
  apply eq_true_iff_eq. rewrite orb_true_iff, bool_decide_eq_true, !ahas_spec.
  unfold push_cell. apply elem_of_akeys_oset.
Qed.

Lemma new_keys_push r fresh b c key keys cells :
  flatKey key ∉ flatKey <$> keys →
  new_keys keys (push_cell r fresh b c (flatKey key) cells) = new_keys keys cells.
Proof.
  unfold new_keys. induction keys as [|key' keys IH]; [done|].
  intros [Hne Hk]%not_elem_of_cons. rewrite !filter_cons, IH, ahas_push_cell by done.
  by rewrite bool_decide_eq_false_2 by congruence.
Qed.

Lemma push_row_totals r len keys st :
  NoDup (flatKey <$> keys) →
  foldl (push_row_total p r len) st keys =
  {| tree := tree st;
     rowKeys := rowKeys st ++ new_keys keys (rowTotals st);
     colKeys := colKeys st;
     rowTotals := push_totals r (λ key, aggregator p key []) (λ key, length key <? len)
                    (λ _, false) keys (rowTotals st);
     colTotals := colTotals st; allTotal := allTotal st; sorted := sorted st |}.
Proof.
  revert st. induction keys as [|key keys IH]; intros st Hnd; simpl.
  - rewrite app_nil_r. by destruct st.
  - apply NoDup_cons in Hnd as [Hk Hnd]. rewrite IH by done. unfold push_row_total. simpl.
    rewrite new_keys_push by done. f_equal. unfold new_keys. rewrite filter_cons.
    destruct (ahas (flatKey key) (rowTotals st)); simpl; [done|]. by rewrite <- app_assoc.
Qed.

Lemma push_col_totals r len keys st :
  NoDup (flatKey <$> keys) →
  foldl (push_col_total p r len) st keys =
  {| tree := tree st; rowKeys := rowKeys st;
     colKeys := colKeys st ++ new_keys keys (colTotals st);
     rowTotals := rowTotals st;
     colTotals := push_totals r (λ key, aggregator p [] key) (λ _, false)
                    (λ key, length key <? len) keys (colTotals st);
     allTotal := allTotal st; sorted := sorted st |}.
Proof.
  revert st. induction keys as [|key keys IH]; intros st Hnd; simpl.
  - rewrite app_nil_r. by destruct st.
  - apply NoDup_cons in Hnd as [Hk Hnd]. rewrite IH by done. unfold push_col_total. simpl.
    rewrite new_keys_push by done. f_equal. unfold new_keys. rewrite filter_cons.
    destruct (ahas (flatKey key) (colTotals st)); simpl; [done|]. by rewrite <- app_assoc.
Qed.

(** The cells of the rows of a record. *)
Definition push_rows r (rlen clen : nat) (cols : list (list jsval))
    (tree : list (string * list (string * cell))) (rows : list (list jsval)) :=
  foldl (λ tree key,
    oset (flatKey key)
      (push_totals r (aggregator p key) (λ _, length key <? rlen) (λ key, length key <? clen) cols
         (default [] (aget (flatKey key) tree))) tree) tree rows.

Lemma push_all_cells r rlen clen cols rows st :
  foldl (push_row_cells p r rlen clen cols) st rows =
  {| tree := push_rows r rlen clen cols (tree st) rows;
     rowKeys := rowKeys st; colKeys := colKeys st; rowTotals := rowTotals st;
     colTotals := colTotals st; allTotal := allTotal st; sorted := sorted st |}.
Proof.
  revert st. induction rows as [|key rows IH]; intros st; simpl; [by destruct st|].
  by rewrite IH.
Qed.

(** What a record does to the table. *)
Lemma processRecord_eq st r :
  processRecord p st r =
  {| tree := push_rows r (length (key_of (rows p) r)) (length (key_of (cols p) r))
               (col_prefixes r) (tree st) (row_prefixes r);
     rowKeys := rowKeys st ++ new_keys (row_prefixes r) (rowTotals st);
     colKeys := colKeys st ++ new_keys (col_prefixes r) (colTotals st);
     rowTotals := push_totals r (λ key, aggregator p key [])
                    (λ key, length key <? length (key_of (rows p) r)) (λ _, false)
                    (row_prefixes r) (rowTotals st);
     colTotals := push_totals r (λ key, aggregator p [] key) (λ _, false)
                    (λ key, length key <? length (key_of (cols p) r))
                    (col_prefixes r) (colTotals st);
     allTotal := push r (allTotal st); sorted := sorted st |}.
Proof.
  unfold processRecord. cbv zeta.
  rewrite push_row_totals, push_col_totals, push_all_cells by apply prefixes_NoDup. done.
Qed.

(** The aggregator of a cell of the table, if there is one. *)
Definition tree_at k l (tree : list (string * list (string * cell))) : option agg :=
  aget k tree ≫= agg_at l.

Lemma tree_at_push_rows r rlen clen cols k l rows tree :
  NoDup (flatKey <$> rows) → NoDup (flatKey <$> cols) →
  (k ∉ flatKey <$> rows ∨ l ∉ flatKey <$> cols →
     tree_at k l (push_rows r rlen clen cols tree rows) = tree_at k l tree) ∧
  (∀ rk ck, rk ∈ rows → ck ∈ cols → flatKey rk = k → flatKey ck = l →
     tree_at k l (push_rows r rlen clen cols tree rows)
     = Some (push r (default (aggregator p rk ck) (tree_at k l tree)))).
Proof.
  intros Hrows Hcols. revert tree. induction rows as [|key rows IH]; intros tree; simpl.
  { split; [done|]. intros rk ck H. by apply not_elem_of_nil in H. }
  apply NoDup_cons in Hrows as [Hk Hrows]. specialize (IH Hrows).
  set (cells := push_totals r (aggregator p key) (λ _, length key <? rlen)
                  (λ key, length key <? clen) cols (default [] (aget (flatKey key) tree))).
  destruct (IH (oset (flatKey key) cells tree)) as [IH1 IH2].
  assert (agg_at l (default [] (aget (flatKey key) tree)) = tree_at (flatKey key) l tree) as Hat
    by (unfold tree_at; by destruct (aget (flatKey key) tree)).
  destruct (agg_at_push_cells r (aggregator p key) (λ _, length key <? rlen)
              (λ key, length key <? clen) l cols (default [] (aget (flatKey key) tree)) Hcols)
    as [H1 H2]. fold cells in H1, H2.
  assert (tree_at k l (oset (flatKey key) cells tree) =
          if decide (k = flatKey key) then agg_at l cells else tree_at k l tree) as Hoset.
  { unfold tree_at. rewrite aget_oset. by destruct (decide _). }
  split.
  - intros Hn. rewrite IH1 by (rewrite not_elem_of_cons in Hn; tauto). rewrite Hoset.
    destruct (decide _) as [->|]; [|done]. destruct Hn as [Hn|Hn].
    + apply not_elem_of_cons in Hn as [Hn _]. done.
    + by rewrite H1, Hat.
  - intros rk ck Hrk Hck <- <-. apply elem_of_cons in Hrk as [->|Hrk].
    + rewrite IH1 by auto. rewrite Hoset, decide_True by done. rewrite (H2 ck) by done.
      by rewrite Hat.
    + rewrite (IH2 rk ck) by done. rewrite Hoset, decide_False; [done|].
      intros Heq. apply Hk. rewrite <- Heq. by apply list_elem_of_fmap_2.
Qed.

(** ** All records *)

Lemma new_PivotData_snoc data r :
  new_PivotData p (data ++ [r]) = processRecord p (new_PivotData p data) r.
Proof. unfold new_PivotData. by rewrite foldl_app. Qed.

(** Aggregators that are made for keys of the group. *)
Definition made_for (rows cols : list jsval → Prop) (a : agg) : Prop :=
  ∃ rk ck, rows rk ∧ cols ck ∧ a = aggregator p rk ck.

Definition flat_is k (key : list jsval) : Prop := key ≠ [] ∧ flatKey key = k.

Lemma in_keys_dec k (keys : list (list jsval)) :
  k ∉ flatKey <$> keys ∨ ∃ key, key ∈ keys ∧ flatKey key = k.
Proof.
  destruct (decide (k ∈ flatKey <$> keys)) as [(key & -> & H)%list_elem_of_fmap|H]; eauto.
Qed.

Lemma prefixes_nonempty enabled key key' : key' ∈ prefixes enabled key → key' ≠ [].
Proof.
  intros (n & -> & Hn & _)%elem_of_prefixes Hnil%(f_equal length).
  rewrite length_take in Hnil. simpl in Hnil. lia.
Qed.

Lemma filter_snoc (f : jsobj → bool) r data :
  filter f (data ++ [r]) = if f r then filter f data ++ [r] else filter f data.
Proof.
  rewrite filter_app, filter_cons, filter_nil.
  destruct (f r); simpl; [done|apply app_nil_r].
Qed.

Lemma row_totals_grouped data k :
  grouped (made_for (flat_is k) (eq [])) (filter (in_row k) data)
    (agg_at k (rowTotals (new_PivotData p data))).
Proof.
  induction data as [|r data IH] using rev_ind; [done|].
  rewrite new_PivotData_snoc, processRecord_eq, filter_snoc. simpl rowTotals.
  match goal with |- context [push_totals r ?f ?b ?c ?keys ?cells] =>
    destruct (agg_at_push_cells r f b c k keys cells) as [H1 H2]; [apply prefixes_NoDup|] end.
  unfold in_row at 1.
  destruct (in_keys_dec k (row_prefixes r)) as [Hk|(key & Hkey & <-)].
  - by rewrite bool_decide_eq_false_2, H1.
  - rewrite bool_decide_eq_true_2, (H2 key) by (done || by apply list_elem_of_fmap_2).
    apply grouped_snoc; [done|].
    exists key, []. repeat split. by eapply prefixes_nonempty.
Qed.

Lemma col_totals_grouped data k :
  grouped (made_for (eq []) (flat_is k)) (filter (in_col k) data)
    (agg_at k (colTotals (new_PivotData p data))).
Proof.
  induction data as [|r data IH] using rev_ind; [done|].
  rewrite new_PivotData_snoc, processRecord_eq, filter_snoc. simpl colTotals.
  match goal with |- context [push_totals r ?f ?b ?c ?keys ?cells] =>
    destruct (agg_at_push_cells r f b c k keys cells) as [H1 H2]; [apply prefixes_NoDup|] end.
  unfold in_col at 1.
  destruct (in_keys_dec k (col_prefixes r)) as [Hk|(key & Hkey & <-)].
  - by rewrite bool_decide_eq_false_2, H1.
  - rewrite bool_decide_eq_true_2, (H2 key) by (done || by apply list_elem_of_fmap_2).
    apply grouped_snoc; [done|].
    exists [], key. repeat split. by eapply prefixes_nonempty.
Qed.

Definition in_cell k l r : bool := in_row k r && in_col l r.

Lemma cells_grouped data k l :
  grouped (made_for (flat_is k) (flat_is l)) (filter (in_cell k l) data)
    (tree_at k l (tree (new_PivotData p data))).
Proof.
  induction data as [|r data IH] using rev_ind; [done|].
  rewrite new_PivotData_snoc, processRecord_eq, filter_snoc. simpl tree.
  match goal with |- context [push_rows r ?n ?m ?cols ?tree ?rows] =>
    destruct (tree_at_push_rows r n m cols k l rows tree) as [H1 H2];
      [apply prefixes_NoDup..|] end.
  unfold in_cell at 1. unfold in_row at 1, in_col at 1.
  destruct (in_keys_dec k (row_prefixes r)) as [Hk|(rk & Hrk & <-)];
    [|destruct (in_keys_dec l (col_prefixes r)) as [Hl|(ck & Hck & <-)]].
  - rewrite (bool_decide_eq_false_2 _ Hk), H1 by auto. done.
  - rewrite (bool_decide_eq_false_2 _ Hl), andb_false_r, H1 by auto. done.
  - rewrite !bool_decide_eq_true_2, (H2 rk ck) by (done || by apply list_elem_of_fmap_2).
    apply grouped_snoc; [done|].
    exists rk, ck. repeat split; by eapply prefixes_nonempty.
Qed.

Lemma allTotal_new data :
  allTotal (new_PivotData p data) = foldl (λ a r, push r a) (aggregator p [] []) data.
Proof.
  induction data as [|r data IH] using rev_ind; [done|].
  rewrite new_PivotData_snoc, processRecord_eq, foldl_app, <- IH. done.
Qed.

Lemma akeys_push_rows r rlen clen cols rows tree k :
  k ∈ akeys (push_rows r rlen clen cols tree rows) ↔ k ∈ flatKey <$> rows ∨ k ∈ akeys tree.
Proof.
  revert tree. induction rows as [|key rows IH]; intros tree; simpl.
  - rewrite elem_of_nil. tauto.
  - rewrite IH, elem_of_akeys_oset, elem_of_cons. tauto.
Qed.

Lemma tree_rows data k :
  aget k (tree (new_PivotData p data)) = None ↔ filter (in_row k) data = [].
Proof.
  induction data as [|r data IH] using rev_ind; [done|].
  rewrite new_PivotData_snoc, processRecord_eq, filter_snoc. simpl tree.
  rewrite aget_None, akeys_push_rows. rewrite aget_None in IH. unfold in_row at 1.
  case_bool_decide as Hk; [|rewrite <- IH; tauto].
  split; [tauto|]. by intros [_ H]%app_eq_nil.
Qed.

(** ** Keys *)

(** The elements of a list, each where it is first. *)
Definition first_seen (xs : list string) : list string :=
  foldl (λ seen x, if bool_decide (x ∈ seen) then seen else seen ++ [x]) [] xs.

Lemma add_new_keys keys prefixes cells :
  (∀ k, k ∈ flatKey <$> prefixes → ahas k cells = bool_decide (k ∈ flatKey <$> keys)) →
  NoDup (flatKey <$> prefixes) →
  flatKey <$> (keys ++ new_keys prefixes cells) =
  foldl (λ seen x, if bool_decide (x ∈ seen) then seen else seen ++ [x])
    (flatKey <$> keys) (flatKey <$> prefixes).
Proof.
  rewrite fmap_app. generalize (flatKey <$> keys) as seen.
  induction prefixes as [|key prefixes IH]; intros seen Hs Hnd; simpl; [apply app_nil_r|].
  apply NoDup_cons in Hnd as [Hk Hnd]. unfold new_keys. rewrite filter_cons, Hs by (simpl; left).
  case_bool_decide as Hin; simpl; (rewrite <- IH; [by rewrite <- ?app_assoc| |done]);
    intros k Hin'; rewrite Hs by (simpl; by right); [done|].
  apply bool_decide_ext. rewrite elem_of_app, list_elem_of_singleton.
  split; [tauto|]. intros [?| ->]; done.
Qed.

Lemma ahas_push_totals r fresh b c keys cells k :
  ahas k (push_totals r fresh b c keys cells)
  = bool_decide (k ∈ flatKey <$> keys) || ahas k cells.
Proof.
  revert cells. induction keys as [|key keys IH]; intros cells; simpl; [done|].
  rewrite IH, ahas_push_cell, orb_assoc. f_equal.
  apply eq_true_iff_eq. rewrite orb_true_iff, !bool_decide_eq_true, elem_of_cons. tauto.
Qed.

Lemma elem_of_new_keys keys prefixes cells k :
  (∀ k, ahas k cells = bool_decide (k ∈ flatKey <$> keys)) →
  k ∈ flatKey <$> (keys ++ new_keys prefixes cells)
  ↔ k ∈ flatKey <$> keys ∨ k ∈ flatKey <$> prefixes.
Proof.
  intros Hs. rewrite fmap_app, elem_of_app, !list_elem_of_fmap. unfold new_keys.
  setoid_rewrite list_elem_of_filter. split.
  - intros [H|(key & H1 & H2 & H3)]; eauto.
  - intros [H|(key & -> & H)]; [by left|].
    destruct (decide (flatKey key ∈ flatKey <$> keys)) as [Hk|Hk].
    + left. by apply list_elem_of_fmap.
    + right. exists key. repeat split; try done. rewrite Hs. by apply bool_decide_eq_false_2.
Qed.

(** The groups that have totals are the keys. *)
Lemma totals_keys data k :
  ahas k (rowTotals (new_PivotData p data))
  = bool_decide (k ∈ flatKey <$> rowKeys (new_PivotData p data)) ∧
  ahas k (colTotals (new_PivotData p data))
  = bool_decide (k ∈ flatKey <$> colKeys (new_PivotData p data)).
Proof.
  revert k. induction data as [|r data IH] using rev_ind; intros k; [done|].
  rewrite new_PivotData_snoc, processRecord_eq. simpl.
  rewrite !ahas_push_totals. destruct (IH k) as [H1 H2].
  split; apply eq_true_iff_eq; rewrite orb_true_iff, !bool_decide_eq_true, elem_of_new_keys
    by (intros; apply IH); [rewrite H1|rewrite H2]; rewrite bool_decide_eq_true; tauto.
Qed.

Lemma first_seen_app xs ys :
  first_seen (xs ++ ys) =
  foldl (λ seen x, if bool_decide (x ∈ seen) then seen else seen ++ [x]) (first_seen xs) ys.
Proof. apply foldl_app. Qed.

Lemma rowKeys_first_seen data :
  flatKey <$> rowKeys (new_PivotData p data) =
  first_seen (data ≫= λ r, flatKey <$> row_prefixes r).
Proof.
  induction data as [|r data IH] using rev_ind; [done|].
  rewrite new_PivotData_snoc, processRecord_eq, bind_app. cbn [rowKeys].
  rewrite first_seen_app, <- IH, add_new_keys; [|intros k _; apply totals_keys|apply prefixes_NoDup].
  simpl. by rewrite app_nil_r.
Qed.

Lemma colKeys_first_seen data :
  flatKey <$> colKeys (new_PivotData p data) =
  first_seen (data ≫= λ r, flatKey <$> col_prefixes r).
Proof.
  induction data as [|r data IH] using rev_ind; [done|].
  rewrite new_PivotData_snoc, processRecord_eq, bind_app. cbn [colKeys].
  rewrite first_seen_app, <- IH, add_new_keys; [|intros k _; apply totals_keys|apply prefixes_NoDup].
  simpl. by rewrite app_nil_r.
Qed.

Lemma first_seen_NoDup xs : NoDup (first_seen xs).
Proof.
  induction xs as [|x xs IH] using rev_ind; [constructor|].
  rewrite first_seen_app. simpl. case_bool_decide as Hx; [done|].
  apply NoDup_app. repeat split; [done| |apply NoDup_singleton].
  intros y Hy ->%list_elem_of_singleton. done.
Qed.

Lemma elem_of_first_seen x xs : x ∈ first_seen xs ↔ x ∈ xs.
Proof.
  induction xs as [|y xs IH] using rev_ind; [done|].
  rewrite first_seen_app, elem_of_app, list_elem_of_singleton, <- IH. simpl.
  case_bool_decide as Hy; [split; [tauto|]; intros [?| ->]; done|].
  by rewrite elem_of_app, list_elem_of_singleton.
Qed.

(** ** Whole keys *)

(** Values whose text has no NUL, the character that separates the parts of a
    flat key. *)
Fixpoint nuls (s : string) : nat :=
  match s with
  | EmptyString => 0
  | String c s => (if bool_decide (c = "000"%char) then 1 else 0) + nuls s
  end.

Definition plain_key (key : list jsval) : bool :=
  forallb (λ v, is_nullish v || (nuls (to_string v) =? 0)) key.

Lemma nuls_app s s' : nuls (s +:+ s') = nuls s + nuls s'.
Proof. induction s as [|c s IH]; [done|]. rewrite append_cons. simpl. lia. Qed.

Lemma nuls_flatKey key : key ≠ [] → plain_key key = true → S (nuls (flatKey key)) = length key.
Proof.
  induction key as [|v [|w key] IH]; [done| |]; intros _ H; simpl in H;
    apply andb_true_iff in H as [Hv H].
  - unfold flatKey. simpl. destruct (is_nullish v); [done|].
    by apply Nat.eqb_eq in Hv as ->.
  - rewrite flatKey_cons, nuls_app by done. simpl nuls. rewrite IH by done.
    assert (nuls (if is_nullish v then EmptyString else to_string v) = 0) as ->; [|done].
    destruct (is_nullish v); [done|]. by apply Nat.eqb_eq in Hv.
Qed.

Lemma plain_take n key : plain_key key = true → plain_key (take n key) = true.
Proof.
  intros H. rewrite <- (take_drop n key) in H. unfold plain_key in H.
  rewrite forallb_app in H. by apply andb_true_iff in H as [H _].
Qed.

Definition in_group (enabled : bool) (attrs : list string) k r : bool :=
  bool_decide (k ∈ flatKey <$> prefixes enabled (key_of attrs r)).

Lemma length_key_of attrs r : length (key_of attrs r) = length attrs.
Proof. apply length_fmap. Qed.

Lemma key_of_nonempty attrs r : attrs ≠ [] → key_of attrs r ≠ [].
Proof. by destruct attrs. Qed.

(** A record is in the group of its whole key. *)
Lemma in_own_group enabled attrs r :
  attrs ≠ [] → key_of attrs r ∈ prefixes enabled (key_of attrs r).
Proof.
  intros H. unfold prefixes. apply list_elem_of_fmap. exists (length (key_of attrs r)).
  split; [by rewrite firstn_all|]. apply elem_of_seq.
  assert (1 ≤ length (key_of attrs r)) by (rewrite length_key_of; destruct attrs; simpl; done || lia).
  destruct enabled; lia.
Qed.

(** ... and in no other group of a whole key. *)
Lemma in_group_whole enabled attrs key r :
  attrs ≠ [] → plain_key (key_of attrs r) = true → plain_key key = true →
  length key = length attrs →
  in_group enabled attrs (flatKey key) r = bool_decide (flatKey (key_of attrs r) = flatKey key).
Proof.
  intros Hattrs Hr Hkey Hlen. apply bool_decide_ext. split.
  - intros (key' & Heq & H)%list_elem_of_fmap. pose proof (prefixes_nonempty _ _ _ H) as Hne.
    apply elem_of_prefixes in H as (n & -> & Hn & _).
    pose proof (nuls_flatKey _ Hne (plain_take _ _ Hr)) as H1.
    rewrite <- Heq, nuls_flatKey, length_take, Hlen, <- (length_key_of attrs r) in H1;
      [|by intros ->; destruct attrs|done].
    rewrite Heq. by rewrite take_ge by lia.
  - intros <-. apply list_elem_of_fmap_2. by apply in_own_group.
Qed.

(** Records add up over the values of a function. *)
Lemma sum_list_indicator (x : string) (g : string → nat) ks :
  NoDup ks →
  sum_list ((λ k, (if bool_decide (x = k) then 1 else 0) + g k) <$> ks)
  = (if bool_decide (x ∈ ks) then 1 else 0) + sum_list (g <$> ks).
Proof.
  induction 1 as [|k ks Hk Hnd IH]; [done|]. rewrite !fmap_cons. cbn [sum_list_with]. rewrite IH.
  assert ((if bool_decide (x ∈ k :: ks) then 1 else 0) =
          (if bool_decide (x = k) then 1 else 0) + (if bool_decide (x ∈ ks) then 1 else 0)) as ->;
    [|unfold id; lia].
  rewrite (bool_decide_ext _ (x = k ∨ x ∈ ks)) by apply elem_of_cons.
  destruct (decide (x = k)) as [->|Hx].
  - by rewrite !bool_decide_eq_true_2, bool_decide_eq_false_2 by auto.
  - rewrite (bool_decide_eq_false_2 (x = k)) by done. simpl.
    by rewrite (bool_decide_ext _ (x ∈ ks)) by tauto.
Qed.

Lemma partition_count (f : jsobj → string) (ks : list string) (rs : list jsobj) :
  NoDup ks → (∀ r, r ∈ rs → f r ∈ ks) →
  sum_list ((λ k, length (filter (λ r, bool_decide (f r = k)) rs)) <$> ks) = length rs.
Proof.
  intros Hnd. induction rs as [|r rs IH]; intros Hin.
  - clear. by induction ks.
  - transitivity (sum_list ((λ k, (if bool_decide (f r = k) then 1 else 0) +
                     length (filter (λ r, bool_decide (f r = k)) rs)) <$> ks)).
    + f_equal. apply list_fmap_ext. intros _ k _. rewrite filter_cons.
      by destruct (bool_decide (f r = k)).
    + rewrite sum_list_indicator, IH by (done || intros; apply Hin; by right).
      by rewrite bool_decide_eq_true_2 by (apply Hin; left).
Qed.

Lemma filter_ext_in (f g : jsobj → bool) (rs : list jsobj) :
  (∀ r, r ∈ rs → f r = g r) → filter f rs = filter g rs.
Proof.
  induction rs as [|r rs IH]; intros H; [done|].
  rewrite !filter_cons, (H r), IH by (try left; intros; apply H; by right). done.
Qed.

(** The records of whole keys add up to all records. *)
Lemma whole_keys_count enabled attrs (keys : list (list jsval)) data (rs : list jsobj) :
  attrs ≠ [] → (∀ r, r ∈ data → plain_key (key_of attrs r) = true) →
  NoDup (flatKey <$> keys) →
  (∀ key, key ∈ keys → ∃ r, r ∈ data ∧ key ∈ prefixes enabled (key_of attrs r)) →
  (∀ r, r ∈ data → flatKey (key_of attrs r) ∈ flatKey <$> keys) →
  (∀ r, r ∈ rs → r ∈ data) →
  sum_list ((λ key, length (filter (in_group enabled attrs (flatKey key)) rs)) <$>
              filter (λ key, length key = length attrs) keys) = length rs.
Proof.
  intros Hattrs Hplain Hnd Hfrom Hto Hrs.
  assert (∀ key, key ∈ keys → plain_key key = true ∧ key ≠ []) as Hkeys.
  { intros key (r & Hr & H)%Hfrom. split; [|by eapply prefixes_nonempty].
    apply elem_of_prefixes in H as (n & -> & _). by apply plain_take, Hplain. }
  set (whole := filter (λ key, length key = length attrs) keys).
  rewrite <- (partition_count (λ r, flatKey (key_of attrs r)) (flatKey <$> whole) rs).
  - f_equal. rewrite <- list_fmap_compose. apply list_fmap_ext. intros i key Hi. simpl. f_equal.
    apply list_elem_of_lookup_2, list_elem_of_filter in Hi as [Hlen Hkey].
    apply filter_ext_in. intros r Hr. apply in_group_whole; [done|by apply Hplain, Hrs| |done].
    by apply Hkeys.
  - eapply sublist_NoDup; [exact Hnd|]. apply fmap_sublist, sublist_filter.
  - intros r Hr%Hrs. destruct (proj1 (list_elem_of_fmap _ _ _) (Hto r Hr)) as (key & Heq & Hkey).
    rewrite Heq. apply list_elem_of_fmap_2, list_elem_of_filter. split; [|done].
    destruct (Hkeys key Hkey) as [H1 H2].
    rewrite <- (nuls_flatKey key), <- Heq, nuls_flatKey, length_key_of
      by auto using key_of_nonempty. done.
Qed.

Lemma keys_from data key :
  (key ∈ rowKeys (new_PivotData p data) → ∃ r, r ∈ data ∧ key ∈ row_prefixes r) ∧
  (key ∈ colKeys (new_PivotData p data) → ∃ r, r ∈ data ∧ key ∈ col_prefixes r).
Proof.
  induction data as [|r data [IH1 IH2]] using rev_ind.
  { split; intros H; by apply not_elem_of_nil in H. }
  rewrite new_PivotData_snoc, processRecord_eq. cbn [rowKeys colKeys].
  setoid_rewrite elem_of_app. unfold new_keys. setoid_rewrite list_elem_of_filter.
  setoid_rewrite list_elem_of_singleton.
  split; (intros [H|[_ H]]; [|by eauto]).
  - destruct (IH1 H) as (r' & ? & ?). eauto.
  - destruct (IH2 H) as (r' & ? & ?). eauto.
Qed.

Lemma whole_rows_count data (rs : list jsobj) :
  rows p ≠ [] → (∀ r, r ∈ data → plain_key (key_of (rows p) r) = true) →
  (∀ r, r ∈ rs → r ∈ data) →
  sum_list ((λ key, length (filter (in_row (flatKey key)) rs)) <$>
    filter (λ key, length key = length (rows p)) (rowKeys (new_PivotData p data))) = length rs.
Proof.
  intros Hrows Hplain Hrs. apply (whole_keys_count (rowEnabled p) (rows p) _ data); try done.
  - rewrite rowKeys_first_seen. apply first_seen_NoDup.
  - apply keys_from.
  - intros r Hr. rewrite rowKeys_first_seen, elem_of_first_seen. apply list_elem_of_bind.
    exists r. split; [|done]. by apply list_elem_of_fmap_2, in_own_group.
Qed.

Lemma whole_cols_count data (rs : list jsobj) :
  cols p ≠ [] → (∀ r, r ∈ data → plain_key (key_of (cols p) r) = true) →
  (∀ r, r ∈ rs → r ∈ data) →
  sum_list ((λ key, length (filter (in_col (flatKey key)) rs)) <$>
    filter (λ key, length key = length (cols p)) (colKeys (new_PivotData p data))) = length rs.
Proof.
  intros Hcols Hplain Hrs. apply (whole_keys_count (colEnabled p) (cols p) _ data); try done.
  - rewrite colKeys_first_seen. apply first_seen_NoDup.
  - apply keys_from.
  - intros r Hr. rewrite colKeys_first_seen, elem_of_first_seen. apply list_elem_of_bind.
    exists r. split; [|done]. by apply list_elem_of_fmap_2, in_own_group.
Qed.

(** ** Reading *)

Lemma getAggregator_row st rk :
  rk ≠ [] → getAggregator st rk [] = Ok (agg_at (flatKey rk) (rowTotals st)).
Proof. by destruct rk. Qed.

Lemma getAggregator_col st ck :
  ck ≠ [] → getAggregator st [] ck = Ok (agg_at (flatKey ck) (colTotals st)).
Proof. by destruct ck. Qed.

Lemma getAggregator_cell st rk ck :
  rk ≠ [] → ck ≠ [] →
  getAggregator st rk ck =
  match aget (flatKey rk) (tree st) with
  | Some _ => Ok (tree_at (flatKey rk) (flatKey ck) (tree st))
  | None => Throw (TypeError "Cannot read properties of undefined")
  end.
Proof.
  unfold tree_at. destruct rk, ck; [done..|]. intros _ _. cbn [getAggregator].
  by destruct (aget _ (tree st)).
Qed.

(** Keys of the same cell: none, or of the same flat form. *)
Definition same_key (key key' : list jsval) : Prop :=
  (key = [] ↔ key' = []) ∧ flatKey key = flatKey key'.

(** The records of a row and a column; no key stands for all. *)
Definition records_of (rk ck : list jsval) data : list jsobj :=
  filter (λ r, (match rk with [] => true | _ => in_row (flatKey rk) r end) &&
               (match ck with [] => true | _ => in_col (flatKey ck) r end)) data.

Lemma grouped_impl (P Q : agg → Prop) group a :
  (∀ a, P a → Q a) → grouped P group a → grouped Q group a.
Proof. destruct group; [done|]. intros H (a0 & H0 & ->). exists a0. auto. Qed.

Lemma flat_is_same key key' : key ≠ [] → flat_is (flatKey key) key' → same_key key key'.
Proof. intros H [H1 H2]. by repeat split. Qed.

Lemma made_for_impl (P P' Q Q' : list jsval → Prop) a :
  (∀ key, P key → P' key) → (∀ key, Q key → Q' key) → made_for P Q a → made_for P' Q' a.
Proof. intros HP HQ (rk & ck & ? & ? & ->). exists rk, ck. auto. Qed.

Lemma eq_nil_same key : [] = key → same_key [] key.
Proof. by intros <-. Qed.
End table.

(** C9. Every cell and every total of a pivot table aggregates exactly the
    records of its group: the aggregator that is read for a row key and a column
    key (none of them stands for all rows, for all columns) was made for keys of
    the same cell and had the records of the row and the column pushed to it,
    each once and in the order of the data; when there are no such records there
    is no aggregator, and reading a row that has no records at all throws. *)
Theorem pivot_cells p data rk ck :
  let st := new_PivotData p data in
  match rk, ck with
  | [], [] => getAggregator st [] [] = Ok (Some (foldl (λ a r, push r a) (aggregator p [] []) data))
  | _, _ =>
      match getAggregator st rk ck with
      | Ok a => grouped (made_for p (same_key rk) (same_key ck)) (records_of p rk ck data) a
      | Throw _ => rk ≠ [] ∧ ck ≠ [] ∧ filter (in_row p (flatKey rk)) data = []
      end
  end.
Proof.
  cbv zeta. destruct rk as [|v rk], ck as [|w ck]; unfold records_of.
  - cbn [getAggregator]. by rewrite allTotal_new.
  - rewrite getAggregator_col by done. eapply grouped_impl; [|apply col_totals_grouped].
    intros a. apply made_for_impl; [apply eq_nil_same|]. intros k. by apply flat_is_same.
  - rewrite getAggregator_row by done. erewrite filter_ext_in by (intros; apply andb_true_r).
    eapply grouped_impl; [|apply row_totals_grouped].
    intros a. apply made_for_impl; [|apply eq_nil_same]. intros k. by apply flat_is_same.
  - rewrite getAggregator_cell by done.
    destruct (aget _ _) eqn:Htree; [|by apply tree_rows in Htree].
    eapply grouped_impl; [|apply cells_grouped].
    intros a. apply made_for_impl; intros k; by apply flat_is_same.
Qed.

(** The row keys and the column keys of a pivot table are the groups that
    occur in the data, each flat key once, in the order of their first records;
    each of them has a total, and there are no other totals. *)
Theorem pivot_keys p data :
  let st := new_PivotData p data in
  flatKey <$> rowKeys st = first_seen (data ≫= λ r, flatKey <$> row_prefixes p r) ∧
  flatKey <$> colKeys st = first_seen (data ≫= λ r, flatKey <$> col_prefixes p r) ∧
  (∀ k, k ∈ flatKey <$> rowKeys st ↔ k ∈ akeys (rowTotals st)) ∧
  (∀ k, k ∈ flatKey <$> colKeys st ↔ k ∈ akeys (colTotals st)).
Proof.
  repeat split; try apply rowKeys_first_seen; try apply colKeys_first_seen; intros H;
    destruct (totals_keys p data k) as [H1 H2];
    (apply ahas_spec || apply (bool_decide_eq_true (_ ∈ _)));
    try (rewrite ?H1, ?H2; by apply bool_decide_eq_true);
    apply ahas_spec in H; congruence.
Qed.

(** ** Counts *)

(** The count that is read for a row key and a column key. *)
Definition count_at (st : pivot) (rk ck : list jsval) : nat :=
  match getAggregator st rk ck with Ok (Some (Base (Count n))) => n | _ => 0 end.

Lemma push_counts n (rs : list jsobj) :
  foldl (λ a r, push r a) (Base (Count n)) rs = Base (Count (n + length rs)).
Proof.
  revert n. induction rs as [|r rs IH]; intros n; simpl; [by rewrite Nat.add_0_r|].
  rewrite IH. f_equal. f_equal. lia.
Qed.

Lemma grouped_count (fresh : agg → Prop) (group : list jsobj) a :
  (∀ a0, fresh a0 → a0 = Base (Count 0)) → grouped fresh group a →
  match a with Some (Base (Count n)) => n | _ => 0 end = length group.
Proof.
  destruct group as [|r group]; [by intros _ ->|]. intros Hf (a0 & ->%Hf & ->).
  rewrite push_counts. done.
Qed.

Section counts.
Context (p : pivot_props) (vals : list string).
Hypothesis (Hagg : aggregators "Count" vals = Some (aggregator p)).

Lemma count_made rows cols a : made_for p rows cols a → a = Base (Count 0).
Proof. 
  intros (rk & ck & _ & _ & ->).
  change (Some (λ _ _ : list jsval, Base (Count 0)) = Some (aggregator p)) in Hagg.
  by injection Hagg as <-.
Qed.

Lemma count_row data rk :
  rk ≠ [] → count_at (new_PivotData p data) rk [] = length (filter (in_row p (flatKey rk)) data).
Proof.
  intros H. unfold count_at. rewrite getAggregator_row by done.
  eapply grouped_count; [|apply row_totals_grouped]. apply count_made.
Qed.

Lemma count_col data ck :
  ck ≠ [] → count_at (new_PivotData p data) [] ck = length (filter (in_col p (flatKey ck)) data).
Proof.
  intros H. unfold count_at. rewrite getAggregator_col by done.
  eapply grouped_count; [|apply col_totals_grouped]. apply count_made.
Qed.

Lemma count_cell data rk ck :
  rk ≠ [] → ck ≠ [] →
  count_at (new_PivotData p data) rk ck
  = length (filter (in_cell p (flatKey rk) (flatKey ck)) data).
Proof.
  intros H H'. unfold count_at. rewrite getAggregator_cell by done.
  pose proof (cells_grouped p data (flatKey rk) (flatKey ck)) as Hg.
  destruct (aget (flatKey rk) (tree (new_PivotData p data))) eqn:Htree.
  - exact (grouped_count _ _ _ (count_made _ _) Hg).
  - unfold tree_at in Hg. rewrite Htree in Hg. destruct (filter _ _); [done|].
    by destruct Hg as (? & _ & ?).
Qed.

Lemma count_all data : count_at (new_PivotData p data) [] [] = length data.
Proof.
  unfold count_at. cbn [getAggregator]. rewrite allTotal_new.
  rewrite (count_made (eq []) (eq []) (aggregator p [] [])) by by exists [], [].
  by rewrite push_counts.
Qed.

Lemma filter_filter_and (f g : jsobj → bool) (rs : list jsobj) :
  filter f (filter g rs) = filter (λ r, g r && f r) rs.
Proof.
  induction rs as [|r rs IH]; [done|]. rewrite !filter_cons.
  destruct (g r) eqn:Hg; simpl; rewrite ?filter_cons, IH; by destruct (f r).
Qed.
End counts.

(** C30. The counts of a pivot table add up, with subtotals or without, when no
    value of a key contains the character NUL, which joins the values of a key: the
    total of all is the number of records; with attributes for the rows, the totals
    of the whole rows make it; with attributes for the columns, so do the totals of
    the whole columns, and the cells of each row, a subtotal or not, with the whole
    columns make the total of the row.  Without attributes for an axis there are no
    whole rows or columns of it. *)
Theorem pivot_counts_add_up p vals data
    (Hagg : aggregators "Count" vals = Some (aggregator p))
    (Hplain : ∀ r, r ∈ data → plain_key (key_of (rows p) r) && plain_key (key_of (cols p) r) = true) :
  let st := new_PivotData p data in
  let whole_rows := filter (λ key, length key = length (rows p)) (rowKeys st) in
  let whole_cols := filter (λ key, length key = length (cols p)) (colKeys st) in
  count_at st [] [] = length data ∧
  (rows p ≠ [] → sum_list ((λ rk, count_at st rk []) <$> whole_rows) = length data) ∧
  (cols p ≠ [] → sum_list ((λ ck, count_at st [] ck) <$> whole_cols) = length data) ∧
  (cols p ≠ [] → ∀ rk, rk ∈ rowKeys st →
     sum_list ((λ ck, count_at st rk ck) <$> whole_cols) = count_at st rk []) ∧
  (rows p = [] → whole_rows = []) ∧ (cols p = [] → whole_cols = []).
Proof.
  intros st whole_rows whole_cols.
  assert (∀ r, r ∈ data → plain_key (key_of (rows p) r) = true) as Hr
    by by intros r [H _]%Hplain%andb_true_iff.
  assert (∀ r, r ∈ data → plain_key (key_of (cols p) r) = true) as Hc
    by by intros r [_ H]%Hplain%andb_true_iff.
  assert (∀ rk, rk ∈ rowKeys st → rk ≠ []) as Hrk.
  { intros rk (r & _ & H)%keys_from. by eapply prefixes_nonempty. }
  assert (∀ ck, ck ∈ whole_cols → ck ≠ []) as Hck.
  { intros ck [_ (r & _ & H)%keys_from]%list_elem_of_filter. by eapply prefixes_nonempty. }
  split_and!.
  - by apply (count_all p vals Hagg).
  - intros Hrows. rewrite <- (whole_rows_count p data data Hrows Hr) by done. f_equal.
    apply list_fmap_ext. intros i rk [_ H]%list_elem_of_lookup_2%list_elem_of_filter.
    apply (count_row p vals Hagg); auto.
  - intros Hcols. rewrite <- (whole_cols_count p data data Hcols Hc) by done. f_equal.
    apply list_fmap_ext. intros i ck H%list_elem_of_lookup_2. apply (count_col p vals Hagg); auto.
  - intros Hcols rk H. subst st. rewrite (count_row p vals Hagg) by auto.
    rewrite <- (whole_cols_count p data (filter (in_row p (flatKey rk)) data) Hcols Hc)
      by by intros r [_ Hin]%list_elem_of_filter.
    f_equal. apply list_fmap_ext. intros i ck Hi%list_elem_of_lookup_2.
    rewrite (count_cell p vals Hagg) by auto. by rewrite filter_filter_and.
  - intros E. apply no_elements. intros rk [Hl H]%list_elem_of_filter. rewrite E in Hl.
    by apply (Hrk rk H), length_zero_iff_nil.
  - intros E. apply no_elements. intros ck H. apply (Hck ck H).
    apply list_elem_of_filter in H as [Hl _]. rewrite E in Hl. by apply length_zero_iff_nil.
Qed.

(** ** An example: sales by country and year, with subtotals *)

Definition sale (country city : string) (year : Z) : jsobj :=
  [("country", JStr country); ("city", JStr city); ("year", JNum (num_of_Z year))].

Definition sales : list jsobj :=
  [sale "PT" "Lisbon" 2020; sale "NO" "Oslo" 2020; sale "PT" "Porto" 2021; sale "PT" "Lisbon" 2020].

Definition sales_table : pivot_props :=
  {| rows := ["country"; "city"]; cols := ["year"];
     aggregator := λ _ _, Base (Count 0); sorters := λ _, None;
     rowOrder := key_a_to_z; colOrder := key_z_to_a;
     rowEnabled := true; colEnabled := false; rowPartialOnTop := true; colPartialOnTop := false |}.

Lemma pivot_counts_add_up_witness :
  let st := new_PivotData sales_table sales in
  rowKeys st = [[JStr "PT"]; [JStr "PT"; JStr "Lisbon"]; [JStr "NO"]; [JStr "NO"; JStr "Oslo"];
                [JStr "PT"; JStr "Porto"]] ∧
  count_at st [JStr "PT"] [JNum (num_of_Z 2020)] = 2 ∧
  sum_list ((λ ck, count_at st [JStr "PT"] ck) <$> filter (λ key, length key = 1) (colKeys st))
  = count_at st [JStr "PT"] [].
Proof.
  split; [vm_compute; reflexivity|]. split; [vm_compute; reflexivity|].
  pose proof (pivot_counts_add_up sales_table [] sales eq_refl) as H.
  refine (proj1 (proj2 (proj2 (proj2 (H _)))) _ _ _).
  - intros r Hr. repeat (apply elem_of_cons in Hr as [->|Hr]; [vm_compute; reflexivity|]).
    by apply not_elem_of_nil in Hr.
  - discriminate.
  - vm_compute. left.
Defined.

(** ** The order of the keys *)

Section sort.
Context {A : Type} (compare : A → A → jsnum).

(** A comparison that orders the elements of a list: not being greater is
    transitive there. *)
Definition consistent (l : list A) : Prop :=
  Forall (λ x, Forall (λ y, (greater compare x y = true → greater compare y x = false) ∧
    Forall (λ z, greater compare x y = false → greater compare y z = false →
                 greater compare x z = false) l) l) l.

Definition ordered : list A → Prop := StronglySorted (λ x y, greater compare x y = false).

Section consistent.
Context (u : list A) (Hu : consistent u).

Lemma greater_asym x y :
  x ∈ u → y ∈ u → greater compare x y = true → greater compare y x = false.
Proof.
  intros Hx Hy. pose proof (proj1 (Forall_forall _ _) Hu x Hx) as H.
  by destruct (proj1 (Forall_forall _ _) H y Hy).
Qed.

Lemma greater_trans x y z :
  x ∈ u → y ∈ u → z ∈ u → greater compare x y = false → greater compare y z = false →
  greater compare x z = false.
Proof.
  intros Hx Hy Hz. pose proof (proj1 (Forall_forall _ _) Hu x Hx) as H.
  destruct (proj1 (Forall_forall _ _) H y Hy) as [_ H'].
  by apply (proj1 (Forall_forall _ _) H' z).
Qed.

Lemma insert_sorted_ordered x l :
  x ∈ u → (∀ y, y ∈ l → y ∈ u) → ordered l → ordered (insert_sorted compare x l).
Proof.
  intros Hx Hin. induction 1 as [|y l Hl IH Hy]; simpl; [repeat constructor|].
  assert (y ∈ u) as Hyu by (apply Hin; left).
  destruct (greater compare y x) eqn:Hyx.
  - apply (greater_asym _ _ Hyu Hx) in Hyx.
    constructor; [by constructor|]. constructor; [done|]. rewrite Forall_forall in Hy |- *.
    intros z Hz. apply (greater_trans x y z); auto. apply Hin. by right.
  - constructor; [apply IH; intros; apply Hin; by right|].
    rewrite insert_sorted_Permutation. by constructor.
Qed.

Lemma js_sort_ordered_in l : (∀ y, y ∈ l → y ∈ u) → ordered (js_sort compare l).
Proof.
  induction l as [|x l IH] using rev_ind; intros Hin; [constructor|].
  setoid_rewrite elem_of_app in Hin. setoid_rewrite list_elem_of_singleton in Hin.
  rewrite js_sort_snoc. apply insert_sorted_ordered; auto.
  intros y. rewrite js_sort_Permutation. auto.
Qed.
End consistent.

Lemma js_sort_ordered l : consistent l → ordered (js_sort compare l).
Proof. intros H. by apply (js_sort_ordered_in l H). Qed.
End sort.

(** Reading the keys of a pivot table sorts them in place: no key is lost or
    made, the keys of an order that is consistent are in that order, cells and
    totals are left, and further readings change nothing. *)
Theorem sortKeys_spec p data :
  let st := new_PivotData p data in
  let sorted_st := (getRowKeys p st).2 in
  let row_order := compare_by p (rowOrder p) (rows p) (rowPartialOnTop p) (λ k, cell_value st k []) in
  let col_order := compare_by p (colOrder p) (cols p) (colPartialOnTop p) (λ k, cell_value st [] k) in
  (getRowKeys p st).1 ≡ₚ rowKeys st ∧
  (getColKeys p sorted_st).1 ≡ₚ colKeys st ∧
  (consistent row_order (rowKeys st) → ordered row_order (getRowKeys p st).1) ∧
  (consistent col_order (colKeys st) → ordered col_order (getColKeys p sorted_st).1) ∧
  (∀ rk ck, cell_value sorted_st rk ck = cell_value st rk ck) ∧
  getColKeys p sorted_st = (colKeys sorted_st, sorted_st).
Proof.
  assert (sorted (new_PivotData p data) = false) as Hs.
  { induction data as [|r data IH] using rev_ind; [done|].
    by rewrite new_PivotData_snoc, processRecord_eq. }
  cbv zeta. unfold getRowKeys, getColKeys, sortKeys. cbn [fst snd]. rewrite Hs.
  cbn [fst snd sorted rowKeys colKeys].
  split_and!; try apply js_sort_Permutation; try apply js_sort_ordered; [|done].
  intros [|? rk] [|? ck]; done.
Qed.

Lemma sortKeys_spec_witness :
  let st := new_PivotData sales_table sales in
  (getColKeys sales_table st).1 = [[JNum (num_of_Z 2021)]; [JNum (num_of_Z 2020)]] ∧
  ordered (compare_by sales_table key_a_to_z ["country"; "city"] true (λ k, cell_value st k []))
    [[JStr "NO"]; [JStr "NO"; JStr "Oslo"]; [JStr "PT"]; [JStr "PT"; JStr "Lisbon"];
     [JStr "PT"; JStr "Porto"]].
Proof.
  split; [vm_compute; reflexivity|].
  refine (proj1 (proj2 (proj2 (sortKeys_spec sales_table sales))) _).
  solve_decided.
Defined.

(** The natural order of labels is not an order: among texts of which some
    have no digits it runs in a circle, so that the same labels are sorted
    differently when they come in another order. *)
Theorem naturalSort_cycle :
  let label s := JStr s in
  naturalSort (label "Q5") (label "Q 5") = nm1 ∧
  naturalSort (label "Q 5") (label "Q&A") = nm1 ∧
  naturalSort (label "Q&A") (label "Q5") = nm1 ∧
  ¬ consistent naturalSort (label <$> ["Q5"; "Q 5"; "Q&A"]) ∧
  js_sort naturalSort (label <$> ["Q5"; "Q 5"; "Q&A"]) ≠
  js_sort naturalSort (label <$> ["Q&A"; "Q5"; "Q 5"]).
Proof.
  cbv zeta. split_and!; [vm_compute; reflexivity..| |].
  - intros H. assert (∀ s, s ∈ ["Q5"; "Q 5"; "Q&A"] → JStr s ∈ JStr <$> ["Q5"; "Q 5"; "Q&A"]) as Hin
      by (intros s; apply list_elem_of_fmap_2).
    assert (greater naturalSort (JStr "Q5") (JStr "Q&A") = false) as Hgt; [|by vm_compute in Hgt].
    apply (greater_trans _ _ H _ (JStr "Q 5")); try (vm_compute; reflexivity);
      apply Hin; solve_decided.
  - vm_compute. discriminate.
Qed.

(** ** Values *)

Lemma push_base_all a (rs : list jsobj) :
  foldl (λ a r, push r a) (Base a) rs = Base (foldl (λ a r, push_base r a) a rs).
Proof. revert a. induction rs as [|r rs IH]; intros a; simpl; [done|apply IH]. Qed.

Lemma push_fraction_all s a (rs : list jsobj) :
  foldl (λ a r, push r a) (FractionOf s a) rs = FractionOf s (foldl (λ a r, push_base r a) a rs).
Proof. revert a. induction rs as [|r rs IH]; intros a; simpl; [done|apply IH]. Qed.

Lemma aggregators_kind name vals f :
  aggregators name vals = Some f →
  (∃ a, f = λ _ _, Base a) ∨ (∃ type a, f = fractionOf type a).
Proof.
  unfold aggregators. intros H%aget_Some_elem.
  repeat (apply elem_of_cons in H as [[= _ ->]|H]; [by eauto|]).
  by apply not_elem_of_nil in H.
Qed.

Section values.
Context (p : pivot_props) (name : string) (vals : list string).
Hypothesis (Hagg : aggregators name vals = Some (aggregator p)).

Lemma grouped_fraction type inner group a rows cols :
  aggregator p = fractionOf type inner → group ≠ [] →
  grouped (made_for p rows cols) group a →
  ∃ s i, a = Some (FractionOf s i).
Proof.
  intros Hf Hne. destruct group; [done|]. intros (a0 & (rk & ck & _ & _ & ->) & ->).
  rewrite Hf. unfold fractionOf. rewrite push_fraction_all. eauto.
Qed.

(** The total a fraction refers to is there. *)
Lemma total_ok type inner data rk ck :
  aggregator p = fractionOf type inner →
  (rk = [] ∨ filter (in_row p (flatKey rk)) data ≠ []) →
  (ck = [] ∨ filter (in_col p (flatKey ck)) data ≠ []) →
  rk = [] ∨ ck = [] →
  ∃ s i, getAggregator (new_PivotData p data) rk ck = Ok (Some (FractionOf s i)).
Proof.
  intros Hf Hrk Hck Hor. destruct rk as [|v rk].
  - destruct ck as [|w ck].
    + cbn [getAggregator]. rewrite allTotal_new, Hf. unfold fractionOf.
      rewrite push_fraction_all. eauto.
    + destruct Hck as [|Hck]; [done|]. rewrite getAggregator_col by done.
      destruct (grouped_fraction _ _ _ _ _ _ Hf Hck (col_totals_grouped p data _)) as (s & i & ->).
      eauto.
  - destruct Hrk as [|Hrk]; [done|]. destruct Hor as [?| ->]; [done|].
    rewrite getAggregator_row by done.
    destruct (grouped_fraction _ _ _ _ _ _ Hf Hrk (row_totals_grouped p data _)) as (s & i & ->).
    eauto.
Qed.

Lemma agg_value_ok data (group : list jsobj) rk ck :
  (rk = [] ∨ filter (in_row p (flatKey rk)) data ≠ []) →
  (ck = [] ∨ filter (in_col p (flatKey ck)) data ≠ []) →
  ∃ v, agg_value (new_PivotData p data) (foldl (λ a r, push r a) (aggregator p rk ck) group) = Ok v.
Proof.
  intros Hrows Hcols.
  destruct (aggregators_kind _ _ _ Hagg) as [[a0 Hf]|(type & inner & Hf)]; rewrite Hf.
  { rewrite push_base_all. eauto. }
  unfold fractionOf. rewrite push_fraction_all. cbn [agg_value].
  set (sel := match type with Total => ([], []) | Row => (rk, []) | Col => ([], ck) end).
  destruct (total_ok type inner data sel.1 sel.2 Hf) as (s & i & ->);
    [destruct type; simpl; auto..|].
  simpl. destruct (base_value i); eauto.
Qed.

Lemma grouped_value_ok data (group : list jsobj) rows cols a :
  (∀ rk, rows rk → rk = [] ∨ filter (in_row p (flatKey rk)) data ≠ []) →
  (∀ ck, cols ck → ck = [] ∨ filter (in_col p (flatKey ck)) data ≠ []) →
  grouped (made_for p rows cols) group a →
  ∃ v, match a with Some a => agg_value (new_PivotData p data) a | None => Ok JNull end = Ok v.
Proof.
  intros Hrows Hcols. destruct group as [|r group]; [intros ->; eauto|].
  intros (a0 & (rk & ck & Hrk & Hck & ->) & ->). apply agg_value_ok; auto.
Qed.

Lemma key_in_data data key :
  (key ∈ rowKeys (new_PivotData p data) → key ≠ [] ∧ filter (in_row p (flatKey key)) data ≠ []) ∧
  (key ∈ colKeys (new_PivotData p data) → key ≠ [] ∧ filter (in_col p (flatKey key)) data ≠ []).
Proof.
  split; intros (r & Hr & Hkey)%keys_from; (split; [by eapply prefixes_nonempty|]);
    intros Hnil; apply (filter_nil_not_elem_of _ _ r Hnil); [|done| |done];
    apply bool_decide_pack; by apply list_elem_of_fmap_2.
Qed.
End values.

(** C31. No value a pivot table shows or sorts by throws, whatever the aggregator:
    every pair of keys of the table, and no key for the totals, has a value, and
    the total a fraction is taken of exists. *)
Theorem pivot_values_ok p name vals data rk ck
    (Hagg : aggregators name vals = Some (aggregator p))
    (Hrk : rk = [] ∨ rk ∈ rowKeys (new_PivotData p data))
    (Hck : ck = [] ∨ ck ∈ colKeys (new_PivotData p data)) :
  ∃ v, cell_value (new_PivotData p data) rk ck = Ok v.
Proof.
  assert (rk = [] ∨ filter (in_row p (flatKey rk)) data ≠ []) as Hr
    by (destruct Hrk as [|Hrk]; [by left|right; by apply key_in_data]).
  assert (ck = [] ∨ filter (in_col p (flatKey ck)) data ≠ []) as Hc
    by (destruct Hck as [|Hck]; [by left|right; by apply key_in_data]).
  assert (∀ key, [] = key → key = [] ∨ filter (in_row p (flatKey key)) data ≠ []) as Hrnil by auto.
  assert (∀ key, [] = key → key = [] ∨ filter (in_col p (flatKey key)) data ≠ []) as Hcnil by auto.
  assert (∀ key, flat_is (flatKey rk) key → rk ≠ [] →
            key = [] ∨ filter (in_row p (flatKey key)) data ≠ []) as Hrflat
    by (intros key [_ ->] ?; tauto).
  assert (∀ key, flat_is (flatKey ck) key → ck ≠ [] →
            key = [] ∨ filter (in_col p (flatKey key)) data ≠ []) as Hcflat
    by (intros key [_ ->] ?; tauto).
  unfold cell_value. destruct rk as [|v rk], ck as [|w ck].
  - cbn [getAggregator]. rewrite allTotal_new. by apply (agg_value_ok p name vals Hagg).
  - rewrite getAggregator_col by done. eapply (grouped_value_ok p name vals Hagg);
      [apply Hrnil|intros; by apply Hcflat|apply col_totals_grouped].
  - rewrite getAggregator_row by done. eapply (grouped_value_ok p name vals Hagg);
      [intros; by apply Hrflat|apply Hcnil|apply row_totals_grouped].
  - rewrite getAggregator_cell by done.
    destruct (aget _ _) eqn:Htree; [|apply tree_rows in Htree; by destruct Hr].
    eapply (grouped_value_ok p name vals Hagg);
      [intros; by apply Hrflat|intros; by apply Hcflat|apply cells_grouped].
Qed.

(** The cities as fractions of the counts of their years. *)
Definition fractions_table : pivot_props :=
  {| rows := ["city"]; cols := ["year"];
     aggregator := fractionOf Col (Count 0); sorters := λ _, None;
     rowOrder := value_a_to_z; colOrder := key_a_to_z;
     rowEnabled := false; colEnabled := false; rowPartialOnTop := false; colPartialOnTop := false |}.

Lemma pivot_values_ok_witness :
  let st := new_PivotData fractions_table sales in
  rowKeys st = [[JStr "Lisbon"]; [JStr "Oslo"]; [JStr "Porto"]] ∧
  cell_value st [JStr "Porto"] [JNum (num_of_Z 2021)] = Ok (JNum n1) ∧
  cell_value st [JStr "Oslo"] [JNum (num_of_Z 2021)] = Ok JNull ∧
  ∃ v, cell_value st [JStr "Lisbon"] [JNum (num_of_Z 2020)] = Ok v.
Proof.
  split; [vm_compute; reflexivity|]. split; [vm_compute; reflexivity|].
  split; [vm_compute; reflexivity|].
  apply (pivot_values_ok fractions_table "Count as Fraction of Columns" [] sales).
  - reflexivity.
  - right. vm_compute. left.
  - right. vm_compute. left.
Defined.
