(* ===== verification/Switchboard.v ===== *)
(** * Messages between an embedded dashboard and its page

    [Switchboard] of
    [src/superset-frontend/packages/superset-ui-switchboard/src/switchboard.ts]
    lets the two ends of a [MessageChannel] call methods of each other: [get]
    sends a message with a new id and settles its promise when an answer with
    that id is received, [emit] only sends.  The two ends are the page that
    embeds a dashboard
    ([src/superset-embedded-sdk/src/index.ts]) and the dashboard in its frame
    ([app/embedded/index.tsx]).

    A [board] is one end, with its port: messages wait in the queue of the port
    until it is started.  A step of a pair of boards is an action of one of them:
    a call by the program, the delivery of the next message, or the end of a
    method that was called from the other side, which may take any time.  What a
    method returns is given by a function of its arguments.  Names of
    [Object.prototype] are not names of methods. *)

From Stdlib Require Import Ascii String.
From stdpp Require Import base strings option numbers list.
From S2P Require Import Prelude JsObject JsNumber JsValue.

(** ** Messages *)

(** @source src/superset-frontend/packages/superset-ui-switchboard/src/switchboard.ts 27-81 Actions, Message *)
Inductive message :=
| GetMessage (messageId method : string) (args : jsval)
| ReplyMessage (messageId : string) (result : jsval)
| EmitMessage (method : string) (args : jsval)
| ErrorMessage (messageId error : string).

Definition messageId (m : message) : option string :=
  match m with
  | GetMessage id _ _ | ReplyMessage id _ | ErrorMessage id _ => Some id
  | EmitMessage _ _ => None
  end.

Definition Method : Type := jsval → result jsval.

(** A promise of [get] with the call it stands for. *)
Record promise := {
  p_method : string;
  p_args : jsval;
  p_outcome : option (result jsval);
}.

(** One end.  [queue] and [started] belong to its port; [listeners] are those
    that [get] attached, with their promises; [running] are the answers of the
    methods that were called and have not returned; [executed] are the methods
    that [emit] messages called.

    @source src/superset-frontend/packages/superset-ui-switchboard/src/switchboard.ts 90-110 Switchboard *)
Record board := {
  name : string;
  methods : list (string * Method);
  incrementor : N;
  isInitialised : bool;
  queue : list message;
  started : bool;
  listeners : list (string * nat);
  promises : list promise;
  running : list message;
  executed : list (string * jsval);
}.

Definition quote : string := String "034"%char EmptyString.

Section board.
Implicit Types (b : board).

(** A new one without parameters.

    @source src/superset-frontend/packages/superset-ui-switchboard/src/switchboard.ts 93-110 Switchboard (constructor) *)
Definition new_board : board :=
  {| name := EmptyString; methods := []; incrementor := 1; isInitialised := false; queue := [];
     started := false; listeners := []; promises := []; running := []; executed := [] |}.

(** @source src/superset-frontend/packages/superset-ui-switchboard/src/switchboard.ts 112-145 init *)
Definition init (nm : string) b : board :=
  if isInitialised b then b
  else
    {| name := nm; methods := methods b; incrementor := incrementor b; isInitialised := true;
       queue := queue b; started := started b; listeners := listeners b; promises := promises b;
       running := running b; executed := executed b |}.

(** @source src/superset-frontend/packages/superset-ui-switchboard/src/switchboard.ts 147-178 getMethodResult *)
Definition getMethodResult b (id method : string) (args : jsval) : message :=
  match aget method (methods b) with
  | None => ErrorMessage id ("[" +:+ name b +:+ "] Method " +:+ quote +:+ method +:+ quote +:+ " is not defined")
  | Some executor =>
      match executor args with
      | Ok result => ReplyMessage id result
      | Throw _ =>
          ErrorMessage id ("[" +:+ name b +:+ "] Method " +:+ quote +:+ method +:+ quote +:+ " threw an error")
      end
  end.

(** @source src/superset-frontend/packages/superset-ui-switchboard/src/switchboard.ts 183-188 defineMethod *)
Definition defineMethod (methodName : string) (executor : Method) b : board :=
  {| name := name b; methods := oset methodName executor (methods b); incrementor := incrementor b;
     isInitialised := isInitialised b; queue := queue b; started := started b;
     listeners := listeners b; promises := promises b; running := running b;
     executed := executed b |}.

(** @source src/superset-frontend/packages/superset-ui-switchboard/src/switchboard.ts 273-276 getNewMessageId *)
Definition new_message_id (nm : string) (n : N) : string := "m_" +:+ nm +:+ "_" +:+ string_of_N n.

(** A call that is made before [init] is rejected at once; otherwise its listener
    is attached, the port started and the message sent.

    @source src/superset-frontend/packages/superset-ui-switchboard/src/switchboard.ts 205-238 get *)
Definition get (method : string) (args : jsval) b : board * list message :=
  if negb (isInitialised b) then
    ({| name := name b; methods := methods b; incrementor := incrementor b;
        isInitialised := isInitialised b; queue := queue b; started := started b;
        listeners := listeners b;
        promises := promises b ++
          [{| p_method := method; p_args := args;
              p_outcome := Some (Throw (GenericError "Switchboard not initialised")) |}];
        running := running b; executed := executed b |}, [])
  else
    let id := new_message_id (name b) (incrementor b) in
    ({| name := name b; methods := methods b; incrementor := incrementor b + 1;
        isInitialised := isInitialised b; queue := queue b; started := true;
        listeners := listeners b ++ [(id, length (promises b))];
        promises := promises b ++ [{| p_method := method; p_args := args; p_outcome := None |}];
        running := running b; executed := executed b |}, [GetMessage id method args]).

(** @source src/superset-frontend/packages/superset-ui-switchboard/src/switchboard.ts 247-258 emit *)
Definition emit (method : string) (args : jsval) b : board * list message :=
  (b, if isInitialised b then [EmitMessage method args] else []).

(** @source src/superset-frontend/packages/superset-ui-switchboard/src/switchboard.ts 260-266 start *)
Definition start b : board :=
  if isInitialised b then
    {| name := name b; methods := methods b; incrementor := incrementor b;
       isInitialised := isInitialised b; queue := queue b; started := true;
       listeners := listeners b; promises := promises b; running := running b;
       executed := executed b |}
  else b.

(** ** Listeners *)

(** A promise keeps its first outcome. *)
Definition settle (n : nat) (o : result jsval) (ps : list promise) : list promise :=
  alter (λ p, {| p_method := p_method p; p_args := p_args p;
                 p_outcome := match p_outcome p with None => Some o | Some o => Some o end |}) n ps.

(** @source src/superset-frontend/packages/superset-ui-switchboard/src/switchboard.ts 219-226 get (outcome) *)
Definition outcome_of (m : message) : result jsval :=
  match m with
  | ReplyMessage _ result => Ok result
  | ErrorMessage _ error => Throw (GenericError error)
  | _ => Throw (GenericError "Unexpected response message")
  end.

(** The listeners of [get] whose id the message has, of whatever kind it is, are
    removed and settle their promises.

    @source src/superset-frontend/packages/superset-ui-switchboard/src/switchboard.ts 215-227 get (listener) *)
Definition hear (m : message) b : board :=
  let heard (l : string * nat) := bool_decide (messageId m = Some l.1) in
  {| name := name b; methods := methods b; incrementor := incrementor b;
     isInitialised := isInitialised b; queue := queue b; started := started b;
     listeners := filter (λ l, heard l = false) (listeners b);
     promises := foldl (λ ps l, settle l.2 (outcome_of m) ps) (promises b)
                   (filter (λ l, heard l = true) (listeners b));
     running := running b; executed := executed b |}.

(** The listener of [init]: a [get] message calls the method, whose answer is
    sent when it is there; an [emit] message calls the method if there is one.

    @source src/superset-frontend/packages/superset-ui-switchboard/src/switchboard.ts 124-142 init (listener) *)
Definition receive (m : message) b : board :=
  {| name := name b; methods := methods b; incrementor := incrementor b;
     isInitialised := isInitialised b; queue := queue b; started := started b;
     listeners := listeners b; promises := promises b;
     running := match m with
                | GetMessage id method args => running b ++ [getMethodResult b id method args]
                | _ => running b
                end;
     executed := match m with
                 | EmitMessage method args =>
                     if ahas method (methods b) then executed b ++ [(method, args)] else executed b
                 | _ => executed b
                 end |}.

Definition set_queue (q : list message) b : board :=
  {| name := name b; methods := methods b; incrementor := incrementor b;
     isInitialised := isInitialised b; queue := q; started := started b;
     listeners := listeners b; promises := promises b; running := running b;
     executed := executed b |}.

Definition set_running (ms : list message) b : board :=
  {| name := name b; methods := methods b; incrementor := incrementor b;
     isInitialised := isInitialised b; queue := queue b; started := started b;
     listeners := listeners b; promises := promises b; running := ms;
     executed := executed b |}.

(** ** Actions *)

Inductive action :=
| Init (nm : string)
| DefineMethod (methodName : string) (executor : Method)
| Get (method : string) (args : jsval)
| Emit (method : string) (args : jsval)
| Start
| Deliver
| Finish (k : nat).

(** What an action does to its board, and the messages it sends; [None] when it
    is not possible.  The next message is delivered to the listener of [init],
    which was attached first, and to those of [get]. *)
Definition act (a : action) b : option (board * list message) :=
  match a with
  | Init nm => Some (init nm b, [])
  | DefineMethod methodName executor => Some (defineMethod methodName executor b, [])
  | Get method args => Some (get method args b)
  | Emit method args => Some (emit method args b)
  | Start => Some (start b, [])
  | Deliver =>
      if started b then
        match queue b with
        | [] => None
        | m :: q => Some (hear m (receive m (set_queue q b)), [])
        end
      else None
  | Finish k =>
      match running b !! k with
      | Some answer => Some (set_running (delete k (running b)) b, [answer])
      | None => None
      end
  end.
End board.

(** ** A pair of boards *)

Inductive side := Page | Frame.
Record channel := { page : board; frame : board }.

Definition board_of (s : side) (c : channel) : board :=
  match s with Page => page c | Frame => frame c end.

Definition post (ms : list message) (b : board) : board := set_queue (queue b ++ ms) b.

Definition step (c : channel) (sa : side * action) : option channel :=
  match sa with
  | (Page, a) => '(b, ms) ← act a (page c); Some {| page := b; frame := post ms (frame c) |}
  | (Frame, a) => '(b, ms) ← act a (frame c); Some {| page := post ms (page c); frame := b |}
  end.

Fixpoint run (tr : list (side * action)) (c : channel) : option channel :=
  match tr with
  | [] => Some c
  | sa :: tr => step c sa ≫= run tr
  end.

(** A board with its methods, before any message. *)
Definition Switchboard (nm : string) (ms : list (string * Method)) : board :=
  foldl (λ b m, defineMethod m.1 m.2 b) (init nm new_board) ms.
