(* ===== verification/SwitchboardFacts.v ===== *)
(** * Facts about the messages of an embedded dashboard

    When the two ends have different names, every call is answered by the method
    of the other end with its own arguments, and by nothing else; when both ports
    are started, all calls are settled after finitely many deliveries.  When they
    have the same name, as two ends without names have, calls in both directions
    reject each other. *)

From Stdlib Require Import Ascii String.
From stdpp Require Import base strings option numbers list.
From S2P Require Import Prelude JsObject JsNumber JsValue Switchboard.

(** ** Ids *)

Lemma string_of_N_inj n m : string_of_N n = string_of_N m → n = m.
Proof.
  intros H. destruct (read_digits_string_of_N n EmptyString I) as (j & _ & Hn).
  destruct (read_digits_string_of_N m EmptyString I) as (k & _ & Hm).
  rewrite H in Hn. rewrite Hn in Hm. by injection Hm.
Qed.

Lemma digits_no_underscore d s : all_chars is_digit (s +:+ String "_" d) = false.
Proof. induction s as [|c s IH]; [done|]. rewrite append_cons. simpl. by rewrite IH, andb_false_r. Qed.

Lemma underscore_split a b d e :
  all_chars is_digit d = true → all_chars is_digit e = true →
  a +:+ String "_" d = b +:+ String "_" e → a = b ∧ d = e.
Proof.
  intros Hd He. revert b. induction a as [|c a IH]; intros [|c' b];
    rewrite ?append_cons, ?append_empty_l; intros H.
  - by injection H.
  - injection H as _ ->. by rewrite digits_no_underscore in Hd.
  - injection H as _ <-. by rewrite digits_no_underscore in He.
  - injection H as -> H. by apply IH in H as [-> ->].
Qed.

Lemma new_message_id_inj nm nm' n n' :
  new_message_id nm n = new_message_id nm' n' → nm = nm' ∧ n = n'.
Proof.
  unfold new_message_id. rewrite !append_cons, !append_empty_l. intros [= H].
  apply underscore_split in H as [-> H]; [|apply string_of_N_digits..].
  split; [done|]. by apply string_of_N_inj.
Qed.

(** ** Calls and their messages *)

Section facts.
Implicit Types (s o b : board) (m : message) (p : promise).

(** The id of the call of a promise. *)
Definition call_id s (n : nat) : string := new_message_id (name s) (N.of_nat (S n)).

(** The answer the other end gives to a call. *)
Definition answer_of o id p : message := getMethodResult o id (p_method p) (p_args p).
Definition expected o p : result jsval := outcome_of (answer_of o EmptyString p).

(** The message on its way for a promise: the call or its answer. *)
Definition carries s o (mn : message * nat) : Prop :=
  ∃ p, promises s !! mn.2 = Some p ∧ p_outcome p = None ∧
    (mn.1 = GetMessage (call_id s mn.2) (p_method p) (p_args p) ∨ mn.1 = answer_of o (call_id s mn.2) p).

Definition is_get m : bool := match m with GetMessage _ _ _ => true | _ => false end.
Definition is_answer m : bool := match m with ReplyMessage _ _ | ErrorMessage _ _ => true | _ => false end.

(** The messages of the calls of [s], wherever they are. *)
Definition flight s o : list message :=
  filter is_get (queue o) ++ running o ++ filter is_answer (queue s).

(** The open calls of [s] have one message each on its way to [o] or back, and
    the settled ones have the outcome of the method. *)
Definition calls_ok s o : Prop :=
  isInitialised s = true ∧
  incrementor s = N.of_nat (S (length (promises s))) ∧
  (∀ m, m ∈ running o → is_answer m = true) ∧
  (∀ p out, p ∈ promises s → p_outcome p = Some out → out = expected o p) ∧
  ∃ ways : list (message * nat),
    ways.*1 ≡ₚ flight s o ∧
    listeners s ≡ₚ (λ n, (call_id s n, n)) <$> ways.*2 ∧
    NoDup ways.*2 ∧
    Forall (carries s o) ways ∧
    (∀ n p, promises s !! n = Some p → p_outcome p = None → n ∈ ways.*2).

Lemma call_id_inj s n n' : call_id s n = call_id s n' → n = n'.
Proof. intros [_ H]%new_message_id_inj. lia. Qed.

Lemma answer_is_answer o id p : is_answer (answer_of o id p) = true.
Proof. unfold answer_of, getMethodResult. by repeat case_match. Qed.

Lemma answer_id o id p : messageId (answer_of o id p) = Some id.
Proof. unfold answer_of, getMethodResult. by repeat case_match. Qed.

Lemma answer_expected o id p : outcome_of (answer_of o id p) = expected o p.
Proof. unfold expected, answer_of, getMethodResult. by repeat case_match. Qed.

Lemma is_answer_get m : is_answer m = true → is_get m = false.
Proof. by destruct m. Qed.

Lemma carries_id s o m n : carries s o (m, n) → messageId m = Some (call_id s n).
Proof. intros (p & _ & _ & [Hm|Hm]); simpl in Hm; subst m; [done|apply answer_id]. Qed.

Lemma filter_post (f : message → bool) b ms :
  filter f (queue (post ms b)) = filter f (queue b) ++ filter f ms.
Proof. apply filter_app. Qed.

(** A message on its way belongs to an open call. *)
Lemma flight_call s o m :
  calls_ok s o → m ∈ flight s o → ∃ n, carries s o (m, n).
Proof.
  intros (_ & _ & _ & _ & ways & Hfl & _ & _ & Hw & _) Hm. rewrite <- Hfl in Hm.
  apply list_elem_of_fmap in Hm as ([m' n] & -> & Hin). exists n.
  by eapply (proj1 (Forall_forall _ _) Hw (m', n)).
Qed.

(** No listener of [o] hears a message of a call of [s]. *)
Lemma hear_nothing m b :
  (∀ l, l ∈ listeners b → messageId m ≠ Some l.1) →
  listeners (hear m b) = listeners b ∧ promises (hear m b) = promises b.
Proof.
  intros H. unfold hear. cbn [listeners promises].
  assert (filter (λ l : string * nat, bool_decide (messageId m = Some l.1) = true) (listeners b) = []) as ->.
  { induction (listeners b) as [|l ls IH]; [done|].
    rewrite filter_cons, decide_False, IH; [done| |].
    - intros l' Hl'. apply H. by right.
    - rewrite bool_decide_eq_true. apply H. left. }
  split; [|done].
  induction (listeners b) as [|l ls IH]; [done|].
  rewrite filter_cons, decide_True, IH; [done| |].
  - intros l' Hl'. apply H. by right.
  - apply bool_decide_eq_false. apply H. left.
Qed.

Lemma listener_ids s o l : calls_ok s o → l ∈ listeners s → ∃ n, l = (call_id s n, n).
Proof.
  intros (_ & _ & _ & _ & ways & _ & Hl & _) Hin. rewrite Hl in Hin.
  apply list_elem_of_fmap in Hin as (n & -> & _). by exists n.
Qed.

Lemma foreign_unheard s o m b :
  name s ≠ name o → calls_ok o s → (∃ n, messageId m = Some (call_id s n)) ∨ messageId m = None →
  listeners b = listeners o →
  listeners (hear m b) = listeners o ∧ promises (hear m b) = promises b.
Proof.
  intros Hne Ho Hm Hb. rewrite <- Hb. apply hear_nothing. rewrite Hb. intros l Hl Heq.
  destruct (listener_ids _ _ _ Ho Hl) as (n' & ->). destruct Hm as [(n & Hm)|Hm]; [|congruence].
  rewrite Hm in Heq. apply (inj Some) in Heq. apply new_message_id_inj in Heq as [? _]. congruence.
Qed.

(** ** Steps that keep the calls *)

Definition same_methods o o' : Prop := name o' = name o ∧ methods o' = methods o.

Lemma answer_same o o' id p : same_methods o o' → answer_of o' id p = answer_of o id p.
Proof. intros [Hn Hm]. unfold answer_of, getMethodResult. by rewrite Hn, Hm. Qed.

Definition same_calls s s' : Prop :=
  name s' = name s ∧ isInitialised s' = isInitialised s ∧ incrementor s' = incrementor s ∧
  promises s' = promises s ∧ listeners s' = listeners s.

Lemma carries_same s s' o o' mn :
  name s' = name s → promises s' = promises s → same_methods o o' →
  carries s o mn → carries s' o' mn.
Proof.
  intros Hn Hp Hm (p & H & Hout & Hmsg). exists p. rewrite Hp. unfold call_id in *. rewrite Hn.
  by rewrite (answer_same o o') by done.
Qed.

(** Messages may move as long as they are the same. *)
Lemma calls_ok_same s s' o o' :
  same_calls s s' → same_methods o o' → flight s' o' ≡ₚ flight s o →
  (∀ m, m ∈ running o' → is_answer m = true) → calls_ok s o → calls_ok s' o'.
Proof.
  intros (Hn & Hi & Hinc & Hp & Hl) Hm Hfl Hrun (H1 & H2 & _ & H3 & ways & H4 & H5 & H6 & H7 & H8).
  split; [congruence|]. split; [congruence|]. split; [done|]. split.
  { intros p out. rewrite Hp. intros Hin Hout. unfold expected. rewrite (answer_same o o') by done.
    by apply H3. }
  exists ways. split; [by rewrite Hfl|]. split; [unfold call_id in *; by rewrite Hl, Hn|].
  split; [done|]. split; [|by rewrite Hp].
  eapply Forall_impl; [exact H7|]. intros mn. by apply carries_same.
Qed.

Lemma Permutation_snoc_app {A} (l k : list A) x : (l ++ [x]) ++ k ≡ₚ (l ++ k) ++ [x].
Proof. rewrite <- !app_assoc. apply Permutation_app_head, Permutation_app_comm. Qed.

Lemma Permutation_move_front {A} (l k j : list A) x : l ++ (k ++ [x]) ++ j ≡ₚ x :: l ++ k ++ j.
Proof.
  rewrite (Permutation_middle l (k ++ j) x), <- app_assoc. simpl.
  apply Permutation_app_head. symmetry. apply Permutation_middle.
Qed.

(** ** A call *)

Lemma calls_ok_get s o method args :
  calls_ok s o →
  calls_ok (get method args s).1 (post (get method args s).2 o).
Proof.
  intros (H1 & H2 & Hrun & H3 & ways & H4 & H5 & H6 & H7 & H8).
  unfold get. rewrite H1. cbn [negb fst snd].
  set (p := {| p_method := method; p_args := args; p_outcome := None |}).
  assert (new_message_id (name s) (incrementor s) = call_id s (length (promises s))) as Hid
    by (unfold call_id; by rewrite H2).
  rewrite Hid.
  assert (length (promises s) ∉ ways.*2) as Hfresh.
  { intros ((m & n) & Heq & Hin)%list_elem_of_fmap. simpl in Heq. subst n.
    destruct (proj1 (Forall_forall _ _) H7 _ Hin) as (p' & Hp' & _).
    apply lookup_lt_Some in Hp'. simpl in Hp'. lia. }
  split; [done|]. split; [cbn [incrementor promises]; rewrite length_app, H2; simpl; lia|].
  split; [done|]. split.
  { intros p' out [Hin|Hin]%elem_of_app Hout; [by apply H3|].
    apply list_elem_of_singleton in Hin as ->. done. }
  exists (ways ++ [(GetMessage (call_id s (length (promises s))) method args, length (promises s))]).
  split_and!.
  - rewrite fmap_app, H4. unfold flight. rewrite filter_post. cbn [running queue post set_queue].
    symmetry. apply Permutation_snoc_app.
  - cbn [listeners]. rewrite !fmap_app. by apply Permutation_app_tail.
  - rewrite fmap_app. apply NoDup_app. split; [done|]. split; [|apply NoDup_singleton].
    intros n Hn ->%list_elem_of_singleton. done.
  - apply Forall_app. split.
    + eapply Forall_impl; [exact H7|]. intros [m n] (p' & Hp' & Hout & Hm). exists p'.
      split; [|done]. cbn [promises fst snd] in *. by apply lookup_app_l_Some.
    + constructor; [|done]. exists p. cbn [promises fst snd].
      by rewrite lookup_app_r, Nat.sub_diag by done || split_and!; auto.
  - intros n p' Hp' Hout. rewrite fmap_app, elem_of_app. cbn [promises] in Hp'.
    apply lookup_app_Some in Hp' as [Hp'|[Hlen Hp']]; [left; by eapply H8|right].
    apply list_lookup_singleton_Some in Hp' as [Hn _]. apply list_elem_of_singleton. simpl. lia.
Qed.

(** ** A message *)

Lemma ways_take s o (m : message) (ways : list (message * nat)) rest :
  ways.*1 ≡ₚ flight s o → flight s o ≡ₚ m :: rest →
  ∃ n ways', ways ≡ₚ (m, n) :: ways' ∧ ways'.*1 ≡ₚ rest.
Proof.
  intros Hw Hfl. rewrite Hfl in Hw.
  assert (m ∈ ways.*1) as ([m' n] & Heq & Hin)%list_elem_of_fmap by (rewrite Hw; left).
  simpl in Heq. subst m'. apply elem_of_Permutation in Hin as (ways' & Hways).
  exists n, ways'. split; [done|]. rewrite Hways in Hw. simpl in Hw. by apply Permutation_cons_inv in Hw.
Qed.

(** The call of a message is replaced by its answer. *)
Lemma calls_ok_replace s o o' m m' rest :
  same_methods o o' → flight s o ≡ₚ m :: rest → flight s o' ≡ₚ m' :: rest →
  (∀ n, carries s o (m, n) → carries s o (m', n)) →
  (∀ m, m ∈ running o' → is_answer m = true) → calls_ok s o → calls_ok s o'.
Proof.
  intros Hm Hfl Hfl' Hc Hrun (H1 & H2 & _ & H3 & ways & H4 & H5 & H6 & H7 & H8).
  destruct (ways_take _ _ _ _ _ H4 Hfl) as (n & ways' & Hways & Hrest).
  split; [done|]. split; [done|]. split; [done|]. split.
  { intros p out Hin Hout. unfold expected. rewrite (answer_same o o') by done. by apply H3. }
  assert (((m', n) :: ways').*2 ≡ₚ ways.*2) as Hsnd by by rewrite Hways.
  exists ((m', n) :: ways'). split_and!.
  - rewrite Hfl'. simpl. by rewrite Hrest.
  - by rewrite Hsnd.
  - by rewrite Hsnd.
  - rewrite Hways in H7. apply Forall_cons in H7 as [Hn H7].
    constructor; [by apply (carries_same s s o o'), Hc|].
    eapply Forall_impl; [exact H7|]. intros mn. by apply carries_same.
  - intros k p Hk Hp. rewrite Hsnd. by eapply H8.
Qed.

Lemma filter_single (P : string * nat → bool) (l : string * nat) ls :
  P l = true → (∀ l', l' ∈ ls → P l' = false) →
  filter (λ l, P l = true) (l :: ls) = [l] ∧ filter (λ l, P l = false) (l :: ls) = ls.
Proof.
  intros Hl Hls. rewrite !filter_cons, decide_True, decide_False by (congruence || done).
  clear Hl. induction ls as [|l' ls IH]; [done|]. rewrite !filter_cons.
  rewrite decide_False, decide_True by (rewrite Hls by left; done).
  destruct IH as [[= IH1] IH2]; [intros; apply Hls; by right|]. by rewrite IH1, IH2.
Qed.

(** An answer settles the promise of its call, and no other. *)
Lemma calls_ok_settle s s' o m rest :
  name s' = name s → isInitialised s' = isInitialised s → incrementor s' = incrementor s →
  flight s o ≡ₚ m :: rest → flight s' o ≡ₚ rest → is_answer m = true →
  listeners s' = listeners (hear m s) → promises s' = promises (hear m s) →
  calls_ok s o → calls_ok s' o.
Proof.
  intros Hn Hi Hinc Hfl Hfl' Hans Hl Hp (H1 & H2 & Hrun & H3 & ways & H4 & H5 & H6 & H7 & H8).
  destruct (ways_take _ _ _ _ _ H4 Hfl) as (n & ways' & Hways & Hrest).
  rewrite Hways in H7. apply Forall_cons in H7 as [Hcn H7].
  destruct Hcn as (p & Hlook & Hopen & Hmsg). cbn [fst snd] in *.
  assert (m = answer_of o (call_id s n) p) as Hm by (destruct Hmsg as [->|]; done).
  rewrite Hways in H5, H6. simpl in H5, H6. apply NoDup_cons in H6 as [Hnfresh H6].
  assert (messageId m = Some (call_id s n)) as Hid by (rewrite Hm; apply answer_id).
  set (heard := λ l : string * nat, bool_decide (messageId m = Some l.1)).
  destruct (filter_single heard (call_id s n, n) ((λ n, (call_id s n, n)) <$> ways'.*2)) as [Hf1 Hf2].
  { unfold heard. by apply bool_decide_eq_true. }
  { intros l (k & -> & Hk)%list_elem_of_fmap. unfold heard. apply bool_decide_eq_false.
    rewrite Hid. simpl. intros Heq%(inj Some)%call_id_inj. subst k. done. }
  assert (filter (λ l, heard l = true) (listeners s) = [(call_id s n, n)]) as Hheard
    by (apply Permutation_singleton_r; rewrite <- Hf1; by rewrite H5).
  assert (promises s' = settle n (expected o p) (promises s)) as Hset.
  { rewrite Hp. change (promises (hear m s)) with
      (foldl (λ ps l, settle l.2 (outcome_of m) ps) (promises s)
         (filter (λ l, heard l = true) (listeners s))).
    rewrite Hheard. simpl. by rewrite Hm, answer_expected. }
  split; [congruence|]. split.
  { rewrite Hinc, H2, Hset. unfold settle. by rewrite length_alter. }
  split; [done|]. split.
  - intros q out (k & Hq)%list_elem_of_lookup Hout. rewrite Hset in Hq. unfold settle in Hq.
    destruct (decide (k = n)) as [->|Hk].
    + rewrite list_lookup_alter_eq, Hlook in Hq. simpl in Hq. injection Hq as <-. simpl in Hout.
      rewrite Hopen in Hout. by injection Hout as <-.
    + rewrite list_lookup_alter_ne in Hq by done. eapply H3; [|done]. by eapply list_elem_of_lookup_2.
  - exists ways'. split_and!.
    + by rewrite Hrest, Hfl'.
    + rewrite Hl. change (listeners (hear m s)) with (filter (λ l, heard l = false) (listeners s)).
      unfold call_id in *. rewrite Hn.
      rewrite <- Hf2. by rewrite H5.
    + done.
    + rewrite Forall_forall in H7 |- *. intros [m' k] Hk.
      destruct (H7 _ Hk) as (q & Hq & Hqo & Hqm). exists q. unfold call_id in *. rewrite Hn, Hset.
      unfold settle. rewrite list_lookup_alter_ne; [done|]. simpl. intros ->. apply Hnfresh.
      by apply (list_elem_of_fmap_2 snd) in Hk.
    + intros k q Hq Hout. rewrite Hset in Hq. unfold settle in Hq.
      destruct (decide (k = n)) as [->|Hk].
      * rewrite list_lookup_alter_eq, Hlook in Hq. simpl in Hq. injection Hq as <-. simpl in Hout.
        by rewrite Hopen in Hout.
      * rewrite list_lookup_alter_ne in Hq by done. specialize (H8 _ _ Hq Hout).
        rewrite Hways in H8. simpl in H8. apply elem_of_cons in H8 as [->|]; done.
Qed.

(** ** Steps *)

Definition static (a : action) : bool := match a with DefineMethod _ _ => false | _ => true end.

Definition pair_ok s o : Prop := calls_ok s o ∧ calls_ok o s ∧ name s ≠ name o.

Lemma post_nil b : post [] b = b.
Proof. unfold post, set_queue. rewrite app_nil_r. by destruct b. Qed.

Lemma same_calls_post ms b : same_calls b (post ms b).
Proof. done. Qed.

Lemma running_answers s o m : calls_ok s o → m ∈ running o → is_answer m = true.
Proof. intros (_ & _ & H & _). apply H. Qed.

(** Messages that belong to no call change nothing. *)
Lemma pair_ok_frame s o s' o' :
  same_calls s s' → same_calls o o' → same_methods s s' → same_methods o o' →
  flight s' o' ≡ₚ flight s o → flight o' s' ≡ₚ flight o s →
  (∀ m, m ∈ running s' → is_answer m = true) → (∀ m, m ∈ running o' → is_answer m = true) →
  pair_ok s o → pair_ok s' o'.
Proof.
  intros Hs Ho Hms Hmo Hf Hf' Hr Hr' (H1 & H2 & H3).
  split; [by apply (calls_ok_same s s' o o')|]. split; [by apply (calls_ok_same o o' s s')|].
  destruct Hms as [-> _], Hmo as [-> _]. done.
Qed.

Lemma act_finish s o k m :
  pair_ok s o → running s !! k = Some m →
  pair_ok (set_running (delete k (running s)) s) (post [m] o).
Proof.
  intros Hok Hk. assert (is_answer m = true) as Hm.
  { destruct Hok as (_ & Ho & _). eapply running_answers; [exact Ho|]. by eapply list_elem_of_lookup_2. }
  pose proof Hok as (Hs & Ho & _). apply delete_Permutation in Hk as Hperm.
  apply (pair_ok_frame s o); try done.
  - unfold flight. rewrite filter_post. rewrite filter_cons, decide_False, filter_nil, app_nil_r.
    + done.
    + rewrite is_answer_get by done. intros [].
  - unfold flight. rewrite filter_post. rewrite filter_cons, decide_True, filter_nil by by rewrite Hm.
    cbn [running set_running queue]. apply Permutation_app_head.
    transitivity ((m :: delete k (running s)) ++ filter is_answer (queue o));
      [|by apply Permutation_app_tail].
    rewrite app_assoc. symmetry. apply Permutation_cons_append.
  - intros m' Hin. eapply running_answers; [exact Ho|]. rewrite Hperm. by right.
  - intros m' Hin. by eapply running_answers; [exact Hs|].
Qed.

Lemma act_get s o method args :
  pair_ok s o → pair_ok (get method args s).1 (post (get method args s).2 o).
Proof.
  intros (Hs & Ho & Hne). pose proof (calls_ok_get s o method args Hs) as Hg.
  split; [done|]. pose proof Hs as (Hi & _). unfold get in *. rewrite Hi in *. cbn [negb fst snd] in *.
  split; [|done]. eapply calls_ok_same; [..|exact Ho]; try done.
  - unfold flight. rewrite filter_post, filter_cons, decide_False, filter_nil, app_nil_r; [done|intros []].
  - intros m Hm. by eapply running_answers; [exact Ho|].
Qed.

Lemma act_emit s o method args :
  pair_ok s o → pair_ok s (post [EmitMessage method args] o).
Proof.
  intros Hok. pose proof Hok as (Hs & Ho & _). apply (pair_ok_frame s o); try done.
  - unfold flight. by rewrite filter_post, app_nil_r.
  - unfold flight. by rewrite filter_post, app_nil_r.
  - intros m Hm. by eapply running_answers; [exact Ho|].
  - intros m Hm. by eapply running_answers; [exact Hs|].
Qed.

(** A call of the other end is answered later. *)
Lemma deliver_get s o id method args q :
  pair_ok s o → queue s = GetMessage id method args :: q →
  pair_ok (hear (GetMessage id method args) (receive (GetMessage id method args) (set_queue q s))) o.
Proof.
  intros Hok Hq. pose proof Hok as (Hs & Ho & Hne).
  set (s' := hear _ (receive _ _)).
  assert (flight o s ≡ₚ GetMessage id method args :: filter is_get q ++ running s ++ filter is_answer (queue o))
    as Hfl by (unfold flight; by rewrite Hq).
  assert (flight o s' ≡ₚ getMethodResult s id method args ::
            filter is_get q ++ running s ++ filter is_answer (queue o)) as Hfl'.
  { apply Permutation_move_front. }
  destruct (flight_call o s (GetMessage id method args) Ho) as (n & Hn); [rewrite Hfl; left|].
  destruct (foreign_unheard o s (GetMessage id method args) (receive (GetMessage id method args) (set_queue q s)))
    as [Hl Hp]; [congruence|done|left; exists n; by eapply carries_id|done|].
  split; [|split; [|done]].
  + eapply (calls_ok_same s s' o o); [repeat split; done|done| |by intros; eapply running_answers; [exact Hs|]|done].
    unfold flight. simpl. by rewrite Hq.
  + eapply (calls_ok_replace o s s' _ _ _ ltac:(done) Hfl Hfl'); [| |done].
    * intros k (p & Hk & Hop & Hmsg). exists p. split; [done|]. split; [done|]. right. cbn [fst snd] in *.
      destruct Hmsg as [[= -> -> ->]|Heq]; [done|].
      pose proof (answer_is_answer s (call_id o k) p) as Ha. by rewrite <- Heq in Ha.
    * cbn. intros m [Hm|Hm]%elem_of_app; [by eapply running_answers; [exact Ho|]|].
      apply list_elem_of_singleton in Hm as ->. unfold getMethodResult. by repeat case_match.
Qed.

(** An answer settles the call it answers. *)
Lemma deliver_answer s o m q :
  pair_ok s o → queue s = m :: q → is_answer m = true →
  pair_ok (hear m (receive m (set_queue q s))) o.
Proof.
  intros Hok Hq Hm. pose proof Hok as (Hs & Ho & Hne).
  pose proof (is_answer_get _ Hm) as Hm'.
  assert (receive m (set_queue q s) = set_queue q s) as -> by (destruct m; done).
  split; [|split; [|done]].
  - eapply (calls_ok_settle s _ o m (filter is_get (queue o) ++ running o ++ filter is_answer q));
      try done.
    unfold flight. rewrite Hq, filter_cons, decide_True by by rewrite Hm.
    by rewrite <- !Permutation_middle.
  - eapply (calls_ok_same o o s); [repeat split; done|done| | |done].
    + unfold flight. simpl. by rewrite Hq, filter_cons, decide_False by (rewrite Hm'; intros []).
    + intros m' Hin. by eapply running_answers; [exact Ho|].
Qed.

Lemma deliver_emit s o method args q :
  pair_ok s o → queue s = EmitMessage method args :: q →
  pair_ok (hear (EmitMessage method args) (receive (EmitMessage method args) (set_queue q s))) o.
Proof.
  intros Hok Hq. pose proof Hok as (Hs & Ho & _).
  destruct (hear_nothing (EmitMessage method args) (receive (EmitMessage method args) (set_queue q s)))
    as [Hl Hp]; [done|].
  apply (pair_ok_frame s o); try done.
  - unfold flight. simpl. by rewrite Hq.
  - unfold flight. simpl. by rewrite Hq.
  - intros m Hm. by eapply running_answers; [exact Ho|].
  - intros m Hm. by eapply running_answers; [exact Hs|].
Qed.

Lemma act_ok a s o s' out :
  static a = true → pair_ok s o → act a s = Some (s', out) → pair_ok s' (post out o).
Proof.
  intros Hst Hok Ha. pose proof Hok as ((Hi & _) & _). destruct a as [nm|nm f|method args|method args| | |k];
    cbn [act] in Ha; [|done|..].
  - injection Ha as <- <-. unfold init. by rewrite Hi, post_nil.
  - assert (get method args s = (s', out)) as Hg by congruence.
    pose proof (act_get s o method args Hok) as H. by rewrite Hg in H.
  - unfold emit in Ha. rewrite Hi in Ha. injection Ha as <- <-. by apply act_emit.
  - unfold start in Ha. rewrite Hi in Ha. injection Ha as <- <-. rewrite post_nil.
    pose proof Hok as (Hs & Ho & _). apply (pair_ok_frame s o); try done.
    + intros m Hm. by eapply running_answers; [exact Ho|].
    + intros m Hm. by eapply running_answers; [exact Hs|].
  - destruct (started s); [|done]. destruct (queue s) as [|m q] eqn:Hq; [done|].
    injection Ha as <- <-. rewrite post_nil. destruct m.
    + by apply deliver_get.
    + by apply deliver_answer.
    + by apply deliver_emit.
    + by apply deliver_answer.
  - destruct (running s !! k) as [m|] eqn:Hk; [|done]. injection Ha as <- <-. by apply act_finish.
Qed.

Lemma step_ok c sa c' :
  static sa.2 = true → pair_ok (page c) (frame c) → step c sa = Some c' →
  pair_ok (page c') (frame c').
Proof.
  intros Hst Hok Hstep. destruct sa as [[] a]; simpl in Hst, Hstep.
  - destruct (act a (page c)) as [[b out]|] eqn:Ha; [|done]. injection Hstep as <-.
    by eapply act_ok.
  - destruct (act a (frame c)) as [[b out]|] eqn:Ha; [|done]. injection Hstep as <-.
    assert (pair_ok (frame c) (page c)) as Hok' by by destruct Hok as (?&?&?).
    pose proof (act_ok _ _ _ _ _ Hst Hok' Ha) as (?&?&?). done.
Qed.

Lemma run_ok tr c c' :
  Forall (λ sa, static sa.2 = true) tr → pair_ok (page c) (frame c) → run tr c = Some c' →
  pair_ok (page c') (frame c').
Proof.
  intros Htr. revert c. induction Htr as [|sa tr Hsa Htr IH]; intros c Hok Hrun; simpl in Hrun.
  - by injection Hrun as <-.
  - destruct (step c sa) as [c1|] eqn:Hstep; [|done]. simpl in Hrun.
    eapply IH; [|done]. by eapply step_ok.
Qed.

(** New boards *)

Lemma Switchboard_fields nm ms :
  name (Switchboard nm ms) = nm ∧ isInitialised (Switchboard nm ms) = true ∧
  incrementor (Switchboard nm ms) = 1%N ∧ queue (Switchboard nm ms) = [] ∧
  promises (Switchboard nm ms) = [] ∧ listeners (Switchboard nm ms) = [] ∧
  running (Switchboard nm ms) = [] ∧ started (Switchboard nm ms) = false.
Proof.
  unfold Switchboard. assert (∀ b, let b' := foldl (λ b nf, defineMethod nf.1 nf.2 b) b ms in
    name b' = name b ∧ isInitialised b' = isInitialised b ∧ incrementor b' = incrementor b ∧
    queue b' = queue b ∧ promises b' = promises b ∧ listeners b' = listeners b ∧
    running b' = running b ∧ started b' = started b) as H.
  { induction ms as [|nf ms IH]; intros b; [done|]. simpl.
    destruct (IH (defineMethod nf.1 nf.2 b)) as (?&?&?&?&?&?&?&?). done. }
  exact (H (init nm new_board)).
Qed.

Lemma new_calls_ok nm ms nm' ms' : calls_ok (Switchboard nm ms) (Switchboard nm' ms').
Proof.
  destruct (Switchboard_fields nm ms) as (H1 & H2 & H3 & H4 & H5 & H6 & H7 & _).
  destruct (Switchboard_fields nm' ms') as (H1' & H2' & H3' & H4' & H5' & H6' & H7' & _).
  split; [done|]. split; [by rewrite H3, H5|]. split; [rewrite H7'; intros m Hm; by apply not_elem_of_nil in Hm|].
  split; [rewrite H5; intros p out Hp; by apply not_elem_of_nil in Hp|].
  exists []. unfold flight. rewrite H4, H4', H5, H6, H7'.
  split_and!; try done; try constructor.
Qed.

Lemma new_pair_ok nm ms nm' ms' :
  nm ≠ nm' → pair_ok (Switchboard nm ms) (Switchboard nm' ms').
Proof.
  intros H. split; [apply new_calls_ok|]. split; [apply new_calls_ok|].
  destruct (Switchboard_fields nm ms) as [-> _], (Switchboard_fields nm' ms') as [-> _]. done.
Qed.

(** ** Methods stay *)

Lemma act_same_methods a s s' out :
  static a = true → isInitialised s = true → act a s = Some (s', out) → same_methods s s'.
Proof.
  intros Hst Hi Ha. destruct a as [nm|nm f|method args|method args| | |k]; cbn [act] in Ha; [|done|..].
  - injection Ha as <- <-. unfold init. by rewrite Hi.
  - unfold get in Ha. rewrite Hi in Ha. by injection Ha as <- <-.
  - by injection Ha as <- <-.
  - unfold start in Ha. rewrite Hi in Ha. by injection Ha as <- <-.
  - destruct (started s), (queue s); try done. by injection Ha as <- <-.
  - destruct (running s !! k); [|done]. by injection Ha as <- <-.
Qed.

Lemma step_same_methods c sa c' :
  static sa.2 = true → pair_ok (page c) (frame c) → step c sa = Some c' →
  same_methods (page c) (page c') ∧ same_methods (frame c) (frame c').
Proof.
  intros Hst ((Hp & _) & (Hf & _) & _) Hstep. destruct sa as [[] a]; simpl in Hst, Hstep.
  - destruct (act a (page c)) as [[b out]|] eqn:Ha; [|done]. injection Hstep as <-.
    split; [|done]. by eapply act_same_methods.
  - destruct (act a (frame c)) as [[b out]|] eqn:Ha; [|done]. injection Hstep as <-.
    split; [done|]. by eapply act_same_methods.
Qed.

Lemma run_same_methods tr c c' :
  Forall (λ sa, static sa.2 = true) tr → pair_ok (page c) (frame c) → run tr c = Some c' →
  same_methods (page c) (page c') ∧ same_methods (frame c) (frame c').
Proof.
  intros Htr. revert c. induction Htr as [|sa tr Hsa Htr IH]; intros c Hok Hrun; simpl in Hrun.
  - by injection Hrun as <-.
  - destruct (step c sa) as [c1|] eqn:Hstep; [|done]. simpl in Hrun.
    destruct (step_same_methods _ _ _ Hsa Hok Hstep) as [[H1 H2] [H3 H4]].
    destruct (IH c1 (step_ok _ _ _ Hsa Hok Hstep) Hrun) as [[H5 H6] [H7 H8]].
    unfold same_methods. split; split; congruence.
Qed.

Lemma expected_same o o' p : same_methods o o' → expected o' p = expected o p.
Proof. intros H. unfold expected. by rewrite (answer_same o o'). Qed.

(** ** Deliveries come to an end *)

Definition internal (a : action) : bool := match a with Deliver | Finish _ => true | _ => false end.

Lemma internal_static a : internal a = true → static a = true.
Proof. by destruct a. Qed.

Definition weight m : nat := if is_get m then 3 else 1.
Definition work b : nat := sum_list_with weight (queue b) + 2 * length (running b).
Definition total_work (c : channel) : nat := work (page c) + work (frame c).

Lemma work_post ms b : work (post ms b) = work b + sum_list_with weight ms.
Proof. unfold work. cbn. rewrite sum_list_with_app. lia. Qed.

Lemma act_work a s s' out :
  internal a = true → (∀ m, m ∈ running s → is_answer m = true) → act a s = Some (s', out) →
  work s' + sum_list_with weight out < work s.
Proof.
  intros Hint Hrun Ha. destruct a as [| | | | | |k]; try done; cbn [act] in Ha.
  - destruct (started s); [|done]. destruct (queue s) as [|m q] eqn:Hq; [done|].
    injection Ha as <- <-. unfold work. rewrite Hq. destruct m; cbn; rewrite ?length_app; simpl; lia.
  - destruct (running s !! k) as [m|] eqn:Hk; [|done]. injection Ha as <- <-. unfold work. cbn.
    assert (is_get m = false) as Hm by (apply is_answer_get, Hrun; by eapply list_elem_of_lookup_2).
    unfold weight at 2. rewrite Hm. apply delete_Permutation, Permutation_length in Hk.
    simpl in Hk. lia.
Qed.

Lemma step_work c sa c' :
  internal sa.2 = true → pair_ok (page c) (frame c) → step c sa = Some c' →
  total_work c' < total_work c.
Proof.
  intros Hint (Hp & Hf & _) Hstep. unfold total_work. destruct sa as [[] a]; simpl in Hint, Hstep.
  - destruct (act a (page c)) as [[b out]|] eqn:Ha; [|done]. injection Hstep as <-. simpl.
    rewrite work_post. apply act_work in Ha; [lia|done|]. intros m. by apply running_answers with (frame c).
  - destruct (act a (frame c)) as [[b out]|] eqn:Ha; [|done]. injection Hstep as <-. simpl.
    rewrite work_post. apply act_work in Ha; [lia|done|]. intros m. by apply running_answers with (page c).
Qed.

Lemma run_work tr c c' :
  Forall (λ sa, internal sa.2 = true) tr → pair_ok (page c) (frame c) → run tr c = Some c' →
  length tr + total_work c' ≤ total_work c.
Proof.
  intros Htr. revert c. induction Htr as [|sa tr Hsa Htr IH]; intros c Hok Hrun; simpl in Hrun.
  - injection Hrun as <-. simpl. lia.
  - destruct (step c sa) as [c1|] eqn:Hstep; [|done]. simpl in Hrun.
    pose proof (step_work _ _ _ Hsa Hok Hstep).
    pose proof (IH c1 (step_ok _ _ _ (internal_static _ Hsa) Hok Hstep) Hrun). simpl. lia.
Qed.

(** Nothing is left to deliver, and no method is running. *)
Definition quiescent (c : channel) : Prop := ∀ sa, internal sa.2 = true → step c sa = None.

Lemma quiescent_empty c :
  started (page c) = true → started (frame c) = true → quiescent c ↔
  queue (page c) = [] ∧ queue (frame c) = [] ∧ running (page c) = [] ∧ running (frame c) = [].
Proof.
  intros Hp Hf. split.
  - intros Hq. pose proof (Hq (Page, Deliver) eq_refl) as H1. pose proof (Hq (Frame, Deliver) eq_refl) as H2.
    pose proof (Hq (Page, Finish 0) eq_refl) as H3. pose proof (Hq (Frame, Finish 0) eq_refl) as H4.
    simpl in *. rewrite Hp in H1. rewrite Hf in H2.
    destruct (queue (page c)), (queue (frame c)), (running (page c)), (running (frame c)); done.
  - intros (H1 & H2 & H3 & H4) [[] [| | | | | |k]] Hint; try done; simpl;
      rewrite ?Hp, ?Hf, ?H1, ?H2, ?H3, ?H4; done.
Qed.

Lemma internal_started c sa c' :
  internal sa.2 = true → step c sa = Some c' →
  started (page c') = started (page c) ∧ started (frame c') = started (frame c).
Proof.
  intros Hint Hstep. destruct sa as [x a]. simpl in Hint.
  assert (∀ s s' out, act a s = Some (s', out) → started s' = started s) as Hact.
  { intros s s' out Ha. destruct a as [| | | | | |k]; try done; cbn [act] in Ha.
    - destruct (started s) eqn:Hs, (queue s); try done. injection Ha as <- <-. done.
    - destruct (running s !! k); [|done]. by injection Ha as <- <-. }
  destruct x; simpl in Hstep.
  - destruct (act a (page c)) as [[b out]|] eqn:Ha; [|done]. injection Hstep as <-. simpl. split; [by eapply Hact|done].
  - destruct (act a (frame c)) as [[b out]|] eqn:Ha; [|done]. injection Hstep as <-. simpl. split; [done|by eapply Hact].
Qed.

Lemma run_started tr c c' :
  Forall (λ sa, internal sa.2 = true) tr → run tr c = Some c' →
  started (page c') = started (page c) ∧ started (frame c') = started (frame c).
Proof.
  intros Htr. revert c. induction Htr as [|sa tr Hsa Htr IH]; intros c Hrun; simpl in Hrun.
  - by injection Hrun as <-.
  - destruct (step c sa) as [c1|] eqn:Hstep; [|done]. simpl in Hrun.
    destruct (internal_started _ _ _ Hsa Hstep), (IH c1 Hrun). split; congruence.
Qed.

(** Deliveries can always be brought to an end. *)
Lemma quiescent_reached c :
  pair_ok (page c) (frame c) → started (page c) = true → started (frame c) = true →
  ∃ tr c', Forall (λ sa, internal sa.2 = true) tr ∧ run tr c = Some c' ∧ quiescent c'.
Proof.
  remember (total_work c) as w eqn:Hw. revert c Hw. induction w as [w IH] using lt_wf_ind.
  intros c -> Hok Hp Hf.
  assert (∀ sa c1, internal sa.2 = true → step c sa = Some c1 →
    ∃ tr c', Forall (λ sa, internal sa.2 = true) tr ∧ run tr c = Some c' ∧ quiescent c') as Hgo.
  { intros sa c1 Hint Hstep. destruct (internal_started _ _ _ Hint Hstep) as [H1 H2].
    destruct (IH (total_work c1) (step_work _ _ _ Hint Hok Hstep) c1) as (tr & c' & Htr & Hrun & Hq);
      [done|by apply (step_ok _ _ _ (internal_static _ Hint) Hok Hstep)|congruence..|].
    exists (sa :: tr), c'. split; [by constructor|]. simpl. by rewrite Hstep. }
  destruct (step c (Page, Deliver)) as [c1|] eqn:H1; [by apply (Hgo _ c1) in H1|].
  destruct (step c (Frame, Deliver)) as [c1|] eqn:H2; [by apply (Hgo _ c1) in H2|].
  destruct (step c (Page, Finish 0)) as [c1|] eqn:H3; [by apply (Hgo _ c1) in H3|].
  destruct (step c (Frame, Finish 0)) as [c1|] eqn:H4; [by apply (Hgo _ c1) in H4|].
  exists [], c. split; [constructor|]. split; [done|]. apply quiescent_empty; [done..|].
  simpl in *. rewrite Hp in H1. rewrite Hf in H2.
  by destruct (queue (page c)), (queue (frame c)), (running (page c)), (running (frame c)).
Qed.

Lemma settled_when_quiet s o :
  calls_ok s o → queue s = [] → queue o = [] → running o = [] →
  ∀ p, p ∈ promises s → p_outcome p = Some (expected o p).
Proof.
  intros (_ & _ & _ & H3 & ways & H4 & _ & _ & _ & H8) Hq Hq' Hr p Hp.
  unfold flight in H4. rewrite Hq, Hq', Hr in H4. simpl in H4.
  apply Permutation_nil_r, fmap_nil_inv in H4 as ->.
  destruct (p_outcome p) as [out|] eqn:Hout; [f_equal; by apply H3|].
  apply list_elem_of_lookup in Hp as (n & Hn). specialize (H8 _ _ Hn Hout).
  by apply not_elem_of_nil in H8.
Qed.

(** ** Calls stay *)

Definition calls b : list (string * jsval) := (λ p, (p_method p, p_args p)) <$> promises b.

Lemma settle_calls n out (ps : list promise) :
  (λ p, (p_method p, p_args p)) <$> settle n out ps = (λ p, (p_method p, p_args p)) <$> ps.
Proof.
  unfold settle. revert n. induction ps as [|p ps IH]; intros [|n]; simpl; try done. f_equal. apply IH.
Qed.

Lemma hear_calls m b : calls (hear m b) = calls b.
Proof.
  unfold calls, hear. cbn [promises]. generalize (promises b) as ps.
  induction (filter _ (listeners b)) as [|l ls IH]; intros ps; simpl; [done|].
  by rewrite IH, settle_calls.
Qed.

Lemma internal_calls c sa c' :
  internal sa.2 = true → step c sa = Some c' →
  calls (page c') = calls (page c) ∧ calls (frame c') = calls (frame c).
Proof.
  intros Hint Hstep. destruct sa as [x a]. simpl in Hint.
  assert (∀ s s' out, act a s = Some (s', out) → calls s' = calls s) as Hact.
  { intros s s' out Ha. destruct a as [| | | | | |k]; try done; cbn [act] in Ha.
    - destruct (started s), (queue s); try done. injection Ha as <- <-. by rewrite hear_calls.
    - destruct (running s !! k); [|done]. by injection Ha as <- <-. }
  destruct x; simpl in Hstep.
  - destruct (act a (page c)) as [[b out]|] eqn:Ha; [|done]. injection Hstep as <-. simpl. split; [by eapply Hact|done].
  - destruct (act a (frame c)) as [[b out]|] eqn:Ha; [|done]. injection Hstep as <-. simpl. split; [done|by eapply Hact].
Qed.

Lemma run_calls tr c c' :
  Forall (λ sa, internal sa.2 = true) tr → run tr c = Some c' →
  calls (page c') = calls (page c) ∧ calls (frame c') = calls (frame c).
Proof.
  intros Htr. revert c. induction Htr as [|sa tr Hsa Htr IH]; intros c Hrun; simpl in Hrun.
  - by injection Hrun as <-.
  - destruct (step c sa) as [c1|] eqn:Hstep; [|done]. simpl in Hrun.
    destruct (internal_calls _ _ _ Hsa Hstep), (IH c1 Hrun). split; congruence.
Qed.
End facts.

(** ** Two connected ends *)

Section channel.
Context (nm nm' : string) (ms ms' : list (string * Method)).

Definition connected : channel := {| page := Switchboard nm ms; frame := Switchboard nm' ms' |}.

(** The end that answers the calls of an end. *)
Definition peer (x : side) : board :=
  match x with Page => Switchboard nm' ms' | Frame => Switchboard nm ms end.

Definition static_run (tr : list (side * action)) : Prop := Forall (λ sa, static sa.2 = true) tr.
Definition internal_run (tr : list (side * action)) : Prop := Forall (λ sa, internal sa.2 = true) tr.

Lemma reached_ok tr c :
  nm ≠ nm' → static_run tr → run tr connected = Some c →
  pair_ok (page c) (frame c) ∧ ∀ x p, expected (match x with Page => frame c | Frame => page c end) p
                                      = expected (peer x) p.
Proof.
  intros Hne Htr Hrun. pose proof (new_pair_ok nm ms nm' ms' Hne) as Hnew.
  split; [by eapply (run_ok tr connected)|]. intros x p.
  destruct (run_same_methods tr connected c Htr Hnew Hrun) as [H1 H2].
  destruct x; by apply expected_same.
Qed.

Lemma reached_calls_ok tr c x :
  nm ≠ nm' → static_run tr → run tr connected = Some c →
  calls_ok (board_of x c) (match x with Page => frame c | Frame => page c end).
Proof. intros Hne Htr Hrun. destruct (reached_ok tr c Hne Htr Hrun) as ((H1 & H2 & _) & _). by destruct x. Qed.
End channel.

(** C14. A call over a channel is answered by the method of the other end of that
    name, applied to the arguments of the call, or with the error that there is
    no such method or that it threw: whatever is called in both directions, and
    in whatever order messages are delivered and methods end, no promise gets the
    outcome of another call, as long as the names of the ends differ. *)
Theorem gets_answered nm nm' ms ms' tr c
    (Hnames : nm ≠ nm') (Htr : static_run tr) (Hrun : run tr (connected nm nm' ms ms') = Some c) :
  ∀ x p out, p ∈ promises (board_of x c) → p_outcome p = Some out →
    out = expected (peer nm nm' ms ms' x) p.
Proof.
  intros x p out Hp Hout.
  destruct (reached_ok _ _ _ _ _ _ Hnames Htr Hrun) as [_ <-].
  destruct (reached_calls_ok _ _ _ _ _ _ x Hnames Htr Hrun) as (_ & _ & _ & H & _). by apply H.
Qed.

(** C13. Every call over a channel is settled.  The two ends have different
    names, as the SDK and the application give them (two ends with one name can
    refuse each other's calls, see same_name_collision), and no
    method is defined after they were connected.  In each state that they can
    reach in which both ports are started, only so many deliveries and ends of
    methods can follow each other; when there are none left every call made so
    far has the outcome of the method it called, among those that the other end
    had when it was connected; and there is always a way there. *)
Theorem gets_settle nm nm' ms ms' tr c
    (Hnames : nm ≠ nm') (Htr : static_run tr) (Hrun : run tr (connected nm nm' ms ms') = Some c)
    (Hpage : started (page c) = true) (Hframe : started (frame c) = true) :
  (∀ tr' c', internal_run tr' → run tr' c = Some c' → length tr' ≤ total_work c) ∧
  (∃ tr' c', internal_run tr' ∧ run tr' c = Some c' ∧ quiescent c') ∧
  (∀ tr' c', internal_run tr' → run tr' c = Some c' → quiescent c' → ∀ x,
     calls (board_of x c') = calls (board_of x c) ∧
     ∀ p, p ∈ promises (board_of x c') → p_outcome p = Some (expected (peer nm nm' ms ms' x) p)).
Proof.
  destruct (reached_ok _ _ _ _ _ _ Hnames Htr Hrun) as [Hok Hexp]. split_and!.
  - intros tr' c' Hint Hrun'. pose proof (run_work tr' c c' Hint Hok Hrun'). lia.
  - by apply quiescent_reached.
  - intros tr' c' Hint Hrun' Hq x. destruct (run_calls tr' c c' Hint Hrun') as [Hc1 Hc2].
    split; [by destruct x|]. intros p Hp.
    destruct (run_started tr' c c' Hint Hrun') as [Hs1 Hs2].
    apply quiescent_empty in Hq as (Hq1 & Hq2 & Hq3 & Hq4); [|congruence..].
    assert (static_run tr') as Hst
      by (eapply Forall_impl; [exact Hint|]; intros sa; apply internal_static).
    pose proof (run_ok tr' c c' Hst Hok Hrun') as (Hok1 & Hok2 & _).
    destruct (run_same_methods tr' c c' Hst Hok Hrun') as [Hm1 Hm2].
    rewrite <- (Hexp x p). destruct x; simpl in Hp.
    + rewrite <- (expected_same _ _ _ Hm2). by apply (settled_when_quiet (page c')).
    + rewrite <- (expected_same _ _ _ Hm1). by apply (settled_when_quiet (frame c')).
Qed.

(** ** Examples *)

Definition frame_methods : list (string * Method) :=
  [("getScrollSize", λ _, Ok (JObj [("width", JNum (num_of_Z 720)); ("height", JNum (num_of_Z 640))]));
   ("getDashboardPermalink", λ args, match args with JObj _ => Ok (JStr "/p/1/") | _ => Throw (TypeError "anchor") end)].

Definition page_methods : list (string * Method) := [("observeDataMask", λ args, Ok args)].

(** The page makes two calls, of which the second is answered first, and one of
    a method there is not. *)
Definition session : list (side * action) :=
  [(Page, Get "getScrollSize" JUndef); (Page, Get "getDashboardPermalink" JUndef);
   (Frame, Start); (Frame, Deliver); (Frame, Emit "observeDataMask" JNull);
   (Frame, Deliver); (Frame, Finish 1); (Page, Get "getColors" JUndef); (Page, Deliver); (Page, Deliver)].

Definition session_end : channel :=
  default (connected EmptyString EmptyString [] [])
    (run session (connected "superset-embedded-sdk" "superset" page_methods frame_methods)).

Lemma session_run :
  run session (connected "superset-embedded-sdk" "superset" page_methods frame_methods) = Some session_end.
Proof. vm_compute. reflexivity. Qed.

Lemma gets_answered_witness :
  p_outcome <$> promises (page session_end) =
    [None;
     Some (Throw (GenericError ("[superset] Method " +:+ quote +:+ "getDashboardPermalink" +:+ quote +:+ " threw an error")));
     None] ∧
  executed (page session_end) = [("observeDataMask", JNull)] ∧
  ∀ x p out, p ∈ promises (board_of x session_end) → p_outcome p = Some out →
    out = expected (peer "superset-embedded-sdk" "superset" page_methods frame_methods x) p.
Proof.
  split; [vm_compute; reflexivity|]. split; [vm_compute; reflexivity|].
  refine (gets_answered "superset-embedded-sdk" "superset" page_methods frame_methods session session_end _ _ _).
  - discriminate.
  - repeat constructor.
  - exact session_run.
Defined.

Lemma gets_settle_witness :
  total_work session_end = 5 ∧
  ∃ tr' c', internal_run tr' ∧ run tr' session_end = Some c' ∧ quiescent c'.
Proof.
  split; [vm_compute; reflexivity|].
  refine (proj1 (proj2 (gets_settle "superset-embedded-sdk" "superset" page_methods frame_methods session
            session_end _ _ _ _ _))).
  - discriminate.
  - repeat constructor.
  - exact session_run.
  - reflexivity.
  - reflexivity.
Defined.

(** Two ends with the same name, as they are when none is given, reject each
    other's calls: the ids they make are the same, so that each takes the call of
    the other for the answer to its own, and the real answers, which are right,
    find no listener any more. *)
Theorem same_name_collision :
  let answer := [("answer", λ _, Ok (JNum (num_of_Z 42)))] : list (string * Method) in
  let both a := [(Page, a); (Frame, a)] in
  let outcomes tr c := match run tr c with
                       | Some c => Some (p_outcome <$> promises (page c), p_outcome <$> promises (frame c), running (page c))
                       | None => None
                       end in
  let rejected := Some (Throw (GenericError "Unexpected response message")) in
  let calls := both (Get "answer" JUndef) in
  let c := connected "switchboard" "switchboard" answer answer in
  outcomes (calls ++ both Deliver) c =
    Some ([rejected], [rejected], [ReplyMessage "m_switchboard_1" (JNum (num_of_Z 42))]) ∧
  outcomes (calls ++ both Deliver ++ both (Finish 0) ++ both Deliver) c =
    Some ([rejected], [rejected], []) ∧
  outcomes (calls ++ both Deliver ++ both (Finish 0) ++ both Deliver) (connected "page" "frame" answer answer) =
    Some ([Some (Ok (JNum (num_of_Z 42)))], [Some (Ok (JNum (num_of_Z 42)))], []).
Proof. split_and!; vm_compute; reflexivity. Qed.
