(* ===== verification/Embedded.v ===== *)
(** * The settings of an embedded dashboard

    The page that embeds a dashboard passes its settings in the address of the
    frame ([embedDashboard] of [src/superset-embedded-sdk/src/index.ts]); the
    frame reads them with [getUrlParam] ([app/utils/urlUtils.ts]) in
    [EmbeddedUiConfigProvider] ([app/components/UiConfigContext/index.tsx]).
    [getGuestTokenRefreshTiming]
    ([src/superset-embedded-sdk/src/guestTokenRefresh.ts]) says when the token is
    renewed.

    Writing and reading the query string is the browser's; a parameter is read
    as the text that was written.  Times are whole milliseconds. *)

From Stdlib Require Import SpecFloat ZArith Ascii String.
From stdpp Require Import base strings option numbers list.
From S2P Require Import Prelude JsObject JsNumber JsValue NaturalSort.

(** ** What is shown *)

(** [UiConfigType] of the page.

    @source src/superset-embedded-sdk/src/index.ts 35-48 UiConfigType *)
Record UiConfig := {
  hideTitle : bool;
  hideTab : bool;
  hideChartControls : bool;
  emitDataMasks : bool;
  showRowLimitWarning : bool;
  filters : list (string * jsval);
  urlParams : jsobj;
}.

(** @source src/superset-embedded-sdk/src/index.ts 122-142 calculateConfig *)
Definition calculateConfig (dashboardUiConfig : option UiConfig) : Z :=
  let flag (b : bool) (n : Z) : Z := if b then n else 0%Z in
  match dashboardUiConfig with
  | None => 0%Z
  | Some c =>
      (flag (hideTitle c) 1 + flag (hideTab c) 2 + flag (hideChartControls c) 8 +
      flag (emitDataMasks c) 16 + flag (showRowLimitWarning c) 32)%Z
  end.

(** @source src/superset-embedded-sdk/src/const.ts 20-23 DASHBOARD_UI_FILTER_CONFIG_URL_PARAM_KEY *)
Definition DASHBOARD_UI_FILTER_CONFIG_URL_PARAM_KEY : list (string * string) :=
  [("visible", "show_filters"); ("expanded", "expand_filters")].

(** The parameters of the address of the frame; the key of an unknown setting of
    the filters is [undefined].

    @source src/superset-embedded-sdk/src/index.ts 147-164 mountIframe (urlParams) *)
Definition frame_params (dashboardUiConfig : option UiConfig) : jsobj :=
  match dashboardUiConfig with
  | None => []
  | Some c =>
      let dashboardConfigUrlParams := [("uiConfig", JStr (string_of_Z (calculateConfig dashboardUiConfig)))] in
      let filterConfigUrlParams :=
        from_entries ((λ kv, (default "undefined" (aget kv.1 DASHBOARD_UI_FILTER_CONFIG_URL_PARAM_KEY), kv.2))
                        <$> filters c) in
      ospread (ospread (ospread [] dashboardConfigUrlParams) filterConfigUrlParams) (urlParams c)
  end.

(** ** What the frame reads *)

(** A parameter of type [number].

    @source src/superset-frontend/src/utils/urlUtils.ts 55-71 getUrlParam (number) *)
Definition getUrlParam_number (urlParam : option string) : option jsnum :=
  match urlParam with
  | None | Some EmptyString => None
  | Some s =>
      if bool_decide (js_lower s = "true") then Some n1
      else if bool_decide (js_lower s = "false") then Some n0
      else if negb (isNaN (Number_of_string s)) then Some (Number_of_string s) else None
  end.

(** A parameter of type [boolean].

    @source src/superset-frontend/src/utils/urlUtils.ts 77-81 getUrlParam (boolean) *)
Definition getUrlParam_boolean (urlParam : option string) : option bool :=
  match urlParam with
  | None | Some EmptyString => None
  | Some s => Some (bool_decide (js_lower s ≠ "false") && bool_decide (s ≠ "0"))
  end.

(** The operand of a bit operation: the number without its fraction, in 32 bits
    with a sign. *)
Definition to_int32 (x : jsnum) : Z :=
  let whole := match x with
               | S754_finite true _ _ => ceil_Z x
               | _ => floor_Z x
               end in
  let w := (whole mod 2 ^ 32)%Z in
  if (w <? 2 ^ 31)%Z then w else (w - 2 ^ 32)%Z.

Record FrameConfig := {
  f_hideTitle : bool;
  f_hideTab : bool;
  f_hideNav : bool;
  f_hideChartControls : bool;
  f_emitDataMasks : bool;
  f_showRowLimitWarning : bool;
}.

(** @source src/superset-frontend/src/components/UiConfigContext/index.tsx 47-60 EmbeddedUiConfigProvider *)
Definition EmbeddedUiConfigProvider (urlParam : option string) : FrameConfig :=
  let config := match getUrlParam_number urlParam with
                | Some x => if truthy (JNum x) then x else n0
                | None => n0
                end in
  let flag (n : Z) := negb (Z.land (to_int32 config) n =? 0)%Z in
  {| f_hideTitle := flag 1%Z; f_hideTab := flag 2%Z; f_hideNav := flag 4%Z;
     f_hideChartControls := flag 8%Z; f_emitDataMasks := flag 16%Z;
     f_showRowLimitWarning := flag 32%Z |}.

(** The text of a parameter, as it is written to the address and read from it. *)
Definition url_param (name : string) (params : jsobj) : option string := to_string <$> aget name params.

(** ** When the token is renewed *)

(** @source src/superset-embedded-sdk/src/guestTokenRefresh.ts 21-23 constants *)
Definition REFRESH_TIMING_BUFFER_MS : Z := 5000.
Definition MIN_REFRESH_WAIT_MS : Z := 10000.
Definition DEFAULT_TOKEN_EXP_MS : Z := 300000.

Section timing.
(** [new Date(v).getTime()], [None] for an invalid date. *)
Context (date : jsval → option Z).

(** [/[^0-9\.]/g.test(s)] *)
Definition not_decimal (s : string) : bool :=
  negb (all_chars (λ c, is_digit c || bool_decide (c = "."%char)) s).

(** @source src/superset-embedded-sdk/src/guestTokenRefresh.ts 26-33 getGuestTokenRefreshTiming *)
Definition getGuestTokenRefreshTiming (now : Z) (exp : jsval) : Z :=
  let exp := date (if not_decimal (to_string exp) then exp
                   else JNum (num_mul (parseFloat (to_string exp)) (num_of_Z 1000))) in
  let ttl := match exp with
             | Some time => Z.max MIN_REFRESH_WAIT_MS (time - now)
             | None => DEFAULT_TOKEN_EXP_MS
             end in
  (ttl - REFRESH_TIMING_BUFFER_MS)%Z.
End timing.

(** ** Facts *)

Lemma aget_ospread_notin {V} k (a b : list (string * V)) :
  k ∉ akeys b → aget k (ospread a b) = aget k a.
Proof.
  intros Hk. rewrite aget_ospread_rev.
  assert (aget k (reverse b) = None) as ->; [|done].
  apply aget_None. by rewrite akeys_reverse, elem_of_reverse.
Qed.

Lemma aget_from_entries_only {V} k v (l : list (string * V)) :
  (k, v) ∈ l → (∀ v', (k, v') ∈ l → v' = v) → aget k (from_entries l) = Some v.
Proof.
  intros Hin Honly. unfold from_entries. rewrite aget_ospread_rev.
  destruct (aget k (reverse l)) as [v'|] eqn:Hk.
  - apply aget_Some_elem in Hk. rewrite elem_of_reverse in Hk. by rewrite (Honly _ Hk).
  - apply aget_None in Hk. destruct Hk. rewrite akeys_reverse, elem_of_reverse.
    by apply (list_elem_of_fmap_2 fst) in Hin.
Qed.

(** The parameter a setting of the filters is written to. *)
Definition filter_param (key : string) : string :=
  default "undefined" (aget key DASHBOARD_UI_FILTER_CONFIG_URL_PARAM_KEY).

Lemma filter_param_eq key key' :
  filter_param key = filter_param key' → key' ∈ ["visible"; "expanded"] → key = key'.
Proof.
  unfold filter_param, DASHBOARD_UI_FILTER_CONFIG_URL_PARAM_KEY. simpl. intros H Hin.
  repeat (apply elem_of_cons in Hin as [->|Hin]; [simpl in H; by repeat case_decide|]).
  by apply not_elem_of_nil in Hin.
Qed.

Lemma filter_param_uiConfig key : filter_param key ≠ "uiConfig".
Proof.
  unfold filter_param, DASHBOARD_UI_FILTER_CONFIG_URL_PARAM_KEY. simpl. by repeat case_decide.
Qed.

Definition filter_params (c : UiConfig) : jsobj :=
  from_entries ((λ kv, (filter_param kv.1, kv.2)) <$> filters c).

Lemma frame_params_eq c :
  frame_params (Some c) =
  ospread (ospread (ospread [] [("uiConfig", JStr (string_of_Z (calculateConfig (Some c))))]) (filter_params c))
    (urlParams c).
Proof. done. Qed.

Lemma elem_of_filter_params k c : k ∈ akeys (filter_params c) → ∃ key, k = filter_param key.
Proof.
  unfold filter_params, from_entries. rewrite elem_of_akeys_ospread. intros [H|H].
  - by apply not_elem_of_nil in H.
  - unfold akeys in H. rewrite <- list_fmap_compose in H.
    apply list_elem_of_fmap in H as ([key v] & -> & _). by exists key.
Qed.

Lemma url_param_uiConfig c :
  "uiConfig" ∉ akeys (urlParams c) →
  url_param "uiConfig" (frame_params (Some c)) = Some (string_of_Z (calculateConfig (Some c))).
Proof.
  intros Hk. unfold url_param. rewrite frame_params_eq, aget_ospread_notin by done.
  rewrite aget_ospread_notin; [done|]. intros (key & H)%elem_of_filter_params.
  by apply (filter_param_uiConfig key).
Qed.

Lemma url_param_filter c key b :
  NoDup (akeys (filters c)) → key ∈ ["visible"; "expanded"] →
  filter_param key ∉ akeys (urlParams c) → aget key (filters c) = Some (JBool b) →
  url_param (filter_param key) (frame_params (Some c)) = Some (to_string (JBool b)).
Proof.
  intros Hnd Hkey Hk Hget. unfold url_param. rewrite frame_params_eq, aget_ospread_notin by done.
  rewrite aget_ospread by apply NoDup_akeys_from_entries.
  unfold filter_params. rewrite (aget_from_entries_only _ (JBool b)); [done| |].
  - apply list_elem_of_fmap. exists (key, JBool b). split; [done|]. by apply aget_Some_elem.
  - intros v' ([key' w] & [= Heq ->] & Hin)%list_elem_of_fmap. simpl in Heq.
    symmetry in Heq. apply filter_param_eq in Heq as ->; [|done].
    apply elem_aget in Hin; [|done]. congruence.
Qed.

Lemma url_param_filter_absent c key :
  key ∈ ["visible"; "expanded"] → filter_param key ∉ akeys (urlParams c) →
  key ∉ akeys (filters c) → url_param (filter_param key) (frame_params (Some c)) = None.
Proof.
  intros Hkey Hk Hget. unfold url_param. rewrite frame_params_eq, aget_ospread_notin by done.
  rewrite aget_ospread_notin.
  - apply fmap_None, aget_None. intros [H|H]%elem_of_akeys_ospread; [by apply not_elem_of_nil in H|].
    apply list_elem_of_singleton in H. by apply (filter_param_uiConfig key).
  - unfold filter_params, from_entries. intros [H|H]%elem_of_akeys_ospread; [by apply not_elem_of_nil in H|].
    unfold akeys in H. rewrite <- list_fmap_compose in H.
    apply list_elem_of_fmap in H as ([key' v] & Heq & Hin). cbn in Heq.
    symmetry in Heq. apply filter_param_eq in Heq as ->; [|done]. apply Hget. by apply (list_elem_of_fmap_2 fst) in Hin.
Qed.

(** A setting of the filter bar, as the frame reads it. *)
Lemma filter_setting_read c key (setting : option bool) :
  NoDup (akeys (filters c)) → key ∈ ["visible"; "expanded"] →
  filter_param key ∉ akeys (urlParams c) → aget key (filters c) = JBool <$> setting →
  getUrlParam_boolean (url_param (filter_param key) (frame_params (Some c))) = setting.
Proof.
  intros Hnd Hkey Hk Hget. destruct setting as [b|]; cbn in Hget.
  - rewrite (url_param_filter c key b) by done. by destruct b.
  - rewrite url_param_filter_absent; [done..|]. by apply aget_None.
Qed.

(** C36. The settings of an embedded dashboard survive the address of its frame.
    When the page does not give the parameter uiConfig itself, every flag of the
    page is read back by the frame as it was set, whatever the settings of the
    filter bar are, and the navigation is not hidden, for which the page has no
    flag.  When the page does not give show_filters itself, the frame reads the
    setting filters.visible as the page set it, and nothing when the page did
    not set it; the same for expand_filters and filters.expanded.  A page without
    settings hides nothing. *)
Theorem embedded_config_roundtrip c :
  let param name := url_param name (frame_params (Some c)) in
  ("uiConfig" ∉ akeys (urlParams c) →
     EmbeddedUiConfigProvider (param "uiConfig") =
       {| f_hideTitle := hideTitle c; f_hideTab := hideTab c; f_hideNav := false;
          f_hideChartControls := hideChartControls c; f_emitDataMasks := emitDataMasks c;
          f_showRowLimitWarning := showRowLimitWarning c |}) ∧
  (NoDup (akeys (filters c)) →
     (∀ visible, "show_filters" ∉ akeys (urlParams c) → aget "visible" (filters c) = JBool <$> visible →
        getUrlParam_boolean (param "show_filters") = visible) ∧
     (∀ expanded, "expand_filters" ∉ akeys (urlParams c) → aget "expanded" (filters c) = JBool <$> expanded →
        getUrlParam_boolean (param "expand_filters") = expanded)) ∧
  EmbeddedUiConfigProvider (url_param "uiConfig" (frame_params None)) =
    {| f_hideTitle := false; f_hideTab := false; f_hideNav := false; f_hideChartControls := false;
       f_emitDataMasks := false; f_showRowLimitWarning := false |}.
Proof.
  cbv zeta. split_and!; [| |done].
  - intros Hui. rewrite url_param_uiConfig by done. clear.
    destruct c as [[] [] [] [] [] fs ps]; vm_compute; reflexivity.
  - intros Hnd. split; intros b Hk Hget.
    + apply (filter_setting_read c "visible"); [done|by left|done..].
    + apply (filter_setting_read c "expanded"); [done|by right; left|done..].
Qed.

(** A page that shows the filter bar expanded and says nothing of its being
    visible. *)
Definition example_config : UiConfig :=
  {| hideTitle := true; hideTab := false; hideChartControls := true; emitDataMasks := false;
     showRowLimitWarning := true;
     filters := [("expanded", JBool true); ("sticky", JBool true)];
     urlParams := [("standalone", JNum (num_of_Z 3))] |}.

Lemma embedded_config_roundtrip_witness :
  let param name := url_param name (frame_params (Some example_config)) in
  akeys (frame_params (Some example_config)) = ["uiConfig"; "expand_filters"; "undefined"; "standalone"] ∧
  EmbeddedUiConfigProvider (param "uiConfig") =
    {| f_hideTitle := true; f_hideTab := false; f_hideNav := false; f_hideChartControls := true;
       f_emitDataMasks := false; f_showRowLimitWarning := true |} ∧
  getUrlParam_boolean (param "show_filters") = None ∧ getUrlParam_boolean (param "expand_filters") = Some true.
Proof.
  intros param. split; [vm_compute; reflexivity|].
  destruct (embedded_config_roundtrip example_config) as (Hui & Hfilters & _).
  destruct Hfilters as [Hshow Hexpand]; [solve_decided|].
  split; [apply Hui; solve_decided|].
  split; [apply (Hshow None); [solve_decided|reflexivity]|apply (Hexpand (Some true)); [solve_decided|reflexivity]].
Defined.

(** The token is renewed five seconds before it expires, but not sooner than
    after five seconds, and after five minutes when it does not say when it
    expires. *)
Lemma refresh_timing date now exp :
  let timing := getGuestTokenRefreshTiming date now exp in
  (5000 ≤ timing)%Z ∧
  (timing = 295000 ∨ timing = 5000 ∨ ∃ v time, date v = Some time ∧ (now + timing = time - 5000))%Z.
Proof.
  unfold getGuestTokenRefreshTiming, DEFAULT_TOKEN_EXP_MS, REFRESH_TIMING_BUFFER_MS, MIN_REFRESH_WAIT_MS.
  destruct (date _) as [time|] eqn:Hd; [|split; [lia|by left]].
  split; [lia|]. destruct (decide (10000 ≤ time - now)%Z).
  - right. right. eexists _, time. split; [exact Hd|]. lia.
  - right. left. lia.
Qed.
