(* ===== verification/AsyncEvent.v ===== *)
(** * Results of asynchronous queries

    [app/middleware/asyncEvent.ts]: a chart whose query runs in the background
    waits for the event that reports its job.  Events arrive over a poll of the
    server or over a web socket, possibly before anybody waits for the job, in
    which case they are tried again a few times.

    The variables of the module are the state.  What the module waits for is
    kept in the state as well: timers, requests for cached data, polls and the
    socket.  An [input] is one thing that happens next; the continuation of the
    code after an [await] or a timeout runs then.  Timeouts may fire in any
    order, so that nothing depends on their delays.  A promise is known by a
    number and is settled once.

    The error that a promise is rejected with is the one the event carries; how
    it is turned into a message is left open.  A failed access to local storage
    and messages on the console are left out, and so is the error event of the
    socket, which is followed by its close event. *)

From Stdlib Require Import Ascii String.
From stdpp Require Import base strings option numbers list sets relations.
From S2P Require Import Prelude JsObject JsNumber JsValue QueryTypes.

(** ** Data *)

(** @source app/middleware/asyncEvent.ts 32-40 AsyncEvent *)
Record AsyncEvent := {
  event_id : jsval;
  job_id : string;
  status : string;
  result_url : jsval;
  errors : jsval;
}.

(** @source app/middleware/asyncEvent.ts 49-56 JOB_STATUS *)
Definition TRANSPORT_POLLING : string := "polling".
Definition TRANSPORT_WS : string := "ws".
Definition DONE : string := "done".
Definition ERROR : string := "error".

(** @source app/middleware/asyncEvent.ts 59-60 MAX_RETRIES, RETRY_DELAY *)
Definition MAX_RETRIES : nat := 6.
Definition RETRY_DELAY : nat := 100.

(** @source app/middleware/asyncEvent.ts 185-186 wsConnectMaxRetries *)
Definition wsConnectMaxRetries : nat := 6.

(** The answer to the request for cached data: an object, a list, or a failure,
    with the error that is made of it.  Any other value fails the test for
    [result]. *)
Inductive response :=
| Json_object (json : jsobj)
| Json_array (json : list jsval)
| Failed (error : jsval).

(** What a promise is settled with. *)
Inductive outcome :=
| Resolved (data : list jsval)
| Rejected (data : list jsval)
| Rejected_by_event (asyncEvent : AsyncEvent).

(** @source app/middleware/asyncEvent.ts 62-68 listenersByJobId, retriesByJobId, lastReceivedEventId *)
Record async_state := {
  transport : string;
  listenersByJobId : list (string * nat);
  retriesByJobId : list (string * nat);
  lastReceivedEventId : jsval;
  timers : list (AsyncEvent * nat);
  fetches : list (nat * AsyncEvent);
  settled : list (nat * outcome);
  promises : nat;
  requests : list jsval;
  polls : nat;
  ws_live : bool;
  ws_timeout : bool;
  wsConnectRetries : nat;
}.

(** ** Updates of one variable *)

Definition set_listeners (v : list (string * nat)) (s : async_state) : async_state :=
  {| transport := transport s; listenersByJobId := v; retriesByJobId := retriesByJobId s;
     lastReceivedEventId := lastReceivedEventId s; timers := timers s; fetches := fetches s;
     settled := settled s; promises := promises s; requests := requests s; polls := polls s;
     ws_live := ws_live s; ws_timeout := ws_timeout s; wsConnectRetries := wsConnectRetries s |}.

Definition set_retries (v : list (string * nat)) (s : async_state) : async_state :=
  {| transport := transport s; listenersByJobId := listenersByJobId s; retriesByJobId := v;
     lastReceivedEventId := lastReceivedEventId s; timers := timers s; fetches := fetches s;
     settled := settled s; promises := promises s; requests := requests s; polls := polls s;
     ws_live := ws_live s; ws_timeout := ws_timeout s; wsConnectRetries := wsConnectRetries s |}.

Definition set_lastId (v : jsval) (s : async_state) : async_state :=
  {| transport := transport s; listenersByJobId := listenersByJobId s;
     retriesByJobId := retriesByJobId s; lastReceivedEventId := v; timers := timers s;
     fetches := fetches s; settled := settled s; promises := promises s; requests := requests s;
     polls := polls s; ws_live := ws_live s; ws_timeout := ws_timeout s;
     wsConnectRetries := wsConnectRetries s |}.

Definition set_timers (v : list (AsyncEvent * nat)) (s : async_state) : async_state :=
  {| transport := transport s; listenersByJobId := listenersByJobId s;
     retriesByJobId := retriesByJobId s; lastReceivedEventId := lastReceivedEventId s; timers := v;
     fetches := fetches s; settled := settled s; promises := promises s; requests := requests s;
     polls := polls s; ws_live := ws_live s; ws_timeout := ws_timeout s;
     wsConnectRetries := wsConnectRetries s |}.

Definition set_fetches (v : list (nat * AsyncEvent)) (s : async_state) : async_state :=
  {| transport := transport s; listenersByJobId := listenersByJobId s;
     retriesByJobId := retriesByJobId s; lastReceivedEventId := lastReceivedEventId s;
     timers := timers s; fetches := v; settled := settled s; promises := promises s;
     requests := requests s; polls := polls s; ws_live := ws_live s; ws_timeout := ws_timeout s;
     wsConnectRetries := wsConnectRetries s |}.

(** [resolve] and [reject]: a promise that is settled stays so. *)
Definition settle (p : nat) (o : outcome) (s : async_state) : async_state :=
  if existsb (λ po, Nat.eqb p po.1) (settled s) then s
  else
    {| transport := transport s; listenersByJobId := listenersByJobId s;
       retriesByJobId := retriesByJobId s; lastReceivedEventId := lastReceivedEventId s;
       timers := timers s; fetches := fetches s; settled := settled s ++ [(p, o)];
       promises := promises s; requests := requests s; polls := polls s; ws_live := ws_live s;
       ws_timeout := ws_timeout s; wsConnectRetries := wsConnectRetries s |}.

Definition set_polling (reqs : list jsval) (n : nat) (s : async_state) : async_state :=
  {| transport := transport s; listenersByJobId := listenersByJobId s;
     retriesByJobId := retriesByJobId s; lastReceivedEventId := lastReceivedEventId s;
     timers := timers s; fetches := fetches s; settled := settled s; promises := promises s;
     requests := reqs; polls := n; ws_live := ws_live s; ws_timeout := ws_timeout s;
     wsConnectRetries := wsConnectRetries s |}.

Definition set_ws (live timeout : bool) (n : nat) (s : async_state) : async_state :=
  {| transport := transport s; listenersByJobId := listenersByJobId s;
     retriesByJobId := retriesByJobId s; lastReceivedEventId := lastReceivedEventId s;
     timers := timers s; fetches := fetches s; settled := settled s; promises := promises s;
     requests := requests s; polls := polls s; ws_live := live; ws_timeout := timeout;
     wsConnectRetries := n |}.

(** ** Listeners *)

(** @source app/middleware/asyncEvent.ts 70-77 addListener, removeListener *)
Definition addListener (id : string) (p : nat) (s : async_state) : async_state :=
  set_listeners (oset id p (listenersByJobId s)) s.

Definition removeListener (id : string) (s : async_state) : async_state :=
  set_listeners (adel id (listenersByJobId s)) s.

(** Whether the request succeeded, and its data.

    @source app/middleware/asyncEvent.ts 79-95 fetchCachedData *)
Definition fetchCachedData (r : response) : bool * jsval :=
  match r with
  | Json_object json => (true, if ahas "result" json then ofield "result" json else JObj json)
  | Json_array json => (true, JArr json)
  | Failed error => (false, error)
  end.

(** A new promise, with its listener.

    @source app/middleware/asyncEvent.ts 97-124 waitForAsyncData *)
Definition waitForAsyncData (jobId : string) (s : async_state) : async_state :=
  addListener jobId (promises s)
    {| transport := transport s; listenersByJobId := listenersByJobId s;
       retriesByJobId := retriesByJobId s; lastReceivedEventId := lastReceivedEventId s;
       timers := timers s; fetches := fetches s; settled := settled s; promises := S (promises s);
       requests := requests s; polls := polls s; ws_live := ws_live s; ws_timeout := ws_timeout s;
       wsConnectRetries := wsConnectRetries s |}.

(** The listener up to its first [await].

    @source app/middleware/asyncEvent.ts 100-121 waitForAsyncData (listener) *)
Definition listener (p : nat) (e : AsyncEvent) (s : async_state) : async_state :=
  if bool_decide (status e = DONE) then set_fetches (fetches s ++ [(p, e)]) s
  else if bool_decide (status e = ERROR) then
    removeListener (job_id e) (settle p (Rejected_by_event e) s)
  else removeListener (job_id e) s.

(** The rest of the listener, when the cached data have arrived.

    @source app/middleware/asyncEvent.ts 103-110 waitForAsyncData (data) *)
Definition listener_data (p : nat) (e : AsyncEvent) (r : response) (s : async_state) : async_state :=
  let '(success, data) := fetchCachedData r in
  let data := ensureIsArray data in
  removeListener (job_id e) (settle p (if success then Resolved data else Rejected data) s).

(** ** Events *)

(** The event of a job nobody waits for is tried again, later each time.

    @source app/middleware/asyncEvent.ts 150-163 processEvents (retry) *)
Definition retry_event (e : AsyncEvent) (s : async_state) : async_state :=
  let n := S (default 0 (aget (job_id e) (retriesByJobId s))) in
  if n <=? MAX_RETRIES then
    set_timers (timers s ++ [(e, RETRY_DELAY * n)])
      (set_retries (oset (job_id e) n (retriesByJobId s)) s)
  else set_retries (adel (job_id e) (retriesByJobId s)) s.

(** @source app/middleware/asyncEvent.ts 144-165 processEvents (event) *)
Definition processEvent (s : async_state) (e : AsyncEvent) : async_state :=
  let s :=
    match aget (job_id e) (listenersByJobId s) with
    | Some p =>
        let s := listener p e s in
        set_retries (adel (job_id e) (retriesByJobId s)) s
    | None => retry_event e s
    end in
  set_lastId (event_id e) s.

(** @source app/middleware/asyncEvent.ts 143-167 processEvents *)
Definition processEvents (events : list AsyncEvent) (s : async_state) : async_state :=
  foldl processEvent s events.

(** @source app/middleware/asyncEvent.ts 180-182 loadEventsFromApi (next poll) *)
Definition schedule_poll (s : async_state) : async_state :=
  if bool_decide (transport s = TRANSPORT_POLLING)
  then set_polling (requests s) (S (polls s)) s else s.

(** A request is sent, with the last event that was received, if anybody
    waits.

    @source app/middleware/asyncEvent.ts 169-183 loadEventsFromApi *)
Definition loadEventsFromApi (s : async_state) : async_state :=
  match listenersByJobId s with
  | [] => schedule_poll s
  | _ =>
      let last_id := if truthy (lastReceivedEventId s) then lastReceivedEventId s else JUndef in
      set_polling (requests s ++ [last_id]) (polls s) s
  end.

(** @source app/middleware/asyncEvent.ts 191-194 wsConnect *)
Definition wsConnect (s : async_state) : async_state :=
  set_ws true (ws_timeout s) (wsConnectRetries s) s.

(** ** What may happen next *)

Inductive input :=
| Wait (jobId : string)
| Timer (i : nat)
| Data (i : nat) (r : response)
| Poll
| Reply (i : nat) (events : list AsyncEvent)
| Ws_open
| Ws_close
| Ws_timeout
| Ws_message (asyncEvent : AsyncEvent).

(** @source app/middleware/asyncEvent.ts 154-156 processEvents (timeout) *)
Definition timer_fires (i : nat) (s : async_state) : async_state :=
  match timers s !! i with
  | Some (e, _) => processEvents [e] (set_timers (delete i (timers s)) s)
  | None => s
  end.

Definition data_arrives (i : nat) (r : response) (s : async_state) : async_state :=
  match fetches s !! i with
  | Some (p, e) => listener_data p e r (set_fetches (delete i (fetches s)) s)
  | None => s
  end.

(** A reply without events stands for a failed request, too.

    @source app/middleware/asyncEvent.ts 172-182 loadEventsFromApi (reply) *)
Definition reply (i : nat) (events : list AsyncEvent) (s : async_state) : async_state :=
  match requests s !! i with
  | Some _ => schedule_poll (processEvents events (set_polling (delete i (requests s)) (polls s) s))
  | None => s
  end.

(** @source app/middleware/asyncEvent.ts 196-227 wsConnect (events) *)
Definition ws_event (x : input) (s : async_state) : async_state :=
  match x with
  | Ws_open => if ws_live s then set_ws true false 0 s else s
  | Ws_close => if ws_live s then set_ws false true (wsConnectRetries s) s else s
  | Ws_timeout =>
      if ws_timeout s then
        let n := S (wsConnectRetries s) in
        let s := set_ws (ws_live s) false n s in
        if n <=? wsConnectMaxRetries then wsConnect s else loadEventsFromApi s
      else s
  | Ws_message e => if ws_live s then processEvents [e] s else s
  | _ => s
  end.

Definition handle (s : async_state) (x : input) : async_state :=
  match x with
  | Wait jobId => waitForAsyncData jobId s
  | Timer i => timer_fires i s
  | Data i r => data_arrives i r s
  | Poll =>
      match polls s with
      | S n => loadEventsFromApi (set_polling (requests s) n s)
      | 0 => s
      end
  | Reply i events => reply i events s
  | Ws_open | Ws_close | Ws_timeout | Ws_message _ => ws_event x s
  end.

(** The promises of an earlier initialisation are forgotten with their
    listeners; what is under way is counted anew.  A missing transport is the
    empty string.

    @source app/middleware/asyncEvent.ts 230-254 init *)
Definition init (transport_ : string) (stored_id : jsval) : async_state :=
  let s :=
    {| transport := if bool_decide (transport_ = EmptyString) then TRANSPORT_POLLING else transport_;
       listenersByJobId := [];
       retriesByJobId := []; lastReceivedEventId := stored_id; timers := []; fetches := [];
       settled := []; promises := 0; requests := []; polls := 0; ws_live := false;
       ws_timeout := false; wsConnectRetries := 0 |} in
  let s := if bool_decide (transport s = TRANSPORT_POLLING) then loadEventsFromApi s else s in
  if bool_decide (transport s = TRANSPORT_WS) then wsConnect s else s.
