(* ===== verification/AsyncEventFacts.v ===== *)
(** * Waiting charts get their answer

    A promise that waits for a job is settled once the event of the job has
    arrived, before or after the promise was made, whatever else happens in
    between, unless there is another wait or an unfinished event for the same
    job; and limits of the module: an event that nobody waits for is dropped after
    six more attempts, a socket that cannot be opened leaves the module deaf, and
    an earlier wait for the same job removes the listener of a later one. *)

From Stdlib Require Import Ascii String.
From stdpp Require Import base strings option numbers list sets relations.
From S2P Require Import Prelude JsObject JsNumber JsValue QueryTypes AsyncEvent.

(** An event that ends its job. *)
Definition final (e : AsyncEvent) : Prop := status e = DONE ∨ status e = ERROR.

Definition is_settled (p : nat) (s : async_state) : Prop := ∃ o, (p, o) ∈ settled s.

Definition retry_count (j : string) (s : async_state) : nat := default 0 (aget j (retriesByJobId s)).

Definition retries_ok (s : async_state) : Prop := ∀ j, retry_count j s ≤ MAX_RETRIES.

(** ** One event *)

Lemma settle_settled p o s : is_settled p (settle p o s).
Proof.
  unfold is_settled, settle. destruct (existsb _ _) eqn:E.
  - apply existsb_exists in E as ([q o'] & Hin & Hq%Nat.eqb_eq). cbn in Hq. subst q. exists o'.
    by apply list_elem_of_In.
  - exists o. cbn. apply elem_of_app. right. by apply list_elem_of_singleton.
Qed.

Lemma settle_fields p o s :
  listenersByJobId (settle p o s) = listenersByJobId s ∧ retriesByJobId (settle p o s) = retriesByJobId s ∧
  timers (settle p o s) = timers s ∧ fetches (settle p o s) = fetches s ∧
  ∀ q, is_settled q s → is_settled q (settle p o s).
Proof.
  unfold settle. destruct (existsb _ _); [done|]. split_and!; try done.
  intros q [o' Ho]. exists o'. cbn. apply elem_of_app. by left.
Qed.

(** What an event does to the state, by whether its job has a listener. *)
Lemma processEvent_heard s e p :
  aget (job_id e) (listenersByJobId s) = Some p →
  let r := processEvent s e in
  timers r = timers s ∧ retriesByJobId r = adel (job_id e) (retriesByJobId s) ∧
  (status e = DONE → listenersByJobId r = listenersByJobId s ∧ fetches r = fetches s ++ [(p, e)] ∧
                     settled r = settled s) ∧
  (status e ≠ DONE → listenersByJobId r = adel (job_id e) (listenersByJobId s) ∧
                     fetches r = fetches s) ∧
  (status e = ERROR → is_settled p r) ∧ (∀ q, is_settled q s → is_settled q r).
Proof.
  intros Hp r. unfold r, processEvent. rewrite Hp. unfold listener.
  pose proof (settle_fields p (Rejected_by_event e) s) as (E1 & E2 & E3 & E4 & E5).
  pose proof (settle_settled p (Rejected_by_event e) s) as E6.
  repeat case_bool_decide; cbn; split_and!; intros; rewrite ?E1, ?E2, ?E3, ?E4; try (split_and!; done); try congruence; try done;
    first [exact E6|by apply E5|by rewrite H in H0].
Qed.

Lemma processEvent_unheard s e :
  aget (job_id e) (listenersByJobId s) = None →
  let r := processEvent s e in
  let n := S (retry_count (job_id e) s) in
  listenersByJobId r = listenersByJobId s ∧ fetches r = fetches s ∧ settled r = settled s ∧
  (n ≤ MAX_RETRIES → timers r = timers s ++ [(e, RETRY_DELAY * n)] ∧
                     retriesByJobId r = oset (job_id e) n (retriesByJobId s)) ∧
  (MAX_RETRIES < n → timers r = timers s ∧ retriesByJobId r = adel (job_id e) (retriesByJobId s)).
Proof.
  intros Hn r. unfold r, processEvent. rewrite Hn. unfold retry_event, retry_count.
  destruct (_ <=? _) eqn:E; [apply Nat.leb_le in E|apply Nat.leb_gt in E]; split_and!; cbn; try done;
    intros; split; (done || lia).
Qed.

Lemma processEvent_settled s e q : is_settled q s → is_settled q (processEvent s e).
Proof.
  intros H. destruct (aget (job_id e) (listenersByJobId s)) as [p|] eqn:E.
  - by apply (processEvent_heard s e p E).
  - destruct (processEvent_unheard s e E) as (_ & _ & Hs & _). unfold is_settled. by rewrite Hs.
Qed.

Lemma processEvent_retries s e : retries_ok s → retries_ok (processEvent s e).
Proof.
  intros H j. unfold retry_count. destruct (aget (job_id e) (listenersByJobId s)) as [p|] eqn:E.
  - destruct (processEvent_heard s e p E) as (_ & -> & _). rewrite aget_adel. case_decide; [cbn; lia|apply H].
  - destruct (processEvent_unheard s e E) as (_ & _ & _ & H1 & H2).
    destruct (decide (S (retry_count (job_id e) s) ≤ MAX_RETRIES)) as [Hle|Hgt].
    + destruct (H1 Hle) as [_ ->]. rewrite aget_oset. case_decide; [done|apply H].
    + destruct H2 as [_ ->]; [lia|]. rewrite aget_adel. case_decide; [cbn; lia|apply H].
Qed.

(** ** Waiting for a job *)

Section track.
Context (p : nat) (j : string).

(** Everything under way for the job will end the wait of [p]. *)
Record on_course (s : async_state) : Prop := {
  oc_timers : ∀ e d, (e, d) ∈ timers s → job_id e = j → final e;
  oc_fetches : ∀ q e, (q, e) ∈ fetches s → job_id e = j → q = p;
  oc_listener : ∀ q, aget j (listenersByJobId s) = Some q → q = p;
}.

Definition listening (s : async_state) : Prop := aget j (listenersByJobId s) = Some p.

Definition pending (s : async_state) : Prop := ∃ e d, (e, d) ∈ timers s ∧ job_id e = j.

Definition fetching (s : async_state) : Prop := ∃ e, (p, e) ∈ fetches s ∧ job_id e = j.

(** The wait of [p] is over, or its end is under way. *)
Definition on_track (s : async_state) : Prop :=
  is_settled p s ∨ on_course s ∧ (listening s ∧ pending s ∨ fetching s).

Lemma processEvent_course s e :
  (job_id e = j → final e) → on_course s → on_course (processEvent s e).
Proof.
  intros He [Ht Hf Hl]. destruct (aget (job_id e) (listenersByJobId s)) as [q|] eqn:E.
  - destruct (processEvent_heard s e q E) as (E1 & _ & H1 & H2 & _). split; [by rewrite E1|..].
    + destruct (decide (status e = DONE)) as [Hd|Hd]; [|destruct (H2 Hd) as [_ ->]; done].
      destruct (H1 Hd) as (_ & -> & _). intros q' e' [Hin|Hin]%elem_of_app Hj; [by eapply Hf|].
      apply list_elem_of_singleton in Hin as [= -> ->]. apply Hl. by rewrite <- Hj.
    + intros q'. destruct (decide (status e = DONE)) as [Hd|Hd]; [destruct (H1 Hd) as (-> & _); apply Hl|].
      destruct (H2 Hd) as [-> _]. rewrite aget_adel. case_decide; [done|apply Hl].
  - destruct (processEvent_unheard s e E) as (E1 & E2 & _ & H1 & H2).
    split; [|by rewrite E2|by rewrite E1].
    destruct (decide (S (retry_count (job_id e) s) ≤ MAX_RETRIES)) as [Hle|Hgt].
    + destruct (H1 Hle) as [-> _]. intros e' d [Hin|Hin]%elem_of_app; [by eapply Ht|].
      by apply list_elem_of_singleton in Hin as [= -> ->].
    + destruct H2 as [-> _]; [lia|done].
Qed.

Lemma processEvent_hit s e :
  on_course s → listening s → job_id e = j → final e → on_track (processEvent s e).
Proof.
  intros Hc Hl Hj He. unfold listening in Hl. rewrite <- Hj in Hl.
  destruct (processEvent_heard s e p Hl) as (_ & _ & H1 & _ & H3 & _). destruct He as [Hd|Hd].
  - right. split; [by apply processEvent_course; [intros _; left|]|]. right. exists e.
    destruct (H1 Hd) as (_ & -> & _). split; [|done]. apply elem_of_app. right. by apply list_elem_of_singleton.
  - left. by apply H3.
Qed.

Lemma processEvent_fetching s e : fetching s → fetching (processEvent s e).
Proof.
  intros (e' & Hin & Hj). exists e'. split; [|done].
  destruct (aget (job_id e) (listenersByJobId s)) as [q|] eqn:E.
  - destruct (processEvent_heard s e q E) as (_ & _ & H1 & H2 & _).
    destruct (decide (status e = DONE)) as [Hd|Hd]; [|by destruct (H2 Hd) as [_ ->]].
    destruct (H1 Hd) as (_ & -> & _). apply elem_of_app. by left.
  - by destruct (processEvent_unheard s e E) as (_ & -> & _).
Qed.

Lemma processEvent_other s e :
  job_id e ≠ j → listening s → listening (processEvent s e) ∧ (pending s → pending (processEvent s e)).
Proof.
  intros Hj Hl. unfold listening, pending in *. destruct (aget (job_id e) (listenersByJobId s)) as [q|] eqn:E.
  - destruct (processEvent_heard s e q E) as (-> & _ & H1 & H2 & _). split; [|done].
    destruct (decide (status e = DONE)) as [Hd|Hd]; [by destruct (H1 Hd) as (-> & _)|].
    destruct (H2 Hd) as [-> _]. by rewrite aget_adel_ne.
  - destruct (processEvent_unheard s e E) as (-> & _ & _ & H1 & H2). split; [done|]. intros (e' & d & Hin & Hj').
    exists e', d. split; [|done]. destruct (decide (S (retry_count (job_id e) s) ≤ MAX_RETRIES)) as [Hle|Hgt].
    + destruct (H1 Hle) as [-> _]. apply elem_of_app. by left.
    + destruct H2 as [-> _]; [lia|done].
Qed.

Lemma processEvent_track s e :
  (job_id e = j → final e) → on_track s → on_track (processEvent s e).
Proof.
  intros He [Hs|[Hc [[Hl Hp]|Hf]]].
  - left. by apply processEvent_settled.
  - destruct (decide (job_id e = j)) as [Hj|Hj]; [by apply processEvent_hit; auto|].
    destruct (processEvent_other s e Hj Hl) as [? ?]. right. split; [by apply processEvent_course|]. left. auto.
  - right. split; [by apply processEvent_course|]. right. by apply processEvent_fetching.
Qed.

Lemma processEvents_track es s :
  Forall (λ e, job_id e = j → final e) es → on_track s → on_track (processEvents es s).
Proof.
  intros H. revert s. induction H as [|e es He _ IH]; intros s Hs; [done|]. by apply IH, processEvent_track.
Qed.
End track.

(** ** Every input *)

Lemma schedule_poll_fields s :
  let r := schedule_poll s in
  listenersByJobId r = listenersByJobId s ∧ retriesByJobId r = retriesByJobId s ∧
  timers r = timers s ∧ fetches r = fetches s ∧ settled r = settled s.
Proof. unfold schedule_poll. by case_bool_decide. Qed.

Lemma loadEventsFromApi_fields s :
  let r := loadEventsFromApi s in
  listenersByJobId r = listenersByJobId s ∧ retriesByJobId r = retriesByJobId s ∧
  timers r = timers s ∧ fetches r = fetches s ∧ settled r = settled s.
Proof.
  unfold loadEventsFromApi. destruct (schedule_poll_fields s) as (? & ? & ? & ? & ?).
  split_and!; destruct (listenersByJobId s) eqn:E; cbn; congruence.
Qed.

(** Predicates that look at the events and the promises only. *)
Definition local (P : async_state → Prop) : Prop := ∀ s r,
  listenersByJobId r = listenersByJobId s → retriesByJobId r = retriesByJobId s →
  timers r = timers s → fetches r = fetches s → settled r = settled s → P s → P r.

Lemma on_track_local p j : local (on_track p j).
Proof.
  intros s r E1 E2 E3 E4 E5. unfold on_track, is_settled, listening, pending, fetching.
  rewrite E1, E3, E4, E5. intros [H|[[H1 H2 H3] H]]; [by left|]. right. split; [|done].
  split; [by rewrite E3|by rewrite E4|by rewrite E1].
Qed.

Lemma retries_ok_local : local retries_ok.
Proof. intros s r _ E _ _ _ H j. unfold retry_count. rewrite E. apply H. Qed.

(** Inputs other than those of one job's wait: events that are processed, data
    that arrive and new promises. *)
Lemma handle_local (P : async_state → Prop) (good : AsyncEvent → Prop) s x :
  local P → (∀ s e, good e → P s → P (processEvent s e)) →
  match x with
  | Wait _ | Timer _ | Data _ _ => False
  | Reply _ es => Forall good es
  | Ws_message e => good e
  | _ => True
  end → P s → P (handle s x).
Proof.
  intros Hl Hp Hx Hs.
  assert (∀ es s, Forall good es → P s → P (processEvents es s)) as Hes.
  { intros es s' H. revert s'. induction H as [|e es He _ IH]; intros s' Hs'; [done|]. apply IH. by apply Hp. }
  assert (∀ s r n, P s → P (set_polling r n s)) as Hset by (intros s' r n; by apply Hl).
  assert (∀ s a b n, P s → P (set_ws a b n s)) as Hws by (intros s' a b n; by apply Hl).
  assert (∀ s, P s → P (loadEventsFromApi s)) as Hload.
  { intros s'. destruct (loadEventsFromApi_fields s') as (? & ? & ? & ? & ?). by apply Hl. }
  assert (∀ s, P s → P (schedule_poll s)) as Hsched.
  { intros s'. destruct (schedule_poll_fields s') as (? & ? & ? & ? & ?). by apply Hl. }
  destruct x; try done; cbn [handle ws_event].
  - destruct (polls s); [done|]. by apply Hload, Hset.
  - unfold reply. destruct (requests s !! i); [|done]. by apply Hsched, Hes, Hset.
  - destruct (ws_live s); auto.
  - destruct (ws_live s); auto.
  - destruct (ws_timeout s); [|done]. destruct (_ <=? _); [by apply Hws, Hws|by apply Hload, Hws].
  - destruct (ws_live s); [|done]. by apply Hp.
Qed.

Lemma elem_of_delete_or {A} (l : list A) i x y : l !! i = Some y → x ∈ l → x = y ∨ x ∈ delete i l.
Proof.
  intros Hi Hx. rewrite (delete_Permutation l i y Hi) in Hx. by apply elem_of_cons in Hx.
Qed.

(** The inputs that do not concern the wait for [j]: no second wait for the
    same job, and events that end it. *)
Definition calm (j : string) (x : input) : Prop :=
  match x with
  | Wait j' => j' ≠ j
  | Reply _ es => Forall (λ e, job_id e = j → final e) es
  | Ws_message e => job_id e = j → final e
  | _ => True
  end.

Lemma listener_data_retries q e r s : retriesByJobId (listener_data q e r s) = retriesByJobId s.
Proof.
  unfold listener_data. destruct (fetchCachedData r) as [ok v]. cbn.
  by destruct (settle_fields q (if ok then Resolved (ensureIsArray v) else Rejected (ensureIsArray v)) s)
    as (_ & -> & _).
Qed.

Lemma handle_retries s x : retries_ok s → retries_ok (handle s x).
Proof.
  intros Hs. assert (∀ s e, True → retries_ok s → retries_ok (processEvent s e)) as Hp
    by (intros; by apply processEvent_retries).
  destruct x; try (apply (handle_local retries_ok (λ _, True) _ _ retries_ok_local Hp);
    first [done|by apply Forall_true]).
  - done.
  - cbn. unfold timer_fires. destruct (timers s !! i) as [[e d]|]; [|done]. by apply processEvent_retries.
  - cbn. unfold data_arrives. destruct (fetches s !! i) as [[q e]|]; [|done].
    intros j. unfold retry_count. rewrite listener_data_retries. apply Hs.
Qed.

Section waits.
Context (p : nat) (j : string).

Lemma timer_track s i : on_track p j s → on_track p j (timer_fires i s).
Proof.
  intros Hs. unfold timer_fires. destruct (timers s !! i) as [[e d]|] eqn:Hi; [|done].
  set (s' := set_timers (delete i (timers s)) s).
  destruct Hs as [Hs|[Hc Hw]]; [left; by apply processEvent_settled|].
  assert (on_course p j s') as Hc'.
  { destruct Hc as [H1 H2 H3]. split; [|done|done]. intros e' d' Hin. apply H1 with d'.
    by apply (list_elem_of_delete_inv _ i). }
  assert (job_id e = j → final e) as He.
  { apply (oc_timers _ _ _ Hc e d). by eapply list_elem_of_lookup_2. }
  destruct Hw as [[Hl (e' & d' & Hin & Hj')]|Hf].
  - destruct (decide (job_id e = j)) as [Hj|Hj]; [by apply processEvent_hit; auto|].
    apply (processEvent_track p j s' e He). right. split; [done|]. left. split; [done|].
    destruct (elem_of_delete_or _ _ _ _ Hi Hin) as [[= -> ->]|]; [done|]. by exists e', d'.
  - apply (processEvent_track p j s' e He). right. split; [done|]. by right.
Qed.

Lemma data_track s i r : on_track p j s → on_track p j (data_arrives i r s).
Proof.
  intros Hs. unfold data_arrives. destruct (fetches s !! i) as [[q e]|] eqn:Hi; [|done].
  set (s' := set_fetches (delete i (fetches s)) s). unfold listener_data.
  destruct (fetchCachedData r) as [ok v].
  set (o := if ok then Resolved (ensureIsArray v) else Rejected (ensureIsArray v)).
  destruct (settle_fields q o s') as (E1 & E2 & E3 & E4 & E5).
  destruct Hs as [Hs|[[H1 H2 H3] Hw]]; [left; by apply E5|].
  destruct (decide (job_id e = j)) as [Hj|Hj].
  - left. assert (q = p) as -> by (apply (H2 q e); [by eapply list_elem_of_lookup_2|done]).
    apply settle_settled.
  - right. split.
    + split; unfold removeListener; cbn; rewrite ?E1, ?E3, ?E4; cbn; [done|..].
      * intros q' e' Hin. apply H2. by apply (list_elem_of_delete_inv _ i).
      * intros q'. rewrite aget_adel_ne by done. apply H3.
    + unfold listening, pending, fetching, removeListener. cbn. rewrite E1, E3, E4. cbn.
      rewrite aget_adel_ne by done. destruct Hw as [Hw|(e' & Hin & Hj')]; [by left|right].
      exists e'. split; [|done]. destruct (elem_of_delete_or _ _ _ _ Hi Hin) as [[= -> ->]|]; done.
Qed.

Lemma handle_track s x : calm j x → on_track p j s → on_track p j (handle s x).
Proof.
  intros Hx Hs.
  assert (∀ s e, (job_id e = j → final e) → on_track p j s → on_track p j (processEvent s e)) as Hp
    by (intros; by apply processEvent_track).
  destruct x; try by apply (handle_local (on_track p j) _ _ _ (on_track_local p j) Hp).
  - destruct Hs as [Hs|[[H1 H2 H3] Hw]]; [by left|]. right. split.
    + split; [done|done|]. intros q. cbn. rewrite aget_oset_ne by done. apply H3.
    + destruct Hw as [[Hl Hpd]|Hf]; [left|by right]. split; [|done]. unfold listening. cbn.
      by rewrite aget_oset_ne.
  - by apply timer_track.
  - by apply data_track.
Qed.
End waits.

(** ** Before the event arrives *)

(** The input delivers an event of the job: in the reply to a request that is
    under way, or over the live socket. *)
Definition delivers (j : string) (s : async_state) (x : input) : Prop :=
  match x with
  | Reply i es => is_Some (requests s !! i) ∧ Exists (λ e, job_id e = j) es
  | Ws_message e => ws_live s = true ∧ job_id e = j
  | _ => False
  end.

Section alert.
Context (p : nat) (j : string).

(** The promise listens and nothing under way gets in its way, or its wait is
    over or about to be. *)
Definition ready (s : async_state) : Prop := on_course p j s ∧ listening p j s.

Definition alert (s : async_state) : Prop := on_track p j s ∨ ready s.

Lemma alert_local : local alert.
Proof.
  intros s r E1 E2 E3 E4 E5 [H|[[H1 H2 H3] H]]; [left; by apply (on_track_local p j s)|right].
  unfold ready, listening. rewrite E1. split; [|done]. split; [by rewrite E3|by rewrite E4|by rewrite E1].
Qed.

Lemma ready_event s e :
  (job_id e = j → final e) → ready s →
  (job_id e = j → on_track p j (processEvent s e)) ∧ (job_id e ≠ j → ready (processEvent s e)).
Proof.
  intros He [Hc Hl]. split; intros Hj.
  - by apply processEvent_hit; auto.
  - split; [by apply processEvent_course|]. by apply (processEvent_other p j s e Hj Hl).
Qed.

Lemma alert_event s e : (job_id e = j → final e) → alert s → alert (processEvent s e).
Proof.
  intros He [Hs|Hs]; [left; by apply processEvent_track|]. destruct (ready_event s e He Hs) as [H1 H2].
  destruct (decide (job_id e = j)) as [Hj|Hj]; [left|right]; auto.
Qed.

Lemma alert_events es s :
  Forall (λ e, job_id e = j → final e) es → alert s →
  alert (processEvents es s) ∧ (Exists (λ e, job_id e = j) es → on_track p j (processEvents es s)).
Proof.
  intros H. revert s. induction H as [|e es He Hes IH]; intros s Hs; [split; [done|]; intros Hx; inversion Hx|].
  destruct (IH (processEvent s e)) as [H1 H2]; [by apply alert_event|]. split; [done|].
  intros [Hj|Hx]%Exists_cons; [|by apply H2].
  apply (processEvents_track p j es (processEvent s e)); [done|].
  destruct Hs as [Hs|Hs]; [by apply processEvent_track|]. by apply (ready_event s e He Hs).
Qed.

Lemma alert_timer s i : alert s → alert (timer_fires i s).
Proof.
  intros [Hs|[[H1 H2 H3] Hl]]; [left; by apply timer_track|]. unfold timer_fires.
  destruct (timers s !! i) as [[e d]|] eqn:Hi; [|by right].
  apply alert_event; [apply (H1 e d); by eapply list_elem_of_lookup_2|]. right. split; [|done].
  split; [|done|done]. intros e' d' Hin. apply H1 with d'. by apply (list_elem_of_delete_inv _ i).
Qed.

Lemma alert_data s i r : alert s → alert (data_arrives i r s).
Proof.
  intros [Hs|[Hc Hl]]; [left; by apply data_track|]. destruct (fetches s !! i) as [[q e]|] eqn:Hi;
    [|unfold data_arrives; rewrite Hi; right; by split].
  destruct (decide (job_id e = j)) as [Hj|Hj].
  - left. apply data_track. right. split; [done|]. right. exists e. split; [|done].
    assert (q = p) as <- by (apply (oc_fetches _ _ _ Hc q e); [by eapply list_elem_of_lookup_2|done]).
    by eapply list_elem_of_lookup_2.
  - right. destruct Hc as [H1 H2 H3]. unfold data_arrives. rewrite Hi. unfold listener_data.
    destruct (fetchCachedData r) as [ok v]. set (o := if ok then _ else _).
    destruct (settle_fields q o (set_fetches (delete i (fetches s)) s)) as (E1 & _ & E3 & E4 & _).
    unfold ready, listening, removeListener. cbn. rewrite E1. cbn. rewrite aget_adel_ne by done.
    split; [|done]. split; cbn; rewrite ?E1, ?E3, ?E4; cbn; [done|..].
    + intros q' e' Hin. apply H2. by apply (list_elem_of_delete_inv _ i).
    + intros q'. rewrite aget_adel_ne by done. apply H3.
Qed.

Lemma alert_handle s x : calm j x → alert s → alert (handle s x).
Proof.
  intros Hx Hs. destruct x; try by apply (handle_local alert _ _ _ alert_local alert_event).
  - destruct Hs as [Hs|[[H1 H2 H3] Hl]]; [left; by apply (handle_track p j s (Wait jobId))|right].
    unfold ready, listening. cbn. rewrite aget_oset_ne by done. split; [|done].
    split; [done|done|]. intros q. cbn. rewrite aget_oset_ne by done. apply H3.
  - by apply alert_timer.
  - by apply alert_data.
Qed.

Lemma alert_delivers s x : calm j x → alert s → delivers j s x → on_track p j (handle s x).
Proof.
  intros Hx Hs Hd. destruct x; try done; cbn [handle ws_event].
  - destruct Hd as [Hi He]. unfold reply. destruct (requests s !! i); [|by destruct Hi].
    set (s' := processEvents _ _).
    assert (on_track p j s') as Ht by (apply alert_events; [done| |done]; by apply (alert_local s)).
    destruct (schedule_poll_fields s') as (? & ? & ? & ? & ?). by apply (on_track_local p j s').
  - destruct Hd as [-> Hj]. apply (alert_events [asyncEvent]); [by constructor|done|by constructor].
Qed.

Lemma alert_run s xs : Forall (calm j) xs → alert s → alert (foldl handle s xs).
Proof. intros H. revert s. induction H as [|x xs Hx _ IH]; intros s Hs; [done|]. cbn. by apply IH, alert_handle. Qed.

Lemma track_run s xs : Forall (calm j) xs → on_track p j s → on_track p j (foldl handle s xs).
Proof. intros H. revert s. induction H as [|x xs Hx _ IH]; intros s Hs; [done|]. cbn. by apply IH, handle_track. Qed.
End alert.

(** ** What is under way comes to an end *)

(** A step that needs no new input from the user or from the server's events:
    a timeout, or the answer to a request for cached data. *)
Inductive internal (s r : async_state) : Prop :=
| internal_timer i : i < length (timers s) → r = timer_fires i s → internal s r
| internal_data i resp : i < length (fetches s) → r = data_arrives i resp s → internal s r.

(** How much can happen: every timer may fire again until its retries are used
    up, and may start a request. *)
Definition measure (js : list string) (s : async_state) : nat :=
  8 * length (timers s) + length (fetches s) +
  sum_list_with (λ j, MAX_RETRIES - retry_count j s) js.

Lemma sum_list_other (f g : string → nat) x js :
  x ∉ js → (∀ y, y ≠ x → f y = g y) → sum_list_with f js = sum_list_with g js.
Proof.
  intros Hx Hfg. induction js as [|y js IH]; [done|]. cbn. apply not_elem_of_cons in Hx as [Hy Hx].
  rewrite (Hfg y), IH by auto. done.
Qed.

Lemma sum_list_one (f g : string → nat) x js :
  NoDup js → x ∈ js → (∀ y, y ≠ x → f y = g y) →
  sum_list_with f js + g x = sum_list_with g js + f x.
Proof.
  intros Hn Hx Hfg. induction Hn as [|y js Hy Hn IH]; [by apply elem_of_nil in Hx|]. cbn.
  destruct (decide (x = y)) as [->|Hxy].
  - rewrite (sum_list_other f g y js) by done. lia.
  - apply elem_of_cons in Hx as [->|Hx]; [done|]. rewrite (Hfg y) by done. specialize (IH Hx). lia.
Qed.

Definition timer_jobs (s : async_state) : list string := job_id ∘ fst <$> timers s.

Lemma processEvent_measure js s e :
  NoDup js → job_id e ∈ js → retries_ok s →
  measure js (processEvent s e) < measure js s + 8 ∧
  timer_jobs (processEvent s e) ⊆ job_id e :: timer_jobs s.
Proof.
  intros Hn Hin Hr. unfold measure. pose proof (Hr (job_id e)) as Hre.
  set (f := λ j, MAX_RETRIES - retry_count j (processEvent s e)).
  set (g := λ j, MAX_RETRIES - retry_count j s).
  destruct (aget (job_id e) (listenersByJobId s)) as [p|] eqn:E.
  - destruct (processEvent_heard s e p E) as (Et & Er & H1 & H2 & _).
    assert (length (fetches (processEvent s e)) ≤ S (length (fetches s))) as Hf.
    { destruct (decide (status e = DONE)) as [Hd|Hd]; [|destruct (H2 Hd) as [_ ->]; lia].
      destruct (H1 Hd) as (_ & -> & _). rewrite length_app. cbn. lia. }
    assert (sum_list_with f js + g (job_id e) = sum_list_with g js + f (job_id e)) as Hs.
    { apply sum_list_one; [done..|]. intros y Hy. unfold f, g, retry_count.
      rewrite Er, aget_adel_ne by done. done. }
    assert (f (job_id e) ≤ 6) by (unfold f, MAX_RETRIES; lia).
    split; [|unfold timer_jobs; rewrite Et; set_solver]. rewrite Et. lia.
  - destruct (processEvent_unheard s e E) as (_ & Ef & _ & H1 & H2). rewrite Ef.
    assert (∀ m, (∀ y, y ≠ job_id e → retry_count y (processEvent s e) = retry_count y s) →
      retry_count (job_id e) (processEvent s e) = m → m ≤ 6 →
      sum_list_with f js + (6 - retry_count (job_id e) s) = sum_list_with g js + (6 - m)) as Hs.
    { intros m Hy Hm Hm6. assert (f (job_id e) = 6 - m) as <- by (unfold f; by rewrite Hm).
      apply (sum_list_one f g); [done..|]. intros y Hne. unfold f, g. by rewrite Hy. }
    unfold MAX_RETRIES in *. destruct (decide (S (retry_count (job_id e) s) ≤ 6)) as [Hle|Hgt].
    + destruct (H1 Hle) as [Et Er]. unfold timer_jobs. rewrite Et, length_app, fmap_app.
      cbn [length fmap list_fmap]. split; [|set_solver].
      enough (sum_list_with f js + (6 - retry_count (job_id e) s) =
              sum_list_with g js + (6 - S (retry_count (job_id e) s))) by lia.
      apply Hs; [|unfold retry_count at 1; by rewrite Er, aget_oset_eq|done].
      intros y Hy. unfold retry_count at 1. by rewrite Er, aget_oset_ne.
    + destruct H2 as [Et Er]; [lia|]. unfold timer_jobs. rewrite Et. split; [|set_solver].
      enough (sum_list_with f js + (6 - retry_count (job_id e) s) = sum_list_with g js + (6 - 0)) by lia.
      apply Hs; [|unfold retry_count at 1; by rewrite Er, aget_adel_eq|lia].
      intros y Hy. unfold retry_count at 1. by rewrite Er, aget_adel_ne.
Qed.

Lemma internal_measure js s r :
  NoDup js → timer_jobs s ⊆ js → retries_ok s → internal s r →
  measure js r < measure js s ∧ timer_jobs r ⊆ js ∧ retries_ok r.
Proof.
  intros Hn Hj Hr [i Hi ->|i resp Hi ->].
  - apply lookup_lt_is_Some in Hi as [[e d] Hi]. split_and!; [| |apply (handle_retries s (Timer i) Hr)];
      unfold timer_fires; rewrite Hi; cbn [processEvents foldl];
      set (s' := set_timers (delete i (timers s)) s);
      (assert (job_id e ∈ js) as He by
        (apply Hj, list_elem_of_fmap; exists (e, d); split; [done|by eapply list_elem_of_lookup_2]));
      destruct (processEvent_measure js s' e Hn He Hr) as [Hm Hs].
    + assert (measure js s' + 8 = measure js s); [|lia]. unfold measure.
      change (sum_list_with (λ j, MAX_RETRIES - retry_count j s') js)
        with (sum_list_with (λ j, MAX_RETRIES - retry_count j s) js).
      cbn [timers fetches set_timers s'].
      apply lookup_lt_Some in Hi as Hl. rewrite length_delete by by eexists. lia.
    + intros x [->|Hx]%Hs%elem_of_cons; [done|]. apply Hj.
      apply list_elem_of_fmap in Hx as ([e' d'] & -> & Hx). apply list_elem_of_fmap. exists (e', d').
      split; [done|]. by apply (list_elem_of_delete_inv _ i).
  - apply lookup_lt_is_Some in Hi as [[q e] Hi]. split_and!; [| |apply (handle_retries s (Data i resp) Hr)];
      unfold data_arrives; rewrite Hi; unfold listener_data; destruct (fetchCachedData resp) as [ok v];
      set (o := if ok then _ else _); set (s' := set_fetches (delete i (fetches s)) s);
      destruct (settle_fields q o s') as (_ & E2 & E3 & E4 & _).
    + unfold measure, retry_count, removeListener. cbn. rewrite E2, E3, E4. cbn.
      apply lookup_lt_Some in Hi as Hl. rewrite length_delete by by eexists. lia.
    + unfold timer_jobs, removeListener. cbn. rewrite E3. exact Hj.
Qed.

Lemma internal_sn s : retries_ok s → sn internal s.
Proof.
  intros Hr. set (js := remove_dups (timer_jobs s)).
  assert (timer_jobs s ⊆ js) as Hj by (intros x; unfold js; by rewrite elem_of_remove_dups).
  assert (NoDup js) as Hn by apply NoDup_remove_dups. clearbody js.
  remember (measure js s) as m eqn:Hm. revert s Hr Hj Hm.
  induction (lt_wf m) as [m _ IH]. intros s Hr Hj ->. constructor. intros r Hs.
  destruct (internal_measure js s r Hn Hj Hr Hs) as (Hlt & Hj' & Hr'). by eapply IH.
Qed.

Lemma internal_nf s : nf internal s → timers s = [] ∧ fetches s = [].
Proof.
  intros H. split.
  - destruct (timers s) as [|x l] eqn:E; [done|]. destruct H. eexists. apply (internal_timer s _ 0); [|done].
    rewrite E. cbn. lia.
  - destruct (fetches s) as [|x l] eqn:E; [done|]. destruct H. eexists.
    apply (internal_data s _ 0 (Json_array [])); [|done]. rewrite E. cbn. lia.
Qed.

Lemma internal_track p j s r : internal s r → on_track p j s → on_track p j r.
Proof. intros [i _ ->|i resp _ ->]; [apply timer_track|apply data_track]. Qed.

Lemma internals_track p j s r : rtc internal s r → on_track p j s → on_track p j r.
Proof. induction 1 as [|s m r Hs _ IH]; [done|]. intros H. apply IH. by apply (internal_track p j s). Qed.

(** ** The theorems *)

(** The states that a session of the module reaches. *)
Lemma reachable_retries tr stored_id xs : retries_ok (foldl handle (init tr stored_id) xs).
Proof.
  assert (∀ s, retries_ok s → retries_ok (foldl handle s xs)) as Hrun.
  { induction xs as [|x xs IH]; intros s Hs; [done|]. cbn. by apply IH, handle_retries. }
  apply Hrun. unfold init. set (s0 := Build_async_state _ _ _ _ _ _ _ _ _ _ _ _ _).
  assert (retries_ok s0) as H0 by (intros j; cbn; unfold MAX_RETRIES; lia).
  assert (∀ s, retries_ok s → retries_ok (if bool_decide (transport s = TRANSPORT_WS) then wsConnect s else s)) as Hws.
  { intros s Hs. by case_bool_decide. }
  apply Hws. case_bool_decide; [|done].
  apply (retries_ok_local s0); try done; by destruct (loadEventsFromApi_fields s0) as (? & ? & ? & ? & ?).
Qed.

(** C16. Every chart that waits gets its answer.  In any session, let somebody
    begin to wait for a job, while no request for the data of the same job is under
    way for an earlier wait, and events of the job that are tried again end it.
    Let anything happen afterwards but another wait for the same job or an event
    that reports it as unfinished.  If an event of the job is delivered at any time
    during this, or was already there and still to be tried again when the wait
    began, then the promise is settled in the end: the timeouts and requests that
    are then under way come to an end, however they are ordered and answered,
    and when none is left the promise is settled. *)
Theorem waitForAsyncData_settles j tr stored_id ys xs :
  let s := foldl handle (init tr stored_id) ys in
  let w := waitForAsyncData j s in
  (∀ q e, (q, e) ∈ fetches s → job_id e ≠ j) →
  (∀ e d, (e, d) ∈ timers s → job_id e = j → final e) →
  Forall (calm j) xs →
  (∃ e d, (e, d) ∈ timers s ∧ job_id e = j) ∨
  (∃ xs1 x xs2, xs = xs1 ++ x :: xs2 ∧ delivers j (foldl handle w xs1) x) →
  let r := foldl handle w xs in
  sn internal r ∧ ∀ q, rtc internal r q → nf internal q → is_settled (promises s) q.
Proof.
  intros s w Hf Ht Hxs Hend r.
  assert (ready (promises s) j w) as Hready.
  { split; [|apply aget_oset_eq]. split; cbn; [done|intros q e Hin Hj; by destruct (Hf q e)|].
    intros q. rewrite aget_oset_eq. congruence. }
  assert (on_track (promises s) j r) as Htr.
  { destruct Hend as [Hp|(xs1 & x & xs2 & -> & Hd)].
    - apply track_run; [done|]. right. destruct Hready as [Hc Hl]. split; [done|]. by left.
    - apply Forall_app in Hxs as [H1 [Hx H2]%Forall_cons]. unfold r. rewrite foldl_app. cbn [foldl].
      apply track_run; [done|]. apply alert_delivers; [done| |done]. apply alert_run; [done|by right]. }
  split.
  - apply internal_sn. assert (r = foldl handle (init tr stored_id) (ys ++ Wait j :: xs)) as ->;
      [unfold r, w, s; by rewrite foldl_app|apply reachable_retries].
  - intros q Hq Hn. apply (internals_track (promises s) j) in Hq as Hqt; [|done].
    destruct (internal_nf q Hn) as [E1 E2]. destruct Hqt as [?|[_ [[_ (e' & d & Hin & _)]|(e' & Hin & _)]]]; [done|..].
    + rewrite E1 in Hin. by apply elem_of_nil in Hin.
    + rewrite E2 in Hin. by apply elem_of_nil in Hin.
Qed.

(** An event that nobody waits for is tried six more times, at growing
    intervals, and then dropped with its count. *)
Theorem unheard_event_dropped s e k :
  timers s = [] → aget (job_id e) (listenersByJobId s) = None → retry_count (job_id e) s = 0 →
  let r := Nat.iter k (timer_fires 0) (processEvents [e] s) in
  timers r = (if k <? MAX_RETRIES then [(e, RETRY_DELAY * S k)] else []) ∧
  retry_count (job_id e) r = (if k <? MAX_RETRIES then S k else 0) ∧
  settled r = settled s.
Proof.
  intros Ht Hl Hc r.
  enough (listenersByJobId r = listenersByJobId s ∧
    timers r = (if k <? MAX_RETRIES then [(e, RETRY_DELAY * S k)] else []) ∧
    retry_count (job_id e) r = (if k <? MAX_RETRIES then S k else 0) ∧ settled r = settled s) by tauto.
  unfold r. clear r. induction k as [|k IH].
  - destruct (processEvent_unheard s e Hl) as (E1 & _ & E3 & H & _). rewrite Hc, Ht in H.
    destruct H as [E4 E5]; [unfold MAX_RETRIES; lia|]. cbn [Nat.iter nat_rect processEvents foldl]. split_and!; [done..| |done].
    unfold retry_count. by rewrite E5, aget_oset_eq.
  - cbn [Nat.iter nat_rect]. fold (Nat.iter k (timer_fires 0) (processEvents [e] s)).
    set (m := Nat.iter k (timer_fires 0) (processEvents [e] s)) in *. clearbody m.
    destruct IH as (E1 & E2 & E3 & E4). unfold timer_fires. rewrite E2.
    destruct (k <? MAX_RETRIES) eqn:Hk; [apply Nat.ltb_lt in Hk|apply Nat.ltb_ge in Hk; cbn [lookup list_lookup];
      rewrite (proj2 (Nat.ltb_ge (S k) MAX_RETRIES)) by lia; rewrite E2; done].
    cbn [lookup list_lookup delete list_delete processEvents foldl]. set (m' := set_timers [] m).
    destruct (processEvent_unheard m' e) as (F1 & _ & F3 & H1 & H2); [cbn; by rewrite E1|].
    change (retry_count (job_id e) m') with (retry_count (job_id e) m) in H1, H2. rewrite E3 in H1, H2.
    destruct (S k <? MAX_RETRIES) eqn:Hk2; [apply Nat.ltb_lt in Hk2|apply Nat.ltb_ge in Hk2].
    + destruct H1 as [F4 F5]; [lia|]. split_and!; [by rewrite F1|done| |by rewrite F3].
      unfold retry_count. by rewrite F5, aget_oset_eq.
    + destruct H2 as [F4 F5]; [lia|]. split_and!; [by rewrite F1|done| |by rewrite F3].
      unfold retry_count. by rewrite F5, aget_adel_eq.
Qed.

(** The socket was given up and no poll is scheduled. *)
Record given_up (s : async_state) : Prop := {
  gu_transport : transport s = TRANSPORT_WS;
  gu_polls : polls s = 0;
  gu_live : ws_live s = false;
  gu_timeout : ws_timeout s = false;
}.

Definition connection (s : async_state) :=
  (transport s, requests s, polls s, ws_live s, ws_timeout s, wsConnectRetries s).

Lemma listener_data_connection q e r s : connection (listener_data q e r s) = connection s.
Proof.
  unfold listener_data, settle. destruct (fetchCachedData r) as [ok v]. by destruct (existsb _ _).
Qed.

Lemma processEvents_connection es s : connection (processEvents es s) = connection s.
Proof.
  revert s. induction es as [|e es IH]; intros s; [done|]. cbn. fold (processEvents es (processEvent s e)).
  rewrite IH. unfold processEvent, listener, retry_event, settle.
  by repeat (case_match || case_bool_decide).
Qed.

Lemma connection_given_up s r : connection r = connection s → given_up s → given_up r ∧ requests r = requests s.
Proof. intros [= E1 E2 E3 E4 E5 _] [? ? ? ?]. split; [split; congruence|done]. Qed.

Lemma handle_given_up s x :
  given_up s → given_up (handle s x) ∧ requests (handle s x) ⊆ requests s.
Proof.
  intros Hs. destruct Hs as [Ht Hp Hl Ho] eqn:EH; clear EH. assert (given_up s) as Hs' by by split.
  destruct x; cbn [handle ws_event]; rewrite ?Hp, ?Hl, ?Ho; try done.
  - unfold timer_fires. destruct (timers s !! i) as [[e d]|]; [|done].
    destruct (connection_given_up s (processEvents [e] (set_timers (delete i (timers s)) s))) as [? ->];
      [by rewrite processEvents_connection|done..].
  - unfold data_arrives. destruct (fetches s !! i) as [[q e]|]; [|done].
    destruct (connection_given_up s (listener_data q e r (set_fetches (delete i (fetches s)) s))) as [? ->];
      [by rewrite listener_data_connection|done..].
  - unfold reply. destruct (requests s !! i); [|done].
    pose proof (processEvents_connection events (set_polling (delete i (requests s)) (polls s) s)) as E.
    set (s' := processEvents _ _) in *. injection E as E1 E2 E3 E4 E5 _. cbn in E1, E2, E3, E4, E5.
    unfold schedule_poll. rewrite E1, Ht, bool_decide_eq_false_2 by done.
    split; [split; congruence|]. rewrite E2. apply list_subseteq_delete.
Qed.

Lemma handle_deaf s x :
  given_up s → requests s = [] → timers s = [] → fetches s = [] →
  settled (handle s x) = settled s ∧ timers (handle s x) = [] ∧ fetches (handle s x) = [].
Proof.
  intros [Ht Hp Hl Ho] Hr Hti Hf. destruct x; cbn [handle ws_event];
    unfold timer_fires, data_arrives, reply; rewrite ?Hp, ?Hl, ?Ho, ?Hr, ?Hti, ?Hf; done.
Qed.

(** A socket that cannot be opened leaves the module deaf: after the seventh
    failed attempt the module says that it falls back to polling, but it asks
    the server at most once more.  From then on it is not connected and sends no
    request, whatever happens, and when nothing is under way any more, no
    promise is ever settled. *)
Theorem ws_fallback_polls_once s xs :
  transport s = TRANSPORT_WS → polls s = 0 → ws_live s = false → ws_timeout s = true →
  wsConnectMaxRetries ≤ wsConnectRetries s →
  let lost := handle s Ws_timeout in
  let r := foldl handle lost xs in
  length (requests lost) ≤ S (length (requests s)) ∧ requests r ⊆ requests lost ∧
  polls r = 0 ∧ ws_live r = false ∧ ws_timeout r = false ∧
  (requests r = [] → timers r = [] → fetches r = [] →
   ∀ ys, settled (foldl handle r ys) = settled r).
Proof.
  intros Ht Hp Hl Ho Hn lost r.
  assert (given_up lost ∧ length (requests lost) ≤ S (length (requests s))) as [Hlost Hlen].
  { unfold lost. cbn [handle ws_event]. rewrite Ho. rewrite (proj2 (Nat.leb_gt (S (wsConnectRetries s)) wsConnectMaxRetries)) by lia.
    unfold loadEventsFromApi. cbn [set_ws listenersByJobId].
    destruct (listenersByJobId s).
    - unfold schedule_poll. cbn [set_ws transport]. rewrite Ht, bool_decide_eq_false_2 by done. cbn. split; [by split|lia].
    - cbn. split; [by split|]. rewrite length_app. cbn. lia. }
  assert (∀ xs s, given_up s → given_up (foldl handle s xs) ∧ requests (foldl handle s xs) ⊆ requests s) as Hrun.
  { clear. intros xs. induction xs as [|x xs IH]; intros s Hs; [done|]. cbn.
    destruct (handle_given_up s x Hs) as [Hs1 Hr1]. destruct (IH _ Hs1) as [? ?]. split; [done|by etrans]. }
  destruct (Hrun xs lost Hlost) as [Hr Hsub]. fold r in Hr, Hsub. destruct Hr as [Ht' Hp' Hl' Ho'] eqn:E.
  split_and!; [done..|]. intros Hreq Hti Hf ys. clear E. assert (given_up r) as Hr' by by split.
  clearbody r. clear Hr Ht' Hp' Hl' Ho' Hsub. revert r Hr' Hreq Hti Hf.
  induction ys as [|y ys IH]; intros r Hr Hreq Hti Hf; [done|]. cbn.
  destruct (handle_deaf r y Hr Hreq Hti Hf) as (Es & Et & Ef). destruct (handle_given_up r y Hr) as [Hr' Hs].
  rewrite IH, Es; [done|done| |done|done]. rewrite Hreq in Hs. by apply list_nil_subseteq in Hs.
Qed.

(** ** Examples *)

Definition sample_event (job st : string) : AsyncEvent :=
  {| event_id := JStr "1-0"; job_id := job; status := st; result_url := JStr "/data"; errors := JUndef |}.

(** The event of the first job arrives in the second reply, between them another
    chart waits for another job. *)
Lemma waitForAsyncData_settles_witness :
  let s := foldl handle (init TRANSPORT_POLLING JNull) [] in
  let w := waitForAsyncData "job" s in
  let xs := [Poll; Reply 0 [sample_event "old" DONE]; Wait "other"; Timer 0; Poll;
             Reply 0 [sample_event "job" DONE]; Poll] in
  promises s = 0 ∧
  let r := foldl handle w xs in
  sn internal r ∧ ∀ q, rtc internal r q → nf internal q → is_settled (promises s) q.
Proof.
  intros s w xs. split; [reflexivity|].
  apply (waitForAsyncData_settles "job" TRANSPORT_POLLING JNull [] xs).
  - intros q e H. by apply elem_of_nil in H.
  - intros e d H. by apply elem_of_nil in H.
  - apply Forall_cons. split; [exact I|]. apply Forall_cons. split; [apply Forall_singleton; discriminate|].
    apply Forall_cons. split; [discriminate|]. apply Forall_cons. split; [exact I|].
    apply Forall_cons. split; [exact I|]. apply Forall_cons. split; [apply Forall_singleton; intros _; left; reflexivity|].
    apply Forall_singleton. exact I.
  - right. exists (take 5 xs), (Reply 0 [sample_event "job" DONE]), [Poll]. split; [reflexivity|].
    split; [apply (bool_decide_unpack _); vm_compute; exact I|]. apply Exists_cons. left. reflexivity.
Defined.

(** A wait that begins while the data for an earlier wait of the same job are under
    way may be forgotten: their arrival removes the new listener, so that the event
    delivered afterwards finds nobody. *)
Example earlier_wait_takes_listener :
  let s := foldl handle (init TRANSPORT_WS JNull)
             [Wait "job"; Ws_message (sample_event "job" DONE); Wait "job"; Data 0 (Json_array []);
              Ws_message (sample_event "job" DONE)] in
  settled s = [(0, Resolved [])] ∧ listenersByJobId s = [] ∧ fetches s = [].
Proof. vm_compute. split_and!; reflexivity. Qed.

(** Seven attempts fail while a chart waits. *)
Lemma ws_fallback_polls_once_witness :
  let attempt s := handle (handle s Ws_close) Ws_timeout in
  let s := handle (Nat.iter 6 attempt (handle (init TRANSPORT_WS JNull) (Wait "job"))) Ws_close in
  let lost := handle s Ws_timeout in
  let r := foldl handle lost [Reply 0 []; Ws_open; Wait "later"] in
  length (requests lost) ≤ 1 ∧ requests r ⊆ requests lost ∧
  polls r = 0 ∧ ws_live r = false ∧ ws_timeout r = false ∧
  (requests r = [] → timers r = [] → fetches r = [] →
   ∀ ys, settled (foldl handle r ys) = settled r).
Proof.
  intros attempt s. apply (ws_fallback_polls_once s [Reply 0 []; Ws_open; Wait "later"]);
    [reflexivity|reflexivity|reflexivity|reflexivity|].
  vm_compute. lia.
Defined.
