(* ===== verification/Connection.v ===== *)
(** * The connection to the server

    [SupersetClientClass] sends the requests of the application.  Every request
    waits for a token first: [getCSRFToken] asks the server for one, and its
    promise is what the requests wait for.  A [World] is a client with what is
    under way: the promises, the tasks that wait for one, the calls the server
    has not answered, and what happened so far.  An [event] is a call of a method
    by the application, the continuation of a task whose promise is settled, or
    the answer to a call; they may come in any order.

    The address of the page, [URL], the cache of the browser being there and the
    parser for big numbers are parameters.  [fetch] with its retries is what
    happens between a call and its answer. *)

From Stdlib Require Import Ascii String.
From stdpp Require Import base strings option numbers list.
From S2P Require Import Prelude JsObject JsNumber JsValue JsJson Query.

(** ** Requests *)

(** @source core/connection/types.ts 21-21 Body *)
Inductive Body :=
| GivenBody (v : jsval)
| FormBody (fields : list (string * string))
| TextBody (s : string).

(** What is passed to [fetch].

    @source core/connection/callApi/callApi.ts 80-89 request *)
Record ApiRequest := {
  req_url : string;
  req_method : string;
  req_headers : jsobj;
  req_body : Body;
  req_credentials : jsval;
  req_mode : jsval;
  req_cache : jsval;
  req_redirect : jsval;
  req_signal : jsval;
}.

(** The options of a request by their names, with a [FormData] that was given as
    the post payload apart. *)
Record RequestConfig := {
  options : jsobj;
  form : option (list (string * string));
}.

(** [Object.entries(v)] *)
Definition entries (v : jsval) : jsobj :=
  match v with
  | JObj o => o
  | JArr xs => imap (λ i x, (string_of_N (N.of_nat i), x)) xs
  | _ => []
  end.

(** @source core/connection/callApi/callApi.ts 29-37 tryParsePayload *)
Definition tryParsePayload (payload : jsval) : result jsval :=
  match payload with
  | JStr s =>
      match JSON_parse s with
      | Ok v => Ok v
      | Throw _ => Throw (GenericError ("Invalid payload:" +:+ String "010" (String "010" s)))
      end
  | _ => Ok payload
  end.

(** The fields of a form: undefined values are left out.

    @source core/connection/callApi/callApi.ts 141-168 callApi (form) *)
Definition form_fields (stringify : bool) (payload : jsval) : list (string * string) :=
  omap (λ kv : string * jsval,
    if is_undefined kv.2 then None
    else
      (λ s, (kv.1, s)) <$> (if stringify then JSON_stringify kv.2 else Some (to_string kv.2)))
    (entries payload).

Section requests.
(** [url] with the search parameters, as [URL] writes it *)
Variable with_search : string → jsval → string.

(** @source core/connection/callApi/callApi.ts 42-52 getFullUrl *)
Definition getFullUrl (partialUrl : string) (params : jsval) : string :=
  if truthy params then with_search partialUrl params else partialUrl.

(** The body of a request that has one, and its headers.

    @source core/connection/callApi/callApi.ts 133-177 callApi (payload) *)
Definition payload_body (config : RequestConfig) (body : Body) (headers : jsobj) : result (Body * jsobj) :=
  let post := ofield "postPayload" (options config) in
  let json := ofield "jsonPayload" (options config) in
  let stringify := truthy (with_default (ofield "stringify" (options config)) (JBool true)) in
  if (bool_decide (is_Some (form config)) || truthy post) && truthy json then
    Throw (GenericError "Please provide only one of jsonPayload or postPayload")
  else
    body ← match form config with
           | Some fields => Ok (FormBody fields)
           | None =>
               if truthy post then
                 payload ← tryParsePayload post;
                 Ok (if truthy payload && typeof_object payload
                     then FormBody (form_fields stringify payload) else body)
               else Ok body
           end;
    Ok (if is_undefined json then (body, headers)
        else (match JSON_stringify json with Some s => TextBody s | None => GivenBody JUndef end,
              oset "Content-Type" (JStr "application/json") headers)).

Definition is_get (r : ApiRequest) : bool := bool_decide (req_method r = "GET").

(** The answer may come from the cache of the browser.

    @source core/connection/callApi/callApi.ts 91-97 callApi (cacheable) *)
Definition cacheable (r : ApiRequest) : bool :=
  is_get r && negb (is_str (req_cache r) "no-store") && negb (is_str (req_cache r) "reload").

Definition has_payload (method : string) : bool := bool_decide (method ∈ ["POST"; "PATCH"; "PUT"]).

(** @source core/connection/callApi/callApi.ts 61-180 callApi *)
Definition callApi (config : RequestConfig) : result ApiRequest :=
  let opt k d := with_default (ofield k (options config)) d in
  let method := to_string (opt "method" (JStr "GET")) in
  let given := GivenBody (ofield "body" (options config)) in
  let headers := object_entries (ofield "headers" (options config)) in
  sent ← (if has_payload method then payload_body config given headers else Ok (given, headers));
  Ok {| req_url := getFullUrl (to_string (ofield "url" (options config))) (ofield "searchParams" (options config));
        req_method := method;
        req_headers := (sent : Body * jsobj).2;
        req_body := (sent : Body * jsobj).1;
        req_credentials := opt "credentials" (JStr "same-origin");
        req_mode := opt "mode" (JStr "same-origin");
        req_cache := opt "cache" (JStr "default");
        req_redirect := opt "redirect" (JStr "follow");
        req_signal := ofield "signal" (options config) |}.
End requests.

(** ** Responses *)

Record Response := {
  status : Z;
  etag : option string;
  text : string;
}.

Definition response_ok (r : Response) : bool := ((200 <=? status r) && (status r <=? 299))%Z.

Definition response_value (r : Response) : jsval :=
  JObj [("status", JNum (num_of_Z (status r))); ("ok", JBool (response_ok r))].

(** A settled promise. *)
Inductive outcome := Resolved (v : jsval) | Rejected (v : jsval).

(** A thrown error has a message, but no status. *)
Definition error_value (e : jserror) : jsval :=
  match e with
  | TypeError m | GenericError m => JObj [("message", JStr m)]
  end.

Definition of_result (m : result jsval) : outcome :=
  match m with Ok v => Resolved v | Throw e => Rejected (error_value e) end.

Section responses.
(** The parser that keeps big integers. *)
Variable json_bigint : string → result jsval.

Definition with_json (r : Response) (m : result jsval) : outcome :=
  of_result ((λ v, JObj [("response", response_value r); ("json", v)]) <$> m).

(** @source core/connection/callApi/parseResponse.ts 28-90 parseResponse *)
Definition parseResponse (r : Response) (parseMethod : jsval) : outcome :=
  if negb (response_ok r) then Rejected (response_value r)
  else
    match parseMethod with
    | JNull => Resolved (response_value r)
    | JUndef => with_json r (JSON_parse (text r))
    | JStr m =>
        if bool_decide (m = "raw") then Resolved (response_value r)
        else if bool_decide (m = "text") then
          Resolved (JObj [("response", response_value r); ("text", JStr (text r))])
        else if bool_decide (m = "json-bigint") then with_json r (json_bigint (text r))
        else if bool_decide (m = "json") then with_json r (JSON_parse (text r))
        else Rejected (error_value (GenericError
          ("Expected parseResponse=json|json-bigint|text|raw|null, got '" +:+ m +:+ "'.")))
    | v => Rejected (error_value (GenericError
        ("Expected parseResponse=json|json-bigint|text|raw|null, got '" +:+ to_string v +:+ "'.")))
    end.
End responses.

(** ** The client *)

(** @source core/connection/SupersetClientClass.ts 42-67 SupersetClientClass *)
Record Client := {
  credentials : jsval;
  csrfToken : jsval;
  csrfPromise : option nat;
  guestToken : jsval;
  fetchRetryOptions : jsobj;
  appRoot : string;
  protocol : string;
  host : string;
  headers : jsobj;
  mode : jsval;
  timeout : jsval;
}.

(** @source core/connection/constants.ts 32-36 DEFAULT_FETCH_RETRY_OPTIONS *)
Definition DEFAULT_FETCH_RETRY_OPTIONS : jsobj :=
  [("retries", JNum (num_of_Z 3)); ("retryDelay", JNum (num_of_Z 1000));
   ("retryOn", JArr (JNum ∘ num_of_Z <$> [502; 503; 504]%Z))].

(** A task that waits for the token: a request with its number, or a form. *)
Inductive Task :=
| SendRequest (id : nat) (config : RequestConfig)
| SendForm (endpoint : string) (payload : jsobj) (target : string).

(** Who waits for the answer to a call: the promise of a token, or a request. *)
Inductive Caller :=
| ForToken (promise : nat)
| ForRequest (id : nat) (ignoreUnauthorized : bool).

(** A call that is not answered; a call that timed out is [abandoned], its
    answer still reaches the cache. *)
Record Call := {
  c_caller : Caller;
  c_request : ApiRequest;
  c_parse : jsval;
  c_timeout : jsval;
  c_abandoned : bool;
}.

Inductive Output :=
| Fetch (caller : Caller) (request : ApiRequest)
| Submit (action target : string) (fields : jsobj)
| Unauthorized.

Record World := {
  client : Client;
  promises : list (option outcome);
  waiting : list (option nat * Task);
  calls : list Call;
  settled : list (nat * outcome);
  requests : nat;
  outputs : list Output;
  cache : list (string * Response);
}.

Inductive Answer := Failed (error : jsval) | TimedOut | Answered (r : Response).

Inductive event :=
| CallInit (force : bool)
| CallRequest (config : RequestConfig)
| CallPostForm (endpoint : string) (payload : jsobj) (target : string)
| Resume (n : nat)
| Respond (n : nat) (a : Answer).

Implicit Types (w : World) (c : Client).

Definition with_client c w : World :=
  {| client := c; promises := promises w; waiting := waiting w; calls := calls w; settled := settled w;
     requests := requests w; outputs := outputs w; cache := cache w |}.

Definition with_promises ps w : World :=
  {| client := client w; promises := ps; waiting := waiting w; calls := calls w; settled := settled w;
     requests := requests w; outputs := outputs w; cache := cache w |}.

Definition with_waiting ts w : World :=
  {| client := client w; promises := promises w; waiting := ts; calls := calls w; settled := settled w;
     requests := requests w; outputs := outputs w; cache := cache w |}.

Definition with_calls cs w : World :=
  {| client := client w; promises := promises w; waiting := waiting w; calls := cs; settled := settled w;
     requests := requests w; outputs := outputs w; cache := cache w |}.

Definition with_cache ch w : World :=
  {| client := client w; promises := promises w; waiting := waiting w; calls := calls w; settled := settled w;
     requests := requests w; outputs := outputs w; cache := ch |}.

Definition output o w : World :=
  {| client := client w; promises := promises w; waiting := waiting w; calls := calls w; settled := settled w;
     requests := requests w; outputs := outputs w ++ [o]; cache := cache w |}.

Definition settle (id : nat) (o : outcome) w : World :=
  {| client := client w; promises := promises w; waiting := waiting w; calls := calls w;
     settled := settled w ++ [(id, o)]; requests := requests w; outputs := outputs w; cache := cache w |}.

(** A task waits for the promise of the token, if there is one. *)
Definition await_auth (t : Task) w : World := with_waiting (waiting w ++ [(csrfPromise (client w), t)]) w.

Definition next_request w : World :=
  {| client := client w; promises := promises w; waiting := waiting w; calls := calls w; settled := settled w;
     requests := S (requests w); outputs := outputs w; cache := cache w |}.

Definition set_token (token : jsval) c : Client :=
  {| credentials := credentials c; csrfToken := token; csrfPromise := csrfPromise c; guestToken := guestToken c;
     fetchRetryOptions := fetchRetryOptions c; appRoot := appRoot c; protocol := protocol c; host := host c;
     headers := match token with JStr _ => oset "X-CSRFToken" token (headers c) | _ => headers c end;
     mode := mode c; timeout := timeout c |}.

Definition await_token (p : nat) c : Client :=
  {| credentials := credentials c; csrfToken := JUndef; csrfPromise := Some p; guestToken := guestToken c;
     fetchRetryOptions := fetchRetryOptions c; appRoot := appRoot c; protocol := protocol c; host := host c;
     headers := headers c; mode := mode c; timeout := timeout c |}.

(** @source core/connection/SupersetClientClass.ts 156-159 isAuthenticated *)
Definition isAuthenticated c : bool := negb (is_nullish (csrfToken c)).

Definition drop_last (s : string) : string := string_take (String.length s - 1) s.

Definition ends_with_slash (s : string) : bool :=
  bool_decide (string_drop (String.length s - 1) s = "/").

(** @source core/connection/SupersetClientClass.ts 260-277 getUrl *)
Definition getUrl c (inputHost endpoint url : jsval) : string :=
  match url with
  | JStr url => url
  | _ =>
      let host := to_string (js_nullish inputHost (JStr (host c))) in
      let cleanHost := if ends_with_slash host then drop_last host else host in
      let endpoint := to_string (with_default endpoint (JStr EmptyString)) in
      protocol c +:+ "//" +:+ cleanHost +:+ appRoot c +:+ "/" +:+
      match endpoint with String "/" rest => rest | _ => endpoint end
  end.

Section client.
(** The host and the protocol of an address, an address with search parameters,
    the parser of big numbers, and whether the page has a cache. *)
Variables url_host url_protocol : string → string.
Variable with_search : string → jsval → string.
Variable json_bigint : string → result jsval.
Variable cache_enabled : bool.

(** The promise of a token that is given is settled from the start.

    @source core/connection/SupersetClientClass.ts 69-109 constructor *)
Definition new_SupersetClientClass (config : jsobj) : Client :=
  let or_text k d := match ofield k config with JStr EmptyString => d | JStr s => s | _ => d end in
  let url := or_text "protocol" "https:" +:+ "//" +:+ or_text "host" "localhost" in
  let csrfToken := ofield "csrfToken" config in
  let guestToken := ofield "guestToken" config in
  let headers := ospread [("Accept", JStr "application/json")] (object_entries (ofield "headers" config)) in
  let headers := match csrfToken with JStr _ => oset "X-CSRFToken" csrfToken headers | _ => headers end in
  {| appRoot := to_string (with_default (ofield "appRoot" config) (JStr EmptyString));
     host := url_host url;
     protocol := url_protocol url;
     headers := if truthy guestToken
                then oset (to_string (with_default (ofield "guestTokenHeaderName" config) (JStr "X-GuestToken")))
                       guestToken headers
                else headers;
     mode := with_default (ofield "mode" config) (JStr "same-origin");
     timeout := ofield "timeout" config;
     credentials := ofield "credentials" config;
     csrfToken := csrfToken;
     csrfPromise := match csrfToken with JStr _ => Some 0 | _ => None end;
     guestToken := guestToken;
     fetchRetryOptions := ospread DEFAULT_FETCH_RETRY_OPTIONS (object_entries (ofield "fetchRetryOptions" config)) |}.

Definition new_world (config : jsobj) : World :=
  {| client := new_SupersetClientClass config;
     promises := match ofield "csrfToken" config with JStr s => [Some (Resolved (JStr s))] | _ => [] end;
     waiting := []; calls := []; settled := []; requests := 0; outputs := []; cache := [] |}.

(** The ETag of an answer in the cache goes along.

    @source core/connection/callApi/callApi.ts 98-110 callApi (conditional request) *)
Definition conditional w (r : ApiRequest) : ApiRequest :=
  match (if cache_enabled && cacheable r then aget (req_url r) (cache w) else None) with
  | Some cached =>
      {| req_url := req_url r; req_method := req_method r;
         req_headers := oset "If-None-Match" (match etag cached with Some e => JStr e | None => JNull end) (req_headers r);
         req_body := req_body r; req_credentials := req_credentials r; req_mode := req_mode r;
         req_cache := req_cache r; req_redirect := req_redirect r; req_signal := req_signal r |}
  | None => r
  end.

Definition send (caller : Caller) (parse tout : jsval) (r : ApiRequest) w : World :=
  let r := conditional w r in
  output (Fetch caller r)
    (with_calls (calls w ++ [{| c_caller := caller; c_request := r; c_parse := parse; c_timeout := tout;
                                c_abandoned := false |}]) w).

(** The token is forgotten while a new one is on its way.

    @source core/connection/SupersetClientClass.ts 230-258 getCSRFToken *)
Definition getCSRFToken w : World :=
  let c := client w in
  let p := length (promises w) in
  let r := {| req_url := getUrl c JUndef (JStr "/api/v1/security/csrf_token/") JUndef;
              req_method := "GET"; req_headers := headers c; req_body := GivenBody JUndef;
              req_credentials := with_default (credentials c) (JStr "same-origin");
              req_mode := with_default (mode c) (JStr "same-origin");
              req_cache := JStr "default"; req_redirect := JStr "follow"; req_signal := JUndef |} in
  send (ForToken p) (JStr "json") (timeout c) r
    (with_promises (promises w ++ [None]) (with_client (await_token p c) w)).

(** @source core/connection/SupersetClientClass.ts 111-116 init *)
Definition init (force : bool) w : World :=
  if isAuthenticated (client w) && negb force then w else getCSRFToken w.

(** The options of a request that its call is made with.

    @source core/connection/SupersetClientClass.ts 201-209 request *)
Definition call_config c (config : RequestConfig) : RequestConfig :=
  let o := options config in
  let rest := rest_of ["credentials"; "mode"; "endpoint"; "host"; "url"; "headers"; "timeout";
                       "fetchRetryOptions"; "ignoreUnauthorized"] o in
  {| options :=
       oset "fetchRetryOptions" (js_nullish (ofield "fetchRetryOptions" o) (JObj (fetchRetryOptions c)))
      (oset "timeout" (js_nullish (ofield "timeout" o) (timeout c))
      (oset "headers" (JObj (ospread (headers c) (object_entries (ofield "headers" o))))
      (oset "url" (JStr (getUrl c (ofield "host" o) (ofield "endpoint" o) (ofield "url" o)))
      (oset "mode" (js_nullish (ofield "mode" o) (mode c))
      (oset "credentials" (js_nullish (ofield "credentials" o) (credentials c)) rest)))));
     form := form config |}.

Definition ignore_unauthorized (config : RequestConfig) : bool :=
  truthy (with_default (ofield "ignoreUnauthorized" (options config)) (JBool false)).

(** The request after it got the token; an unusable payload rejects it.

    @source core/connection/SupersetClientClass.ts 189-216 request *)
Definition send_request (id : nat) (config : RequestConfig) w : World :=
  let config' := call_config (client w) config in
  match callApi with_search config' with
  | Ok r =>
      send (ForRequest id (ignore_unauthorized config)) (ofield "parseMethod" (options config'))
        (ofield "timeout" (options config')) r w
  | Throw e => settle id (Rejected (error_value e)) w
  end.

(** @source core/connection/SupersetClientClass.ts 118-150 postForm *)
Definition submit_form (endpoint : string) (payload : jsobj) (target : string) w : World :=
  let c := client w in
  let fields := oset "csrf_token" (csrfToken c) payload in
  output (Submit (getUrl c JUndef (JStr endpoint) JUndef) target
            (if truthy (guestToken c) then oset "guest_token" (guestToken c) fields else fields)) w.

(** The rejection of a request that was made before there was any token.

    @source core/connection/SupersetClientClass.ts 218-228 ensureAuth *)
Definition no_token c : jsval :=
  JObj [("error", JStr ("SupersetClient has not been provided a CSRF token, ensure it is
        initialized with `client.getCSRFToken()` or try logging in at
        " +:+ getUrl c JUndef (JStr "/login") JUndef))].

(** A task goes on when the promise it waits for is settled.

    @source core/connection/SupersetClientClass.ts 201-216 request (after the token) *)
Definition resume_task (t : Task) (o : outcome) w : World :=
  match t, o with
  | SendRequest id config, Resolved _ => send_request id config w
  | SendRequest id _, Rejected e => settle id (Rejected e) w
  | SendForm endpoint payload target, Resolved _ => submit_form endpoint payload target w
  | SendForm _ _ _, Rejected _ => w
  end.

Definition auth_outcome w (p : option nat) : option outcome :=
  match p with
  | None => Some (Rejected (no_token (client w)))
  | Some i => default None (promises w !! i)
  end.

Definition keep_token (json : jsval) c : Client :=
  if typeof_object json then set_token (opt_field "result" json) c else c.

(** The token of an answer is kept, and sent from now on when it is a text.

    @source core/connection/SupersetClientClass.ts 244-256 getCSRFToken (answer) *)
Definition receive_token (p : nat) (o : outcome) w : World :=
  match o with
  | Rejected e => with_promises (<[p := Some (Rejected e)]> (promises w)) w
  | Resolved v =>
      match opt_field "json" v with
      | JNull =>
          with_promises (<[p := Some (Rejected (error_value
            (TypeError "Cannot read properties of null (reading 'result')")))]> (promises w)) w
      | json =>
          let c := keep_token json (client w) in
          let w := with_client c w in
          with_promises
            (<[p := Some (if isAuthenticated c then Resolved (csrfToken c)
                          else Rejected (JObj [("error", JStr "Failed to fetch CSRF token")]))]> (promises w)) w
      end
  end.

(** @source core/connection/SupersetClientClass.ts 210-215 request (catch) *)
Definition receive_answer (id : nat) (ignoreUnauthorized : bool) (o : outcome) w : World :=
  let unauthorized :=
    match o with
    | Rejected res => strict_eq (opt_field "status" res) (JNum (num_of_Z 401)) && negb ignoreUnauthorized
    | Resolved _ => false
    end in
  settle id o (if unauthorized then output Unauthorized w else w).

Definition deliver (caller : Caller) (o : outcome) w : World :=
  match caller with
  | ForToken p => receive_token p o w
  | ForRequest id ignoreUnauthorized => receive_answer id ignoreUnauthorized o w
  end.

(** A new answer with an ETag is kept; when nothing has changed since, the
    answer that was kept is taken.

    @source core/connection/callApi/callApi.ts 112-128 callApi (answer) *)
Definition through_cache (r : ApiRequest) (answer : Response) w : result Response * World :=
  if cache_enabled && cacheable r then
    if bool_decide (status answer = 304%Z) then
      (match aget (req_url r) (cache w) with
       | Some cached => Ok cached
       | None => Throw (GenericError "Received 304 but no content is cached!")
       end, w)
    else if bool_decide (status answer = 200%Z) &&
            match etag answer with Some (String _ _) => true | _ => false end
    then (Ok answer, with_cache (aset (req_url r) answer (adel (req_url r) (cache w))) w)
    else (Ok answer, w)
  else (Ok answer, w).

Definition can_time_out (v : jsval) : bool :=
  match v with JNum x => num_ltb (num_of_Z 0) x | _ => false end.

Definition abandon (call : Call) : Call :=
  {| c_caller := c_caller call; c_request := c_request call; c_parse := c_parse call;
     c_timeout := c_timeout call; c_abandoned := true |}.

Definition answer_outcome (call : Call) (m : result Response) : outcome :=
  match m with
  | Ok r => parseResponse json_bigint r (c_parse call)
  | Throw e => Rejected (error_value e)
  end.

(** What the end of the [n]-th open call does; a call can only time out once,
    and only with a limit.

    @source core/connection/callApi/callApiAndParseWithTimeout.ts 25-39 callApiAndParseWithTimeout *)
Definition respond (n : nat) (a : Answer) w : option World :=
  call ← calls w !! n;
  match a with
  | Failed e =>
      let w := with_calls (delete n (calls w)) w in
      Some (if c_abandoned call then w else deliver (c_caller call) (Rejected e) w)
  | TimedOut =>
      if c_abandoned call || negb (can_time_out (c_timeout call)) then None
      else
        Some (deliver (c_caller call)
                (Rejected (JObj [("error", JStr "Request timed out"); ("statusText", JStr "timeout");
                                 ("timeout", c_timeout call)]))
                (with_calls (<[n := abandon call]> (calls w)) w))
  | Answered r =>
      let answer := through_cache (c_request call) r (with_calls (delete n (calls w)) w) in
      Some (if c_abandoned call then answer.2
            else
              deliver (c_caller call) (answer_outcome call answer.1) answer.2)
  end.

(** One event; not every event is possible. *)
Definition step w (e : event) : option World :=
  match e with
  | CallInit force => Some (init force w)
  | CallRequest config => Some (next_request (await_auth (SendRequest (requests w) config) w))
  | CallPostForm endpoint payload target =>
      Some (match endpoint with
            | EmptyString => w
            | _ => await_auth (SendForm endpoint payload target) w
            end)
  | Resume n =>
      task ← waiting w !! n;
      o ← auth_outcome w (task : option nat * Task).1;
      Some (resume_task task.2 o (with_waiting (delete n (waiting w)) w))
  | Respond n a => respond n a w
  end.

Fixpoint run w (es : list event) : option World :=
  match es with
  | [] => Some w
  | e :: es => w ← step w e; run w es
  end.
End client.

(** @source core/connection/SupersetClientClass.ts 165-187 get, delete, put, post *)
Definition with_method (method : string) (config : RequestConfig) : RequestConfig :=
  {| options := oset "method" (JStr method) (options config); form := form config |}.
