(* ===== verification/ConnectionFacts.v ===== *)
(** * Requests wait for the token, and every one is settled

    A request leaves the client only after a token was received, and carries the
    newest one; each request is in exactly one place, and when nothing is under
    way any more, every request is settled. *)

From Stdlib Require Import Ascii String Lia.
From stdpp Require Import base strings option numbers list.
From S2P Require Import Prelude JsObject JsNumber JsValue JsJson Query Connection.

(** Comparing two tasks that go on unfolds this first, before what they do. *)
Strategy expand [resume_task].

Section facts.
Variables url_host url_protocol : string → string.
Variable with_search : string → jsval → string.
Variable json_bigint : string → result jsval.
Variable cache_enabled : bool.

Implicit Types (w : World) (c : Client).

Abbreviation new_world := (new_world url_host url_protocol).
Abbreviation step := (step with_search json_bigint cache_enabled).
Abbreviation run := (run with_search json_bigint cache_enabled).
Abbreviation send_request := (send_request with_search cache_enabled).
Abbreviation send := (send cache_enabled).

Lemma run_app w es es' : run w (es ++ es') = (w ← run w es; run w es').
Proof.
  revert w. induction es as [|e es IH]; intros w; [done|]. simpl. destruct (step w e); simpl; [apply IH|done].
Qed.

(** Rule induction over the runs. *)
Lemma run_ind (P : World → Prop) w0 es w :
  P w0 → (∀ w e w', P w → step w e = Some w' → P w') → run w0 es = Some w → P w.
Proof.
  intros H0 Hstep. revert w0 H0. induction es as [|e es IH]; intros w0 H0 Hrun; [by injection Hrun as <-|].
  simpl in Hrun. apply bind_Some in Hrun as (w1 & H1 & Hrun). eauto.
Qed.

Lemma step_resume w n w' :
  step w (Resume n) = Some w' →
  ∃ p t o, waiting w !! n = Some (p, t) ∧ auth_outcome w p = Some o ∧
           w' = resume_task with_search cache_enabled t o (with_waiting (delete n (waiting w)) w).
Proof.
  cbn [Connection.step]. intros Hs. apply bind_Some in Hs as ([p t] & Hn & Hs).
  apply bind_Some in Hs as (o & Ho & Hs). exists p, t, o. split; [done|]. split; [done|].
  apply (inj Some) in Hs. symmetry. exact Hs.
Qed.

(** ** Where the requests are *)

Definition task_id (t : Task) : option nat :=
  match t with SendRequest id _ => Some id | SendForm _ _ _ => None end.

(** The request that waits for the answer to a call. *)
Definition call_id (call : Call) : option nat :=
  if c_abandoned call then None
  else match c_caller call with ForRequest id _ => Some id | ForToken _ => None end.

Definition waiting_ids w : list nat := omap (task_id ∘ snd) (waiting w).
Definition open_ids w : list nat := omap call_id (calls w).
Definition settled_ids w : list nat := (settled w).*1.

Definition request_ids w : list nat := waiting_ids w ++ open_ids w ++ settled_ids w.

Lemma omap_delete {A B} (f : A → option B) (l : list A) n x :
  l !! n = Some x → omap f l ≡ₚ option_list (f x) ++ omap f (delete n l).
Proof.
  intros Hn. rewrite <- (take_drop_middle _ _ _ Hn) at 1. rewrite delete_take_drop, !omap_app. simpl.
  destruct (f x); simpl; [symmetry; apply Permutation_middle|done].
Qed.

Lemma omap_insert {A B} (f : A → option B) (l : list A) n x y :
  l !! n = Some x → f y = None → omap f l ≡ₚ option_list (f x) ++ omap f (<[n := y]> l).
Proof.
  intros Hn Hy. rewrite (omap_delete f l n x Hn). f_equiv.
  assert (n < length l) as Hlt by by eapply lookup_lt_Some.
  rewrite insert_take_drop, delete_take_drop, !omap_app by done. simpl. by rewrite Hy.
Qed.

Definition caller_id (caller : Caller) : option nat :=
  match caller with ForRequest id _ => Some id | ForToken _ => None end.

Lemma send_ids caller parse tout r w :
  request_ids (send caller parse tout r w) ≡ₚ option_list (caller_id caller) ++ request_ids w.
Proof.
  unfold request_ids, waiting_ids, open_ids, settled_ids. simpl. rewrite omap_app. simpl.
  unfold call_id at 2. simpl. destruct caller as [p|id ign]; simpl; [by rewrite app_nil_r|].
  rewrite <- app_assoc, app_assoc. simpl. rewrite <- Permutation_middle, <- app_assoc. done.
Qed.

Lemma settle_ids id o w : request_ids (settle id o w) ≡ₚ id :: request_ids w.
Proof.
  unfold request_ids, waiting_ids, open_ids, settled_ids. simpl. rewrite fmap_app. simpl.
  rewrite !app_assoc. rewrite <- Permutation_cons_append. done.
Qed.

Lemma deliver_ids caller o w : request_ids (deliver caller o w) ≡ₚ option_list (caller_id caller) ++ request_ids w.
Proof.
  destruct caller as [p|id ign]; simpl.
  - unfold receive_token. destruct o; [|done]. by repeat case_match.
  - unfold receive_answer. rewrite settle_ids. by repeat case_match.
Qed.

Lemma resume_ids t o w :
  request_ids (resume_task with_search cache_enabled t o w) ≡ₚ option_list (task_id t) ++ request_ids w.
Proof.
  destruct t as [id config|endpoint payload target], o; simpl; [|by rewrite settle_ids|done|done].
  unfold Connection.send_request. destruct (callApi _ _); [by rewrite send_ids|by rewrite settle_ids].
Qed.

Lemma through_cache_ids r a w : request_ids (through_cache cache_enabled r a w).2 = request_ids w.
Proof. unfold through_cache. by repeat case_match. Qed.

Lemma delete_call_ids w n call :
  calls w !! n = Some call →
  request_ids w ≡ₚ option_list (call_id call) ++ request_ids (with_calls (delete n (calls w)) w).
Proof.
  intros Hn. unfold request_ids, waiting_ids, open_ids, settled_ids. simpl.
  rewrite (omap_delete call_id _ _ _ Hn). rewrite !app_assoc. f_equiv.
  rewrite <- !app_assoc. rewrite Permutation_app_swap_app. done.
Qed.

Lemma respond_ids n a w w' :
  respond json_bigint cache_enabled n a w = Some w' → request_ids w' ≡ₚ request_ids w.
Proof.
  intros Hr. unfold respond in Hr. apply bind_Some in Hr as (call & Hn & Hr).
  assert (Hcall : c_abandoned call = false → call_id call = caller_id (c_caller call)).
  { intros Hab. unfold call_id. by rewrite Hab. }
  destruct a as [e| |r].
  - injection Hr as <-. rewrite (delete_call_ids w n call Hn). destruct (c_abandoned call) eqn:Hab.
    + unfold call_id. by rewrite Hab.
    + by rewrite deliver_ids, Hcall.
  - destruct (c_abandoned call) eqn:Hab; [done|]. destruct (can_time_out _); [|done]. injection Hr as <-.
    rewrite deliver_ids, <- Hcall by done. unfold request_ids, waiting_ids, open_ids, settled_ids. simpl.
    rewrite (omap_insert call_id _ _ _ (abandon call) Hn) by done.
    rewrite !app_assoc. f_equiv. rewrite <- !app_assoc. symmetry. apply Permutation_app_swap_app.
  - injection Hr as <-. rewrite (delete_call_ids w n call Hn). destruct (c_abandoned call) eqn:Hab.
    + rewrite through_cache_ids. unfold call_id. by rewrite Hab.
    + by rewrite deliver_ids, through_cache_ids, Hcall.
Qed.

Lemma deliver_requests caller o w : requests (deliver caller o w) = requests w.
Proof.
  destruct caller as [p|id ign]; simpl; [unfold receive_token|unfold receive_answer]; by repeat case_match.
Qed.

Lemma through_cache_requests r a w : requests (through_cache cache_enabled r a w).2 = requests w.
Proof. unfold through_cache. by repeat case_match. Qed.

Lemma respond_requests n a w w' :
  respond json_bigint cache_enabled n a w = Some w' → requests w' = requests w.
Proof.
  unfold respond. intros Hr. apply bind_Some in Hr as (call & Hn & Hr). destruct a.
  - injection Hr as <-. destruct (c_abandoned call); [done|by rewrite deliver_requests].
  - destruct (_ || _); [done|]. injection Hr as <-. by rewrite deliver_requests.
  - injection Hr as <-. destruct (c_abandoned call); by rewrite ?deliver_requests, through_cache_requests.
Qed.

Lemma send_request_requests id config w : requests (send_request id config w) = requests w.
Proof. unfold Connection.send_request. by destruct (callApi _ _). Qed.

Lemma resume_requests t o w : requests (resume_task with_search cache_enabled t o w) = requests w.
Proof. destruct t, o; [apply send_request_requests|done|done|done]. Qed.

Lemma step_requests w e w' :
  step w e = Some w' →
  request_ids w' ≡ₚ match e with CallRequest _ => [requests w] | _ => [] end ++ request_ids w ∧
  requests w' = match e with CallRequest _ => S (requests w) | _ => requests w end.
Proof.
  destruct e as [force|config|endpoint payload target|n|n a]; cbn [Connection.step]; intros Hs.
  - injection Hs as <-. unfold init. destruct (_ && _); [done|]. split; [|done]. unfold getCSRFToken.
    by rewrite send_ids.
  - injection Hs as <-. split; [|done]. unfold request_ids, waiting_ids, open_ids, settled_ids. simpl.
    rewrite omap_app. simpl. rewrite <- app_assoc. symmetry. apply Permutation_middle.
  - injection Hs as <-. destruct endpoint; [done|]. split; [|done].
    unfold request_ids, waiting_ids, open_ids, settled_ids. simpl. rewrite omap_app. simpl. by rewrite app_nil_r.
  - apply step_resume in Hs as (p & t & o & Hn & Ho & ->).
    split; [|by rewrite resume_requests].
    rewrite resume_ids. unfold request_ids, waiting_ids, open_ids, settled_ids. simpl.
    rewrite (omap_delete (task_id ∘ snd) _ _ _ Hn). simpl. by rewrite app_assoc.
  - split; [by eapply respond_ids|by eapply respond_requests].
Qed.
(** ** The promises *)

(** The promise of a token is pending only while its call is open. *)
Definition has_call w (i : nat) : Prop :=
  ∃ call, call ∈ calls w ∧ c_caller call = ForToken i ∧ c_abandoned call = false.

Record promises_ok w : Prop := {
  po_client : ∀ i, csrfPromise (client w) = Some i → i < length (promises w);
  po_waiting : ∀ i t, (Some i, t) ∈ waiting w → i < length (promises w);
  po_pending : ∀ i, promises w !! i = Some None → has_call w i;
  po_resolved : ∀ i v, promises w !! i = Some (Some (Resolved v)) → is_nullish v = false;
}.

Lemma keep_token_promise json c : csrfPromise (keep_token json c) = csrfPromise c.
Proof. unfold keep_token. by destruct (typeof_object json). Qed.

(** What delivering an answer does to the promises. *)
Lemma deliver_promises caller o w :
  csrfPromise (client (deliver caller o w)) = csrfPromise (client w) ∧
  waiting (deliver caller o w) = waiting w ∧ calls (deliver caller o w) = calls w ∧
  match caller with
  | ForToken p => ∃ o', promises (deliver caller o w) = <[p := Some o']> (promises w) ∧
                        (∀ v, o' = Resolved v → is_nullish v = false)
  | ForRequest _ _ => promises (deliver caller o w) = promises w
  end.
Proof.
  destruct caller as [p|id ign].
  - destruct o as [v|e]; [|simpl; split_and!; try done; by eexists].
    simpl. unfold receive_token.
    destruct (opt_field "json" v) as [| | | | | |]; cbn [client with_client with_promises csrfPromise];
      rewrite ?keep_token_promise; (split_and!; [done|done|done|]; eexists; (split; [reflexivity|])); try done;
      (intros v' Hv; unfold isAuthenticated in Hv; destruct (is_nullish (csrfToken _)) eqn:Ht; simpl in Hv;
       by simplify_eq).
  - simpl. unfold receive_answer. by repeat case_match.
Qed.

Lemma send_promises_ok caller parse tout r w : promises_ok w → promises_ok (send caller parse tout r w).
Proof.
  intros [H1 H2 H3 H4]. constructor; simpl; try done.
  intros i (call & Hin & Hc)%H3. exists call. split; [|done]. apply elem_of_app. by left.
Qed.

Lemma resume_promises_ok t o w : promises_ok w → promises_ok (resume_task with_search cache_enabled t o w).
Proof.
  intros Hok. destruct t as [id config|endpoint payload target], o; simpl; [|by destruct Hok|by destruct Hok|done].
  unfold Connection.send_request. destruct (callApi _ _); [by apply send_promises_ok|by destruct Hok].
Qed.

Lemma elem_of_delete_ne {A} (l : list A) n x y : l !! n = Some x → y ∈ l → y = x ∨ y ∈ delete n l.
Proof.
  intros Hn Hy. rewrite <- (take_drop_middle _ _ _ Hn) in Hy. rewrite delete_take_drop.
  apply elem_of_app in Hy as [Hy|[-> |Hy]%elem_of_cons]; [|by left|]; right; apply elem_of_app; auto.
Qed.

Lemma elem_of_insert_ne {A} (l : list A) n x y z : l !! n = Some x → y ∈ l → y = x ∨ y ∈ <[n := z]> l.
Proof.
  intros Hn Hy. apply list_elem_of_lookup in Hy as [i Hi]. destruct (decide (i = n)) as [-> |Hne].
  - left. congruence.
  - right. apply list_elem_of_lookup. exists i. by rewrite list_lookup_insert_ne.
Qed.

(** Delivering the answer to a call that leaves the open ones. *)
Lemma deliver_promises_ok w w1 call o :
  promises_ok w → c_abandoned call = false →
  client w1 = client w → waiting w1 = waiting w → promises w1 = promises w →
  (∀ x, x ∈ calls w → x = call ∨ x ∈ calls w1) →
  promises_ok (deliver (c_caller call) o w1).
Proof.
  intros [H1 H2 H3 H4] Hab Hcl Hwt Hpr Hcalls.
  destruct (deliver_promises (c_caller call) o w1) as (Hc & Hw & Hcs & Hp).
  assert (Hlen : length (promises (deliver (c_caller call) o w1)) = length (promises w)).
  { destruct (c_caller call); [destruct Hp as (o' & -> & _); by rewrite length_insert, Hpr|by rewrite Hp, Hpr]. }
  constructor; rewrite ?Hlen, ?Hc, ?Hw, ?Hcl, ?Hwt; try done.
  - intros i Hi. destruct (c_caller call) as [p|id ign] eqn:Ecall.
    + destruct Hp as (o' & Hp & _). rewrite Hp, Hpr in Hi.
      destruct (decide (i = p)) as [-> |Hne].
      { apply list_lookup_insert_Some in Hi as [(_ & [=] & _)|[? _]]. done. }
      rewrite list_lookup_insert_ne in Hi by done. destruct (H3 i Hi) as (c & Hin & Hci & Hca).
      exists c. rewrite Hcs. split; [|done]. destruct (Hcalls c Hin) as [-> |]; [|done]. congruence.
    + rewrite Hp, Hpr in Hi. destruct (H3 i Hi) as (c & Hin & Hci & Hca).
      exists c. rewrite Hcs. split; [|done]. destruct (Hcalls c Hin) as [-> |]; [|done]. congruence.
  - intros i v Hi. destruct (c_caller call) as [p|id ign].
    + destruct Hp as (o' & Hp & Hv). rewrite Hp, Hpr in Hi.
      apply list_lookup_insert_Some in Hi as [(_ & [= ->] & _)|[_ Hi]]; [by apply Hv|by eapply H4].
    + rewrite Hp, Hpr in Hi. by eapply H4.
Qed.

Lemma remove_promises_ok w w1 call :
  promises_ok w → c_abandoned call = true →
  client w1 = client w → waiting w1 = waiting w → promises w1 = promises w →
  (∀ x, x ∈ calls w → x = call ∨ x ∈ calls w1) → promises_ok w1.
Proof.
  intros [H1 H2 H3 H4] Hab Hcl Hwt Hpr Hcalls. constructor; rewrite ?Hcl, ?Hwt, ?Hpr; try done.
  intros i Hi. destruct (H3 i Hi) as (c & Hin & Hci & Hca). exists c.
  split; [|done]. destruct (Hcalls c Hin) as [-> |]; [|done]. congruence.
Qed.

Lemma through_cache_rest r a w :
  let w' := (through_cache cache_enabled r a w).2 in
  client w' = client w ∧ waiting w' = waiting w ∧ promises w' = promises w ∧ calls w' = calls w.
Proof. unfold through_cache. by repeat case_match. Qed.

Lemma respond_promises_ok n a w w' :
  promises_ok w → respond json_bigint cache_enabled n a w = Some w' → promises_ok w'.
Proof.
  intros Hok Hr. unfold respond in Hr. apply bind_Some in Hr as (call & Hn & Hr).
  assert (Hdel : ∀ x, x ∈ calls w → x = call ∨ x ∈ delete n (calls w)) by (intros x; by apply elem_of_delete_ne).
  destruct a as [e| |r].
  - injection Hr as <-. destruct (c_abandoned call) eqn:Hab.
    + by eapply (remove_promises_ok w _ call).
    + by eapply (deliver_promises_ok w _ call).
  - destruct (c_abandoned call) eqn:Hab; [done|]. destruct (can_time_out _); [|done]. injection Hr as <-.
    eapply (deliver_promises_ok w _ call); try done. intros x Hx. by eapply elem_of_insert_ne.
  - injection Hr as <-.
    destruct (through_cache_rest (c_request call) r (with_calls (delete n (calls w)) w)) as (T1 & T2 & T3 & T4).
    destruct (c_abandoned call) eqn:Hab.
    + eapply (remove_promises_ok w _ call); try done. by rewrite T4.
    + eapply (deliver_promises_ok w _ call); try done. by rewrite T4.
Qed.

Lemma get_token_promises_ok w : promises_ok w → promises_ok (getCSRFToken cache_enabled w).
Proof.
  intros [H1 H2 H3 H4]. constructor; simpl; rewrite ?length_app; simpl.
  - intros i [= <-]. lia.
  - intros i t Hi%H2. lia.
  - intros i [Hi|[Hge Hi]]%lookup_app_Some.
    + destruct (H3 i Hi) as (call & Hin & Hc). exists call. split; [|done]. apply elem_of_app. by left.
    + apply list_lookup_singleton_Some in Hi as [Hi _].
      eexists. split; [apply elem_of_app; right; by apply list_elem_of_singleton|]. simpl. split; [|done]. f_equal. lia.
  - intros i v [Hi|[Hge Hi]]%lookup_app_Some; [by eapply H4|].
    by apply list_lookup_singleton_Some in Hi as [_ [=]].
Qed.

Lemma await_promises_ok t w : promises_ok w → promises_ok (await_auth t w).
Proof.
  intros [H1 H2 H3 H4]. constructor; simpl; try done.
  intros i t' [Hi|Hi%list_elem_of_singleton]%elem_of_app; [by eapply H2|]. injection Hi as Hi _. by apply H1.
Qed.

Lemma step_promises_ok w e w' : promises_ok w → step w e = Some w' → promises_ok w'.
Proof.
  intros Hok. destruct e as [force|config|endpoint payload target|n|n a]; cbn [Connection.step]; intros Hs.
  - injection Hs as <-. unfold init. destruct (_ && _); [done|]. by apply get_token_promises_ok.
  - injection Hs as <-. by destruct (await_promises_ok (SendRequest (requests w) config) w Hok).
  - injection Hs as <-. destruct endpoint; [done|]. by apply await_promises_ok.
  - apply step_resume in Hs as (p & t & o & Hn & Ho & ->).
    apply resume_promises_ok. destruct Hok as [H1 H2 H3 H4]. constructor; simpl; try done.
    intros i t' Hi. eapply H2. rewrite <- (take_drop_middle _ _ _ Hn). rewrite delete_take_drop in Hi.
    apply elem_of_app in Hi as [Hi|Hi]; apply elem_of_app; [by left|]. right. by apply elem_of_cons; right.
  - by eapply respond_promises_ok.
Qed.

Lemma new_promises_ok config : promises_ok (new_world config).
Proof.
  unfold Connection.new_world. constructor; simpl.
  - intros i. destruct (ofield "csrfToken" config); simpl; intros [= <-]. lia.
  - by intros i t ?%elem_of_nil.
  - intros i Hi. destruct (ofield "csrfToken" config); try done. by apply list_lookup_singleton_Some in Hi as [_ [=]].
  - intros i v Hi. destruct (ofield "csrfToken" config); try done. by apply list_lookup_singleton_Some in Hi as [_ [= <-]].
Qed.

Lemma run_promises_ok config es w : run (new_world config) es = Some w → promises_ok w.
Proof.
  apply (run_ind promises_ok); [apply new_promises_ok|]. intros ????. by eapply step_promises_ok.
Qed.

(** ** Every request is settled *)

Lemma run_request_ids w0 es w :
  request_ids w0 ≡ₚ seq 0 (requests w0) → run w0 es = Some w → request_ids w ≡ₚ seq 0 (requests w).
Proof.
  intros H0. apply (run_ind (λ w, request_ids w ≡ₚ seq 0 (requests w))); [done|].
  intros w1 e w' Hw Hs. destruct (step_requests w1 e w' Hs) as [Hp Hr]. rewrite Hp, Hr, Hw.
  destruct e; try done. by rewrite seq_S, (Permutation_app_comm [_]).
Qed.

(** Nothing is under way: no task can go on, and no call is open. *)
Definition quiescent w : Prop := (∀ n, step w (Resume n) = None) ∧ (∀ n a, step w (Respond n a) = None).

Lemma nothing_under_way w : promises_ok w → quiescent w → waiting w = [] ∧ calls w = [].
Proof.
  intros [H1 H2 H3 H4] [Hres Hresp].
  assert (calls w = []) as Hcalls.
  { destruct (calls w) as [|call cs] eqn:E; [done|]. specialize (Hresp 0 (Failed JUndef)).
    cbn [Connection.step] in Hresp. unfold respond in Hresp. by rewrite E in Hresp. }
  split; [|done]. destruct (waiting w) as [|[p t] ts] eqn:E; [done|]. exfalso.
  specialize (Hres 0). cbn [Connection.step] in Hres. rewrite E in Hres. cbn [mbind option_bind lookup list_lookup] in Hres.
  destruct p as [i|]; [|done]. assert (i < length (promises w)) as Hlt by (eapply H2; rewrite ?E; by left).
  apply lookup_lt_is_Some_2 in Hlt as [[o|] Hi].
  - simpl in Hres. by rewrite Hi in Hres.
  - destruct (H3 i Hi) as (call & Hin & _). rewrite Hcalls in Hin. by apply elem_of_nil in Hin.
Qed.

(** What is left to do: the tasks that wait, and the calls with those that
    were given up. *)
Definition call_weight (call : Call) : nat := if c_abandoned call then 1 else 2.
Definition weight w : nat := 3 * length (waiting w) + sum_list_with call_weight (calls w).
Definition internal (e : event) : bool := match e with Resume _ | Respond _ _ => true | _ => false end.

Lemma deliver_weight caller o w : weight (deliver caller o w) = weight w.
Proof.
  destruct (deliver_promises caller o w) as (_ & Hw & Hc & _). unfold weight. by rewrite Hw, Hc.
Qed.

Lemma through_cache_weight r a w : weight (through_cache cache_enabled r a w).2 = weight w.
Proof. destruct (through_cache_rest r a w) as (_ & H1 & _ & H2). unfold weight. by rewrite H1, H2. Qed.

Lemma sum_list_delete (l : list Call) n call :
  l !! n = Some call → sum_list_with call_weight l = call_weight call + sum_list_with call_weight (delete n l).
Proof.
  intros Hn. rewrite <- (take_drop_middle _ _ _ Hn) at 1. rewrite delete_take_drop, !sum_list_with_app. simpl. lia.
Qed.

Lemma step_weight w e w' : internal e = true → step w e = Some w' → weight w' < weight w.
Proof.
  destruct e as [| | |n|n a]; try done; intros _; cbn [Connection.step]; intros Hs.
  - apply step_resume in Hs as (p & t & o & Hn & Ho & ->).
    pose proof (length_delete (waiting w) n ltac:(by eexists)) as Hlen.
    assert (n < length (waiting w)) by by eapply lookup_lt_Some.
    assert (∀ v, weight (resume_task with_search cache_enabled t o v) ≤ 2 + weight v) as Hle.
    { intros v. destruct t as [id config|endpoint payload target], o; cbn [resume_task];
        [|unfold weight; simpl; lia..]. unfold Connection.send_request.
      destruct (callApi _ _); unfold weight; simpl; [rewrite sum_list_with_app; simpl; lia|lia]. }
    eapply Nat.le_lt_trans; [apply Hle|]. unfold weight. simpl. lia.
  - unfold respond in Hs. apply bind_Some in Hs as (call & Hn & Hs).
    pose proof (sum_list_delete _ _ _ Hn) as Hsum.
    assert (0 < call_weight call) by (unfold call_weight; destruct (c_abandoned call); lia).
    destruct a as [e| |r].
    + injection Hs as <-. destruct (c_abandoned call); rewrite ?deliver_weight; unfold weight; simpl; lia.
    + destruct (c_abandoned call) eqn:Hab; [done|]. destruct (can_time_out _); [|done]. injection Hs as <-.
      rewrite deliver_weight. unfold weight. simpl.
      assert (n < length (calls w)) as Hlt by by eapply lookup_lt_Some.
      rewrite insert_take_drop, sum_list_with_app by done. simpl.
      rewrite delete_take_drop, sum_list_with_app in Hsum. unfold call_weight in *. rewrite Hab in *. simpl. lia.
    + injection Hs as <-. destruct (c_abandoned call); rewrite ?deliver_weight, through_cache_weight; unfold weight; simpl; lia.
Qed.

Lemma internal_bounded w es w' :
  forallb internal es = true → run w es = Some w' → length es ≤ weight w.
Proof.
  revert w. induction es as [|e es IH]; intros w Hes Hrun; [simpl; lia|]. simpl in Hes, Hrun.
  apply andb_true_iff in Hes as [He Hes]. apply bind_Some in Hrun as (w1 & H1 & Hrun).
  pose proof (step_weight w e w1 He H1). pose proof (IH w1 Hes Hrun). simpl. lia.
Qed.
(** ** The token of a request *)

Definition X_CSRF : string := "X-CSRFToken".

Definition own_headers (config : RequestConfig) : jsobj := object_entries (ofield "headers" (options config)).

(** The token an event brings, as a text. *)
Definition token_of w (e : event) : option string :=
  match e with
  | Respond n (Answered r) =>
      match calls w !! n with
      | Some call =>
          match c_caller call, c_abandoned call with
          | ForToken _, false =>
              match answer_outcome json_bigint call (through_cache cache_enabled (c_request call) r w).1 with
              | Resolved v => match opt_field "result" (opt_field "json" v) with JStr t => Some t | _ => None end
              | Rejected _ => None
              end
          | _, _ => None
          end
      | None => None
      end
  | _ => None
  end.

(** The newest token after the events, if they brought any. *)
Fixpoint newest w (es : list event) (t : option string) : option string :=
  match es with
  | [] => t
  | e :: es =>
      match step w e with
      | Some w' => newest w' es (match token_of w e with Some t' => Some t' | None => t end)
      | None => t
      end
  end.

Definition header w : jsval := ofield X_CSRF (headers (client w)).

Lemma send_client caller parse tout r w : client (send caller parse tout r w) = client w.
Proof. done. Qed.

Lemma send_outputs caller parse tout r w :
  outputs (send caller parse tout r w) = outputs w ++ [Fetch caller (conditional cache_enabled w r)].
Proof. done. Qed.

Lemma send_request_client id config w : client (send_request id config w) = client w.
Proof. unfold Connection.send_request. by destruct (callApi _ _). Qed.

Lemma resume_client t o w : client (resume_task with_search cache_enabled t o w) = client w.
Proof. destruct t, o; [apply send_request_client|done|done|done]. Qed.

Lemma set_token_header t c :
  ofield X_CSRF (headers (set_token t c)) = match t with JStr _ => t | _ => ofield X_CSRF (headers c) end.
Proof. destruct t; try done. simpl. by rewrite ofield_oset, decide_True. Qed.

Lemma receive_token_header p v w :
  header (receive_token p (Resolved v) w) =
  match opt_field "result" (opt_field "json" v) with JStr t => JStr t | _ => header w end.
Proof.
  assert (Hkeep : ∀ json, header (with_client (keep_token json (client w)) w) =
    match opt_field "result" json with JStr t => JStr t | _ => header w end).
  { intros json. unfold header, keep_token. simpl. destruct (typeof_object json) eqn:Ho.
    - rewrite set_token_header. by destruct (opt_field "result" json).
    - destruct json; done. }
  unfold receive_token. destruct (opt_field "json" v) as [| | | | | |] eqn:E; try apply Hkeep. done.
Qed.

Lemma receive_answer_client id ign o w : client (receive_answer id ign o w) = client w.
Proof. unfold receive_answer. by repeat case_match. Qed.

Lemma deliver_rejected_header caller e w : header (deliver caller (Rejected e) w) = header w.
Proof. destruct caller; [done|]. unfold header. simpl deliver. by rewrite receive_answer_client. Qed.

Lemma through_cache_with_calls r a cs w :
  (through_cache cache_enabled r a (with_calls cs w)).1 = (through_cache cache_enabled r a w).1.
Proof. unfold through_cache. simpl. by repeat case_match. Qed.

Lemma respond_header n a w w' :
  respond json_bigint cache_enabled n a w = Some w' →
  header w' = match token_of w (Respond n a) with Some t => JStr t | None => header w end.
Proof.
  intros Hr. unfold respond in Hr. apply bind_Some in Hr as (call & Hn & Hr). destruct a as [e| |r]; simpl.
  - injection Hr as <-. by destruct (c_abandoned call); rewrite ?deliver_rejected_header.
  - destruct (_ || _); [done|]. injection Hr as <-. by rewrite deliver_rejected_header.
  - rewrite Hn. injection Hr as <-.
    destruct (through_cache_rest (c_request call) r (with_calls (delete n (calls w)) w)) as (T1 & _).
    set (answer := through_cache cache_enabled (c_request call) r (with_calls (delete n (calls w)) w)) in *.
    assert (header answer.2 = header w) as Hh by (unfold header; by rewrite T1).
    destruct (c_abandoned call); [by destruct (c_caller call)|].
    rewrite <- (through_cache_with_calls _ _ (delete n (calls w))). fold answer.
    destruct (c_caller call) as [p|id ign].
    + simpl deliver. destruct (answer_outcome json_bigint call answer.1) as [v|e]; [|done].
      rewrite receive_token_header, Hh. by destruct (opt_field _ _).
    + simpl deliver. unfold header. by rewrite receive_answer_client.
Qed.

Lemma step_header w e w' :
  step w e = Some w' → header w' = match token_of w e with Some t => JStr t | None => header w end.
Proof.
  destruct e as [force|config|endpoint payload target|n|n a]; cbn [Connection.step]; intros Hs.
  - injection Hs as <-. unfold init. by destruct (_ && _).
  - by injection Hs as <-.
  - injection Hs as <-. by destruct endpoint.
  - apply step_resume in Hs as (p & t & o & Hn & Ho & ->).
    unfold header. by rewrite resume_client.
  - by apply respond_header.
Qed.

Lemma run_header w es w' t :
  run w es = Some w' → (∀ s, t = Some s → header w = JStr s) →
  header w' = match newest w es t with Some s => JStr s | None => header w end.
Proof.
  revert w t. induction es as [|e es IH]; intros w t Hrun Ht; simpl in *.
  - injection Hrun as <-. destruct t; [by apply Ht|done].
  - apply bind_Some in Hrun as (w1 & H1 & Hrun). rewrite H1. pose proof (step_header w e w1 H1) as Hh.
    rewrite (IH w1 (match token_of w e with Some t' => Some t' | None => t end) Hrun).
    + destruct (token_of w e) as [s|]; [|by rewrite Hh].
      assert (∀ w es s, newest w es (Some s) ≠ None) as Hsome.
      { clear. intros w es. revert w. induction es as [|e es IH]; intros w s; simpl; [done|].
        destruct (step w e); [|done]. by destruct (token_of w e). }
      destruct (newest w1 es (Some s)) eqn:E; [done|by apply Hsome in E].
    + intros s Hs. destruct (token_of w e) as [s'|]; [by injection Hs as <-|]. rewrite Hh. by apply Ht.
Qed.

(** ** What a request is sent with *)

Lemma payload_body_header config body hs sent k :
  payload_body config body hs = Ok sent → k ≠ "Content-Type" → ofield k sent.2 = ofield k hs.
Proof.
  intros Hp Hk. unfold payload_body in Hp. destruct (_ && _); [done|].
  apply bind_Ok_inv in Hp as (b & _ & Hp). injection Hp as <-.
  destruct (is_undefined _); [done|]. simpl. by rewrite ofield_oset, decide_False.
Qed.

Lemma callApi_header config r k :
  callApi with_search config = Ok r → k ≠ "Content-Type" →
  ofield k (req_headers r) = ofield k (own_headers config).
Proof.
  intros Hc Hk. unfold callApi in Hc. apply bind_Ok_inv in Hc as (sent & Hsent & Hc). injection Hc as <-. simpl.
  destruct (has_payload _); [by eapply payload_body_header|by injection Hsent as <-].
Qed.

Lemma conditional_header w r k :
  k ≠ "If-None-Match" → ofield k (req_headers (conditional cache_enabled w r)) = ofield k (req_headers r).
Proof.
  intros Hk. unfold conditional. case_match; [|done]. simpl. by rewrite ofield_oset, decide_False.
Qed.

(** A request leaves with its own header, or else that of the client. *)
Definition sent_header w config : jsval :=
  if decide (X_CSRF ∈ akeys (own_headers config)) then ofield X_CSRF (own_headers config) else header w.

Lemma send_request_outputs id config w :
  (∃ r, outputs (send_request id config w) = outputs w ++ [Fetch (ForRequest id (ignore_unauthorized config)) r] ∧
        (NoDup (akeys (own_headers config)) → ofield X_CSRF (req_headers r) = sent_header w config)) ∨
  outputs (send_request id config w) = outputs w.
Proof.
  unfold Connection.send_request. destruct (callApi _ _) as [r|e] eqn:Hc; [left|by right].
  eexists. split; [reflexivity|]. intros Hnd. rewrite conditional_header by done.
  rewrite (callApi_header _ _ _ Hc) by done. unfold call_config, own_headers. simpl.
  rewrite !ofield_oset. repeat (rewrite decide_False by done || rewrite decide_True by done). simpl.
  by rewrite ofield_ospread.
Qed.

Definition is_request_fetch (o : Output) : Prop :=
  match o with Fetch (ForRequest _ _) _ => True | _ => False end.

Lemma deliver_outputs caller o w x :
  x ∈ outputs (deliver caller o w) → is_request_fetch x → x ∈ outputs w.
Proof.
  intros Hx Hreq. destruct caller as [p|id ign]; simpl in Hx.
  - unfold receive_token in Hx. destruct o; [|done]. by repeat case_match.
  - unfold receive_answer in Hx. case_match; simpl in Hx; [|done].
    apply elem_of_app in Hx as [Hx|Hx%list_elem_of_singleton]; [done|by subst x].
Qed.

Lemma through_cache_outputs r a w : outputs (through_cache cache_enabled r a w).2 = outputs w.
Proof. unfold through_cache. by repeat case_match. Qed.

Lemma respond_outputs n a w w' x :
  respond json_bigint cache_enabled n a w = Some w' → x ∈ outputs w' → is_request_fetch x → x ∈ outputs w.
Proof.
  intros Hr Hx Hreq. unfold respond in Hr. apply bind_Some in Hr as (call & Hn & Hr). destruct a as [e| |r].
  - injection Hr as <-. destruct (c_abandoned call); [done|]. by apply deliver_outputs in Hx.
  - destruct (_ || _); [done|]. injection Hr as <-. by apply deliver_outputs in Hx.
  - injection Hr as <-. destruct (c_abandoned call); [|apply deliver_outputs in Hx; [|done]];
      by rewrite through_cache_outputs in Hx.
Qed.

(** When and how a request is sent. *)
Definition sent_at w (n id : nat) (ign : bool) (r : ApiRequest) : Prop :=
  ∃ i token config,
    waiting w !! n = Some (Some i, SendRequest id config) ∧
    promises w !! i = Some (Some (Resolved token)) ∧ is_nullish token = false ∧
    (NoDup (akeys (own_headers config)) → ofield X_CSRF (req_headers r) = sent_header w config).

Lemma auth_resolved w p token :
  auth_outcome w p = Some (Resolved token) → ∃ i, p = Some i ∧ promises w !! i = Some (Some (Resolved token)).
Proof.
  destruct p as [i|]; [|by intros]. simpl. intros Ho. exists i. split; [done|].
  destruct (promises w !! i) as [[o|]|]; simpl in Ho; [by injection Ho as ->|done|done].
Qed.

Lemma resume_task_request id config token w :
  resume_task with_search cache_enabled (SendRequest id config) (Resolved token) w = send_request id config w.
Proof. exact eq_refl. Qed.

Lemma resume_task_sends w w1 n p t o id ign r :
  promises_ok w → waiting w !! n = Some (p, t) → auth_outcome w p = Some o →
  outputs w1 = outputs w → client w1 = client w →
  Fetch (ForRequest id ign) r ∈ outputs (resume_task with_search cache_enabled t o w1) →
  Fetch (ForRequest id ign) r ∈ outputs w ∨ sent_at w n id ign r.
Proof.
  intros Hok Hn Ho Hout1 Hc1 Hx.
  destruct t as [id' config|endpoint payload target], o as [token|e];
    [rewrite resume_task_request in Hx|cbn [resume_task] in Hx..].
  - destruct (send_request_outputs id' config w1) as [(r' & Hout & Hh)|Hout]; rewrite Hout, Hout1 in Hx; [|by left].
    apply elem_of_app in Hx as [Hx|Hx%list_elem_of_singleton]; [by left|]. injection Hx as -> -> ->.
    apply auth_resolved in Ho as (i & -> & Hi). right.
    exists i, token, config. split; [exact Hn|]. split; [exact Hi|]. split; [by eapply po_resolved|].
    intros Hnd. rewrite Hh by done. unfold sent_header, header. by rewrite Hc1.
  - left. rewrite <- Hout1. exact Hx.
  - left. unfold submit_form, output in Hx. cbn [outputs] in Hx. rewrite Hout1 in Hx.
    by apply elem_of_app in Hx as [Hx|Hx%list_elem_of_singleton].
  - left. rewrite <- Hout1. exact Hx.
Qed.

Lemma step_sends w e w' id ign r :
  promises_ok w → step w e = Some w' → Fetch (ForRequest id ign) r ∈ outputs w' →
  Fetch (ForRequest id ign) r ∈ outputs w ∨ ∃ n, e = Resume n ∧ sent_at w n id ign r.
Proof.
  intros Hok. destruct e as [force|config|endpoint payload target|n|n a]; cbn [Connection.step]; intros Hs Hx.
  - apply (inj Some) in Hs as <-. left. unfold init in Hx. destruct (_ && _); [done|].
    unfold getCSRFToken in Hx. rewrite send_outputs in Hx.
    by apply elem_of_app in Hx as [Hx|Hx%list_elem_of_singleton].
  - left. by injection Hs as <-.
  - left. injection Hs as <-. by destruct endpoint.
  - apply step_resume in Hs as (p & t & o & Hn & Ho & ->).
    destruct (resume_task_sends w (with_waiting (delete n (waiting w)) w) n p t o id ign r Hok Hn Ho eq_refl eq_refl Hx) as [?|?]; [by left|right; by exists n].
  - left. by eapply respond_outputs.
Qed.

(** C10. No request leaves the client before it has a token.  Whenever a request
    was sent, after any events from the start, there was a moment before at
    which the promise it waited for was settled with a token, and it was sent
    then: with the CSRF header of its own options, or else with the newest token
    that any answer had brought by that time, or else with what the client was
    configured with. *)
Theorem requests_carry_token config es w id ign r :
  run (new_world config) es = Some w →
  Fetch (ForRequest id ign) r ∈ outputs w →
  ∃ before n after w1 i token cfg,
    es = before ++ Resume n :: after ∧ run (new_world config) before = Some w1 ∧
    waiting w1 !! n = Some (Some i, SendRequest id cfg) ∧
    promises w1 !! i = Some (Some (Resolved token)) ∧ is_nullish token = false ∧
    (NoDup (akeys (own_headers cfg)) →
     ofield X_CSRF (req_headers r) =
     if decide (X_CSRF ∈ akeys (own_headers cfg)) then ofield X_CSRF (own_headers cfg)
     else match newest (new_world config) before None with
          | Some t => JStr t
          | None => header (new_world config)
          end).
Proof.
  revert w. induction es as [|e es IH] using rev_ind; intros w Hrun Hx.
  - injection Hrun as <-. by apply elem_of_nil in Hx.
  - rewrite run_app in Hrun. apply bind_Some in Hrun as (w1 & H1 & Hrun). simpl run in Hrun.
    apply bind_Some in Hrun as (w2 & H2 & [= ->]).
    destruct (step_sends w1 e w id ign r (run_promises_ok _ _ _ H1) H2 Hx) as [Hold|(n & -> & Hsent)].
    + destruct (IH w1 H1 Hold) as (before & n & after & w0 & i & token & cfg & -> & Hrest).
      exists before, n, (after ++ [e]), w0, i, token, cfg. split; [by rewrite <- app_assoc|]. exact Hrest.
    + destruct Hsent as (i & token & cfg & Hw & Hp & Ht & Hh).
      exists es, n, [], w1, i, token, cfg. do 5 (split; [done|]). intros Hnd. rewrite Hh by done.
      unfold sent_header. by rewrite (run_header (new_world config) es w1 None).
Qed.

(** C11. Every request is in exactly one place: it waits for the token, its call
    is open, or it is settled; so none is lost, and none is settled twice.  With
    no new calls by the application only finitely many events can follow, and
    when none is possible any more, every request is settled. *)
Theorem requests_settle config es w :
  run (new_world config) es = Some w →
  waiting_ids w ++ open_ids w ++ settled_ids w ≡ₚ seq 0 (requests w) ∧
  (∀ es' w', forallb internal es' = true → run w es' = Some w' →
     length es' ≤ weight w ∧ requests w' = requests w ∧
     (quiescent w' → settled_ids w' ≡ₚ seq 0 (requests w))).
Proof.
  intros Hrun. pose proof (run_request_ids (new_world config) es w (reflexivity _) Hrun) as Hids.
  split; [exact Hids|]. intros es' w' Hint Hrun'.
  assert (run (new_world config) (es ++ es') = Some w') as Hall by (by rewrite run_app, Hrun).
  split; [by eapply internal_bounded|].
  assert (requests w' = requests w) as Hreq.
  { clear -Hint Hrun'. revert w Hrun'. induction es' as [|e es' IH]; intros w Hrun'; [by injection Hrun' as <-|].
    simpl in Hint. apply andb_true_iff in Hint as [He Hes]. apply bind_Some in Hrun' as (w1 & H1 & Hrun').
    rewrite (IH Hes w1 Hrun'). apply step_requests in H1 as [_ ->]. by destruct e. }
  split; [done|]. intros Hq. rewrite <- Hreq.
  rewrite <- (run_request_ids (new_world config) _ w' (reflexivity _) Hall).
  destruct (nothing_under_way w' (run_promises_ok _ _ _ Hall) Hq) as [Hw Hc].
  unfold request_ids, waiting_ids, open_ids. by rewrite Hw, Hc.
Qed.
End facts.

(** A client that asks for its token, makes a request meanwhile, and makes
    another one after the token was renewed. *)
Definition token_answer (t : string) : Response :=
  {| status := 200; etag := None; text := "{" +:+ quoted "result" +:+ ":" +:+ quoted t +:+ "}" |}.

Definition get_charts : RequestConfig :=
  with_method "GET" {| options := [("endpoint", JStr "/api/v1/chart/")]; form := None |}.

Definition a_session : list event :=
  [CallInit false; CallRequest get_charts; Respond 0 (Answered (token_answer "one")); Resume 0;
   CallInit true; Respond 1 (Answered (token_answer "two")); CallRequest get_charts; Resume 0].

#[local] Abbreviation run_session es :=
  (run (λ url _, url) JSON_parse true (new_world (λ _, "localhost") (λ _, "https:") []) es).

(** Both requests were sent, each with the token of its time. *)
Example a_session_tokens :
  omap (λ o, match o with Fetch (ForRequest id _) r => Some (id, ofield X_CSRF (req_headers r)) | _ => None end)
    (default [] (outputs <$> run_session a_session)) = [(0, JStr "one"); (1, JStr "two")].
Proof. vm_compute. reflexivity. Qed.

Lemma requests_carry_token_witness :
  match run_session a_session with
  | Some w =>
      match outputs w with
      | [_; _; _; Fetch (ForRequest id ign) r] =>
          ∃ before n after, a_session = before ++ Resume n :: after ∧ is_Some (run_session before)
      | _ => False
      end
  | None => False
  end.
Proof.
  destruct (run_session a_session) as [w|] eqn:E; [|vm_compute in E; discriminate E].
  let out := eval vm_compute in (default [] (outputs <$> run_session a_session)) in assert (Hout : outputs w = out).
  { transitivity (default [] (outputs <$> run_session a_session)); [rewrite E; reflexivity|vm_compute; reflexivity]. }
  rewrite Hout.
  match type of Hout with _ = [_; _; _; Fetch (ForRequest ?id ?ign) ?r] =>
    destruct (requests_carry_token (λ _, "localhost") (λ _, "https:") (λ url _, url) JSON_parse true [] a_session w
      id ign r E) as (before & n & after & w1 & i & token & cfg & Hes & Hrun & _) end.
  - rewrite Hout. apply list_elem_of_lookup. exists 3. exact eq_refl.
  - exists before, n, after. split; [exact Hes|]. exists w1. exact Hrun.
Defined.

Lemma requests_settle_witness :
  match run_session a_session with
  | Some w => waiting_ids w ++ open_ids w ++ settled_ids w ≡ₚ [0; 1] ∧
      match run (λ url _, url) JSON_parse true w [Respond 0 (Failed JUndef); Respond 0 (Failed JUndef)] with
      | Some w' => length [Respond 0 (Failed JUndef); Respond 0 (Failed JUndef)] ≤ weight w
      | None => False
      end
  | None => False
  end.
Proof.
  destruct (run_session a_session) as [w|] eqn:E; [|vm_compute in E; discriminate E].
  destruct (requests_settle (λ _, "localhost") (λ _, "https:") (λ url _, url) JSON_parse true [] a_session w E)
    as [Hids Hrest].
  assert (Hreq : requests w = default 0 (requests <$> run_session a_session)) by (rewrite E; reflexivity).
  rewrite Hreq in Hids. split; [exact Hids|].
  destruct (run _ _ _ w _) as [w'|] eqn:E'.
  - exact (proj1 (Hrest [Respond 0 (Failed JUndef); Respond 0 (Failed JUndef)] w' eq_refl E')).
  - assert (Hn : run_session (a_session ++ [Respond 0 (Failed JUndef); Respond 0 (Failed JUndef)]) = None).
    { rewrite run_app, E. exact E'. }
    vm_compute in Hn. discriminate Hn.
Defined.
